(* ===== verification/_CoqProject ===== *)
-Q . S2P
Prelude.v
Bytes.v
AonRtc.v
Button.v
EventBus.v
Crc32.v
EfEnv.v
Base64.v
BkEf.v
HalFile.v
Mailbox.v
Dma.v
DmaOps.v
DmaApi.v
AmpCnt.v
MbIpc.v
MbIpcOps.v
Cores.v
MbRpc.v
AmpLock.v
Dhcpd.v
DhcpdTalk.v
FlashDriver.v
FlashOps.v
FlashPort.v
FlashClients.v
Ring.v
ShellUart.v
ShellTask.v
ShellOps.v
ShellLog.v
ShellText.v
ShellCmd.v
LogFilter.v
Cli.v
CliLex.v
CliOps.v
CliRuns.v
CliFwd.v
CliShell.v
DList.v
FrameBuf.v
FrameOps.v
FrameRuns.v
