(* ===== verification/Prelude.v ===== *)
(** * Verification of the Beken BK7235 device support package

    The repository is the device support of a BK7235 system on chip for
    OpenHarmony: the drivers and components of the vendor SDK
    (src/bk7235/liteos_m/bk_sdk_armino), adapters to third-party code
    (src/bk7235/liteos_m/third_party_adapter) and the hardware abstraction layer of
    the operating system (src/bk7235/hals).  This library models the parts that
    keep state and decide something, and proves them correct; the larger rest of
    the repository programs registers.

    ** Parts and files

    - Prelude.v (this file): outcomes of C code and the state monad, weakest
      preconditions, machine integers, bits and bit fields, C string comparison,
      error codes, linked lists in a store, tactics.  Bytes.v: byte buffers, C
      strings, little-endian words.
    - AonRtc.v: the alarm manager of the always-on timer,
      middleware/driver/rtc/aon_rtc_driver.c.
    - Button.v: debouncing and press state machine of push buttons,
      components/key/multi_button.c.
    - EventBus.v: registration and delivery of events through one task,
      components/bk_event/event.c.
    - Crc32.v, EfEnv.v: the persistent key/value environment,
      components/easy_flash/src/ef_utils.c, ef_env.c and port/ef_port.c.
    - Base64.v, BkEf.v: binary buffers in that environment,
      components/base64/base_64.c and components/easy_flash/bk_ef.c.
    - HalFile.v: files kept as values of that environment,
      src/bk7235/hals/utils/file/src/hal_file.c.
    - FlashDriver.v, FlashOps.v, FlashPort.v: the flash driver below the
      environment, middleware/driver/flash/flash_driver.c with the registers of
      soc/bk7235/hal/flash_ll.h and soc/common/hal/flash_hal.c, and the port
      ef_port.c written over it.  FlashClients.v: flash partitions
      (middleware/driver/flash/flash_partition.c) and the IoT flash interface
      (src/bk7235/hals/iot_hardware/wifiiot_lite/hal_iot_flash.c) over the driver.
    - Mailbox.v: logical channels between the two processors,
      middleware/driver/mailbox/mailbox_channel.c.
    - Dma.v, DmaOps.v, DmaApi.v: the general DMA driver,
      middleware/driver/general_dma/dma_driver.c, with the registers of
      soc/bk7235/hal/dma_ll.h and soc/common/hal/dma_hal.c.
    - AmpCnt.v, AmpLock.v: the lock for resources of both processors,
      middleware/driver/spinlock/amp_res_lock.c, with the semaphore calls of
      components/bk_os/liteos_m_mst/rtos_pub.c.
    - MbIpc.v, MbIpcOps.v, Cores.v, MbRpc.v: requests and remote procedure calls
      from one processor to the other, middleware/driver/mailbox/mb_ipc_cmd.c.
    - Dhcpd.v, DhcpdTalk.v: the DHCP server of the soft access point,
      third_party_adapter/lwip_intf_v2_1/dhcpd.
    - Ring.v, ShellUart.v, ShellTask.v, with the theorems in ShellOps.v, ShellLog.v,
      ShellText.v and ShellCmd.v: the shell's serial device, its log path and its
      command line, components/bk_cli/shell_uart.c and shell_task.c.
    - Cli.v, with the theorems in CliLex.v, CliOps.v, CliRuns.v and CliFwd.v: the
      command line interface, components/bk_cli/cli_main.c.  LogFilter.v: the print
      functions and the log of modules, components/bk_system/printf.c and
      printf_base.c.  CliShell.v: the command line interface under the shell.
    - DList.v: the doubly linked lists of components/bk_common/include/bk_list.h.
    - FrameBuf.v, FrameOps.v, FrameRuns.v: the frame buffers of the media component,
      components/media/comm/frame_buffer.c and comm_act.c.

    ** How the parts interact

    - Storage: HalFile is verified against the interface [EnvStore], EfEnv implements
      it on a byte-array flash, BkEf stores text of the codec through it, and
      FlashPort shows that the port over the flash driver implements that byte array
      on any device that obeys the NOR command set ([FlashLaws]).
    - Two processors: a request of MbIpc is a message over a channel of Mailbox; its
      handlers on the other core call the channel pool of Dma and the counters of
      AmpCnt.  Cores composes requests, mailbox and pool, AmpLock puts the lock over
      requests and counters, MbRpc uses a channel of its own.  Dma is verified for
      any engine of class [DmaLaws].
    - Shell: the device of ShellUart is written against a class of clients, which
      ShellTask implements; both keep their queues in the buffers of Ring.  The command
      task hands its line and its response buffer to Cli, whose built-in commands
      change the settings of the log through the class [LogControl]; CliShell
      implements it with ShellTask and LogFilter.  Sorting the commands needs a
      [qsort] of class [QSortLaws].
    - Media: FrameBuf keeps its frames in the lists of DList, over one store.

    AonRtc, Button, EventBus and Dhcpd stand alone.

    ** How code is modelled

    A component's globals are a record; an operation is a function of type
    [M state result] of the monad below, with the guards, early returns and order
    of effects of the source, or a plain function where the source has no effect.
    [Trap] stands for a failed assertion, an invalid access, or a loop that does
    not end.  Integers are [Z] with the wrap-around of their C type written out
    ([u8], [u16], [u32], [u64]); linked lists are stores with pointers, so that
    stale pointers behave as in the source; heap blocks are counted.  What the
    source does not contain is a parameter: counter reads, outcomes of
    allocations, RTOS and socket calls, pin levels, the flash chip, the DMA engine,
    the text vsnprintf makes, what the functions of commands do, the servers of remote calls, the
    numbers and addresses of frames.  Callbacks,
    sent messages and log-worthy effects are traces.  Mutexes and disabled
    interrupts make an operation one step; where a task waits, or another core can
    come in, the operation is split there, and theorems are about sequences of the
    parts.

    Some choices bound what the theorems say.  Both processors are in one state, so
    that memory between them is in order.  One task sends IPC requests at a time,
    as the semaphore of the channel has it.  AmpLock is the code under
    CONFIG_DUAL_CORE, and the command of Cli that forwards to the other processor is that under
    CONFIG_MASTER_CORE; this configuration leaves both off.  In the shell, the hint
    that logs were lost is put out in two steps, since the code reads its flag before
    it disables interrupts; the theorems about the log path leave out runs in which
    two tasks get between the two for the same failure, and such a run, in which the
    pending queue is overrun, is a theorem of its own.  The DMA engine works while
    the software polls it; what it has written is known only once the enable bit was
    found clear, and only when no other transfer is running.

    ** What is proved

    - AonRtc: registration is sorted insertion, removal is removal by name, the
      expiry pass fires exactly the due prefix in order and re-arms periodic
      alarms, the interrupt keeps the invariant within its latency bound; error
      branches; the situations in which an alarm is lost.
    - Button: single click, long press, freedom from glitches; the phases agree with
      the level of the pin and the callbacks come in turn over any samples; the list
      of started buttons.
    - EventBus: the task drains a queue of client requests in order; the registry refines a table of
      subscribers; register and unregister are inverse; calls are atomic.
    - Crc32, EfEnv: table-driven CRC equals the bit-serial one; the cache is a
      finite map of bounded size; a save reaches the area that is not current only, so
      that one cut off anywhere leaves the old content if the check rejects what was
      written; first boot.
    - HalFile: written files read back; descriptors stay well-formed; the escape
      code is lossless.
    - Base64, BkEf: the codec is lossless and keeps to the lengths it announces;
      buffers stored under a key read back.
    - FlashPort: transfers at any alignment, protection, initialisation, clock
      arbitration; refinement of the environment's flash by the driver.
      FlashClients: partition calls touch their partition only, and there only what
      the block protection leaves open; the IoT interface erases exactly the sectors
      of a range.
    - Mailbox: writing, draining in priority order, the round trip of a command.
    - DmaOps, DmaApi: channels have one owner; a copy of any length the engine can
      take has arrived when the call returns, and nothing else has changed; the interrupt routine runs the
      registered handlers of the raised channels; every call returns.
    - MbIpcOps, Cores: a remote call does what the local function does; requests and
      answers pass the mailbox unchanged; DMA channels are exclusive over both
      cores; failures are reported and leave the pool as it was; an answer that
      comes after its timeout is taken for the next.
    - MbRpc: a remote procedure call ends with the server's result in either order
      of the interrupts.
    - AmpCnt, AmpLock: the lock refines an owner with two queues, and every waiting
      request is served; interleavings in which it is not exclusive.
    - Dhcpd, DhcpdTalk: the lease table stays sound over every sequence of
      datagrams; the decision on a request; in a subnet of at least sixteen addresses
      discover and request end in an acknowledged address and assignment terminates
      (in a smaller one it may not); DNS queries are refused.
    - ShellOps, ShellLog: over every interleaving of tasks and interrupts in which no
      two tasks report the same failed allocation, what is sent is what was handed
      in, once and in order; no ring overruns; all is sent in the end.  ShellText: the bytes each log function sends, and that a binary
      log can be taken apart.  ShellCmd: what is typed is the line that is run.
    - CliLex, CliOps, CliRuns: the in-place tokenizer is a fold over the line; a line
      calls the function of the first command that matches with the arguments of
      the line, or is refused, or writes behind the array of arguments when it has more
      than sixteen; arguments of any bytes can be written so that they
      arrive unchanged; the table of commands refines a list; start sorts it.
      CliFwd: a forwarded command is read by the other processor as it was given,
      when no text overtakes the arguments it is made from and each argument can be
      sent as it is.
    - LogFilter: which modules are heard after any sequence of settings.  CliShell:
      from the keys to the call, and from the line "modlog" to the module's log.
    - DList: every operation refines the one on sequences and touches no other list.
    - FrameOps, FrameRuns: over every run that keeps to the protocol each frame is in
      one place; a completed frame is delivered to the consumers that are on, and
      is free again when the last gives it back; what (re)initialisation builds.

    Theorems about behaviour that looks unintended (lost alarms, a full lease
    table, a write reported as stored, a late answer, a frame freed twice, seventeen arguments)
    describe what the code does.

    ** Bounds and fuel

    Loops carry fuel that their theorems show to be enough: AonRtc visits at most
    eight nodes and one more test; the option loop of the DHCP server takes one
    round per byte of the datagram (at most 1019 bytes fit its buffer) and one more
    test; address assignment tries at most twelve hosts, enough in any subnet of
    sixteen addresses for eight leases, the server and the two reserved hosts;
    partial sends have as much fuel as bytes; flash transfers as many rounds as
    bytes, erases one round per sector and one more; a wait for the flash ends
    with the finite number of busy answers of the device, and so does a wait for a DMA
    channel.  The transmit loop of the shell has as many rounds as the port has
    room, and 260 more, since at most 259 entries wait; a walk over a linked list one
    per node of the store and one more; a frame has at most 255 holders, the range of
    its lock.  The tokenizer takes one round per byte of its buffer and one more, a
    lookup at most one per place of the table of commands.  Table sizes are those of
    the source: eight alarms, 32 descriptors, eight leases, eight mailbox
    and twelve DMA channels, log pools of 16, 48 and 64 blocks, 320 commands, 16
    arguments, 20 modules whose log is off.

    ** Not modelled

    - Register access layers (sys_hal, sys_ll and the other _hal and _ll files) but
      for the fields a modelled driver uses, and register maps: one access per
      function, without a decision.
    - Drivers whose effect is in the peripheral: display, camera, JPEG, DMA2D, serial
      buses, timers, SD card, audio, GPIO and interrupt routing, the mailbox
      hardware.  A theorem about them would be about an assumed peripheral; the flash and DMA
      drivers are modelled because the behaviour of theirs is documented by
      its command set or by the meaning of a copy.
    - The tasks of the media component: their handlers are not in the repository.
    - Temperature detection (sampling of a converter by a timer, with calibration
      tables), the spin lock (an atomic instruction), UTF-8 conversion (a table).
    - Test commands, operating system wrappers, IoT peripheral calls: each forwards to
      one function.
    - The line editor of cli_main.c ([get_input], [handle_input], [tab_complete]), which is
      compiled without the asynchronous log only, and the help command, which prints.
    - The lwIP socket layer, adapters over the closed WiFi and Bluetooth libraries,
      start-up and architecture code, generated tables and vendored code; easy_flash's
      log and IAP parts, which are switched off.
    - Inside the modelled files: log output, the console dump of the environment, the
      power-management registration of the flash driver that this chip does not
      use, iteration macros of the lists that no modelled code calls. *)
From stdpp Require Export base list gmap fin_maps.
From Stdlib Require Export ZArith Lia Sorted.

#[global] Set Default Goal Selector "!".
#[global] Set Warnings "-clear-no-such-hyp".

(** ** Scope, hint database *)
Declare Scope bk_scope.
Delimit Scope bk_scope with bk.
Create HintDb bk.

(** ** Outcomes of C code

    [Done a] is a normal return.  [Trap] is what the firmware does instead of
    returning: a failed [BK_ASSERT] (the macro spins forever under
    [CONFIG_DEBUG_FIRMWARE]), a dereference of an invalid pointer, or a loop
    that is still running when the fuel of the model is used up. *)
Inductive trap : Type := Assert | Fault | Hang.

Inductive outcome (A : Type) : Type :=
| Done (a : A)
| Trap (t : trap).
Arguments Done {A} a.
Arguments Trap {A} t.

(** A state monad over [outcome]: the shape of every operation that reads and
    writes driver state and may trap. *)
Definition M (S A : Type) : Type := S → outcome (A * S).

Definition ret {S A} (a : A) : M S A := λ s, Done (a, s).
Definition bind {S A B} (m : M S A) (k : A → M S B) : M S B :=
  λ s, match m s with Done (a, s') => k a s' | Trap t => Trap t end.
Definition trapM {S A} (t : trap) : M S A := λ _, Trap t.
Definition gets {S A} (f : S → A) : M S A := λ s, Done (f s, s).
Definition modify {S} (f : S → S) : M S unit := λ s, Done (tt, f s).
Definition BK_ASSERT {S} (b : bool) : M S unit :=
  if b then ret tt else trapM Assert.

Notation "'let*' x ':=' c1 'in' c2" := (bind c1 (λ x, c2))
  (at level 10, x pattern, c1 at level 100, c2 at level 200) : bk_scope.
Notation "c1 ;;; c2" := (bind c1 (λ _, c2))
  (at level 100, c2 at level 200, right associativity) : bk_scope.
Open Scope bk_scope.

Lemma bind_done {S A B} (m : M S A) (k : A → M S B) s a s' :
  m s = Done (a, s') → bind m k s = k a s'.
Proof. unfold bind. by intros ->. Qed.

Lemma bind_inv {S A B} (m : M S A) (k : A → M S B) s r :
  bind m k s = Done r → ∃ a s', m s = Done (a, s') ∧ k a s' = Done r.
Proof. unfold bind. destruct (m s) as [[a s']|]; naive_solver. Qed.

Lemma ret_done {S A} (a : A) (s : S) : ret a s = Done (a, s).
Proof. done. Qed.

(** [wp m s Q]: [m] returns from [s] (it does not trap), with a result and a
    state that satisfy [Q]. *)
Definition wp {S A} (m : M S A) (s : S) (Q : A → S → Prop) : Prop :=
  match m s with Done (a, s') => Q a s' | Trap _ => False end.

Lemma wp_bind {S A B} (m : M S A) (k : A → M S B) s Q :
  wp m s (λ a s', wp (k a) s' Q) → wp (bind m k) s Q.
Proof. unfold wp, bind. by destruct (m s) as [[a s']|]. Qed.
Lemma wp_mono {S A} (m : M S A) s (P Q : A → S → Prop) :
  wp m s P → (∀ a s', P a s' → Q a s') → wp m s Q.
Proof. unfold wp. destruct (m s) as [[a s']|]; auto. Qed.
Lemma wp_done {S A} (m : M S A) s a s' (Q : A → S → Prop) :
  m s = Done (a, s') → Q a s' → wp m s Q.
Proof. unfold wp. by intros ->. Qed.
Lemma wp_inv {S A} (m : M S A) s Q : wp m s Q → ∃ a s', m s = Done (a, s') ∧ Q a s'.
Proof. unfold wp. destruct (m s) as [[a s']|]; [eauto|done]. Qed.

Lemma wp_ret {S A} (a : A) (s : S) Q : Q a s → wp (ret a) s Q.
Proof. done. Qed.
Lemma wp_modify {S} f (s : S) Q : Q tt (f s) → wp (modify f) s Q.
Proof. done. Qed.
Lemma wp_gets {S A} (f : S → A) (s : S) Q : Q (f s) s → wp (gets f) s Q.
Proof. done. Qed.

(** ** Machine integers: [Z] with the wrap-around written out *)
Local Open Scope Z_scope.

Definition u8  (z : Z) : Z := z mod 2 ^ 8.
Definition u16 (z : Z) : Z := z mod 2 ^ 16.
Definition u32 (z : Z) : Z := z mod 2 ^ 32.
Definition u64 (z : Z) : Z := z mod 2 ^ 64.

Lemma u8_small z : 0 ≤ z < 2 ^ 8 → u8 z = z.
Proof. apply Z.mod_small. Qed.
Lemma u16_small z : 0 ≤ z < 2 ^ 16 → u16 z = z.
Proof. apply Z.mod_small. Qed.
Lemma u32_small z : 0 ≤ z < 2 ^ 32 → u32 z = z.
Proof. apply Z.mod_small. Qed.
Lemma u64_small z : 0 ≤ z < 2 ^ 64 → u64 z = z.
Proof. apply Z.mod_small. Qed.
Lemma u8_range z : 0 ≤ u8 z < 2 ^ 8.
Proof. by apply Z.mod_pos_bound. Qed.
Lemma u16_range z : 0 ≤ u16 z < 2 ^ 16.
Proof. by apply Z.mod_pos_bound. Qed.
Lemma u32_range z : 0 ≤ u32 z < 2 ^ 32.
Proof. by apply Z.mod_pos_bound. Qed.
Lemma u64_range z : 0 ≤ u64 z < 2 ^ 64.
Proof. by apply Z.mod_pos_bound. Qed.
#[export] Hint Resolve u8_range u16_range u32_range u64_range : bk.

(** ** Single bits of a register or bitmap *)
Definition BIT (i : Z) : Z := Z.shiftl 1 i.
Definition set_bit (x i : Z) : Z := Z.lor x (BIT i).
Definition clear_bit (x i : Z) : Z := Z.land x (Z.lnot (BIT i)).
Definition has_bit (x i : Z) : bool := negb (Z.land x (BIT i) =? 0).

Lemma testbit_BIT i j : 0 ≤ i → 0 ≤ j → Z.testbit (BIT i) j = bool_decide (i = j).
Proof.
  intros Hi Hj. unfold BIT.
  rewrite Z.shiftl_spec by done. case_bool_decide as E.
  - subst. by rewrite Z.sub_diag.
  - destruct (Z.testbit 1 (j - i)) eqn:B; [|done].
    destruct (decide (j - i < 0)); [by rewrite Z.testbit_neg_r in B|].
    assert (0 < j - i) by lia.
    rewrite Z.bits_above_log2 in B; [done|lia|]. simpl; lia.
Qed.

Lemma testbit_set_bit x i j : 0 ≤ i → 0 ≤ j →
  Z.testbit (set_bit x i) j = Z.testbit x j || bool_decide (i = j).
Proof. intros. unfold set_bit. by rewrite Z.lor_spec, testbit_BIT. Qed.

Lemma testbit_clear_bit x i j : 0 ≤ i → 0 ≤ j →
  Z.testbit (clear_bit x i) j = Z.testbit x j && negb (bool_decide (i = j)).
Proof.
  intros. unfold clear_bit. by rewrite Z.land_spec, Z.lnot_spec, testbit_BIT.
Qed.

Lemma has_bit_testbit x i : 0 ≤ i → has_bit x i = Z.testbit x i.
Proof.
  intros Hi. unfold has_bit. destruct (Z.eqb_spec (Z.land x (BIT i)) 0) as [E|E].
  - apply (f_equal (λ z, Z.testbit z i)) in E.
    rewrite Z.land_spec, testbit_BIT, Z.bits_0 in E by done.
    rewrite bool_decide_true in E by done. by rewrite andb_true_r in E.
  - destruct (Z.testbit x i) eqn:B; [done|]. destruct E.
    apply Z.bits_inj_0. intros j. rewrite Z.land_spec.
    destruct (decide (j < 0)); [by rewrite Z.testbit_neg_r by lia|].
    rewrite testbit_BIT by lia. case_bool_decide; subst; rewrite ?B, ?andb_false_r; done.
Qed.

(** ** Bit fields of a word *)
Definition field (w off n : Z) : Z := Z.land (Z.shiftr w off) (Z.ones n).
Definition set_field (w off n v : Z) : Z :=
  Z.lor (Z.land w (Z.lnot (Z.shiftl (Z.ones n) off))) (Z.shiftl (Z.land v (Z.ones n)) off).

Lemma field_spec w off n i : 0 ≤ off → 0 ≤ n → 0 ≤ i →
  Z.testbit (field w off n) i = (i <? n) && Z.testbit w (i + off).
Proof.
  intros. unfold field. rewrite Z.land_spec, Z.shiftr_spec, Z.testbit_ones_nonneg by done. apply andb_comm.
Qed.

Lemma set_field_spec w off n v i : 0 ≤ off → 0 ≤ n → 0 ≤ i →
  Z.testbit (set_field w off n v) i =
  if (off <=? i) && (i <? off + n) then Z.testbit v (i - off) else Z.testbit w i.
Proof.
  intros. unfold set_field.
  rewrite Z.lor_spec, Z.land_spec, Z.lnot_spec, !Z.shiftl_spec by done.
  destruct (Z.leb_spec off i); cbn [andb].
  - rewrite Z.land_spec, !Z.testbit_ones_nonneg by lia.
    destruct (Z.ltb_spec (i - off) n), (Z.ltb_spec i (off + n)); try lia; cbn [negb andb].
    + by rewrite andb_false_r, andb_true_r.
    + by rewrite andb_true_r, andb_false_r, orb_false_r.
  - rewrite !(Z.testbit_neg_r _ (i - off)) by lia. by rewrite andb_true_r, orb_false_r.
Qed.

Lemma field_set_same w off n v : 0 ≤ off → 0 ≤ n → 0 ≤ v < 2 ^ n → field (set_field w off n v) off n = v.
Proof.
  intros Ho Hn Hv. apply Z.bits_inj'. intros i Hi.
  rewrite field_spec, set_field_spec by lia. replace (i + off - off) with i by lia.
  destruct (Z.ltb_spec i n); cbn [andb].
  - rewrite (proj2 (Z.leb_le _ _)), (proj2 (Z.ltb_lt _ _)) by lia. done.
  - rewrite <-(Z.mod_small v (2 ^ n)) by done. by rewrite Z.mod_pow2_bits_high by lia.
Qed.

Lemma field_set_other w off n v off' n' :
  0 ≤ off → 0 ≤ n → 0 ≤ off' → 0 ≤ n' → off' + n' ≤ off ∨ off + n ≤ off' →
  field (set_field w off n v) off' n' = field w off' n'.
Proof.
  intros Ho Hn Ho' Hn' D. apply Z.bits_inj'. intros i Hi.
  rewrite !field_spec, set_field_spec by lia. destruct (Z.ltb_spec i n'); cbn [andb]; [|done].
  destruct (Z.leb_spec off (i + off')), (Z.ltb_spec (i + off') (off + n)); cbn [andb]; try done; lia.
Qed.

(** ** C strings: byte arrays read up to a terminator *)
Fixpoint strncmp (n : nat) (a b : list Z) : Z :=
  match n with
  | O => 0
  | S n' =>
      let x := default 0 (head a) in
      let y := default 0 (head b) in
      if x =? y then (if x =? 0 then 0 else strncmp n' (tail a) (tail b)) else x - y
  end.

Lemma strncmp_refl n a : strncmp n a a = 0.
Proof.
  revert a. induction n as [|n IH]; intros a; simpl; [done|].
  rewrite Z.eqb_refl. by destruct (_ =? 0).
Qed.

Lemma strncmp_sym n a b : strncmp n a b = 0 → strncmp n b a = 0.
Proof.
  revert a b. induction n as [|n IH]; intros a b; simpl; [done|].
  destruct (Z.eqb_spec (default 0 (head a)) (default 0 (head b))) as [->|]; [|lia].
  rewrite Z.eqb_refl. destruct (_ =? 0); auto.
Qed.

Lemma strncmp_trans n a b c : strncmp n a b = 0 → strncmp n b c = 0 → strncmp n a c = 0.
Proof.
  revert a b c. induction n as [|n IH]; intros a b c; simpl; [done|].
  destruct (Z.eqb_spec (default 0 (head a)) (default 0 (head b))) as [->|]; [|lia].
  destruct (Z.eqb_spec (default 0 (head b)) (default 0 (head c))) as [E|]; [|lia].
  destruct (_ =? 0); [done|]. apply IH.
Qed.
#[global] Arguments strncmp : simpl never.

(** ** Error codes of include/common/bk_err.h used by the modelled code *)
Definition BK_OK : Z := 0.
Definition BK_FAIL : Z := -1.
Definition BK_ERR_COMMON_BASE : Z := -4096.
Definition BK_ERR_NOT_INIT : Z := BK_ERR_COMMON_BASE.
Definition BK_ERR_PARAM : Z := BK_ERR_COMMON_BASE - 1.
Definition BK_ERR_NOT_FOUND : Z := BK_ERR_COMMON_BASE - 2.
Definition BK_ERR_OPEN : Z := BK_ERR_COMMON_BASE - 3.
Definition BK_ERR_IN_PROGRESS : Z := BK_ERR_COMMON_BASE - 4.
Definition BK_ERR_NO_MEM : Z := BK_ERR_COMMON_BASE - 5.
Definition BK_ERR_TIMEOUT : Z := BK_ERR_COMMON_BASE - 6.
Definition BK_ERR_STATE : Z := BK_ERR_COMMON_BASE - 7.
Definition BK_ERR_TRY_AGAIN : Z := BK_ERR_COMMON_BASE - 8.
Definition BK_ERR_NULL_PARAM : Z := BK_ERR_COMMON_BASE - 9.
Definition BK_ERR_NOT_SUPPORT : Z := BK_ERR_COMMON_BASE - 10.
Definition BK_ERR_BUSY : Z := BK_ERR_COMMON_BASE - 11.

(** ** Null-terminated linked lists in a store

    [nx i] is the [next] field of object [i] ([None] when [i] is not an object).
    [chain nx p l]: following [next] from [p] visits exactly the objects [l] and
    then reaches [NULL]. *)
Fixpoint chain (nx : nat → option (option nat)) (p : option nat) (l : list nat) : Prop :=
  match l with
  | [] => p = None
  | i :: l' => p = Some i ∧ ∃ q, nx i = Some q ∧ chain nx q l'
  end.

Lemma chain_head nx p l : chain nx p l → p = head l.
Proof. destruct l as [|i l]; simpl; [done|]. by intros [-> _]. Qed.

Lemma chain_ext nx nx' p l :
  (∀ i, i ∈ l → nx' i = nx i) → chain nx p l → chain nx' p l.
Proof.
  revert p. induction l as [|i l IH]; intros p E; simpl; [done|].
  intros [-> (q & Hq & Hc)]. split; [done|]. exists q.
  rewrite E by set_solver. split; [done|]. apply IH; set_solver.
Qed.

Lemma chain_det nx p l l' : chain nx p l → chain nx p l' → l = l'.
Proof.
  revert p l'. induction l as [|i l IH]; intros p [|j l']; simpl; [done| | |].
  - by intros -> [? _].
  - by intros [-> _] ?.
  - intros [-> (q & Hq & Hc)] [[= ->] (q' & Hq' & Hc')].
    rewrite Hq in Hq'. injection Hq' as ->. f_equal. eauto.
Qed.

Lemma chain_suffix nx p l1 l2 : chain nx p (l1 ++ l2) → chain nx (head l2) l2.
Proof.
  revert p. induction l1 as [|i l1 IH]; intros p; simpl.
  - intros H. by rewrite <-(chain_head _ _ _ H).
  - intros [-> (q & Hq & Hc)]. eauto.
Qed.

Lemma chain_next nx p l1 i l2 : chain nx p (l1 ++ i :: l2) → nx i = Some (head l2).
Proof.
  intros H%chain_suffix. destruct H as [_ (q & Hq & Hc)].
  by rewrite <-(chain_head _ _ _ Hc).
Qed.

(** Redirecting the [next] field of one element replaces the rest of the list. *)
Lemma chain_splice nx nx' p l1 a l2 q l3 :
  chain nx p (l1 ++ a :: l2) →
  (∀ i, i ∈ l1 → nx' i = nx i) →
  nx' a = Some q → chain nx' q l3 →
  chain nx' p (l1 ++ a :: l3).
Proof.
  revert p. induction l1 as [|i l1 IH]; intros p; simpl.
  - intros [-> _] _ Ha Hc. eauto.
  - intros [-> (r & Hr & Hc)] E Ha Hc'. split; [done|]. exists r.
    rewrite E by set_solver. split; [done|]. eapply IH; eauto. set_solver.
Qed.

(** Linking a fresh object [i] behind [a], or in front of the whole list, and
    unlinking the object behind [a]. *)
Lemma chain_insert_after nx nx' p l1 a l2 i :
  chain nx p (l1 ++ a :: l2) → NoDup (l1 ++ a :: l2) → i ∉ l1 ++ a :: l2 →
  (∀ j, j ≠ a → j ≠ i → nx' j = nx j) →
  nx' a = Some (Some i) → nx' i = Some (head l2) →
  chain nx' p (l1 ++ a :: i :: l2).
Proof.
  intros Hc ND Hi E Ha Hn. rewrite NoDup_app, NoDup_cons in ND.
  destruct ND as (_ & Hd & Hal & _).
  eapply chain_splice; [exact Hc| |exact Ha|].
  - intros j Hj. apply E; set_solver.
  - split; [done|]. exists (head l2). split; [done|].
    eapply chain_ext; [|apply (chain_suffix nx p (l1 ++ [a]))].
    + intros j Hj. apply E; set_solver.
    + by rewrite <-app_assoc.
Qed.

Lemma chain_insert_front nx nx' p l i :
  chain nx p l → i ∉ l → (∀ j, j ≠ i → nx' j = nx j) → nx' i = Some (head l) →
  chain nx' (Some i) (i :: l).
Proof.
  intros Hc Hi E Hn. split; [done|]. exists (head l). split; [done|].
  rewrite <-(chain_head _ _ _ Hc). eapply chain_ext; [|exact Hc].
  intros j Hj. apply E. set_solver.
Qed.

Lemma chain_remove_after nx nx' p l1 a b l2 :
  chain nx p (l1 ++ a :: b :: l2) → NoDup (l1 ++ a :: b :: l2) →
  (∀ j, j ∈ l1 ++ l2 → nx' j = nx j) → nx' a = Some (head l2) →
  chain nx' p (l1 ++ a :: l2).
Proof.
  intros Hc ND E Ha. eapply chain_splice; [exact Hc| |exact Ha|].
  - intros j Hj. apply E; set_solver.
  - eapply chain_ext; [|apply (chain_suffix nx p (l1 ++ [a; b]))].
    + intros j Hj. apply E; set_solver.
    + by rewrite <-app_assoc.
Qed.
#[export] Hint Resolve chain_ext chain_suffix : bk.

(** ** Automation: unfolding the monad, case analysis on boolean comparisons *)
Ltac unM := unfold bind, ret, trapM, gets, modify, BK_ASSERT in *; simpl in *.

Ltac zb :=
  repeat match goal with
  | H : (_ =? _)%Z = true |- _ => apply Z.eqb_eq in H
  | H : (_ =? _)%Z = false |- _ => apply Z.eqb_neq in H
  | H : (_ <? _)%Z = true |- _ => apply Z.ltb_lt in H
  | H : (_ <? _)%Z = false |- _ => apply Z.ltb_ge in H
  | H : (_ <=? _)%Z = true |- _ => apply Z.leb_le in H
  | H : (_ <=? _)%Z = false |- _ => apply Z.leb_gt in H
  | H : negb _ = true |- _ => apply negb_true_iff in H
  | H : negb _ = false |- _ => apply negb_false_iff in H
  | H : _ && _ = true |- _ => apply andb_true_iff in H as [? ?]
  | H : _ || _ = false |- _ => apply orb_false_iff in H as [? ?]
  end.

(** Rewrite the [if] tests of the goal that the context decides. *)
Ltac zif :=
  repeat match goal with
  | |- context [(?a =? ?b)%Z] =>
      first [ rewrite (proj2 (Z.eqb_eq a b)) by lia
            | rewrite (proj2 (Z.eqb_neq a b)) by lia ]
  | |- context [(?a <=? ?b)%Z] =>
      first [ rewrite (proj2 (Z.leb_le a b)) by lia
            | rewrite (proj2 (Z.leb_gt a b)) by lia ]
  | |- context [(?a <? ?b)%Z] =>
      first [ rewrite (proj2 (Z.ltb_lt a b)) by lia
            | rewrite (proj2 (Z.ltb_ge a b)) by lia ]
  end.

(** Case analysis on membership in a concrete list. *)
Ltac elem_cases H :=
  repeat (apply elem_of_cons in H; destruct H as [->|H]);
  try (exfalso; exact (not_elem_of_nil _ H)).
