(* ===== verification/Bytes.v ===== *)
(** * Byte buffers, C strings and little-endian words

    The memory operations of the C library that the storage and network
    components use, on lists of bytes: slices and overwriting ([memcpy],
    [memmove], [memset]), zero-terminated strings ([strlen], [strncmp]), and
    32-bit words in little-endian order. *)
From S2P Require Import Prelude.
Local Open Scope Z_scope.

Definition byte (b : Z) : Prop := 0 ≤ b < 256.
Definition all_bytes (l : list Z) : Prop := Forall byte l.
#[export] Instance byte_dec b : Decision (byte b).
Proof. unfold byte. apply _. Defined.
#[export] Instance all_bytes_dec l : Decision (all_bytes l).
Proof. unfold all_bytes. apply _. Defined.

(** ** Slices *)
Definition sub (l : list Z) (off n : nat) : list Z := take n (drop off l).
Definition write_at (l : list Z) (off : nat) (bs : list Z) : list Z :=
  take off l ++ bs ++ drop (off + length bs) l.

Lemma length_sub l off n : (off + n ≤ length l)%nat → length (sub l off n) = n.
Proof. intros. unfold sub. rewrite length_take, length_drop. lia. Qed.

Lemma length_write_at l off bs :
  (off + length bs ≤ length l)%nat → length (write_at l off bs) = length l.
Proof. intros. unfold write_at. rewrite !length_app, length_take, length_drop. lia. Qed.

Lemma sub_add l o n m : sub l o (n + m) = sub l o n ++ sub l (o + n) m.
Proof. unfold sub. by rewrite <-take_take_drop, drop_drop. Qed.

Lemma sub_sub l o n p q : (p + q ≤ n)%nat → sub (sub l o n) p q = sub l (o + p) q.
Proof.
  intros H. unfold sub. replace n with (p + (n - p))%nat by lia.
  rewrite <-take_drop_commute, take_take, drop_drop. f_equal; lia.
Qed.

Lemma sub_take l n : sub l 0 n = take n l.
Proof. done. Qed.

Lemma sub_write_same l off bs :
  (off ≤ length l)%nat → sub (write_at l off bs) off (length bs) = bs.
Proof.
  intros H. unfold sub, write_at. rewrite drop_app_length' by (rewrite length_take; lia).
  by apply take_app_length.
Qed.

Lemma sub_write_before l off bs o n :
  (o + n ≤ off)%nat → (off ≤ length l)%nat → sub (write_at l off bs) o n = sub l o n.
Proof.
  intros H Hl. unfold sub, write_at.
  rewrite drop_app_le by (rewrite length_take; lia).
  rewrite take_app_le by (rewrite length_drop, length_take; lia).
  replace off with (o + (off - o))%nat by lia.
  rewrite <-take_drop_commute, take_take. f_equal. lia.
Qed.

Lemma sub_write_after l off bs o n :
  (off + length bs ≤ o)%nat → (off ≤ length l)%nat →
  sub (write_at l off bs) o n = sub l o n.
Proof.
  intros H Hl. unfold sub, write_at. rewrite app_assoc.
  rewrite drop_app_ge by (rewrite length_app, length_take; lia).
  rewrite drop_drop. do 2 f_equal. rewrite length_app, length_take. lia.
Qed.

(** A write inside of a slice. *)
Lemma sub_write_inside l o n off bs : (o + n ≤ length l)%nat → (off + length bs ≤ n)%nat →
  sub (write_at l (o + off) bs) o n = write_at (sub l o n) off bs.
Proof.
  intros Hl Ho. replace n with (off + (length bs + (n - off - length bs)))%nat at 1 by lia. rewrite !sub_add.
  rewrite sub_write_before, sub_write_same by lia. rewrite sub_write_after by lia.
  unfold write_at. f_equal; [|f_equal].
  - unfold sub. rewrite take_take. f_equal. lia.
  - unfold sub. rewrite skipn_firstn_comm, drop_drop. f_equal; [lia|f_equal; lia].
Qed.

Lemma sub_app_l l r o n : (o + n ≤ length l)%nat → sub (l ++ r) o n = sub l o n.
Proof.
  intros H. unfold sub. rewrite drop_app_le by lia. apply take_app_le.
  rewrite length_drop. lia.
Qed.

Lemma sub_app_r l r o n : sub (l ++ r) (length l + o) n = sub r o n.
Proof. unfold sub. by rewrite drop_app_add'. Qed.

Lemma sub_all l : sub l 0 (length l) = l.
Proof. unfold sub. by rewrite drop_0, firstn_all. Qed.

Lemma all_bytes_app a b : all_bytes (a ++ b) ↔ all_bytes a ∧ all_bytes b.
Proof. apply Forall_app. Qed.
Lemma all_bytes_sub l o n : all_bytes l → all_bytes (sub l o n).
Proof. intros. by apply Forall_take, Forall_drop. Qed.
Lemma all_bytes_write_at l o bs : all_bytes l → all_bytes bs → all_bytes (write_at l o bs).
Proof. intros. unfold write_at. rewrite !all_bytes_app. split_and!; [by apply Forall_take|done|by apply Forall_drop]. Qed.
#[export] Hint Resolve all_bytes_sub all_bytes_write_at : bk.

(** ** Zero-terminated strings *)
Fixpoint cstr (l : list Z) : list Z :=
  match l with
  | [] => []
  | b :: l' => if b =? 0 then [] else b :: cstr l'
  end.
Definition strlen (l : list Z) : nat := length (cstr l).

Definition no_zero (l : list Z) : Prop := Forall (λ b, b ≠ 0) l.
#[export] Instance no_zero_dec l : Decision (no_zero l).
Proof. unfold no_zero. apply _. Defined.

Lemma cstr_app s r : no_zero s → cstr (s ++ 0 :: r) = s.
Proof.
  induction 1 as [|b l Hb Hl IH]; simpl; [done|].
  rewrite (proj2 (Z.eqb_neq _ _)) by done. by rewrite IH.
Qed.

Lemma cstr_no_zero s : no_zero s → cstr s = s.
Proof.
  induction 1 as [|b l Hb Hl IH]; simpl; [done|].
  rewrite (proj2 (Z.eqb_neq _ _)) by done. by rewrite IH.
Qed.

Lemma strlen_app s r : no_zero s → strlen (s ++ 0 :: r) = length s.
Proof. intros. unfold strlen. by rewrite cstr_app. Qed.

Lemma strncmp_cons n a b :
  strncmp (S n) a b =
  let x := default 0 (head a) in
  let y := default 0 (head b) in
  if x =? y then (if x =? 0 then 0 else strncmp n (tail a) (tail b)) else x - y.
Proof. done. Qed.

(** Comparing against a whole key of [length k] bytes. *)
Lemma strncmp_key k s : no_zero k → strncmp (length k) s k = 0 ↔ take (length k) s = k.
Proof.
  intros H. revert s. induction H as [|b k Hb Hk IH]; intros s.
  - done.
  - cbn [length]. rewrite strncmp_cons. destruct s as [|c s]; simpl.
    + destruct b; [done|..]; by split.
    + destruct (Z.eqb_spec c b) as [->|N].
      * rewrite (proj2 (Z.eqb_neq b 0)) by done. rewrite IH. split; [by intros ->|by intros [=]].
      * split; [lia|by intros [=]].
Qed.

(** ** Little-endian words *)
Definition le_bytes (w : Z) : list Z :=
  [w mod 256; (w / 256) mod 256; (w / 65536) mod 256; (w / 16777216) mod 256].
Definition le32 (l : list Z) : Z :=
  nth 0 l 0 + 256 * nth 1 l 0 + 65536 * nth 2 l 0 + 16777216 * nth 3 l 0.

Lemma le32_bytes w : 0 ≤ w < 2 ^ 32 → le32 (le_bytes w) = w.
Proof.
  intros H. unfold le32, le_bytes. simpl.
  pose proof (Z.div_mod w 256 ltac:(lia)). pose proof (Z.div_mod (w / 256) 256 ltac:(lia)).
  pose proof (Z.div_mod (w / 65536) 256 ltac:(lia)).
  assert (w / 256 / 256 = w / 65536) by (rewrite Z.div_div; [done|lia|lia]).
  assert (w / 65536 / 256 = w / 16777216) by (rewrite Z.div_div; [done|lia|lia]).
  rewrite (Z.mod_small (w / 16777216)).
  - lia.
  - split; [apply Z.div_pos; lia|]. apply Z.div_lt_upper_bound; lia.
Qed.
Lemma length_le_bytes w : length (le_bytes w) = 4%nat.
Proof. done. Qed.
Lemma le_bytes_bytes w : all_bytes (le_bytes w).
Proof. repeat constructor; apply Z.mod_pos_bound; lia. Qed.
#[export] Hint Resolve le_bytes_bytes : bk.
