(* ===== verification/AonRtc.v ===== *)
(** * The always-on RTC alarm manager (middleware/driver/rtc/aon_rtc_driver.c)

    Alarms live in a pool of eight [alarm_node_t] ([busy_bits] says which are
    taken) and are threaded through their [next] pointers, sorted by expiry, from
    [alarm_head_p].  The model keeps that pool as a store indexed by pointer, so
    that the stale pointers the code holds across an insertion are the ones of
    the source.  Section [Device] has the hardware as parameters: the value of
    each successive read of the counter and of the low-power copy of the tick
    register; a read made only to print the value is not numbered.  Callbacks are recorded in [calls] in the order they run; a
    callback that calls back into this driver is not modelled.  The source turns
    interrupts off around every operation, so each operation is one step.

    The second half of the file relates the store to a sorted list of node
    numbers ([wf]) and shows that each operation implements the operation on
    that list. *)
From S2P Require Import Prelude.
Local Open Scope Z_scope.

Module AonRtc.

(** ** Data *)
Definition ALARM_NAME_MAX_LEN : nat := 7.
Definition ALARM_LOOP_FOREVER : Z := 0xffffffff.
Definition AON_RTC_PRECISION_TICK : Z := 32.
Definition AON_RTC_ROUND_TICK : Z := 0xffffffff.
Definition AON_RTC_MAX_ALARM_CNT : nat := 8.
Definition AON_RTC_ID_MAX : Z := 1.

(** A node pointer: an index into the pool, [None] for NULL.  Callbacks and
    their parameters are addresses; address 0 is NULL. *)
Record alarm_node_t := mk_node {
  next : option nat;
  name : list Z;
  period_tick : Z;
  period_cnt : Z;
  callback : Z;
  cb_param_p : Z;
  start_tick : Z;
  expired_tick : Z }.

Record alarm_info_t := mk_info {
  i_name : list Z;
  i_period_tick : Z;
  i_period_cnt : Z;
  i_callback : Z;
  i_param_p : Z }.

Record aon_rtc_nodes_memory_t := mk_mem {
  nodes : list alarm_node_t;
  busy_bits : Z }.

Record aon_rtc_driver_t := mk_drv {
  inited : bool;
  alarm_head_p : option nat;
  alarm_node_cnt : Z }.

(** The registers of the unit: [ctrl] bit fields and the two compare values. *)
Record aon_rtc_hw_t := mk_hw {
  en : bool;
  cnt_stop : bool;
  tick_int_en : bool;
  up_int_en : bool;
  tick_int_sts : bool;
  up_int_sts : bool;
  tick_val : Z;
  upper_val : Z }.

Record aon_rtc_callback_t := mk_cb { cb_fun : Z; isr_param : Z }.

(** One call of a callback: function, name argument, parameter. *)
Definition call : Type := Z * list Z * Z.

Record rtc := mk_rtc {
  drv : aon_rtc_driver_t;
  nodes_p : option aon_rtc_nodes_memory_t;
  tick_isr : aon_rtc_callback_t;
  upper_isr : aon_rtc_callback_t;
  s_high_tick : Z;
  hw : aon_rtc_hw_t;
  isr_installed : bool;
  reads : nat;
  lpo_reads : nat;
  calls : list call }.

(** ** Field updates *)
Definition set_drv d s := mk_rtc d (nodes_p s) (tick_isr s) (upper_isr s) (s_high_tick s)
  (hw s) (isr_installed s) (reads s) (lpo_reads s) (calls s).
Definition set_nodes_p p s := mk_rtc (drv s) p (tick_isr s) (upper_isr s) (s_high_tick s)
  (hw s) (isr_installed s) (reads s) (lpo_reads s) (calls s).
Definition set_hw h s := mk_rtc (drv s) (nodes_p s) (tick_isr s) (upper_isr s) (s_high_tick s)
  h (isr_installed s) (reads s) (lpo_reads s) (calls s).
Definition set_high t s := mk_rtc (drv s) (nodes_p s) (tick_isr s) (upper_isr s) t
  (hw s) (isr_installed s) (reads s) (lpo_reads s) (calls s).
Definition set_isrs t u s := mk_rtc (drv s) (nodes_p s) t u (s_high_tick s)
  (hw s) (isr_installed s) (reads s) (lpo_reads s) (calls s).
Definition set_installed b s := mk_rtc (drv s) (nodes_p s) (tick_isr s) (upper_isr s)
  (s_high_tick s) (hw s) b (reads s) (lpo_reads s) (calls s).
Definition bump_reads s := mk_rtc (drv s) (nodes_p s) (tick_isr s) (upper_isr s)
  (s_high_tick s) (hw s) (isr_installed s) (S (reads s)) (lpo_reads s) (calls s).
Definition set_lpo n s := mk_rtc (drv s) (nodes_p s) (tick_isr s) (upper_isr s)
  (s_high_tick s) (hw s) (isr_installed s) (reads s) n (calls s).
Definition add_call c s := mk_rtc (drv s) (nodes_p s) (tick_isr s) (upper_isr s)
  (s_high_tick s) (hw s) (isr_installed s) (reads s) (lpo_reads s) (calls s ++ [c]).

Definition set_head p s := set_drv (mk_drv (inited (drv s)) p (alarm_node_cnt (drv s))) s.
Definition set_cnt n s := set_drv (mk_drv (inited (drv s)) (alarm_head_p (drv s)) n) s.
Definition set_inited b s := set_drv (mk_drv b (alarm_head_p (drv s)) (alarm_node_cnt (drv s))) s.

Definition set_next q n := mk_node q (name n) (period_tick n) (period_cnt n) (callback n)
  (cb_param_p n) (start_tick n) (expired_tick n).
Definition set_period_cnt c n := mk_node (next n) (name n) (period_tick n) c (callback n)
  (cb_param_p n) (start_tick n) (expired_tick n).
Definition set_expired t n := mk_node (next n) (name n) (period_tick n) (period_cnt n)
  (callback n) (cb_param_p n) (start_tick n) t.

(** ** Store access: a NULL pool or a pointer outside it faults *)
Definition get_mem : M rtc aon_rtc_nodes_memory_t :=
  λ s, match nodes_p s with Some m => Done (m, s) | None => Trap Fault end.
Definition put_mem (m : aon_rtc_nodes_memory_t) : M rtc unit :=
  modify (set_nodes_p (Some m)).
Definition get_node (i : nat) : M rtc alarm_node_t :=
  let* m := get_mem in
  match nodes m !! i with Some n => ret n | None => trapM Fault end.
Definition put_node (i : nat) (n : alarm_node_t) : M rtc unit :=
  let* m := get_mem in put_mem (mk_mem (<[i:=n]> (nodes m)) (busy_bits m)).
Definition upd_node (i : nat) (f : alarm_node_t → alarm_node_t) : M rtc unit :=
  let* n := get_node i in put_node i (f n).

(** ** Node pool *)
Fixpoint request_from (k : nat) (i : nat) (m : aon_rtc_nodes_memory_t)
  : option nat * aon_rtc_nodes_memory_t :=
  match k with
  | O => (None, m)
  | S k' =>
      if Z.land (busy_bits m) (BIT (Z.of_nat i)) =? 0
      then (Some i, mk_mem (nodes m) (set_bit (busy_bits m) (Z.of_nat i)))
      else request_from k' (S i) m
  end.

Definition aon_rtc_request_node : M rtc (option nat) :=
  let* m := get_mem in
  let '(r, m') := request_from AON_RTC_MAX_ALARM_CNT 0 m in
  put_mem m' ;;; ret r.

(** The [os_memset] of [aon_rtc_release_node] clears [sizeof(alarm_info_t)] = 24
    bytes of the node: [next], [name], [period_tick], [period_cnt] and [callback]. *)
Definition zero_info_size (n : alarm_node_t) : alarm_node_t :=
  mk_node None (replicate 8 0) 0 0 0 (cb_param_p n) (start_tick n) (expired_tick n).

Definition aon_rtc_release_node (i : nat) : M rtc unit :=
  if decide (i < AON_RTC_MAX_ALARM_CNT)%nat then
    let* m := get_mem in
    put_mem (mk_mem (nodes m) (clear_bit (busy_bits m) (Z.of_nat i))) ;;;
    upd_node i zero_info_size
  else BK_ASSERT false.

(** ** Sorted insertion and removal *)
Fixpoint name_registered (fuel : nat) (cur_p : option nat) (nm : list Z) : M rtc bool :=
  match cur_p with
  | None => ret false
  | Some c =>
      match fuel with
      | O => trapM Hang
      | S fuel' =>
          let* n := get_node c in
          if strncmp ALARM_NAME_MAX_LEN (name n) nm =? 0 then ret true
          else name_registered fuel' (next n) nm
      end
  end.

Fixpoint insert_loop (fuel : nat) (cur next_p : nat) (node_p : nat) (exp : Z) : M rtc unit :=
  match fuel with
  | O => trapM Hang
  | S fuel' =>
      let* c := get_node cur in
      if expired_tick c <=? exp then
        let* nx := get_node next_p in
        if expired_tick nx <=? exp then
          match next nx with
          | Some nn => insert_loop fuel' next_p nn node_p exp
          | None => upd_node next_p (set_next (Some node_p))
          end
        else
          upd_node node_p (set_next (Some next_p)) ;;;
          upd_node cur (set_next (Some node_p))
      else
        upd_node node_p (set_next (Some cur)) ;;;
        modify (set_head (Some node_p))
  end.

Definition inc_cnt : M rtc unit :=
  modify (λ s, set_cnt (u32 (alarm_node_cnt (drv s) + 1)) s).
Definition dec_cnt : M rtc unit :=
  modify (λ s, set_cnt (u32 (alarm_node_cnt (drv s) - 1)) s).

(** Fuel for the pointer-following loops: one more than the size of the pool. *)
Definition FUEL : nat := S AON_RTC_MAX_ALARM_CNT.

(** The search for the position, from "search the node position" on. *)
Definition alarm_link_node (node_p : nat) (n : alarm_node_t) : M rtc unit :=
  let* h := gets (λ s, alarm_head_p (drv s)) in
  match h with
  | None => modify (set_head (Some node_p)) ;;; inc_cnt
  | Some cur =>
      let* c := get_node cur in
      match next c with
      | None =>
          (if expired_tick c <=? expired_tick n
           then upd_node cur (set_next (Some node_p))
           else upd_node node_p (set_next (Some cur)) ;;;
                modify (set_head (Some node_p))) ;;;
          inc_cnt
      | Some nx =>
          insert_loop FUEL cur nx node_p (expired_tick n) ;;; inc_cnt
      end
  end.

Definition alarm_insert_node (node_p : nat) : M rtc Z :=
  let* n := get_node node_p in
  let* h := gets (λ s, alarm_head_p (drv s)) in
  let* dup := name_registered FUEL h (name n) in
  if (dup : bool) then ret (-1)
  else alarm_link_node node_p n ;;; ret 0.

Fixpoint remove_loop (fuel : nat) (node_cnt : nat) (previous_p : option nat) (cur_p : option nat)
    (nm : list Z) : M rtc (option nat) :=
  match cur_p with
  | None => ret None
  | Some cur =>
      match fuel with
      | O => trapM Hang
      | S fuel' =>
          BK_ASSERT (bool_decide (S node_cnt ≤ AON_RTC_MAX_ALARM_CNT)%nat) ;;;
          let* c := get_node cur in
          if strncmp ALARM_NAME_MAX_LEN (name c) nm =? 0 then
            if decide (previous_p = Some cur) then
              let* h := gets (λ s, alarm_head_p (drv s)) in
              modify (set_head (next c)) ;;; dec_cnt ;;;
              aon_rtc_release_node cur ;;; ret h
            else
              match previous_p with
              | Some p =>
                  upd_node p (set_next (next c)) ;;; dec_cnt ;;;
                  aon_rtc_release_node cur ;;; ret (Some cur)
              | None => trapM Fault
              end
          else remove_loop fuel' (S node_cnt) (Some cur) (next c) nm
      end
  end.

Definition alarm_remove_node (nm : list Z) : M rtc (option nat) :=
  let* h := gets (λ s, alarm_head_p (drv s)) in
  remove_loop FUEL 0 h h nm.

Section Device.
(** The value of the [k]-th read of the 32-bit counter and of the tick
    register's low-power copy. *)
Context (hw_counter : nat → Z) (hw_lpo : nat → Z).

Definition bk_aon_rtc_get_current_tick (id : Z) : M rtc Z :=
  if AON_RTC_ID_MAX <=? id then ret 0
  else λ s, Done (u64 (u64 (Z.shiftl (s_high_tick s) 32) + u32 (hw_counter (reads s))),
                  bump_reads s).

(** ** Expiry *)
Fixpoint update_loop (fuel : nat) (node_cnt : nat) (cur_p : option nat) : M rtc unit :=
  match cur_p with
  | None => ret tt
  | Some cur =>
      match fuel with
      | O => trapM Hang
      | S fuel' =>
          BK_ASSERT (bool_decide (S node_cnt ≤ AON_RTC_MAX_ALARM_CNT)%nat) ;;;
          let* c := get_node cur in
          let next_p := next c in
          let* cur_tick := bk_aon_rtc_get_current_tick 0 in
          if expired_tick c <=? u64 (cur_tick + AON_RTC_PRECISION_TICK) then
            (if callback c =? 0 then ret tt
             else modify (add_call (callback c, name c, cb_param_p c))) ;;;
            (if period_cnt c =? 1 then
               upd_node cur (set_period_cnt 0) ;;;
               modify (set_head (next c)) ;;; dec_cnt ;;;
               aon_rtc_release_node cur ;;;
               update_loop fuel' (S node_cnt) next_p
             else
               (if period_cnt c =? ALARM_LOOP_FOREVER then ret tt
                else upd_node cur (set_period_cnt (u32 (period_cnt c - 1)))) ;;;
               match next_p with
               | Some _ =>
                   modify (set_head (next c)) ;;;
                   upd_node cur (set_expired (u64 (expired_tick c + period_tick c))) ;;;
                   upd_node cur (set_next None) ;;;
                   dec_cnt ;;;
                   let* r := alarm_insert_node cur in
                   if negb (r =? 0) then ret tt
                   else update_loop fuel' (S node_cnt) next_p
               | None =>
                   upd_node cur (set_expired (u64 (expired_tick c + period_tick c))) ;;;
                   update_loop fuel' (S node_cnt) next_p
               end)
          else ret tt
      end
  end.

Definition alarm_update_expeired_nodes : M rtc unit :=
  let* h := gets (λ s, alarm_head_p (drv s)) in
  update_loop FUEL 0 h.

(** ** Programming the compare register *)
Fixpoint wait_lpo (k : nat) (val : Z) : M rtc unit :=
  λ s, let s' := set_lpo (S (lpo_reads s)) s in
       if hw_lpo (lpo_reads s) =? val then Done (tt, s')
       else match k with
            | O => Done (tt, s')
            | S k' => wait_lpo k' val s'
            end.

Definition aon_rtc_set_tick (val : Z) : M rtc unit :=
  modify (λ s, set_hw (mk_hw (en (hw s)) (cnt_stop (hw s)) (tick_int_en (hw s)) (up_int_en (hw s))
                         (tick_int_sts (hw s)) (up_int_sts (hw s)) val (upper_val (hw s))) s) ;;;
  wait_lpo 768 val.

Definition assert_in_future (head : nat) : M rtc unit :=
  let* t := bk_aon_rtc_get_current_tick 0 in
  let* n := get_node head in
  BK_ASSERT (u64 (t + 1) <? expired_tick n).

(** Program the compare register from the head of the list. *)
Definition reset_timer_tick : M rtc unit :=
  let* h := gets (λ s, alarm_head_p (drv s)) in
  match h with
  | Some i =>
      assert_in_future i ;;;
      let* n := get_node i in aon_rtc_set_tick (u32 (expired_tick n))
  | None => aon_rtc_set_tick AON_RTC_ROUND_TICK
  end.

(** ** Registration *)
Definition enable_tick_int : M rtc unit :=
  modify (λ s, set_hw (mk_hw (en (hw s)) (cnt_stop (hw s)) true (up_int_en (hw s))
                         (tick_int_sts (hw s)) (up_int_sts (hw s)) (tick_val (hw s)) (upper_val (hw s))) s).

Definition bk_alarm_register (id : Z) (info : option alarm_info_t) : M rtc Z :=
  if AON_RTC_ID_MAX <=? id then ret BK_ERR_PARAM else
  match info with
  | None => ret BK_ERR_PARAM
  | Some a =>
      if i_period_tick a <? AON_RTC_PRECISION_TICK then ret BK_FAIL else
      let* cnt := gets (λ s, alarm_node_cnt (drv s)) in
      if Z.of_nat AON_RTC_MAX_ALARM_CNT <=? cnt then ret BK_FAIL else
      let* r := aon_rtc_request_node in
      match r with
      | None => ret BK_ERR_NO_MEM
      | Some i =>
          let* t := bk_aon_rtc_get_current_tick id in
          BK_ASSERT (negb (i_period_cnt a =? 0)) ;;;
          upd_node i (λ _, mk_node None (take ALARM_NAME_MAX_LEN (i_name a) ++ [0])
                             (i_period_tick a) (i_period_cnt a) (i_callback a) (i_param_p a)
                             t (u64 (t + i_period_tick a))) ;;;
          let* res := alarm_insert_node i in
          if negb (res =? 0) then aon_rtc_release_node i ;;; ret BK_FAIL
          else
            let* h := gets (λ s, alarm_head_p (drv s)) in
            (if decide (h = Some i) then
               assert_in_future i ;;;
               let* n := get_node i in aon_rtc_set_tick (u32 (expired_tick n))
             else ret tt) ;;;
            enable_tick_int ;;; ret BK_OK
      end
  end.

Definition bk_alarm_unregister (id : Z) (nm : list Z) : M rtc Z :=
  if AON_RTC_ID_MAX <=? id then ret BK_ERR_PARAM else
  let* previous_head := gets (λ s, alarm_head_p (drv s)) in
  let* removed := alarm_remove_node nm in
  (if decide (previous_head = removed) then reset_timer_tick else ret tt) ;;;
  ret BK_OK.

(** ** Interrupt service routine *)
Definition clear_tick_int_status : M rtc unit :=
  modify (λ s, set_hw (mk_hw (en (hw s)) (cnt_stop (hw s)) (tick_int_en (hw s)) (up_int_en (hw s))
                         false (up_int_sts (hw s)) (tick_val (hw s)) (upper_val (hw s))) s).
Definition clear_upper_int_status : M rtc unit :=
  modify (λ s, set_hw (mk_hw (en (hw s)) (cnt_stop (hw s)) (tick_int_en (hw s)) (up_int_en (hw s))
                         (tick_int_sts (hw s)) false (tick_val (hw s)) (upper_val (hw s))) s).
Definition AON_RTC_NAME : list Z := [97; 111; 110; 95; 114; 116; 99; 0].

Definition aon_rtc_isr_handler : M rtc Z :=
  let* t := gets (λ s, tick_int_sts (hw s)) in
  (if (t : bool) then
     clear_tick_int_status ;;; alarm_update_expeired_nodes ;;; reset_timer_tick
   else ret tt) ;;;
  let* u := gets (λ s, up_int_sts (hw s)) in
  (if (u : bool) then
     modify (λ s, set_high (u64 (s_high_tick s + 1)) s) ;;;
     let* cb := gets upper_isr in
     (if cb_fun cb =? 0 then ret tt
      else modify (add_call (cb_fun cb, AON_RTC_NAME, isr_param cb))) ;;;
     clear_upper_int_status
   else ret tt) ;;;
  ret BK_OK.

End Device.

(** ** Initialisation.  [alloc_ok] is whether [os_zalloc] finds memory. *)
Definition zero_node : alarm_node_t := mk_node None (replicate 8 0) 0 0 0 0 0 0.
Definition zero_mem : aon_rtc_nodes_memory_t := mk_mem (replicate AON_RTC_MAX_ALARM_CNT zero_node) 0.
Definition no_cb : aon_rtc_callback_t := mk_cb 0 0.

Definition aon_rtc_sw_init (alloc_ok : bool) : M rtc Z :=
  modify (set_drv (mk_drv false None 0)) ;;;
  modify (set_isrs no_cb no_cb) ;;;
  modify (set_high 0) ;;;
  if alloc_ok then modify (set_nodes_p (Some zero_mem)) ;;; ret BK_OK
  else modify (set_nodes_p None) ;;; ret BK_ERR_NO_MEM.

(** [aon_rtc_hal_init] writes 0 to [ctrl] (which leaves the write-1-to-clear
    status bits alone) and to both compare registers, then sets [en]. *)
Definition aon_rtc_hw_init : M rtc unit :=
  modify (λ s, set_hw (mk_hw true false false false (tick_int_sts (hw s)) (up_int_sts (hw s)) 0 0) s) ;;;
  modify (λ s, set_hw (mk_hw (en (hw s)) (cnt_stop (hw s)) (tick_int_en (hw s)) true
                 (tick_int_sts (hw s)) (up_int_sts (hw s)) (tick_val (hw s)) AON_RTC_ROUND_TICK) s) ;;;
  modify (set_installed true) ;;;
  modify (λ s, set_hw (mk_hw (en (hw s)) false (tick_int_en (hw s)) (up_int_en (hw s))
                 (tick_int_sts (hw s)) (up_int_sts (hw s)) (tick_val (hw s)) (upper_val (hw s))) s).

Definition bk_aon_rtc_driver_init (alloc_ok : bool) : M rtc Z :=
  let* b := gets (λ s, inited (drv s)) in
  (if (b : bool) then ret tt
   else aon_rtc_sw_init alloc_ok ;;; aon_rtc_hw_init ;;; modify (set_inited true)) ;;;
  ret BK_OK.

Definition bk_aon_rtc_driver_deinit : M rtc Z :=
  let* b := gets (λ s, inited (drv s)) in
  (if (b : bool) then
     modify (set_installed false) ;;;
     modify (set_nodes_p None) ;;;
     modify (set_inited false)
   else ret tt) ;;;
  ret BK_OK.

Definition bk_aon_rtc_register_tick_isr (isr param : Z) : M rtc Z :=
  modify (λ s, set_isrs (mk_cb isr param) (upper_isr s) s) ;;; ret BK_OK.
Definition bk_aon_rtc_register_upper_isr (isr param : Z) : M rtc Z :=
  modify (λ s, set_isrs (tick_isr s) (mk_cb isr param) s) ;;; ret BK_OK.

(** The state before [bk_aon_rtc_driver_init]: all statics are zero. *)
Definition boot : rtc :=
  mk_rtc (mk_drv false None 0) None no_cb no_cb 0
    (mk_hw false false false false false false 0 0) false 0 0 [].

(** ** The store seen as a function from pointers to nodes *)
Definition nd (s : rtc) (i : nat) : option alarm_node_t :=
  nodes_p s ≫= λ m, nodes m !! i.
Definition nx (s : rtc) (i : nat) : option (option nat) := next <$> nd s i.
Definition store (i : nat) (n : alarm_node_t) (s : rtc) : rtc :=
  set_nodes_p ((λ m, mk_mem (<[i:=n]> (nodes m)) (busy_bits m)) <$> nodes_p s) s.

Lemma nd_store s i n j n0 : nd s i = Some n0 →
  nd (store i n s) j = if decide (i = j) then Some n else nd s j.
Proof.
  unfold nd, store. simpl. destruct (nodes_p s) as [m|]; simpl; [|done].
  intros H. rewrite list_lookup_insert. pose proof (lookup_lt_Some _ _ _ H).
  repeat case_decide; tauto.
Qed.

Lemma nd_store_eq s i n n0 : nd s i = Some n0 → nd (store i n s) i = Some n.
Proof. intros H. rewrite (nd_store _ _ _ _ _ H). by rewrite decide_True. Qed.

Lemma nd_store_ne s i n j n0 : nd s i = Some n0 → i ≠ j → nd (store i n s) j = nd s j.
Proof. intros H E. rewrite (nd_store _ _ _ _ _ H). by rewrite decide_False. Qed.

Lemma nx_store s i n j n0 : nd s i = Some n0 →
  nx (store i n s) j = if decide (i = j) then Some (next n) else nx s j.
Proof. intros H. unfold nx. rewrite (nd_store _ _ _ _ _ H). by case_decide. Qed.

Lemma get_node_ok s i n : nd s i = Some n → get_node i s = Done (n, s).
Proof.
  unfold nd, get_node, get_mem, bind. destruct (nodes_p s) as [m|]; simpl; [|done].
  by intros ->.
Qed.

Lemma upd_node_ok s i f n : nd s i = Some n → upd_node i f s = Done (tt, store i (f n) s).
Proof.
  intros H. unfold upd_node. rewrite (bind_done _ _ _ _ _ (get_node_ok _ _ _ H)).
  unfold nd, put_node, get_mem, put_mem, store, bind, modify in *.
  by destruct (nodes_p s).
Qed.

Lemma nd_range s i n : nd s i = Some n → (∃ m, nodes_p s = Some m ∧ (i < length (nodes m))%nat).
Proof.
  unfold nd. destruct (nodes_p s) as [m|]; simpl; [|done].
  intros H%lookup_lt_Some. eauto.
Qed.

(** What an operation that only relinks nodes leaves alone. *)
Definition payload (n : alarm_node_t) : alarm_node_t := set_next None n.
Definition busy (s : rtc) : Z := default 0 (busy_bits <$> nodes_p s).
Definition pool_size (s : rtc) : nat := default 0%nat ((λ m, length (nodes m)) <$> nodes_p s).

Record relinked (s s' : rtc) : Prop := {
  rl_payload : ∀ j, payload <$> nd s' j = payload <$> nd s j;
  rl_busy : busy s' = busy s;
  rl_size : pool_size s' = pool_size s;
  rl_inited : inited (drv s') = inited (drv s);
  rl_rest : (tick_isr s', upper_isr s', s_high_tick s', hw s', isr_installed s', reads s',
             lpo_reads s', calls s') =
            (tick_isr s, upper_isr s, s_high_tick s, hw s, isr_installed s, reads s,
             lpo_reads s, calls s) }.

Lemma relinked_refl s : relinked s s.
Proof. by constructor. Qed.

Lemma relinked_trans s1 s2 s3 : relinked s1 s2 → relinked s2 s3 → relinked s1 s3.
Proof.
  intros [] []. constructor; try congruence.
Qed.

Lemma relinked_store s i n q : nd s i = Some n → relinked s (store i (set_next q n) s).
Proof.
  intros H. constructor.
  - intros j. rewrite (nd_store _ _ _ _ _ H). case_decide; [|done]. subst. by rewrite H.
  - unfold busy, store. simpl. by destruct (nodes_p s).
  - unfold pool_size, store. simpl. destruct (nodes_p s); simpl; [|done].
    by rewrite length_insert.
  - done.
  - done.
Qed.

Lemma relinked_head s p : relinked s (set_head p s).
Proof. by constructor. Qed.
Lemma relinked_cnt s c : relinked s (set_cnt c s).
Proof. by constructor. Qed.
#[local] Hint Resolve relinked_refl relinked_store relinked_head relinked_cnt : bk.

(** Keys: the expiry time of each node; relinking does not change them. *)
Definition key (s : rtc) (i : nat) : Z := default 0 (expired_tick <$> nd s i).
Definition nname (s : rtc) (i : nat) : list Z := default [] (name <$> nd s i).

Lemma payload_fields n n' : payload n' = payload n →
  name n' = name n ∧ period_tick n' = period_tick n ∧ period_cnt n' = period_cnt n ∧
  callback n' = callback n ∧ cb_param_p n' = cb_param_p n ∧ expired_tick n' = expired_tick n.
Proof. unfold payload, set_next. intros H. injection H. auto 10. Qed.

Lemma relinked_key s s' j : relinked s s' → key s' j = key s j ∧ nname s' j = nname s j.
Proof.
  intros R. pose proof (rl_payload _ _ R j) as H. unfold key, nname.
  destruct (nd s' j) as [n'|], (nd s j) as [n|]; simpl in *; try done.
  apply (inj Some), payload_fields in H. intuition congruence.
Qed.

(** ** Sorted insertion on lists of node numbers *)
Fixpoint insert_sorted (k : nat → Z) (i : nat) (l : list nat) : list nat :=
  match l with
  | [] => [i]
  | j :: l' => if k j <=? k i then j :: insert_sorted k i l' else i :: j :: l'
  end.

Definition sorted (k : nat → Z) (l : list nat) : Prop :=
  StronglySorted (λ i j, k i ≤ k j) l.

Lemma insert_sorted_perm k i l : insert_sorted k i l ≡ₚ i :: l.
Proof.
  induction l as [|j l IH]; simpl; [done|]. destruct (_ <=? _); [|done].
  rewrite IH. apply Permutation_swap.
Qed.

Lemma insert_sorted_elem k i l j : j ∈ insert_sorted k i l ↔ j = i ∨ j ∈ l.
Proof. rewrite insert_sorted_perm. set_solver. Qed.

Lemma insert_sorted_sorted k i l : sorted k l → sorted k (insert_sorted k i l).
Proof.
  unfold sorted. induction 1 as [|j l Hs IH Hf]; simpl; [repeat constructor|].
  destruct (Z.leb_spec (k j) (k i)).
  - constructor; [done|]. rewrite Forall_forall in *. intros x.
    rewrite insert_sorted_elem. intros [->|Hx]; [done|]. by apply Hf.
  - constructor; [by constructor|]. constructor; [lia|].
    rewrite Forall_forall in *. intros x Hx. specialize (Hf x Hx). lia.
Qed.

Lemma insert_sorted_app k i l1 l2 :
  (∀ j, j ∈ l1 → k j ≤ k i) → insert_sorted k i (l1 ++ l2) = l1 ++ insert_sorted k i l2.
Proof.
  induction l1 as [|j l1 IH]; intros H; simpl; [done|].
  rewrite (proj2 (Z.leb_le _ _)) by (apply H; set_solver). f_equal. apply IH. set_solver.
Qed.

Lemma insert_sorted_NoDup k i l : NoDup l → i ∉ l → NoDup (insert_sorted k i l).
Proof. intros. rewrite insert_sorted_perm. by constructor. Qed.

Lemma insert_sorted_length k i l : length (insert_sorted k i l) = S (length l).
Proof. by rewrite insert_sorted_perm. Qed.

Lemma insert_sorted_ext k k' i l :
  (∀ j, j = i ∨ j ∈ l → k' j = k j) → insert_sorted k' i l = insert_sorted k i l.
Proof.
  induction l as [|j l IH]; intros E; simpl; [done|].
  rewrite !E, IH by set_solver. done.
Qed.

Lemma sorted_ext k k' l : (∀ j, j ∈ l → k' j = k j) → sorted k l → sorted k' l.
Proof.
  unfold sorted. intros E. induction 1 as [|j l Hs IH Hf]; constructor.
  - apply IH. set_solver.
  - rewrite Forall_forall in *. intros x Hx. rewrite !E by set_solver. auto.
Qed.

(** ** Well-formed alarm lists *)
Record alarms (s : rtc) (l : list nat) : Prop := {
  al_size : pool_size s = AON_RTC_MAX_ALARM_CNT;
  al_chain : chain (nx s) (alarm_head_p (drv s)) l;
  al_nodup : NoDup l;
  al_cnt : alarm_node_cnt (drv s) = Z.of_nat (length l);
  al_sorted : sorted (key s) l;
  al_names : ∀ i j, i ∈ l → j ∈ l → i ≠ j →
    strncmp ALARM_NAME_MAX_LEN (nname s i) (nname s j) ≠ 0 }.

(** The invariant of the driver between operations: the list is well formed and
    the taken pool entries are exactly the ones on it. *)
Record wf (s : rtc) (l : list nat) : Prop := {
  wf_alarms : alarms s l;
  wf_busy : ∀ i, (i < AON_RTC_MAX_ALARM_CNT)%nat →
    Z.testbit (busy s) (Z.of_nat i) = bool_decide (i ∈ l) }.

Lemma chain_nodes s p l i : chain (nx s) p l → i ∈ l → ∃ n, nd s i = Some n.
Proof.
  revert p. induction l as [|j l IH]; intros p; simpl; [set_solver|].
  intros [-> (q & Hq & Hc)] [->|Hi]%elem_of_cons; [|eauto].
  unfold nx in Hq. destruct (nd s j); eauto. done.
Qed.

Lemma alarms_node s l i : alarms s l → i ∈ l →
  ∃ n, nd s i = Some n ∧ expired_tick n = key s i ∧ name n = nname s i ∧
       (i < AON_RTC_MAX_ALARM_CNT)%nat.
Proof.
  intros A Hi. destruct (chain_nodes _ _ _ _ (al_chain _ _ A) Hi) as [n Hn].
  exists n. unfold key, nname. rewrite Hn. simpl. repeat split; [done..|].
  destruct (nd_range _ _ _ Hn) as (m & Em & Hm). pose proof (al_size _ _ A) as Hs.
  unfold pool_size in Hs. rewrite Em in Hs. simpl in Hs. lia.
Qed.

Lemma NoDup_bounded (l : list nat) n :
  NoDup l → (∀ i, i ∈ l → (i < n)%nat) → (length l ≤ n)%nat.
Proof.
  intros ND B. rewrite <-(length_seq n 0).
  apply submseteq_length, NoDup_submseteq; [done|].
  intros i Hi. apply elem_of_seq. specialize (B i Hi). lia.
Qed.

Lemma alarms_length s l : alarms s l → (length l ≤ AON_RTC_MAX_ALARM_CNT)%nat.
Proof.
  intros A. apply NoDup_bounded; [apply (al_nodup _ _ A)|].
  intros i Hi. by destruct (alarms_node _ _ _ A Hi) as (?&_&_&_&?).
Qed.

(** The duplicate-name scan. *)
Lemma name_registered_ok s nm l p fuel :
  chain (nx s) p l → (length l ≤ fuel)%nat →
  name_registered fuel p nm s =
    Done (existsb (λ i, strncmp ALARM_NAME_MAX_LEN (nname s i) nm =? 0) l, s).
Proof.
  revert p fuel. induction l as [|i l IH]; intros p fuel; simpl.
  - intros -> _. by destruct fuel.
  - intros [-> (q & Hq & Hc)] Hf. destruct fuel as [|fuel]; [lia|]. simpl.
    unfold nx in Hq. destruct (nd s i) as [n|] eqn:Hn; simplify_eq/=.
    rewrite (bind_done _ _ _ _ _ (get_node_ok _ _ _ Hn)).
    unfold nname at 1. rewrite Hn. simpl.
    destruct (_ =? 0); simpl; [done|]. apply IH; [done|lia].
Qed.

Lemma existsb_false {A} (f : A → bool) l : existsb f l = false ↔ ∀ x, x ∈ l → f x = false.
Proof.
  induction l as [|y l IH]; simpl; [set_solver|].
  rewrite orb_false_iff, IH. set_solver.
Qed.

(** Linking node [i] behind [a], whose successor it already points to. *)
Lemma link_after s l1 a l2 i n c :
  chain (nx s) (alarm_head_p (drv s)) (l1 ++ a :: l2) →
  NoDup (l1 ++ a :: l2) → i ∉ l1 ++ a :: l2 →
  nd s i = Some n → nd s a = Some c →
  let s' := store a (set_next (Some i) c) (store i (set_next (head l2) n) s) in
  nd (store i (set_next (head l2) n) s) a = Some c ∧ relinked s s' ∧
  chain (nx s') (alarm_head_p (drv s)) (l1 ++ a :: i :: l2).
Proof.
  intros Hc ND Hi Hn Ha. assert (i ≠ a) by set_solver.
  assert (Ha' : nd (store i (set_next (head l2) n) s) a = Some c)
    by (by rewrite (nd_store_ne _ _ _ _ _ Hn)).
  split; [done|]. split; [eapply relinked_trans; by apply relinked_store|].
  eapply chain_insert_after; [done..| | |].
  - intros j ??. by rewrite (nx_store _ _ _ _ _ Ha'), (nx_store _ _ _ _ _ Hn), !decide_False.
  - by rewrite (nx_store _ _ _ _ _ Ha'), decide_True.
  - by rewrite (nx_store _ _ _ _ _ Ha'), (nx_store _ _ _ _ _ Hn), decide_False, decide_True.
Qed.

Lemma store_same s i n : nd s i = Some n → store i n s = s.
Proof.
  unfold nd, store. destruct s as [d [m|] ? ? ? ? ? ? ? ?]; simpl; [|done].
  intros H. unfold set_nodes_p. simpl. rewrite list_insert_id by done. by destruct m.
Qed.

Lemma set_next_same n q : next n = q → set_next q n = n.
Proof. intros <-. by destruct n. Qed.

Lemma link_front s l i n :
  chain (nx s) (alarm_head_p (drv s)) l → i ∉ l → nd s i = Some n →
  chain (nx (store i (set_next (head l) n) s)) (Some i) (i :: l).
Proof.
  intros Hc Hi Hn. eapply chain_insert_front; [done..| |].
  - intros j ?. by rewrite (nx_store _ _ _ _ _ Hn), decide_False.
  - by rewrite (nx_store _ _ _ _ _ Hn), decide_True.
Qed.

(** The search loop links the node in front of the first later one. *)
Lemma insert_loop_ok s i n l1 cur nxp l2 fuel :
  chain (nx s) (alarm_head_p (drv s)) (l1 ++ cur :: nxp :: l2) →
  NoDup (l1 ++ cur :: nxp :: l2) → i ∉ l1 ++ cur :: nxp :: l2 →
  nd s i = Some n → next n = None →
  (∀ j, j ∈ l1 → key s j ≤ key s i) → (l1 ≠ [] → key s cur ≤ key s i) →
  (length l2 < fuel)%nat →
  ∃ s', insert_loop fuel cur nxp i (key s i) s = Done (tt, s') ∧ relinked s s' ∧
    alarm_node_cnt (drv s') = alarm_node_cnt (drv s) ∧
    chain (nx s') (alarm_head_p (drv s')) (insert_sorted (key s) i (l1 ++ cur :: nxp :: l2)).
Proof.
  revert l1 cur nxp l2. induction fuel as [|fuel IH];
    intros l1 cur nxp l2 Hc ND Hi Hn Hnn Hl1 Hcur Hf; [lia|].
  destruct (chain_nodes _ _ _ cur Hc ltac:(set_solver)) as [c Hcn].
  destruct (chain_nodes _ _ _ nxp Hc ltac:(set_solver)) as [x Hxn].
  assert (Kc : expired_tick c = key s cur) by (unfold key; by rewrite Hcn).
  assert (Kx : expired_tick x = key s nxp) by (unfold key; by rewrite Hxn).
  assert (Nx : next x = head l2).
  { pose proof (chain_next (nx s) (alarm_head_p (drv s)) (l1 ++ [cur]) nxp l2) as H.
    rewrite <-app_assoc in H. specialize (H Hc). unfold nx in H. rewrite Hxn in H. by injection H. }
  rewrite insert_sorted_app by done. simpl.
  rewrite (bind_done _ _ _ _ _ (get_node_ok _ _ _ Hcn)), Kc.
  destruct (Z.leb_spec (key s cur) (key s i)) as [L|L].
  - rewrite (bind_done _ _ _ _ _ (get_node_ok _ _ _ Hxn)), Kx, Nx.
    destruct (Z.leb_spec (key s nxp) (key s i)) as [L'|L'].
    + destruct l2 as [|nn l2]; simpl.
      * destruct (link_after s (l1 ++ [cur]) nxp [] i n x) as (_ & R & C);
          rewrite <-?app_assoc; [done..|].
        rewrite (set_next_same n), (store_same s) in R, C by done.
        rewrite (upd_node_ok _ _ _ _ Hxn). eexists. split; [done|].
        rewrite <-app_assoc in C. done.
      * destruct (IH (l1 ++ [cur]) nxp nn l2) as (s' & E & R & C & H);
          rewrite <-?app_assoc; simpl in *; try done; [|lia|].
        -- intros j [Hj| ->%list_elem_of_singleton]%elem_of_app; auto.
        -- exists s'. do 3 (split; [done|]).
           rewrite <-app_assoc, insert_sorted_app in H by done. simpl in H.
           by rewrite !(proj2 (Z.leb_le _ _)) in H by lia.
    + destruct (link_after s l1 cur (nxp :: l2) i n c) as (H & R & C); [done..|].
      rewrite (bind_done _ _ _ _ _ (upd_node_ok _ _ _ _ Hn)), (upd_node_ok _ _ _ _ H).
      eexists. done.
  - assert (l1 = []) as -> by (destruct l1; [done|]; specialize (Hcur ltac:(done)); lia).
    rewrite (bind_done _ _ _ _ _ (upd_node_ok _ _ _ _ Hn)). eexists. split; [done|].
    split; [eapply relinked_trans; [exact (relinked_store s i n (Some cur) Hn)|apply relinked_head]|].
    split; [done|]. by apply (link_front s (cur :: nxp :: l2)).
Qed.

Lemma alarm_link_node_ok s l i n :
  alarms s l → nd s i = Some n → next n = None → i ∉ l →
  ∃ s', alarm_link_node i n s = Done (tt, s') ∧ relinked s s' ∧
    alarm_node_cnt (drv s') = u32 (alarm_node_cnt (drv s) + 1) ∧
    chain (nx s') (alarm_head_p (drv s')) (insert_sorted (key s) i l).
Proof.
  intros A Hn Hnn Hi. pose proof A as [_ Hc ND _ _ _].
  pose proof (alarms_length _ _ A) as Hlen. unfold AON_RTC_MAX_ALARM_CNT in Hlen.
  assert (Kn : expired_tick n = key s i) by (unfold key; by rewrite Hn).
  pose proof (link_front s l i n Hc Hi Hn) as F.
  unfold alarm_link_node, gets, bind at 1. rewrite (chain_head _ _ _ Hc), Kn.
  destruct l as [|cur [|nxp l2]]; cbn [head]; cbv beta iota.
  - eexists. split; [done|]. split; [apply (relinked_trans _ (set_head (Some i) s)); by constructor|].
    split; [done|]. simpl in *. by rewrite (set_next_same n), (store_same s) in F.
  - destruct (chain_nodes _ _ _ cur Hc ltac:(set_solver)) as [c Hcn].
    assert (Kc : expired_tick c = key s cur) by (unfold key; by rewrite Hcn).
    pose proof (chain_next _ _ [] _ _ Hc) as Nc. unfold nx in Nc. rewrite Hcn in Nc. simpl in Nc.
    rewrite (bind_done _ _ _ _ _ (get_node_ok _ _ _ Hcn)), Kc. injection Nc as ->.
    simpl. destruct (Z.leb_spec (key s cur) (key s i)).
    + rewrite (bind_done _ _ _ _ _ (upd_node_ok _ _ _ _ Hcn)).
      destruct (link_after s [] cur [] i n c) as (_ & R & C); [done..|].
      rewrite (set_next_same n), (store_same s) in R, C by done.
      eexists. split; [done|]. split; [|done]. eapply relinked_trans; [done|by constructor].
    + unfold bind at 1. rewrite (bind_done _ _ _ _ _ (upd_node_ok _ _ _ _ Hn)).
      eexists. split; [done|]. split; [|done].
      eapply relinked_trans; [exact (relinked_store s i n (Some cur) Hn)|by constructor].
  - destruct (chain_nodes _ _ _ cur Hc ltac:(set_solver)) as [c Hcn].
    pose proof (chain_next _ _ [] _ _ Hc) as Nc. unfold nx in Nc. rewrite Hcn in Nc. simpl in Nc.
    rewrite (bind_done _ _ _ _ _ (get_node_ok _ _ _ Hcn)). injection Nc as ->.
    destruct (insert_loop_ok s i n [] cur nxp l2 FUEL) as (s' & E & R & C & H);
      [done..|set_solver|done|unfold FUEL, AON_RTC_MAX_ALARM_CNT; simpl in *; lia|].
    rewrite (bind_done _ _ _ _ _ E). eexists. split; [done|].
    split; [eapply relinked_trans; [done|by constructor]|]. simpl. by rewrite C.
Qed.

(** [alarm_insert_node] inserts after every alarm that expires no later. *)
Lemma alarm_insert_node_links s l i n :
  alarms s l → nd s i = Some n → next n = None → i ∉ l →
  (∀ j, j ∈ l → strncmp ALARM_NAME_MAX_LEN (nname s j) (nname s i) ≠ 0) →
  ∃ s', alarm_insert_node i s = Done (0, s') ∧ relinked s s' ∧
    alarms s' (insert_sorted (key s) i l).
Proof.
  intros A Hn Hnn Hi Hnm. pose proof A as [Hsz Hc ND Hcnt Hs Hnames].
  pose proof (alarms_length _ _ A) as Hlen.
  assert (Nn : name n = nname s i) by (unfold nname; by rewrite Hn).
  destruct (alarm_link_node_ok s l i n) as (s' & E & R & C & Hc'); [done..|].
  unfold alarm_insert_node.
  rewrite (bind_done _ _ _ _ _ (get_node_ok _ _ _ Hn)). unfold gets, bind at 1.
  rewrite (bind_done _ _ _ _ _ (name_registered_ok _ (name n) _ _ FUEL Hc ltac:(unfold FUEL; lia))).
  rewrite (proj2 (existsb_false _ _)) by (intros j Hj; rewrite Nn; apply Z.eqb_neq; auto).
  rewrite (bind_done _ _ _ _ _ E). exists s'. split; [done|]. split; [done|].
  pose proof (relinked_key s s') as K.
  split.
  - by rewrite (rl_size _ _ R).
  - done.
  - by apply insert_sorted_NoDup.
  - rewrite C, Hcnt, insert_sorted_length, u32_small; [lia|].
    unfold AON_RTC_MAX_ALARM_CNT in Hlen. lia.
  - apply sorted_ext with (key s); [|by apply insert_sorted_sorted].
    intros j _. by apply K.
  - intros a b Ha Hb Hab. rewrite !(proj2 (K _ R)).
    apply insert_sorted_elem in Ha as [->|Ha], Hb as [->|Hb]; auto.
    intros H%strncmp_sym. by apply (Hnm b).
Qed.

(** A node whose name is already on the list is refused, and nothing changes. *)
Lemma alarm_insert_node_duplicate s l i n j :
  alarms s l → nd s i = Some n → j ∈ l →
  strncmp ALARM_NAME_MAX_LEN (nname s j) (name n) = 0 →
  alarm_insert_node i s = Done (-1, s).
Proof.
  intros A Hn Hj E. pose proof (alarms_length _ _ A) as Hlen. unfold alarm_insert_node.
  rewrite (bind_done _ _ _ _ _ (get_node_ok _ _ _ Hn)). unfold gets, bind at 1.
  rewrite (bind_done _ _ _ _ _ (name_registered_ok _ (name n) _ _ FUEL (al_chain _ _ A) ltac:(unfold FUEL; lia))).
  destruct (existsb _ l) eqn:X; [done|].
  apply existsb_false with (x := j) in X; [|done]. apply Z.eqb_neq in X. done.
Qed.

(** ** Taking and returning pool entries *)
Definition env (s : rtc) :=
  (tick_isr s, upper_isr s, s_high_tick s, hw s, isr_installed s, reads s, lpo_reads s, calls s).
Definition set_busy (b : Z) (s : rtc) : rtc :=
  set_nodes_p ((λ m, mk_mem (nodes m) b) <$> nodes_p s) s.

(** Everything but node [i], the links and the bitmap is as before. *)
Record frame (i : nat) (s s' : rtc) : Prop := {
  fr_payload : ∀ j, j ≠ i → payload <$> nd s' j = payload <$> nd s j;
  fr_size : pool_size s' = pool_size s;
  fr_inited : inited (drv s') = inited (drv s) }.

Lemma relinked_frame i s s' : relinked s s' → frame i s s'.
Proof. intros []. by constructor. Qed.

Lemma frame_trans i s1 s2 s3 : frame i s1 s2 → frame i s2 s3 → frame i s1 s3.
Proof.
  intros [P1 S1 I1] [P2 S2 I2]. constructor; [|congruence..].
  intros j Hj. by rewrite P2, P1.
Qed.

Lemma frame_store i s n n0 : nd s i = Some n0 → frame i s (store i n s).
Proof.
  intros H. constructor; [| |done].
  - intros j Hj. by rewrite (nd_store_ne _ _ _ _ _ H).
  - unfold pool_size, store. simpl. destruct (nodes_p s); simpl; [|done].
    by rewrite length_insert.
Qed.

Lemma frame_key i s s' j : frame i s s' → j ≠ i → key s' j = key s j ∧ nname s' j = nname s j.
Proof.
  intros R Hj. pose proof (fr_payload _ _ _ R j Hj) as H. unfold key, nname.
  destruct (nd s' j) as [n'|], (nd s j) as [n|]; simpl in *; try done.
  apply (inj Some), payload_fields in H. intuition congruence.
Qed.

Lemma nd_set_busy b s j : nd (set_busy b s) j = nd s j.
Proof. unfold nd, set_busy. simpl. by destruct (nodes_p s). Qed.

Lemma frame_set_busy i b s : frame i s (set_busy b s).
Proof.
  constructor; [|unfold pool_size, set_busy; simpl; by destruct (nodes_p s)|done].
  intros j _. by rewrite nd_set_busy.
Qed.

Lemma busy_set_busy b s i n : nd s i = Some n → busy (set_busy b s) = b.
Proof. unfold nd, busy, set_busy. simpl. by destruct (nodes_p s). Qed.

Lemma busy_store i n s : busy (store i n s) = busy s.
Proof. unfold busy, store. simpl. by destruct (nodes_p s). Qed.

Lemma aon_rtc_release_node_ok s i n :
  nd s i = Some n → (i < AON_RTC_MAX_ALARM_CNT)%nat →
  aon_rtc_release_node i s =
    Done (tt, store i (zero_info_size n) (set_busy (clear_bit (busy s) (Z.of_nat i)) s)).
Proof.
  intros Hn Hi. unfold aon_rtc_release_node. rewrite decide_True by done.
  transitivity (upd_node i zero_info_size (set_busy (clear_bit (busy s) (Z.of_nat i)) s)).
  - unfold bind, get_mem, put_mem, modify, set_busy, busy, nd in *.
    destruct (nodes_p s); done.
  - apply upd_node_ok. by rewrite nd_set_busy.
Qed.

Lemma request_from_ok k i m r m' :
  request_from k i m = (r, m') →
  match r with
  | Some j => (i ≤ j < i + k)%nat ∧ Z.testbit (busy_bits m) (Z.of_nat j) = false ∧
      m' = mk_mem (nodes m) (set_bit (busy_bits m) (Z.of_nat j))
  | None => m' = m ∧ (∀ j, (i ≤ j < i + k)%nat → Z.testbit (busy_bits m) (Z.of_nat j) = true)
  end.
Proof.
  revert i. induction k as [|k IH]; intros i; simpl.
  - intros [= <- <-]. split; [done|]. lia.
  - pose proof (has_bit_testbit (busy_bits m) (Z.of_nat i) ltac:(lia)) as B.
    unfold has_bit in B. destruct (_ =? 0); simpl in B.
    + intros [= <- <-]. repeat split; [lia..|done].
    + intros H%IH. destruct r as [j|].
      * destruct H as (? & ? & ?). repeat split; [lia..|done|done].
      * destruct H as (-> & H). split; [done|]. intros j Hj.
        destruct (decide (j = i)) as [->|]; [done|]. apply H. lia.
Qed.

#[local] Arguments request_from : simpl never.

(** A request succeeds exactly when an entry is free. *)
Lemma aon_rtc_request_node_ok s l :
  wf s l → (length l < AON_RTC_MAX_ALARM_CNT)%nat →
  ∃ i n, aon_rtc_request_node s = Done (Some i, set_busy (set_bit (busy s) (Z.of_nat i)) s) ∧
    (i ∉ l) ∧ (i < AON_RTC_MAX_ALARM_CNT)%nat ∧ nd s i = Some n.
Proof.
  intros [A B] Hl. pose proof (al_size _ _ A) as Hs.
  unfold aon_rtc_request_node, bind, get_mem, put_mem, modify, ret, set_busy, nd, pool_size, busy in *.
  destruct (nodes_p s) as [m|]; simpl in *; [|done].
  destruct (request_from AON_RTC_MAX_ALARM_CNT 0 m) as [r m'] eqn:E0.
  pose proof (request_from_ok _ _ _ _ _ E0) as E. destruct r as [i|].
  - destruct E as (Hi & Hb & ->). rewrite B in Hb by lia.
    apply bool_decide_eq_false in Hb.
    destruct (lookup_lt_is_Some_2 (nodes m) i) as [n Hn]; [lia|].
    exists i, n. repeat split; [done|lia|done].
  - destruct E as (_ & H). exfalso.
    assert (length (seq 0 AON_RTC_MAX_ALARM_CNT) ≤ length l)%nat as Hle.
    { apply submseteq_length, NoDup_submseteq; [apply NoDup_seq|].
      intros j Hj%elem_of_seq. specialize (H j ltac:(lia)).
      rewrite B in H by lia. by apply bool_decide_eq_true in H. }
    rewrite length_seq in Hle. lia.
Qed.

(** ** Removing a node *)
Lemma sorted_drop k l1 i l2 : sorted k (l1 ++ i :: l2) → sorted k (l1 ++ l2).
Proof.
  unfold sorted. induction l1 as [|j l1 IH]; simpl; [by inversion 1|].
  inversion 1 as [|?? Hs Hf]; subst. constructor; [auto|].
  rewrite Forall_forall in *. set_solver.
Qed.

Lemma alarms_sub s s' i l1 l2 :
  alarms s (l1 ++ i :: l2) → frame i s s' →
  chain (nx s') (alarm_head_p (drv s')) (l1 ++ l2) →
  alarm_node_cnt (drv s') = u32 (alarm_node_cnt (drv s) - 1) →
  alarms s' (l1 ++ l2).
Proof.
  intros A F C N. pose proof A as [Hs Hc ND Hn Hso Hnm].
  assert (i ∉ l1 ++ l2) as Hi.
  { rewrite <-Permutation_middle in ND. by inversion ND. }
  assert (∀ j, j ∈ l1 ++ l2 → j ≠ i) as Hne by (by intros j Hj ->).
  constructor.
  - by rewrite (fr_size _ _ _ F).
  - done.
  - rewrite <-Permutation_middle in ND. by inversion ND.
  - rewrite N, Hn. pose proof (alarms_length _ _ A) as Hl.
    unfold AON_RTC_MAX_ALARM_CNT in Hl. rewrite !length_app in *. simpl in *.
    rewrite u32_small; lia.
  - apply sorted_drop in Hso. eapply sorted_ext; [|done].
    intros j Hj. apply (frame_key _ _ _ _ F). auto.
  - intros a b Ha Hb Hab. rewrite (proj2 (frame_key _ _ _ _ F (Hne _ Ha))), (proj2 (frame_key _ _ _ _ F (Hne _ Hb))).
    apply Hnm; set_solver.
Qed.

(** Returning the entry of a node that has just been unlinked re-establishes the
    invariant for the shorter list. *)
Lemma release_unlinked s s1 i l1 l2 c :
  wf s (l1 ++ i :: l2) → frame i s s1 → busy s1 = busy s → env s1 = env s →
  nd s1 i = Some c → alarm_node_cnt (drv s1) = u32 (alarm_node_cnt (drv s) - 1) →
  chain (nx s1) (alarm_head_p (drv s1)) (l1 ++ l2) →
  ∃ s', aon_rtc_release_node i s1 = Done (tt, s') ∧ wf s' (l1 ++ l2) ∧ frame i s s' ∧ env s' = env s.
Proof.
  intros [A B] F Hb He Hc Hn Hch.
  destruct (alarms_node _ _ i A) as (n & _ & _ & _ & Hi); [set_solver|].
  assert (i ∉ l1 ++ l2) as Hni.
  { pose proof (al_nodup _ _ A) as ND. rewrite <-Permutation_middle in ND. by inversion ND. }
  rewrite (aon_rtc_release_node_ok _ _ _ Hc Hi). eexists. split; [done|].
  set (s2 := set_busy _ s1). assert (Hc2 : nd s2 i = Some c) by (unfold s2; by rewrite nd_set_busy).
  assert (F2 : frame i s (store i (zero_info_size c) s2)).
  { eapply frame_trans; [done|]. eapply frame_trans; [apply frame_set_busy|].
    eapply frame_store. done. }
  split; [|done]. constructor.
  - eapply alarms_sub; [done..| |done].
    eapply chain_ext; [|exact Hch]. intros j Hj.
    rewrite (nx_store _ _ _ _ _ Hc2), decide_False by (by intros ->).
    unfold nx, s2. by rewrite nd_set_busy.
  - intros j Hj. rewrite busy_store. unfold s2. rewrite (busy_set_busy _ _ _ _ Hc).
    rewrite testbit_clear_bit, Hb, B by lia.
    rewrite <-bool_decide_not, <-bool_decide_and. apply bool_decide_ext.
    rewrite !elem_of_app, elem_of_cons. rewrite elem_of_app in Hni.
    split; [intros [? ?]|intros H]; [|split; [tauto|intros ?%Nat2Z.inj; subst; tauto]].
    assert (j ≠ i) by congruence. tauto.
Qed.

Definition matches (s : rtc) (nm : list Z) (i : nat) : bool :=
  strncmp ALARM_NAME_MAX_LEN (nname s i) nm =? 0.

Lemma dec_release {A} s1 i (r : A) s' :
  aon_rtc_release_node i (set_cnt (u32 (alarm_node_cnt (drv s1) - 1)) s1) = Done (tt, s') →
  (dec_cnt ;;; aon_rtc_release_node i ;;; ret r) s1 = Done (r, s').
Proof. intros E. unfold dec_cnt, modify, bind at 1. by rewrite (bind_done _ _ _ _ _ E). Qed.

(** Unlinking and returning the node found by the removal loop. *)
Lemma remove_here s l1 i l2 c p :
  wf s (l1 ++ i :: l2) → nd s i = Some c →
  p = match last l1 with Some j => Some j | None => Some i end →
  ∃ s', (if decide (p = Some i) then
           let* h := gets (λ s, alarm_head_p (drv s)) in
           modify (set_head (next c)) ;;; dec_cnt ;;; aon_rtc_release_node i ;;; ret h
         else match p with
              | Some p => upd_node p (set_next (next c)) ;;; dec_cnt ;;;
                          aon_rtc_release_node i ;;; ret (Some i)
              | None => trapM Fault
              end) s = Done (Some i, s') ∧
    wf s' (l1 ++ l2) ∧ frame i s s' ∧ env s' = env s.
Proof.
  intros W Hn ->. pose proof (wf_alarms _ _ W) as A.
  pose proof (al_chain _ _ A) as Hc. pose proof (al_nodup _ _ A) as ND.
  pose proof (chain_next _ _ _ _ _ Hc) as Nx. unfold nx in Nx. rewrite Hn in Nx. injection Nx as Nx.
  destruct l1 as [|p l1 _] using rev_ind.
  - simpl. rewrite decide_True by done. unfold gets, bind at 1.
    rewrite (chain_head _ _ _ Hc). cbn [head app].
    destruct (release_unlinked s (set_cnt (u32 (alarm_node_cnt (drv s) - 1)) (set_head (next c) s))
                i [] l2 c) as (s' & E & H); [done|by constructor|done..| |].
    + simpl. rewrite Nx. by apply (chain_suffix (nx s) (alarm_head_p (drv s)) [i] l2).
    + exists s'. split; [|done]. exact (dec_release (set_head (next c) s) i (Some i) s' E).
  - rewrite last_snoc. rewrite <-app_assoc in Hc, ND. simpl in Hc, ND.
    assert (p ≠ i) as Hpi.
    { intros ->. rewrite NoDup_app, !NoDup_cons in ND. set_solver. }
    rewrite decide_False by congruence.
    destruct (chain_nodes _ _ _ p Hc ltac:(set_solver)) as [pn Hp].
    rewrite (bind_done _ _ _ _ _ (upd_node_ok _ _ _ _ Hp)).
    destruct (release_unlinked s
                (set_cnt (u32 (alarm_node_cnt (drv s) - 1)) (store p (set_next (next c) pn) s))
                i (l1 ++ [p]) l2 c) as (s' & E & H); [done| |apply busy_store|done| |done| |].
    + apply relinked_frame. eapply relinked_trans; [by apply relinked_store|by constructor].
    + rewrite <-Hn. by apply (nd_store_ne s p (set_next (next c) pn) i pn).
    + simpl. rewrite <-app_assoc. apply (chain_remove_after (nx s) _ _ l1 p i l2); [done..| |].
      * intros j Hj. change (nx (store p (set_next (next c) pn) s) j = nx s j).
        rewrite (nx_store _ _ _ _ _ Hp), decide_False; [done|].
        intros ->. rewrite NoDup_app, !NoDup_cons in ND. set_solver.
      * change (nx (store p (set_next (next c) pn) s) p = Some (head l2)).
        by rewrite (nx_store _ _ _ _ _ Hp), decide_True, Nx.
    + exists s'. split; [|done]. exact (dec_release _ i (Some i) s' E).
Qed.

Lemma remove_loop_ok s nm l1 l2 fuel cnt :
  wf s (l1 ++ l2) → (∀ j, j ∈ l1 → matches s nm j = false) →
  cnt = length l1 → (length l2 ≤ fuel)%nat →
  match List.find (matches s nm) l2 with
  | None => remove_loop fuel cnt (match last l1 with Some j => Some j | None => head l2 end)
              (head l2) nm s = Done (None, s)
  | Some i => ∃ a b s', l1 ++ l2 = a ++ i :: b ∧
      remove_loop fuel cnt (match last l1 with Some j => Some j | None => head l2 end)
        (head l2) nm s = Done (Some i, s') ∧
      wf s' (a ++ b) ∧ frame i s s' ∧ env s' = env s
  end.
Proof.
  revert l1 fuel cnt. induction l2 as [|i l2 IH]; intros l1 fuel cnt W Hl1 -> Hf.
  - simpl. by destruct fuel.
  - destruct fuel as [|fuel]; [simpl in Hf; lia|].
    pose proof (wf_alarms _ _ W) as A.
    pose proof (alarms_length _ _ A) as Hlen. rewrite length_app in Hlen. simpl in Hlen.
    destruct (alarms_node _ _ i A) as (c & Hn & _ & Nm & _); [set_solver|].
    assert (Nx : next c = head l2).
    { pose proof (chain_next _ _ _ _ _ (al_chain _ _ A)) as H. unfold nx in H.
      rewrite Hn in H. by injection H. }
    cbn [remove_loop head List.find]. rewrite bool_decide_true by lia.
    unfold BK_ASSERT. rewrite (bind_done _ _ _ _ _ (ret_done tt s)).
    rewrite (bind_done _ _ _ _ _ (get_node_ok _ _ _ Hn)), Nm.
    change (strncmp ALARM_NAME_MAX_LEN (nname s i) nm =? 0) with (matches s nm i).
    destruct (matches s nm i) eqn:E.
    + destruct (remove_here s l1 i l2 c _ W Hn eq_refl) as (s' & H & ?).
      exists l1, l2, s'. split; [done|]. split; [exact H|done].
    + specialize (IH (l1 ++ [i]) fuel (S (length l1))).
      rewrite last_snoc, <-app_assoc in IH. rewrite Nx. apply IH; [done| | |].
      * intros j [Hj| ->%list_elem_of_singleton]%elem_of_app; auto.
      * rewrite length_app. simpl. lia.
      * simpl in Hf. lia.
Qed.

Lemma alarm_remove_node_ok s nm l :
  wf s l →
  match List.find (matches s nm) l with
  | None => alarm_remove_node nm s = Done (None, s)
  | Some i => ∃ a b s', l = a ++ i :: b ∧ alarm_remove_node nm s = Done (Some i, s') ∧
      wf s' (a ++ b) ∧ frame i s s' ∧ env s' = env s
  end.
Proof.
  intros W. pose proof (alarms_length _ _ (wf_alarms _ _ W)).
  pose proof (remove_loop_ok s nm [] l FUEL 0 W ltac:(set_solver) eq_refl ltac:(unfold FUEL; lia)) as H1.
  unfold alarm_remove_node, gets, bind at 1 2.
  rewrite (chain_head _ _ _ (al_chain _ _ (wf_alarms _ _ W))). exact H1.
Qed.

(** ** Steps that do not touch the list *)
Record untouched (i : nat) (s s' : rtc) : Prop := {
  un_nd : ∀ j, j ≠ i → nd s' j = nd s j;
  un_size : pool_size s' = pool_size s;
  un_drv : drv s' = drv s }.

Lemma untouched_frame i s s' : untouched i s s' → frame i s s'.
Proof.
  intros [N S D]. constructor; [|done|by rewrite D]. intros j Hj. by rewrite N.
Qed.

Lemma alarms_untouched i s s' l : alarms s l → untouched i s s' → i ∉ l → alarms s' l.
Proof.
  intros [Hs Hc ND Hn Hso Hnm] U Hi. pose proof (untouched_frame _ _ _ U) as F.
  destruct U as [N S D].
  assert (∀ j, j ∈ l → j ≠ i) as Hne by (by intros j Hj ->).
  constructor; rewrite ?D, ?S; try done.
  - eapply chain_ext; [|done]. intros j Hj. unfold nx. by rewrite N by auto.
  - eapply sorted_ext; [|done]. intros j Hj. apply (frame_key _ _ _ _ F). auto.
  - intros a b Ha Hb. rewrite (proj2 (frame_key _ _ _ _ F (Hne _ Ha))),
      (proj2 (frame_key _ _ _ _ F (Hne _ Hb))). auto.
Qed.

Lemma wf_quiet s s' l : drv s' = drv s → nodes_p s' = nodes_p s → wf s l → wf s' l.
Proof.
  intros D N [A B].
  assert (E : nd s' = nd s) by (unfold nd; by rewrite N).
  constructor.
  - destruct A as [Hs Hc ND Hn Hso Hnm].
    constructor; unfold pool_size, nx, key, nname in *; rewrite ?D, ?E, ?N; done.
  - unfold busy in *. by rewrite N.
Qed.

Lemma alarms_wf_insert s s' l i :
  wf s l → i ∉ l → alarms s' (insert_sorted (key s') i l) →
  busy s' = set_bit (busy s) (Z.of_nat i) → wf s' (insert_sorted (key s') i l).
Proof.
  intros [_ B] Hi A Hb. constructor; [done|]. intros j Hj.
  rewrite Hb, testbit_set_bit, B by lia. rewrite <-bool_decide_or.
  apply bool_decide_ext. rewrite insert_sorted_elem. split.
  - intros [?|?%Nat2Z.inj]; auto.
  - intros [->|?]; auto.
Qed.

(** Programming the compare register always ends, after at most 769 polls. *)
Lemma aon_rtc_set_tick_ok lpo val s :
  ∃ n, aon_rtc_set_tick lpo val s = Done (tt, set_lpo n (set_hw
    (mk_hw (en (hw s)) (cnt_stop (hw s)) (tick_int_en (hw s)) (up_int_en (hw s))
       (tick_int_sts (hw s)) (up_int_sts (hw s)) val (upper_val (hw s))) s)) ∧
    (n ≤ lpo_reads s + 769)%nat.
Proof.
  assert (W : ∀ k s, ∃ n, wait_lpo lpo k val s = Done (tt, set_lpo n s) ∧
                          (n ≤ lpo_reads s + S k)%nat).
  { clear. induction k as [|k IH]; intros s; simpl.
    - exists (S (lpo_reads s)). split; [by destruct (_ =? _)|lia].
    - destruct (_ =? _).
      + exists (S (lpo_reads s)). split; [done|lia].
      + destruct (IH (set_lpo (S (lpo_reads s)) s)) as (n & E & Hn). exists n.
        rewrite E. split; [done|]. simpl in Hn. lia. }
  unfold aon_rtc_set_tick, modify, bind at 1.
  destruct (W 768%nat (set_hw (mk_hw (en (hw s)) (cnt_stop (hw s)) (tick_int_en (hw s))
    (up_int_en (hw s)) (tick_int_sts (hw s)) (up_int_sts (hw s)) val (upper_val (hw s))) s))
    as (n & E & Hn).
  exists n. split; [exact E|exact Hn].
Qed.
#[local] Opaque aon_rtc_set_tick.

Definition now (ctr : nat → Z) (s : rtc) (k : nat) : Z :=
  u64 (u64 (Z.shiftl (s_high_tick s) 32) + u32 (ctr k)).

Lemma assert_in_future_ok ctr s i n :
  nd s i = Some n → now ctr s (reads s) + 1 < expired_tick n → expired_tick n < 2 ^ 64 →
  assert_in_future ctr i s = Done (tt, bump_reads s).
Proof.
  intros Hn Hlt Hb. unfold assert_in_future, bind at 1. simpl.
  rewrite (bind_done _ _ _ _ _ (get_node_ok (bump_reads s) i n Hn)).
  pose proof (u64_range (u64 (Z.shiftl (s_high_tick s) 32) + u32 (ctr (reads s)))).
  unfold now in Hlt. rewrite (u64_small (_ + 1)) by lia.
  by rewrite (proj2 (Z.ltb_lt _ _)) by lia.
Qed.

Lemma reset_timer_tick_ok ctr lpo s l :
  wf s l →
  match head l with
  | Some i => now ctr s (reads s) + 1 < key s i < 2 ^ 64
  | None => True
  end →
  ∃ s', reset_timer_tick ctr lpo s = Done (tt, s') ∧ wf s' l ∧
    tick_val (hw s') = match head l with Some i => u32 (key s i) | None => AON_RTC_ROUND_TICK end ∧
    calls s' = calls s ∧ nodes_p s' = nodes_p s ∧ s_high_tick s' = s_high_tick s ∧
    up_int_sts (hw s') = up_int_sts (hw s) ∧ upper_isr s' = upper_isr s.
Proof.
  intros W H. pose proof (wf_alarms _ _ W) as A.
  unfold reset_timer_tick, gets, bind at 1. rewrite (chain_head _ _ _ (al_chain _ _ A)).
  destruct l as [|i l]; simpl in *.
  - destruct (aon_rtc_set_tick_ok lpo AON_RTC_ROUND_TICK s) as (n & E & _).
    rewrite E. eexists. split; [done|]. split; [by apply (wf_quiet s)|]. done.
  - destruct (alarms_node _ _ i A) as (c & Hn & K & _); [set_solver|].
    rewrite (bind_done _ _ _ _ _ (assert_in_future_ok ctr s i c Hn ltac:(lia) ltac:(lia))).
    rewrite (bind_done _ _ _ _ _ (get_node_ok (bump_reads s) i c Hn)).
    destruct (aon_rtc_set_tick_ok lpo (u32 (expired_tick c)) (bump_reads s)) as (n & E & _).
    rewrite E, K. eexists. split; [done|]. split; [by apply (wf_quiet s)|]. done.
Qed.

(** ** Registration *)
Definition new_node (a : alarm_info_t) (t : Z) : alarm_node_t :=
  mk_node None (take ALARM_NAME_MAX_LEN (i_name a) ++ [0]) (i_period_tick a) (i_period_cnt a)
    (i_callback a) (i_param_p a) t (u64 (t + i_period_tick a)).

(** The state in which [bk_alarm_register] calls [alarm_insert_node]. *)
Definition prepared (ctr : nat → Z) (a : alarm_info_t) (i : nat) (s : rtc) : rtc :=
  store i (new_node a (now ctr s (reads s)))
    (bump_reads (set_busy (set_bit (busy s) (Z.of_nat i)) s)).

Lemma nd_bump s j : nd (bump_reads s) j = nd s j.
Proof. done. Qed.

Lemma prepared_ok ctr a i s n0 :
  nd s i = Some n0 →
  nd (prepared ctr a i s) i = Some (new_node a (now ctr s (reads s))) ∧
  untouched i s (prepared ctr a i s) ∧
  busy (prepared ctr a i s) = set_bit (busy s) (Z.of_nat i).
Proof.
  intros H. set (s1 := bump_reads (set_busy (set_bit (busy s) (Z.of_nat i)) s)).
  assert (H1 : nd s1 i = Some n0).
  { unfold s1. rewrite nd_bump, nd_set_busy. done. }
  split; [by eapply nd_store_eq|]. split.
  - constructor; [| |done].
    + intros j Hj. unfold prepared. fold s1. rewrite (nd_store_ne _ _ _ _ _ H1) by done.
      unfold s1. by rewrite nd_bump, nd_set_busy.
    + unfold prepared. rewrite (fr_size i s1 _ (frame_store _ _ _ _ H1)).
      apply (fr_size i s (set_busy (set_bit (busy s) (Z.of_nat i)) s)), frame_set_busy.
  - unfold prepared. rewrite busy_store. by apply (busy_set_busy _ s i n0).
Qed.

(** Up to the insertion, registration is deterministic. *)
Lemma register_prepared ctr lpo s l a :
  wf s l → (length l < AON_RTC_MAX_ALARM_CNT)%nat →
  AON_RTC_PRECISION_TICK ≤ i_period_tick a → i_period_cnt a ≠ 0 →
  ∃ i n0, (i ∉ l) ∧ (i < AON_RTC_MAX_ALARM_CNT)%nat ∧ nd s i = Some n0 ∧
    bk_alarm_register ctr lpo 0 (Some a) s =
    (let* res := alarm_insert_node i in
     if negb (res =? 0) then aon_rtc_release_node i ;;; ret BK_FAIL
     else
       let* h := gets (λ s, alarm_head_p (drv s)) in
       (if decide (h = Some i) then
          assert_in_future ctr i ;;;
          let* n := get_node i in aon_rtc_set_tick lpo (u32 (expired_tick n))
        else ret tt) ;;;
       enable_tick_int ;;; ret BK_OK) (prepared ctr a i s).
Proof.
  intros W Hl Hp Hc. destruct (aon_rtc_request_node_ok s l W Hl) as (i & n0 & E & Hi & Hi8 & Hn).
  exists i, n0. do 3 (split; [done|]).
  pose proof (al_cnt _ _ (wf_alarms _ _ W)) as Hcnt.
  unfold bk_alarm_register. cbn [Z.leb Z.compare AON_RTC_ID_MAX].
  rewrite (proj2 (Z.ltb_ge _ _)) by done. unfold gets at 1, bind at 1. rewrite Hcnt.
  rewrite (proj2 (Z.leb_gt _ _)) by lia.
  rewrite (bind_done _ _ _ _ _ E). unfold bk_aon_rtc_get_current_tick.
  cbn [Z.leb Z.compare AON_RTC_ID_MAX]. unfold bind at 1. cbv beta iota.
  rewrite (proj2 (Z.eqb_neq _ _)) by done. cbn [negb BK_ASSERT].
  rewrite (bind_done _ _ _ _ _ (ret_done tt _)).
  rewrite (bind_done _ _ _ _ _ (upd_node_ok _ i _ n0 ltac:(rewrite nd_bump, nd_set_busy; exact Hn))).
  reflexivity.
Qed.

(** What a successful registration leaves behind: the new alarm sits in the
    sorted list, armed for one period from now; the compare register holds the
    new expiry exactly when the new alarm is first. *)
Definition registered (ctr : nat → Z) (a : alarm_info_t) (l : list nat) (i : nat) (s s' : rtc) : Prop :=
  wf s' (insert_sorted (key s') i l) ∧
  (payload <$> nd s' i) = Some (new_node a (now ctr s (reads s))) ∧
  frame i s s' ∧ tick_int_en (hw s') = true ∧ calls s' = calls s ∧
  tick_val (hw s') =
    (if decide (head (insert_sorted (key s') i l) = Some i)
     then u32 (now ctr s (reads s) + i_period_tick a) else tick_val (hw s)).

Lemma finish_register ctr lpo s l a i s1 :
  wf s1 l → i ∈ l → key s1 i = now ctr s (reads s) + i_period_tick a →
  s_high_tick s1 = s_high_tick s → reads s1 = S (reads s) →
  now ctr s (S (reads s)) + 1 < key s1 i < 2 ^ 64 →
  ∃ s', (let* h := gets (λ s, alarm_head_p (drv s)) in
       (if decide (h = Some i) then
          assert_in_future ctr i ;;;
          let* n := get_node i in aon_rtc_set_tick lpo (u32 (expired_tick n))
        else ret tt) ;;;
       enable_tick_int ;;; ret BK_OK) s1 = Done (BK_OK, s') ∧
    drv s' = drv s1 ∧ nodes_p s' = nodes_p s1 ∧ calls s' = calls s1 ∧
    tick_int_en (hw s') = true ∧
    tick_val (hw s') = if decide (head l = Some i)
      then u32 (now ctr s (reads s) + i_period_tick a) else tick_val (hw s1).
Proof.
  intros W Hi K Hh Hr Ht. pose proof (wf_alarms _ _ W) as A.
  destruct (alarms_node _ _ i A Hi) as (c & Hn & Kc & _).
  unfold gets, bind at 1. rewrite (chain_head _ _ _ (al_chain _ _ A)).
  case_decide as D.
  - assert (F : assert_in_future ctr i s1 = Done (tt, bump_reads s1)).
    { eapply assert_in_future_ok; [done| |lia]. rewrite Kc. unfold now in *.
      rewrite Hh, Hr. lia. }
    unfold bind at 1. rewrite (bind_done _ _ _ _ _ F).
    rewrite (bind_done _ _ _ _ _ (get_node_ok (bump_reads s1) i c Hn)).
    destruct (aon_rtc_set_tick_ok lpo (u32 (expired_tick c)) (bump_reads s1)) as (n & E & _).
    rewrite E, Kc, K. eexists. done.
  - eexists. done.
Qed.

(** C1: Registering an alarm with a fresh name while an entry is free succeeds: it keeps
    the list sorted by expiry and the bitmap equal to the set of listed nodes, adds exactly
    the new node (armed one period after the time of the call), leaves every other alarm
    as it was, enables the tick interrupt, and programs the compare register precisely
    when the new alarm became the first one. *)
Theorem bk_alarm_register_ok ctr lpo s l a :
  wf s l → (length l < AON_RTC_MAX_ALARM_CNT)%nat →
  AON_RTC_PRECISION_TICK ≤ i_period_tick a → i_period_cnt a ≠ 0 →
  (∀ j, j ∈ l → matches s (take ALARM_NAME_MAX_LEN (i_name a) ++ [0]) j = false) →
  now ctr s (S (reads s)) + 1 < now ctr s (reads s) + i_period_tick a < 2 ^ 64 →
  ∃ i s', (i ∉ l) ∧ bk_alarm_register ctr lpo 0 (Some a) s = Done (BK_OK, s') ∧
    registered ctr a l i s s'.
Proof.
  intros W Hl Hp Hcn Hnm Ht.
  destruct (register_prepared ctr lpo s l a W Hl Hp Hcn) as (i & n0 & Hi & Hi8 & Hn0 & E).
  destruct (prepared_ok ctr a i s n0 Hn0) as (Hn & U & B).
  pose proof (alarms_untouched _ _ _ _ (wf_alarms _ _ W) U Hi) as A.
  assert (T : u64 (now ctr s (reads s) + i_period_tick a) = now ctr s (reads s) + i_period_tick a).
  { apply u64_small. pose proof (u64_range (u64 (Z.shiftl (s_high_tick s) 32) + u32 (ctr (reads s)))).
    unfold now, AON_RTC_PRECISION_TICK in *. lia. }
  destruct (alarm_insert_node_links _ l i _ A Hn eq_refl Hi) as (s1 & E1 & R & A1).
  { intros j Hj. assert (j ≠ i) by (by intros ->).
    rewrite (proj2 (frame_key _ _ _ _ (untouched_frame _ _ _ U) H)).
    unfold nname at 2. rewrite Hn. apply Z.eqb_neq. exact (Hnm j Hj). }
  assert (Kx : ∀ j, key s1 j = key (prepared ctr a i s) j) by (intros; by apply relinked_key).
  rewrite <-(insert_sorted_ext _ _ i l (λ j _, Kx j)) in A1.
  assert (W1 : wf s1 (insert_sorted (key s1) i l)).
  { eapply alarms_wf_insert; [exact W|done|done|]. by rewrite (rl_busy _ _ R). }
  assert (K1 : key s1 i = now ctr s (reads s) + i_period_tick a).
  { rewrite Kx. unfold key. rewrite Hn. exact T. }
  pose proof (rl_rest _ _ R) as X. injection X as X1 X2 X3 X4 X5 X6 X7 X8.
  destruct (finish_register ctr lpo s (insert_sorted (key s1) i l) a i s1)
    as (s' & E2 & Hd & Hnp & Hcalls & Hen & Htv); [done| |done|done|done|by rewrite K1|].
  { apply insert_sorted_elem. by left. }
  exists i, s'. split; [done|]. rewrite E, (bind_done _ _ _ _ _ E1). split; [exact E2|].
  assert (K' : key s' = key s1) by (unfold key, nd; by rewrite Hnp).
  unfold registered. rewrite K'. split; [by apply (wf_quiet s1)|].
  assert (N' : nd s' = nd s1) by (unfold nd; by rewrite Hnp).
  split; [rewrite N', (rl_payload _ _ R), Hn; done|].
  split; [|rewrite Hcalls, Htv, X4, X8; done].
  eapply frame_trans; [by apply untouched_frame|].
  eapply frame_trans; [by apply relinked_frame|].
  constructor; [by rewrite N'|unfold pool_size; by rewrite Hnp|by rewrite Hd].
Qed.

Lemma register_duplicate ctr lpo s l a j :
  wf s l → (length l < AON_RTC_MAX_ALARM_CNT)%nat →
  AON_RTC_PRECISION_TICK ≤ i_period_tick a → i_period_cnt a ≠ 0 →
  j ∈ l → matches s (take ALARM_NAME_MAX_LEN (i_name a) ++ [0]) j = true →
  ∃ i s', (i ∉ l) ∧ bk_alarm_register ctr lpo 0 (Some a) s = Done (BK_FAIL, s') ∧
    wf s' l ∧ frame i s s' ∧ drv s' = drv s.
Proof.
  intros W Hl Hp Hcn Hj Hm.
  destruct (register_prepared ctr lpo s l a W Hl Hp Hcn) as (i & n0 & Hi & Hi8 & Hn0 & E).
  destruct (prepared_ok ctr a i s n0 Hn0) as (Hn & U & B).
  pose proof (alarms_untouched _ _ _ _ (wf_alarms _ _ W) U Hi) as A.
  exists i. assert (j ≠ i) as Hji by (by intros ->).
  rewrite E, (bind_done _ _ _ _ _ (alarm_insert_node_duplicate _ l i _ j A Hn Hj
    ltac:(rewrite (proj2 (frame_key _ _ _ _ (untouched_frame _ _ _ U) Hji)); by apply Z.eqb_eq))).
  cbn [Z.eqb negb]. rewrite (bind_done _ _ _ _ _ (aon_rtc_release_node_ok _ i _ Hn Hi8)).
  eexists. split; [done|]. split; [done|].
  set (s1 := prepared ctr a i s) in *.
  set (s2 := set_busy _ s1). assert (Hn2 : nd s2 i = nd s1 i) by (unfold s2; by rewrite nd_set_busy).
  rewrite Hn in Hn2.
  assert (U2 : untouched i s (store i (zero_info_size (new_node a (now ctr s (reads s)))) s2)).
  { constructor; [| |done].
    - intros x Hx. rewrite (nd_store_ne _ _ _ _ _ Hn2) by done. unfold s2.
      rewrite nd_set_busy. by apply (un_nd _ _ _ U).
    - rewrite (fr_size i s2 _ (frame_store _ _ _ _ Hn2)). unfold s2.
      rewrite (fr_size i s1 _ (frame_set_busy _ _ _)). by apply (un_size _ _ _ U). }
  split; [|split; [by apply untouched_frame|done]]. constructor.
  - by eapply alarms_untouched; [apply (wf_alarms _ _ W)|exact U2|].
  - intros x Hx. rewrite busy_store. unfold s2. rewrite (busy_set_busy _ s1 i _ Hn), B.
    rewrite testbit_clear_bit, testbit_set_bit, (wf_busy _ _ W) by lia.
    destruct (decide (x = i)) as [->|Hne].
    + rewrite (bool_decide_true (Z.of_nat i = _)) by done.
      rewrite (bool_decide_false (i ∈ l)) by done. done.
    + rewrite (bool_decide_false (Z.of_nat i = _)) by (intros ?%Nat2Z.inj; congruence).
      by rewrite orb_false_r, andb_true_r.
Qed.

(** Every rejected registration: a bad unit number or a NULL description is
    [BK_ERR_PARAM], a period below the precision or a full pool is [BK_FAIL], each with the
    driver untouched; a name already on the list is [BK_FAIL] with the alarm list intact and
    the tentatively taken pool entry given back. *)
Theorem bk_alarm_register_rejects ctr lpo s l a :
  wf s l →
  (∀ id i, AON_RTC_ID_MAX ≤ id → bk_alarm_register ctr lpo id i s = Done (BK_ERR_PARAM, s)) ∧
  bk_alarm_register ctr lpo 0 None s = Done (BK_ERR_PARAM, s) ∧
  (i_period_tick a < AON_RTC_PRECISION_TICK →
     bk_alarm_register ctr lpo 0 (Some a) s = Done (BK_FAIL, s)) ∧
  (length l = AON_RTC_MAX_ALARM_CNT →
     bk_alarm_register ctr lpo 0 (Some a) s = Done (BK_FAIL, s)) ∧
  (∀ j, (length l < AON_RTC_MAX_ALARM_CNT)%nat →
     AON_RTC_PRECISION_TICK ≤ i_period_tick a → i_period_cnt a ≠ 0 → j ∈ l →
     matches s (take ALARM_NAME_MAX_LEN (i_name a) ++ [0]) j = true →
     ∃ i s', (i ∉ l) ∧ bk_alarm_register ctr lpo 0 (Some a) s = Done (BK_FAIL, s') ∧
       wf s' l ∧ frame i s s' ∧ drv s' = drv s).
Proof.
  intros W. split; [|split; [done|split; [|split]]].
  - intros id i H. unfold bk_alarm_register. by rewrite (proj2 (Z.leb_le _ _)).
  - intros H. unfold bk_alarm_register. cbn [Z.leb Z.compare AON_RTC_ID_MAX].
    by rewrite (proj2 (Z.ltb_lt _ _)).
  - intros H. unfold bk_alarm_register. cbn [Z.leb Z.compare AON_RTC_ID_MAX].
    destruct (_ <? _); [done|]. unfold gets, bind at 1.
    rewrite (al_cnt _ _ (wf_alarms _ _ W)), (proj2 (Z.leb_le _ _)) by lia. done.
  - intros j. by apply register_duplicate.
Qed.

(** ** Removal by name *)
Lemma filter_all {A} (P : A → Prop) `{!∀ x, Decision (P x)} (l : list A) :
  (∀ x, x ∈ l → P x) → filter P l = l.
Proof.
  induction l as [|x l IH]; intros Hx; [done|].
  rewrite filter_cons_True by (apply Hx; set_solver). f_equal. apply IH. set_solver.
Qed.

Lemma wf_match_unique s l nm i j :
  wf s l → i ∈ l → j ∈ l → matches s nm i = true → matches s nm j = true → i = j.
Proof.
  intros W Hi Hj Mi%Z.eqb_eq Mj%Z.eqb_eq. destruct (decide (i = j)) as [|Hne]; [done|].
  destruct (al_names _ _ (wf_alarms _ _ W) i j Hi Hj Hne).
  eapply strncmp_trans; [exact Mi|]. by apply strncmp_sym.
Qed.

Definition survivors (s : rtc) (nm : list Z) (l : list nat) : list nat :=
  filter (λ j, matches s nm j = false) l.

Lemma survivors_split s nm a i b :
  wf s (a ++ i :: b) → matches s nm i = true → survivors s nm (a ++ i :: b) = a ++ b.
Proof.
  intros W M. pose proof (al_nodup _ _ (wf_alarms _ _ W)) as ND.
  rewrite <-Permutation_middle in ND. apply NoDup_cons in ND as [Hni _].
  assert (∀ x, x ∈ a ++ b → matches s nm x = false) as H.
  { intros x Hx. destruct (matches s nm x) eqn:E; [|done].
    destruct Hni. rewrite (wf_match_unique s _ nm i x W); [done|set_solver..|done|done]. }
  unfold survivors. rewrite filter_app, filter_cons_False by (by rewrite M).
  rewrite !filter_all; [done|set_solver..].
Qed.

(** Unregistering removes exactly the alarm of that name, if there is one, keeps the
    list sorted and the bitmap exact, and reprograms the compare register exactly when the
    first alarm was the one removed (or the list was already empty): to the new first
    expiry, or to the end of the round when no alarm is left. *)
Theorem bk_alarm_unregister_ok ctr lpo s l nm :
  wf s l → (∀ i, i ∈ l → now ctr s (reads s) + 1 < key s i < 2 ^ 64) →
  ∃ s', bk_alarm_unregister ctr lpo 0 nm s = Done (BK_OK, s') ∧
    wf s' (survivors s nm l) ∧ calls s' = calls s ∧
    (∀ j, j ∈ survivors s nm l → payload <$> nd s' j = payload <$> nd s j) ∧
    tick_val (hw s') =
      if decide (head (survivors s nm l) = head l) then
        match head l with Some _ => tick_val (hw s) | None => AON_RTC_ROUND_TICK end
      else match head (survivors s nm l) with
           | Some i => u32 (key s i) | None => AON_RTC_ROUND_TICK end.
Proof.
  intros W Hk. pose proof (alarm_remove_node_ok s nm l W) as R.
  unfold bk_alarm_unregister. cbn [Z.leb Z.compare AON_RTC_ID_MAX]. unfold gets, bind at 1.
  rewrite (chain_head _ _ _ (al_chain _ _ (wf_alarms _ _ W))).
  destruct (List.find (matches s nm) l) as [i|] eqn:F.
  - destruct R as (a & b & s1 & -> & E & W1 & Fr & Env).
    apply find_some in F as [_ M]. rewrite (survivors_split _ _ _ _ _ W M).
    rewrite (bind_done _ _ _ _ _ E).
    pose proof (al_nodup _ _ (wf_alarms _ _ W)) as ND.
    rewrite <-Permutation_middle in ND. apply NoDup_cons in ND as [Hni _].
    assert (Fp : ∀ j, j ∈ a ++ b → payload <$> nd s1 j = payload <$> nd s j).
    { intros j Hj. apply (fr_payload _ _ _ Fr). by intros ->. }
    injection Env as X1 X2 X3 X4 X5 X6 X7 X8.
    destruct a as [|x a]; simpl head.
    + rewrite decide_True by done. simpl app in *.
      destruct (reset_timer_tick_ok ctr lpo s1 b W1) as (s2 & E2 & W2 & T2 & C2 & N2 & _).
      { destruct b as [|y b]; [done|]. simpl. unfold now in *. rewrite X3, X6.
        rewrite (proj1 (frame_key _ _ _ y Fr ltac:(intros ->; set_solver))). apply Hk. set_solver. }
      rewrite (bind_done _ _ _ _ _ E2). exists s2. split; [done|]. split; [done|].
      split; [congruence|]. split; [unfold nd in *; by rewrite N2|].
      rewrite T2. destruct b as [|y b]; simpl; [done|].
      rewrite decide_False by (intros [= ->]; set_solver).
      by rewrite (proj1 (frame_key _ _ _ y Fr ltac:(intros ->; set_solver))).
    + rewrite decide_False by (intros [= ->]; set_solver).
      exists s1. split; [done|]. rewrite X4, X8. split; [done|]. by rewrite decide_True.
  - assert (survivors s nm l = l) as Hs.
    { apply filter_all. intros x Hx. eapply find_none; [exact F|]. by apply list_elem_of_In. }
    rewrite Hs, (bind_done _ _ _ _ _ R).
    destruct l as [|x l]; simpl head;
      [|by rewrite decide_False by done; rewrite decide_True by done; exists s].
    rewrite !decide_True by done.
    destruct (reset_timer_tick_ok ctr lpo s [] W I) as (s2 & E2 & W2 & T2 & C2 & N2 & _).
    rewrite (bind_done _ _ _ _ _ E2). exists s2. split; [done|]. split; [done|].
    split; [done|]. split; [set_solver|done].
Qed.

(** ** Expiry

    What one expiry does to a node that stays on the list, and the callback it runs. *)
Definition rearm (n : alarm_node_t) : alarm_node_t :=
  set_expired (u64 (expired_tick n + period_tick n))
    (if period_cnt n =? ALARM_LOOP_FOREVER then n else set_period_cnt (u32 (period_cnt n - 1)) n).
Definition call_of (n : alarm_node_t) : list call :=
  if callback n =? 0 then [] else [(callback n, name n, cb_param_p n)].
Definition node (s : rtc) (i : nat) : alarm_node_t := default zero_node (nd s i).
Definition one_shot (s : rtc) (i : nat) : bool := period_cnt (node s i) =? 1.

(** The state after the callback of node [c] has run. *)
Definition called (c : alarm_node_t) (s : rtc) : rtc :=
  if callback c =? 0 then bump_reads s
  else add_call (callback c, name c, cb_param_p c) (bump_reads s).

Lemma nodes_called c s : nodes_p (called c s) = nodes_p s ∧ drv (called c s) = drv s ∧
  calls (called c s) = calls s ++ call_of c ∧ reads (called c s) = S (reads s) ∧
  s_high_tick (called c s) = s_high_tick s ∧ hw (called c s) = hw s ∧
  upper_isr (called c s) = upper_isr s.
Proof. unfold called, call_of. destruct (_ =? 0); simpl; rewrite ?app_nil_r; done. Qed.

Definition due (ctr : nat → Z) (s : rtc) (i : nat) : Prop :=
  key s i ≤ u64 (now ctr s (reads s) + AON_RTC_PRECISION_TICK).

#[local] Instance due_dec ctr s i : Decision (due ctr s i).
Proof. unfold due. apply _. Defined.

(** What an expiry step keeps: all that is neither the node nor the clock. *)
Record kept (s s' : rtc) (cs : list call) : Prop := {
  kp_calls : calls s' = calls s ++ cs;
  kp_high : s_high_tick s' = s_high_tick s;
  kp_hw : hw s' = hw s;
  kp_isr : upper_isr s' = upper_isr s }.

Lemma update_loop_entry ctr fuel cnt s cl cur c :
  alarms s cl → cur ∈ cl → nd s cur = Some c → (cnt < AON_RTC_MAX_ALARM_CNT)%nat →
  update_loop ctr (S fuel) cnt (Some cur) s =
    if expired_tick c <=? u64 (now ctr s (reads s) + AON_RTC_PRECISION_TICK) then
      (if period_cnt c =? 1 then
         upd_node cur (set_period_cnt 0) ;;;
         modify (set_head (next c)) ;;; dec_cnt ;;;
         aon_rtc_release_node cur ;;;
         update_loop ctr fuel (S cnt) (next c)
       else
         (if period_cnt c =? ALARM_LOOP_FOREVER then ret tt
          else upd_node cur (set_period_cnt (u32 (period_cnt c - 1)))) ;;;
         match next c with
         | Some _ =>
             modify (set_head (next c)) ;;;
             upd_node cur (set_expired (u64 (expired_tick c + period_tick c))) ;;;
             upd_node cur (set_next None) ;;;
             dec_cnt ;;;
             let* r := alarm_insert_node cur in
             if negb (r =? 0) then ret tt
             else update_loop ctr fuel (S cnt) (next c)
         | None =>
             upd_node cur (set_expired (u64 (expired_tick c + period_tick c))) ;;;
             update_loop ctr fuel (S cnt) (next c)
         end) (called c s)
    else Done (tt, bump_reads s).
Proof.
  intros A Hi Hn Hc. cbn [update_loop]. rewrite bool_decide_true by lia.
  cbn [BK_ASSERT]. rewrite (bind_done _ _ _ _ _ (ret_done tt s)).
  rewrite (bind_done _ _ _ _ _ (get_node_ok _ _ _ Hn)).
  unfold bk_aon_rtc_get_current_tick. cbn [Z.leb Z.compare AON_RTC_ID_MAX].
  unfold bind at 1. cbv beta iota. fold (now ctr s (reads s)).
  destruct (_ <=? _); [|done]. unfold called. destruct (callback c =? 0); done.
Qed.

(** An alarm on its last period leaves the list and its entry is given back. *)
Lemma fire_one_shot ctr fuel cnt s cur cl :
  wf s (cur :: cl) → (cnt < AON_RTC_MAX_ALARM_CNT)%nat → due ctr s cur → one_shot s cur = true →
  ∃ s1, update_loop ctr (S fuel) cnt (Some cur) s = update_loop ctr fuel (S cnt) (head cl) s1 ∧
    wf s1 cl ∧ frame cur s s1 ∧ kept s s1 (call_of (node s cur)) ∧ reads s1 = S (reads s).
Proof.
  intros W Hc Hd H1. pose proof (wf_alarms _ _ W) as A.
  destruct (alarms_node _ _ cur A) as (c & Hn & K & _); [set_solver|].
  unfold one_shot, node in *. rewrite Hn in *. change (default zero_node (Some c)) with c in *. unfold due in Hd. rewrite <-K in Hd.
  rewrite (update_loop_entry _ _ _ _ _ cur _ A ltac:(set_solver) Hn Hc), (proj2 (Z.leb_le _ _) Hd), H1.
  pose proof (chain_next _ _ [] _ _ (al_chain _ _ A)) as Nx. unfold nx in Nx. rewrite Hn in Nx.
  injection Nx as Nx.
  destruct (nodes_called c s) as (N & D & C & R & S & HW & UI).
  assert (W2 : wf (called c s) (cur :: cl)) by (by apply (wf_quiet s)).
  assert (Hn2 : nd (called c s) cur = Some c) by (unfold nd in *; by rewrite N).
  rewrite (bind_done _ _ _ _ _ (upd_node_ok _ _ _ _ Hn2)).
  set (s2 := store cur (set_period_cnt 0 c) (called c s)).
  destruct (release_unlinked (called c s)
    (set_cnt (u32 (alarm_node_cnt (drv (called c s)) - 1)) (set_head (next c) s2))
    cur [] cl (set_period_cnt 0 c)) as (s3 & E & W3 & F & Env); [done| |apply busy_store|done| |done| |].
  - eapply frame_trans; [by eapply (frame_store cur (called c s))|by constructor].
  - by eapply (nd_store_eq (called c s)).
  - change (chain (nx s2) (next c) ([] ++ cl)). rewrite Nx. unfold s2.
    eapply chain_ext; [|apply (chain_suffix (nx (called c s)) (alarm_head_p (drv s)) [cur] cl)].
    + intros j Hj. rewrite (nx_store _ _ _ _ _ Hn2), decide_False; [done|].
      intros ->. pose proof (al_nodup _ _ A) as ND. by inversion ND.
    + rewrite <-D. apply (al_chain _ _ (wf_alarms _ _ W2)).
  - exists s3. split.
    { unfold modify, dec_cnt. unfold bind at 1. unfold modify, bind at 1.
      rewrite (bind_done _ _ _ _ _ E). by rewrite Nx. }
    unfold env in Env. injection Env as X1 X2 X3 X4 X5 X6 X7 X8.
    split; [done|]. split.
    { eapply frame_trans; [|done]. constructor; unfold nd, pool_size; by rewrite ?N, ?D. }
    split; [constructor; congruence|congruence].
Qed.

(** The node with its count updated, as the source writes it before moving it. *)
Definition counted (c : alarm_node_t) : alarm_node_t :=
  if period_cnt c =? ALARM_LOOP_FOREVER then c else set_period_cnt (u32 (period_cnt c - 1)) c.

Lemma counted_fields c : next (counted c) = next c ∧ name (counted c) = name c ∧
  rearm c = set_expired (u64 (expired_tick c + period_tick c)) (counted c).
Proof. unfold rearm, counted. by destruct (_ =? _). Qed.

Lemma count_step s cur c (B : Type) (k : unit → M rtc B) :
  nd s cur = Some c →
  bind (if period_cnt c =? ALARM_LOOP_FOREVER then ret tt
        else upd_node cur (set_period_cnt (u32 (period_cnt c - 1)))) k s =
  k tt (store cur (counted c) s).
Proof.
  intros Hn. unfold counted. destruct (_ =? _).
  - by rewrite (store_same _ _ _ Hn).
  - by rewrite (bind_done _ _ _ _ _ (upd_node_ok _ _ _ _ Hn)).
Qed.

(** The list right before the expired head [cur] is inserted again. *)
Definition moved (cur : nat) (c : alarm_node_t) (s : rtc) : rtc :=
  let e := u64 (expired_tick c + period_tick c) in
  let s1 := store cur (set_expired e (counted c)) (set_head (next c) (store cur (counted c) s)) in
  set_cnt (u32 (alarm_node_cnt (drv s1) - 1)) (store cur (set_next None (set_expired e (counted c))) s1).

Lemma moved_ok s cur c cl :
  alarms s (cur :: cl) → nd s cur = Some c →
  nd (moved cur c s) cur = Some (payload (rearm c)) ∧ frame cur s (moved cur c s) ∧
  alarms (moved cur c s) cl ∧ busy (moved cur c s) = busy s ∧ env (moved cur c s) = env s.
Proof.
  intros A Hn. destruct (counted_fields c) as (Nc & Mc & ->).
  set (e := u64 (expired_tick c + period_tick c)).
  set (sA := store cur (counted c) s).
  assert (HA : nd (set_head (next c) sA) cur = Some (counted c)) by (by eapply (nd_store_eq s)).
  set (sB := store cur (set_expired e (counted c)) (set_head (next c) sA)).
  assert (HB : nd sB cur = Some (set_expired e (counted c)))
    by (by eapply (nd_store_eq (set_head (next c) sA))).
  assert (HC : nd (moved cur c s) cur = Some (payload (set_expired e (counted c))))
    by (by eapply (nd_store_eq sB)).
  split; [done|].
  assert (F : frame cur s (moved cur c s)).
  { apply (frame_trans _ _ sA); [by eapply frame_store|].
    apply (frame_trans _ _ (set_head (next c) sA)); [by constructor|].
    apply (frame_trans _ _ sB); [by eapply frame_store|].
    eapply frame_trans; [by eapply (frame_store cur sB)|by constructor]. }
  split; [done|]. split.
  - apply (alarms_sub s _ cur [] cl); [done..| |done].
    change (chain (nx (store cur (set_next None (set_expired e (counted c))) sB)) (next c) cl).
    pose proof (chain_next _ _ [] _ _ (al_chain _ _ A)) as Nx. unfold nx in Nx. rewrite Hn in Nx.
    injection Nx as ->.
    eapply chain_ext; [|apply (chain_suffix (nx s) (alarm_head_p (drv s)) [cur] cl), (al_chain _ _ A)].
    intros j Hj. assert (cur ≠ j) as Hne.
    { intros ->. pose proof (al_nodup _ _ A) as ND. by inversion ND. }
    rewrite (nx_store _ _ _ _ _ HB), decide_False by done. unfold sB.
    rewrite (nx_store _ _ _ _ _ HA), decide_False by done.
    change (nx sA j = nx s j). unfold sA. by rewrite (nx_store _ _ _ _ _ Hn), decide_False.
  - split; [|done]. unfold moved. change (busy (store cur (set_next None (set_expired e (counted c))) sB) = busy s).
    rewrite busy_store. unfold sB. rewrite busy_store. change (busy sA = busy s). apply busy_store.
Qed.

Lemma moved_steps {A} s cur c (k : M rtc A) :
  nd s cur = Some c →
  (modify (set_head (next c)) ;;;
   upd_node cur (set_expired (u64 (expired_tick c + period_tick c))) ;;;
   upd_node cur (set_next None) ;;; dec_cnt ;;; k) (store cur (counted c) s) =
  k (moved cur c s).
Proof.
  intros Hn. unfold modify at 1, bind at 1.
  assert (HA : nd (set_head (next c) (store cur (counted c) s)) cur = Some (counted c))
    by (by eapply (nd_store_eq s)).
  rewrite (bind_done _ _ _ _ _ (upd_node_ok _ _ _ _ HA)).
  rewrite (bind_done _ _ _ _ _ (upd_node_ok _ _ _ _ (nd_store_eq _ _ _ _ HA))). done.
Qed.

(** The postcondition of one expiry of a periodic alarm. *)
Definition refired (s s1 : rtc) (cur : nat) (cl : list nat) : Prop :=
  wf s1 (insert_sorted (key s1) cur cl) ∧ frame cur s s1 ∧
  (payload <$> nd s1 cur) = Some (payload (rearm (node s cur))) ∧
  kept s s1 (call_of (node s cur)) ∧ reads s1 = S (reads s).

Lemma fire_only ctr fuel cnt s cur :
  wf s [cur] → (cnt < AON_RTC_MAX_ALARM_CNT)%nat → due ctr s cur → one_shot s cur = false →
  ∃ s1, update_loop ctr (S fuel) cnt (Some cur) s = update_loop ctr fuel (S cnt) None s1 ∧
    refired s s1 cur [].
Proof.
  intros W Hc Hd H1. pose proof (wf_alarms _ _ W) as A.
  destruct (alarms_node _ _ cur A) as (c & Hn & K & _); [set_solver|].
  unfold refired, one_shot, node in *. rewrite Hn in *. change (default zero_node (Some c)) with c in *.
  unfold due in Hd. rewrite <-K in Hd.
  rewrite (update_loop_entry _ _ _ _ _ cur _ A ltac:(set_solver) Hn Hc), (proj2 (Z.leb_le _ _) Hd), H1.
  pose proof (chain_next _ _ [] _ _ (al_chain _ _ A)) as Nx. unfold nx in Nx. rewrite Hn in Nx.
  injection Nx as ->. cbn [head].
  destruct (nodes_called c s) as (N & D & C & R & S & HW & UI).
  assert (Hn2 : nd (called c s) cur = Some c) by (unfold nd in *; by rewrite N).
  rewrite count_step by done. destruct (counted_fields c) as (Nc & Mc & ->).
  assert (HA : nd (store cur (counted c) (called c s)) cur = Some (counted c)) by (by eapply nd_store_eq).
  rewrite (bind_done _ _ _ _ _ (upd_node_ok _ _ _ _ HA)).
  set (n' := set_expired _ (counted c)). set (s1 := store cur n' _).
  assert (H1c : nd s1 cur = Some n') by (by eapply nd_store_eq).
  assert (F : frame cur s s1).
  { eapply frame_trans; [|eapply frame_trans; [by eapply (frame_store cur (called c s))|by eapply frame_store]].
    constructor; unfold nd, pool_size; by rewrite ?N, ?D. }
  exists s1. split; [done|]. split; [|split; [done|split; [by rewrite H1c|split; [by constructor|done]]]].
  destruct A as [Hs Hch ND Hcn Hso Hnm]. constructor.
  - constructor; [by rewrite (fr_size _ _ _ F)| |apply NoDup_singleton| |repeat constructor|set_solver].
    + change (drv s1) with (drv (called c s)). rewrite D, (chain_head _ _ _ Hch). simpl.
      split; [done|]. exists None. unfold nx. rewrite H1c. split; [|done].
      simpl. rewrite Nc. destruct Hch as [_ (q & Hq & ->)]. unfold nx in Hq. rewrite Hn in Hq.
      by injection Hq as ->.
    + change (drv s1) with (drv (called c s)). by rewrite D, Hcn.
  - intros j Hj. unfold s1. rewrite !busy_store. unfold busy. rewrite N. by apply (wf_busy _ _ W).
Qed.

Lemma fire_periodic ctr fuel cnt s cur cl :
  wf s (cur :: cl) → (cnt < AON_RTC_MAX_ALARM_CNT)%nat → due ctr s cur → one_shot s cur = false →
  ∃ s1, update_loop ctr (S fuel) cnt (Some cur) s = update_loop ctr fuel (S cnt) (head cl) s1 ∧
    refired s s1 cur cl.
Proof.
  intros W Hc Hd H1. destruct cl as [|b cl]; [by apply fire_only|]. pose proof (wf_alarms _ _ W) as A.
  destruct (alarms_node _ _ cur A) as (c & Hn & K & _); [set_solver|].
  unfold refired, one_shot, node in *. rewrite Hn in *. change (default zero_node (Some c)) with c in *.
  unfold due in Hd. rewrite <-K in Hd.
  rewrite (update_loop_entry _ _ _ _ _ cur _ A ltac:(set_solver) Hn Hc), (proj2 (Z.leb_le _ _) Hd), H1.
  pose proof (chain_next _ _ [] _ _ (al_chain _ _ A)) as Nx. unfold nx in Nx. rewrite Hn in Nx.
  injection Nx as Nx. rewrite Nx. cbn [head].
  destruct (nodes_called c s) as (N & D & C & R & S & HW & UI).
  assert (Hn2 : nd (called c s) cur = Some c) by (unfold nd in *; by rewrite N).
  rewrite count_step by done. rewrite <-Nx, moved_steps by done.
  assert (W2 : wf (called c s) (cur :: b :: cl)) by (by apply (wf_quiet s)).
  destruct (moved_ok _ _ _ _ (wf_alarms _ _ W2) Hn2) as (Hm & F & A3 & B3 & Env).
  destruct (counted_fields c) as (Nc & Mc & Ec).
  assert (cur ∉ b :: cl) as Hni by (pose proof (al_nodup _ _ A) as ND; by inversion ND).
  destruct (alarm_insert_node_links _ _ cur _ A3 Hm eq_refl Hni) as (s4 & E4 & R4 & A4).
  { intros j Hj. assert (j ≠ cur) by (by intros ->).
    rewrite (proj2 (frame_key _ _ _ _ F H)). unfold nname at 2. rewrite Hm.
    change (default [] (name <$> Some (payload (rearm c)))) with (name (rearm c)).
    rewrite Ec. cbn [name set_expired]. rewrite Mc.
    replace (name c) with (nname (called c s) cur) by (unfold nname; by rewrite Hn2).
    apply (al_names _ _ (wf_alarms _ _ W2)); set_solver. }
  assert (K4 : ∀ j, key s4 j = key (moved cur c (called c s)) j) by (intros; by apply relinked_key).
  rewrite <-(insert_sorted_ext _ _ cur (b :: cl) (λ j _, K4 j)) in A4.
  rewrite (bind_done _ _ _ _ _ E4). cbn [Z.eqb negb]. exists s4. split; [by rewrite Nx|].
  split.
  { constructor; [done|]. intros j Hj. rewrite (rl_busy _ _ R4), B3, (wf_busy _ _ W2) by done.
    apply bool_decide_ext. rewrite insert_sorted_elem. set_solver. }
  split.
  { eapply frame_trans; [|eapply frame_trans; [exact F|by apply relinked_frame]].
    constructor; unfold nd, pool_size; by rewrite ?N, ?D. }
  split; [by rewrite (rl_payload _ _ R4), Hm|].
  pose proof (rl_rest _ _ R4) as X. injection X as X1 X2 X3 X4 X5 X6 X7 X8.
  split; [constructor|].
  - exact (eq_trans X8 C).
  - exact (eq_trans X3 S).
  - exact (eq_trans X4 HW).
  - exact (eq_trans X2 UI).
  - exact (eq_trans X6 R).
Qed.

(** What processing the expired alarms of [cl] achieves: [p] is the prefix of alarms that
    fired, [l'] the list afterwards.  [T0] and [T] bound the clock during the operation. *)
Record expired_post (T0 T : Z) (s : rtc) (cl : list nat) (s' : rtc) (p l' : list nat) : Prop := {
  ep_wf : wf s' l';
  ep_prefix : p `prefix_of` cl;
  ep_due : ∀ j, j ∈ p → key s j ≤ T + AON_RTC_PRECISION_TICK;
  ep_elem : ∀ j, j ∈ l' ↔ j ∈ cl ∧ ¬ (j ∈ p ∧ one_shot s j = true);
  ep_nodes : ∀ j, j ∈ l' →
    payload (node s' j) = payload (if decide (j ∈ p) then rearm (node s j) else node s j);
  ep_kept : kept s s' (concat (map (λ j, call_of (node s j)) p));
  ep_head : ∀ j, head l' = Some j → T0 + AON_RTC_PRECISION_TICK < key s' j;
  ep_reads : (reads s ≤ reads s' ≤ reads s + S (length p))%nat }.

(** One iteration, whichever way the head fires. *)
Record fired (s s1 : rtc) (cur : nat) (cl cl1 : list nat) : Prop := {
  fd_wf : wf s1 cl1;
  fd_frame : frame cur s s1;
  fd_kept : kept s s1 (call_of (node s cur));
  fd_reads : reads s1 = S (reads s);
  fd_list : if one_shot s cur then cl1 = cl else cl1 = insert_sorted (key s1) cur cl;
  fd_node : one_shot s cur = false → payload (node s1 cur) = payload (rearm (node s cur)) }.

Lemma fire ctr fuel cnt s cur cl :
  wf s (cur :: cl) → (cnt < AON_RTC_MAX_ALARM_CNT)%nat → due ctr s cur →
  ∃ s1 cl1, update_loop ctr (S fuel) cnt (Some cur) s = update_loop ctr fuel (S cnt) (head cl) s1 ∧
    fired s s1 cur cl cl1.
Proof.
  intros W Hc Hd. destruct (one_shot s cur) eqn:O.
  - destruct (fire_one_shot ctr fuel cnt s cur cl W Hc Hd O) as (s1 & E & W1 & F & K & R).
    exists s1, cl. split; [done|]. constructor; rewrite ?O; done.
  - destruct (fire_periodic ctr fuel cnt s cur cl W Hc Hd O) as (s1 & E & W1 & F & P & K & R).
    exists s1, (insert_sorted (key s1) cur cl). split; [done|]. constructor; rewrite ?O; try done.
    intros _. unfold node at 1. destruct (nd s1 cur) as [n|]; [|done].
    by apply (inj Some) in P.
Qed.

Lemma frame_node i s s' j : frame i s s' → j ≠ i → payload (node s' j) = payload (node s j).
Proof.
  intros F Hj. pose proof (fr_payload _ _ _ F j Hj) as H. unfold node.
  destruct (nd s' j), (nd s j); try done. by apply (inj Some) in H.
Qed.

Lemma payload_rearm n n' : payload n' = payload n →
  payload (rearm n') = payload (rearm n) ∧ call_of n' = call_of n ∧
  period_cnt n' = period_cnt n ∧ period_tick n' = period_tick n ∧ expired_tick n' = expired_tick n.
Proof.
  intros H. destruct n, n'. unfold payload, set_next in H. simpl in H. injection H as -> -> -> -> -> -> ->.
  repeat split; try done. unfold rearm. simpl. by destruct (_ =? _).
Qed.

Lemma key_node s i : (∃ n, nd s i = Some n) → key s i = expired_tick (node s i).
Proof. intros [n H]. unfold key, node. by rewrite H. Qed.

Lemma prefix_insert k i l p : p `prefix_of` insert_sorted k i l → i ∉ p → p `prefix_of` l.
Proof.
  revert p. induction l as [|j l IH]; intros p; simpl.
  - destruct p as [|x p]; [done|]. intros H%prefix_cons_inv_1. set_solver.
  - destruct p as [|x p]; [intros; apply prefix_nil|]. destruct (_ <=? _); intros H Hi.
    + pose proof (prefix_cons_inv_1 _ _ _ _ H) as ->. apply prefix_cons, IH; [|set_solver].
      by apply prefix_cons_inv_2 in H.
    + apply prefix_cons_inv_1 in H. set_solver.
Qed.

Lemma expired_post_cons T0 T s cur cl s1 cl1 s' p l' :
  NoDup (cur :: cl) → fired s s1 cur cl cl1 → expired_post T0 T s1 cl1 s' p l' →
  cur ∉ p → key s cur ≤ T + AON_RTC_PRECISION_TICK →
  expired_post T0 T s (cur :: cl) s' (cur :: p) l'.
Proof.
  intros ND [W1 F K1 R1 L1 N1] [W' Hp Hd He Hn Hk Hh Hr] Hcp Hkc.
  apply NoDup_cons in ND as [Hni _].
  assert (Hpne : ∀ j, j ∈ p → j ≠ cur) by (by intros j Hj ->).
  assert (O : ∀ j, j ≠ cur → one_shot s1 j = one_shot s j).
  { intros j Hj. unfold one_shot.
    destruct (payload_rearm _ _ (frame_node _ _ _ j F Hj)) as (_ & _ & -> & _). done. }
  constructor; [done|..].
  - apply prefix_cons. destruct (one_shot s cur); subst cl1; [done|]. by eapply prefix_insert.
  - intros j [->|Hj]%elem_of_cons; [done|]. rewrite <-(proj1 (frame_key _ _ _ j F (Hpne _ Hj))). auto.
  - intros j. rewrite He, !elem_of_cons. destruct (decide (j = cur)) as [->|Hj].
    + destruct (one_shot s cur) eqn:Oc; subst cl1; [naive_solver|].
      rewrite insert_sorted_elem. naive_solver.
    + rewrite (O j Hj). destruct (one_shot s cur); subst cl1;
        rewrite ?insert_sorted_elem; naive_solver.
  - intros j Hj. rewrite (Hn j Hj). apply He in Hj as [Hj _].
    destruct (decide (j = cur)) as [->|Hne].
    + rewrite (decide_False (P := cur ∈ p)), (decide_True (P := cur ∈ cur :: p)) by set_solver.
      destruct (one_shot s cur); subst cl1; [done|]. by apply N1.
    + pose proof (frame_node _ _ _ j F Hne) as Pj.
      destruct (decide (j ∈ p)) as [Hjp|Hjp].
      * rewrite decide_True by set_solver. by apply payload_rearm.
      * rewrite decide_False by set_solver. done.
  - simpl. destruct K1 as [C1 H1 W1' I1], Hk as [C2 H2 W2' I2]. constructor; try congruence.
    rewrite C2, C1, <-app_assoc. f_equal. f_equal. f_equal.
    apply map_ext_in. intros j Hj%list_elem_of_In.
    by destruct (payload_rearm _ _ (frame_node _ _ _ j F (Hpne j Hj))) as (_ & -> & _).
  - done.
  - simpl. lia.
Qed.

(** Every alarm that may fire is re-armed beyond the end of the operation. *)
Definition timely (T : Z) (s : rtc) (cl : list nat) : Prop :=
  ∀ j, j ∈ cl → key s j ≤ T + AON_RTC_PRECISION_TICK →
    T + AON_RTC_PRECISION_TICK < key s j + period_tick (node s j) < 2 ^ 64.

Definition late (T : Z) (s : rtc) (cl : list nat) : nat :=
  length (filter (λ j, key s j ≤ T + AON_RTC_PRECISION_TICK) cl).

Lemma late_ext T s s' cl : (∀ j, j ∈ cl → key s' j = key s j) → late T s' cl = late T s cl.
Proof.
  unfold late. induction cl as [|j cl IH]; intros H; [done|].
  rewrite !filter_cons, (H j) by set_solver. case_decide; simpl; rewrite IH by set_solver; done.
Qed.

Lemma fired_key s s1 cur cl cl1 T :
  0 ≤ T → wf s (cur :: cl) → fired s s1 cur cl cl1 → one_shot s cur = false →
  key s cur ≤ T + AON_RTC_PRECISION_TICK → timely T s (cur :: cl) →
  T + AON_RTC_PRECISION_TICK < key s1 cur < 2 ^ 64.
Proof.
  intros HT W [W1 F _ _ L N] O Hk Ht. rewrite O in L.
  specialize (Ht cur ltac:(set_solver) Hk).
  rewrite key_node.
  - destruct (payload_rearm _ _ (N O)) as (_ & _ & _ & _ & ->).
    replace (expired_tick (rearm (node s cur)))
      with (u64 (expired_tick (node s cur) + period_tick (node s cur)))
      by (unfold rearm; by destruct (_ =? _)).
    rewrite <-key_node; [|destruct (alarms_node _ _ cur (wf_alarms _ _ W)) as (n & ? & _); [set_solver|eauto]].
    rewrite u64_small; [done|]. unfold AON_RTC_PRECISION_TICK in *. lia.
  - destruct (alarms_node _ _ cur (wf_alarms _ _ W1)) as (n & ? & _); [|eauto].
    subst cl1. apply insert_sorted_elem. by left.
Qed.

Lemma fired_late s s1 cur cl cl1 T :
  0 ≤ T → wf s (cur :: cl) → fired s s1 cur cl cl1 →
  key s cur ≤ T + AON_RTC_PRECISION_TICK → timely T s (cur :: cl) →
  S (late T s1 cl1) = late T s (cur :: cl) ∧ timely T s1 cl1.
Proof.
  intros HT W F Hk Ht.
  assert (cur ∉ cl) as Hni by (pose proof (al_nodup _ _ (wf_alarms _ _ W)) as ND; by inversion ND).
  pose proof (fired_key s s1 cur cl cl1 T HT W F) as FK. destruct F as [W1 Fr _ _ L N].
  assert (Kj : ∀ j, j ∈ cl → key s1 j = key s j).
  { intros j Hj. apply (frame_key _ _ _ _ Fr). by intros ->. }
  unfold late at 2. rewrite filter_cons_True by done. simpl. fold (late T s cl).
  assert (Tcl : timely T s1 cl).
  { intros j Hj Hkj. rewrite (Kj j Hj) in Hkj |- *.
    destruct (payload_rearm _ _ (frame_node _ _ _ j Fr ltac:(by intros ->))) as (_ & _ & _ & -> & _).
    apply Ht; [set_solver|done]. }
  destruct (one_shot s cur); subst cl1.
  - split; [f_equal; by apply late_ext|done].
  - specialize (FK eq_refl Hk Ht). split.
    + f_equal. transitivity (late T s1 cl); [|by apply late_ext].
      unfold late. rewrite insert_sorted_perm, filter_cons_False by lia. done.
    + intros j [->|Hj]%insert_sorted_elem; [lia|]. by apply Tcl.
Qed.

(** Where the loop stands: at the head of the list, or past the last due alarm. *)
Definition at_head (T : Z) (s : rtc) (cl : list nat) (cur_p : option nat) : Prop :=
  cur_p = head cl ∨
  (∀ j, j ∈ cl → T + AON_RTC_PRECISION_TICK < key s j) ∧ (∀ b, cur_p = Some b → b ∈ cl).

Lemma fired_at_head s s1 cur cl cl1 T :
  0 ≤ T → wf s (cur :: cl) → fired s s1 cur cl cl1 →
  key s cur ≤ T + AON_RTC_PRECISION_TICK → timely T s (cur :: cl) →
  at_head T s1 cl1 (head cl).
Proof.
  intros HT W F Hk Ht.
  pose proof (fired_key s s1 cur cl cl1 T HT W F) as FK. destruct F as [W1 Fr _ _ L N].
  unfold at_head. destruct (one_shot s cur); subst cl1; [by left|].
  specialize (FK eq_refl Hk Ht). destruct cl as [|b cl]; simpl.
  - right. split; [|done]. intros j ->%list_elem_of_singleton. lia.
  - destruct (Z.leb_spec (key s1 b) (key s1 cur)) as [Hb|Hb]; [by left|].
    right. pose proof (al_sorted _ _ (wf_alarms _ _ W1)) as So. simpl in So.
    rewrite (proj2 (Z.leb_gt _ _)) in So by done. inversion So as [|?? S2 S3]; subst.
    rewrite Forall_forall in S3. split; [|set_solver].
    intros j [->|Hj]%elem_of_cons; [lia|]. specialize (S3 j Hj). simpl in S3. lia.
Qed.

Lemma expired_post_stop T0 T s cl :
  wf s cl → (∀ j, head cl = Some j → T0 + AON_RTC_PRECISION_TICK < key s j) →
  ∀ s', s' = s ∨ s' = bump_reads s → expired_post T0 T s cl s' [] cl.
Proof.
  intros W Hh s' Hs.
  assert (drv s' = drv s ∧ nodes_p s' = nodes_p s) as [D N] by (by destruct Hs as [->| ->]).
  assert (E : nd s' = nd s) by (unfold nd; by rewrite N).
  constructor.
  - by apply (wf_quiet s).
  - apply prefix_nil.
  - set_solver.
  - set_solver.
  - intros j Hj. unfold node. rewrite E, decide_False by set_solver. done.
  - destruct Hs as [->| ->]; constructor; simpl; rewrite ?app_nil_r; done.
  - unfold key. rewrite E. exact Hh.
  - destruct Hs as [->| ->]; simpl; lia.
Qed.

Lemma update_loop_ok ctr T0 T fuel cnt s cl cur_p :
  0 ≤ T → T + AON_RTC_PRECISION_TICK < 2 ^ 64 →
  wf s cl → timely T s cl → at_head T s cl cur_p →
  (∀ k, (reads s ≤ k < reads s + fuel)%nat → T0 ≤ now ctr s k ≤ T) →
  (cnt + late T s cl < AON_RTC_MAX_ALARM_CNT)%nat → (late T s cl < fuel)%nat →
  ∃ s' p l', update_loop ctr fuel cnt cur_p s = Done (tt, s') ∧ expired_post T0 T s cl s' p l'.
Proof.
  intros HT HT2. revert cnt s cl cur_p. induction fuel as [|fuel IH];
    intros cnt s cl cur_p W Ht Hat Hclk Hcnt Hf; [lia|].
  pose proof (Hclk (reads s) ltac:(lia)) as Hnow.
  assert (Hu : u64 (now ctr s (reads s) + AON_RTC_PRECISION_TICK) = now ctr s (reads s) + AON_RTC_PRECISION_TICK).
  { apply u64_small. pose proof (u64_range (u64 (Z.shiftl (s_high_tick s) 32) + u32 (ctr (reads s)))).
    unfold now, AON_RTC_PRECISION_TICK in *. lia. }
  destruct cur_p as [cur|].
  2: { exists s, [], cl. split; [done|]. apply expired_post_stop; [done| |by left].
       intros j Hj. destruct Hat as [E|[E _]]; [by rewrite <-E in Hj|].
       specialize (E j). destruct cl; simplify_eq/=. specialize (E ltac:(set_solver)). lia. }
  assert (cur ∈ cl) as Hin.
  { destruct Hat as [E|[_ E]]; [|auto]. destruct cl; simplify_eq/=. set_solver. }
  destruct (alarms_node _ _ cur (wf_alarms _ _ W) Hin) as (c & Hn & Kc & _).
  destruct (decide (due ctr s cur)) as [Hd|Hd].
  - pose proof Hd as Hd'. unfold due in Hd'. rewrite Hu in Hd'.
    destruct Hat as [E|[E _]]; [|specialize (E cur Hin); lia].
    destruct cl as [|x cl]; [done|]. injection E as ->.
    assert (Hk : key s x ≤ T + AON_RTC_PRECISION_TICK) by lia.
    destruct (fire ctr fuel cnt s x cl W ltac:(lia) Hd) as (s1 & cl1 & E & F).
    destruct (fired_late _ _ _ _ _ _ HT W F Hk Ht) as [HL Ht1].
    pose proof (fired_at_head _ _ _ _ _ _ HT W F Hk Ht) as Hat1.
    destruct (IH (S cnt) s1 cl1 (head cl)) as (s' & p & l' & E' & P);
      [apply (fd_wf _ _ _ _ _ F)|done|done| |lia|lia|].
    { intros k Hkk. unfold now. rewrite (kp_high _ _ _ (fd_kept _ _ _ _ _ F)).
      apply Hclk. rewrite (fd_reads _ _ _ _ _ F) in Hkk. lia. }
    exists s', (x :: p), l'. split; [congruence|].
    eapply expired_post_cons; [apply (al_nodup _ _ (wf_alarms _ _ W))|exact F|exact P| |done].
    intros Hx. pose proof (ep_due _ _ _ _ _ _ _ P x Hx) as Hdx.
    destruct (one_shot s x) eqn:O.
    + pose proof (fd_list _ _ _ _ _ F) as L. rewrite O in L. subst cl1.
      pose proof (al_nodup _ _ (wf_alarms _ _ W)) as ND. apply NoDup_cons in ND as [Hni _].
      destruct Hni. destruct (ep_prefix _ _ _ _ _ _ _ P) as [q ->]. set_solver.
    + pose proof (fired_key _ _ _ _ _ _ HT W F O Hk Ht). lia.
  - rewrite (update_loop_entry ctr fuel cnt s cl cur c (wf_alarms _ _ W) Hin Hn ltac:(lia)).
    rewrite (proj2 (Z.leb_gt _ _)) by (unfold due in Hd; lia).
    exists (bump_reads s), [], cl. split; [done|]. apply expired_post_stop; [done| |by right].
    unfold due in Hd. intros j Hj. destruct Hat as [E|[E _]].
    + assert (j = cur) as -> by congruence. lia.
    + specialize (E j). destruct cl; simplify_eq/=. specialize (E ltac:(set_solver)). lia.
Qed.

(** C13: When fewer than eight alarms are due and each due alarm is re-armed past the end of
    the operation, one pass over the list fires exactly a prefix of it, in order and each
    once: the callbacks run are those of the prefix, its one-shot alarms leave the list and
    give their entry back, the others are counted down and moved to their next expiry,
    every other alarm is untouched, the list stays sorted, and what is first afterwards was
    not due when the pass looked at it. *)
Theorem alarm_update_expired_ok ctr T0 T s l :
  0 ≤ T → T + AON_RTC_PRECISION_TICK < 2 ^ 64 →
  wf s l → timely T s l → (late T s l < AON_RTC_MAX_ALARM_CNT)%nat →
  (∀ k, (reads s ≤ k < reads s + FUEL)%nat → T0 ≤ now ctr s k ≤ T) →
  ∃ s' p l', alarm_update_expeired_nodes ctr s = Done (tt, s') ∧ expired_post T0 T s l s' p l'.
Proof.
  intros HT HT2 W Ht HL Hclk. unfold alarm_update_expeired_nodes, gets, bind at 1.
  rewrite (chain_head _ _ _ (al_chain _ _ (wf_alarms _ _ W))).
  apply update_loop_ok; try done; [by left|]. unfold FUEL. lia.
Qed.

(** ** The interrupt *)
Definition upper_calls (s : rtc) : list call :=
  if cb_fun (upper_isr s) =? 0 then [] else [(cb_fun (upper_isr s), AON_RTC_NAME, isr_param (upper_isr s))].

Lemma isr_upper_ok s l :
  wf s l →
  ∃ s', (let* u := gets (λ s, up_int_sts (hw s)) in
    (if (u : bool) then
       modify (λ s, set_high (u64 (s_high_tick s + 1)) s) ;;;
       let* cb := gets upper_isr in
       (if cb_fun cb =? 0 then ret tt
        else modify (add_call (cb_fun cb, AON_RTC_NAME, isr_param cb))) ;;;
       clear_upper_int_status
     else ret tt) ;;; ret BK_OK) s = Done (BK_OK, s') ∧
    wf s' l ∧ nodes_p s' = nodes_p s ∧ tick_val (hw s') = tick_val (hw s) ∧
    up_int_sts (hw s') = false ∧ tick_int_sts (hw s') = tick_int_sts (hw s) ∧
    s_high_tick s' = (if up_int_sts (hw s) then u64 (s_high_tick s + 1) else s_high_tick s) ∧
    calls s' = calls s ++ (if up_int_sts (hw s) then upper_calls s else []).
Proof.
  intros W. unfold gets, bind at 1. destruct (up_int_sts (hw s)) eqn:U.
  - unfold upper_calls, modify, clear_upper_int_status, bind at 1 2 3. simpl.
    destruct (_ =? 0); eexists; (split; [done|]); (split; [by apply (wf_quiet s)|]);
      rewrite ?app_nil_r; done.
  - exists s. rewrite app_nil_r. done.
Qed.

Lemma expired_post_length T0 T s l s' p l' :
  expired_post T0 T s l s' p l' → (length p ≤ late T s l)%nat.
Proof.
  intros P. destruct (ep_prefix _ _ _ _ _ _ _ P) as [q ->]. unfold late.
  rewrite filter_app, length_app, filter_all by apply (ep_due _ _ _ _ _ _ _ P). lia.
Qed.

Lemma expired_post_key T0 T s l s' p l' i :
  expired_post T0 T s l s' p l' → wf s l → (∀ i, i ∈ l → key s i < 2 ^ 64) →
  i ∈ l' → key s' i < 2 ^ 64.
Proof.
  intros P W Hb Hi. pose proof (proj1 (proj1 (ep_elem _ _ _ _ _ _ _ P i) Hi)) as Hl.
  destruct (alarms_node _ _ i (wf_alarms _ _ (ep_wf _ _ _ _ _ _ _ P)) Hi) as (n & Hn & _).
  destruct (alarms_node _ _ i (wf_alarms _ _ W) Hl) as (m & Hm & _).
  rewrite key_node by eauto.
  destruct (payload_rearm _ _ (ep_nodes _ _ _ _ _ _ _ P i Hi)) as (_ & _ & _ & _ & ->).
  case_decide.
  - unfold rearm. destruct (_ =? _); apply u64_range.
  - rewrite <-key_node by eauto. auto.
Qed.

(** C18: The tick interrupt, under the following conditions: it is served within 30 ticks
    of its first look at the clock; fewer than eight alarms are due; the period of every
    alarm that is due is longer than the delay of its service ([timely]); no interrupt
    of the upper value is pending; and the expiries fit 64 bits.  Then it acknowledges the
    interrupt, fires the due prefix of the list, leaves the invariant intact, and trips
    none of its assertions; the compare register ends up programmed with the first expiry
    of the new list, or the end of the round when no alarm is left.  With eight due alarms
    it may stop at an assertion ([alarm_update_eight_due_asserts]). *)
Theorem aon_rtc_isr_tick_ok ctr lpo T0 T s l :
  0 ≤ T → T + AON_RTC_PRECISION_TICK < 2 ^ 64 → T ≤ T0 + 30 →
  wf s l → timely T s l → (late T s l < AON_RTC_MAX_ALARM_CNT)%nat →
  (∀ i, i ∈ l → key s i < 2 ^ 64) →
  (∀ k, (reads s ≤ k < reads s + S FUEL)%nat → T0 ≤ now ctr s k ≤ T) →
  tick_int_sts (hw s) = true → up_int_sts (hw s) = false →
  ∃ s' p l' s1, aon_rtc_isr_handler ctr lpo s = Done (BK_OK, s') ∧
    expired_post T0 T (set_hw (mk_hw (en (hw s)) (cnt_stop (hw s)) (tick_int_en (hw s)) (up_int_en (hw s))
                         false (up_int_sts (hw s)) (tick_val (hw s)) (upper_val (hw s))) s) l s1 p l' ∧
    wf s' l' ∧ nodes_p s' = nodes_p s1 ∧ calls s' = calls s1 ∧ s_high_tick s' = s_high_tick s ∧
    tick_val (hw s') = match head l' with Some i => u32 (key s' i) | None => AON_RTC_ROUND_TICK end.
Proof.
  intros HT HT2 Hw W Ht HL Hb Hclk HS HU. set (s0 := set_hw _ s).
  assert (W0 : wf s0 l) by (by apply (wf_quiet s)).
  destruct (update_loop_ok ctr T0 T FUEL 0 s0 l (head l)) as (s1 & p & l' & E & P);
    [done|done|done|done|by left| |done|unfold FUEL; change (late T s0 l) with (late T s l); lia|].
  { intros k Hk. change (now ctr s0 k) with (now ctr s k). apply Hclk. simpl in Hk. lia. }
  pose proof (ep_kept _ _ _ _ _ _ _ P) as [KC KH KW KI].
  assert (Hr : (reads s ≤ reads s1 < reads s + S FUEL)%nat).
  { pose proof (ep_reads _ _ _ _ _ _ _ P) as R. pose proof (expired_post_length _ _ _ _ _ _ _ P) as L.
    change (reads s0) with (reads s) in R. change (late T s0 l) with (late T s l) in L.
    unfold FUEL. lia. }
  destruct (reset_timer_tick_ok ctr lpo s1 l' (ep_wf _ _ _ _ _ _ _ P)) as (s2 & E2 & W2 & T2 & C2 & N2 & H2 & U2 & I2).
  { destruct (head l') as [i|] eqn:Hh; [|done].
    assert (i ∈ l') as Hi by (by apply head_Some_elem_of).
    pose proof (ep_head _ _ _ _ _ _ _ P i Hh) as H0.
    pose proof (expired_post_key _ _ _ _ _ _ _ i P W0 Hb Hi).
    specialize (Hclk _ Hr). unfold now in *. rewrite KH. unfold AON_RTC_PRECISION_TICK in *.
    change (s_high_tick s0) with (s_high_tick s). lia. }
  destruct (isr_upper_ok s2 l' W2) as (s3 & E3 & W3 & N3 & T3 & _ & _ & H3 & C3).
  exists s3, p, l', s1. split.
  { unfold aon_rtc_isr_handler, gets at 1, bind at 1. rewrite HS. unfold bind at 1.
    assert (Hup : (alarm_update_expeired_nodes ctr) s0 = Done (tt, s1)).
    { unfold alarm_update_expeired_nodes, gets, bind at 1.
      by rewrite (chain_head _ _ _ (al_chain _ _ (wf_alarms _ _ W0))). }
    unfold clear_tick_int_status, modify at 1, bind at 1. fold s0.
    rewrite (bind_done _ _ _ _ _ Hup), E2. exact E3. }
  split; [done|].
  assert (up_int_sts (hw s2) = false) as U2' by (rewrite U2, KW; exact HU).
  rewrite U2' in H3, C3. rewrite app_nil_r in C3.
  split; [done|]. split; [congruence|]. split; [congruence|]. split; [rewrite H3, H2, KH; done|].
  rewrite T3, T2. destruct (head l'); [|done]. unfold key, nd. by rewrite N3, N2.
Qed.

(** ** Initialisation *)

(** Initialising a driver that is not yet initialised, with memory available, yields an
    empty well-formed alarm list with the tick interrupt off and the round interrupt on;
    initialising it again changes nothing. *)
Theorem bk_aon_rtc_driver_init_ok s :
  inited (drv s) = false →
  ∃ s', bk_aon_rtc_driver_init true s = Done (BK_OK, s') ∧ wf s' [] ∧
    inited (drv s') = true ∧ en (hw s') = true ∧ cnt_stop (hw s') = false ∧
    tick_int_en (hw s') = false ∧ up_int_en (hw s') = true ∧
    upper_val (hw s') = AON_RTC_ROUND_TICK ∧ s_high_tick s' = 0 ∧
    bk_aon_rtc_driver_init true s' = Done (BK_OK, s').
Proof.
  intros H. unfold bk_aon_rtc_driver_init, gets, bind at 1. rewrite H.
  eexists. split; [reflexivity|]. split; [|done].
  constructor.
  - constructor; simpl; try done; [apply NoDup_nil_2|constructor|set_solver].
  - intros i Hi. rewrite bool_decide_false by set_solver. apply Z.bits_0.
Qed.

(** The result of the pool allocation is not checked: initialisation reports [BK_OK]
    when memory is exhausted, and the first registration then dereferences NULL. *)
Theorem driver_init_ignores_no_mem ctr lpo s a :
  inited (drv s) = false → AON_RTC_PRECISION_TICK ≤ i_period_tick a →
  ∃ s', bk_aon_rtc_driver_init false s = Done (BK_OK, s') ∧
    bk_alarm_register ctr lpo 0 (Some a) s' = Trap Fault.
Proof.
  intros H Hp. unfold bk_aon_rtc_driver_init, gets, bind at 1. rewrite H.
  eexists. split; [reflexivity|]. unfold bk_alarm_register.
  cbn [Z.leb Z.compare AON_RTC_ID_MAX]. by rewrite (proj2 (Z.ltb_ge _ _)).
Qed.

(** ** Concrete runs *)
Definition run {A} (m : M rtc A) (s : rtc) : rtc :=
  match m s with Done (_, s') => s' | Trap _ => s end.
Definition demo_ctr (k : nat) : Z := 1000 + Z.of_nat k.
Definition demo_lpo (k : nat) : Z := 0.
Definition info (c period cnt : Z) : alarm_info_t := mk_info [c; 0; 0; 0; 0; 0; 0; 0] period cnt 16 c.
Definition s_init : rtc := run (bk_aon_rtc_driver_init true) boot.
Definition s_two : rtc :=
  run (bk_alarm_register demo_ctr demo_lpo 0 (Some (info 66 500 1)))
    (run (bk_alarm_register demo_ctr demo_lpo 0 (Some (info 65 900 ALARM_LOOP_FOREVER))) s_init).

Lemma wf_s_init : wf s_init [].
Proof.
  constructor; [constructor|].
  - done.
  - done.
  - apply NoDup_nil_2.
  - done.
  - constructor.
  - set_solver.
  - intros i Hi. rewrite bool_decide_false by set_solver. apply Z.bits_0.
Qed.

Lemma wf_s_two : wf s_two [1; 0]%nat.
Proof.
  constructor; [constructor|].
  - vm_compute. done.
  - vm_compute. eauto 10.
  - apply (bool_decide_unpack _). vm_compute. done.
  - vm_compute. done.
  - repeat constructor. vm_compute. done.
  - intros i j Hi Hj Hne. rewrite !elem_of_cons in *.
    assert (i = 0 ∨ i = 1)%nat as [->| ->] by set_solver;
      assert (j = 0 ∨ j = 1)%nat as [->| ->] by set_solver; vm_compute; done.
  - intros i Hi. unfold AON_RTC_MAX_ALARM_CNT in Hi.
    do 8 (destruct i as [|i]; [vm_compute; done|]). lia.
Qed.

(** An alarm can be lost: when the head is re-armed before the next node and that next
    node is due as well, the loop goes on from its saved [next] pointer and moves the list
    head past the re-armed node.  Here a periodic alarm (period 40 ticks) and a one-shot
    one, both due when the interrupt is served late, leave an empty list while the count is
    1 and the pool entry of the periodic alarm stays taken. *)
Theorem alarm_update_loses_alarm :
  let late_ctr := λ k, if (k <? 5)%nat then 1000 else 1500 in
  let s := run (bk_alarm_register late_ctr demo_lpo 0 (Some (info 66 200 1)))
             (run (bk_alarm_register late_ctr demo_lpo 0 (Some (info 65 40 ALARM_LOOP_FOREVER))) s_init) in
  let s' := run (alarm_update_expeired_nodes late_ctr) (run (bk_aon_rtc_get_current_tick late_ctr 0)
              (run (bk_aon_rtc_get_current_tick late_ctr 0) s)) in
  alarm_head_p (drv s) = Some 0%nat ∧ alarm_node_cnt (drv s) = 2 ∧
  calls s' = [(16, [65; 0; 0; 0; 0; 0; 0; 0], 65); (16, [66; 0; 0; 0; 0; 0; 0; 0], 66)] ∧
  alarm_head_p (drv s') = None ∧ alarm_node_cnt (drv s') = 1 ∧ busy s' = 1.
Proof. vm_compute. done. Qed.

(** Eight periodic alarms that are due together stop the firmware: after the eighth has
    fired, the loop visits the first re-armed one and its sanity bound on the number of
    visited nodes (eight) fails, although the list is well formed. *)
Theorem alarm_update_eight_due_asserts :
  let ctr := λ k, if (k <? 16)%nat then 1000 else 1990 in
  let register := λ s c, run (bk_alarm_register ctr demo_lpo 0 (Some (info c 1000 5))) s in
  let s := foldl register s_init [65; 66; 67; 68; 69; 70; 71; 72] in
  let tick := run (bk_aon_rtc_get_current_tick ctr 0) in
  let s8 := Nat.iter 16 tick s in
  alarm_node_cnt (drv s) = 8 ∧ busy s = 255 ∧ alarm_update_expeired_nodes ctr s8 = Trap Assert.
Proof. vm_compute. done. Qed.

(** ** Witnesses *)
Lemma bk_alarm_register_ok_witness :
  ∃ i s', (i ∉ [1; 0]%nat) ∧
    bk_alarm_register demo_ctr demo_lpo 0 (Some (info 67 100 3)) s_two = Done (BK_OK, s') ∧
    registered demo_ctr (info 67 100 3) [1; 0]%nat i s_two s'.
Proof.
  apply (bk_alarm_register_ok demo_ctr demo_lpo s_two [1; 0]%nat (info 67 100 3)).
  - exact wf_s_two.
  - vm_compute. lia.
  - vm_compute. done.
  - done.
  - intros j Hj. elem_cases Hj; vm_compute; done.
  - vm_compute. done.
Defined.

Lemma bk_alarm_register_rejects_witness :
  ∃ i s', (i ∉ [1; 0]%nat) ∧
    bk_alarm_register demo_ctr demo_lpo 0 (Some (info 65 100 3)) s_two = Done (BK_FAIL, s') ∧
    wf s' [1; 0]%nat ∧ frame i s_two s' ∧ drv s' = drv s_two.
Proof.
  apply (proj2 (proj2 (proj2 (proj2
    (bk_alarm_register_rejects demo_ctr demo_lpo s_two [1; 0]%nat (info 65 100 3) wf_s_two)))) 0%nat).
  - vm_compute. lia.
  - vm_compute. done.
  - done.
  - apply elem_of_cons. right. apply elem_of_cons. by left.
  - vm_compute. done.
Defined.

Lemma bk_alarm_unregister_ok_witness :
  ∃ s', bk_alarm_unregister demo_ctr demo_lpo 0 [66; 0] s_two = Done (BK_OK, s') ∧
    wf s' [0]%nat ∧ tick_val (hw s') = 1900.
Proof.
  destruct (bk_alarm_unregister_ok demo_ctr demo_lpo s_two [1; 0]%nat [66; 0] wf_s_two)
    as (s' & E & W & _ & _ & T).
  - intros i Hi. elem_cases Hi; vm_compute; done.
  - exists s'. split; [exact E|]. split; [exact W|]. rewrite T. vm_compute. done.
Defined.

Lemma timely_s_two T : T = 1500 → timely T s_two [1; 0]%nat.
Proof.
  intros -> j Hj. elem_cases Hj; vm_compute; intros H; [done|by destruct H].
Qed.

Lemma alarm_update_expired_ok_witness :
  ∃ s' p l', alarm_update_expeired_nodes (λ _, 1500) s_two = Done (tt, s') ∧
    expired_post 1500 1500 s_two [1; 0]%nat s' p l'.
Proof.
  apply (alarm_update_expired_ok (λ _, 1500) 1500 1500 s_two [1; 0]%nat).
  - lia.
  - vm_compute. done.
  - exact wf_s_two.
  - by apply timely_s_two.
  - vm_compute. lia.
  - intros k _. vm_compute. done.
Defined.

Definition s_isr : rtc :=
  set_hw (mk_hw true false true true true false (tick_val (hw s_two)) (upper_val (hw s_two))) s_two.

Lemma aon_rtc_isr_tick_ok_witness :
  ∃ s' l', aon_rtc_isr_handler (λ _, 1500) demo_lpo s_isr = Done (BK_OK, s') ∧ wf s' l' ∧
    tick_val (hw s') = match head l' with Some i => u32 (key s' i) | None => AON_RTC_ROUND_TICK end.
Proof.
  destruct (aon_rtc_isr_tick_ok (λ _, 1500) demo_lpo 1500 1500 s_isr [1; 0]%nat)
    as (s' & p & l' & s1 & E & _ & W & _ & _ & _ & T).
  - lia.
  - vm_compute. done.
  - lia.
  - apply (wf_quiet s_two); [vm_compute; done|vm_compute; done|exact wf_s_two].
  - intros j Hj. elem_cases Hj; vm_compute; intros H; [done|by destruct H].
  - vm_compute. lia.
  - intros i Hi. elem_cases Hi; vm_compute; done.
  - intros k _. vm_compute. done.
  - done.
  - done.
  - exists s', l'. split; [exact E|]. split; [exact W|exact T].
Defined.

Lemma bk_aon_rtc_driver_init_ok_witness :
  ∃ s', bk_aon_rtc_driver_init true boot = Done (BK_OK, s') ∧ wf s' [].
Proof.
  destruct (bk_aon_rtc_driver_init_ok boot eq_refl) as (s' & E & W & _). by exists s'.
Defined.

Lemma driver_init_ignores_no_mem_witness :
  ∃ s', bk_aon_rtc_driver_init false boot = Done (BK_OK, s') ∧
    bk_alarm_register demo_ctr demo_lpo 0 (Some (info 65 100 1)) s' = Trap Fault.
Proof. apply (driver_init_ignores_no_mem demo_ctr demo_lpo boot (info 65 100 1)); done. Defined.

End AonRtc.
