(* ===== verification/Button.v ===== *)
(** * Push buttons (components/key/multi_button.c)

    [button_handler] debounces the pin of one button and runs its press state
    machine, in the fields of [BUTTON_S] at their widths.  [button_ticks] runs
    it for every button of the list [button_start] and [button_stop] maintain
    through [next] pointers.  A handler call returns the callbacks it ran, in
    order; what a callback does is not part of the model.  The level of the pin is
    an argument.  The mutex around the list operations makes each of them one
    step. *)
From S2P Require Import Prelude.
Local Open Scope Z_scope.

Module Button.

Definition DEBOUNCE_TICKS : Z := 6.
Definition SHORT_TICKS : Z := 400 / 5.
Definition LONG_TICKS : Z := 1000 / 5.

Inductive PRESS_EVT : Type :=
| PRESS_DOWN | PRESS_UP | PRESS_REPEAT | SINGLE_CLICK | DOUBLE_CLICK
| LONG_PRESS_START | LONG_PRESS_HOLD | number_of_event | NONE_PRESS.

Definition evt_code (e : PRESS_EVT) : Z :=
  match e with
  | PRESS_DOWN => 0 | PRESS_UP => 1 | PRESS_REPEAT => 2 | SINGLE_CLICK => 3
  | DOUBLE_CLICK => 4 | LONG_PRESS_START => 5 | LONG_PRESS_HOLD => 6
  | number_of_event => 7 | NONE_PRESS => 8
  end.

(** [ticks] is 16 bits wide; [repeat] and [event] 4, [state] and [debounce_cnt] 3,
    the two levels 1. *)
Record BUTTON_S := mk_button {
  ticks : Z;
  repeat_ : Z;
  event : Z;
  state : Z;
  debounce_cnt : Z;
  active_level : Z;
  button_level : Z;
  user_data : Z;
  cb : list Z;
  next : option nat }.

Definition set_ticks t h := mk_button t (repeat_ h) (event h) (state h) (debounce_cnt h)
  (active_level h) (button_level h) (user_data h) (cb h) (next h).
Definition set_repeat r h := mk_button (ticks h) r (event h) (state h) (debounce_cnt h)
  (active_level h) (button_level h) (user_data h) (cb h) (next h).
Definition set_event e h := mk_button (ticks h) (repeat_ h) (evt_code e) (state h) (debounce_cnt h)
  (active_level h) (button_level h) (user_data h) (cb h) (next h).
Definition set_state st h := mk_button (ticks h) (repeat_ h) (event h) st (debounce_cnt h)
  (active_level h) (button_level h) (user_data h) (cb h) (next h).
Definition set_debounce d l h := mk_button (ticks h) (repeat_ h) (event h) (state h) d
  (active_level h) l (user_data h) (cb h) (next h).
Definition set_next n h := mk_button (ticks h) (repeat_ h) (event h) (state h) (debounce_cnt h)
  (active_level h) (button_level h) (user_data h) (cb h) n.

(** [level] is what the pin reader returns for the new button. *)
Definition button_init (level active : Z) (data : Z) : BUTTON_S :=
  mk_button 0 0 (evt_code NONE_PRESS) 0 0 (active mod 2) (level mod 2) data (replicate 7 0) None.

Definition button_attach (h : BUTTON_S) (e : PRESS_EVT) (f : Z) : BUTTON_S :=
  mk_button (ticks h) (repeat_ h) (event h) (state h) (debounce_cnt h) (active_level h)
    (button_level h) (user_data h) (<[Z.to_nat (evt_code e) := f]> (cb h)) (next h).

Definition button_get_event (h : BUTTON_S) : Z := event h.

(** [EVENT_CB(ev)]: run the callback when one is attached. *)
Definition EVENT_CB (h : BUTTON_S) (e : PRESS_EVT) : list PRESS_EVT :=
  if default 0 (cb h !! Z.to_nat (evt_code e)) =? 0 then [] else [e].

Definition debounce (read_gpio_level : Z) (h : BUTTON_S) : BUTTON_S :=
  if negb (read_gpio_level =? button_level h) then
    let d := (debounce_cnt h + 1) mod 8 in
    if DEBOUNCE_TICKS <=? d then set_debounce 0 (read_gpio_level mod 2) h
    else set_debounce d (button_level h) h
  else set_debounce 0 (button_level h) h.

Definition state_machine (h : BUTTON_S) : BUTTON_S * list PRESS_EVT :=
  let pressed := button_level h =? active_level h in
  match state h with
  | 0 =>
      if pressed then
        (set_state 1 (set_repeat 1 (set_ticks 0 (set_event PRESS_DOWN h))), EVENT_CB h PRESS_DOWN)
      else (set_event NONE_PRESS h, [])
  | 1 =>
      if negb pressed then
        (set_state 2 (set_ticks 0 (set_event PRESS_UP h)), EVENT_CB h PRESS_UP)
      else if LONG_TICKS <? ticks h then
        (set_state 5 (set_event LONG_PRESS_START h), EVENT_CB h LONG_PRESS_START)
      else (h, [])
  | 2 =>
      if pressed then
        let r := (repeat_ h + 1) mod 16 in
        (set_state 3 (set_ticks 0 (set_repeat r (set_event PRESS_DOWN h))),
         EVENT_CB h PRESS_DOWN ++ (if r =? 2 then EVENT_CB h DOUBLE_CLICK else []) ++
         EVENT_CB h PRESS_REPEAT)
      else if SHORT_TICKS <? ticks h then
        if repeat_ h =? 1 then
          (set_state 0 (set_event SINGLE_CLICK h), EVENT_CB h SINGLE_CLICK)
        else if repeat_ h =? 2 then (set_state 0 (set_event DOUBLE_CLICK h), [])
        else (set_state 0 h, [])
      else (h, [])
  | 3 =>
      if negb pressed then
        if ticks h <? SHORT_TICKS then
          (set_state 2 (set_ticks 0 (set_event PRESS_UP h)), EVENT_CB h PRESS_UP)
        else (set_state 0 (set_event PRESS_UP h), EVENT_CB h PRESS_UP)
      else (h, [])
  | 5 =>
      if pressed then (set_event LONG_PRESS_HOLD h, EVENT_CB h LONG_PRESS_HOLD)
      else (set_state 0 (set_event PRESS_UP h), EVENT_CB h PRESS_UP)
  | _ => (h, [])
  end.

Definition button_handler (read_gpio_level : Z) (h : BUTTON_S) : BUTTON_S * list PRESS_EVT :=
  let h1 := if 0 <? state h then set_ticks (u16 (ticks h + 1)) h else h in
  state_machine (debounce read_gpio_level h1).

(** The handler driven by a sequence of pin samples, one per tick. *)
Fixpoint button_run (samples : list Z) (h : BUTTON_S) : BUTTON_S * list PRESS_EVT :=
  match samples with
  | [] => (h, [])
  | r :: rs =>
      let '(h1, e1) := button_handler r h in
      let '(h2, e2) := button_run rs h1 in
      (h2, e1 ++ e2)
  end.

(** ** The button list *)
Record keys := mk_keys { heap : gmap nat BUTTON_S; head_handle : option nat }.

Fixpoint list_mem (fuel : nat) (hp : gmap nat BUTTON_S) (target : option nat) (handle : nat)
  : outcome bool :=
  match target with
  | None => Done false
  | Some t =>
      if decide (t = handle) then Done true
      else match fuel, hp !! t with
           | S fuel', Some b => list_mem fuel' hp (next b) handle
           | O, _ => Trap Hang
           | _, None => Trap Fault
           end
  end.

Definition button_start (handle : nat) : M keys Z := λ k,
  match list_mem (size (heap k)) (heap k) (head_handle k) handle with
  | Done true => Done (-1, k)
  | Done false =>
      match heap k !! handle with
      | Some b => Done (0, mk_keys (<[handle := set_next (head_handle k) b]> (heap k)) (Some handle))
      | None => Trap Fault
      end
  | Trap t => Trap t
  end.

(** [curr] points to [head_handle] or to the [next] field of a button. *)
Inductive curr_ptr := AtHead | AtNext (i : nat).
Definition load (c : curr_ptr) (k : keys) : outcome (option nat) :=
  match c with
  | AtHead => Done (head_handle k)
  | AtNext i => match heap k !! i with Some b => Done (next b) | None => Trap Fault end
  end.
Definition save (c : curr_ptr) (p : option nat) (k : keys) : keys :=
  match c with
  | AtHead => mk_keys (heap k) p
  | AtNext i => mk_keys (alter (set_next p) i (heap k)) (head_handle k)
  end.

Fixpoint stop_loop (fuel : nat) (curr : curr_ptr) (handle : nat) (k : keys) : outcome (unit * keys) :=
  match load curr k with
  | Trap t => Trap t
  | Done None => Done (tt, k)
  | Done (Some entry) =>
      match fuel, heap k !! entry with
      | O, _ => Trap Hang
      | _, None => Trap Fault
      | S fuel', Some b =>
          if decide (entry = handle) then stop_loop fuel' curr handle (save curr (next b) k)
          else stop_loop fuel' (AtNext entry) handle k
      end
  end.
Definition button_stop (handle : nat) : M keys unit := λ k,
  stop_loop (S (size (heap k))) AtHead handle k.

Fixpoint find_loop (fuel : nat) (hp : gmap nat BUTTON_S) (entry : option nat) (data : Z)
  : outcome (option nat) :=
  match entry with
  | None => Done None
  | Some e =>
      match fuel, hp !! e with
      | O, _ => Trap Hang
      | _, None => Trap Fault
      | S fuel', Some b =>
          if user_data b =? data then Done (Some e) else find_loop fuel' hp (next b) data
      end
  end.
Definition button_find_with_user_data (data : Z) : M keys (option nat) := λ k,
  match find_loop (S (size (heap k))) (heap k) (head_handle k) data with
  | Done r => Done (r, k) | Trap t => Trap t
  end.

(** [level i] is what the pin reader of button [i] returns in this round. *)
Fixpoint ticks_loop (fuel : nat) (level : nat → Z) (target : option nat) (k : keys)
  : outcome (list (nat * PRESS_EVT) * keys) :=
  match target with
  | None => Done ([], k)
  | Some t =>
      match fuel, heap k !! t with
      | O, _ => Trap Hang
      | _, None => Trap Fault
      | S fuel', Some b =>
          let '(b', evs) := button_handler (level t) b in
          match ticks_loop fuel' level (next b') (mk_keys (<[t := b']> (heap k)) (head_handle k)) with
          | Done (evs', k') => Done (map (pair t) evs ++ evs', k')
          | Trap tr => Trap tr
          end
      end
  end.
Definition button_ticks (level : nat → Z) : M keys (list (nat * PRESS_EVT)) := λ k,
  ticks_loop (S (size (heap k))) level (head_handle k) k.

(** ** Invariants of one button *)
Record wf_button (h : BUTTON_S) : Prop := {
  wb_ticks : 0 ≤ ticks h < 2 ^ 16;
  wb_repeat : 0 ≤ repeat_ h < 16;
  wb_event : 0 ≤ event h < 16 ∧ event h ≠ evt_code number_of_event;
  wb_state : state h ∈ [0; 1; 2; 3; 5];
  wb_debounce : 0 ≤ debounce_cnt h < DEBOUNCE_TICKS;
  wb_active : active_level h ∈ [0; 1];
  wb_level : button_level h ∈ [0; 1] }.

Lemma mod2_level z : z mod 2 ∈ [0; 1].
Proof. pose proof (Z.mod_pos_bound z 2). set_solver by lia. Qed.

Lemma debounce_wf r h : wf_button h → wf_button (debounce r h).
Proof.
  intros [T R E S D A L]. unfold debounce, DEBOUNCE_TICKS in *.
  assert (H8 : (debounce_cnt h + 1) mod 8 = debounce_cnt h + 1) by (apply Z.mod_small; lia).
  rewrite H8. destruct (negb _); [destruct (Z.leb_spec 6 (debounce_cnt h + 1))|];
    constructor; simpl; unfold DEBOUNCE_TICKS; try done; try lia. apply mod2_level.
Qed.

Lemma state_machine_wf h : wf_button h → wf_button (fst (state_machine h)).
Proof.
  intros [T R E S D A L]. unfold state_machine.
  pose proof (Z.mod_pos_bound (repeat_ h + 1) 16 ltac:(lia)) as HR.
  pose proof S as S'.
  elem_cases S; cbv zeta;
    repeat match goal with |- context [if ?b then _ else _] => destruct b end;
    constructor; simpl; try done; try lia; try (split; [lia|done]);
    by apply (bool_decide_unpack _).
Qed.

(** Every sample keeps the fields within their widths. *)
Lemma button_handler_wf r h : wf_button h → wf_button (fst (button_handler r h)).
Proof.
  intros W. unfold button_handler. apply state_machine_wf, debounce_wf.
  destruct (0 <? state h); [|done]. destruct W. constructor; simpl; try done. apply u16_range.
Qed.

(** ** Phases and callbacks *)
Definition pressed (h : BUTTON_S) : bool := button_level h =? active_level h.

(** What holds between two samples: the phase goes with the debounced level and with
    the stored event, the counters keep within their limits without a wrap. *)
Definition phase (h : BUTTON_S) : Prop :=
  0 ≤ debounce_cnt h < DEBOUNCE_TICKS ∧
  match state h with
  | 0 => pressed h = false ∧ event h ∈ evt_code <$> [NONE_PRESS; PRESS_UP; SINGLE_CLICK; DOUBLE_CLICK]
  | 1 => pressed h = true ∧ event h = evt_code PRESS_DOWN ∧ repeat_ h = 1 ∧ 0 ≤ ticks h ≤ LONG_TICKS
  | 2 => pressed h = false ∧ event h = evt_code PRESS_UP ∧ 0 ≤ ticks h ≤ SHORT_TICKS
  | 3 => pressed h = true ∧ event h = evt_code PRESS_DOWN
  | 5 => pressed h = true ∧ event h ∈ evt_code <$> [LONG_PRESS_START; LONG_PRESS_HOLD] ∧ repeat_ h = 1
  | _ => False
  end.
(** A button between two gestures, its key possibly held down already. *)
Definition at_rest (h : BUTTON_S) : Prop := state h = 0 ∧ 0 ≤ debounce_cnt h < DEBOUNCE_TICKS.

(** An observer of the callbacks: is the key down, and down for long?  [None] when a
    callback comes out of turn. *)
Definition observe (o : option (bool * bool)) (e : PRESS_EVT) : option (bool * bool) :=
  match o, e with
  | Some (false, false), PRESS_DOWN => Some (true, false)
  | Some (true, _), PRESS_UP => Some (false, false)
  | Some (true, false), LONG_PRESS_START => Some (true, true)
  | Some (true, true), LONG_PRESS_HOLD => Some (true, true)
  | Some (true, false), DOUBLE_CLICK | Some (true, false), PRESS_REPEAT => Some (true, false)
  | Some (false, false), SINGLE_CLICK => Some (false, false)
  | _, _ => None
  end.
Definition observed (h : BUTTON_S) : option (bool * bool) :=
  Some (negb (state h =? 0) && pressed h, state h =? 5).
Definition all_attached (h : BUTTON_S) : Prop :=
  ∀ e, e ∉ [number_of_event; NONE_PRESS] → EVENT_CB h e = [e].

Lemma debounce_phase r h :
  0 ≤ debounce_cnt h < DEBOUNCE_TICKS → 0 ≤ debounce_cnt (debounce r h) < DEBOUNCE_TICKS.
Proof.
  unfold debounce, DEBOUNCE_TICKS. intros D. rewrite (Z.mod_small (debounce_cnt h + 1) 8) by lia.
  destruct (negb _); [destruct (Z.leb_spec 6 (debounce_cnt h + 1))|]; simpl; lia.
Qed.
Lemma debounce_keeps r h : let h' := debounce r h in
  ticks h' = ticks h ∧ repeat_ h' = repeat_ h ∧ event h' = event h ∧ state h' = state h ∧
  active_level h' = active_level h ∧ cb h' = cb h.
Proof. unfold debounce. destruct (negb _); [destruct (_ <=? _)|]; done. Qed.

(** One run of the switch on a debounced button, its tick counted. *)
Definition sampled (h : BUTTON_S) : Prop :=
  0 ≤ debounce_cnt h < DEBOUNCE_TICKS ∧
  match state h with
  | 0 => True
  | 1 => event h = evt_code PRESS_DOWN ∧ repeat_ h = 1 ∧ 0 ≤ ticks h ≤ LONG_TICKS + 1
  | 2 => event h = evt_code PRESS_UP ∧ 0 ≤ ticks h ≤ SHORT_TICKS + 1
  | 3 => event h = evt_code PRESS_DOWN
  | 5 => event h ∈ evt_code <$> [LONG_PRESS_START; LONG_PRESS_HOLD] ∧ repeat_ h = 1
  | _ => False
  end.
Definition seen_at (st : Z) : option (bool * bool) :=
  Some (negb (st =? 0) && negb (st =? 2), st =? 5).

Lemma sampled_state h : sampled h → state h = 0 ∨ state h = 1 ∨ state h = 2 ∨ state h = 3 ∨ state h = 5.
Proof.
  intros [_ S]. destruct (state h) as [|p|p]; [tauto| |done].
  destruct p as [[|[]|]|[]|]; try done; tauto.
Qed.

Ltac phase_done := unfold phase, observed, pressed, LONG_TICKS, SHORT_TICKS in *; simpl in *;
  repeat match goal with E : (button_level _ =? _) = _ |- _ => rewrite E end;
  repeat match goal with E : state _ = _ |- _ => rewrite E end; simpl;
  split_and?; first [done | lia | set_solver | congruence].

Lemma state_machine_phase h : sampled h → all_attached h →
  let '(h', es) := state_machine h in phase h' ∧ foldl observe (seen_at (state h)) es = observed h'.
Proof.
  intros Sa At. pose proof (sampled_state h Sa) as St. destruct Sa as [D S]. unfold state_machine.
  assert (Cb : ∀ e, e ∉ [number_of_event; NONE_PRESS] → EVENT_CB h e = [e]) by exact At.
  destruct (button_level h =? active_level h) eqn:P.
  - destruct St as [E|[E|[E|[E|E]]]]; rewrite E in *; cbv zeta iota; cbn [negb].
    + rewrite Cb by set_solver. phase_done.
    + destruct (Z.ltb_spec LONG_TICKS (ticks h)); [rewrite Cb by set_solver|]; phase_done.
    + rewrite !Cb by set_solver. destruct (_ =? 2); phase_done.
    + phase_done.
    + rewrite Cb by set_solver. phase_done.
  - destruct St as [E|[E|[E|[E|E]]]]; rewrite E in *; cbv zeta iota; cbn [negb].
    + phase_done.
    + rewrite Cb by set_solver. phase_done.
    + destruct (Z.ltb_spec SHORT_TICKS (ticks h)); [|phase_done].
      destruct (repeat_ h =? 1); [rewrite Cb by set_solver; phase_done|]. destruct (repeat_ h =? 2); phase_done.
    + rewrite Cb by set_solver. destruct (ticks h <? SHORT_TICKS); phase_done.
    + rewrite Cb by set_solver. phase_done.
Qed.

Lemma handler_sampled r h : at_rest h ∨ phase h →
  let h1 := if 0 <? state h then set_ticks (u16 (ticks h + 1)) h else h in
  sampled (debounce r h1) ∧ seen_at (state (debounce r h1)) = if state h =? 0 then Some (false, false) else observed h.
Proof.
  intros H h1. assert (D : 0 ≤ debounce_cnt h < DEBOUNCE_TICKS) by (destruct H as [[_ D]|[D _]]; exact D).
  assert (E1 : debounce_cnt h1 = debounce_cnt h ∧ repeat_ h1 = repeat_ h ∧ event h1 = event h ∧ state h1 = state h)
    by (unfold h1; by destruct (0 <? state h)).
  destruct E1 as (Ed & Er & Ee & Es).
  destruct (debounce_keeps r h1) as (Kt & Kr & Ke & Ks & _). cbv zeta in *.
  unfold sampled. rewrite Kt, Kr, Ke, Ks, Er, Ee, Es. split; [split; [apply debounce_phase; by rewrite Ed|]|].
  - destruct H as [[-> _]|[_ H]]; [done|]. unfold h1. destruct (state h) as [|p|p]; [done| |done].
    destruct p as [[|[]|]|[]|]; try done; cbn [Z.ltb Z.compare set_ticks ticks]; destruct H as (_ & H); try tauto.
    + destruct H as (? & ? & ?). change SHORT_TICKS with 80 in *. rewrite u16_small by lia. split; [done|lia].
    + destruct H as (? & ? & ? & ?). change LONG_TICKS with 200 in *. rewrite u16_small by lia. split_and!; try done; lia.
  - destruct H as [[-> _]|[_ H]]; [done|]. unfold seen_at, observed.
    destruct (state h) as [|p|p]; [done| |done]. destruct p as [[|[]|]|[]|]; try done; destruct H as (-> & _); done.
Qed.

Lemma state_machine_cb h : cb (state_machine h).1 = cb h.
Proof.
  unfold state_machine.
  repeat match goal with
  | |- context [match ?z with Z0 => _ | Zpos _ => _ | Zneg _ => _ end] => destruct z
  | |- context [match ?p with xI _ => _ | xO _ => _ | xH => _ end] => destruct p
  | |- context [if ?c then _ else _] => destruct c
  end; done.
Qed.
Lemma all_attached_cb h h' : cb h' = cb h → all_attached h → all_attached h'.
Proof. intros E A e He. rewrite <-(A e He). unfold EVENT_CB. by rewrite E. Qed.

Lemma handler_phase r h : at_rest h ∨ phase h → all_attached h →
  let '(h', es) := button_handler r h in
  phase h' ∧ all_attached h' ∧
  foldl observe (if state h =? 0 then Some (false, false) else observed h) es = observed h'.
Proof.
  intros H At. destruct (handler_sampled r h H) as [Sa Se]. cbv zeta in Sa, Se. unfold button_handler.
  set (h1 := debounce r _) in *.
  assert (Ec : cb h1 = cb h).
  { unfold h1. destruct (debounce_keeps r (if 0 <? state h then set_ticks (u16 (ticks h + 1)) h else h)) as (_ & _ & _ & _ & _ & ->).
    by destruct (0 <? state h). }
  assert (A1 : all_attached h1) by by apply (all_attached_cb h).
  pose proof (state_machine_phase h1 Sa A1) as P. pose proof (state_machine_cb h1) as C.
  destruct (state_machine h1) as [h' es]. cbn [fst] in C. rewrite <-Se. destruct P as [P Q].
  split; [exact P|]. split; [by apply (all_attached_cb h1)|exact Q].
Qed.

(** C39: A button keeps its phases, and its callbacks come in turn.  From a button at
    rest with every callback attached, after any samples of the pin: the phase of the
    state machine goes with the debounced level and with the stored event, and the
    debounce counter and the ticks that time a first press or a release have not
    passed their limits.  The callbacks are a sequence that an observer accepts:
    PRESS_DOWN and PRESS_UP alternate, a long press starts once in a press and holds
    only after that, double clicks and repeats come in a press that is not long, a
    single click only between presses; and what the observer concludes at the end is
    the debounced level. *)
Theorem button_phases_ok h samples : at_rest h → all_attached h → samples ≠ [] →
  let '(h', es) := button_run samples h in
  phase h' ∧ foldl observe (Some (false, false)) es = Some (pressed h', state h' =? 5).
Proof.
  intros R At Ne.
  assert (G : ∀ l h0, phase h0 → all_attached h0 →
    let '(h', es) := button_run l h0 in phase h' ∧ foldl observe (observed h0) es = observed h').
  { induction l as [|r l IH]; intros h0 P0 A0; cbn [button_run]; [done|].
    pose proof (handler_phase r h0 (or_intror P0) A0) as H1. destruct (button_handler r h0) as [h1 e1].
    destruct H1 as (P1 & A1 & O1). specialize (IH h1 P1 A1). destruct (button_run l h1) as [h2 e2].
    destruct IH as [P2 O2]. split; [exact P2|]. rewrite foldl_app, <-O2, <-O1. do 2 f_equal.
    destruct (Z.eqb_spec (state h0) 0) as [E|]; [|done]. unfold observed. by rewrite E. }
  destruct samples as [|r l]; [done|]. cbn [button_run].
  pose proof (handler_phase r h (or_introl R) At) as H1. destruct (button_handler r h) as [h1 e1].
  destruct H1 as (P1 & A1 & O1). specialize (G l h1 P1 A1). destruct (button_run l h1) as [h2 e2].
  destruct G as [P2 O2]. split; [exact P2|]. rewrite foldl_app. destruct R as [E _]. rewrite E in O1. cbn in O1.
  rewrite O1, O2. unfold observed. destruct P2 as [_ P2].
  destruct (Z.eqb_spec (state h2) 0) as [E2|]; [|done]. rewrite E2 in P2. cbn. by destruct P2 as [-> _].
Qed.

(** ** Behaviour over sequences of samples *)
Lemma button_run_app a b h :
  button_run (a ++ b) h =
  let '(h1, e1) := button_run a h in let '(h2, e2) := button_run b h1 in (h2, e1 ++ e2).
Proof.
  revert h. induction a as [|r a IH]; intros h; simpl.
  - by destruct (button_run b h).
  - destruct (button_handler r h) as [h1 e1]. rewrite IH.
    destruct (button_run a h1) as [h2 e2]. destruct (button_run b h2) as [h3 e3].
    by rewrite app_assoc.
Qed.

Section Sequences.
(** A button [h] with its configuration; [B] is the button in a given run-time state. *)
Context (h : BUTTON_S) (inact : Z).
Abbreviation act := (active_level h).
Hypothesis Hact : 0 ≤ active_level h ≤ 1.
Hypothesis Hinact : inact = 1 - active_level h.

Definition B (t r e st d l : Z) : BUTTON_S :=
  mk_button t r e st d (active_level h) l (user_data h) (cb h) (next h).
Definition E (evs : list PRESS_EVT) : list PRESS_EVT := concat (map (EVENT_CB h) evs).

Ltac bstep :=
  unfold button_handler, debounce, state_machine, B, DEBOUNCE_TICKS, LONG_TICKS, SHORT_TICKS;
  change (1000 / 5) with 200; change (400 / 5) with 80;
  cbn [ticks repeat_ event state debounce_cnt active_level button_level user_data cb next
       set_ticks set_repeat set_event set_state set_debounce Z.div Z.ltb Z.compare Z.eqb];
  repeat first [ rewrite u16_small by lia | rewrite Z.mod_small by lia
               | progress zif
               | progress cbn [ticks repeat_ event state debounce_cnt active_level button_level
                   user_data cb next set_ticks set_repeat set_event set_state set_debounce negb] ].

Lemma idle_ticks t r e n :
  button_run (replicate (S n) inact) (B t r e 0 0 inact) = (B t r (evt_code NONE_PRESS) 0 0 inact, []).
Proof.
  revert e. induction n as [|n IH]; intros e.
  - simpl. bstep. done.
  - change (replicate (S (S n)) inact) with (inact :: replicate (S n) inact). cbn [button_run].
    replace (button_handler inact (B t r e 0 0 inact))
      with (B t r (evt_code NONE_PRESS) 0 0 inact, @nil PRESS_EVT) by (bstep; done).
    by rewrite IH.
Qed.

(** Fewer than [DEBOUNCE_TICKS] pressed samples in a row do nothing. *)
Lemma idle_bounce t r e d n :
  0 ≤ d → d + Z.of_nat n < 6 →
  button_run (replicate n act) (B t r e 0 d inact) =
    (B t r (if (n =? 0)%nat then e else evt_code NONE_PRESS) 0 (d + Z.of_nat n) inact, []).
Proof.
  revert e d. induction n as [|n IH]; intros e d Hd Hn.
  - simpl. by rewrite Z.add_0_r.
  - cbn [replicate button_run].
    replace (button_handler act (B t r e 0 d inact))
      with (B t r (evt_code NONE_PRESS) 0 (d + 1) inact, @nil PRESS_EVT) by (bstep; done).
    rewrite IH by lia. simpl (S n =? 0)%nat. destruct (n =? 0)%nat; do 2 f_equal; lia.
Qed.

Lemma press_edge t r e :
  button_handler act (B t r e 0 5 inact) = (B 0 1 (evt_code PRESS_DOWN) 1 0 act, E [PRESS_DOWN]).
Proof. bstep. unfold E. simpl. by rewrite app_nil_r. Qed.

Lemma hold_short t r e n :
  0 ≤ t → t + Z.of_nat n ≤ 200 →
  button_run (replicate n act) (B t r e 1 0 act) = (B (t + Z.of_nat n) r e 1 0 act, []).
Proof.
  revert t. induction n as [|n IH]; intros t Ht Hn.
  - simpl. by rewrite Z.add_0_r.
  - cbn [replicate button_run].
    replace (button_handler act (B t r e 1 0 act)) with (B (t + 1) r e 1 0 act, @nil PRESS_EVT)
      by (bstep; done).
    rewrite IH by lia. do 2 f_equal. lia.
Qed.

Lemma release_bounce t r e d n :
  0 ≤ t → t + Z.of_nat n ≤ 200 → 0 ≤ d → d + Z.of_nat n < 6 →
  button_run (replicate n inact) (B t r e 1 d act) =
    (B (t + Z.of_nat n) r e 1 (d + Z.of_nat n) act, []).
Proof.
  revert t d. induction n as [|n IH]; intros t d Ht Hn Hd Hdn.
  - simpl. by rewrite !Z.add_0_r.
  - cbn [replicate button_run].
    replace (button_handler inact (B t r e 1 d act)) with (B (t + 1) r e 1 (d + 1) act, @nil PRESS_EVT)
      by (bstep; done).
    rewrite IH by lia. do 2 f_equal; lia.
Qed.

Lemma release_edge t r e :
  0 ≤ t < 1000 →
  button_handler inact (B t r e 1 5 act) = (B 0 r (evt_code PRESS_UP) 2 0 inact, E [PRESS_UP]).
Proof. intros Ht. bstep. unfold E. simpl. by rewrite app_nil_r. Qed.

Lemma wait_again t r e n :
  0 ≤ t → t + Z.of_nat n ≤ 80 →
  button_run (replicate n inact) (B t r e 2 0 inact) = (B (t + Z.of_nat n) r e 2 0 inact, []).
Proof.
  revert t. induction n as [|n IH]; intros t Ht Hn.
  - simpl. by rewrite Z.add_0_r.
  - cbn [replicate button_run].
    replace (button_handler inact (B t r e 2 0 inact)) with (B (t + 1) r e 2 0 inact, @nil PRESS_EVT)
      by (bstep; done).
    rewrite IH by lia. do 2 f_equal. lia.
Qed.

Lemma click_timeout e :
  button_handler inact (B 80 1 e 2 0 inact) = (B 81 1 (evt_code SINGLE_CLICK) 0 0 inact, E [SINGLE_CLICK]).
Proof. bstep. unfold E. simpl. by rewrite app_nil_r. Qed.

Lemma long_edge r e :
  button_handler act (B 200 r e 1 0 act) = (B 201 r (evt_code LONG_PRESS_START) 5 0 act, E [LONG_PRESS_START]).
Proof. bstep. unfold E. simpl. by rewrite app_nil_r. Qed.

Lemma hold_long t r e n :
  ∃ t' e', button_run (replicate n act) (B t r e 5 0 act) =
    (B t' r e' 5 0 act, E (replicate n LONG_PRESS_HOLD)).
Proof.
  revert t e. induction n as [|n IH]; intros t e; [by eexists _, _|].
  cbn [replicate button_run].
  replace (button_handler act (B t r e 5 0 act))
    with (B (u16 (t + 1)) r (evt_code LONG_PRESS_HOLD) 5 0 act, E [LONG_PRESS_HOLD])
    by (bstep; unfold E; simpl; by rewrite app_nil_r).
  destruct (IH (u16 (t + 1)) (evt_code LONG_PRESS_HOLD)) as (t' & e' & ->).
  exists t', e'. f_equal. unfold E. simpl. by rewrite app_nil_r.
Qed.
End Sequences.

(** A released button at rest. *)
Record idle (h : BUTTON_S) : Prop := {
  id_state : state h = 0;
  id_debounce : debounce_cnt h = 0;
  id_active : 0 ≤ active_level h ≤ 1;
  id_level : button_level h = 1 - active_level h }.

Lemma idle_B h : idle h → h = B h (ticks h) (repeat_ h) (event h) 0 0 (1 - active_level h).
Proof. intros [S D A L]. destruct h. simpl in *. by subst. Qed.

Lemma B_idle h t r e : idle h → idle (B h t r e 0 0 (1 - active_level h)).
Proof. intros [S D A L]. constructor; done. Qed.

Lemma run_step a r b h h1 h2 h3 ev1 ev2 ev3 :
  button_run a h = (h1, ev1) → button_handler r h1 = (h2, ev2) → button_run b h2 = (h3, ev3) →
  button_run (a ++ r :: b) h = (h3, ev1 ++ ev2 ++ ev3).
Proof. intros E1 E2 E3. rewrite button_run_app, E1. simpl. by rewrite E2, E3. Qed.

Lemma replicate_split n m (x : Z) : replicate (n + S m) x = replicate n x ++ x :: replicate m x.
Proof. by rewrite replicate_add. Qed.

Lemma press_run h n :
  idle h →
  button_run (replicate (6 + n) (active_level h)) h =
  let '(h', ev) := button_run (replicate n (active_level h))
                     (B h 0 1 (evt_code PRESS_DOWN) 1 0 (active_level h)) in
  (h', E h [PRESS_DOWN] ++ ev).
Proof.
  intros I. pose proof (id_active _ I) as A.
  rewrite (idle_B h I) at 2.
  replace (6 + n)%nat with (5 + S n)%nat by lia. rewrite replicate_split.
  destruct (button_run (replicate n _) _) as [h' ev] eqn:Eq.
  erewrite run_step; [|apply idle_bounce; [done|done|lia|simpl; lia]|apply press_edge; done|exact Eq].
  done.
Qed.

(** C37: A press held between 6 and 201 samples and then released for at least 87 samples is
    reported as exactly one press, one release and one single click, and the button is at
    rest again. *)
Theorem button_single_click h a b :
  idle h → (6 ≤ a ≤ 201)%nat → (87 ≤ b)%nat →
  ∃ h', button_run (replicate a (active_level h) ++ replicate b (1 - active_level h)) h =
      (h', E h [PRESS_DOWN; PRESS_UP; SINGLE_CLICK]) ∧ idle h'.
Proof.
  intros I Ha Hb. pose proof (id_active _ I) as A.
  replace a with (6 + (a - 6))%nat by lia. rewrite button_run_app, press_run by done.
  rewrite hold_short by lia.
  assert (∃ e', button_run (replicate (b - 87) (1 - active_level h))
                  (B h 81 1 (evt_code SINGLE_CLICK) 0 0 (1 - active_level h)) =
                (B h 81 1 e' 0 0 (1 - active_level h), [])) as (e' & Hend).
  { destruct (b - 87)%nat; [by eexists|]. eexists. by apply idle_ticks. }
  replace b with (5 + S (80 + S (b - 87)))%nat by lia.
  rewrite !replicate_split.
  erewrite run_step;
    [|apply release_bounce; [done|done|lia|lia|lia|simpl; lia]|apply release_edge; [done|done|lia]|].
  2: { eapply run_step; [apply wait_again; [done|done|lia|simpl; lia]|apply click_timeout; done|].
       exact Hend. }
  eexists. split; [unfold E; simpl; rewrite ?app_nil_r; done|]. by apply B_idle.
Qed.

(** A press held for 207 + n samples is reported as one press, one long-press start and n
    holds, for every n, also after the 16-bit tick counter has wrapped. *)
Theorem button_long_press h n :
  idle h →
  ∃ h', button_run (replicate (207 + n) (active_level h)) h =
    (h', E h ([PRESS_DOWN; LONG_PRESS_START] ++ replicate n LONG_PRESS_HOLD)) ∧ state h' = 5.
Proof.
  intros I. pose proof (id_active _ I) as A.
  replace (207 + n)%nat with (6 + (200 + S n))%nat by lia. rewrite press_run by done.
  rewrite replicate_split.
  destruct (hold_long h A 201 1 (evt_code LONG_PRESS_START) n) as (t' & e' & Hl).
  erewrite run_step; [|apply hold_short; [done|lia|simpl; lia]|apply long_edge; done|exact Hl].
  exists (B h t' 1 e' 5 0 (active_level h)). split; [|done]. unfold E. simpl. by rewrite !app_nil_r.
Qed.

(** Contact bounce is ignored: bursts of fewer than six pressed samples, each followed by at
    least one released sample, run no callback and leave the button at rest. *)
Theorem button_glitch_free h bursts :
  idle h → Forall (λ p : nat * nat, (fst p < 6)%nat) bursts →
  ∃ h', button_run (concat (map (λ p : nat * nat, replicate (fst p) (active_level h) ++
                                  replicate (S (snd p)) (1 - active_level h)) bursts)) h = (h', []) ∧
    idle h' ∧ active_level h' = active_level h.
Proof.
  intros I F. revert h I. induction F as [|[k m] bs Hk F IH]; intros h I; cbn [map concat fst snd] in *.
  - exists h. done.
  - pose proof (id_active _ I) as A. rewrite button_run_app.
    assert (∃ h1, button_run (replicate k (active_level h) ++ replicate (S m) (1 - active_level h)) h
                  = (h1, []) ∧ idle h1 ∧ active_level h1 = active_level h) as (h1 & E1 & I1 & A1).
    { pose proof (idle_bounce h _ A eq_refl (ticks h) (repeat_ h) (event h) 0 k ltac:(lia) ltac:(lia)) as E0.
      rewrite <-(idle_B h I) in E0. rewrite button_run_app, E0.
      assert (Hr : ∀ e, button_run (replicate (S m) (1 - active_level h))
                 (B h (ticks h) (repeat_ h) e 0 (0 + Z.of_nat k) (1 - active_level h)) =
               (B h (ticks h) (repeat_ h) (evt_code NONE_PRESS) 0 0 (1 - active_level h), [])).
      { intros e. cbn [replicate button_run].
        assert (button_handler (1 - active_level h)
                 (B h (ticks h) (repeat_ h) e 0 (0 + Z.of_nat k) (1 - active_level h)) =
               (B h (ticks h) (repeat_ h) (evt_code NONE_PRESS) 0 0 (1 - active_level h), [])) as ->.
        { unfold button_handler, debounce, state_machine, B. simpl. rewrite Z.eqb_refl. simpl.
          by rewrite (proj2 (Z.eqb_neq (1 - active_level h) (active_level h))) by lia. }
        destruct m; [done|]. by rewrite idle_ticks. }
      rewrite Hr. eexists. split; [done|]. split; [by apply B_idle|done]. }
    rewrite E1. destruct (IH h1 I1) as (h2 & E2 & I2 & A2). rewrite A1 in E2. rewrite E2.
    exists h2. split; [done|]. split; [done|congruence].
Qed.

(** The click counter is four bits wide, so a burst of eighteen clicks announces a double
    click twice: at the second press and again at the eighteenth, when the counter has
    wrapped to 2. *)
Theorem button_repeat_wraps :
  let b := button_attach (button_init 0 1 0) DOUBLE_CLICK 1 in
  let click := replicate 6 1 ++ replicate 6 0 in
  snd (button_run (concat (replicate 2 click)) b) = [DOUBLE_CLICK] ∧
  snd (button_run (concat (replicate 17 click)) b) = [DOUBLE_CLICK] ∧
  snd (button_run (concat (replicate 18 click)) b) = [DOUBLE_CLICK; DOUBLE_CLICK].
Proof. vm_compute. done. Qed.

(** ** The list of running buttons *)
Definition knx (hp : gmap nat BUTTON_S) (i : nat) : option (option nat) := next <$> hp !! i.
Record kwf (k : keys) (l : list nat) : Prop := {
  kw_chain : chain (knx (heap k)) (head_handle k) l;
  kw_nodup : NoDup l }.

Lemma kchain_heap hp p l i : chain (knx hp) p l → i ∈ l → ∃ b, hp !! i = Some b.
Proof.
  revert p. induction l as [|j l IH]; intros p; simpl; [set_solver|].
  intros [-> (q & Hq & Hc)] [->|Hi]%elem_of_cons; [|eauto].
  unfold knx in Hq. destruct (hp !! j); [eauto|done].
Qed.

Lemma kchain_length hp p l : chain (knx hp) p l → NoDup l → (length l ≤ size hp)%nat.
Proof.
  intros Hc ND. rewrite <-size_dom, <-(size_list_to_set (C := gset nat) l ND).
  apply subseteq_size. intros i Hi%elem_of_list_to_set.
  destruct (kchain_heap _ _ _ _ Hc Hi) as [b Hb]. apply elem_of_dom. eauto.
Qed.

Lemma list_mem_ok hp p l i fuel :
  chain (knx hp) p l → (length l ≤ fuel)%nat → list_mem fuel hp p i = Done (bool_decide (i ∈ l)).
Proof.
  revert p fuel. induction l as [|j l IH]; intros p fuel.
  - intros -> _. by destruct fuel.
  - intros [-> (q & Hq & Hc)] Hf. cbn [length] in Hf. destruct fuel as [|fuel]; [lia|].
    cbn [list_mem]. destruct (decide (j = i)) as [->|D].
    + rewrite bool_decide_true by set_solver. done.
    + unfold knx in Hq. destruct (hp !! j) as [b|]; simplify_eq/=.
      rewrite (IH _ _ Hc) by lia. f_equal. apply bool_decide_ext. set_solver.
Qed.

Definition cursor (l1 : list nat) : curr_ptr :=
  match last l1 with Some j => AtNext j | None => AtHead end.

Lemma load_ok k l1 l2 :
  chain (knx (heap k)) (head_handle k) (l1 ++ l2) → load (cursor l1) k = Done (head l2).
Proof.
  intros Hc. unfold cursor. destruct l1 as [|j l1 _] using rev_ind; simpl.
  - by rewrite (chain_head _ _ _ Hc).
  - rewrite last_snoc. rewrite <-app_assoc in Hc. pose proof (chain_next _ _ _ _ _ Hc) as N.
    unfold load, knx in *. destruct (heap k !! j); simplify_eq/=. by rewrite N.
Qed.

Lemma save_ok k l1 e l2 :
  chain (knx (heap k)) (head_handle k) (l1 ++ e :: l2) → NoDup (l1 ++ e :: l2) →
  let k' := save (cursor l1) (head l2) k in
  chain (knx (heap k')) (head_handle k') (l1 ++ l2) ∧
  (∀ j, set_next None <$> heap k' !! j = set_next None <$> heap k !! j) ∧ size (heap k') = size (heap k).
Proof.
  intros Hc ND. unfold cursor. destruct l1 as [|j l1 _] using rev_ind; simpl.
  - split; [|done]. by apply (chain_suffix _ _ [e]) in Hc.
  - rewrite last_snoc. simpl. rewrite <-app_assoc in *. simpl in *. split_and!.
    + eapply chain_remove_after; [done..| |].
      * intros x Hx. unfold knx. rewrite lookup_alter_ne; [done|].
        intros ->. rewrite NoDup_app, !NoDup_cons in ND. set_solver.
      * destruct (kchain_heap _ _ _ j Hc) as [b Hb]; [set_solver|].
        unfold knx. rewrite lookup_alter_eq, Hb. done.
    + intros x. destruct (decide (j = x)) as [->|]; [|by rewrite lookup_alter_ne].
      rewrite lookup_alter_eq. by destruct (heap k !! x).
    + by rewrite <-!size_dom, dom_alter_L.
Qed.

Lemma stop_loop_ok k l1 l2 i fuel :
  chain (knx (heap k)) (head_handle k) (l1 ++ l2) → NoDup (l1 ++ l2) → (length l2 ≤ fuel)%nat →
  ∃ k', stop_loop fuel (cursor l1) i k = Done (tt, k') ∧
    chain (knx (heap k')) (head_handle k') (l1 ++ filter (λ j, j ≠ i) l2) ∧
    (∀ j, set_next None <$> heap k' !! j = set_next None <$> heap k !! j).
Proof.
  revert k l1 l2. induction fuel as [|fuel IH]; intros k l1 l2 Hc ND Hf;
    pose proof (load_ok _ _ _ Hc) as L.
  - destruct l2; [|simpl in Hf; lia]. exists k. simpl. rewrite L. done.
  - simpl. rewrite L. destruct l2 as [|e l2]; simpl; [by exists k|].
    destruct (kchain_heap _ _ _ e Hc) as [b Hb]; [set_solver|]. rewrite Hb.
    assert (Nb : next b = head l2).
    { pose proof (chain_next _ _ _ _ _ Hc) as N. unfold knx in N. rewrite Hb in N. by injection N. }
    case_decide as D.
    + subst e. rewrite Nb. destruct (save_ok k l1 i l2 Hc ND) as (C1 & P1 & _).
      destruct (IH (save (cursor l1) (head l2) k) l1 l2) as (k' & E' & C' & P'); [done| |simpl in Hf; lia|].
      { rewrite <-Permutation_middle in ND. by inversion ND. }
      exists k'. split; [done|]. rewrite filter_cons_False by auto. split; [done|].
      intros j. by rewrite P', P1.
    + destruct (IH k (l1 ++ [e]) l2) as (k' & E' & C' & P'); [by rewrite <-app_assoc..|simpl in Hf; lia|].
      unfold cursor in E'. rewrite last_snoc in E'. exists k'. split; [done|].
      rewrite filter_cons_True by done. by rewrite <-app_assoc in C'.
Qed.

(** [button_start] and [button_stop] implement a set of running buttons: starting a button
    that is not running puts it on the list, starting it again returns -1 and changes
    nothing, and stopping it removes it (a button that is not running is left alone); the
    list stays acyclic and free of duplicates, and no button changes but for its link. *)
Theorem button_list_ops k l i b :
  kwf k l → heap k !! i = Some b →
  (i ∈ l → button_start i k = Done (-1, k)) ∧
  (i ∉ l → ∃ k', button_start i k = Done (0, k') ∧ kwf k' (i :: l) ∧
     (∀ j, set_next None <$> heap k' !! j = set_next None <$> heap k !! j)) ∧
  (∃ k', button_stop i k = Done (tt, k') ∧ kwf k' (filter (λ j, j ≠ i) l) ∧
     (∀ j, set_next None <$> heap k' !! j = set_next None <$> heap k !! j)).
Proof.
  intros [Hc ND] Hb. pose proof (kchain_length _ _ _ Hc ND) as HL.
  unfold button_start. rewrite (list_mem_ok _ _ _ _ _ Hc HL). split; [|split].
  - intros Hi. by rewrite bool_decide_true.
  - intros Hi. rewrite bool_decide_false by done. rewrite Hb. eexists. split; [done|]. split.
    + constructor; [|by constructor]. simpl.
      eapply chain_insert_front; [exact Hc|done| |].
      * intros j Hj. unfold knx. by rewrite lookup_insert_ne.
      * unfold knx. rewrite lookup_insert_eq. simpl. by rewrite (chain_head _ _ _ Hc).
    + intros j. simpl. destruct (decide (i = j)) as [->|]; [|by rewrite lookup_insert_ne].
      by rewrite lookup_insert_eq, Hb.
  - destruct (stop_loop_ok k [] l i (S (size (heap k)))) as (k' & E' & C' & P'); [done..|lia|].
    exists k'. split; [done|]. split; [|done]. constructor; [done|]. by apply NoDup_filter.
Qed.

Lemma handler_next r b : next (fst (button_handler r b)) = next b.
Proof.
  unfold button_handler, debounce, state_machine, set_debounce, set_ticks.
  repeat match goal with
  | |- context [match ?z with Z0 => _ | Zpos _ => _ | Zneg _ => _ end] => destruct z
  | |- context [match ?p with xI _ => _ | xO _ => _ | xH => _ end] => destruct p
  | |- context [if ?c then _ else _] => destruct c
  end; done.
Qed.

Definition step_of (level : nat → Z) (hp : gmap nat BUTTON_S) (i : nat) : BUTTON_S * list PRESS_EVT :=
  button_handler (level i) (default (button_init 0 0 0) (hp !! i)).

Lemma ticks_loop_ok level k p l fuel :
  chain (knx (heap k)) p l → NoDup l → (length l ≤ fuel)%nat →
  ∃ k', ticks_loop fuel level p k =
      Done (concat (map (λ i, map (pair i) (snd (step_of level (heap k) i))) l), k') ∧
    head_handle k' = head_handle k ∧ (∀ i, knx (heap k') i = knx (heap k) i) ∧
    (∀ i, i ∉ l → heap k' !! i = heap k !! i) ∧
    (∀ i, i ∈ l → heap k' !! i = Some (fst (step_of level (heap k) i))).
Proof.
  revert k p fuel. induction l as [|j l IH]; intros k p fuel Hc ND Hf.
  - simpl in Hc. subst p. exists k. destruct fuel; simpl; (split; [done|]); set_solver.
  - pose proof Hc as [-> (q & Hq & Hc')]. simpl in Hf. destruct fuel as [|fuel]; [lia|].
    destruct (kchain_heap _ _ _ j Hc) as [b Hb]; [set_solver|].
    apply NoDup_cons in ND as [Hj ND].
    assert (Sj : step_of level (heap k) j = button_handler (level j) b) by (unfold step_of; by rewrite Hb).
    cbn [ticks_loop]. rewrite Hb. destruct (button_handler (level j) b) as [b' ev] eqn:Eb.
    assert (Nb : next b' = q).
    { pose proof (handler_next (level j) b) as N. rewrite Eb in N. simpl in N.
      unfold knx in Hq. rewrite Hb in Hq. simpl in Hq. congruence. }
    set (k1 := mk_keys (<[j:=b']> (heap k)) (head_handle k)).
    assert (Nx1 : ∀ i, knx (heap k1) i = knx (heap k) i).
    { intros i. unfold knx. simpl. destruct (decide (j = i)) as [->|]; [|by rewrite lookup_insert_ne].
      rewrite lookup_insert_eq. simpl. by rewrite Nb, <-Hq. }
    destruct (IH k1 (next b') fuel) as (k' & E' & H' & N' & O' & I'); [|done|lia|].
    { rewrite Nb. eapply chain_ext; [|exact Hc']. auto. }
    assert (St : ∀ i, i ∈ l → step_of level (heap k1) i = step_of level (heap k) i).
    { intros i Hi. unfold step_of. simpl. rewrite lookup_insert_ne; [done|]. by intros ->. }
    rewrite E'. exists k'. split; [|split; [done|split; [|split]]].
    + simpl. rewrite Sj. simpl. do 4 f_equal. apply map_ext_in.
      intros i Hi%list_elem_of_In. by rewrite St.
    + intros i. by rewrite N', Nx1.
    + intros i Hi. rewrite O' by set_solver. simpl. apply lookup_insert_ne. set_solver.
    + intros i [->|Hi]%elem_of_cons; [|by rewrite I', St].
      rewrite O' by done. simpl. by rewrite lookup_insert_eq, Sj.
Qed.

(** One round of [button_ticks] samples every running button exactly once, in list order:
    each is stepped by [button_handler] with its own pin level, the callbacks run are the
    concatenation of theirs, and no other button nor the list changes. *)
Theorem button_ticks_ok level k l :
  kwf k l →
  ∃ k', button_ticks level k =
      Done (concat (map (λ i, map (pair i) (snd (step_of level (heap k) i))) l), k') ∧
    kwf k' l ∧
    (∀ i, i ∉ l → heap k' !! i = heap k !! i) ∧
    (∀ i, i ∈ l → heap k' !! i = Some (fst (step_of level (heap k) i))).
Proof.
  intros [Hc ND]. pose proof (kchain_length _ _ _ Hc ND) as HL.
  destruct (ticks_loop_ok level k _ l (S (size (heap k))) Hc ND ltac:(lia)) as (k' & E' & H' & N' & O & I).
  exists k'. split; [done|]. split; [|done]. constructor; [|done].
  rewrite H'. eapply chain_ext; [|exact Hc]. auto.
Qed.

(** ** Witnesses *)
Definition demo_button : BUTTON_S :=
  foldl (λ b e, button_attach b e 1) (button_init 0 1 7)
    [PRESS_DOWN; PRESS_UP; SINGLE_CLICK; DOUBLE_CLICK; LONG_PRESS_START; LONG_PRESS_HOLD].

Definition full_button : BUTTON_S := button_attach demo_button PRESS_REPEAT 1.
Lemma button_phases_ok_witness :
  let '(h', es) := button_run (replicate 10 1 ++ replicate 20 0 ++ replicate 10 1 ++ replicate 220 0 ++ replicate 210 1) full_button in
  phase h' ∧ foldl observe (Some (false, false)) es = Some (pressed h', state h' =? 5) ∧
  es = [PRESS_DOWN; PRESS_UP; PRESS_DOWN; DOUBLE_CLICK; PRESS_REPEAT; PRESS_UP; PRESS_DOWN; LONG_PRESS_START; LONG_PRESS_HOLD; LONG_PRESS_HOLD; LONG_PRESS_HOLD].
Proof.
  pose proof (button_phases_ok full_button (replicate 10 1 ++ replicate 20 0 ++ replicate 10 1 ++ replicate 220 0 ++ replicate 210 1)) as H.
  destruct (button_run _ full_button) as [h' es] eqn:E. destruct H as [P O].
  - split; [done|]. unfold DEBOUNCE_TICKS. cbn. lia.
  - intros e He. destruct e; try reflexivity; exfalso; apply He; [by left|by right; left].
  - done.
  - split; [exact P|]. split; [exact O|]. vm_compute in E. by injection E.
Defined.

Lemma idle_demo : idle demo_button.
Proof. by constructor. Qed.


Lemma button_single_click_witness :
  ∃ h', button_run (replicate 20 1 ++ replicate 100 0) demo_button =
    (h', [PRESS_DOWN; PRESS_UP; SINGLE_CLICK]) ∧ idle h'.
Proof. apply (button_single_click demo_button 20 100 idle_demo); lia. Defined.

Lemma button_long_press_witness :
  ∃ h', button_run (replicate 210 1) demo_button =
    (h', [PRESS_DOWN; LONG_PRESS_START; LONG_PRESS_HOLD; LONG_PRESS_HOLD; LONG_PRESS_HOLD]) ∧
    state h' = 5.
Proof. apply (button_long_press demo_button 3 idle_demo). Defined.

Lemma button_glitch_free_witness :
  ∃ h', button_run [1; 1; 0; 1; 1; 1; 1; 1; 0; 0] demo_button = (h', []) ∧ idle h' ∧ active_level h' = 1.
Proof.
  apply (button_glitch_free demo_button [(2, 0); (5, 1)]%nat idle_demo). repeat constructor; simpl; lia.
Defined.

Definition demo_keys : keys := mk_keys {[ 3%nat := demo_button; 4%nat := demo_button ]} (Some 3%nat).

Lemma kwf_demo : kwf demo_keys [3%nat].
Proof. constructor; [|apply NoDup_singleton]. split; [done|]. exists None. done. Qed.

Lemma button_list_ops_witness :
  button_start 3 demo_keys = Done (-1, demo_keys) ∧
  ∃ k', button_start 4 demo_keys = Done (0, k') ∧ kwf k' [4; 3]%nat.
Proof.
  split.
  - apply (proj1 (button_list_ops demo_keys [3%nat] 3 demo_button kwf_demo eq_refl)). set_solver.
  - destruct (proj1 (proj2 (button_list_ops demo_keys [3%nat] 4 demo_button kwf_demo eq_refl)))
      as (k' & E' & W & _); [set_solver|]. by exists k'.
Defined.

Lemma button_ticks_ok_witness :
  ∃ k', button_ticks (λ _, 1) demo_keys = Done ([], k') ∧ kwf k' [3%nat].
Proof.
  destruct (button_ticks_ok (λ _, 1) demo_keys [3%nat] kwf_demo) as (k' & E' & W & _).
  exists k'. split; [exact E'|exact W].
Defined.
End Button.
