(* ===== verification/EventBus.v ===== *)
(** * The event bus: components/bk_event/event.c

    Modules register callbacks for an event id of a module, or for all of its
    events ([EVENT_ID_ALL]).  The registry is a list of module nodes, each with a
    list of event nodes and a list of module-wide callbacks; it is owned by one
    task that takes messages off a queue.  Clients send REGISTER and UNREGISTER
    messages that live on their own stack and wait for the answer, and POST
    messages that are allocated and freed by the task.

    Modelled: every operation of the file but the compiled-out dump
    ([EVENT_DEBUG] is 0).  The heap is the number of blocks that [os_zalloc] has
    handed out; the outcome of the n-th allocation is a parameter, as are the
    results of the RTOS calls.  Messages live in a store indexed by address, the
    queue holds addresses, and a callback invocation is an entry of a trace. *)
From S2P Require Import Prelude.
Local Open Scope Z_scope.

Module EventBus.

(** ** Data, event.h *)
Definition EVENT_MOD_COUNT : Z := 3.
Definition EVENT_ID_ALL : Z := -1.
Definition BK_ERR_EVENT_BASE : Z := -0x1b00.
Definition BK_ERR_EVENT_MOD_OR_ID : Z := BK_ERR_EVENT_BASE - 3.
Definition BK_ERR_EVENT_CB_EXIST : Z := BK_ERR_EVENT_BASE - 4.
Definition BK_ERR_EVENT_NO_CB : Z := BK_ERR_EVENT_BASE - 5.
Definition BK_ERR_EVENT_CREATE_QUEUE : Z := BK_ERR_EVENT_BASE - 6.
Definition BK_ERR_EVENT_CREATE_TASK : Z := BK_ERR_EVENT_BASE - 8.
Definition BK_ERR_EVENT_INIT_SEM : Z := BK_ERR_EVENT_BASE - 10.
Definition BK_ERR_EVENT_NOT_INIT : Z := BK_ERR_EVENT_BASE - 11.
Definition BK_ERR_EVENT_POST_QUEUE : Z := BK_ERR_EVENT_BASE - 12.
Definition BK_ERR_EVENT_UNKNOWN_MSG : Z := BK_ERR_EVENT_BASE - 13.

Record event_cb_node_t := mk_cb { event_cb : Z; event_cb_arg : Z }.
Record event_node_t := mk_node { event_id : Z; ev_cb_list : list event_cb_node_t }.
Record event_module_node_t := mk_module {
  event_module_id : Z;
  event_node_list : list event_node_t;
  cb_list : list event_cb_node_t }.

(** [event_data]: the copied payload, [None] for the NULL pointer. *)
Record event_info_t := mk_info {
  info_module_id : Z; info_event_id : Z; event_data : option (list Z) }.
Record event_register_info_t := mk_reg {
  reg_module_id : Z; reg_event_id : Z; reg_cb : Z; reg_cb_arg : Z }.

Inductive msg_body :=
| EVENT_MSG_REGISTER (r : event_register_info_t)
| EVENT_MSG_UNREGISTER (r : event_register_info_t)
| EVENT_MSG_DEINIT
| EVENT_MSG_POST (i : event_info_t).

(** [signalled]: the count of the binary semaphore [sync_msg_sem]. *)
Record event_msg_t := mk_msg {
  msg : msg_body; is_sync_msg : bool; sync_msg_ret : Z; signalled : bool }.

(** One callback invocation: the callback, its argument, module, id and data. *)
Record call := mk_call {
  c_cb : Z; c_arg : Z; c_module : Z; c_event : Z; c_data : option (list Z) }.

(** The allocator: how many times it was called, how many blocks are live. *)
Record heap := mk_heap { nalloc : nat; live : Z }.

Record bus := mk_bus {
  s_event_inited : bool;
  s_event_queue : option (list nat);
  s_event_task : bool;
  s_event_module_list : list event_module_node_t;
  bheap : heap;
  msgs : gmap nat event_msg_t;
  trace : list call }.

#[export] Instance event_cb_node_eq : EqDecision event_cb_node_t.
Proof. solve_decision. Defined.
#[export] Instance event_node_eq : EqDecision event_node_t.
Proof. solve_decision. Defined.
#[export] Instance call_eq : EqDecision call.
Proof. solve_decision. Defined.

Definition event_is_invalid (event_module ev : Z) : bool :=
  if (EVENT_MOD_COUNT <=? event_module) || (event_module <? 0) then true
  else if negb (ev =? EVENT_ID_ALL) && (ev <? 0) then true
  else false.

(** ** The registry, under the outcomes [alloc_ok n] of the n-th allocation *)
Section Registry.
Context (alloc_ok : nat → bool).

Definition os_zalloc : M heap bool := λ h,
  let ok := alloc_ok (nalloc h) in
  Done (ok, mk_heap (S (nalloc h)) (if ok then live h + 1 else live h)).
Definition os_free : M heap unit := λ h, Done (tt, mk_heap (nalloc h) (live h - 1)).

Definition register_cb_to_cb_list (l : list event_cb_node_t) (r : event_register_info_t)
    : M heap (Z * list event_cb_node_t) :=
  if existsb (λ c, event_cb c =? reg_cb r) l then ret (BK_ERR_EVENT_CB_EXIST, l)
  else let* ok := os_zalloc in
       if ok then ret (BK_OK, l ++ [mk_cb (reg_cb r) (reg_cb_arg r)])
       else ret (BK_ERR_NO_MEM, l).

Fixpoint register_cb_to_event_node_list (l : list event_node_t) (r : event_register_info_t)
    : M heap (Z * list event_node_t) :=
  match l with
  | n :: l' =>
      if event_id n =? reg_event_id r then
        let* (rc, cbs) := register_cb_to_cb_list (ev_cb_list n) r in
        ret (rc, mk_node (event_id n) cbs :: l')
      else let* (rc, l'') := register_cb_to_event_node_list l' r in ret (rc, n :: l'')
  | [] =>
      let* ok := os_zalloc in
      if negb ok then ret (BK_ERR_NO_MEM, [])
      else let* (rc, cbs) := register_cb_to_cb_list [] r in
           if negb (rc =? BK_OK) then os_free ;;; ret (rc, [])
           else ret (BK_OK, [mk_node (reg_event_id r) cbs])
  end.

Definition register_cb_to_module_node (m : event_module_node_t) (r : event_register_info_t)
    : M heap (Z * event_module_node_t) :=
  if reg_event_id r =? EVENT_ID_ALL then
    let* (rc, cbs) := register_cb_to_cb_list (cb_list m) r in
    ret (rc, mk_module (event_module_id m) (event_node_list m) cbs)
  else
    let* (rc, ns) := register_cb_to_event_node_list (event_node_list m) r in
    ret (rc, mk_module (event_module_id m) ns (cb_list m)).

Fixpoint register_cb (l : list event_module_node_t) (r : event_register_info_t)
    : M heap (Z * list event_module_node_t) :=
  match l with
  | m :: l' =>
      if reg_module_id r =? event_module_id m then
        let* (rc, m') := register_cb_to_module_node m r in ret (rc, m' :: l')
      else let* (rc, l'') := register_cb l' r in ret (rc, m :: l'')
  | [] =>
      let* ok := os_zalloc in
      if negb ok then ret (BK_ERR_NO_MEM, [])
      else let* (rc, m') := register_cb_to_module_node (mk_module (reg_module_id r) [] []) r in
           if negb (rc =? BK_OK) then os_free ;;; ret (rc, [])
           else ret (BK_OK, [m'])
  end.

Fixpoint unregister_cb_from_cb_list (l : list event_cb_node_t) (r : event_register_info_t)
    : M heap (Z * list event_cb_node_t) :=
  match l with
  | c :: l' =>
      if event_cb c =? reg_cb r then os_free ;;; ret (BK_OK, l')
      else let* (rc, l'') := unregister_cb_from_cb_list l' r in ret (rc, c :: l'')
  | [] => ret (BK_ERR_EVENT_NO_CB, [])
  end.

Definition list_empty {A} (l : list A) : bool := match l with [] => true | _ => false end.

Fixpoint unregister_cb_from_event_node_list (l : list event_node_t) (r : event_register_info_t)
    : M heap (Z * list event_node_t) :=
  match l with
  | n :: l' =>
      if event_id n =? reg_event_id r then
        let* (rc, cbs) := unregister_cb_from_cb_list (ev_cb_list n) r in
        if list_empty cbs then os_free ;;; ret (rc, l')
        else ret (rc, mk_node (event_id n) cbs :: l')
      else let* (rc, l'') := unregister_cb_from_event_node_list l' r in ret (rc, n :: l'')
  | [] => ret (BK_ERR_EVENT_NO_CB, [])
  end.

Definition unregister_cb_from_module_node (m : event_module_node_t) (r : event_register_info_t)
    : M heap (Z * event_module_node_t) :=
  if reg_event_id r =? EVENT_ID_ALL then
    let* (rc, cbs) := unregister_cb_from_cb_list (cb_list m) r in
    ret (rc, mk_module (event_module_id m) (event_node_list m) cbs)
  else
    let* (rc, ns) := unregister_cb_from_event_node_list (event_node_list m) r in
    ret (rc, mk_module (event_module_id m) ns (cb_list m)).

Fixpoint unregister_cb (l : list event_module_node_t) (r : event_register_info_t)
    : M heap (Z * list event_module_node_t) :=
  match l with
  | m :: l' =>
      if reg_module_id r =? event_module_id m then
        let* (rc, m') := unregister_cb_from_module_node m r in
        if list_empty (cb_list m') && list_empty (event_node_list m')
        then os_free ;;; ret (rc, l')
        else ret (rc, m' :: l')
      else let* (rc, l'') := unregister_cb l' r in ret (rc, m :: l'')
  | [] => ret (BK_ERR_EVENT_NO_CB, [])
  end.

(** Tear-down: every node is unlinked and freed. *)
Fixpoint event_deinit_cb_list (l : list event_cb_node_t) : M heap unit :=
  match l with [] => ret tt | _ :: l' => os_free ;;; event_deinit_cb_list l' end.
Fixpoint deinit_event_nodes (l : list event_node_t) : M heap unit :=
  match l with
  | [] => ret tt
  | n :: l' => event_deinit_cb_list (ev_cb_list n) ;;; os_free ;;; deinit_event_nodes l'
  end.
Definition event_deinit_module_node (m : event_module_node_t) : M heap unit :=
  event_deinit_cb_list (cb_list m) ;;; deinit_event_nodes (event_node_list m) ;;; os_free.
Fixpoint event_deinit (l : list event_module_node_t) : M heap (list event_module_node_t) :=
  match l with
  | [] => ret []
  | m :: l' => event_deinit_module_node m ;;; event_deinit l'
  end.

(** Dispatch: the invocations made, in order, and the payload freed. *)
Definition event_post_to_cb_list (l : list event_cb_node_t) (i : event_info_t) : list call :=
  map (λ c, mk_call (event_cb c) (event_cb_arg c) (info_module_id i) (info_event_id i)
              (event_data i)) l.

Fixpoint post_to_event_nodes (l : list event_node_t) (i : event_info_t) : list call :=
  match l with
  | [] => []
  | n :: l' => if event_id n =? info_event_id i then event_post_to_cb_list (ev_cb_list n) i
               else post_to_event_nodes l' i
  end.

Definition event_post_to_module (m : event_module_node_t) (i : event_info_t) : list call :=
  event_post_to_cb_list (cb_list m) i ++ post_to_event_nodes (event_node_list m) i.

Definition free_data (i : event_info_t) : M heap unit :=
  match event_data i with Some _ => os_free | None => ret tt end.

Fixpoint post_loop (l : list event_module_node_t) (i : event_info_t) : M heap (Z * list call) :=
  match l with
  | m :: l' =>
      if event_module_id m =? info_module_id i then
        free_data i ;;; ret (BK_OK, event_post_to_module m i)
      else post_loop l' i
  | [] => free_data i ;;; ret (BK_OK, [])
  end.

Definition event_post (l : list event_module_node_t) (i : event_info_t)
    : M heap (Z * list call) :=
  if event_is_invalid (info_module_id i) (info_event_id i)
  then ret (BK_ERR_EVENT_MOD_OR_ID, [])
  else post_loop l i.

(** ** The task *)
Definition with_heap {A} (c : M heap A) : M bus A := λ b,
  match c (bheap b) with
  | Done (a, h) => Done (a, mk_bus (s_event_inited b) (s_event_queue b) (s_event_task b)
                              (s_event_module_list b) h (msgs b) (trace b))
  | Trap t => Trap t
  end.
Definition set_modules (l : list event_module_node_t) (b : bus) : bus :=
  mk_bus (s_event_inited b) (s_event_queue b) (s_event_task b) l (bheap b) (msgs b) (trace b).
Definition set_queue (q : option (list nat)) (b : bus) : bus :=
  mk_bus (s_event_inited b) q (s_event_task b) (s_event_module_list b) (bheap b) (msgs b) (trace b).
Definition set_task (t : bool) (b : bus) : bus :=
  mk_bus (s_event_inited b) (s_event_queue b) t (s_event_module_list b) (bheap b) (msgs b) (trace b).
Definition set_inited (i : bool) (b : bus) : bus :=
  mk_bus i (s_event_queue b) (s_event_task b) (s_event_module_list b) (bheap b) (msgs b) (trace b).
Definition set_msgs (m : gmap nat event_msg_t) (b : bus) : bus :=
  mk_bus (s_event_inited b) (s_event_queue b) (s_event_task b) (s_event_module_list b) (bheap b) m (trace b).
Definition log_calls (cs : list call) (b : bus) : bus :=
  mk_bus (s_event_inited b) (s_event_queue b) (s_event_task b) (s_event_module_list b) (bheap b) (msgs b) (trace b ++ cs).

Definition event_task_init : M bus unit := modify (set_modules []).

Definition event_task_handle_msg (m : msg_body) : M bus Z :=
  let* l := gets s_event_module_list in
  match m with
  | EVENT_MSG_REGISTER r =>
      let* (rc, l') := with_heap (register_cb l r) in modify (set_modules l') ;;; ret rc
  | EVENT_MSG_UNREGISTER r =>
      let* (rc, l') := with_heap (unregister_cb l r) in modify (set_modules l') ;;; ret rc
  | EVENT_MSG_POST i =>
      let* (rc, cs) := with_heap (event_post l i) in modify (log_calls cs) ;;; ret rc
  | EVENT_MSG_DEINIT => ret BK_ERR_EVENT_UNKNOWN_MSG
  end.

Definition event_task_deinit : M bus unit :=
  let* l := gets s_event_module_list in
  let* l' := with_heap (event_deinit l) in
  modify (set_modules l') ;;; modify (set_queue None) ;;; modify (set_task false).

(** One round of the task's loop; [false] when the loop is left.  Popping from
    an empty queue blocks: the round is taken when there is a message. *)
Definition event_task_round : M bus bool :=
  let* q := gets s_event_queue in
  match q with
  | Some (a :: q') =>
      modify (set_queue (Some q')) ;;;
      let* ms := gets msgs in
      match ms !! a with
      | None => trapM Fault
      | Some m =>
          match msg m with
          | EVENT_MSG_DEINIT => event_task_deinit ;;; ret false
          | body =>
              let* event_ret := event_task_handle_msg body in
              if is_sync_msg m then
                modify (set_msgs (<[a := mk_msg body true event_ret true]> ms)) ;;; ret true
              else with_heap os_free ;;; modify (set_msgs (delete a ms)) ;;; ret true
          end
      end
  | _ => trapM Hang
  end.

(** [n] rounds of the loop, or fewer when it is left. *)
Fixpoint event_task_loop (n : nat) : M bus bool :=
  match n with
  | O => ret true
  | S n' => let* c := event_task_round in if c then event_task_loop n' else ret false
  end.

(** ** The client side

    What the RTOS answers to the calls an operation makes. *)
Record rtos := mk_rtos {
  rtos_init_queue : bool; rtos_create_thread : bool;
  rtos_init_semaphore : bool; rtos_push_to_queue : bool }.
Context (os : rtos).

(** An API call either returns, or waits on the semaphore of message [a]. *)
Inductive sent := Ret (rc : Z) | Wait (a : nat).

Definition event_send_msg_to_event_task (a : nat) : M bus sent :=
  let* ms := gets msgs in
  match ms !! a with
  | None => trapM Fault
  | Some m =>
      if is_sync_msg m && negb (rtos_init_semaphore os) then ret (Ret BK_ERR_EVENT_INIT_SEM)
      else
        let* q := gets s_event_queue in
        match q with
        | Some q' =>
            if rtos_push_to_queue os then
              modify (set_queue (Some (q' ++ [a]))) ;;;
              ret (if is_sync_msg m then Wait a else Ret BK_OK)
            else ret (Ret BK_ERR_EVENT_POST_QUEUE)
        | None => ret (Ret BK_ERR_EVENT_POST_QUEUE)
        end
  end.

(** The rest of a synchronous call, once the task has signalled the semaphore:
    the answer is read and the message leaves scope with the client's frame. *)
Definition sync_return (a : nat) : M bus Z :=
  let* ms := gets msgs in
  match ms !! a with
  | Some m => if signalled m then modify (set_msgs (delete a ms)) ;;; ret (sync_msg_ret m)
              else trapM Hang
  | None => trapM Fault
  end.

Definition bk_event_init : M bus Z :=
  let* i := gets s_event_inited in
  if i then ret BK_OK
  else if negb (rtos_init_queue os) then ret BK_ERR_EVENT_CREATE_QUEUE
  else modify (set_queue (Some [])) ;;;
       if negb (rtos_create_thread os) then
         modify (set_queue None) ;;; ret BK_ERR_EVENT_CREATE_TASK
       else modify (set_task true) ;;; event_task_init ;;;
            modify (set_inited true) ;;; ret BK_OK.

(** A message object at a fresh address. *)
Definition new_msg (m : event_msg_t) : M bus nat :=
  let* ms := gets msgs in
  let a := fresh (dom ms) in modify (set_msgs (<[a := m]> ms)) ;;; ret a.
Definition drop_msg (a : nat) : M bus unit :=
  let* ms := gets msgs in modify (set_msgs (delete a ms)).

Definition bk_event_deinit : M bus Z :=
  let* i := gets s_event_inited in
  if negb i then ret BK_OK
  else modify (set_inited false) ;;;
       let* ok := with_heap os_zalloc in
       if negb ok then ret BK_ERR_NO_MEM
       else let* a := new_msg (mk_msg EVENT_MSG_DEINIT false 0 false) in
            let* r := event_send_msg_to_event_task a in
            match r with
            | Ret rc => if negb (rc =? BK_OK)
                        then with_heap os_free ;;; drop_msg a ;;; ret BK_FAIL
                        else ret BK_OK
            | Wait _ => ret BK_OK
            end.

(** The common part of the two synchronous calls; the message is a local
    variable, which disappears when the call returns early. *)
Definition send_sync (body : msg_body) : M bus sent :=
  let* a := new_msg (mk_msg body true BK_OK false) in
  let* r := event_send_msg_to_event_task a in
  match r with Ret _ => drop_msg a ;;; ret r | Wait _ => ret r end.

Definition bk_event_register_cb (event_module ev cb arg : Z) : M bus sent :=
  let* i := gets s_event_inited in
  if negb i then ret (Ret BK_ERR_EVENT_NOT_INIT)
  else if event_is_invalid event_module ev then ret (Ret BK_ERR_EVENT_MOD_OR_ID)
  else send_sync (EVENT_MSG_REGISTER (mk_reg event_module ev cb arg)).

Definition bk_event_unregister_cb (event_module ev cb : Z) : M bus sent :=
  let* i := gets s_event_inited in
  if negb i then ret (Ret BK_ERR_EVENT_NOT_INIT)
  else if event_is_invalid event_module ev then ret (Ret BK_ERR_EVENT_MOD_OR_ID)
  else send_sync (EVENT_MSG_UNREGISTER (mk_reg event_module ev cb 0)).

Definition bk_event_post (event_module ev : Z) (data : list Z) : M bus Z :=
  let* i := gets s_event_inited in
  if negb i then ret BK_ERR_EVENT_NOT_INIT
  else if event_is_invalid event_module ev then ret BK_ERR_EVENT_MOD_OR_ID
  else
    let* ok := with_heap os_zalloc in
    if negb ok then ret BK_ERR_NO_MEM
    else
      let size := Z.of_nat (length data) in
      let* ok2 := (if 0 <? size then with_heap os_zalloc else ret true) in
      if negb ok2 then with_heap os_free ;;; ret BK_ERR_NO_MEM
      else
        let copy := if 0 <? size then Some data else None in
        let* a := new_msg (mk_msg (EVENT_MSG_POST (mk_info event_module ev copy)) false 0 false) in
        let* r := event_send_msg_to_event_task a in
        match r with
        | Ret rc =>
            if negb (rc =? BK_OK) then
              match copy with Some _ => with_heap os_free | None => ret tt end ;;;
              with_heap os_free ;;; drop_msg a ;;; ret rc
            else ret rc
        | Wait _ => ret BK_OK
        end.

End Registry.


(** ** What the registry means: subscribers per module and event id *)
Fixpoint ev_subs (l : list event_node_t) (e : Z) : list event_cb_node_t :=
  match l with
  | [] => []
  | n :: l' => if event_id n =? e then ev_cb_list n else ev_subs l' e
  end.
Definition mod_subs (m : event_module_node_t) (e : Z) : list event_cb_node_t :=
  if e =? EVENT_ID_ALL then cb_list m else ev_subs (event_node_list m) e.
Fixpoint subs (l : list event_module_node_t) (m e : Z) : list event_cb_node_t :=
  match l with
  | [] => []
  | n :: l' => if event_module_id n =? m then mod_subs n e else subs l' m e
  end.

(** Heap blocks a registry occupies. *)
Definition zlen {A} (l : list A) : Z := Z.of_nat (length l).
Fixpoint ev_blocks (l : list event_node_t) : Z :=
  match l with [] => 0 | n :: l' => 1 + zlen (ev_cb_list n) + ev_blocks l' end.
Definition mod_blocks (m : event_module_node_t) : Z :=
  1 + zlen (cb_list m) + ev_blocks (event_node_list m).
Fixpoint blocks (l : list event_module_node_t) : Z :=
  match l with [] => 0 | m :: l' => mod_blocks m + blocks l' end.

(** Well-formed registries: one node per module and per event id, a callback at
    most once per list, no empty node, only event ids at event nodes. *)
Definition cbs_wf (l : list event_cb_node_t) : Prop := NoDup (event_cb <$> l).
Definition node_wf (n : event_node_t) : Prop :=
  cbs_wf (ev_cb_list n) ∧ ev_cb_list n ≠ [] ∧ event_id n ≠ EVENT_ID_ALL.
Definition nodes_wf (l : list event_node_t) : Prop :=
  NoDup (event_id <$> l) ∧ Forall node_wf l.
Definition mod_wf (m : event_module_node_t) : Prop :=
  cbs_wf (cb_list m) ∧ nodes_wf (event_node_list m) ∧
  (cb_list m ≠ [] ∨ event_node_list m ≠ []).
Definition reg_wf (l : list event_module_node_t) : Prop :=
  NoDup (event_module_id <$> l) ∧ Forall mod_wf l.

(** The abstract effect of a registration on one subscriber list. *)
Definition reg_eff (r : event_register_info_t) (s : list event_cb_node_t) (rc : Z)
    (s' : list event_cb_node_t) : Prop :=
  (rc = BK_OK ∧ (reg_cb r ∉ event_cb <$> s) ∧ s' = s ++ [mk_cb (reg_cb r) (reg_cb_arg r)]) ∨
  (rc = BK_ERR_EVENT_CB_EXIST ∧ (reg_cb r ∈ event_cb <$> s) ∧ s' = s) ∨
  (rc = BK_ERR_NO_MEM ∧ (reg_cb r ∉ event_cb <$> s) ∧ s' = s).

Definition unreg_eff (r : event_register_info_t) (s : list event_cb_node_t) (rc : Z)
    (s' : list event_cb_node_t) : Prop :=
  (rc = BK_OK ∧ ∃ s1 a s2, s = s1 ++ mk_cb (reg_cb r) a :: s2 ∧
                           (reg_cb r ∉ event_cb <$> s1) ∧ s' = s1 ++ s2) ∨
  (rc = BK_ERR_EVENT_NO_CB ∧ (reg_cb r ∉ event_cb <$> s) ∧ s' = s).

Section Proofs.
Context (alloc_ok : nat → bool).

(** [reg_post]: result, subscribers before and after, blocks taken. *)
Definition reg_post (r : event_register_info_t) (s : list event_cb_node_t) (rc : Z)
    (s' : list event_cb_node_t) (d : Z) (h h' : heap) : Prop :=
  reg_eff r s rc s' ∧ live h' = live h + d ∧
  ((∀ n, alloc_ok n = true) → rc ≠ BK_ERR_NO_MEM).

Lemma existsb_cb l c : existsb (λ x, event_cb x =? c) l = bool_decide (c ∈ event_cb <$> l).
Proof.
  induction l as [|x l IH]; simpl; [done|]. rewrite IH.
  destruct (Z.eqb_spec (event_cb x) c) as [<-|E].
  - simpl. symmetry. apply bool_decide_eq_true. rewrite elem_of_cons. by left.
  - simpl. apply bool_decide_ext. rewrite elem_of_cons.
    split; [by right|]. intros [->|?]; done.
Qed.

Lemma reg_cb_list_spec l r h : cbs_wf l →
  ∃ rc l' h', register_cb_to_cb_list alloc_ok l r h = Done ((rc, l'), h') ∧
    reg_post r l rc l' (zlen l' - zlen l) h h' ∧ cbs_wf l' ∧ (rc ≠ BK_OK → l' = l).
Proof.
  intros W. unfold register_cb_to_cb_list. rewrite existsb_cb.
  case_bool_decide as E.
  - eexists _, _, _. split; [done|]. split; [|done].
    split; [by right; left|]. split; [lia|done].
  - unfold bind, os_zalloc, ret. destruct (alloc_ok (nalloc h)) eqn:A.
    + eexists _, _, _. split; [done|]. split; [|split].
      * split; [by left|]. unfold zlen. rewrite length_app. simpl. split; [lia|done].
      * unfold cbs_wf. rewrite fmap_app. simpl. apply NoDup_app.
        split; [done|]. split; [|apply NoDup_singleton].
        intros x Hx Hy%list_elem_of_singleton. by subst.
      * done.
    + eexists _, _, _. split; [done|]. split; [|done].
      split; [by right; right|]. simpl. split; [lia|]. intros AA. by rewrite AA in A.
Qed.

Lemma reg_eff_nil r rc s' : reg_eff r [] rc s' → rc ≠ BK_OK → rc = BK_ERR_NO_MEM ∧ s' = [].
Proof.
  intros [(?&?&?)|[(?&H&?)|(?&?&?)]] N; [done| |done]. by apply not_elem_of_nil in H.
Qed.
Lemma reg_eff_ok r s s' : reg_eff r s BK_OK s' →
  (reg_cb r ∉ event_cb <$> s) ∧ s' = s ++ [mk_cb (reg_cb r) (reg_cb_arg r)].
Proof. intros [(_&?&?)|[([=]&_)|([=]&_)]]. done. Qed.

Lemma nodes_wf_cons n l : nodes_wf (n :: l) ↔
  (event_id n ∉ event_id <$> l) ∧ node_wf n ∧ nodes_wf l.
Proof. unfold nodes_wf. simpl. rewrite NoDup_cons, Forall_cons. tauto. Qed.
Lemma nodes_wf_nil : nodes_wf [].
Proof. split; constructor. Qed.
Lemma reg_wf_cons n l : reg_wf (n :: l) ↔
  (event_module_id n ∉ event_module_id <$> l) ∧ mod_wf n ∧ reg_wf l.
Proof. unfold reg_wf. simpl. rewrite NoDup_cons, Forall_cons. tauto. Qed.

Lemma ev_subs_absent l e : e ∉ event_id <$> l → ev_subs l e = [].
Proof.
  induction l as [|n l IH]; simpl; [done|]. rewrite not_elem_of_cons. intros [? ?].
  rewrite (proj2 (Z.eqb_neq _ _)) by done. auto.
Qed.
Lemma subs_absent l m e : m ∉ event_module_id <$> l → subs l m e = [].
Proof.
  induction l as [|n l IH]; simpl; [done|]. rewrite not_elem_of_cons. intros [? ?].
  rewrite (proj2 (Z.eqb_neq _ _)) by done. auto.
Qed.

(** Registration at an event id. *)
Lemma reg_nodes_spec l r h : nodes_wf l → reg_event_id r ≠ EVENT_ID_ALL →
  ∃ rc l' h', register_cb_to_event_node_list alloc_ok l r h = Done ((rc, l'), h') ∧
    reg_post r (ev_subs l (reg_event_id r)) rc (ev_subs l' (reg_event_id r))
      (ev_blocks l' - ev_blocks l) h h' ∧
    nodes_wf l' ∧ (rc ≠ BK_OK → l' = l) ∧ (rc = BK_OK → l' ≠ []) ∧
    (∀ e, e ≠ reg_event_id r → ev_subs l' e = ev_subs l e) ∧
    (∀ e, e ∈ event_id <$> l' → e = reg_event_id r ∨ e ∈ event_id <$> l).
Proof.
  intros W NA. revert h. induction l as [|n l IH]; intros h; simpl.
  - unfold bind, os_zalloc. destruct (alloc_ok (nalloc h)) eqn:A; simpl.
    + destruct (reg_cb_list_spec [] r (mk_heap (S (nalloc h)) (live h + 1)))
        as (rc & l' & h' & -> & (Eff & Lv & NM) & Wl & _); [apply NoDup_nil_2|].
      destruct (Z.eqb_spec rc BK_OK) as [->|E]; simpl.
      * destruct (reg_eff_ok _ _ _ Eff) as [Hn El].
        eexists _, _, _. split; [done|]. simpl in *. rewrite Z.eqb_refl. subst l'.
        split; [|split; [|split; [done|split; [done|]]]].
        -- split; [exact Eff|]. split; [|done]. unfold zlen in *; simpl in *; lia.
        -- split; simpl; [apply NoDup_singleton|]. apply Forall_singleton. done.
        -- split; [|set_solver]. intros e He. by rewrite (proj2 (Z.eqb_neq _ _)).
      * destruct (reg_eff_nil _ _ _ Eff E) as [-> ->].
        eexists _, _, _. split; [done|]. simpl in *.
        split; [|split_and!; eauto using nodes_wf_nil; done].
        split; [done|]. unfold zlen in *; simpl in *. split; [lia|done].
    + eexists _, _, _. split; [done|]. split; [|split_and!; eauto using nodes_wf_nil; done].
      simpl. split; [right; right; split_and!; [done|apply not_elem_of_nil|done]|].
      simpl. split; [lia|]. intros AA. by rewrite AA in A.
  - apply nodes_wf_cons in W as (Hn & (Wc & Ne & Na) & W).
    destruct (Z.eqb_spec (event_id n) (reg_event_id r)) as [E|E]; simpl.
    + destruct (reg_cb_list_spec (ev_cb_list n) r h)
        as (rc & l' & h' & Hr & (Eff & Lv & NM) & Wl & Un); [done|].
      unfold bind. rewrite Hr. eexists _, _, _. split; [done|]. simpl.
      rewrite E, Z.eqb_refl. split; [|split; [|split; [|split; [done|]]]].
      * split; [done|]. split; [lia|done].
      * apply nodes_wf_cons. simpl. rewrite <-E. split; [done|]. split; [|done].
        split; [done|]. split; [|done]. simpl.
        destruct Eff as [(_&_&->)|[(_&_&->)|(_&_&->)]]; [by destruct (ev_cb_list n)|done|done].
      * intros N. rewrite (Un N), <-E. by destruct n.
      * split; [|set_solver]. intros e He. by rewrite (proj2 (Z.eqb_neq (reg_event_id r) e)) by done.
    + destruct (IH W h) as (rc & l' & h' & Hr & (Eff & Lv & NM) & W' & Un & Nn & Fr & Dm).
      unfold bind. rewrite Hr. eexists _, _, _. split; [done|]. simpl.
      rewrite (proj2 (Z.eqb_neq _ _)) by done.
      split; [|split; [|split; [|split; [done|]]]].
      * split; [done|]. split; [lia|done].
      * apply nodes_wf_cons. split; [|done]. intros [?|?]%Dm; done.
      * intros N. by rewrite Un.
      * split; [|set_solver]. intros e He. by destruct (_ =? e); [|apply Fr].
Qed.

(** The part of [mod_wf] a freshly initialised module node already has. *)
Definition mod_wf0 (m : event_module_node_t) : Prop :=
  cbs_wf (cb_list m) ∧ nodes_wf (event_node_list m).

Lemma reg_module_spec m r h : mod_wf0 m →
  ∃ rc m' h', register_cb_to_module_node alloc_ok m r h = Done ((rc, m'), h') ∧
    reg_post r (mod_subs m (reg_event_id r)) rc (mod_subs m' (reg_event_id r))
      (mod_blocks m' - mod_blocks m) h h' ∧
    mod_wf0 m' ∧ event_module_id m' = event_module_id m ∧ (rc ≠ BK_OK → m' = m) ∧
    (rc = BK_OK → mod_wf m') ∧
    (∀ e, e ≠ reg_event_id r → mod_subs m' e = mod_subs m e).
Proof.
  intros [Wc Wn]. unfold register_cb_to_module_node, bind.
  destruct (Z.eqb_spec (reg_event_id r) EVENT_ID_ALL) as [E|E].
  - destruct (reg_cb_list_spec (cb_list m) r h Wc) as (rc & l' & h' & -> & (Eff & Lv & NM) & Wl & Un).
    eexists _, _, _. split; [done|]. unfold mod_subs, mod_blocks, mod_wf0, mod_wf. rewrite E. simpl.
    split_and!; [| | |done| | |].
    + split; [done|]. split; [lia|done].
    + done.
    + done.
    + intros N. rewrite (Un N). by destruct m.
    + intros ->. split; [done|]. split; [done|]. left.
      destruct (reg_eff_ok _ _ _ Eff) as [_ ->]. by destruct (cb_list m).
    + intros e He. by rewrite (proj2 (Z.eqb_neq _ _)).
  - destruct (reg_nodes_spec (event_node_list m) r h Wn E)
      as (rc & l' & h' & -> & (Eff & Lv & NM) & Wl & Un & Nn & Fr & _).
    eexists _, _, _. split; [done|]. unfold mod_subs, mod_blocks, mod_wf0, mod_wf.
    rewrite (proj2 (Z.eqb_neq (reg_event_id r) EVENT_ID_ALL)) by done. simpl.
    split_and!; [| | |done| | |].
    + split; [done|]. split; [lia|done].
    + done.
    + done.
    + intros N. rewrite (Un N). by destruct m.
    + intros ->. auto.
    + intros e He. destruct (e =? EVENT_ID_ALL); auto.
Qed.

Lemma mod_wf_0 m : mod_wf m → mod_wf0 m.
Proof. intros (?&?&_). done. Qed.
Lemma mod_subs_empty i e : mod_subs (mk_module i [] []) e = [].
Proof. unfold mod_subs. by destruct (_ =? _). Qed.
Lemma reg_wf_nil : reg_wf [].
Proof. split; constructor. Qed.

Lemma register_cb_spec l r h : reg_wf l →
  ∃ rc l' h', register_cb alloc_ok l r h = Done ((rc, l'), h') ∧
    reg_post r (subs l (reg_module_id r) (reg_event_id r)) rc
      (subs l' (reg_module_id r) (reg_event_id r)) (blocks l' - blocks l) h h' ∧
    reg_wf l' ∧ (rc ≠ BK_OK → l' = l) ∧
    (∀ m e, (m, e) ≠ (reg_module_id r, reg_event_id r) → subs l' m e = subs l m e) ∧
    (∀ m, m ∈ event_module_id <$> l' → m = reg_module_id r ∨ m ∈ event_module_id <$> l).
Proof.
  intros W. revert h. induction l as [|n l IH]; intros h; simpl.
  - unfold bind, os_zalloc. destruct (alloc_ok (nalloc h)) eqn:A; simpl.
    + destruct (reg_module_spec (mk_module (reg_module_id r) [] []) r (mk_heap (S (nalloc h)) (live h + 1)))
        as (rc & m' & h' & -> & (Eff & Lv & NM) & W0 & Id & Un & Wm & Fr).
      { split; [apply NoDup_nil_2|apply nodes_wf_nil]. }
      rewrite mod_subs_empty in Eff. change (mod_blocks (mk_module (reg_module_id r) [] [])) with 1 in Lv.
      simpl in Id, Lv. destruct (Z.eqb_spec rc BK_OK) as [->|E]; simpl.
      * eexists _, _, _. split; [done|]. simpl. rewrite Id, Z.eqb_refl.
        split_and!; [split; [done|]; split; [lia|done]| |done| |set_solver].
        -- apply reg_wf_cons. split_and!; [set_solver|auto|apply reg_wf_nil].
        -- intros m e He. destruct (Z.eqb_spec (reg_module_id r) m) as [Em|]; [|done].
           rewrite Fr by congruence. apply mod_subs_empty.
      * eexists _, _, _. split; [done|]. rewrite (Un E), mod_subs_empty in Eff.
        rewrite (Un E) in Lv. change (mod_blocks (mk_module (reg_module_id r) [] [])) with 1 in Lv.
        simpl. split_and!; [split; [done|]; split; [simpl; lia|done]|apply reg_wf_nil|done|done|by right].
    + eexists _, _, _. split; [done|]. simpl.
      split_and!; [|apply reg_wf_nil|done|done|by right].
      split; [right; right; split_and!; [done|apply not_elem_of_nil|done]|].
      simpl. split; [lia|]. intros AA. by rewrite AA in A.
  - apply reg_wf_cons in W as (Hn & Wn & W).
    destruct (Z.eqb_spec (reg_module_id r) (event_module_id n)) as [E|E]; simpl; unfold bind.
    + destruct (reg_module_spec n r h (mod_wf_0 _ Wn))
        as (rc & m' & h' & -> & (Eff & Lv & NM) & W0 & Id & Un & Wm & Fr).
      eexists _, _, _. split; [done|]. simpl. rewrite Id, <-E, Z.eqb_refl.
      split_and!; [split; [done|]; split; [lia|done]| | | |set_solver].
      * apply reg_wf_cons. rewrite Id. split_and!; [done| |done].
        destruct (decide (rc = BK_OK)); [auto|by rewrite Un].
      * intros N. by rewrite Un.
      * intros m e He. destruct (Z.eqb_spec (reg_module_id r) m) as [Em|]; [|done].
        apply Fr. congruence.
    + destruct (IH W h) as (rc & l' & h' & -> & (Eff & Lv & NM) & W' & Un & Fr & Dm).
      eexists _, _, _. split; [done|]. simpl. rewrite (proj2 (Z.eqb_neq (event_module_id n) _)) by done.
      split_and!; [split; [done|]; split; [lia|done]| | | |set_solver].
      * apply reg_wf_cons. split_and!; [|done|done]. intros [?|?]%Dm; congruence.
      * intros N. by rewrite Un.
      * intros m e He. destruct (_ =? m); auto.
Qed.

(** Unregistration. *)
Lemma unreg_cb_list_spec l r h : cbs_wf l →
  ∃ rc l', unregister_cb_from_cb_list l r h = Done ((rc, l'), mk_heap (nalloc h) (live h + (zlen l' - zlen l))) ∧
    unreg_eff r l rc l' ∧ cbs_wf l' ∧ (rc ≠ BK_OK → l' = l).
Proof.
  unfold zlen. intros W. induction l as [|c l IH]; simpl.
  - eexists _, _. split; [|split_and!; [|done|done]].
    + unfold ret. do 3 f_equal. destruct h; simpl; f_equal; lia.
    + right. split_and!; [done|apply not_elem_of_nil|done].
  - apply NoDup_cons in W as [Hc W].
    destruct (Z.eqb_spec (event_cb c) (reg_cb r)) as [E|E]; simpl.
    + eexists _, _. split; [|split_and!; [|done|done]].
      * unfold bind, os_free, ret. do 4 f_equal. lia.
      * left. split; [done|]. exists [], (event_cb_arg c), l. rewrite <-E.
        split_and!; [by destruct c|apply not_elem_of_nil|done].
    + destruct (IH W) as (rc & l' & Hr & Eff & W' & Un).
      unfold bind. rewrite Hr. eexists _, _. split; [|split_and!].
      * unfold ret. do 4 f_equal. simpl. lia.
      * destruct Eff as [(->&s1&a&s2&->&Hn&->)|(->&Hn&->)].
        -- left. split; [done|]. exists (c :: s1), a, s2. split_and!; [done| |done].
           simpl. rewrite not_elem_of_cons. done.
        -- right. split_and!; [done| |done]. simpl. rewrite not_elem_of_cons. done.
      * apply NoDup_cons. split; [|done].
        destruct Eff as [(_&s1&a&s2&->&_&->)|(_&_&->)]; [|done].
        intros (x & Hx & Hin)%list_elem_of_fmap. apply Hc, list_elem_of_fmap. exists x.
        split; [done|]. rewrite elem_of_app in *. rewrite elem_of_cons. tauto.
      * intros N. by rewrite Un.
Qed.

Lemma unreg_eff_nil r s rc : unreg_eff r s rc [] → s ≠ [] →
  rc = BK_OK ∧ ∃ a, s = [mk_cb (reg_cb r) a].
Proof.
  intros [(->&s1&a&s2&->&_&E)|(_&_&<-)] N; [|done]. symmetry in E.
  apply app_nil in E as [-> ->]. eauto.
Qed.

Lemma list_empty_spec {A} (l : list A) : list_empty l = true ↔ l = [].
Proof. by destruct l. Qed.

Lemma unreg_nodes_spec l r h : nodes_wf l → reg_event_id r ≠ EVENT_ID_ALL →
  ∃ rc l', unregister_cb_from_event_node_list l r h =
      Done ((rc, l'), mk_heap (nalloc h) (live h + (ev_blocks l' - ev_blocks l))) ∧
    unreg_eff r (ev_subs l (reg_event_id r)) rc (ev_subs l' (reg_event_id r)) ∧
    nodes_wf l' ∧ (rc ≠ BK_OK → l' = l) ∧
    (∀ e, e ≠ reg_event_id r → ev_subs l' e = ev_subs l e) ∧
    (∀ e, e ∈ event_id <$> l' → e ∈ event_id <$> l).
Proof.
  intros W NA. induction l as [|n l IH]; simpl.
  - eexists _, _. split; [unfold ret; do 3 f_equal; destruct h; simpl; f_equal; lia|].
    split_and!; [|apply nodes_wf_nil|done|done|done].
    right. split_and!; [done|apply not_elem_of_nil|done].
  - apply nodes_wf_cons in W as (Hn & (Wc & Ne & Na) & W).
    destruct (Z.eqb_spec (event_id n) (reg_event_id r)) as [E|E]; unfold bind.
    + destruct (unreg_cb_list_spec (ev_cb_list n) r h Wc) as (rc & l' & -> & Eff & Wl & Un).
      destruct (list_empty l') eqn:Em.
      * apply list_empty_spec in Em as ->. destruct (unreg_eff_nil _ _ _ Eff Ne) as (-> & a & Ea).
        eexists _, _. split; [unfold os_free, ret; do 4 f_equal; simpl; unfold zlen; simpl; lia|].
        rewrite E in Hn. rewrite (ev_subs_absent _ _ Hn).
        split_and!; [done|done|done| |set_solver].
        intros e He. by rewrite (proj2 (Z.eqb_neq (event_id n) e)) by congruence.
      * eexists _, _. split; [unfold ret; do 4 f_equal; simpl; lia|]. simpl.
        rewrite E, Z.eqb_refl. rewrite E in Hn. split_and!; [done| | | |set_solver].
        -- apply nodes_wf_cons. simpl. split_and!; [done| |done]. split; [done|]. split; [|done].
           simpl. by intros ->.
        -- intros N. rewrite (Un N). destruct n; simpl in *; congruence.
        -- intros e He. by rewrite (proj2 (Z.eqb_neq (reg_event_id r) e)) by congruence.
    + destruct (IH W) as (rc & l' & -> & Eff & W' & Un & Fr & Dm).
      eexists _, _. split; [unfold ret; do 4 f_equal; simpl; lia|]. simpl.
      rewrite (proj2 (Z.eqb_neq _ _)) by done. split_and!; [done| | | |set_solver].
      * apply nodes_wf_cons. split; [by intros ?%Dm|done].
      * intros N. by rewrite Un.
      * intros e He. destruct (_ =? e); auto.
Qed.

Lemma unreg_module_spec m r h : mod_wf m →
  ∃ rc m', unregister_cb_from_module_node m r h =
      Done ((rc, m'), mk_heap (nalloc h) (live h + (mod_blocks m' - mod_blocks m))) ∧
    unreg_eff r (mod_subs m (reg_event_id r)) rc (mod_subs m' (reg_event_id r)) ∧
    mod_wf0 m' ∧ event_module_id m' = event_module_id m ∧ (rc ≠ BK_OK → m' = m) ∧
    (∀ e, e ≠ reg_event_id r → mod_subs m' e = mod_subs m e).
Proof.
  intros (Wc & Wn & _). unfold unregister_cb_from_module_node, bind, mod_subs, mod_blocks, mod_wf0.
  destruct (Z.eqb_spec (reg_event_id r) EVENT_ID_ALL) as [E|E].
  - destruct (unreg_cb_list_spec (cb_list m) r h Wc) as (rc & l' & -> & Eff & Wl & Un).
    eexists _, _. split; [unfold ret; do 4 f_equal; simpl; lia|]. rewrite E. simpl.
    split_and!; [done|done|done|done| |].
    + intros N. rewrite (Un N). by destruct m.
    + intros e He. by rewrite (proj2 (Z.eqb_neq _ _)).
  - destruct (unreg_nodes_spec (event_node_list m) r h Wn E) as (rc & l' & -> & Eff & Wl & Un & Fr & _).
    eexists _, _. split; [unfold ret; do 4 f_equal; simpl; lia|]. simpl.
    split_and!; [done|done|done|done| |].
    + intros N. rewrite (Un N). by destruct m.
    + intros e He. destruct (e =? EVENT_ID_ALL); auto.
Qed.

Lemma unregister_cb_spec l r h : reg_wf l →
  ∃ rc l', unregister_cb l r h = Done ((rc, l'), mk_heap (nalloc h) (live h + (blocks l' - blocks l))) ∧
    unreg_eff r (subs l (reg_module_id r) (reg_event_id r)) rc
      (subs l' (reg_module_id r) (reg_event_id r)) ∧
    reg_wf l' ∧ (rc ≠ BK_OK → l' = l) ∧
    (∀ m e, (m, e) ≠ (reg_module_id r, reg_event_id r) → subs l' m e = subs l m e) ∧
    (∀ m, m ∈ event_module_id <$> l' → m ∈ event_module_id <$> l).
Proof.
  intros W. induction l as [|n l IH]; simpl.
  - eexists _, _. split; [unfold ret; do 3 f_equal; destruct h; simpl; f_equal; lia|].
    split_and!; [|apply reg_wf_nil|done|done|done].
    right. split_and!; [done|apply not_elem_of_nil|done].
  - apply reg_wf_cons in W as (Hn & Wn & W).
    destruct (Z.eqb_spec (reg_module_id r) (event_module_id n)) as [E|E]; unfold bind.
    + destruct (unreg_module_spec n r h Wn) as (rc & m' & -> & Eff & W0 & Id & Un & Fr).
      destruct (list_empty (cb_list m') && list_empty (event_node_list m')) eqn:Em.
      * apply andb_true_iff in Em as [E1%list_empty_spec E2%list_empty_spec].
        assert (Hm : m' = mk_module (event_module_id n) [] []) by (destruct m'; simpl in *; congruence).
        rewrite Hm in Eff, Fr. eexists _, _.
        split; [unfold os_free, ret; do 4 f_equal; rewrite Hm; simpl; unfold mod_blocks at 1, zlen; simpl; lia|].
        rewrite E, Z.eqb_refl. rewrite (subs_absent _ _ _ Hn). rewrite mod_subs_empty in Eff.
        split_and!; [done|done| | |set_solver].
        -- intros N. apply Un in N. destruct Wn as (_&_&[Q|Q]); rewrite <-N in Q; done.
        -- intros m e He. destruct (Z.eqb_spec (event_module_id n) m) as [Q|]; [|done].
           rewrite <-Fr by congruence. rewrite mod_subs_empty, <-Q. by apply subs_absent.
      * eexists _, _. split; [unfold ret; do 4 f_equal; simpl; lia|]. simpl.
        rewrite Id, <-E, Z.eqb_refl. split_and!; [done| | | |set_solver].
        -- apply reg_wf_cons. rewrite Id. split_and!; [done| |done].
           destruct W0 as [? ?]. split_and!; [done|done|].
           apply andb_false_iff in Em as [Q|Q]; [left|right]; intros R; by rewrite R in Q.
        -- intros N. by rewrite Un.
        -- intros m e He. destruct (Z.eqb_spec (reg_module_id r) m) as [Em'|]; [|done].
           apply Fr. congruence.
    + destruct (IH W) as (rc & l' & -> & Eff & W' & Un & Fr & Dm).
      eexists _, _. split; [unfold ret; do 4 f_equal; simpl; lia|]. simpl.
      rewrite (proj2 (Z.eqb_neq (event_module_id n) _)) by done. split_and!; [done| | | |set_solver].
      * apply reg_wf_cons. split; [by intros ?%Dm|done].
      * intros N. by rewrite Un.
      * intros m e He. destruct (_ =? m); auto.
Qed.

(** Unregistering what was just registered restores the registry itself. *)
Lemma unreg_cbs_snoc l r a h : (reg_cb r ∉ event_cb <$> l) →
  unregister_cb_from_cb_list (l ++ [mk_cb (reg_cb r) a]) r h =
  Done ((BK_OK, l), mk_heap (nalloc h) (live h - 1)).
Proof.
  induction l as [|c l IH]; simpl; [by rewrite Z.eqb_refl|].
  rewrite not_elem_of_cons. intros [N H]. rewrite (proj2 (Z.eqb_neq _ _)) by done.
  unfold bind. by rewrite IH.
Qed.

Lemma unreg_nodes_undo l r h l' h' h'' : nodes_wf l →
  register_cb_to_event_node_list alloc_ok l r h = Done ((BK_OK, l'), h') →
  ∃ k, unregister_cb_from_event_node_list l' r h'' = Done ((BK_OK, l), k).
Proof.
  revert h l'. induction l as [|n l IH]; intros h l' W; simpl; unfold bind.
  - unfold os_zalloc. destruct (alloc_ok _); simpl; [|intros [=]].
    destruct (reg_cb_list_spec [] r (mk_heap (S (nalloc h)) (live h + 1)))
      as (rc & cbs & k & -> & (Eff & _) & _); [apply NoDup_nil_2|].
    destruct (Z.eqb_spec rc BK_OK) as [->|]; simpl; [|intros [=]; congruence].
    intros [= <- <-]. destruct (reg_eff_ok _ _ _ Eff) as [Hn ->]. simpl.
    rewrite !Z.eqb_refl. unfold bind. simpl. eauto.
  - apply nodes_wf_cons in W as (Hn & (Wc & Ne & Na) & W).
    destruct (Z.eqb_spec (event_id n) (reg_event_id r)) as [E|E].
    + destruct (reg_cb_list_spec (ev_cb_list n) r h Wc) as (rc & cbs & k & -> & (Eff & _) & _).
      intros [= -> <- <-]. destruct (reg_eff_ok _ _ _ Eff) as [Hc ->]. simpl.
      rewrite (proj2 (Z.eqb_eq _ _)) by done. unfold bind. rewrite unreg_cbs_snoc by done.
      destruct n as [i [|c cs]]; [done|]. simpl. eauto.
    + destruct (register_cb_to_event_node_list _ l r h) as [[[rc ns] k]|] eqn:R; [|done].
      intros [= -> <- <-]. destruct (IH h ns W) as [k' Hk]; [done|]. simpl.
      rewrite (proj2 (Z.eqb_neq _ _)) by done. unfold bind. rewrite Hk. unfold ret. eauto.
Qed.

Lemma unreg_module_undo m r h m' h' h'' : mod_wf0 m →
  register_cb_to_module_node alloc_ok m r h = Done ((BK_OK, m'), h') →
  ∃ k, unregister_cb_from_module_node m' r h'' = Done ((BK_OK, m), k).
Proof.
  intros [Wc Wn]. unfold register_cb_to_module_node, unregister_cb_from_module_node, bind.
  destruct (_ =? EVENT_ID_ALL).
  - destruct (reg_cb_list_spec (cb_list m) r h Wc) as (rc & cbs & k & -> & (Eff & _) & _).
    intros [= -> <- <-]. destruct (reg_eff_ok _ _ _ Eff) as [Hc ->]. simpl.
    rewrite unreg_cbs_snoc by done. destruct m. unfold ret. eauto.
  - destruct (register_cb_to_event_node_list _ _ r h) as [[[rc ns] k]|] eqn:R; [|done].
    intros [= -> <- <-]. destruct (unreg_nodes_undo _ _ _ _ _ h'' Wn R) as [k' Hk]. simpl.
    rewrite Hk. destruct m. unfold ret. eauto.
Qed.

Lemma unregister_undo l r h l' h' h'' : reg_wf l →
  register_cb alloc_ok l r h = Done ((BK_OK, l'), h') →
  ∃ k, unregister_cb l' r h'' = Done ((BK_OK, l), k).
Proof.
  revert h l'. induction l as [|n l IH]; intros h l' W; simpl; unfold bind.
  - unfold os_zalloc. destruct (alloc_ok _); simpl; [|intros [=]].
    set (m0 := mk_module (reg_module_id r) [] []).
    assert (W0 : mod_wf0 m0) by (split; [apply NoDup_nil_2|apply nodes_wf_nil]).
    destruct (reg_module_spec m0 r (mk_heap (S (nalloc h)) (live h + 1)) W0)
      as (rc & m' & k & R & _ & _ & Id & _). rewrite R.
    destruct (Z.eqb_spec rc BK_OK) as [->|]; simpl; [|intros [=]; congruence].
    intros [= <- <-]. destruct (unreg_module_undo _ _ _ _ _ h'' W0 R) as [k' Hk]. simpl.
    rewrite Id, Z.eqb_refl. unfold bind. rewrite Hk. simpl. unfold os_free, ret. eauto.
  - apply reg_wf_cons in W as (Hn & Wn & W).
    destruct (Z.eqb_spec (reg_module_id r) (event_module_id n)) as [E|E].
    + destruct (reg_module_spec n r h (mod_wf_0 _ Wn)) as (rc & m' & k & R & _ & _ & Id & _).
      rewrite R. intros [= -> <- <-].
      destruct (unreg_module_undo _ _ _ _ _ h'' (mod_wf_0 _ Wn) R) as [k' Hk]. simpl.
      rewrite Id, (proj2 (Z.eqb_eq _ _)) by done. unfold bind. rewrite Hk.
      destruct Wn as (_ & _ & [Q|Q]); destruct n as [i [|x ns] [|y cs]]; try done; simpl; unfold ret; eauto.
    + destruct (register_cb _ l r h) as [[[rc ns] k]|] eqn:R; [|done].
      intros [= -> <- <-]. destruct (IH h ns W) as [k' Hk]; [done|]. simpl.
      rewrite (proj2 (Z.eqb_neq _ _)) by done. unfold bind. rewrite Hk. unfold ret. eauto.
Qed.

(** Dispatch calls the module-wide subscribers, then those of the event id. *)
Definition deliver (s : Z → Z → list event_cb_node_t) (i : event_info_t) : list call :=
  map (λ c, mk_call (event_cb c) (event_cb_arg c) (info_module_id i) (info_event_id i) (event_data i))
    (s (info_module_id i) EVENT_ID_ALL ++
     (if info_event_id i =? EVENT_ID_ALL then [] else s (info_module_id i) (info_event_id i))).

Lemma post_nodes l i : post_to_event_nodes l i = event_post_to_cb_list (ev_subs l (info_event_id i)) i.
Proof. induction l as [|n l IH]; simpl; [done|]. destruct (_ =? _); done. Qed.

Lemma nodes_no_all l : nodes_wf l → EVENT_ID_ALL ∉ event_id <$> l.
Proof.
  intros [_ F] (n & E & H)%list_elem_of_fmap. rewrite Forall_forall in F.
  destruct (F n H) as (_ & _ & Q). congruence.
Qed.

Definition data_blocks (i : event_info_t) : Z := match event_data i with Some _ => 1 | None => 0 end.

Lemma free_data_spec i h : free_data i h = Done (tt, mk_heap (nalloc h) (live h - data_blocks i)).
Proof.
  unfold free_data, data_blocks. destruct (event_data i); [done|].
  unfold ret. destruct h; simpl. do 3 f_equal. lia.
Qed.

Lemma post_loop_spec l i h : reg_wf l →
  post_loop l i h = Done ((BK_OK, deliver (subs l) i), mk_heap (nalloc h) (live h - data_blocks i)).
Proof.
  induction l as [|n l IH]; simpl; intros W; unfold deliver; simpl.
  - unfold bind. rewrite free_data_spec. by destruct (_ =? _).
  - apply reg_wf_cons in W as (Hn & (_ & Wn & _) & W).
    destruct (Z.eqb_spec (event_module_id n) (info_module_id i)) as [E|E].
    + unfold bind. rewrite free_data_spec. unfold ret, event_post_to_module. do 3 f_equal.
      rewrite post_nodes, map_app. unfold mod_subs at 1. rewrite Z.eqb_refl. f_equal.
      unfold mod_subs. destruct (Z.eqb_spec (info_event_id i) EVENT_ID_ALL) as [Q|Q]; [|done].
      rewrite Q, ev_subs_absent by by apply nodes_no_all. done.
    + rewrite IH by done. unfold deliver. done.
Qed.

(** ** The bus invariant *)
Definition body_wf (b : msg_body) (sync : bool) : Prop :=
  match b with
  | EVENT_MSG_REGISTER _ | EVENT_MSG_UNREGISTER _ => sync = true
  | EVENT_MSG_DEINIT => sync = false
  | EVENT_MSG_POST i => sync = false ∧ event_is_invalid (info_module_id i) (info_event_id i) = false
  end.
Definition msg_blocks (m : event_msg_t) : Z :=
  (if is_sync_msg m then 0 else 1) +
  match msg m with EVENT_MSG_POST i => data_blocks i | _ => 0 end.
Fixpoint qblocks (ms : gmap nat event_msg_t) (q : list nat) : Z :=
  match q with
  | [] => 0
  | a :: q' => match ms !! a with Some m => msg_blocks m | None => 0 end + qblocks ms q'
  end.

Record bus_wf (b : bus) (q : list nat) : Prop := {
  bw_reg : reg_wf (s_event_module_list b);
  bw_queue : s_event_queue b = Some q;
  bw_nodup : NoDup q;
  bw_msgs : ∀ a, a ∈ q → ∃ m, msgs b !! a = Some m ∧ body_wf (msg m) (is_sync_msg m) ∧ signalled m = false;
  bw_live : live (bheap b) = blocks (s_event_module_list b) + qblocks (msgs b) q }.

Lemma qblocks_ext ms ms' q : (∀ a, a ∈ q → ms' !! a = ms !! a) → qblocks ms' q = qblocks ms q.
Proof.
  induction q as [|a q IH]; simpl; [done|]. intros H.
  rewrite H by (rewrite elem_of_cons; by left). rewrite IH; [done|].
  intros x Hx. apply H. rewrite elem_of_cons. by right.
Qed.
Lemma qblocks_app ms q q' : qblocks ms (q ++ q') = qblocks ms q + qblocks ms q'.
Proof. induction q as [|a q IH]; simpl; [done|]. rewrite IH. lia. Qed.

(** ** The abstract bus: a subscriber table and a trace *)
Definition abs_step (body : msg_body) (s : Z → Z → list event_cb_node_t) (tr : list call)
    (rc : Z) (s' : Z → Z → list event_cb_node_t) (tr' : list call) : Prop :=
  match body with
  | EVENT_MSG_REGISTER r =>
      let m := reg_module_id r in let e := reg_event_id r in
      reg_eff r (s m e) rc (s' m e) ∧ (∀ m' e', (m', e') ≠ (m, e) → s' m' e' = s m' e') ∧ tr' = tr ∧
      ((∀ n, alloc_ok n = true) → rc ≠ BK_ERR_NO_MEM)
  | EVENT_MSG_UNREGISTER r =>
      let m := reg_module_id r in let e := reg_event_id r in
      unreg_eff r (s m e) rc (s' m e) ∧ (∀ m' e', (m', e') ≠ (m, e) → s' m' e' = s m' e') ∧ tr' = tr
  | EVENT_MSG_POST i => rc = BK_OK ∧ s' = s ∧ tr' = tr ++ deliver s i
  | EVENT_MSG_DEINIT => False
  end.

(** Handling a request keeps everything of the bus but registry, heap and trace. *)
Lemma handle_spec b body q :
  reg_wf (s_event_module_list b) → body ≠ EVENT_MSG_DEINIT →
  body_wf body q →
  ∃ rc l h tr, event_task_handle_msg alloc_ok body b =
      Done (rc, mk_bus (s_event_inited b) (s_event_queue b) (s_event_task b) l h (msgs b) tr) ∧
    reg_wf l ∧ abs_step body (subs (s_event_module_list b)) (trace b) rc (subs l) tr ∧
    live h = live (bheap b) + (blocks l - blocks (s_event_module_list b)) -
             match body with EVENT_MSG_POST i => data_blocks i | _ => 0 end.
Proof.
  intros W N Wb. unfold event_task_handle_msg. unfold bind at 1, gets. destruct body as [r|r| |i]; [| |done|].
  - destruct (register_cb_spec _ r (bheap b) W) as (rc & l & h & R & (Eff & Lv & NM) & W' & _ & Fr & _).
    unfold bind, with_heap. rewrite R. eexists _, _, _, _. split; [done|]. simpl.
    split_and!; [done|done|done|done|done|lia].
  - destruct (unregister_cb_spec _ r (bheap b) W) as (rc & l & R & Eff & W' & _ & Fr & _).
    unfold bind, with_heap. rewrite R. eexists _, _, _, _. split; [done|]. simpl.
    split_and!; [done|done|done|done|lia].
  - destruct Wb as [_ V]. unfold bind, with_heap, event_post. rewrite V, post_loop_spec by done.
    eexists _, _, _, _. split; [done|]. simpl. split_and!; [done|done|done|done|lia].
Qed.

Lemma round_spec b a q m :
  bus_wf b (a :: q) → msgs b !! a = Some m → msg m ≠ EVENT_MSG_DEINIT →
  ∃ rc b', event_task_round alloc_ok b = Done (true, b') ∧ bus_wf b' q ∧
    abs_step (msg m) (subs (s_event_module_list b)) (trace b) rc
      (subs (s_event_module_list b')) (trace b') ∧
    s_event_inited b' = s_event_inited b ∧
    msgs b' = if is_sync_msg m then <[a := mk_msg (msg m) true rc true]> (msgs b)
              else delete a (msgs b).
Proof.
  intros [W Q ND Ms Lv] Ha Nd. apply NoDup_cons in ND as [Hn ND].
  destruct (Ms a) as (m' & Ha' & Wb & Sg); [rewrite elem_of_cons; by left|].
  rewrite Ha in Ha'. apply (inj Some) in Ha' as <-.
  set (b0 := set_queue (Some q) b).
  destruct (handle_spec b0 (msg m) (is_sync_msg m) W Nd Wb) as (rc & l & h & tr & R & W' & A & L).
  simpl in Lv. rewrite Ha in Lv. unfold msg_blocks in Lv.
  assert (Hr : event_task_round alloc_ok b =
    (let* event_ret := event_task_handle_msg alloc_ok (msg m) in
     if is_sync_msg m then
       modify (set_msgs (<[a := mk_msg (msg m) true event_ret true]> (msgs b))) ;;; ret true
     else with_heap os_free ;;; modify (set_msgs (delete a (msgs b))) ;;; ret true) b0).
  { unfold event_task_round. unfold bind at 1, gets. rewrite Q. cbn beta iota.
    unfold bind at 1, modify at 1. unfold bind at 1. fold b0. change (msgs b0) with (msgs b).
    cbn beta iota. rewrite Ha. by destruct (msg m). }
  rewrite Hr. unfold bind. rewrite R. exists rc. clear Hr R.
  destruct (is_sync_msg m) eqn:Sy; (eexists; split; [done|]); simpl; (split; [|done]); split; simpl; try done.
  - intros x Hx. destruct (Ms x) as (mx & Hx' & ?); [rewrite elem_of_cons; by right|].
    exists mx. rewrite lookup_insert_ne by (intros ->; done). done.
  - rewrite L. simpl. rewrite Lv. rewrite (qblocks_ext (msgs b) (<[a:=_]> _)).
    + simpl. lia.
    + intros x Hx. apply lookup_insert_ne. intros ->; done.
  - intros x Hx. destruct (Ms x) as (mx & Hx' & ?); [rewrite elem_of_cons; by right|].
    exists mx. rewrite lookup_delete_ne by (intros ->; done). done.
  - rewrite L. simpl. rewrite Lv. rewrite (qblocks_ext (msgs b) (delete a _)).
    + simpl. lia.
    + intros x Hx. apply lookup_delete_ne. intros ->; done.
Qed.

(** A sequence of requests with their results on the abstract bus. *)
Fixpoint abs_run (bs : list (msg_body * Z)) (s : Z → Z → list event_cb_node_t) (tr : list call)
    (s' : Z → Z → list event_cb_node_t) (tr' : list call) : Prop :=
  match bs with
  | [] => s' = s ∧ tr' = tr
  | (body, rc) :: bs' =>
      ∃ s1 tr1, abs_step body s tr rc s1 tr1 ∧ abs_run bs' s1 tr1 s' tr'
  end.

Definition body_at (ms : gmap nat event_msg_t) (a : nat) : msg_body :=
  match ms !! a with Some m => msg m | None => EVENT_MSG_DEINIT end.

Lemma drain_spec q b :
  bus_wf b q → (∀ a, a ∈ q → body_at (msgs b) a ≠ EVENT_MSG_DEINIT) →
  ∃ b' rcs, event_task_loop alloc_ok (length q) b = Done (true, b') ∧ bus_wf b' [] ∧
    length rcs = length q ∧
    abs_run (zip (body_at (msgs b) <$> q) rcs) (subs (s_event_module_list b)) (trace b)
      (subs (s_event_module_list b')) (trace b') ∧
    (∀ i a m, q !! i = Some a → msgs b !! a = Some m → is_sync_msg m = true →
      ∃ rc, rcs !! i = Some rc ∧ msgs b' !! a = Some (mk_msg (msg m) true rc true)) ∧
    (∀ a, a ∉ q → msgs b' !! a = msgs b !! a) ∧ s_event_inited b' = s_event_inited b.
Proof.
  revert b. induction q as [|a q IH]; intros b W Nd.
  - exists b, []. split_and!; done.
  - destruct (bw_msgs _ _ W a) as (m & Ha & Wb & _); [rewrite elem_of_cons; by left|].
    pose proof (bw_nodup _ _ W) as [Hn ND]%NoDup_cons.
    assert (Hm : body_at (msgs b) a = msg m) by (unfold body_at; by rewrite Ha).
    destruct (round_spec b a q m W Ha) as (rc & b1 & R & W1 & A & In & Em).
    { rewrite <-Hm. apply Nd. rewrite elem_of_cons. by left. }
    assert (Ex : ∀ x, x ≠ a → msgs b1 !! x = msgs b !! x).
    { intros x Hx. rewrite Em. destruct (is_sync_msg m);
        [by rewrite lookup_insert_ne|by rewrite lookup_delete_ne]. }
    assert (Eb : body_at (msgs b1) <$> q = body_at (msgs b) <$> q).
    { apply list_fmap_ext. intros i x Hx%list_elem_of_lookup_2. unfold body_at.
      rewrite Ex; [done|]. intros ->; done. }
    destruct (IH b1 W1) as (b' & rcs & R' & W' & Hl & A' & Sy & Fr & In').
    { intros x Hx. unfold body_at. rewrite Ex by (intros ->; done).
      apply Nd. rewrite elem_of_cons. by right. }
    exists b', (rc :: rcs). simpl. unfold bind. rewrite R, Hl, Hm.
    split_and!; [done|done|done| | | |congruence].
    + exists (subs (s_event_module_list b1)), (trace b1). split; [done|]. rewrite Eb in A'. exact A'.
    + intros [|i] x mx Hx Mx Sx; simpl in *.
      * apply (inj Some) in Hx as <-. rewrite Ha in Mx. apply (inj Some) in Mx as <-.
        exists rc. split; [done|]. rewrite Fr by done. rewrite Em, Sx. apply lookup_insert_eq.
      * apply (Sy i x); [done| |done]. rewrite Ex; [done|].
        intros ->. apply list_elem_of_lookup_2 in Hx. done.
    + intros x [Hx Hq]%not_elem_of_cons. rewrite Fr by done. by apply Ex.
Qed.

(** Tear-down frees every block of the registry. *)
Lemma deinit_cbs l h : event_deinit_cb_list l h = Done (tt, mk_heap (nalloc h) (live h - zlen l)).
Proof.
  revert h. unfold zlen. induction l as [|c l IH]; intros h; simpl.
  - unfold ret. destruct h; simpl. do 3 f_equal. lia.
  - unfold bind, os_free. rewrite IH. simpl. do 3 f_equal. lia.
Qed.
Lemma deinit_nodes l h : deinit_event_nodes l h = Done (tt, mk_heap (nalloc h) (live h - ev_blocks l)).
Proof.
  revert h. induction l as [|n l IH]; intros h; simpl.
  - unfold ret. destruct h; simpl. do 3 f_equal. lia.
  - unfold bind. rewrite deinit_cbs. unfold os_free. rewrite IH. simpl. do 3 f_equal. lia.
Qed.
Lemma event_deinit_spec l h : event_deinit l h = Done ([], mk_heap (nalloc h) (live h - blocks l)).
Proof.
  revert h. induction l as [|m l IH]; intros h; simpl.
  - unfold ret. destruct h; simpl. do 3 f_equal. lia.
  - unfold event_deinit_module_node, bind. rewrite deinit_cbs, deinit_nodes. unfold os_free.
    rewrite IH. simpl. do 3 f_equal. unfold mod_blocks. lia.
Qed.

(** ** The client calls *)
Context (os : rtos).

(** Everything but the count of allocator calls is unchanged. *)
Definition same_bus (b b' : bus) : Prop :=
  s_event_inited b' = s_event_inited b ∧ s_event_queue b' = s_event_queue b ∧
  s_event_task b' = s_event_task b ∧ s_event_module_list b' = s_event_module_list b ∧
  live (bheap b') = live (bheap b) ∧ msgs b' = msgs b ∧ trace b' = trace b.

Definition queued (b b' : bus) (q : list nat) (m : event_msg_t) (a : nat) : Prop :=
  (a ∉ q) ∧ msgs b !! a = None ∧ bus_wf b' (q ++ [a]) ∧ msgs b' = <[a := m]> (msgs b) ∧
  s_event_module_list b' = s_event_module_list b ∧ trace b' = trace b ∧
  s_event_inited b' = s_event_inited b.

Lemma same_bus_wf b b' q : same_bus b b' → bus_wf b q → bus_wf b' q.
Proof.
  intros (_ & E2 & _ & E4 & E5 & E6 & _) []. split; rewrite ?E2, ?E4, ?E5, ?E6; auto.
Qed.

Lemma enqueue_wf b q m a n :
  bus_wf b q → a ∉ dom (msgs b) → body_wf (msg m) (is_sync_msg m) → signalled m = false →
  bus_wf (mk_bus (s_event_inited b) (Some (q ++ [a])) (s_event_task b) (s_event_module_list b)
            (mk_heap n (live (bheap b) + msg_blocks m)) (<[a := m]> (msgs b)) (trace b)) (q ++ [a]).
Proof.
  intros [W Q ND Ms Lv] Ha Wb Sg.
  assert (Hq : a ∉ q).
  { intros (mx & Hx & _)%Ms. apply not_elem_of_dom in Ha. congruence. }
  split; simpl; [done|done| | |].
  - apply NoDup_app. split; [done|]. split; [|apply NoDup_singleton].
    intros x Hx Hy%list_elem_of_singleton. by subst.
  - intros x [Hx|Hx%list_elem_of_singleton]%elem_of_app.
    + destruct (Ms x Hx) as (mx & ? & ?). exists mx. by rewrite lookup_insert_ne by (intros ->; done).
    + subst x. exists m. by rewrite lookup_insert_eq.
  - rewrite qblocks_app. simpl. rewrite lookup_insert_eq.
    rewrite (qblocks_ext (msgs b) (<[a:=m]> (msgs b))).
    + lia.
    + intros x Hx. apply lookup_insert_ne. intros ->; done.
Qed.

Lemma enqueue_queued b q m a n :
  bus_wf b q → a ∉ dom (msgs b) → body_wf (msg m) (is_sync_msg m) → signalled m = false →
  queued b (mk_bus (s_event_inited b) (Some (q ++ [a])) (s_event_task b) (s_event_module_list b)
              (mk_heap n (live (bheap b) + msg_blocks m)) (<[a := m]> (msgs b)) (trace b)) q m a.
Proof.
  intros W Ha Wb Sg. split_and!; [|by apply not_elem_of_dom|by apply enqueue_wf|done|done|done|done].
  intros (mx & Hx & _)%(bw_msgs _ _ W). apply not_elem_of_dom in Ha. congruence.
Qed.

Lemma drop_fresh (ms : gmap nat event_msg_t) m :
  delete (fresh (dom ms)) (<[fresh (dom ms) := m]> ms) = ms.
Proof. apply delete_insert_id. apply not_elem_of_dom, is_fresh. Qed.

Lemma send_sync_spec b q body :
  bus_wf b q → body_wf body true →
  ∃ r b', send_sync os body b = Done (r, b') ∧
    match r with
    | Ret rc => same_bus b b' ∧ (rc = BK_ERR_EVENT_INIT_SEM ∨ rc = BK_ERR_EVENT_POST_QUEUE)
    | Wait a => queued b b' q (mk_msg body true BK_OK false) a
    end ∧ (rtos_init_semaphore os = true → rtos_push_to_queue os = true → ∃ a, r = Wait a).
Proof.
  intros W Wb. set (a := fresh (dom (msgs b))). set (m := mk_msg body true BK_OK false).
  assert (Ha : a ∉ dom (msgs b)) by apply is_fresh.
  unfold send_sync, new_msg, event_send_msg_to_event_task, drop_msg. unfold bind, gets, modify, ret.
  simpl. fold a m. rewrite lookup_insert_eq. simpl.
  destruct (rtos_init_semaphore os); simpl.
  - rewrite (bw_queue _ _ W). destruct (rtos_push_to_queue os); simpl.
    + eexists _, _. split; [done|]. split; [|eauto].
      pose proof (enqueue_queued b q m a (nalloc (bheap b)) W Ha Wb eq_refl) as H.
      assert (E : mk_heap (nalloc (bheap b)) (live (bheap b) + msg_blocks m) = bheap b).
      { destruct (bheap b). simpl. unfold msg_blocks. simpl.
        replace (match body with EVENT_MSG_POST i => data_blocks i | _ => 0 end) with 0; [f_equal; lia|].
        destruct body; [done|done|done|]. by destruct Wb. }
      rewrite E in H. exact H.
    + eexists _, _. split; [done|]. split; [|done]. split; [|by right].
      unfold same_bus; simpl. rewrite (bw_queue _ _ W). unfold a. rewrite drop_fresh. done.
  - eexists _, _. split; [done|]. split; [|done]. split; [|by left].
    unfold same_bus; simpl. unfold a. rewrite drop_fresh. done.
Qed.

Definition post_msg (mo ev : Z) (data : list Z) : event_msg_t :=
  mk_msg (EVENT_MSG_POST (mk_info mo ev (match data with [] => None | _ => Some data end))) false 0 false.

(** The tail of [bk_event_post], when both allocations have succeeded. *)
Lemma post_send_spec b q mo ev data n :
  bus_wf b q → event_is_invalid mo ev = false →
  let copy := match data with [] => None | _ => Some data end in
  let b1 := mk_bus (s_event_inited b) (s_event_queue b) (s_event_task b) (s_event_module_list b)
              (mk_heap n (live (bheap b) + msg_blocks (post_msg mo ev data))) (msgs b) (trace b) in
  ∃ rc b', (let* a := new_msg (mk_msg (EVENT_MSG_POST (mk_info mo ev copy)) false 0 false) in
        let* r := event_send_msg_to_event_task os a in
        match r with
        | Ret rc =>
            if negb (rc =? BK_OK) then
              match copy with Some _ => with_heap os_free | None => ret tt end ;;;
              with_heap os_free ;;; drop_msg a ;;; ret rc
            else ret rc
        | Wait _ => ret BK_OK
        end) b1 = Done (rc, b') ∧
    ((rc = BK_OK ∧ ∃ a, queued b b' q (post_msg mo ev data) a) ∨
     (rc = BK_ERR_EVENT_POST_QUEUE ∧ same_bus b b')) ∧
    (rtos_push_to_queue os = true → rc = BK_OK).
Proof.
  intros W V copy b1. set (a := fresh (dom (msgs b))).
  assert (Ha : a ∉ dom (msgs b)) by apply is_fresh.
  unfold new_msg, event_send_msg_to_event_task, drop_msg. unfold bind, gets, modify, ret, b1.
  simpl. fold a. rewrite lookup_insert_eq. simpl. rewrite (bw_queue _ _ W).
  destruct (rtos_push_to_queue os); simpl.
  - eexists _, _. split; [done|]. split; [|done]. left. split; [done|]. exists a.
    by apply (enqueue_queued b q (post_msg mo ev data) a n W Ha).
  - destruct data as [|d ds]; simpl; (eexists _, _; split; [done|]; split; [|done]; right; split; [done|]);
      unfold same_bus; simpl; rewrite (bw_queue _ _ W); unfold a; rewrite drop_fresh;
      split_and!; try done; unfold msg_blocks, data_blocks; simpl; lia.
Qed.

Lemma bind_zalloc {A} (k : bool → M bus A) b :
  bind (with_heap (os_zalloc alloc_ok)) k b =
  let ok := alloc_ok (nalloc (bheap b)) in
  k ok (mk_bus (s_event_inited b) (s_event_queue b) (s_event_task b) (s_event_module_list b)
          (mk_heap (S (nalloc (bheap b))) (if ok then live (bheap b) + 1 else live (bheap b)))
          (msgs b) (trace b)).
Proof. done. Qed.

Lemma post_spec b q mo ev data :
  bus_wf b q → s_event_inited b = true → event_is_invalid mo ev = false →
  ∃ rc b', bk_event_post alloc_ok os mo ev data b = Done (rc, b') ∧
    ((rc = BK_OK ∧ ∃ a, queued b b' q (post_msg mo ev data) a) ∨
     ((rc = BK_ERR_NO_MEM ∨ rc = BK_ERR_EVENT_POST_QUEUE) ∧ same_bus b b')) ∧
    ((∀ n, alloc_ok n = true) → rtos_push_to_queue os = true → rc = BK_OK).
Proof.
  intros W I V. unfold bk_event_post.
  rewrite (bind_done (gets s_event_inited) _ b true b) by (unfold gets; by rewrite I).
  rewrite V. cbv beta. change (negb true) with false. cbv iota.
  rewrite bind_zalloc. cbv zeta.
  destruct (alloc_ok (nalloc (bheap b))) eqn:A1; cbn [negb]; cbv zeta beta iota.
  2: { eexists _, _. split; [reflexivity|]. split; [right; split; [by left|by unfold same_bus]|].
       intros AA. by rewrite AA in A1. }
  destruct data as [|d ds].
  - replace (0 <? Z.of_nat (length [])) with false by done.
    match goal with |- context [bind (ret true) ?k ?s] => change (bind (ret true) k s) with (k true s) end.
    cbn [negb].
    destruct (post_send_spec b q mo ev [] (S (nalloc (bheap b))) W V) as (rc & b' & E & H & P).
    exists rc, b'. split; [exact E|]. split; [|auto]. destruct H as [H|[H1 H2]]; [by left|]. auto.
  - replace (0 <? Z.of_nat (length (d :: ds))) with true by (symmetry; apply Z.ltb_lt; simpl; lia).
    rewrite bind_zalloc. cbv zeta. cbn [bheap nalloc live s_event_inited s_event_queue s_event_task s_event_module_list msgs trace].
    destruct (alloc_ok (S (nalloc (bheap b)))) eqn:A2; cbn [negb]; cbv beta iota.
    + destruct (post_send_spec b q mo ev (d :: ds) (S (S (nalloc (bheap b)))) W V) as (rc & b' & E & H & P).
      exists rc, b'. split; [|split; [|auto]; destruct H as [H|[H1 H2]]; [by left|]; auto].
      revert E. unfold msg_blocks, data_blocks. cbn [msg post_msg event_data is_sync_msg].
      rewrite Z.add_assoc. intros E. exact E.
    + eexists _, _. split; [done|]. split; [|intros AA; by rewrite AA in A2].
      right. split; [by left|]. unfold same_bus. simpl. split_and!; try done. lia.
Qed.

Lemma sync_return_spec b q a m :
  bus_wf b q → a ∉ q → msgs b !! a = Some m → signalled m = true →
  ∃ b', sync_return a b = Done (sync_msg_ret m, b') ∧ bus_wf b' q ∧
    s_event_module_list b' = s_event_module_list b ∧ trace b' = trace b ∧
    s_event_inited b' = s_event_inited b.
Proof.
  intros [W Q ND Ms Lv] Ha Hm Sg. unfold sync_return, bind, gets, modify, ret. rewrite Hm, Sg.
  eexists. split; [done|]. split; [|done]. split; simpl; try done.
  - intros x Hx. destruct (Ms x Hx) as (mx & ? & ?). exists mx.
    by rewrite lookup_delete_ne by (intros ->; done).
  - rewrite (qblocks_ext (msgs b) (delete a _)); [done|].
    intros x Hx. apply lookup_delete_ne. intros ->; done.
Qed.

Lemma deliver_snoc s s' m e c arg d :
  s' m e = s m e ++ [mk_cb c arg] →
  (∀ m' e', (m', e') ≠ (m, e) → s' m' e' = s m' e') →
  deliver s' (mk_info m e d) = deliver s (mk_info m e d) ++ [mk_call c arg m e d].
Proof.
  intros E Fr. unfold deliver. simpl. destruct (Z.eqb_spec e EVENT_ID_ALL) as [->|N].
  - rewrite E, !app_nil_r, map_app. done.
  - rewrite Fr by congruence. by rewrite E, app_assoc, map_app.
Qed.

(** One message on an idle bus: enqueue, one round. *)
Lemma serve_one b b1 a m :
  queued b b1 [] m a → msg m ≠ EVENT_MSG_DEINIT →
  ∃ rc b2, event_task_loop alloc_ok 1 b1 = Done (true, b2) ∧ bus_wf b2 [] ∧
    abs_step (msg m) (subs (s_event_module_list b)) (trace b) rc
      (subs (s_event_module_list b2)) (trace b2) ∧
    s_event_inited b2 = s_event_inited b ∧
    (is_sync_msg m = true → msgs b2 !! a = Some (mk_msg (msg m) true rc true)).
Proof.
  intros (_ & _ & W & Em & El & Et & Ei) N. simpl in W.
  destruct (round_spec b1 a [] m W) as (rc & b2 & R & W2 & A & In & Em2); [rewrite Em; apply lookup_insert_eq|done|].
  rewrite El, Et in A. exists rc, b2. simpl. unfold bind. rewrite R.
  split_and!; [done|done|done|congruence|].
  intros Sy. rewrite Em2, Sy. apply lookup_insert_eq.
Qed.

(** C29: On a well-formed registry, registering a callback always returns; it
    answers BK_OK and appends the callback to exactly the subscriber list of its
    module and event id, or answers BK_ERR_EVENT_CB_EXIST exactly when it is
    there already, or BK_ERR_NO_MEM; on an error the registry is unchanged and
    nothing is leaked; every other list and the well-formedness are kept, and
    BK_ERR_NO_MEM only happens when an allocation fails. *)
Theorem event_register_refines l r h :
  reg_wf l →
  ∃ rc l' h', register_cb alloc_ok l r h = Done ((rc, l'), h') ∧
    reg_eff r (subs l (reg_module_id r) (reg_event_id r)) rc
      (subs l' (reg_module_id r) (reg_event_id r)) ∧
    (∀ m e, (m, e) ≠ (reg_module_id r, reg_event_id r) → subs l' m e = subs l m e) ∧
    (rc ≠ BK_OK → l' = l) ∧ reg_wf l' ∧
    live h' - blocks l' = live h - blocks l ∧
    ((∀ n, alloc_ok n = true) → rc ≠ BK_ERR_NO_MEM).
Proof.
  intros W. destruct (register_cb_spec l r h W) as (rc & l' & h' & R & (Eff & Lv & NM) & W' & Un & Fr & _).
  exists rc, l', h'. split_and!; try done. lia.
Qed.

(** Unregistering removes exactly the named callback from exactly the list of
    its module and event id (BK_ERR_EVENT_NO_CB and no change when it is not
    there), frees the nodes that become empty, and undoes a registration: after
    a successful one the registry is the one before it. *)
Theorem event_unregister_undoes l r h :
  reg_wf l →
  (∃ rc l', unregister_cb l r h = Done ((rc, l'), mk_heap (nalloc h) (live h + (blocks l' - blocks l))) ∧
    unreg_eff r (subs l (reg_module_id r) (reg_event_id r)) rc
      (subs l' (reg_module_id r) (reg_event_id r)) ∧
    (∀ m e, (m, e) ≠ (reg_module_id r, reg_event_id r) → subs l' m e = subs l m e) ∧
    (rc ≠ BK_OK → l' = l) ∧ reg_wf l') ∧
  (∀ l' h', register_cb alloc_ok l r h = Done ((BK_OK, l'), h') →
    ∃ h'', unregister_cb l' r h' = Done ((BK_OK, l), h'') ∧ live h'' = live h).
Proof.
  intros W. split.
  - destruct (unregister_cb_spec l r h W) as (rc & l' & R & Eff & W' & Un & Fr & _).
    exists rc, l'. split_and!; done.
  - intros l' h' R. destruct (unregister_undo l r h l' h' h' W R) as [h'' U].
    exists h''. split; [done|].
    destruct (register_cb_spec l r h W) as (rc & l1 & h1 & R1 & (_ & Lv & _) & W' & _).
    rewrite R in R1. injection R1 as <- <- <-.
    destruct (unregister_cb_spec l' r h' W') as (rc2 & l2 & R2 & _).
    rewrite U in R2. injection R2 as <- <- ->. simpl. lia.
Qed.

(** C7: The task drains its queue: from a well-formed bus whose queue holds requests of
    clients only (register, unregister, post) it serves every queued request in FIFO
    order without blocking or faulting; the registry and the callback trace evolve as
    the sequence of requests prescribes on the abstract subscriber table, every
    waiting client is signalled with the result of its own request, and the memory of
    the served messages is released.  The DEINIT message is not covered: on it the task
    ends, and its message is not released ([event_deinit_leaks_message]). *)
Theorem event_task_drains q b :
  bus_wf b q → (∀ a, a ∈ q → body_at (msgs b) a ≠ EVENT_MSG_DEINIT) →
  ∃ b' rcs, event_task_loop alloc_ok (length q) b = Done (true, b') ∧ bus_wf b' [] ∧
    live (bheap b') = blocks (s_event_module_list b') ∧
    abs_run (zip (body_at (msgs b) <$> q) rcs) (subs (s_event_module_list b)) (trace b)
      (subs (s_event_module_list b')) (trace b') ∧
    length rcs = length q ∧
    (∀ i a m, q !! i = Some a → msgs b !! a = Some m → is_sync_msg m = true →
      ∃ rc, rcs !! i = Some rc ∧ msgs b' !! a = Some (mk_msg (msg m) true rc true)).
Proof.
  intros W N. destruct (drain_spec q b W N) as (b' & rcs & R & W' & Hl & A & Sy & _).
  exists b', rcs. split_and!; try done. rewrite (bw_live _ _ W'). simpl. lia.
Qed.

(** No API call leaks or corrupts the bus when it fails: bk_event_post,
    bk_event_register_cb and bk_event_unregister_cb always return or wait; with an
    error code the bus is what it was, and otherwise exactly one message is queued
    last with the given contents; invalid module and event ids are refused. *)
Theorem event_api_atomic b q mo ev cb arg data :
  bus_wf b q → s_event_inited b = true →
  (∃ rc b', bk_event_post alloc_ok os mo ev data b = Done (rc, b') ∧
     if event_is_invalid mo ev then rc = BK_ERR_EVENT_MOD_OR_ID ∧ b' = b
     else (rc = BK_OK ∧ ∃ a, queued b b' q (post_msg mo ev data) a) ∨
          ((rc = BK_ERR_NO_MEM ∨ rc = BK_ERR_EVENT_POST_QUEUE) ∧ same_bus b b')) ∧
  (∃ r b', bk_event_register_cb os mo ev cb arg b = Done (r, b') ∧
     if event_is_invalid mo ev then r = Ret BK_ERR_EVENT_MOD_OR_ID ∧ b' = b
     else match r with
          | Ret rc => same_bus b b' ∧ (rc = BK_ERR_EVENT_INIT_SEM ∨ rc = BK_ERR_EVENT_POST_QUEUE)
          | Wait a => queued b b' q (mk_msg (EVENT_MSG_REGISTER (mk_reg mo ev cb arg)) true BK_OK false) a
          end) ∧
  (∃ r b', bk_event_unregister_cb os mo ev cb b = Done (r, b') ∧
     if event_is_invalid mo ev then r = Ret BK_ERR_EVENT_MOD_OR_ID ∧ b' = b
     else match r with
          | Ret rc => same_bus b b' ∧ (rc = BK_ERR_EVENT_INIT_SEM ∨ rc = BK_ERR_EVENT_POST_QUEUE)
          | Wait a => queued b b' q (mk_msg (EVENT_MSG_UNREGISTER (mk_reg mo ev cb 0)) true BK_OK false) a
          end).
Proof.
  intros W I. destruct (event_is_invalid mo ev) eqn:V.
  - unfold bk_event_post, bk_event_register_cb, bk_event_unregister_cb, bind, gets.
    rewrite I, V. simpl. unfold ret. split_and!; eauto.
  - split_and!.
    + destruct (post_spec b q mo ev data W I V) as (rc & b' & R & H & _). eauto.
    + destruct (send_sync_spec b q (EVENT_MSG_REGISTER (mk_reg mo ev cb arg)) W eq_refl) as (r & b' & R & H & _).
      exists r, b'. split; [|done]. unfold bk_event_register_cb.
      rewrite (bind_done (gets s_event_inited) _ b true b) by (unfold gets; by rewrite I). by rewrite V.
    + destruct (send_sync_spec b q (EVENT_MSG_UNREGISTER (mk_reg mo ev cb 0)) W eq_refl) as (r & b' & R & H & _).
      exists r, b'. split; [|done]. unfold bk_event_unregister_cb.
      rewrite (bind_done (gets s_event_inited) _ b true b) by (unfold gets; by rewrite I). by rewrite V.
Qed.

(** End to end: with memory and RTOS resources available, a client that
    registers a new callback and then posts an event for it gets BK_OK twice, and
    once the task has run the callback has been called exactly once more, last,
    with its argument and a copy of the data, after the subscribers that were
    there before. *)
Theorem event_register_post_delivers b mo ev cb arg data :
  bus_wf b [] → s_event_inited b = true → event_is_invalid mo ev = false →
  (cb ∉ event_cb <$> subs (s_event_module_list b) mo ev) →
  (∀ n, alloc_ok n = true) → rtos_init_semaphore os = true → rtos_push_to_queue os = true →
  let i := mk_info mo ev (match data with [] => None | _ => Some data end) in
  ∃ a b1 b2 b3 b4 b5,
    bk_event_register_cb os mo ev cb arg b = Done (Wait a, b1) ∧
    event_task_loop alloc_ok 1 b1 = Done (true, b2) ∧
    sync_return a b2 = Done (BK_OK, b3) ∧
    bk_event_post alloc_ok os mo ev data b3 = Done (BK_OK, b4) ∧
    event_task_loop alloc_ok 1 b4 = Done (true, b5) ∧ bus_wf b5 [] ∧
    trace b5 = trace b ++ deliver (subs (s_event_module_list b)) i ++
               [mk_call cb arg mo ev (event_data i)].
Proof.
  intros W I V Nc Al Sem Push i.
  destruct (send_sync_spec b [] (EVENT_MSG_REGISTER (mk_reg mo ev cb arg)) W eq_refl) as (r & b1 & R1 & H1 & P1).
  destruct (P1 Sem Push) as [a ->].
  destruct (serve_one _ _ _ _ H1) as (rc & b2 & R2 & W2 & (Eff & Fr & Tr & NM) & I2 & S2); [done|].
  specialize (S2 eq_refl). simpl in Eff, Fr, S2.
  assert (rc = BK_OK) as ->.
  { destruct Eff as [(?&_)|[(_&H&_)|(E&_)]]; [done|done|]. by destruct (NM Al). }
  destruct (sync_return_spec b2 [] a _ W2 (not_elem_of_nil _) S2 eq_refl) as (b3 & R3 & W3 & L3 & T3 & I3).
  destruct (post_spec b3 [] mo ev data W3) as (rc4 & b4 & R4 & H4 & P4); [congruence|done|].
  rewrite (P4 Al Push) in R4, H4. destruct H4 as [[_ [a4 H4]]|[[[=]|[=]] _]].
  destruct (serve_one _ _ _ _ H4) as (rc5 & b5 & R5 & W5 & (_ & _ & Tr5) & _); [done|].
  exists a, b1, b2, b3, b4, b5. split_and!; try done.
  - unfold bk_event_register_cb.
    rewrite (bind_done (gets s_event_inited) _ b true b) by (unfold gets; by rewrite I). by rewrite V.
  - rewrite Tr5, T3, Tr, L3. f_equal. apply reg_eff_ok in Eff as [_ Eff].
    apply deliver_snoc; [exact Eff|]. intros m' e' Hne. apply Fr, Hne.
Qed.

(** Serving the DEINIT message stops the task, clears queue and registry and
    frees every node, but not the message itself: one heap block stays allocated
    for every deinitialisation. *)
Theorem event_deinit_leaks_message b a m :
  bus_wf b [a] → msgs b !! a = Some m → msg m = EVENT_MSG_DEINIT →
  ∃ b', event_task_round alloc_ok b = Done (false, b') ∧
    s_event_queue b' = None ∧ s_event_task b' = false ∧ s_event_module_list b' = [] ∧
    live (bheap b') = 1.
Proof.
  intros [W Q ND Ms Lv] Ha Hm. unfold event_task_round, bind, gets, modify. rewrite Q. simpl.
  rewrite Ha, Hm. unfold event_task_deinit, bind, gets, modify, with_heap. simpl.
  rewrite event_deinit_spec. eexists. split; [done|]. simpl.
  split_and!; try done. rewrite Lv. simpl. rewrite Ha. unfold msg_blocks. rewrite Hm.
  destruct (Ms a) as (m' & Ha' & Wb & _); [rewrite elem_of_cons; by left|].
  rewrite Ha in Ha'. apply (inj Some) in Ha' as <-. rewrite Hm in Wb. simpl in Wb. rewrite Wb. lia.
Qed.

(** When bk_event_deinit fails for lack of memory it has already cleared the
    initialised flag: the API is refused although the task still runs, and the
    next bk_event_init starts a second task whose start-up drops the registry with
    all its nodes still allocated. *)
Theorem event_deinit_no_mem_orphans b q :
  bus_wf b q → s_event_inited b = true → alloc_ok (nalloc (bheap b)) = false →
  rtos_init_queue os = true → rtos_create_thread os = true →
  ∃ b1 b2, bk_event_deinit alloc_ok os b = Done (BK_ERR_NO_MEM, b1) ∧
    s_event_inited b1 = false ∧ s_event_task b1 = s_event_task b ∧
    bk_event_init os b1 = Done (BK_OK, b2) ∧
    s_event_module_list b2 = [] ∧ s_event_queue b2 = Some [] ∧
    live (bheap b2) = blocks (s_event_module_list b) + qblocks (msgs b) q.
Proof.
  intros W I A Iq It. unfold bk_event_deinit.
  rewrite (bind_done (gets s_event_inited) _ b true b) by (unfold gets; by rewrite I).
  unfold bind, modify, with_heap, os_zalloc. simpl. rewrite A. simpl.
  eexists _, _. split; [done|]. simpl. split; [done|]. split; [done|].
  unfold bk_event_init, bind, gets, modify. simpl. rewrite Iq, It. simpl. split; [done|].
  simpl. split_and!; try done. apply (bw_live _ _ W).
Qed.

End Proofs.

(** ** Witnesses *)
Definition all_ok : nat → bool := λ _, true.
Definition os_ok : rtos := mk_rtos true true true true.
Definition demo_reg : list event_module_node_t :=
  [mk_module 1 [mk_node 4 [mk_cb 100 7]] [mk_cb 101 8]].
Definition demo_bus : bus := mk_bus true (Some []) true demo_reg (mk_heap 0 4) ∅ [].
Definition demo_busy : bus :=
  mk_bus true (Some [0; 1]%nat) true demo_reg (mk_heap 0 6)
    {[ 0%nat := mk_msg (EVENT_MSG_REGISTER (mk_reg 1 4 102 9)) true BK_OK false;
       1%nat := mk_msg (EVENT_MSG_POST (mk_info 1 4 (Some [5; 6]))) false 0 false ]} [].
Definition demo_deinit : bus :=
  mk_bus false (Some [0]%nat) true demo_reg (mk_heap 0 5)
    {[ 0%nat := mk_msg EVENT_MSG_DEINIT false 0 false ]} [].

Lemma cbs_wf_singleton c : cbs_wf [c].
Proof. apply NoDup_singleton. Qed.
Lemma demo_reg_wf : reg_wf demo_reg.
Proof.
  split; [apply NoDup_singleton|]. apply Forall_singleton. split_and!.
  - apply cbs_wf_singleton.
  - split; [apply NoDup_singleton|]. apply Forall_singleton. split_and!; [apply cbs_wf_singleton|done|done].
  - by left.
Qed.
Lemma demo_bus_wf : bus_wf demo_bus [].
Proof.
  split; [apply demo_reg_wf|done|apply NoDup_nil_2| |done]. intros a Ha. by apply not_elem_of_nil in Ha.
Qed.
Lemma demo_busy_wf : bus_wf demo_busy [0; 1]%nat.
Proof.
  split; [apply demo_reg_wf|done| | |done].
  - by apply (bool_decide_unpack _).
  - intros a Ha. elem_cases Ha; eexists; (split; [reflexivity|]); done.
Qed.
Lemma demo_deinit_wf : bus_wf demo_deinit [0]%nat.
Proof.
  split; [apply demo_reg_wf|done|apply NoDup_singleton| |done].
  intros a Ha. elem_cases Ha. eexists; (split; [reflexivity|]); done.
Qed.

Lemma event_register_refines_witness :
  reg_wf demo_reg ∧ ∃ rc l' h',
    register_cb all_ok demo_reg (mk_reg 1 4 102 9) (mk_heap 0 4) = Done ((rc, l'), h') ∧ reg_wf l'.
Proof.
  split; [apply demo_reg_wf|].
  destruct (event_register_refines all_ok demo_reg (mk_reg 1 4 102 9) (mk_heap 0 4) demo_reg_wf)
    as (rc & l' & h' & R & _ & _ & _ & W & _).
  eauto.
Defined.

Lemma event_unregister_undoes_witness :
  ∃ l' h' h'', register_cb all_ok demo_reg (mk_reg 2 (-1) 102 9) (mk_heap 0 4) = Done ((BK_OK, l'), h') ∧
    unregister_cb l' (mk_reg 2 (-1) 102 9) h' = Done ((BK_OK, demo_reg), h'') ∧ live h'' = 4.
Proof.
  destruct (event_unregister_undoes all_ok demo_reg (mk_reg 2 (-1) 102 9) (mk_heap 0 4) demo_reg_wf) as [_ U].
  eexists _, _. edestruct U as (h'' & E & L); [vm_compute; reflexivity|].
  exists h''. split; [vm_compute; reflexivity|]. split; [exact E|exact L].
Defined.

Lemma event_task_drains_witness :
  ∃ b', event_task_loop all_ok 2 demo_busy = Done (true, b') ∧ bus_wf b' [] ∧
    live (bheap b') = blocks (s_event_module_list b').
Proof.
  destruct (event_task_drains all_ok [0; 1]%nat demo_busy demo_busy_wf) as (b' & rcs & R & W & L & _).
  - intros a Ha. elem_cases Ha; by vm_compute.
  - eauto.
Defined.

Lemma event_api_atomic_witness :
  ∃ b', bk_event_post all_ok (mk_rtos true true true false) 1 4 [5] demo_bus =
          Done (BK_ERR_EVENT_POST_QUEUE, b') ∧ same_bus demo_bus b'.
Proof.
  destruct (event_api_atomic all_ok (mk_rtos true true true false) demo_bus [] 1 4 102 9 [5] demo_bus_wf eq_refl)
    as [(rc & b' & R & H) _].
  assert (rc = BK_ERR_EVENT_POST_QUEUE) as -> by (vm_compute in R; injection R as <- _; reflexivity).
  exists b'. split; [exact R|]. vm_compute event_is_invalid in H. destruct H as [[[=] _]|[_ H]]. exact H.
Defined.

Lemma event_register_post_delivers_witness :
  ∃ b5, bus_wf b5 [] ∧
    trace b5 = [mk_call 101 8 1 4 (Some [5]); mk_call 100 7 1 4 (Some [5]); mk_call 102 9 1 4 (Some [5])].
Proof.
  destruct (event_register_post_delivers all_ok os_ok demo_bus 1 4 102 9 [5] demo_bus_wf eq_refl eq_refl)
    as (a & b1 & b2 & b3 & b4 & b5 & _ & _ & _ & _ & _ & W & T); [|done|done|done|].
  - by apply (bool_decide_unpack _).
  - exists b5. split; [exact W|]. rewrite T. vm_compute. reflexivity.
Defined.

Lemma event_deinit_leaks_message_witness :
  ∃ b', event_task_round all_ok demo_deinit = Done (false, b') ∧ live (bheap b') = 1.
Proof.
  destruct (event_deinit_leaks_message all_ok demo_deinit 0%nat _ demo_deinit_wf eq_refl eq_refl)
    as (b' & R & _ & _ & _ & L).
  eauto.
Defined.

Lemma event_deinit_no_mem_orphans_witness :
  ∃ b1 b2, bk_event_deinit (λ _, false) os_ok demo_bus = Done (BK_ERR_NO_MEM, b1) ∧
    bk_event_init os_ok b1 = Done (BK_OK, b2) ∧ s_event_module_list b2 = [] ∧ live (bheap b2) = 4.
Proof.
  destruct (event_deinit_no_mem_orphans (λ _, false) os_ok demo_bus [] demo_bus_wf eq_refl eq_refl eq_refl eq_refl)
    as (b1 & b2 & R & _ & _ & R2 & M & _ & L).
  exists b1, b2. split_and!; [exact R|exact R2|exact M|exact L].
Defined.

End EventBus.
