(* ===== verification/Crc32.v ===== *)
(** * CRC-32: components/easy_flash/src/ef_utils.c

    [ef_calc_crc32], the table-driven checksum that guards the two copies of the
    environment in flash, and its agreement with the bit-serial definition of
    CRC-32 (reflected polynomial 0xEDB88320). *)
From S2P Require Import Prelude.
Local Open Scope Z_scope.

Module Crc32.

Definition crc32_table : list Z :=
  [
    0x00000000; 0x77073096; 0xee0e612c; 0x990951ba; 0x076dc419; 0x706af48f; 0xe963a535; 0x9e6495a3;
    0x0edb8832; 0x79dcb8a4; 0xe0d5e91e; 0x97d2d988; 0x09b64c2b; 0x7eb17cbd; 0xe7b82d07; 0x90bf1d91;
    0x1db71064; 0x6ab020f2; 0xf3b97148; 0x84be41de; 0x1adad47d; 0x6ddde4eb; 0xf4d4b551; 0x83d385c7;
    0x136c9856; 0x646ba8c0; 0xfd62f97a; 0x8a65c9ec; 0x14015c4f; 0x63066cd9; 0xfa0f3d63; 0x8d080df5;
    0x3b6e20c8; 0x4c69105e; 0xd56041e4; 0xa2677172; 0x3c03e4d1; 0x4b04d447; 0xd20d85fd; 0xa50ab56b;
    0x35b5a8fa; 0x42b2986c; 0xdbbbc9d6; 0xacbcf940; 0x32d86ce3; 0x45df5c75; 0xdcd60dcf; 0xabd13d59;
    0x26d930ac; 0x51de003a; 0xc8d75180; 0xbfd06116; 0x21b4f4b5; 0x56b3c423; 0xcfba9599; 0xb8bda50f;
    0x2802b89e; 0x5f058808; 0xc60cd9b2; 0xb10be924; 0x2f6f7c87; 0x58684c11; 0xc1611dab; 0xb6662d3d;
    0x76dc4190; 0x01db7106; 0x98d220bc; 0xefd5102a; 0x71b18589; 0x06b6b51f; 0x9fbfe4a5; 0xe8b8d433;
    0x7807c9a2; 0x0f00f934; 0x9609a88e; 0xe10e9818; 0x7f6a0dbb; 0x086d3d2d; 0x91646c97; 0xe6635c01;
    0x6b6b51f4; 0x1c6c6162; 0x856530d8; 0xf262004e; 0x6c0695ed; 0x1b01a57b; 0x8208f4c1; 0xf50fc457;
    0x65b0d9c6; 0x12b7e950; 0x8bbeb8ea; 0xfcb9887c; 0x62dd1ddf; 0x15da2d49; 0x8cd37cf3; 0xfbd44c65;
    0x4db26158; 0x3ab551ce; 0xa3bc0074; 0xd4bb30e2; 0x4adfa541; 0x3dd895d7; 0xa4d1c46d; 0xd3d6f4fb;
    0x4369e96a; 0x346ed9fc; 0xad678846; 0xda60b8d0; 0x44042d73; 0x33031de5; 0xaa0a4c5f; 0xdd0d7cc9;
    0x5005713c; 0x270241aa; 0xbe0b1010; 0xc90c2086; 0x5768b525; 0x206f85b3; 0xb966d409; 0xce61e49f;
    0x5edef90e; 0x29d9c998; 0xb0d09822; 0xc7d7a8b4; 0x59b33d17; 0x2eb40d81; 0xb7bd5c3b; 0xc0ba6cad;
    0xedb88320; 0x9abfb3b6; 0x03b6e20c; 0x74b1d29a; 0xead54739; 0x9dd277af; 0x04db2615; 0x73dc1683;
    0xe3630b12; 0x94643b84; 0x0d6d6a3e; 0x7a6a5aa8; 0xe40ecf0b; 0x9309ff9d; 0x0a00ae27; 0x7d079eb1;
    0xf00f9344; 0x8708a3d2; 0x1e01f268; 0x6906c2fe; 0xf762575d; 0x806567cb; 0x196c3671; 0x6e6b06e7;
    0xfed41b76; 0x89d32be0; 0x10da7a5a; 0x67dd4acc; 0xf9b9df6f; 0x8ebeeff9; 0x17b7be43; 0x60b08ed5;
    0xd6d6a3e8; 0xa1d1937e; 0x38d8c2c4; 0x4fdff252; 0xd1bb67f1; 0xa6bc5767; 0x3fb506dd; 0x48b2364b;
    0xd80d2bda; 0xaf0a1b4c; 0x36034af6; 0x41047a60; 0xdf60efc3; 0xa867df55; 0x316e8eef; 0x4669be79;
    0xcb61b38c; 0xbc66831a; 0x256fd2a0; 0x5268e236; 0xcc0c7795; 0xbb0b4703; 0x220216b9; 0x5505262f;
    0xc5ba3bbe; 0xb2bd0b28; 0x2bb45a92; 0x5cb36a04; 0xc2d7ffa7; 0xb5d0cf31; 0x2cd99e8b; 0x5bdeae1d;
    0x9b64c2b0; 0xec63f226; 0x756aa39c; 0x026d930a; 0x9c0906a9; 0xeb0e363f; 0x72076785; 0x05005713;
    0x95bf4a82; 0xe2b87a14; 0x7bb12bae; 0x0cb61b38; 0x92d28e9b; 0xe5d5be0d; 0x7cdcefb7; 0x0bdbdf21;
    0x86d3d2d4; 0xf1d4e242; 0x68ddb3f8; 0x1fda836e; 0x81be16cd; 0xf6b9265b; 0x6fb077e1; 0x18b74777;
    0x88085ae6; 0xff0f6a70; 0x66063bca; 0x11010b5c; 0x8f659eff; 0xf862ae69; 0x616bffd3; 0x166ccf45;
    0xa00ae278; 0xd70dd2ee; 0x4e048354; 0x3903b3c2; 0xa7672661; 0xd06016f7; 0x4969474d; 0x3e6e77db;
    0xaed16a4a; 0xd9d65adc; 0x40df0b66; 0x37d83bf0; 0xa9bcae53; 0xdebb9ec5; 0x47b2cf7f; 0x30b5ffe9;
    0xbdbdf21c; 0xcabac28a; 0x53b39330; 0x24b4a3a6; 0xbad03605; 0xcdd70693; 0x54de5729; 0x23d967bf;
    0xb3667a2e; 0xc4614ab8; 0x5d681b02; 0x2a6f2b94; 0xb40bbe37; 0xc30c8ea1; 0x5a05df1b; 0x2d02ef8d
  ].

Definition ones32 : Z := 0xFFFFFFFF.

(** One byte of the loop body; [buf] is the bytes at the pointer, [size] of them. *)
Definition crc_byte (crc b : Z) : Z :=
  Z.lxor (nth (Z.to_nat (Z.land (Z.lxor crc b) 0xFF)) crc32_table 0) (Z.shiftr crc 8).

Definition ef_calc_crc32 (crc : Z) (buf : list Z) : Z :=
  Z.lxor (fold_left crc_byte buf (Z.lxor crc ones32)) ones32.

(** ** The reference: one bit at a time *)
Definition POLY : Z := 0xEDB88320.
Definition crc_bit (x : Z) : Z :=
  Z.lxor (Z.shiftr x 1) (if Z.odd x then POLY else 0).
Definition ref_byte (crc b : Z) : Z := Nat.iter 8 crc_bit (Z.lxor crc b).
Definition ref_crc32 (buf : list Z) : Z :=
  Z.lxor (fold_left ref_byte buf ones32) ones32.

(** The step is linear in the bits that are not shifted out. *)
Lemma crc_bit_high x y k : 0 < k →
  crc_bit (Z.lxor x (Z.shiftl y k)) = Z.lxor (crc_bit x) (Z.shiftl y (k - 1)).
Proof.
  intros Hk. unfold crc_bit.
  rewrite Z.shiftr_lxor, Z.shiftr_shiftl_l by lia.
  replace (Z.odd (Z.lxor x (Z.shiftl y k))) with (Z.odd x).
  - rewrite !Z.lxor_assoc. f_equal. apply Z.lxor_comm.
  - rewrite <-!Z.bit0_odd, Z.lxor_spec, Z.shiftl_spec_low by lia. by destruct (Z.testbit x 0).
Qed.

Lemma crc_bit_iter n x y :
  Nat.iter n crc_bit (Z.lxor x (Z.shiftl y (Z.of_nat n))) = Z.lxor (Nat.iter n crc_bit x) y.
Proof.
  revert x. induction n as [|n IH]; intros x.
  - simpl. by rewrite Z.shiftl_0_r.
  - rewrite !Nat.iter_succ_r, crc_bit_high by lia.
    replace (Z.of_nat (S n) - 1) with (Z.of_nat n) by lia. apply IH.
Qed.

(** Every table entry is eight steps from its index. *)
Lemma crc32_table_entries :
  crc32_table = map (λ i, Nat.iter 8 crc_bit (Z.of_nat i)) (seq 0 256).
Proof. vm_compute. reflexivity. Qed.

Lemma crc32_table_nth i : 0 ≤ i < 256 → nth (Z.to_nat i) crc32_table 0 = Nat.iter 8 crc_bit i.
Proof.
  intros H. rewrite crc32_table_entries.
  rewrite (nth_indep _ 0 (Nat.iter 8 crc_bit (Z.of_nat 0))) by (rewrite length_map, length_seq; lia).
  rewrite (map_nth (λ i, Nat.iter 8 crc_bit (Z.of_nat i))), seq_nth by lia.
  by rewrite Nat.add_0_l, Z2Nat.id by lia.
Qed.

Lemma split_byte x : x = Z.lxor (Z.land x 0xFF) (Z.shiftl (Z.shiftr x 8) 8).
Proof.
  apply Z.bits_inj'. intros n Hn. change 0xFF with (Z.ones 8).
  rewrite Z.lxor_spec, Z.land_spec, Z.testbit_ones_nonneg, (Z.shiftl_spec (Z.shiftr x 8) 8 n) by lia.
  destruct (Z.ltb_spec n 8).
  - rewrite (Z.testbit_neg_r (Z.shiftr x 8)) by lia. by rewrite andb_true_r, xorb_false_r.
  - rewrite Z.shiftr_spec by lia. replace (n - 8 + 8) with n by lia.
    by rewrite andb_false_r, xorb_false_l.
Qed.

Lemma shiftr_byte b : 0 ≤ b < 256 → Z.shiftr b 8 = 0.
Proof. intros. rewrite Z.shiftr_div_pow2 by lia. apply Z.div_small. simpl. lia. Qed.

Lemma crc_byte_ref crc b : 0 ≤ b < 256 → crc_byte crc b = ref_byte crc b.
Proof.
  intros Hb. unfold crc_byte, ref_byte. set (x := Z.lxor crc b).
  assert (Hl : 0 ≤ Z.land x 0xFF < 256).
  { change 0xFF with (Z.ones 8). rewrite Z.land_ones by lia. change 256 with (2 ^ 8).
    by apply Z.mod_pos_bound. }
  rewrite crc32_table_nth by done. rewrite (split_byte x) at 2.
  change 8 with (Z.of_nat 8) at 3. rewrite crc_bit_iter. f_equal.
  unfold x. rewrite Z.shiftr_lxor, (shiftr_byte b) by done. by rewrite Z.lxor_0_r.
Qed.

Definition bytes (l : list Z) : Prop := Forall (λ b, 0 ≤ b < 256) l.

Lemma fold_ref crc buf : bytes buf → fold_left crc_byte buf crc = fold_left ref_byte buf crc.
Proof.
  intros H. revert crc. induction H as [|b l Hb Hl IH]; intros crc; simpl; [done|].
  by rewrite crc_byte_ref, IH.
Qed.

Lemma lxor_ones_twice x : Z.lxor (Z.lxor x ones32) ones32 = x.
Proof. by rewrite Z.lxor_assoc, Z.lxor_nilpotent, Z.lxor_0_r. Qed.

(** Calls chain: the checksum of a concatenation is computed piecewise. *)
Lemma ef_calc_crc32_app crc a b :
  ef_calc_crc32 (ef_calc_crc32 crc a) b = ef_calc_crc32 crc (a ++ b).
Proof. unfold ef_calc_crc32. by rewrite lxor_ones_twice, fold_left_app. Qed.

(** Checksums stay 32 bits wide. *)
Lemma lxor_range x y : 0 ≤ x < 2 ^ 32 → 0 ≤ y < 2 ^ 32 → 0 ≤ Z.lxor x y < 2 ^ 32.
Proof.
  intros Hx Hy. assert (0 ≤ Z.lxor x y) by (apply Z.lxor_nonneg; lia). split; [done|].
  destruct (decide (Z.lxor x y = 0)) as [->|N]; [lia|].
  apply Z.log2_lt_pow2; [lia|].
  eapply Z.le_lt_trans; [apply Z.log2_lxor; lia|].
  assert (∀ z, 0 ≤ z < 2 ^ 32 → Z.log2 z < 32) as L.
  { intros z Hz. destruct (decide (z = 0)) as [->|]; [done|]. apply Z.log2_lt_pow2; lia. }
  apply Z.max_lub_lt; by apply L.
Qed.

Lemma crc_bit_range x : 0 ≤ x < 2 ^ 32 → 0 ≤ crc_bit x < 2 ^ 32.
Proof.
  intros [Hx0 Hx]. unfold crc_bit. apply lxor_range.
  - rewrite Z.shiftr_div_pow2 by lia. split; [apply Z.div_pos; lia|].
    apply Z.div_lt_upper_bound; lia.
  - unfold POLY. destruct (Z.odd x); lia.
Qed.

Lemma ref_byte_range crc b : 0 ≤ crc < 2 ^ 32 → 0 ≤ b < 256 → 0 ≤ ref_byte crc b < 2 ^ 32.
Proof.
  intros Hc Hb. unfold ref_byte. generalize 8%nat. intros n.
  induction n as [|n IH]; simpl; [apply lxor_range; lia|]. by apply crc_bit_range.
Qed.

Lemma ef_calc_crc32_range crc l : 0 ≤ crc < 2 ^ 32 → bytes l → 0 ≤ ef_calc_crc32 crc l < 2 ^ 32.
Proof.
  intros Hc Hl. unfold ef_calc_crc32. rewrite fold_ref by done. apply lxor_range; [|unfold ones32; lia].
  assert (0 ≤ Z.lxor crc ones32 < 2 ^ 32) as H by (apply lxor_range; [done|unfold ones32; lia]).
  revert H. generalize (Z.lxor crc ones32). induction Hl as [|b l Hb Hl IH]; intros x Hx; simpl; [done|].
  apply IH. by apply ref_byte_range.
Qed.

(** C40: The table-driven checksum computes CRC-32: over any byte sequence it
    equals the bit-serial division by the reflected polynomial 0xEDB88320 with
    all-ones initial value and final inversion, and it may be computed over any
    split of the data, each call continuing from the previous result. *)
Theorem ef_calc_crc32_ok a b :
  bytes a → bytes b →
  ef_calc_crc32 (ef_calc_crc32 0 a) b = ref_crc32 (a ++ b).
Proof.
  intros Ha Hb. rewrite ef_calc_crc32_app. unfold ef_calc_crc32, ref_crc32.
  rewrite fold_ref; [done|]. by apply Forall_app.
Qed.

(** The check value of CRC-32 over the digits 1..9. *)
Lemma ef_calc_crc32_ok_witness :
  ef_calc_crc32 (ef_calc_crc32 0 [49; 50; 51; 52]) [53; 54; 55; 56; 57] = 0xCBF43926.
Proof.
  etransitivity; [apply (ef_calc_crc32_ok [49; 50; 51; 52] [53; 54; 55; 56; 57])|].
  - repeat (constructor; [lia|]). constructor.
  - repeat (constructor; [lia|]). constructor.
  - vm_compute. reflexivity.
Defined.

End Crc32.
