(* ===== verification/EfEnv.v ===== *)
(** * The persistent environment: components/easy_flash/src/ef_env.c, port/ef_port.c

    A key/value store kept in a RAM cache ([env_cache]) and written to one of two
    flash areas in turn (power fail safeguard mode, the configured one).  The cache
    starts with three words (end address, saved count, CRC); behind them come the
    entries "key=value\0", each padded to a multiple of four bytes.

    Modelled byte for byte: the cache as a buffer of [ENV_USER_SETTING_SIZE] bytes,
    the flash as a byte array with sector erase and NOR programming, and every
    function of ef_env.c but the console dump, with the port layer's erase, read
    and write.  Saving is written over the two calls that change the flash, so that a
    loss of power can be put into either ([save_cut]).  A failed [EF_ASSERT] spins forever ([Trap Hang]).  The data part
    carries an interface, [EnvStore], that the file layer is verified against. *)
From S2P Require Import Prelude Bytes Crc32.
Import Crc32.
Local Open Scope Z_scope.

(** ** What a key/value store promises to its clients

    [env_view s k] is the value stored under [k]; names and values are C strings.
    A failing [env_set] may lose the key it was called for, never another one. *)
Class EnvStore (S : Type) := {
  env_inv : S → Prop;
  env_view : S → list Z → option (list Z);
  env_get : list Z → S → option (list Z);
  env_set : list Z → option (list Z) → M S bool;
  env_name_ok : list Z → Prop;
  env_get_ok : ∀ s k, env_inv s → env_name_ok k → env_get k s = env_view s k;
  env_view_ok : ∀ s k v, env_inv s → env_name_ok k → env_view s k = Some v → no_zero v ∧ all_bytes v;
  env_put_ok : ∀ s k v, env_inv s → env_name_ok k → no_zero v → all_bytes v → v ≠ [] →
    ∃ ok s', env_set k (Some v) s = Done (ok, s') ∧ env_inv s' ∧
      (if ok then env_view s' k = Some v
       else env_view s' k = None ∨ env_view s' k = env_view s k) ∧
      (∀ k', env_name_ok k' → k' ≠ k → env_view s' k' = env_view s k');
  env_del_ok : ∀ s k, env_inv s → env_name_ok k → is_Some (env_view s k) →
    ∃ s', env_set k None s = Done (true, s') ∧ env_inv s' ∧ env_view s' k = None ∧
      (∀ k', env_name_ok k' → k' ≠ k → env_view s' k' = env_view s k') }.

Module EfEnv.

(** ** Configuration (ef_cfg.h) and error codes (easyflash.h) *)
Definition EF_ERASE_MIN_SIZE : Z := 4096.
Definition EF_START_ADDR : Z := 0x3FA000.
Definition ENV_USER_SETTING_SIZE : Z := 12 * 1024 - 20.
Definition ENV_AREA_SIZE : Z := (12 * 2 / 4) * EF_ERASE_MIN_SIZE.
Definition ENV_PARAM_BYTE_SIZE : nat := 12.
Definition EQ : Z := 61.

Inductive EfErrCode :=
| EF_NO_ERR | EF_ERASE_ERR | EF_WRITE_ERR | EF_ENV_NAME_ERR | EF_ENV_NAME_EXIST
| EF_ENV_FULL | EF_ENV_INIT_FAILED.
#[export] Instance EfErrCode_eq : EqDecision EfErrCode.
Proof. solve_decision. Defined.

(** ** State *)
Record st := mk_st {
  env_cache : list Z;
  cur_load_area_addr : Z;
  next_save_area_addr : Z;
  env_cache_changed : bool;
  init_ok : bool;
  flash : Z → Z }.

Definition set_cache c s := mk_st c (cur_load_area_addr s) (next_save_area_addr s) (env_cache_changed s) (init_ok s) (flash s).
Definition set_cur a s := mk_st (env_cache s) a (next_save_area_addr s) (env_cache_changed s) (init_ok s) (flash s).
Definition set_next a s := mk_st (env_cache s) (cur_load_area_addr s) a (env_cache_changed s) (init_ok s) (flash s).
Definition set_changed b s := mk_st (env_cache s) (cur_load_area_addr s) (next_save_area_addr s) b (init_ok s) (flash s).
Definition set_init b s := mk_st (env_cache s) (cur_load_area_addr s) (next_save_area_addr s) (env_cache_changed s) b (flash s).
Definition set_flash f s := mk_st (env_cache s) (cur_load_area_addr s) (next_save_area_addr s) (env_cache_changed s) (init_ok s) f.

Definition EF_ASSERT (b : bool) : M st unit := if b then ret tt else trapM Hang.

(** ** The flash port *)
Definition read_flash (f : Z → Z) (addr : Z) (n : nat) : list Z := map f (seqZ addr (Z.of_nat n)).

Definition ef_port_read (addr size : Z) : M st (list Z) :=
  EF_ASSERT (size mod 4 =? 0) ;;;
  let* f := gets flash in ret (read_flash f addr (Z.to_nat size)).

Definition erase_sector (addr : Z) (f : Z → Z) : Z → Z :=
  λ x, if (addr <=? x) && (x <? addr + 4096) then 255 else f x.

(** The do/while loop of [bk_erase]; [fuel] is one more than the sectors left. *)
Fixpoint erase_loop (fuel : nat) (addr size : Z) (f : Z → Z) : Z → Z :=
  match fuel with
  | O => f
  | S fuel' =>
      let f' := erase_sector addr f in
      let size' := if size <? 4096 then 0 else size - 4096 in
      if size' =? 0 then f' else erase_loop fuel' (addr + 4096) size' f'
  end.
Definition bk_erase (addr size : Z) (f : Z → Z) : Z → Z :=
  erase_loop (S (Z.to_nat (size / 4096))) (Z.land addr 0x00FFF000) size f.

Definition ef_port_erase (addr size : Z) : M st EfErrCode :=
  EF_ASSERT (addr mod EF_ERASE_MIN_SIZE =? 0) ;;;
  let* f := gets flash in
  modify (set_flash (bk_erase addr size f)) ;;; ret EF_NO_ERR.

Definition program (addr : Z) (buf : list Z) (f : Z → Z) : Z → Z :=
  λ x, if (addr <=? x) && (x <? addr + Z.of_nat (length buf))
       then Z.land (f x) (nth (Z.to_nat (x - addr)) buf 0) else f x.

Definition ef_port_write (addr : Z) (buf : list Z) : M st EfErrCode :=
  EF_ASSERT (Z.of_nat (length buf) mod 4 =? 0) ;;;
  let* f := gets flash in
  modify (set_flash (program addr buf f)) ;;; ret EF_NO_ERR.

(** ** The cache *)
Definition get_env_system_addr (s : st) : Z := cur_load_area_addr s.
Definition get_env_data_addr (s : st) : Z := get_env_system_addr s + Z.of_nat ENV_PARAM_BYTE_SIZE.
Definition get_env_end_addr (s : st) : Z := le32 (sub (env_cache s) 0 4).
Definition set_env_end_addr (end_addr : Z) (s : st) : st :=
  set_cache (write_at (env_cache s) 0 (le_bytes end_addr)) s.
Definition get_saved_count (s : st) : Z := le32 (sub (env_cache s) 4 4).
Definition get_env_crc (s : st) : Z := le32 (sub (env_cache s) 8 4).

Definition get_env_data_size (s : st) : nat :=
  if get_env_data_addr s <? get_env_end_addr s
  then Z.to_nat (get_env_end_addr s - get_env_data_addr s) else 0.
Definition get_env_user_used_size (s : st) : nat :=
  if get_env_system_addr s <? get_env_end_addr s
  then Z.to_nat (get_env_end_addr s - get_env_system_addr s) else 0.

Definition word_align (n : nat) : nat :=
  if (n mod 4 =? 0)%nat then n else ((n / 4 + 1) * 4)%nat.

Definition write_env (key value : list Z) : M st EfErrCode := λ s,
  let len := (length key + length value + 2)%nat in
  let env_str_len := word_align len in
  if ENV_USER_SETTING_SIZE <=? Z.of_nat (env_str_len + get_env_user_used_size s)
  then Done (EF_ENV_FULL, s)
  else
    let s1 := set_cache (write_at (env_cache s) (get_env_user_used_size s)
                (key ++ [EQ] ++ value ++ [0] ++ replicate (env_str_len - len) 0)) s in
    let s2 := set_env_end_addr (u32 (get_env_end_addr s1 + Z.of_nat env_str_len)) s1 in
    Done (EF_NO_ERR, set_changed true s2).

Fixpoint find_loop (fuel : nat) (c : list Z) (key : list Z) (env env_end : nat) : option nat :=
  match fuel with
  | O => None
  | S fuel' =>
      if (env <? env_end)%nat then
        if (strncmp (length key) (drop env c) key =? 0) && (nth (env + length key) c 0 =? EQ)
        then Some env
        else find_loop fuel' c key (env + word_align (strlen (drop env c) + 1)) env_end
      else None
  end.

Definition find_env (key : list Z) (s : st) : option nat :=
  match key with
  | [] => None
  | _ =>
      let env_end := get_env_user_used_size s in
      if (env_end =? ENV_PARAM_BYTE_SIZE)%nat then None
      else find_loop (length (env_cache s)) (env_cache s) key ENV_PARAM_BYTE_SIZE env_end
  end.

(** [strchr(s, '=')], as the number of bytes before the sign. *)
Fixpoint strchr_eq (l : list Z) : option nat :=
  match l with
  | [] => None
  | b :: l' => if b =? 0 then None else if b =? EQ then Some 0%nat else S <$> strchr_eq l'
  end.

Definition create_env (key value : list Z) : M st EfErrCode :=
  match key with
  | [] => ret EF_ENV_NAME_ERR
  | _ =>
      if strchr_eq key is Some _ then ret EF_ENV_NAME_ERR
      else let* e := gets (find_env key) in
           if e is Some _ then ret EF_ENV_NAME_EXIST else write_env key value
  end.

Definition del_env (key : list Z) : M st EfErrCode :=
  match key with
  | [] => ret EF_ENV_NAME_ERR
  | _ =>
      if strchr_eq key is Some _ then ret EF_ENV_NAME_ERR
      else let* e := gets (find_env key) in
           match e with
           | None => ret EF_ENV_NAME_ERR
           | Some d => λ s,
               let c := env_cache s in
               let del_env_length := word_align (strlen (drop d c) + 1) in
               let remain := (get_env_data_size s - (d + del_env_length - ENV_PARAM_BYTE_SIZE))%nat in
               let s1 := set_cache (write_at c d (sub c (d + del_env_length) remain)) s in
               let s2 := set_env_end_addr (u32 (get_env_end_addr s1 - Z.of_nat del_env_length)) s1 in
               Done (EF_NO_ERR, set_changed true s2)
           end
  end.

(** [value]: [None] is the NULL pointer. *)
Definition ef_set_env (key : list Z) (value : option (list Z)) : M st EfErrCode :=
  let* i := gets init_ok in
  if negb i then ret EF_ENV_INIT_FAILED
  else
    match value with
    | None | Some [] => del_env key
    | Some v =>
        let* e := gets (find_env key) in
        match e with
        | Some env =>
            let* c := gets env_cache in
            match strchr_eq (drop env c) with
            | None => trapM Fault
            | Some k =>
                let old_value := cstr (drop (env + k + 1) c) in
                if bool_decide (old_value = v) then ret EF_NO_ERR
                else let* result := del_env key in
                     if bool_decide (result = EF_NO_ERR) then create_env key v else ret result
            end
        | None => create_env key v
        end
    end.

Definition ef_get_env (key : list Z) (s : st) : option (list Z) :=
  if negb (init_ok s) then None
  else
    match find_env key s with
    | None => None
    | Some env =>
        match strchr_eq (drop env (env_cache s)) with
        | None => None
        | Some k => Some (cstr (drop (env + k + 1) (env_cache s)))
        end
    end.

(** ** Saving and loading *)
Definition calc_env_crc (s : st) : Z :=
  let crc := ef_calc_crc32 0 (sub (env_cache s) 0 4) in
  let crc := ef_calc_crc32 crc (sub (env_cache s) 4 4) in
  ef_calc_crc32 crc (sub (env_cache s) ENV_PARAM_BYTE_SIZE (get_env_data_size s)).

Definition env_crc_is_ok (s : st) : bool := calc_env_crc s =? get_env_crc s.

Definition set_saved_count (n : Z) (s : st) : st :=
  set_cache (write_at (env_cache s) 4 (le_bytes n)) s.
Definition set_crc (n : Z) (s : st) : st :=
  set_cache (write_at (env_cache s) 8 (le_bytes n)) s.

(** Saving, over the two calls of the port that change the flash. *)
Definition save_with (erase : Z → Z → M st EfErrCode) (write : Z → list Z → M st EfErrCode) : M st EfErrCode :=
  let* ch := gets env_cache_changed in
  if negb ch then ret EF_NO_ERR
  else
    let* write_addr := gets next_save_area_addr in
    let* write_size := gets get_env_user_used_size in
    modify (λ s, set_next (cur_load_area_addr s) s) ;;;
    modify (set_cur write_addr) ;;;
    modify (set_env_end_addr (u32 (write_addr + Z.of_nat write_size))) ;;;
    modify (λ s, set_saved_count (u32 (get_saved_count s + 1)) s) ;;;
    modify (λ s, set_crc (calc_env_crc s) s) ;;;
    let* result := erase write_addr (Z.of_nat write_size) in
    if bool_decide (result = EF_ERASE_ERR) then ret result
    else
      let* c := gets env_cache in
      let* result := write write_addr (take write_size c) in
      modify (set_changed false) ;;; ret result.

Definition ef_save_env : M st EfErrCode := save_with ef_port_erase ef_port_write.

Definition ef_set_and_save_env (key : list Z) (value : option (list Z)) : M st EfErrCode :=
  let* result := ef_set_env key value in
  if bool_decide (result = EF_NO_ERR) then ef_save_env else ret result.

Section Defaults.
Context (default_env_set : list (list Z * list Z)).

Fixpoint create_all (l : list (list Z * list Z)) : M st unit :=
  match l with
  | [] => ret tt
  | (k, v) :: l' => create_env k v ;;; create_all l'
  end.

Definition ef_env_set_default : M st EfErrCode :=
  EF_ASSERT (negb (length default_env_set =? 0)%nat) ;;;
  modify (λ s, set_env_end_addr (get_env_data_addr s) s) ;;;
  modify (set_saved_count 0) ;;;
  create_all default_env_set ;;;
  let* result := ef_save_env in
  if bool_decide (result = EF_NO_ERR) then
    modify (set_changed true) ;;; ef_save_env
  else ret result.

(** The end address of an area lies inside it. *)
Definition end_in_range (start end_addr : Z) : bool :=
  negb ((end_addr =? 0xFFFFFFFF) || (end_addr <? start) ||
        (start + ENV_USER_SETTING_SIZE <? end_addr)).

(** Read [size] bytes of flash to the start of the cache. *)
Definition read_to_cache (addr size : Z) : M st unit :=
  let* bs := ef_port_read addr size in
  modify (λ s, set_cache (write_at (env_cache s) 0 bs) s).

Definition check_area (start end_addr : Z) : M st bool :=
  let* _ := ef_port_read (start + 8) 4 in
  read_to_cache start (end_addr - start) ;;;
  modify (set_cur start) ;;;
  gets env_crc_is_ok.

Definition ef_load_env : M st EfErrCode :=
  let area0 := EF_START_ADDR in
  let area1 := EF_START_ADDR + ENV_AREA_SIZE / 2 in
  let* b0 := ef_port_read area0 4 in
  let* b1 := ef_port_read area1 4 in
  let area0_end := le32 b0 in
  let area1_end := le32 b1 in
  let* v0 := (if end_in_range area0 area0_end then check_area area0 area0_end else ret false) in
  let* v1 := (if end_in_range area1 area1_end then check_area area1 area1_end else ret false) in
  let* (v0, v1) :=
    (if v0 && v1 then
       let* c0 := ef_port_read (area0 + 4) 4 in
       let* c1 := ef_port_read (area1 + 4) 4 in
       if (le32 c1 <? le32 c0) || ((le32 c0 =? 0) && (le32 c1 =? 0xFFFFFFFF))
       then ret (v0, false) else ret (false, v1)
     else ret (v0, v1)) in
  if (v0 : bool) then
    modify (set_cur area0) ;;; modify (set_next area1) ;;;
    read_to_cache area0 (area0_end - area0) ;;; ret EF_NO_ERR
  else if (v1 : bool) then modify (set_next area0) ;;; ret EF_NO_ERR
  else modify (set_cur area1) ;;; modify (set_next area0) ;;; ef_env_set_default.

Definition ef_env_init : M st EfErrCode :=
  EF_ASSERT (ENV_USER_SETTING_SIZE mod 4 =? 0) ;;;
  EF_ASSERT (ENV_AREA_SIZE mod 4 =? 0) ;;;
  EF_ASSERT (Z.of_nat (length default_env_set) <? ENV_USER_SETTING_SIZE) ;;;
  EF_ASSERT (if ENV_USER_SETTING_SIZE mod EF_ERASE_MIN_SIZE =? 0
             then 2 * ENV_USER_SETTING_SIZE =? ENV_AREA_SIZE
             else 2 * (ENV_USER_SETTING_SIZE / EF_ERASE_MIN_SIZE + 1) * EF_ERASE_MIN_SIZE =? ENV_AREA_SIZE) ;;;
  let* result := ef_load_env in
  if bool_decide (result = EF_NO_ERR) then modify (set_init true) ;;; ret result
  else ret result.

End Defaults.

(** ** The abstract content: a list of entries and its encoding *)
Definition raw_entry (e : list Z * list Z) : list Z := e.1 ++ [EQ] ++ e.2 ++ [0].
Definition enc_entry (e : list Z * list Z) : list Z :=
  raw_entry e ++ replicate (word_align (length (raw_entry e)) - length (raw_entry e)) 0.
Definition enc (es : list (list Z * list Z)) : list Z := concat (map enc_entry es).

Definition key_ok (k : list Z) : Prop := k ≠ [] ∧ no_zero k ∧ (EQ ∉ k) ∧ all_bytes k.
Definition val_ok (v : list Z) : Prop := v ≠ [] ∧ no_zero v ∧ all_bytes v.
Definition entry_ok (e : list Z * list Z) : Prop := key_ok e.1 ∧ val_ok e.2.
Definition entries_ok (es : list (list Z * list Z)) : Prop :=
  Forall entry_ok es ∧ NoDup (fst <$> es).

Fixpoint assoc (es : list (list Z * list Z)) (k : list Z) : option (list Z) :=
  match es with
  | [] => None
  | (k', v) :: es' => if bool_decide (k' = k) then Some v else assoc es' k
  end.

Lemma word_align_le n : (n ≤ word_align n < n + 4)%nat.
Proof.
  unfold word_align. destruct (Nat.eqb_spec (n mod 4) 0); [lia|].
  pose proof (Nat.div_mod n 4 ltac:(lia)). pose proof (Nat.mod_upper_bound n 4 ltac:(lia)). lia.
Qed.
Lemma word_align_mod n : (word_align n mod 4 = 0)%nat.
Proof.
  unfold word_align. destruct (Nat.eqb_spec (n mod 4) 0); [done|]. by apply Nat.Div0.mod_mul.
Qed.

Lemma length_enc_entry e : length (enc_entry e) = word_align (length (raw_entry e)).
Proof.
  unfold enc_entry. rewrite length_app, length_replicate.
  pose proof (word_align_le (length (raw_entry e))). lia.
Qed.
Lemma length_raw k v : length (raw_entry (k, v)) = (length k + length v + 2)%nat.
Proof. unfold raw_entry. simpl. rewrite length_app. simpl. rewrite length_app. simpl. lia. Qed.

Lemma enc_cons e es : enc (e :: es) = enc_entry e ++ enc es.
Proof. done. Qed.
Lemma enc_app es es' : enc (es ++ es') = enc es ++ enc es'.
Proof. unfold enc. by rewrite map_app, concat_app. Qed.
Lemma enc_singleton e : enc [e] = enc_entry e.
Proof. unfold enc. simpl. by rewrite app_nil_r. Qed.

Lemma enc_mod es : (length (enc es) mod 4 = 0)%nat.
Proof.
  induction es as [|e es IH]; [done|]. rewrite enc_cons, length_app, length_enc_entry.
  rewrite Nat.Div0.add_mod, word_align_mod, IH. done.
Qed.

Lemma enc_bytes es : Forall entry_ok es → all_bytes (enc es).
Proof.
  induction 1 as [|[k v] es [(_&_&_&Bk) (_&_&Bv)] _ IH]; [constructor|]. simpl in *.
  rewrite enc_cons. apply all_bytes_app. split; [|done].
  unfold enc_entry, raw_entry. simpl.
  assert (byte EQ) by (unfold byte, EQ; lia). assert (byte 0) by (unfold byte; lia).
  apply all_bytes_app. split; [|by apply Forall_replicate].
  apply all_bytes_app. split; [done|]. constructor; [done|]. apply all_bytes_app.
  split; [done|]. by repeat constructor.
Qed.

(** An encoded entry, in front of anything, reads back as its key and value. *)
Lemma entry_no_zero k v : key_ok k → val_ok v → no_zero (k ++ EQ :: v).
Proof.
  intros (_&Hk&_) (_&Hv&_). apply Forall_app. split; [done|]. constructor; [done|done].
Qed.
Lemma enc_entry_split k v r : enc_entry (k, v) ++ r =
  (k ++ EQ :: v) ++ 0 :: (replicate (word_align (length k + length v + 2) - (length k + length v + 2)) 0 ++ r).
Proof.
  unfold enc_entry. rewrite length_raw. unfold raw_entry. simpl.
  repeat (rewrite <-app_assoc; simpl). done.
Qed.

Lemma key_match k key r : EQ ∉ k → EQ ∉ key →
  (take (length key) (k ++ EQ :: r) = key ∧ nth (length key) (k ++ EQ :: r) 0 = EQ) ↔ k = key.
Proof.
  intros Hk Hkey. split.
  - revert key Hkey. induction k as [|b k IH]; intros [|c key] Hkey; simpl; try done.
    + intros [[= <-] _]. by rewrite elem_of_cons in Hkey; destruct Hkey; left.
    + intros [_ E]. subst b. destruct Hk. rewrite elem_of_cons. by left.
    + intros [[= -> T] N]. f_equal. rewrite elem_of_cons in Hk, Hkey. apply IH; tauto.
  - intros <-. rewrite take_app_length. split; [done|].
    rewrite app_nth2, Nat.sub_diag by lia. done.
Qed.

Fixpoint find_pos (es : list (list Z * list Z)) (key : list Z) (off : nat) : option nat :=
  match es with
  | [] => None
  | e :: es' => if bool_decide (e.1 = key) then Some off
                else find_pos es' key (off + length (enc_entry e))
  end.

Lemma find_pos_spec es key off :
  match find_pos es key off with
  | Some p => ∃ es1 v es2, es = es1 ++ (key, v) :: es2 ∧ (key ∉ fst <$> es1) ∧
                p = (off + length (enc es1))%nat
  | None => key ∉ fst <$> es
  end.
Proof.
  revert off. induction es as [|[k v] es IH]; intros off; simpl; [apply not_elem_of_nil|].
  case_bool_decide as E.
  - subst k. exists [], v, es. split_and!; [done|apply not_elem_of_nil|]. unfold enc. simpl. lia.
  - specialize (IH (off + length (enc_entry (k, v)))%nat).
    destruct (find_pos _ _ _) as [p|].
    + destruct IH as (es1 & v' & es2 & -> & Hn & ->). exists ((k, v) :: es1), v', es2.
      split_and!; [done| |].
      * simpl. rewrite elem_of_cons. intros [?|?]; [congruence|done].
      * rewrite enc_cons, length_app. lia.
    + simpl. rewrite elem_of_cons. intros [?|?]; [congruence|done].
Qed.

Lemma assoc_split es1 k v es2 : (k ∉ fst <$> es1) → assoc (es1 ++ (k, v) :: es2) k = Some v.
Proof.
  induction es1 as [|[k' v'] es1 IH]; simpl; [by rewrite bool_decide_true|].
  rewrite not_elem_of_cons. intros [N H]. rewrite bool_decide_false by congruence. auto.
Qed.
Lemma assoc_None es k : (k ∉ fst <$> es) ↔ assoc es k = None.
Proof.
  induction es as [|[k' v'] es IH]; simpl; [split; [done|]; intros; apply not_elem_of_nil|].
  rewrite not_elem_of_cons, IH. case_bool_decide; split; intros H1; try done; try tauto.
  - by destruct H1.
Qed.
Lemma assoc_other es1 e es2 k : e.1 ≠ k → assoc (es1 ++ e :: es2) k = assoc (es1 ++ es2) k.
Proof.
  intros N. induction es1 as [|[k' v'] es1 IH]; simpl.
  - destruct e as [k1 v1]. by rewrite bool_decide_false.
  - by rewrite IH.
Qed.

Lemma drop_sub c off n : drop off c = sub c off n ++ drop (off + n) c.
Proof. unfold sub. by rewrite <-drop_drop, firstn_skipn. Qed.

(** The scan of [find_env] finds exactly the entry of the key. *)
Lemma find_loop_spec fuel c key es off :
  key_ok key → entries_ok es → sub c off (length (enc es)) = enc es → (length es < fuel)%nat →
  find_loop fuel c key off (off + length (enc es)) = find_pos es key off.
Proof.
  intros Hkey [Ok _]. revert fuel off. induction es as [|[k v] es IH]; intros fuel off Hs Hf.
  - destruct fuel; [done|]. cbn [find_loop find_pos].
    rewrite (proj2 (Nat.ltb_ge _ _)); [done|]. unfold enc. simpl. lia.
  - apply Forall_cons in Ok as [[Hk Hv] Ok]. simpl in Hk, Hv. cbn [length] in Hf.
    destruct fuel as [|fuel]; [lia|]. cbn [find_loop find_pos].
    rewrite enc_cons, length_app, sub_add in Hs. apply app_inj_1 in Hs as [Hs1 Hs2].
    2: { assert (length (sub c off (length (enc_entry (k, v)) + length (enc es))) =
                 length (enc_entry (k, v) ++ enc es)) as E by (by rewrite sub_add, Hs).
         rewrite length_app in E. unfold sub in *. rewrite length_take in *. lia. }
    assert (HL : (0 < length (enc_entry (k, v)))%nat).
    { rewrite length_enc_entry, length_raw. pose proof (word_align_le (length k + length v + 2)). lia. }
    rewrite (proj2 (Nat.ltb_lt _ _)) by (rewrite enc_cons, length_app; lia).
    pose proof (drop_sub c off (length (enc_entry (k, v)))) as Hd.
    rewrite Hs1, enc_entry_split in Hd. rewrite Hd. set (rest := 0 :: _) in *.
    assert (Hn : nth (off + length key) c 0 = nth (length key) ((k ++ EQ :: v) ++ rest) 0).
    { by rewrite <-Hd, nth_skipn. }
    rewrite Hn. destruct Hk as (Ne & Nz & Neq & Bk). destruct Hkey as (Ne' & Nz' & Neq' & Bk').
    pose proof (key_match k key (v ++ rest) Neq Neq') as KM.
    replace ((k ++ EQ :: v) ++ rest) with (k ++ EQ :: (v ++ rest)) by (by rewrite <-app_assoc).
    rewrite <-(strncmp_key key) in KM by done.
    case_bool_decide as E; simpl in E.
    + apply KM in E as [E1 E2]. by rewrite E1, E2.
    + destruct ((strncmp (length key) (k ++ EQ :: v ++ rest) key =? 0) &&
                (nth (length key) (k ++ EQ :: v ++ rest) 0 =? EQ)) eqn:B.
      { zb. destruct E. by apply KM. }
      replace (k ++ EQ :: (v ++ rest)) with ((k ++ EQ :: v) ++ rest) by (by rewrite <-app_assoc).
      unfold rest. rewrite strlen_app by (apply entry_no_zero; [done|done]).
      replace (length (k ++ EQ :: v) + 1)%nat with (length (raw_entry (k, v)))
        by (rewrite length_raw, length_app; simpl; lia).
      rewrite <-length_enc_entry, enc_cons, length_app, Nat.add_assoc.
      apply IH; [done|exact Hs2|lia].
Qed.

(** ** The cache invariant *)
Definition A0 : Z := EF_START_ADDR.
Definition A1 : Z := EF_START_ADDR + ENV_AREA_SIZE / 2.

Record wf (s : st) (es : list (list Z * list Z)) : Prop := {
  wf_len : Z.of_nat (length (env_cache s)) = ENV_USER_SETTING_SIZE;
  wf_bytes : all_bytes (env_cache s);
  wf_ok : entries_ok es;
  wf_area : (cur_load_area_addr s = A0 ∧ next_save_area_addr s = A1) ∨
            (cur_load_area_addr s = A1 ∧ next_save_area_addr s = A0);
  wf_end : get_env_end_addr s = cur_load_area_addr s + Z.of_nat (12 + length (enc es));
  wf_data : sub (env_cache s) 12 (length (enc es)) = enc es;
  wf_fit : Z.of_nat (12 + length (enc es)) < ENV_USER_SETTING_SIZE }.

Lemma wf_cur_range s es : wf s es → 0 < cur_load_area_addr s < 2 ^ 23.
Proof. intros W. destruct (wf_area _ _ W) as [[-> _]|[-> _]]; by vm_compute. Qed.

Lemma used_size s es : wf s es → get_env_user_used_size s = (12 + length (enc es))%nat.
Proof.
  intros W. unfold get_env_user_used_size, get_env_system_addr. rewrite (wf_end _ _ W).
  rewrite (proj2 (Z.ltb_lt _ _)) by lia. lia.
Qed.
Lemma data_size s es : wf s es → get_env_data_size s = length (enc es).
Proof.
  intros W. unfold get_env_data_size, get_env_data_addr, get_env_system_addr, ENV_PARAM_BYTE_SIZE.
  rewrite (wf_end _ _ W). destruct (Z.ltb_spec (cur_load_area_addr s + Z.of_nat 12) (cur_load_area_addr s + Z.of_nat (12 + length (enc es)))); lia.
Qed.

Lemma enc_length_ge es : Forall entry_ok es → (length es ≤ length (enc es))%nat.
Proof.
  induction 1 as [|[k v] es _ _ IH]; [done|]. rewrite enc_cons, length_app, length_enc_entry, length_raw.
  pose proof (word_align_le (length k + length v + 2)). simpl. lia.
Qed.

Lemma find_env_spec s es key : wf s es → key_ok key → find_env key s = find_pos es key 12.
Proof.
  intros W Hk. unfold find_env. destruct key as [|b key'] eqn:E; [by destruct Hk|]. rewrite <-E in *.
  rewrite (used_size _ _ W). unfold ENV_PARAM_BYTE_SIZE.
  destruct (Nat.eqb_spec (12 + length (enc es)) 12) as [Q|Q].
  - pose proof (enc_length_ge es (proj1 (wf_ok _ _ W))). destruct es; [done|simpl in *; lia].
  - apply find_loop_spec; [done|apply W|apply W|].
    pose proof (enc_length_ge es (proj1 (wf_ok _ _ W))).
    pose proof (wf_fit _ _ W). pose proof (wf_len _ _ W). lia.
Qed.

(** What stands at the position of an entry. *)
Lemma drop_entry s es1 k v es2 : wf s (es1 ++ (k, v) :: es2) →
  ∃ r, drop (12 + length (enc es1)) (env_cache s) = (k ++ EQ :: v) ++ 0 :: r ∧ key_ok k ∧ val_ok v.
Proof.
  intros W. pose proof (wf_data _ _ W) as D. pose proof (wf_ok _ _ W) as [Ok _].
  rewrite Forall_app, Forall_cons in Ok. destruct Ok as (_ & [Hk Hv] & _).
  rewrite (drop_sub _ _ (length (enc_entry (k, v)))).
  rewrite enc_app, enc_cons in D.
  assert (E : sub (env_cache s) (12 + length (enc es1)) (length (enc_entry (k, v))) = enc_entry (k, v)).
  { rewrite <-(sub_sub _ 12 (length (enc es1 ++ enc_entry (k, v) ++ enc es2))) by (rewrite !length_app; lia).
    rewrite D. rewrite <-(Nat.add_0_r (length (enc es1))). rewrite sub_app_r.
    rewrite sub_app_l by lia. apply sub_all. }
  rewrite E, enc_entry_split. eauto.
Qed.

Lemma strchr_eq_key k r : no_zero k → EQ ∉ k → strchr_eq (k ++ EQ :: r) = Some (length k).
Proof.
  induction 1 as [|b k Hb _ IH]; simpl; [done|]. rewrite not_elem_of_cons. intros [N H].
  rewrite (proj2 (Z.eqb_neq b 0)) by done. rewrite (proj2 (Z.eqb_neq b EQ)) by congruence.
  by rewrite IH.
Qed.
Lemma strchr_eq_None k : EQ ∉ k → strchr_eq k = None.
Proof.
  induction k as [|b k IH]; simpl; [done|]. rewrite not_elem_of_cons. intros [N H].
  destruct (b =? 0); [done|]. rewrite (proj2 (Z.eqb_neq b EQ)) by congruence. by rewrite IH.
Qed.

Lemma read_entry s es1 k v es2 : wf s (es1 ++ (k, v) :: es2) →
  strchr_eq (drop (12 + length (enc es1)) (env_cache s)) = Some (length k) ∧
  cstr (drop (12 + length (enc es1) + length k + 1) (env_cache s)) = v ∧
  strlen (drop (12 + length (enc es1)) (env_cache s)) = (length k + length v + 1)%nat.
Proof.
  intros W. destruct (drop_entry _ _ _ _ _ W) as (r & D & Hk & Hv).
  pose proof Hk as (_ & Nz & Ne & _). pose proof Hv as (_ & Nzv & _).
  split_and!.
  - rewrite D, <-app_assoc. by apply strchr_eq_key.
  - rewrite <-Nat.add_assoc, <-drop_drop, D, <-app_assoc, drop_app_add. simpl. rewrite drop_0. by apply cstr_app.
  - rewrite D, strlen_app by (by apply entry_no_zero). rewrite length_app. simpl. lia.
Qed.

(** [ef_get_env] reads the abstract content. *)
Lemma ef_get_env_spec s es k : wf s es → init_ok s = true → key_ok k → ef_get_env k s = assoc es k.
Proof.
  intros W I Hk. unfold ef_get_env. rewrite I. simpl. rewrite (find_env_spec _ _ _ W Hk).
  pose proof (find_pos_spec es k 12) as F. destruct (find_pos es k 12) as [p|].
  - destruct F as (es1 & v & es2 & -> & Hn & ->).
    destruct (read_entry _ _ _ _ _ W) as (-> & -> & _). by rewrite assoc_split.
  - symmetry. by apply assoc_None.
Qed.

Lemma end_addr_set e s : (4 ≤ length (env_cache s))%nat → 0 ≤ e < 2 ^ 32 →
  get_env_end_addr (set_env_end_addr e s) = e.
Proof.
  intros L He. unfold get_env_end_addr, set_env_end_addr. simpl.
  rewrite (sub_write_same _ 0 (le_bytes e)) by lia. by apply le32_bytes.
Qed.

(** Compute the fields of updated states, and nothing else. *)
Ltac pj := cbn [env_cache cur_load_area_addr next_save_area_addr env_cache_changed init_ok flash
  set_cache set_cur set_next set_changed set_init set_flash set_env_end_addr set_saved_count set_crc].

(** What the cache operations leave alone. *)
Definition frame (s s' : st) : Prop :=
  cur_load_area_addr s' = cur_load_area_addr s ∧
  next_save_area_addr s' = next_save_area_addr s ∧
  init_ok s' = init_ok s ∧ flash s' = flash s ∧ get_saved_count s' = get_saved_count s.

Lemma env_frame_refl s : frame s s.
Proof. done. Qed.
Lemma env_frame_trans s1 s2 s3 : frame s1 s2 → frame s2 s3 → frame s1 s3.
Proof. unfold frame. intuition congruence. Qed.

(** Overwriting data behind the header and moving the end address. *)
Lemma rewrite_data s es es' off bs e :
  wf s es → entries_ok es' → (12 ≤ off)%nat → (off + length bs ≤ length (env_cache s))%nat →
  all_bytes bs →
  Z.of_nat (12 + length (enc es')) < ENV_USER_SETTING_SIZE →
  e = cur_load_area_addr s + Z.of_nat (12 + length (enc es')) →
  sub (write_at (env_cache s) off bs) 12 (length (enc es')) = enc es' →
  let s' := set_changed true (set_env_end_addr (u32 e) (set_cache (write_at (env_cache s) off bs) s)) in
  wf s' es' ∧ frame s s'.
Proof.
  intros W Ok Ho Hl Hb Hf He Hd s'.
  pose proof (wf_cur_range _ _ W). pose proof (wf_len _ _ W) as L.
  assert (ENV_USER_SETTING_SIZE = 12268) as HS by reflexivity.
  assert (Hu : u32 e = e) by (apply u32_small; lia).
  assert (HL : length (write_at (env_cache s) off bs) = length (env_cache s)) by (by apply length_write_at).
  assert (HL' : length (env_cache s') = length (env_cache s)).
  { unfold s'. pj. rewrite length_write_at; [done|]. rewrite length_le_bytes. lia. }
  split.
  - split; [|  |done|apply W| |  |done].
    + rewrite HL'. done.
    + unfold s'. pj. unfold write_at. repeat (apply all_bytes_app; split); eauto using le_bytes_bytes;
        try apply Forall_take; try apply Forall_drop; repeat (apply all_bytes_app; split); auto;
        try apply Forall_take; try apply Forall_drop; apply W.
    + unfold s'. change (get_env_end_addr (set_changed true ?x)) with (get_env_end_addr x).
      rewrite end_addr_set; [pj; lia| |lia]. pj. lia.
    + unfold s'. pj. rewrite sub_write_after; [done| |lia]. rewrite length_le_bytes. lia.
  - split_and!; try done. unfold s', get_saved_count. pj.
    rewrite sub_write_after by (rewrite ?length_le_bytes; lia).
    rewrite sub_write_before by lia. done.
Qed.

Lemma entries_ok_app es es' : entries_ok (es ++ es') ↔
  entries_ok es ∧ entries_ok es' ∧ (∀ k, k ∈ fst <$> es → k ∉ fst <$> es').
Proof.
  unfold entries_ok. rewrite Forall_app, fmap_app, NoDup_app. naive_solver.
Qed.

Lemma entries_ok_snoc es k v : entries_ok es → entry_ok (k, v) → (k ∉ fst <$> es) →
  entries_ok (es ++ [(k, v)]).
Proof.
  intros H1 H2 H3. apply entries_ok_app. split_and!; [done| |].
  - split; [by apply Forall_singleton|apply NoDup_singleton].
  - intros k' Hk' H%list_elem_of_singleton. simpl in *. by subst.
Qed.
Lemma entries_ok_remove es1 e es2 : entries_ok (es1 ++ e :: es2) →
  entries_ok (es1 ++ es2) ∧ (e.1 ∉ fst <$> es1 ++ es2).
Proof.
  unfold entries_ok. rewrite !fmap_app, !Forall_app, Forall_cons, !NoDup_app. simpl.
  rewrite NoDup_cons, elem_of_app. set_solver.
Qed.

Definition fits (es : list (list Z * list Z)) : bool :=
  Z.of_nat (12 + length (enc es)) <? ENV_USER_SETTING_SIZE.

Lemma write_env_spec s es k v :
  wf s es → entry_ok (k, v) → (k ∉ fst <$> es) →
  if fits (es ++ [(k, v)]) then
    ∃ s', write_env k v s = Done (EF_NO_ERR, s') ∧ wf s' (es ++ [(k, v)]) ∧ frame s s' ∧
      env_cache_changed s' = true
  else write_env k v s = Done (EF_ENV_FULL, s).
Proof.
  intros W He Hk. unfold write_env, fits. rewrite (used_size _ _ W).
  rewrite enc_app, length_app, enc_singleton, length_enc_entry, length_raw.
  set (L := word_align (length k + length v + 2)).
  pose proof (wf_len _ _ W) as HL. pose proof (word_align_le (length k + length v + 2)) as HA. fold L in HA.
  destruct (Z.ltb_spec (Z.of_nat (12 + (length (enc es) + L))) ENV_USER_SETTING_SIZE) as [F|F];
    destruct (Z.leb_spec ENV_USER_SETTING_SIZE (Z.of_nat (L + (12 + length (enc es))))); try lia; [|done].
  set (bs := k ++ [EQ] ++ v ++ [0] ++ replicate (L - (length k + length v + 2)) 0).
  assert (Hbs : bs = enc_entry (k, v)).
  { unfold bs, enc_entry. rewrite length_raw. unfold raw_entry. fold L. simpl.
    by rewrite <-!app_assoc, <-app_comm_cons, <-app_assoc. }
  assert (Hlen : length bs = L) by (rewrite Hbs, length_enc_entry, length_raw; done).
  pose proof (wf_end _ _ W) as E.
  assert (E1 : get_env_end_addr (set_cache (write_at (env_cache s) (12 + length (enc es)) bs) s) =
               get_env_end_addr s).
  { unfold get_env_end_addr. pj. by rewrite sub_write_before by lia. }
  eexists. split; [reflexivity|]. rewrite E1, E.
  destruct (rewrite_data s es (es ++ [(k, v)]) (12 + length (enc es)) bs
     (cur_load_area_addr s + Z.of_nat (12 + length (enc es)) + Z.of_nat L)) as [W' Fr]; try done.
  - apply entries_ok_snoc; [apply W|done|done].
  - lia.
  - lia.
  - rewrite Hbs, <-enc_singleton. apply enc_bytes. by apply Forall_singleton.
  - rewrite enc_app, length_app, enc_singleton, <-Hbs, Hlen. lia.
  - rewrite enc_app, length_app, enc_singleton, <-Hbs, Hlen. lia.
  - rewrite enc_app, length_app, enc_singleton, <-Hbs, sub_add.
    rewrite sub_write_before by lia. rewrite (wf_data _ _ W).
    rewrite sub_write_same by lia. done.
Qed.

Lemma create_env_spec s es k v :
  wf s es → entry_ok (k, v) → (k ∉ fst <$> es) →
  if fits (es ++ [(k, v)]) then
    ∃ s', create_env k v s = Done (EF_NO_ERR, s') ∧ wf s' (es ++ [(k, v)]) ∧ frame s s' ∧
      env_cache_changed s' = true
  else create_env k v s = Done (EF_ENV_FULL, s).
Proof.
  intros W He Hk. pose proof (write_env_spec s es k v W He Hk) as H.
  assert (E : create_env k v s = write_env k v s); [|by rewrite E].
  destruct He as [Kk _]. simpl in Kk. pose proof Kk as (Ne & Nz & Nq & _).
  unfold create_env. destruct k as [|b k']; [done|].
  rewrite strchr_eq_None by done. unfold bind, gets.
  rewrite (find_env_spec _ _ _ W Kk).
  pose proof (find_pos_spec es (b :: k') 12) as F. destruct (find_pos es (b :: k') 12); [|done].
  destruct F as (es1 & v' & es2 & -> & _). destruct Hk. rewrite fmap_app. simpl.
  rewrite elem_of_app, elem_of_cons. by right; left.
Qed.

Lemma del_env_spec s es1 k v es2 :
  wf s (es1 ++ (k, v) :: es2) → (k ∉ fst <$> es1) →
  ∃ s', del_env k s = Done (EF_NO_ERR, s') ∧ wf s' (es1 ++ es2) ∧ frame s s' ∧
    env_cache_changed s' = true.
Proof.
  intros W Hn. destruct (drop_entry _ _ _ _ _ W) as (_ & _ & Kk & _).
  destruct (read_entry _ _ _ _ _ W) as (_ & _ & HL).
  pose proof Kk as (Ne & Nz & Nq & _).
  assert (Hd : del_env k s = (λ s,
    let c := env_cache s in let d := (12 + length (enc es1))%nat in
    let del_env_length := word_align (strlen (drop d c) + 1) in
    let remain := (get_env_data_size s - (d + del_env_length - ENV_PARAM_BYTE_SIZE))%nat in
    let s1 := set_cache (write_at c d (sub c (d + del_env_length) remain)) s in
    let s2 := set_env_end_addr (u32 (get_env_end_addr s1 - Z.of_nat del_env_length)) s1 in
    Done (EF_NO_ERR, set_changed true s2)) s).
  { unfold del_env. destruct k as [|b k']; [done|]. rewrite strchr_eq_None by done.
    unfold bind, gets. rewrite (find_env_spec _ _ _ W Kk).
    pose proof (find_pos_spec (es1 ++ (b :: k', v) :: es2) (b :: k') 12) as F.
    destruct (find_pos _ _ _) as [p|].
    - destruct F as (e1 & v' & e2 & E & Hn' & ->).
      assert (e1 = es1) as ->; [|done].
      clear -E Hn Hn'. revert e1 E Hn'. induction es1 as [|[k1 v1] es1 IH]; intros [|[k2 v2] e1] E Hn';
        simpl in *; try rewrite not_elem_of_cons in Hn; try rewrite not_elem_of_cons in Hn'.
      + done.
      + exfalso. destruct Hn' as [Hn' _]. congruence.
      + exfalso. destruct Hn as [Hn _]. congruence.
      + injection E as -> -> E. f_equal. apply IH; tauto.
    - destruct F. rewrite fmap_app. simpl. rewrite elem_of_app, elem_of_cons. by right; left. }
  rewrite Hd. clear Hd. cbv zeta beta.
  rewrite HL, (data_size _ _ W). unfold ENV_PARAM_BYTE_SIZE.
  replace (length k + length v + 1 + 1)%nat with (length (raw_entry (k, v))) by (rewrite length_raw; lia).
  rewrite <-length_enc_entry. set (L := length (enc_entry (k, v))).
  assert (Hlen : length (enc (es1 ++ (k, v) :: es2)) = (length (enc es1) + L + length (enc es2))%nat).
  { rewrite enc_app, enc_cons, !length_app. unfold L. lia. }
  replace (length (enc (es1 ++ (k, v) :: es2)) - (12 + length (enc es1) + L - 12))%nat
    with (length (enc es2)) by lia.
  pose proof (wf_data _ _ W) as D. pose proof (wf_fit _ _ W). pose proof (wf_len _ _ W).
  assert (E2 : sub (env_cache s) (12 + length (enc es1) + L) (length (enc es2)) = enc es2).
  { rewrite <-Nat.add_assoc, <-(sub_sub _ 12 (length (enc (es1 ++ (k, v) :: es2)))) by lia.
    rewrite D, enc_app, enc_cons, sub_app_r. rewrite <-(Nat.add_0_r L). unfold L.
    rewrite sub_app_r. apply sub_all. }
  rewrite E2. set (bs := enc es2).
  assert (E1 : sub (env_cache s) 12 (length (enc es1)) = enc es1).
  { rewrite <-(Nat.add_0_r 12), <-(sub_sub _ 12 (length (enc (es1 ++ (k, v) :: es2)))) by lia.
    rewrite D, enc_app, sub_app_l by lia. apply sub_all. }
  eexists. split; [reflexivity|].
  assert (E3 : get_env_end_addr (set_cache (write_at (env_cache s) (12 + length (enc es1)) bs) s) =
               get_env_end_addr s).
  { unfold get_env_end_addr. pj. by rewrite sub_write_before by lia. }
  rewrite E3, (wf_end _ _ W).
  destruct (entries_ok_remove _ _ _ (wf_ok _ _ W)) as [Ok' _].
  destruct (rewrite_data s _ (es1 ++ es2) (12 + length (enc es1)) bs
    (cur_load_area_addr s + Z.of_nat (12 + length (enc (es1 ++ (k, v) :: es2))) - Z.of_nat L) W) as [W' Fr];
    try done.
  - lia.
  - unfold bs. lia.
  - apply enc_bytes. destruct Ok' as [F _]. by apply Forall_app in F as [_ F].
  - rewrite enc_app, length_app. lia.
  - rewrite Hlen, enc_app, length_app. lia.
  - rewrite enc_app, length_app, sub_add, sub_write_before by lia. rewrite E1. f_equal.
    by rewrite sub_write_same by lia.
Qed.

(** The three outcomes of setting a value. *)
Definition put_list (es : list (list Z * list Z)) (k v : list Z) (r : EfErrCode)
    (es' : list (list Z * list Z)) : Prop :=
  (assoc es k = Some v ∧ r = EF_NO_ERR ∧ es' = es) ∨
  (assoc es k = None ∧ if fits (es ++ [(k, v)]) then r = EF_NO_ERR ∧ es' = es ++ [(k, v)]
                       else r = EF_ENV_FULL ∧ es' = es) ∨
  (∃ es1 v' es2, es = es1 ++ (k, v') :: es2 ∧ (k ∉ fst <$> es1) ∧ v' ≠ v ∧
     if fits ((es1 ++ es2) ++ [(k, v)]) then r = EF_NO_ERR ∧ es' = (es1 ++ es2) ++ [(k, v)]
     else r = EF_ENV_FULL ∧ es' = es1 ++ es2).

Lemma ef_set_env_put s es k v :
  wf s es → init_ok s = true → entry_ok (k, v) →
  ∃ r s' es', ef_set_env k (Some v) s = Done (r, s') ∧ wf s' es' ∧ put_list es k v r es' ∧ frame s s' ∧
    (es' = es ∧ env_cache_changed s' = env_cache_changed s ∨ env_cache_changed s' = true).
Proof.
  intros W I He. pose proof He as [Kk Vv]. simpl in Kk, Vv.
  unfold ef_set_env. rewrite (bind_done (gets init_ok) _ s true s) by (unfold gets; by rewrite I).
  cbv beta. change (negb true) with false. cbv iota.
  destruct v as [|b v']; [by destruct Vv|]. set (v := b :: v') in *.
  unfold bind at 1, gets at 1. rewrite (find_env_spec _ _ _ W Kk).
  pose proof (find_pos_spec es k 12) as F. destruct (find_pos es k 12) as [p|].
  - destruct F as (es1 & w & es2 & -> & Hn & ->).
    destruct (read_entry _ _ _ _ _ W) as (H1 & H2 & _).
    unfold bind at 1, gets at 1. rewrite H1, H2. clear H1 H2. case_bool_decide as E.
    + subst w. eexists _, _, _. split; [reflexivity|]. split; [exact W|]. split_and!; [|apply env_frame_refl|by left].
      left. rewrite assoc_split by done. done.
    + destruct (del_env_spec _ _ _ _ _ W Hn) as (s1 & D & W1 & Fr1 & C1).
      rewrite (bind_done _ _ _ _ _ D). rewrite bool_decide_true by done.
      pose proof (entries_ok_remove _ _ _ (wf_ok _ _ W)) as [_ Hk'].
      pose proof (create_env_spec s1 (es1 ++ es2) k v W1 He Hk') as Cr.
      destruct (fits ((es1 ++ es2) ++ [(k, v)])) eqn:Ft.
      * destruct Cr as (s2 & C & W2 & Fr2 & C2). eexists _, s2, _. split; [exact C|]. split; [exact W2|].
        split_and!; [|by eapply env_frame_trans|by right].
        right; right. exists es1, w, es2. by rewrite Ft.
      * eexists _, s1, _. split; [exact Cr|]. split; [exact W1|]. split_and!; [|done|by right].
        right; right. exists es1, w, es2. by rewrite Ft.
  - pose proof (create_env_spec s es k v W He F) as Cr. apply assoc_None in F as F'.
    destruct (fits (es ++ [(k, v)])) eqn:Ft.
    + destruct Cr as (s2 & C & W2 & Fr2 & C2). eexists _, s2, _. split; [exact C|]. split; [exact W2|].
      split_and!; [|done|by right]. right; left. by rewrite Ft.
    + eexists _, s, _. split; [exact Cr|]. split; [exact W|]. split_and!; [|apply env_frame_refl|by left].
      right; left. by rewrite Ft.
Qed.

Lemma ef_set_env_del s es k :
  wf s es → init_ok s = true → key_ok k →
  match assoc es k with
  | None => ef_set_env k None s = Done (EF_ENV_NAME_ERR, s)
  | Some v => ∃ s' es1 es2, ef_set_env k None s = Done (EF_NO_ERR, s') ∧ es = es1 ++ (k, v) :: es2 ∧
                wf s' (es1 ++ es2) ∧ frame s s' ∧ env_cache_changed s' = true
  end.
Proof.
  intros W I Kk. unfold ef_set_env.
  rewrite (bind_done (gets init_ok) _ s true s) by (unfold gets; by rewrite I).
  cbv beta. change (negb true) with false. cbv iota.
  pose proof (find_pos_spec es k 12) as F. destruct (find_pos es k 12) as [p|] eqn:P.
  - destruct F as (es1 & w & es2 & -> & Hn & ->). rewrite assoc_split by done.
    destruct (del_env_spec _ _ _ _ _ W Hn) as (s1 & D & W1 & Fr1 & C1). eauto 10.
  - apply assoc_None in F. rewrite F. unfold del_env. pose proof Kk as (Ne & _ & Nq & _).
    destruct k as [|b k']; [done|]. rewrite strchr_eq_None by done. unfold bind, gets.
    by rewrite (find_env_spec _ _ _ W Kk), P.
Qed.

(** ** Flash *)
Lemma read_flash_lookup f a n i : (i < n)%nat → read_flash f a n !! i = Some (f (a + Z.of_nat i)).
Proof.
  intros H. unfold read_flash. change (map f ?l) with (f <$> l). rewrite list_lookup_fmap.
  by rewrite lookup_seqZ_lt by lia.
Qed.
Lemma length_read_flash f a n : length (read_flash f a n) = n.
Proof. unfold read_flash. rewrite length_map, length_seqZ. lia. Qed.

Lemma read_flash_eq f a n l :
  length l = n → (∀ i, (i < n)%nat → l !! i = Some (f (a + Z.of_nat i))) → read_flash f a n = l.
Proof.
  intros L H. apply list_eq. intros i. destruct (decide (i < n)%nat) as [Hi|Hi].
  - by rewrite read_flash_lookup, H.
  - rewrite !lookup_ge_None_2; [done|lia|rewrite length_read_flash; lia].
Qed.

Lemma read_flash_ext f g a n :
  (∀ x, a ≤ x < a + Z.of_nat n → f x = g x) → read_flash f a n = read_flash g a n.
Proof.
  intros H. apply read_flash_eq; [apply length_read_flash|].
  intros i Hi. rewrite read_flash_lookup by done. f_equal. symmetry. apply H. lia.
Qed.

Lemma read_flash_sub f a n o m : (o + m ≤ n)%nat →
  sub (read_flash f a n) o m = read_flash f (a + Z.of_nat o) m.
Proof.
  intros H. symmetry. apply read_flash_eq.
  - apply length_sub. rewrite length_read_flash. lia.
  - intros i Hi. unfold sub. rewrite lookup_take_lt, lookup_drop by lia.
    rewrite read_flash_lookup by lia. do 2 f_equal. lia.
Qed.

Definition ceil4k (n : Z) : Z := 4096 * ((n + 4095) / 4096).

Lemma erase_loop_spec fuel addr size f x :
  0 < size ≤ 4096 * Z.of_nat fuel →
  erase_loop fuel addr size f x =
  if (addr <=? x) && (x <? addr + ceil4k size) then 255 else f x.
Proof.
  revert addr size f. induction fuel as [|fuel IH]; intros addr size f H; [lia|].
  cbn [erase_loop]. destruct (Z.ltb_spec size 4096) as [L|L].
  - simpl. unfold erase_sector, ceil4k.
    replace ((size + 4095) / 4096) with 1; [done|].
    apply Z.div_unique with (size - 1); lia.
  - destruct (Z.eqb_spec (size - 4096) 0) as [E|E].
    + unfold erase_sector, ceil4k. replace size with 4096 by lia. done.
    + rewrite IH by lia. unfold erase_sector.
      replace (ceil4k size) with (4096 + ceil4k (size - 4096)).
      * pose proof (Z.div_pos (size - 4096 + 4095) 4096 ltac:(lia) ltac:(lia)). unfold ceil4k.
        destruct (Z.leb_spec (addr + 4096) x), (Z.ltb_spec x (addr + 4096 + 4096 * ((size - 4096 + 4095) / 4096))),
          (Z.leb_spec addr x), (Z.ltb_spec x (addr + 4096)),
          (Z.ltb_spec x (addr + (4096 + 4096 * ((size - 4096 + 4095) / 4096)))); simpl; lia.
      * unfold ceil4k. replace (size + 4095) with (size - 4096 + 4095 + 1 * 4096) by lia.
        rewrite Z.div_add by lia. lia.
Qed.

(** Erasing and programming an area: the image reads back, nothing else changes. *)
Lemma save_flash a f l :
  (a = A0 ∨ a = A1) → (0 < length l)%nat → Z.of_nat (length l) ≤ ENV_USER_SETTING_SIZE → all_bytes l →
  let f' := program a l (bk_erase a (Z.of_nat (length l)) f) in
  read_flash f' a (length l) = l ∧
  (∀ x, ¬ (a ≤ x < a + ENV_AREA_SIZE / 2) → f' x = f x).
Proof.
  intros Ha Hl Hs Hb f'. change ENV_USER_SETTING_SIZE with 12268 in Hs.
  change (ENV_AREA_SIZE / 2) with 12288.
  assert (Hm : Z.land a 0x00FFF000 = a) by (destruct Ha as [->| ->]; done).
  set (n := Z.of_nat (length l)) in *.
  assert (Hc : n ≤ ceil4k n ≤ 12288).
  { unfold ceil4k. pose proof (Z.div_mod (n + 4095) 4096 ltac:(lia)).
    pose proof (Z.mod_pos_bound (n + 4095) 4096 ltac:(lia)).
    assert ((n + 4095) / 4096 < 4) by (apply Z.div_lt_upper_bound; lia). lia. }
  assert (He : ∀ x, bk_erase a n f x = if (a <=? x) && (x <? a + ceil4k n) then 255 else f x).
  { intros x. unfold bk_erase. rewrite Hm. apply erase_loop_spec. split; [lia|].
    pose proof (Z.div_mod n 4096 ltac:(lia)). pose proof (Z.mod_pos_bound n 4096 ltac:(lia)).
    rewrite Nat2Z.inj_succ, Z2Nat.id; [lia|]. apply Z.div_pos; lia. }
  split.
  - apply read_flash_eq; [done|]. intros i Hi.
    destruct (lookup_lt_is_Some_2 l i Hi) as [b Hbi].
    assert (byte b) as Hbb by (eapply Forall_lookup_1; eauto).
    unfold f', program. fold n. rewrite He. zif. simpl.
    replace (Z.to_nat (a + Z.of_nat i - a)) with i by lia.
    rewrite Hbi, (nth_lookup_Some _ _ 0 _ Hbi). f_equal.
    change 255 with (Z.ones 8). rewrite Z.land_comm, Z.land_ones by lia.
    symmetry. apply Z.mod_small. exact Hbb.
  - intros x Hx. unfold f', program. fold n. rewrite He.
    destruct (Z.leb_spec a x), (Z.ltb_spec x (a + n)), (Z.ltb_spec x (a + ceil4k n)); simpl; try done; lia.
Qed.

(** ** Images of an environment in flash *)
Definition end_of (a : Z) (es : list (list Z * list Z)) : Z := a + Z.of_nat (12 + length (enc es)).
Definition img_crc (a : Z) (es : list (list Z * list Z)) (cnt : Z) : Z :=
  ef_calc_crc32 0 (le_bytes (end_of a es) ++ le_bytes cnt ++ enc es).
Definition image (a : Z) (es : list (list Z * list Z)) (cnt : Z) : list Z :=
  le_bytes (end_of a es) ++ le_bytes cnt ++ le_bytes (img_crc a es cnt) ++ enc es.

Record holds_image (f : Z → Z) (a : Z) (es : list (list Z * list Z)) (cnt : Z) : Prop := {
  hi_ok : entries_ok es;
  hi_fit : fits es = true;
  hi_cnt : 0 ≤ cnt < 2 ^ 32;
  hi_img : read_flash f a (12 + length (enc es)) = image a es cnt }.

Lemma cache_prefix c n :
  take (12 + n) c = sub c 0 4 ++ sub c 4 4 ++ sub c 8 4 ++ sub c 12 n.
Proof.
  rewrite <-(sub_take c (12 + n)). change (12 + n)%nat with (4 + (4 + (4 + n)))%nat.
  rewrite !sub_add. done.
Qed.

Lemma saved_count_range s : all_bytes (env_cache s) → 0 ≤ get_saved_count s < 2 ^ 32.
Proof.
  intros B. unfold get_saved_count, le32.
  assert (∀ i, 0 ≤ nth i (sub (env_cache s) 4 4) 0 < 256) as H.
  { intros i. destruct (nth_in_or_default i (sub (env_cache s) 4 4) 0) as [I| ->]; [|lia].
    apply (all_bytes_sub _ 4 4) in B. unfold all_bytes in B. rewrite Forall_forall in B.
    apply B. by apply list_elem_of_In. }
  pose proof (H 0%nat); pose proof (H 1%nat); pose proof (H 2%nat); pose proof (H 3%nat). lia.
Qed.

(** Updating one header word. *)
Lemma write_word c o w : (o + 4 ≤ length c)%nat → all_bytes c →
  length (write_at c o (le_bytes w)) = length c ∧ all_bytes (write_at c o (le_bytes w)) ∧
  sub (write_at c o (le_bytes w)) o 4 = le_bytes w ∧
  (∀ p n, (p + n ≤ o)%nat ∨ (o + 4 ≤ p)%nat → sub (write_at c o (le_bytes w)) p n = sub c p n).
Proof.
  intros L B. split_and!.
  - apply length_write_at. rewrite length_le_bytes. lia.
  - unfold write_at. repeat (apply all_bytes_app; split); eauto using le_bytes_bytes.
    + by apply Forall_take.
    + by apply Forall_drop.
  - apply (sub_write_same c o (le_bytes w)). lia.
  - intros p n [H|H]; [apply sub_write_before; lia|].
    apply sub_write_after; rewrite ?length_le_bytes; lia.
Qed.

(** The header after the updates of [ef_save_env]: the image is in the cache. *)
Lemma header_update s es a : wf s es → (a = A0 ∨ a = A1) →
  let c1 := write_at (env_cache s) 0 (le_bytes (end_of a es)) in
  let cnt := u32 (get_saved_count s + 1) in
  let c2 := write_at c1 4 (le_bytes cnt) in
  let c3 := write_at c2 8 (le_bytes (img_crc a es cnt)) in
  sub c2 0 4 = le_bytes (end_of a es) ∧ sub c2 4 4 = le_bytes cnt ∧
  sub c2 12 (length (enc es)) = enc es ∧ sub c1 4 4 = sub (env_cache s) 4 4 ∧
  length c3 = length (env_cache s) ∧ all_bytes c3 ∧
  take (12 + length (enc es)) c3 = image a es cnt.
Proof.
  intros W Ha c1 cnt c2 c3. pose proof (wf_len _ _ W) as L. pose proof (wf_bytes _ _ W) as B.
  change ENV_USER_SETTING_SIZE with 12268 in L.
  destruct (write_word (env_cache s) 0 (end_of a es)) as (L1 & B1 & S1 & O1); [lia|done|].
  fold c1 in L1, B1, S1, O1.
  destruct (write_word c1 4 cnt) as (L2 & B2 & S2 & O2); [lia|done|].
  fold c2 in L2, B2, S2, O2.
  destruct (write_word c2 8 (img_crc a es cnt)) as (L3 & B3 & S3 & O3); [lia|done|].
  fold c3 in L3, B3, S3, O3.
  assert (E1 : sub c2 0 4 = le_bytes (end_of a es)) by (rewrite O2; [done|lia]).
  assert (E2 : sub c2 12 (length (enc es)) = enc es).
  { rewrite O2, O1; [|lia|lia]. apply W. }
  split_and!; [done|done|done|by apply O1; lia|congruence|done|].
  rewrite cache_prefix. unfold image. rewrite S3, (O3 0%nat), (O3 4%nat), (O3 12%nat) by lia.
  by rewrite E1, S2, E2.
Qed.

Lemma area_bounds a : a = A0 ∨ a = A1 → 0 < a < 2 ^ 23 ∧ a mod EF_ERASE_MIN_SIZE = 0.
Proof. intros [->| ->]; by vm_compute. Qed.

Lemma end_of_range a es : (a = A0 ∨ a = A1) → fits es = true → 0 ≤ end_of a es < 2 ^ 32.
Proof.
  intros Ha F. pose proof (area_bounds a Ha) as [? _]. unfold fits, end_of in *.
  change ENV_USER_SETTING_SIZE with 12268 in F. zb. lia.
Qed.

Lemma wf_fits s es : wf s es → fits es = true.
Proof. intros W. apply Z.ltb_lt, W. Qed.

Lemma length_image a es cnt : length (image a es cnt) = (12 + length (enc es))%nat.
Proof. unfold image. by rewrite !length_app, !length_le_bytes. Qed.

(** A state whose cache starts with an image is well-formed. *)
Lemma image_wf s a es cnt nx :
  (a = A0 ∧ nx = A1 ∨ a = A1 ∧ nx = A0) → entries_ok es → fits es = true → 0 ≤ cnt < 2 ^ 32 →
  Z.of_nat (length (env_cache s)) = ENV_USER_SETTING_SIZE → all_bytes (env_cache s) →
  cur_load_area_addr s = a → next_save_area_addr s = nx →
  take (12 + length (enc es)) (env_cache s) = image a es cnt →
  wf s es ∧ get_saved_count s = cnt ∧ get_env_crc s = img_crc a es cnt.
Proof.
  intros Ha Ok Fi Hc L B Cu Nx T. rewrite cache_prefix in T. unfold image in T.
  assert (HL : (12 + length (enc es) ≤ length (env_cache s))%nat).
  { unfold fits in Fi. zb. lia. }
  assert (a = A0 ∨ a = A1) as Ha' by tauto.
  pose proof (end_of_range a es Ha' Fi).
  apply app_inj_1 in T as [T0 T]; [|by rewrite length_sub by lia].
  apply app_inj_1 in T as [T1 T]; [|by rewrite length_sub by lia].
  apply app_inj_1 in T as [T2 T3]; [|by rewrite length_sub by lia].
  assert (Hcr : 0 ≤ img_crc a es cnt < 2 ^ 32).
  { apply ef_calc_crc32_range; [lia|]. repeat (apply all_bytes_app; split); eauto using le_bytes_bytes.
    apply enc_bytes, Ok. }
  split_and!.
  - split; [done|done|done| | |done|].
    + rewrite Cu, Nx. tauto.
    + unfold get_env_end_addr. rewrite T0, le32_bytes by done. by rewrite Cu.
    + unfold fits in Fi. by zb.
  - unfold get_saved_count. by rewrite T1, le32_bytes.
  - unfold get_env_crc. by rewrite T2, le32_bytes.
Qed.

(** The CRC of a cache that holds the first two words and the data of an image. *)
Lemma calc_crc_image s a es cnt :
  (a = A0 ∨ a = A1) → fits es = true → cur_load_area_addr s = a →
  sub (env_cache s) 0 4 = le_bytes (end_of a es) → sub (env_cache s) 4 4 = le_bytes cnt →
  sub (env_cache s) 12 (length (enc es)) = enc es →
  calc_env_crc s = img_crc a es cnt.
Proof.
  intros Ha Fi Cu S0 S1 S2. unfold calc_env_crc.
  assert (get_env_data_size s = length (enc es)) as ->.
  { unfold get_env_data_size, get_env_data_addr, get_env_system_addr, get_env_end_addr, ENV_PARAM_BYTE_SIZE.
    rewrite S0, Cu, le32_bytes by by apply end_of_range. unfold end_of.
    destruct (Z.ltb_spec (a + Z.of_nat 12) (a + Z.of_nat (12 + length (enc es)))); lia. }
  unfold ENV_PARAM_BYTE_SIZE. rewrite S0, S1, S2, !ef_calc_crc32_app. done.
Qed.

Lemma port_erase_done a n s : a mod EF_ERASE_MIN_SIZE = 0 →
  ef_port_erase a n s = Done (EF_NO_ERR, set_flash (bk_erase a n (flash s)) s).
Proof. intros H. unfold ef_port_erase. by rewrite H. Qed.
Lemma port_write_done a l s : Z.of_nat (length l) mod 4 = 0 →
  ef_port_write a l s = Done (EF_NO_ERR, set_flash (program a l (flash s)) s).
Proof. intros H. unfold ef_port_write. by rewrite H. Qed.
Lemma port_read_done a n s : n mod 4 = 0 →
  ef_port_read a n s = Done (read_flash (flash s) a (Z.to_nat n), s).
Proof. intros H. unfold ef_port_read. by rewrite H. Qed.

(** What happens before the flash is touched: the header in the cache, the areas
    swapped. *)
Lemma save_header erase write s es : wf s es → env_cache_changed s = true →
  let a := next_save_area_addr s in let cnt := u32 (get_saved_count s + 1) in
  let wsz := (12 + length (enc es))%nat in
  let c := write_at (write_at (write_at (env_cache s) 0 (le_bytes (end_of a es))) 4 (le_bytes cnt)) 8 (le_bytes (img_crc a es cnt)) in
  save_with erase write s =
    (let* result := erase a (Z.of_nat wsz) in
     if bool_decide (result = EF_ERASE_ERR) then ret result
     else let* c := gets env_cache in
          let* result := write a (take wsz c) in
          modify (set_changed false) ;;; ret result) (mk_st c a (cur_load_area_addr s) true (init_ok s) (flash s)).
Proof.
  intros W Ch a cnt wsz. assert (Ha : a = A0 ∨ a = A1) by (destruct (wf_area _ _ W) as [[_ ?]|[_ ?]]; auto).
  pose proof (wf_fits _ _ W) as Fi. pose proof (end_of_range a es Ha Fi) as Er.
  destruct (header_update s es a W Ha) as (H0 & H1 & H2 & H1' & HL & HB & HT). cbv zeta in H0, H1, H2, H1', HL, HB, HT. fold cnt in H0, H1, H2, H1', HL, HB, HT.
  set (c1 := write_at (env_cache s) 0 (le_bytes (end_of a es))) in *.
  set (c2 := write_at c1 4 (le_bytes cnt)) in *.
  set (c3 := write_at c2 8 (le_bytes (img_crc a es cnt))) in *. cbv zeta.
  assert (Hw : u32 (a + Z.of_nat wsz) = end_of a es) by (unfold end_of; fold wsz; apply u32_small; exact Er).
  set (s4 := mk_st c3 a (cur_load_area_addr s) true (init_ok s) (flash s)).
  unfold save_with. rewrite (bind_done (gets env_cache_changed) _ s true s) by (unfold gets; by rewrite Ch).
  cbv beta. change (negb true) with false. cbv iota.
  rewrite (bind_done (gets next_save_area_addr) _ s a s) by done.
  rewrite (bind_done (gets get_env_user_used_size) _ s wsz s) by (unfold gets; by rewrite (used_size _ _ W)).
  do 3 (erewrite bind_done by reflexivity). rewrite Hw.
  set (s1 := set_env_end_addr _ _).
  assert (Hc : get_saved_count s1 = get_saved_count s).
  { unfold get_saved_count, s1. pj. fold c1. by rewrite H1'. }
  erewrite bind_done by reflexivity. rewrite Hc. fold cnt. set (s2 := set_saved_count cnt s1).
  assert (Hcr : calc_env_crc s2 = img_crc a es cnt) by (by apply calc_crc_image).
  erewrite bind_done by reflexivity. rewrite Hcr.
  assert (set_crc (img_crc a es cnt) s2 = s4) as ->; [|done].
  unfold s4, s2, s1. unfold set_crc, set_saved_count, set_env_end_addr, set_cache. pj. by rewrite Ch.
Qed.

Lemma ef_save_env_spec s es :
  wf s es → env_cache_changed s = true →
  ∃ s', ef_save_env s = Done (EF_NO_ERR, s') ∧ wf s' es ∧
    cur_load_area_addr s' = next_save_area_addr s ∧
    next_save_area_addr s' = cur_load_area_addr s ∧
    init_ok s' = init_ok s ∧ env_cache_changed s' = false ∧
    get_saved_count s' = u32 (get_saved_count s + 1) ∧
    holds_image (flash s') (next_save_area_addr s) es (u32 (get_saved_count s + 1)) ∧
    (∀ x, ¬ (next_save_area_addr s ≤ x < next_save_area_addr s + ENV_AREA_SIZE / 2) →
          flash s' x = flash s x).
Proof.
  intros W Ch. set (a := next_save_area_addr s). set (cnt := u32 (get_saved_count s + 1)).
  assert (Ha : a = A0 ∨ a = A1) by (destruct (wf_area _ _ W) as [[_ ?]|[_ ?]]; auto).
  pose proof (wf_fits _ _ W) as Fi. pose proof (end_of_range a es Ha Fi) as Er.
  pose proof (area_bounds a Ha) as [_ Hmod].
  destruct (header_update s es a W Ha) as (H0 & H1 & H2 & H1' & HL & HB & HT). cbv zeta in H0, H1, H2, H1', HL, HB, HT. fold cnt in H0, H1, H2, H1', HL, HB, HT.
  set (c1 := write_at (env_cache s) 0 (le_bytes (end_of a es))) in *.
  set (c2 := write_at c1 4 (le_bytes cnt)) in *.
  set (c3 := write_at c2 8 (le_bytes (img_crc a es cnt))) in *.
  set (wsz := (12 + length (enc es))%nat) in *.
  set (s4 := mk_st c3 a (cur_load_area_addr s) true (init_ok s) (flash s)).
  unfold ef_save_env. rewrite (save_header ef_port_erase ef_port_write s es W Ch).
  fold a cnt c1 c2 c3 wsz s4.
  assert (Hl4 : length (take wsz c3) = wsz).
  { rewrite length_take, HL. pose proof (wf_len _ _ W). pose proof (wf_fit _ _ W) as Wf. fold wsz in Wf. lia. }
  assert (Hal : Z.of_nat wsz mod 4 = 0).
  { unfold wsz. rewrite Nat2Z.inj_add, <-Zplus_mod_idemp_r. pose proof (enc_mod es) as E.
    apply (f_equal Z.of_nat) in E. rewrite Nat2Z.inj_mod in E. change (Z.of_nat 4) with 4 in E.
    by rewrite E. }
  rewrite (bind_done _ _ _ _ _ (port_erase_done a (Z.of_nat wsz) s4 Hmod)).
  cbv beta. rewrite bool_decide_false by done.
  rewrite (bind_done (gets env_cache) _ _ _ _ eq_refl).
  rewrite (bind_done _ _ _ _ _ (port_write_done a (take wsz c3) _ ltac:(by rewrite Hl4))).
  unfold bind, modify, ret, s4. pj.
  destruct (save_flash a (flash s) (take wsz c3) Ha) as [Rd Fr].
  { rewrite Hl4. lia. }
  { rewrite Hl4. pose proof (wf_fit _ _ W) as Wf. fold wsz in Wf. lia. }
  { by apply Forall_take. }
  rewrite Hl4 in Rd, Fr. eexists. split; [reflexivity|]. pj.
  edestruct (image_wf (mk_st c3 a (cur_load_area_addr s) false (init_ok s) (program a (take wsz c3) (bk_erase a (Z.of_nat wsz) (flash s))))
    a es cnt (cur_load_area_addr s)) as (W' & C' & _).
  - destruct (wf_area _ _ W) as [[? ?]|[? ?]]; unfold a; auto.
  - apply W.
  - done.
  - apply u32_range.
  - pj. rewrite HL. apply W.
  - done.
  - done.
  - done.
  - done.
  - split_and!; try done. split; [apply W|done|apply u32_range|]. fold wsz. by rewrite Rd.
Qed.

(** ** Loading *)
Definition cache_ok (s : st) : Prop :=
  Z.of_nat (length (env_cache s)) = ENV_USER_SETTING_SIZE ∧ all_bytes (env_cache s).
Definition area_end (f : Z → Z) (a : Z) : Z := le32 (read_flash f a 4).

(** An area the start-up check rejects: its end address is out of range, or it is
    a word multiple behind the header and the CRC does not match. *)
Definition bad_area (f : Z → Z) (a : Z) : Prop :=
  let e := area_end f a in
  end_in_range a e = false ∨
  ((e - a) mod 4 = 0 ∧ 12 ≤ e - a ∧
   ef_calc_crc32 0 (read_flash f a 8 ++ read_flash f (a + 12) (Z.to_nat (e - a - 12))) ≠
   le32 (read_flash f (a + 8) 4)).

Definition other (a : Z) : Z := if a =? A0 then A1 else A0.

(** The flash durably holds [es]: area [a] holds its image, and the other area is
    rejected or older. *)
Record durable (f : Z → Z) (a : Z) (es : list (list Z * list Z)) (cnt : Z) : Prop := {
  du_area : a = A0 ∨ a = A1;
  du_img : holds_image f a es cnt;
  du_cnt : cnt < 0xFFFFFFFF;
  du_other : bad_area f (other a) ∨ ∃ es' cnt', holds_image f (other a) es' cnt' ∧ cnt' < cnt }.

Lemma image_area_end f a es cnt : (a = A0 ∨ a = A1) → holds_image f a es cnt →
  area_end f a = end_of a es ∧ end_in_range a (end_of a es) = true ∧
  (end_of a es - a) mod 4 = 0 ∧ Z.to_nat (end_of a es - a) = (12 + length (enc es))%nat ∧
  le32 (read_flash f (a + 4) 4) = cnt.
Proof.
  intros Ha [Ok Fi Hc Im]. pose proof (end_of_range a es Ha Fi). pose proof (area_bounds a Ha) as [? _].
  assert (E : ∀ o, (o + 4 ≤ 12)%nat → read_flash f (a + Z.of_nat o) 4 = sub (image a es cnt) o 4).
  { intros o Ho. rewrite <-Im, read_flash_sub by lia. done. }
  split_and!.
  - unfold area_end. pose proof (E 0%nat ltac:(lia)) as E0. rewrite Z.add_0_r in E0. rewrite E0.
    unfold image. rewrite sub_app_l by (rewrite length_le_bytes; lia).
    change 4%nat with (length (le_bytes (end_of a es))). rewrite sub_all. by apply le32_bytes.
  - unfold end_in_range, end_of in *. unfold fits in Fi. change ENV_USER_SETTING_SIZE with 12268 in *. zb. zif. done.
  - unfold end_of. replace (a + Z.of_nat (12 + length (enc es)) - a) with (12 + Z.of_nat (length (enc es))) by lia.
    rewrite <-Zplus_mod_idemp_r. pose proof (enc_mod es) as Em. apply (f_equal Z.of_nat) in Em.
    rewrite Nat2Z.inj_mod in Em. change (Z.of_nat 4) with 4 in Em. by rewrite Em.
  - unfold end_of. lia.
  - pose proof (E 4%nat ltac:(lia)) as E4. change (Z.of_nat 4) with 4 in E4. rewrite E4. unfold image. change 4%nat with (length (le_bytes (end_of a es)) + 0)%nat at 1.
    rewrite sub_app_r. rewrite sub_app_l by (rewrite length_le_bytes; lia).
    change 4%nat with (length (le_bytes cnt)). rewrite sub_all. by apply le32_bytes.
Qed.

(** Reading bytes to the start of the cache. *)
Lemma read_to_cache_done a n s : n mod 4 = 0 →
  read_to_cache a n s =
  Done (tt, set_cache (write_at (env_cache s) 0 (read_flash (flash s) a (Z.to_nat n))) s).
Proof. intros H. unfold read_to_cache, bind. by rewrite port_read_done. Qed.

Lemma cache_ok_write s bs : cache_ok s → all_bytes bs → (length bs ≤ length (env_cache s))%nat →
  cache_ok (set_cache (write_at (env_cache s) 0 bs) s).
Proof.
  intros [L B] Hb Hl. split; pj.
  - by rewrite length_write_at by lia.
  - unfold write_at. rewrite take_0. simpl. apply all_bytes_app. split; [done|]. by apply Forall_drop.
Qed.

Lemma read_flash_bytes f a n : (∀ x, byte (f x)) → all_bytes (read_flash f a n).
Proof. intros H. apply Forall_forall. intros b (i & -> & _)%list_elem_of_fmap. apply H. Qed.

Definition try_area (a e : Z) : M st bool :=
  if end_in_range a e then check_area a e else ret false.

Lemma try_area_image s a es cnt :
  (a = A0 ∨ a = A1) → cache_ok s → holds_image (flash s) a es cnt →
  try_area a (area_end (flash s) a) s =
  Done (true, set_cur a (set_cache (write_at (env_cache s) 0 (image a es cnt)) s)).
Proof.
  intros Ha [L B] Hi. destruct (image_area_end _ _ _ _ Ha Hi) as (-> & Rg & Md & Nt & _).
  unfold try_area, check_area. rewrite Rg.
  rewrite (bind_done _ _ _ _ _ (port_read_done (a + 8) 4 s eq_refl)).
  rewrite (bind_done _ _ _ _ _ (read_to_cache_done a (end_of a es - a) s Md)).
  rewrite Nt, (hi_img _ _ _ _ Hi). unfold bind, modify, gets. set (s' := set_cur _ _).
  do 2 f_equal. pose proof (hi_fit _ _ _ _ Hi) as Fi.
  assert (HL : (length (image a es cnt) ≤ length (env_cache s))%nat).
  { rewrite length_image. unfold fits in Fi. zb. lia. }
  assert (Ib : all_bytes (image a es cnt)).
  { unfold image. repeat (apply all_bytes_app; split); eauto using le_bytes_bytes. apply enc_bytes, Hi. }
  destruct (cache_ok_write s (image a es cnt)) as [L' B']; [done|done|done|].
  assert (T : take (12 + length (enc es)) (env_cache s') = image a es cnt).
  { unfold s'. pj. rewrite <-(length_image a es cnt), <-sub_take. apply sub_write_same. lia. }
  pose proof T as T'. rewrite cache_prefix in T'. unfold image in T'.
  assert (HLs : length (env_cache s') = length (env_cache s)) by (unfold s'; pj; apply length_write_at; lia).
  rewrite length_image in HL.
  apply app_inj_1 in T' as [T0 T']; [|by rewrite length_sub by lia].
  apply app_inj_1 in T' as [T1 T']; [|by rewrite length_sub by lia].
  apply app_inj_1 in T' as [T2 T3]; [|by rewrite length_sub by lia].
  unfold env_crc_is_ok. rewrite (calc_crc_image s' a es cnt Ha Fi eq_refl T0 T1 T3).
  unfold get_env_crc. rewrite T2, le32_bytes; [apply Z.eqb_refl|].
  apply ef_calc_crc32_range; [lia|]. repeat (apply all_bytes_app; split); eauto using le_bytes_bytes.
  apply enc_bytes, Hi.
Qed.

Lemma try_area_bad s a :
  (a = A0 ∨ a = A1) → cache_ok s → (∀ x, byte (flash s x)) → bad_area (flash s) a →
  ∃ s', try_area a (area_end (flash s) a) s = Done (false, s') ∧ cache_ok s' ∧ flash s' = flash s ∧
    init_ok s' = init_ok s ∧ env_cache_changed s' = env_cache_changed s.
Proof.
  intros Ha Ck Fb Bad. unfold try_area. set (e := area_end (flash s) a) in *.
  destruct (end_in_range a e) eqn:Rg; [|by eauto 10].
  destruct Bad as [Bad|(Md & Ge & Cr)]; [unfold e in Rg; congruence|]. fold e in Md, Ge, Cr.
  unfold check_area. rewrite (bind_done _ _ _ _ _ (port_read_done (a + 8) 4 s eq_refl)).
  rewrite (bind_done _ _ _ _ _ (read_to_cache_done a (e - a) s Md)).
  unfold bind, modify, gets. set (s' := set_cur _ _). exists s'.
  set (n := Z.to_nat (e - a)) in *. destruct Ck as [L B].
  assert (Hn : (12 ≤ n ≤ length (env_cache s))%nat).
  { unfold end_in_range in Rg. zb. unfold n. lia. }
  assert (Hrl : length (read_flash (flash s) a n) = n) by apply length_read_flash.
  assert (Ck' : cache_ok s').
  { apply cache_ok_write; [done|by apply read_flash_bytes|lia]. }
  split; [|done].
  assert (Hsub : ∀ o m, (o + m ≤ n)%nat → sub (env_cache s') o m = read_flash (flash s) (a + Z.of_nat o) m).
  { intros o m H. unfold s'. pj. rewrite <-(read_flash_sub _ a n) by done.
    rewrite <-(sub_write_same (env_cache s) 0 (read_flash (flash s) a n)) at 2 by lia.
    rewrite Hrl, sub_sub by lia. done. }
  do 2 f_equal. unfold env_crc_is_ok, calc_env_crc, get_env_crc, ENV_PARAM_BYTE_SIZE.
  assert (He : get_env_end_addr s' = e).
  { unfold get_env_end_addr. rewrite (Hsub 0%nat 4%nat) by lia. by rewrite Z.add_0_r. }
  assert (get_env_data_size s' = Z.to_nat (e - a - 12)) as ->.
  { unfold get_env_data_size, get_env_data_addr, get_env_system_addr, ENV_PARAM_BYTE_SIZE.
    rewrite He. change (cur_load_area_addr s') with a.
    destruct (Z.ltb_spec (a + Z.of_nat 12) e); lia. }
  rewrite !ef_calc_crc32_app, app_assoc. change (sub (env_cache s') 4 4) with (sub (env_cache s') (0 + 4) 4).
  rewrite <-sub_add, !Hsub by (unfold n in *; lia). rewrite Z.add_0_r.
  apply Z.eqb_neq. exact Cr.
Qed.

(** What a reboot finds: the loaded state is well-formed for [es]. *)
Definition loaded (s s' : st) (a : Z) (es : list (list Z * list Z)) (cnt : Z) : Prop :=
  wf s' es ∧ cur_load_area_addr s' = a ∧ get_saved_count s' = cnt ∧ flash s' = flash s ∧
  env_cache_changed s' = env_cache_changed s.

Lemma image_loaded s a es cnt c :
  (a = A0 ∨ a = A1) → cache_ok s → holds_image (flash s) a es cnt →
  c = write_at (env_cache s) 0 (image a es cnt) →
  loaded s (mk_st c a (other a) (env_cache_changed s) (init_ok s) (flash s)) a es cnt.
Proof.
  intros Ha Ck Hi ->. set (s' := mk_st _ _ _ _ _ _).
  pose proof (hi_fit _ _ _ _ Hi) as Fi. destruct Ck as [L B].
  assert (HL : (length (image a es cnt) ≤ length (env_cache s))%nat).
  { rewrite length_image. unfold fits in Fi. zb. lia. }
  destruct (cache_ok_write s (image a es cnt)) as [L' B']; [done| |done|].
  { unfold image. repeat (apply all_bytes_app; split); eauto using le_bytes_bytes. apply enc_bytes, Hi. }
  destruct (image_wf s' a es cnt (other a)) as (W & C & _); try done.
  - destruct Ha as [->| ->]; auto.
  - apply Hi.
  - apply Hi.
  - unfold s'. pj. rewrite <-(length_image a es cnt), <-sub_take. apply sub_write_same. lia.
Qed.

Section Boot.
Context (defs : list (list Z * list Z)).

Lemma load_unfold s :
  ef_load_env defs s =
  (let area0_end := area_end (flash s) A0 in
   let area1_end := area_end (flash s) A1 in
   let* v0 := try_area A0 area0_end in
   let* v1 := try_area A1 area1_end in
   let* (v0, v1) :=
     (if v0 && v1 then
        let* c0 := ef_port_read (A0 + 4) 4 in
        let* c1 := ef_port_read (A1 + 4) 4 in
        if (le32 c1 <? le32 c0) || ((le32 c0 =? 0) && (le32 c1 =? 0xFFFFFFFF))
        then ret (v0, false) else ret (false, v1)
      else ret (v0, v1)) in
   if (v0 : bool) then
     modify (set_cur A0) ;;; modify (set_next A1) ;;;
     read_to_cache A0 (area0_end - A0) ;;; ret EF_NO_ERR
   else if (v1 : bool) then modify (set_next A0) ;;; ret EF_NO_ERR
   else modify (set_cur A1) ;;; modify (set_next A0) ;;; ef_env_set_default defs) s.
Proof. reflexivity. Qed.

Lemma set_cur_cache_ok a s : cache_ok s → cache_ok (set_cur a s).
Proof. done. Qed.

Lemma image_cache_ok s a es cnt : cache_ok s → holds_image (flash s) a es cnt →
  cache_ok (set_cur a (set_cache (write_at (env_cache s) 0 (image a es cnt)) s)).
Proof.
  intros Ck Hi. apply set_cur_cache_ok, cache_ok_write; [done| |].
  - unfold image. repeat (apply all_bytes_app; split); eauto using le_bytes_bytes. apply enc_bytes, Hi.
  - destruct Ck as [L _]. rewrite length_image. pose proof (hi_fit _ _ _ _ Hi) as Fi. unfold fits in Fi. zb. lia.
Qed.

(** The tail of the load once area 0 is chosen. *)
Lemma load_tail0 s es cnt : cache_ok s → holds_image (flash s) A0 es cnt →
  ∃ s', (modify (set_cur A0) ;;; modify (set_next A1) ;;;
         read_to_cache A0 (area_end (flash s) A0 - A0) ;;; ret EF_NO_ERR) s = Done (EF_NO_ERR, s') ∧
    loaded s s' A0 es cnt ∧ init_ok s' = init_ok s.
Proof.
  intros Ck Hi. destruct (image_area_end _ A0 _ _ (or_introl eq_refl) Hi) as (E & _ & Md & Nt & _).
  rewrite E. unfold bind at 1, modify at 1. unfold bind at 1, modify at 1.
  rewrite (bind_done _ _ _ _ _ (read_to_cache_done A0 _ _ Md)). rewrite Nt. pj.
  rewrite (hi_img _ _ _ _ Hi). eexists. split; [reflexivity|]. split; [|done].
  exact (image_loaded s A0 es cnt _ (or_introl eq_refl) Ck Hi eq_refl).
Qed.

Lemma load_durable s a es cnt :
  cache_ok s → (∀ x, byte (flash s x)) → durable (flash s) a es cnt →
  ∃ s', ef_load_env defs s = Done (EF_NO_ERR, s') ∧ loaded s s' a es cnt ∧ init_ok s' = init_ok s.
Proof.
  intros Ck Fb [Ha Hi Hc Ho]. rewrite load_unfold. cbv zeta.
  destruct Ha as [->| ->]; change (other A0) with A1 in Ho; change (other A1) with A0 in Ho.
  - rewrite (bind_done _ _ _ _ _ (try_area_image s A0 es cnt (or_introl eq_refl) Ck Hi)).
    set (s1 := set_cur _ _). pose proof (image_cache_ok s A0 es cnt Ck Hi) as Ck1. fold s1 in Ck1.
    change (flash s) with (flash s1) in *. change (env_cache_changed s) with (env_cache_changed s1).
    assert (loaded s = loaded s1) as -> by done. change (init_ok s) with (init_ok s1).
    destruct Ho as [Bad|(es' & cnt' & Hi' & Lt)].
    + destruct (try_area_bad s1 A1 (or_intror eq_refl) Ck1 Fb Bad) as (s2 & T & Ck2 & F2 & I2 & C2).
      rewrite (bind_done _ _ _ _ _ T). cbn [andb].
      rewrite (bind_done (ret (true, false)) _ s2 (true, false) s2) by done. cbv iota beta.
      rewrite <-F2. rewrite <-F2 in Hi.
      destruct (load_tail0 s2 es cnt Ck2 Hi) as (s' & R & (W & Cu & Cn & Fl & Cg) & In). exists s'.
      split; [exact R|]. split; [|congruence]. split_and!; try done; congruence.
    + rewrite (bind_done _ _ _ _ _ (try_area_image s1 A1 es' cnt' (or_intror eq_refl) Ck1 Hi')).
      set (s2 := set_cur _ _). pose proof (image_cache_ok s1 A1 es' cnt' Ck1 Hi') as Ck2. fold s2 in Ck2.
      cbn [andb].
      destruct (image_area_end _ A0 _ _ (or_introl eq_refl) Hi) as (_ & _ & _ & _ & E0).
      destruct (image_area_end _ A1 _ _ (or_intror eq_refl) Hi') as (_ & _ & _ & _ & E1).
      rewrite (bind_done _ _ s2 (true, false) s2).
      * destruct (load_tail0 s2 es cnt Ck2 Hi) as (s' & R & (W & Cu & Cn & Fl & Cg) & In). exists s'.
        split; [exact R|]. split; [|done]. split_and!; done.
      * rewrite (bind_done _ _ _ _ _ (port_read_done (A0 + 4) 4 s2 eq_refl)).
        rewrite (bind_done _ _ _ _ _ (port_read_done (A1 + 4) 4 s2 eq_refl)).
        change (Z.to_nat 4) with 4%nat. change (flash s2) with (flash s1). rewrite E0, E1.
        by rewrite (proj2 (Z.ltb_lt _ _)) by done.
  - destruct Ho as [Bad|(es' & cnt' & Hi' & Lt)].
    + destruct (try_area_bad s A0 (or_introl eq_refl) Ck Fb Bad) as (s1 & T & Ck1 & F1 & I1 & C1).
      rewrite (bind_done _ _ _ _ _ T). rewrite <-F1. rewrite <-F1 in Hi.
      rewrite (bind_done _ _ _ _ _ (try_area_image s1 A1 es cnt (or_intror eq_refl) Ck1 Hi)). cbn [andb].
      set (s2 := set_cur _ _). rewrite (bind_done (ret (false, true)) _ s2 (false, true) s2) by done. cbv iota beta.
      eexists. split; [reflexivity|]. unfold s2.
      destruct (image_loaded s1 A1 es cnt _ (or_intror eq_refl) Ck1 Hi eq_refl) as (W & Cu & Cn & Fl & Cg).
      split; [|exact I1]. split_and!; try done; pj; congruence.
    + rewrite (bind_done _ _ _ _ _ (try_area_image s A0 es' cnt' (or_introl eq_refl) Ck Hi')).
      set (s1 := set_cur _ _). pose proof (image_cache_ok s A0 es' cnt' Ck Hi') as Ck1. fold s1 in Ck1.
      change (flash s) with (flash s1) in *.
      rewrite (bind_done _ _ _ _ _ (try_area_image s1 A1 es cnt (or_intror eq_refl) Ck1 Hi)). cbn [andb].
      set (s2 := set_cur _ _).
      destruct (image_area_end _ A0 _ _ (or_introl eq_refl) Hi') as (_ & _ & _ & _ & E0).
      destruct (image_area_end _ A1 _ _ (or_intror eq_refl) Hi) as (_ & _ & _ & _ & E1).
      rewrite (bind_done _ _ s2 (false, true) s2).
      * eexists. split; [reflexivity|].
        destruct (image_loaded s1 A1 es cnt _ (or_intror eq_refl) Ck1 Hi eq_refl) as (W & Cu & Cn & Fl & Cg).
        split; [|done]. split_and!; done.
      * rewrite (bind_done _ _ _ _ _ (port_read_done (A0 + 4) 4 s2 eq_refl)).
        rewrite (bind_done _ _ _ _ _ (port_read_done (A1 + 4) 4 s2 eq_refl)).
        change (Z.to_nat 4) with 4%nat. change (flash s2) with (flash s1). rewrite E0, E1.
        rewrite (proj2 (Z.ltb_ge cnt cnt')) by lia. rewrite (proj2 (Z.eqb_neq cnt _)) by lia.
        by rewrite andb_false_r.
Qed.

(** Writing one area leaves the image in the other one alone. *)
Lemma image_frame f f' a es cnt :
  (a = A0 ∨ a = A1) → holds_image f a es cnt →
  (∀ x, ¬ (other a ≤ x < other a + ENV_AREA_SIZE / 2) → f' x = f x) → holds_image f' a es cnt.
Proof.
  intros Ha [O F C I] Fr. split; [done|done|done|]. rewrite <-I. apply read_flash_ext.
  intros x Hx. apply Fr. unfold fits in F. change ENV_USER_SETTING_SIZE with 12268 in F. zb.
  change (ENV_AREA_SIZE / 2) with 12288. assert (A1 = A0 + 12288) by done.
  destruct Ha as [->| ->]; [change (other A0) with A1|change (other A1) with A0]; lia.
Qed.
Lemma other_area s es : wf s es → other (cur_load_area_addr s) = next_save_area_addr s ∧
  other (next_save_area_addr s) = cur_load_area_addr s.
Proof. intros W. destruct (wf_area _ _ W) as [[-> ->]|[-> ->]]; done. Qed.

(** ** Loss of power during a save
    The save up to the moment when [k] sectors are erased and [n] bytes programmed. *)
Definition cut_erase (k : nat) (addr size : Z) : M st EfErrCode :=
  EF_ASSERT (addr mod EF_ERASE_MIN_SIZE =? 0) ;;;
  let* f := gets flash in
  modify (set_flash (erase_loop k (Z.land addr 0x00FFF000) size f)) ;;; ret EF_NO_ERR.
Definition cut_write (n : nat) (addr : Z) (buf : list Z) : M st EfErrCode :=
  EF_ASSERT (Z.of_nat (length buf) mod 4 =? 0) ;;;
  let* f := gets flash in
  modify (set_flash (program addr (take n buf) f)) ;;; ret EF_NO_ERR.
Definition save_cut (k n : nat) : M st EfErrCode := save_with (cut_erase k) (cut_write n).

Lemma erase_loop_outside k addr size f x : 0 < size → ¬ (addr ≤ x < addr + ceil4k size) → erase_loop k addr size f x = f x.
Proof.
  revert addr size f. induction k as [|k IH]; intros addr size f Hs Hx; [done|]. cbn [erase_loop].
  assert (Hc : size ≤ ceil4k size ∧ 4096 ≤ ceil4k size) by (unfold ceil4k; Z.to_euclidean_division_equations; lia).
  assert (Es : erase_sector addr f x = f x) by (unfold erase_sector; destruct (Z.leb_spec addr x), (Z.ltb_spec x (addr + 4096)); cbn; try done; lia).
  destruct (Z.ltb_spec size 4096) as [L|L]; [done|]. destruct (Z.eqb_spec (size - 4096) 0) as [E|E]; [done|].
  rewrite IH; [done|lia|]. assert (ceil4k size = 4096 + ceil4k (size - 4096)); [|lia].
  unfold ceil4k. replace (size + 4095) with (size - 4096 + 4095 + 1 * 4096) by lia. rewrite Z.div_add by lia. lia.
Qed.
Lemma erase_loop_erased k addr size f x : f x = 255 → erase_loop k addr size f x = 255.
Proof.
  revert addr size f. induction k as [|k IH]; intros addr size f Hx; [done|]. cbn [erase_loop].
  assert (Es : erase_sector addr f x = 255) by (unfold erase_sector; by destruct (_ && _)).
  destruct (_ =? 0); [done|by apply IH].
Qed.
Lemma erase_loop_first k addr size f x : (0 < k)%nat → addr ≤ x < addr + 4096 → erase_loop k addr size f x = 255.
Proof.
  intros Hk Hx. destruct k as [|k]; [lia|]. cbn [erase_loop]. assert (Es : erase_sector addr f x = 255) by (unfold erase_sector; by zif).
  destruct (_ =? 0); [done|by apply erase_loop_erased].
Qed.

(** An area whose header is erased, but for up to three bytes, is rejected. *)
Lemma erased_header_bad f a l : (a = A0 ∨ a = A1) → (length l ≤ 3)%nat → (∀ x, a ≤ x < a + 4 → f x = 255) → all_bytes l →
  bad_area (program a l f) a.
Proof.
  intros Ha Hl Hf Hb. left. unfold area_end.
  assert (E3 : program a l f (a + 3) = 255).
  { unfold program. rewrite (Hf (a + 3)) by lia. destruct (Z.ltb_spec (a + 3) (a + Z.of_nat (length l))); [lia|]. by rewrite andb_false_r. }
  assert (Bd : ∀ x, a ≤ x < a + 4 → byte (program a l f x)).
  { intros x Hx. unfold program. rewrite Hf by lia. destruct (_ && _); [|unfold byte; lia].
    change 255 with (Z.ones 8). rewrite Z.land_comm, Z.land_ones by lia. unfold byte. apply Z.mod_pos_bound. lia. }
  assert (N : ∀ i, (i < 4)%nat → nth i (read_flash (program a l f) a 4) 0 = program a l f (a + Z.of_nat i)) by (intros i Hi; apply nth_lookup_Some; by apply read_flash_lookup).
  unfold le32. rewrite !N by lia. change (Z.of_nat 0) with 0. change (Z.of_nat 1) with 1. change (Z.of_nat 2) with 2. change (Z.of_nat 3) with 3.
  rewrite E3. pose proof (Bd (a + 0) ltac:(lia)) as B0. pose proof (Bd (a + 1) ltac:(lia)) as B1. pose proof (Bd (a + 2) ltac:(lia)) as B2.
  unfold byte in *. set (e := _ + 16777216 * 255). assert (16777216 * 255 ≤ e) by (unfold e; lia). unfold end_in_range. change ENV_USER_SETTING_SIZE with 12268.
  assert (a ≤ 4300000) by (destruct Ha as [-> | ->]; by vm_compute). rewrite (proj2 (Z.ltb_lt (a + 12268) e)) by lia. by rewrite orb_true_r.
Qed.

Lemma save_cut_run k n s es : wf s es → env_cache_changed s = true →
  ∃ s', save_cut k n s = Done (EF_NO_ERR, s') ∧
    (∀ x, ¬ (next_save_area_addr s ≤ x < next_save_area_addr s + ENV_AREA_SIZE / 2) → flash s' x = flash s x) ∧
    ((0 < k)%nat → (n ≤ 3)%nat → bad_area (flash s') (next_save_area_addr s)) ∧
    (k = 0%nat → n = 0%nat → ∀ x, flash s' x = flash s x).
Proof.
  intros W Ch. set (a := next_save_area_addr s). assert (Ha : a = A0 ∨ a = A1) by (destruct (wf_area _ _ W) as [[_ ?]|[_ ?]]; auto).
  destruct (header_update s es a W Ha) as (_ & _ & _ & _ & HL & HB & _). unfold save_cut. rewrite (save_header _ _ s es W Ch). fold a.
  set (c := write_at _ 8 _) in *. set (wsz := (12 + length (enc es))%nat).
  pose proof (wf_len _ _ W) as Lc. pose proof (wf_fit _ _ W) as Wf. fold wsz in Wf. change ENV_USER_SETTING_SIZE with 12268 in *.
  assert (Hl : length (take wsz c) = wsz) by (rewrite length_take, HL; lia).
  assert (Hm : Z.of_nat wsz mod 4 = 0).
  { unfold wsz. rewrite Nat2Z.inj_add, <-Zplus_mod_idemp_r. pose proof (enc_mod es) as E. apply (f_equal Z.of_nat) in E. rewrite Nat2Z.inj_mod in E.
    change (Z.of_nat 4) with 4 in E. by rewrite E. }
  assert (Hc : ceil4k (Z.of_nat wsz) ≤ 12288) by (unfold ceil4k; Z.to_euclidean_division_equations; lia).
  assert (Ea : Z.land a 0x00FFF000 = a) by (by destruct Ha as [-> | ->]).
  set (g := erase_loop k a (Z.of_nat wsz) (flash s)).
  eexists. split; [|split_and!].
  - erewrite bind_done; [|unfold cut_erase, EF_ASSERT; rewrite (proj2 (Z.eqb_eq (a mod _) 0)) by apply (area_bounds a Ha); rewrite Ea; reflexivity].
    rewrite bool_decide_false by done. rewrite (bind_done (gets env_cache) _ _ c _) by done.
    erewrite bind_done; [|unfold cut_write, EF_ASSERT; rewrite Hl, Hm; reflexivity]. reflexivity.
  - cbn [flash set_changed set_flash]. fold g. intros x Hx. change (ENV_AREA_SIZE / 2) with 12288 in Hx. unfold program. rewrite length_take, Hl.
    transitivity (g x); [|apply erase_loop_outside; lia].
    destruct (Z.leb_spec a x), (Z.ltb_spec x (a + Z.of_nat (n `min` wsz))); cbn; try done; lia.
  - cbn [flash set_changed set_flash]. fold g. intros Hk Hn. apply erased_header_bad; [done|rewrite length_take; lia|intros x Hx; apply erase_loop_first; [done|lia]|].
    by apply Forall_take, Forall_take.
  - cbn [flash set_changed set_flash]. fold g. intros -> -> x. unfold program. rewrite firstn_O. cbn [length]. change (Z.of_nat 0) with 0. destruct (Z.leb_spec a x), (Z.ltb_spec x (a + 0)); cbn; try done; exfalso; lia.
Qed.

(** Creating the default set in an empty cache. *)
Lemma fits_prefix es es' : fits (es ++ es') = true → fits es = true.
Proof. unfold fits. rewrite enc_app, length_app, !Z.ltb_lt. lia. Qed.

Lemma create_all_spec l es s :
  wf s es → entries_ok (es ++ l) → fits (es ++ l) = true →
  ∃ s', create_all l s = Done (tt, s') ∧ wf s' (es ++ l) ∧ frame s s' ∧
    (l ≠ [] → env_cache_changed s' = true).
Proof.
  revert es s. induction l as [|[k v] l IH]; intros es s W Ok Fi.
  - exists s. rewrite app_nil_r. by split_and!.
  - cbn [create_all].
    assert (He : entry_ok (k, v) ∧ (k ∉ fst <$> es)).
    { apply entries_ok_app in Ok as (_ & [F _] & D). apply Forall_cons in F as [F _].
      split; [done|]. intros H. apply (D k H). simpl. rewrite elem_of_cons. by left. }
    destruct He as [He Hk]. rewrite cons_middle, app_assoc in Ok, Fi.
    pose proof (create_env_spec s es k v W He Hk) as C. rewrite (fits_prefix _ _ Fi) in C.
    destruct C as (s1 & C & W1 & Fr1 & C1). rewrite (bind_done _ _ _ _ _ C).
    destruct (IH (es ++ [(k, v)]) s1 W1 Ok Fi) as (s2 & R & W2 & Fr2 & C2).
    exists s2. split; [exact R|]. rewrite cons_middle, app_assoc. split_and!; [done|by eapply env_frame_trans|].
    intros _. destruct l as [|e l]; [|by apply C2].
    injection R as <-. exact C1.
Qed.

Lemma empty_wf s : cache_ok s →
  (cur_load_area_addr s = A0 ∧ next_save_area_addr s = A1 ∨
   cur_load_area_addr s = A1 ∧ next_save_area_addr s = A0) →
  let s' := set_saved_count 0 (set_env_end_addr (get_env_data_addr s) s) in
  wf s' [] ∧ get_saved_count s' = 0.
Proof.
  intros [L B] Ha s'. change ENV_USER_SETTING_SIZE with 12268 in L.
  assert (Hd : 0 ≤ get_env_data_addr s < 2 ^ 32).
  { unfold get_env_data_addr, get_env_system_addr. destruct Ha as [[-> _]|[-> _]]; by vm_compute. }
  destruct (write_word (env_cache s) 0 (get_env_data_addr s)) as (L1 & B1 & S1 & O1); [lia|done|].
  set (c1 := write_at (env_cache s) 0 (le_bytes (get_env_data_addr s))) in *.
  destruct (write_word c1 4 0) as (L2 & B2 & S2 & O2); [lia|done|].
  set (c2 := write_at c1 4 (le_bytes 0)) in *.
  assert (env_cache s' = c2) as Hc by done. split.
  - split; rewrite ?Hc; [|done| |exact Ha| |done|by vm_compute].
    + change ENV_USER_SETTING_SIZE with 12268. lia.
    + split; constructor.
    + unfold get_env_end_addr. rewrite Hc, (O2 0%nat 4%nat), S1, le32_bytes by lia. done.
  - unfold get_saved_count. by rewrite Hc, S2.
Qed.

Hypothesis defs_ok : entries_ok defs.
Hypothesis defs_fit : fits defs = true.
Hypothesis defs_ne : defs ≠ [].

Lemma set_default_spec s :
  cache_ok s →
  (cur_load_area_addr s = A0 ∧ next_save_area_addr s = A1 ∨
   cur_load_area_addr s = A1 ∧ next_save_area_addr s = A0) →
  ∃ s', ef_env_set_default defs s = Done (EF_NO_ERR, s') ∧ wf s' defs ∧
    durable (flash s') (cur_load_area_addr s') defs 2 ∧ get_saved_count s' = 2 ∧
    init_ok s' = init_ok s ∧ env_cache_changed s' = false.
Proof.
  intros Ck Ha. destruct (empty_wf s Ck Ha) as [W0 C0]. set (s0 := set_saved_count _ _) in *.
  destruct (create_all_spec defs [] s0 W0) as (s1 & R1 & W1 & (Fc1 & Fn1 & Fi1 & Ff1 & Fs1) & Ch1); [done|done|].
  specialize (Ch1 defs_ne).
  destruct (ef_save_env_spec s1 defs W1 Ch1) as (s2 & R2 & W2 & Cu2 & Nx2 & In2 & Ch2 & Cn2 & Im2 & Fr2).
  assert (W2' : wf (set_changed true s2) defs) by (destruct W2; by split).
  destruct (ef_save_env_spec (set_changed true s2) defs W2' eq_refl)
    as (s3 & R3 & W3 & Cu3 & Nx3 & In3 & Ch3 & Cn3 & Im3 & Fr3).
  change (get_saved_count (set_changed true s2)) with (get_saved_count s2) in *.
  change (next_save_area_addr (set_changed true s2)) with (next_save_area_addr s2) in *.
  change (flash (set_changed true s2)) with (flash s2) in *.
  change (init_ok (set_changed true s2)) with (init_ok s2) in *.
  rewrite Cn2, Fs1, C0 in *. change (u32 (u32 (0 + 1) + 1)) with 2 in *. change (u32 (0 + 1)) with 1 in *.
  exists s3. split.
  { unfold ef_env_set_default. destruct defs as [|d ds] eqn:E; [done|]. rewrite <-E in *.
    assert (negb (length defs =? 0)%nat = true) as -> by (by rewrite E).
    unfold EF_ASSERT at 1. unfold bind at 1, ret at 1.
    erewrite bind_done by reflexivity. erewrite bind_done by reflexivity. fold s0.
    rewrite (bind_done _ _ _ _ _ R1), (bind_done _ _ _ _ _ R2). rewrite bool_decide_true by done.
    by rewrite (bind_done _ _ s2 tt (set_changed true s2)). }
  split; [done|]. split_and!; [|congruence| |done].
  2: { rewrite In3, In2, Fi1. done. }
  pose proof (wf_area _ _ W2) as Ar. split.
  - rewrite Cu3. destruct Ar as [[_ ->]|[_ ->]]; auto.
  - rewrite Cu3. exact Im3.
  - done.
  - right. exists defs, 1. split; [|lia].
    assert (Ho : other (cur_load_area_addr s3) = cur_load_area_addr s2).
    { rewrite Cu3. destruct Ar as [[-> ->]|[-> ->]]; done. }
    rewrite Ho. rewrite <-Cu2 in Im2. eapply image_frame; [|exact Im2|].
    + destruct Ar as [[-> _]|[-> _]]; auto.
    + rewrite (proj1 (other_area _ _ W2)). exact Fr3.
Qed.

Lemma load_blank s :
  cache_ok s → (∀ x, byte (flash s x)) → bad_area (flash s) A0 → bad_area (flash s) A1 →
  ∃ s', ef_load_env defs s = Done (EF_NO_ERR, s') ∧ wf s' defs ∧
    durable (flash s') (cur_load_area_addr s') defs 2 ∧ get_saved_count s' = 2 ∧
    init_ok s' = init_ok s ∧ env_cache_changed s' = false.
Proof.
  intros Ck Fb B0 B1. rewrite load_unfold. cbv zeta.
  destruct (try_area_bad s A0 (or_introl eq_refl) Ck Fb B0) as (s1 & T1 & Ck1 & F1 & I1 & C1).
  rewrite (bind_done _ _ _ _ _ T1). rewrite <-F1 in Fb, B1. rewrite <-F1.
  destruct (try_area_bad s1 A1 (or_intror eq_refl) Ck1 Fb B1) as (s2 & T2 & Ck2 & F2 & I2 & C2).
  rewrite (bind_done _ _ _ _ _ T2). cbn [andb].
  rewrite (bind_done (ret (false, false)) _ s2 (false, false) s2) by done. cbv iota beta.
  destruct (set_default_spec (set_next A0 (set_cur A1 s2))) as (s' & R & W & D & Cn & In & Ch); [done|by right|].
  exists s'. split; [exact R|]. split_and!; try done. rewrite In. simpl. congruence.
Qed.

Lemma init_load s s' : ef_load_env defs s = Done (EF_NO_ERR, s') →
  Z.of_nat (length defs) < ENV_USER_SETTING_SIZE →
  ef_env_init defs s = Done (EF_NO_ERR, set_init true s').
Proof.
  intros R L. unfold ef_env_init. rewrite (proj2 (Z.ltb_lt _ _) L).
  do 4 (erewrite bind_done by reflexivity). rewrite (bind_done _ _ _ _ _ R).
  by rewrite bool_decide_true.
Qed.

Lemma defs_len : Z.of_nat (length defs) < ENV_USER_SETTING_SIZE.
Proof.
  pose proof (enc_length_ge defs (proj1 defs_ok)). unfold fits in defs_fit. zb. lia.
Qed.

End Boot.

Lemma wf_set_init b s es : wf s es → wf (set_init b s) es.
Proof. intros W. by destruct W. Qed.

(** What a start from a flash content restores. *)
Definition outside (a x : Z) : Prop := ¬ (a ≤ x < a + ENV_AREA_SIZE / 2).
Definition boots (defs : list (list Z * list Z)) (f : Z → Z) (es : list (list Z * list Z)) : Prop :=
  ∀ s0, cache_ok s0 → (∀ x, byte (flash s0 x)) → flash s0 = f →
    ∃ s1, ef_env_init defs s0 = Done (EF_NO_ERR, s1) ∧ init_ok s1 = true ∧ wf s1 es.

Lemma durable_boots defs f a es cnt : Z.of_nat (length defs) < ENV_USER_SETTING_SIZE →
  durable f a es cnt → boots defs f es.
Proof.
  intros Dl Du s0 Ck Fb <-. destruct (load_durable defs s0 _ _ _ Ck Fb Du) as (s1 & L & (W1 & _) & _).
  exists (set_init true s1). split; [by apply init_load|]. split; [done|by apply wf_set_init].
Qed.
Lemma durable_old f f' a es cnt : durable f a es cnt →
  (∀ x, outside (other a) x → f' x = f x) → bad_area f' (other a) → durable f' a es cnt.
Proof. intros Du Fr Bad. split; [apply Du| |apply Du|by left]. eapply image_frame; [apply Du|apply Du|exact Fr]. Qed.
Lemma read_flash_same f f' a n : (∀ x, f' x = f x) → read_flash f' a n = read_flash f a n.
Proof. intros E. apply read_flash_ext. auto. Qed.
Lemma durable_ext f f' a es cnt : (∀ x, f' x = f x) → durable f a es cnt → durable f' a es cnt.
Proof.
  intros E [Ha [O F C I] Hc Ho]. split; [done|split; [done..|by rewrite (read_flash_same f)]|done|].
  destruct Ho as [Bad|(es' & cnt' & [O' F' C' I'] & Lt)].
  - left. unfold bad_area, area_end in *. rewrite !(read_flash_same f f') by done. exact Bad.
  - right. exists es', cnt'. split; [|done]. split; [done..|by rewrite (read_flash_same f)].
Qed.

(** ** Theorems *)
Lemma put_view es k v r es' : entries_ok es → put_list es k v r es' →
  (r = EF_NO_ERR ∧ assoc es' k = Some v ∨ r = EF_ENV_FULL ∧ assoc es' k = None) ∧
  (∀ k', k' ≠ k → assoc es' k' = assoc es k').
Proof.
  assert (Sn : ∀ l, (k ∉ fst <$> l) → assoc (l ++ [(k, v)]) k = Some v ∧
                ∀ k', k' ≠ k → assoc (l ++ [(k, v)]) k' = assoc l k').
  { intros l Hl. split; [by apply assoc_split|]. intros k' N. rewrite assoc_other by (simpl; congruence).
    by rewrite app_nil_r. }
  intros Ok [(A & -> & ->)|[(A & H)|(es1 & v' & es2 & -> & Hn & N & H)]].
  - auto.
  - destruct (fits _); destruct H as [-> ->]; [|split; [by right|done]].
    apply assoc_None in A. destruct (Sn _ A). auto.
  - destruct (entries_ok_remove _ _ _ Ok) as [_ Hk]. destruct (Sn _ Hk) as [S1 S2].
    assert (∀ k', k' ≠ k → assoc (es1 ++ es2) k' = assoc (es1 ++ (k, v') :: es2) k').
    { intros k' Nk. symmetry. apply assoc_other. simpl. congruence. }
    destruct (fits _); destruct H as [-> ->].
    + split; [by left|]. intros k' Nk. rewrite S2; auto.
    + split; [right; split; [done|by apply assoc_None]|done].
Qed.

(** The entries but that of a key, and the result of a replacement. *)
Definition without (k : list Z) (es : list (list Z * list Z)) : list (list Z * list Z) :=
  filter (λ e, e.1 ≠ k) es.
Lemma without_missing k es : (k ∉ fst <$> es) → without k es = es.
Proof.
  unfold without. induction es as [|e es IH]; [done|]. rewrite fmap_cons, not_elem_of_cons. intros [N H].
  rewrite filter_cons, decide_True by congruence. by rewrite IH.
Qed.
Lemma put_result es k v r es' : entries_ok es → put_list es k v r es' →
  r = if bool_decide (assoc es k = Some v) || fits (without k es ++ [(k, v)]) then EF_NO_ERR else EF_ENV_FULL.
Proof.
  intros Ok [(A & -> & ->)|[(A & H)|(es1 & v' & es2 & -> & Hn & N & H)]].
  - by rewrite A, bool_decide_true.
  - rewrite bool_decide_false by congruence. apply assoc_None in A. rewrite without_missing by done. by destruct (fits _); destruct H.
  - rewrite bool_decide_false by (rewrite assoc_split by done; congruence).
    destruct (entries_ok_remove _ _ _ Ok) as [_ Hk]. rewrite fmap_app, not_elem_of_app in Hk.
    assert (without k (es1 ++ (k, v') :: es2) = es1 ++ es2) as ->.
    { unfold without. rewrite filter_app, filter_cons. rewrite decide_False by (cbn; tauto).
      change (without k es1 ++ without k es2 = es1 ++ es2). by rewrite !without_missing by apply Hk. }
    by destruct (fits _); destruct H.
Qed.

(** C14: The environment is a map of bounded size: on a well-formed cache
    ef_get_env returns the value of the key.  ef_set_env with a value succeeds
    exactly when the key has that value already, or the other entries with the new
    one behind them fit the cache, and the key then has the value; otherwise it
    reports EF_ENV_FULL and the key has no value afterwards - the old one is
    removed before the space is checked.  With NULL it removes the key, or reports
    EF_ENV_NAME_ERR and changes nothing when the key is absent.  No other key
    changes, and the byte layout of the cache stays well-formed. *)
Theorem ef_env_is_map s es k v :
  wf s es → init_ok s = true → entry_ok (k, v) →
  let ok := bool_decide (assoc es k = Some v) || fits (without k es ++ [(k, v)]) in
  ef_get_env k s = assoc es k ∧
  (∃ s' es', ef_set_env k (Some v) s = Done (if ok then EF_NO_ERR else EF_ENV_FULL, s') ∧ wf s' es' ∧ frame s s' ∧
     ef_get_env k s' = (if ok then Some v else None) ∧
     (∀ k', key_ok k' → k' ≠ k → ef_get_env k' s' = ef_get_env k' s)) ∧
  match assoc es k with
  | None => ef_set_env k None s = Done (EF_ENV_NAME_ERR, s)
  | Some _ => ∃ s' es', ef_set_env k None s = Done (EF_NO_ERR, s') ∧ wf s' es' ∧ frame s s' ∧
      ef_get_env k s' = None ∧ (∀ k', key_ok k' → k' ≠ k → ef_get_env k' s' = ef_get_env k' s)
  end.
Proof.
  intros W I He ok. pose proof (proj1 He) as Kk. simpl in Kk.
  split_and!; [by apply ef_get_env_spec| |].
  - destruct (ef_set_env_put s es k v W I He) as (r & s' & es' & R & W' & P & Fr & _).
    destruct (put_view _ _ _ _ _ (wf_ok _ _ W) P) as (Hr & Ho).
    pose proof (put_result _ _ _ _ _ (wf_ok _ _ W) P) as Er. fold ok in Er.
    pose proof Fr as (_ & _ & Fi & _). rewrite <-Fi in I.
    exists s', es'. split_and!; [by rewrite <-Er|done|done| |].
    + rewrite (ef_get_env_spec s' es') by done. destruct ok; destruct Hr as [[E Hr]|[E Hr]]; congruence.
    + intros k' Kk' N. rewrite (ef_get_env_spec s' es') by done. rewrite (ef_get_env_spec s es); [auto|done|congruence|done].
  - pose proof (ef_set_env_del s es k W I Kk) as D. destruct (assoc es k) as [w|] eqn:A; [|done].
    destruct D as (s' & es1 & es2 & R & E & W' & Fr & _).
    pose proof Fr as (_ & _ & Fi & _). rewrite <-Fi in I.
    destruct (entries_ok_remove es1 (k, w) es2) as [_ Hk]; [rewrite <-E; apply W|].
    exists s', (es1 ++ es2). split_and!; try done.
    + rewrite (ef_get_env_spec s' _ _ W' I Kk). by apply assoc_None.
    + intros k' Kk' N. rewrite (ef_get_env_spec s' _ _ W' I Kk').
      rewrite (ef_get_env_spec s es); [|done|congruence|done].
      rewrite E, assoc_other; [done|simpl; congruence].
Qed.

(** C2: Saving is power-fail safe.  ef_save_env stores the cache in the area that
    is not current, with a higher count; it changes no byte of the flash outside of
    that area, and the two areas then change their roles.  A start from the flash
    it leaves restores the new content.  When the save is cut off - [save_cut k n]
    is the same code with an erase that stops after [k] sectors and a write that
    stops after [n] bytes - no byte outside of that area has changed either, and a
    start from the flash left behind restores the old content: always when nothing
    or, after an erase of the header's sector, at most three bytes were written,
    and after any other cut when the start-up check (end address, CRC) rejects the
    area.  The same holds of any flash that differs in that area only. *)
Theorem ef_save_env_power_fail defs s es esd cnt :
  wf s es → env_cache_changed s = true →
  durable (flash s) (cur_load_area_addr s) esd cnt → get_saved_count s = cnt → cnt + 1 < 0xFFFFFFFF →
  Z.of_nat (length defs) < ENV_USER_SETTING_SIZE →
  ∃ s', ef_save_env s = Done (EF_NO_ERR, s') ∧ wf s' es ∧
    cur_load_area_addr s' = next_save_area_addr s ∧ next_save_area_addr s' = cur_load_area_addr s ∧
    cur_load_area_addr s ≠ next_save_area_addr s ∧
    (∀ x, outside (next_save_area_addr s) x → flash s' x = flash s x) ∧
    durable (flash s') (cur_load_area_addr s') es (cnt + 1) ∧
    boots defs (flash s') es ∧
    (∀ f, (∀ x, outside (next_save_area_addr s) x → f x = flash s x) →
       bad_area f (next_save_area_addr s) → boots defs f esd) ∧
    (∀ k n, ∃ s2, save_cut k n s = Done (EF_NO_ERR, s2) ∧
       (∀ x, outside (next_save_area_addr s) x → flash s2 x = flash s x) ∧
       (((0 < k ∧ n ≤ 3) ∨ (k = 0 ∧ n = 0))%nat ∨ bad_area (flash s2) (next_save_area_addr s) →
        boots defs (flash s2) esd)).
Proof.
  intros W Ch Du Cn Lt Dl. destruct (other_area _ _ W) as [O1 O2].
  destruct (ef_save_env_spec s es W Ch) as (s' & R & W' & Cu & Nx & In & Ch' & Cn' & Im & Fr).
  pose proof (hi_cnt _ _ _ _ (du_img _ _ _ _ Du)) as Hc. rewrite Cn, u32_small in * by lia.
  assert (Du' : durable (flash s') (cur_load_area_addr s') es (cnt + 1)).
  { rewrite Cu. split; [|done|lia|].
    - destruct (wf_area _ _ W) as [[_ ->]|[_ ->]]; auto.
    - right. exists esd, cnt. split; [|lia]. rewrite O2.
      eapply image_frame; [apply Du|apply Du|]. by rewrite O1. }
  assert (Old : ∀ f, (∀ x, outside (next_save_area_addr s) x → f x = flash s x) →
     bad_area f (next_save_area_addr s) → boots defs f esd).
  { intros f Fr0 Bad. eapply durable_boots, (durable_old (flash s)); [done..|by rewrite O1|by rewrite O1]. }
  exists s'. split_and!; try done.
  - destruct (wf_area _ _ W) as [[-> ->]|[-> ->]]; done.
  - by eapply durable_boots.
  - intros k n. destruct (save_cut_run k n s es W Ch) as (s2 & R2 & Fr2 & Bad2 & Same).
    exists s2. split; [exact R2|]. split; [exact Fr2|]. intros [[[Hk Hn]|[-> ->]]|Bad]; [by apply Old; auto| |by apply Old].
    eapply durable_boots; [done|]. eapply durable_ext; [|exact Du]. by apply Same.
Qed.

(** First boot: when both flash areas are rejected (blank or corrupted
    flash), initialisation succeeds, the environment is exactly the default set,
    and it is durable: the next boot from the resulting flash finds it. *)
Theorem ef_env_first_boot defs s :
  entries_ok defs → fits defs = true → defs ≠ [] →
  cache_ok s → (∀ x, byte (flash s x)) → bad_area (flash s) A0 → bad_area (flash s) A1 →
  ∃ s', ef_env_init defs s = Done (EF_NO_ERR, s') ∧ init_ok s' = true ∧ wf s' defs ∧
    (∀ k, key_ok k → ef_get_env k s' = assoc defs k) ∧
    durable (flash s') (cur_load_area_addr s') defs 2.
Proof.
  intros Ok Fi Ne Ck Fb B0 B1.
  destruct (load_blank defs Ok Fi Ne s Ck Fb B0 B1) as (s1 & L & W & Du & _).
  exists (set_init true s1). assert (W' : wf (set_init true s1) defs) by (by destruct W).
  split_and!; try done; [apply init_load; [done|by apply defs_len]|].
  intros k Kk. by apply ef_get_env_spec.
Qed.

(** Replacing a value by one that does not fit destroys the old one:
    ef_set_env removes the entry before it checks the space, returns EF_ENV_FULL,
    and leaves the key without a value in a cache that is marked for saving. *)
Theorem ef_set_env_full_loses_old s es1 k v' es2 v :
  wf s (es1 ++ (k, v') :: es2) → init_ok s = true → entry_ok (k, v) → v ≠ v' →
  fits ((es1 ++ es2) ++ [(k, v)]) = false →
  ef_get_env k s = Some v' ∧
  ∃ s', ef_set_env k (Some v) s = Done (EF_ENV_FULL, s') ∧ ef_get_env k s' = None ∧
    env_cache_changed s' = true.
Proof.
  intros W I He N Fi. pose proof (proj1 He) as Kk. simpl in Kk.
  destruct (entries_ok_remove _ _ _ (wf_ok _ _ W)) as [_ Hk]. simpl in Hk.
  assert (Hn : k ∉ fst <$> es1) by (intros H; apply Hk; rewrite fmap_app, elem_of_app; by left).
  split; [rewrite (ef_get_env_spec _ _ _ W I Kk); by apply assoc_split|].
  destruct (ef_set_env_put s _ k v W I He) as (r & s' & es' & R & W' & P & Fr & Ch).
  destruct P as [(A & _)|[(A & _)|(e1 & w & e2 & E & Hn' & Nw & H)]].
  - rewrite assoc_split in A by done. congruence.
  - rewrite assoc_split in A by done. congruence.
  - assert (e1 = es1 ∧ w = v' ∧ e2 = es2) as (-> & -> & ->).
    { clear -E Hn Hn'. revert e1 E Hn'. induction es1 as [|[k1 v1] es1 IH]; intros [|[k2 v2] e1] E Hn';
        simpl in *; try rewrite not_elem_of_cons in Hn; try rewrite not_elem_of_cons in Hn'.
      - by injection E.
      - exfalso. destruct Hn' as [Hn' _]. congruence.
      - exfalso. destruct Hn as [Hn _]. congruence.
      - injection E as -> -> E. destruct (IH (proj2 Hn) e1 E (proj2 Hn')) as (-> & -> & ->). done. }
    rewrite Fi in H. destruct H as [-> ->]. exists s'. split; [done|].
    pose proof Fr as (_ & _ & Fi' & _). split.
    + rewrite (ef_get_env_spec s' _ _ W'); [by apply assoc_None|congruence|done].
    + destruct Ch as [[E' _]|Ch]; [|done]. exfalso.
      apply (f_equal length) in E'. rewrite !length_app in E'. simpl in E'. lia.
Qed.

(** A corrupted end address that is in range but not a multiple of four
    bytes from the start of its area hangs the boot: the length is checked by an
    assertion that spins, before the CRC could reject the area. *)
Theorem ef_load_env_misaligned_hangs defs s :
  end_in_range A0 (area_end (flash s) A0) = true →
  (area_end (flash s) A0 - A0) mod 4 ≠ 0 →
  ef_env_init defs s = Trap Hang.
Proof.
  intros Rg Md. unfold ef_env_init.
  destruct (Z.of_nat (length defs) <? ENV_USER_SETTING_SIZE) eqn:L; [|done].
  assert (Hl : ef_load_env defs s = Trap Hang).
  { rewrite load_unfold. cbv zeta. unfold bind at 1, try_area at 1. rewrite Rg.
    unfold check_area. rewrite (bind_done _ _ _ _ _ (port_read_done (A0 + 8) 4 s eq_refl)).
    unfold read_to_cache, ef_port_read, bind, EF_ASSERT. by rewrite (proj2 (Z.eqb_neq _ _)). }
  do 4 (erewrite bind_done by reflexivity). unfold bind at 1. by rewrite Hl.
Qed.

(** ** Witnesses *)
Definition user : list Z := [117; 115; 101; 114].
Definition demo_defs : list (list Z * list Z) := [(user, user)].
Definition blank : st :=
  mk_st (replicate (Z.to_nat ENV_USER_SETTING_SIZE) 0) 0 0 false false (λ _, 255).
Definition run {A} (c : M st A) (s : st) : st := match c s with Done (_, s') => s' | Trap _ => s end.
Definition demo : st := run (ef_env_init demo_defs) blank.
Definition demo_set : st := run (ef_set_env [65] (Some [66; 67])) demo.

Lemma key_ok_dec k : bool_decide (k ≠ [] ∧ no_zero k ∧ (EQ ∉ k) ∧ all_bytes k) = true → key_ok k.
Proof. apply bool_decide_eq_true. Qed.
Lemma val_ok_dec v : bool_decide (v ≠ [] ∧ no_zero v ∧ all_bytes v) = true → val_ok v.
Proof. apply bool_decide_eq_true. Qed.
Lemma demo_defs_ok : entries_ok demo_defs.
Proof.
  split; [|apply NoDup_singleton]. apply Forall_singleton.
  split; [apply key_ok_dec; by vm_compute|apply val_ok_dec; by vm_compute].
Qed.
Lemma blank_cache_ok : cache_ok blank.
Proof. split; [by vm_compute|]. apply Forall_replicate. unfold byte. lia. Qed.
Lemma blank_bytes x : byte (flash blank x).
Proof. unfold byte. simpl. lia. Qed.
Lemma blank_bad a : a = A0 ∨ a = A1 → bad_area (flash blank) a.
Proof. intros [->| ->]; left; by vm_compute. Qed.

Lemma demo_wf : wf demo demo_defs ∧ init_ok demo = true ∧ get_saved_count demo = 2 ∧
  durable (flash demo) (cur_load_area_addr demo) demo_defs 2.
Proof.
  destruct (load_blank demo_defs demo_defs_ok eq_refl ltac:(done) blank blank_cache_ok blank_bytes
    (blank_bad _ (or_introl eq_refl)) (blank_bad _ (or_intror eq_refl))) as (s1 & L & W & Du & Cn & _).
  assert (demo = set_init true s1) as ->.
  { unfold demo, run. rewrite (init_load _ _ _ L); [reflexivity|by vm_compute]. }
  split; [by apply wf_set_init|]. split; [reflexivity|]. split; [exact Cn|exact Du].
Qed.

Lemma demo_entry_ok : entry_ok ([65], [66; 67]).
Proof. split; [apply key_ok_dec; by vm_compute|apply val_ok_dec; by vm_compute]. Qed.

Lemma demo_set_wf : wf demo_set (demo_defs ++ [([65], [66; 67])]) ∧ env_cache_changed demo_set = true ∧
  frame demo demo_set.
Proof.
  destruct demo_wf as (W & I & _).
  destruct (ef_set_env_put demo _ [65] [66; 67] W I demo_entry_ok) as (r & s' & es' & R & W' & P & Fr & Ch).
  unfold demo_set, run. rewrite R.
  assert (es' = demo_defs ++ [([65], [66; 67])]) as ->.
  { destruct P as [([=] & _)|[(_ & H)|(e1 & w & e2 & E & _)]].
    - destruct (fits _) eqn:F; [by destruct H|by vm_compute in F].
    - destruct e1 as [|p [|q e1]]; [by injection E|by injection E|by injection E]. }
  split_and!; [done| |done]. destruct Ch as [[E _]|Ch]; [|done]. by vm_compute in E.
Qed.

Lemma ef_env_is_map_witness :
  ef_get_env user demo = Some user ∧
  (∃ s', ef_set_env user None demo = Done (EF_NO_ERR, s') ∧ ef_get_env user s' = None) ∧
  (∃ s', ef_set_env [65] (Some [66; 67]) demo = Done (EF_NO_ERR, s') ∧ ef_get_env [65] s' = Some [66; 67]).
Proof.
  destruct demo_wf as (W & I & _).
  destruct (ef_env_is_map demo demo_defs user user W I) as (G & _ & D).
  - split; [apply key_ok_dec; by vm_compute|apply val_ok_dec; by vm_compute].
  - destruct D as (s' & es' & R & _ & _ & G' & _). split; [exact G|]. split; [eauto|].
    destruct (ef_env_is_map demo demo_defs [65] [66; 67] W I demo_entry_ok) as (_ & (s2 & e2 & R2 & _ & _ & G2 & _) & _).
    assert (Hf : fits (without [65] demo_defs ++ [([65], [66; 67])]) = true) by (by vm_compute).
    rewrite Hf, orb_true_r in R2, G2. eauto.
Defined.

Lemma ef_save_env_power_fail_witness :
  ∃ s', ef_save_env demo_set = Done (EF_NO_ERR, s') ∧ wf s' (demo_defs ++ [([65], [66; 67])]) ∧
    durable (flash s') (cur_load_area_addr s') (demo_defs ++ [([65], [66; 67])]) 3 ∧
    ∃ s2, save_cut 2 3 demo_set = Done (EF_NO_ERR, s2) ∧ boots demo_defs (flash s2) demo_defs.
Proof.
  destruct demo_wf as (_ & _ & Cn & Du). destruct demo_set_wf as (W & Ch & (Fc & _ & _ & Ff & Fs)).
  destruct (ef_save_env_power_fail demo_defs demo_set _ demo_defs 2 W Ch) as (s' & R & W' & _ & _ & _ & _ & Du' & _ & _ & Cut).
  - rewrite Ff, Fc. exact Du.
  - rewrite Fs. exact Cn.
  - by vm_compute.
  - by vm_compute.
  - destruct (Cut 2%nat 3%nat) as (s2 & R2 & _ & B). exists s'. split; [exact R|]. split; [exact W'|]. split; [exact Du'|].
    exists s2. split; [exact R2|]. apply B. left. left. lia.
Defined.

Lemma ef_env_first_boot_witness :
  ∃ s', ef_env_init demo_defs blank = Done (EF_NO_ERR, s') ∧ wf s' demo_defs.
Proof.
  destruct (ef_env_first_boot demo_defs blank demo_defs_ok eq_refl ltac:(done) blank_cache_ok blank_bytes
    (blank_bad _ (or_introl eq_refl)) (blank_bad _ (or_intror eq_refl))) as (s' & R & _ & W & _).
  eauto.
Defined.

Definition big_value : list Z := replicate (Z.to_nat 12250) 65.
Lemma ef_set_env_full_loses_old_witness :
  ef_get_env user demo = Some user ∧
  ∃ s', ef_set_env user (Some big_value) demo = Done (EF_ENV_FULL, s') ∧ ef_get_env user s' = None.
Proof.
  destruct demo_wf as (W & I & _).
  destruct (ef_set_env_full_loses_old demo [] user user [] big_value W I) as (G & s' & R & N & _).
  - split; [apply key_ok_dec; by vm_compute|]. split_and!.
    + intros E. apply (f_equal length) in E. by vm_compute in E.
    + apply Forall_replicate. lia.
    + apply Forall_replicate. unfold byte. lia.
  - intros E. apply (f_equal length) in E. by vm_compute in E.
  - by vm_compute.
  - split; [exact G|]. eauto.
Defined.

Definition torn : st :=
  mk_st (replicate (Z.to_nat ENV_USER_SETTING_SIZE) 0) 0 0 false false
    (λ x, nth (Z.to_nat (x - A0)) (le_bytes (A0 + 13)) 255).
Lemma ef_load_env_misaligned_hangs_witness : ef_env_init demo_defs torn = Trap Hang.
Proof.
  apply (ef_load_env_misaligned_hangs demo_defs torn).
  - by vm_compute.
  - by vm_compute.
Defined.

(** ** The interface, discharged *)
Definition store_set (k : list Z) (v : option (list Z)) : M st bool := λ s,
  match ef_set_and_save_env k v s with
  | Done (r, s') => Done (bool_decide (r = EF_NO_ERR), s')
  | Trap t => Trap t
  end.
Definition store_inv (s : st) : Prop := init_ok s = true ∧ ∃ es, wf s es.

Lemma save_any s es : wf s es → init_ok s = true →
  ∃ s', ef_save_env s = Done (EF_NO_ERR, s') ∧ wf s' es ∧ init_ok s' = true.
Proof.
  intros W I. destruct (env_cache_changed s) eqn:Ch.
  - destruct (ef_save_env_spec s es W Ch) as (s' & R & W' & _ & _ & In & _). exists s'. split_and!; congruence.
  - exists s. split_and!; [|done|done]. unfold ef_save_env, save_with.
    by rewrite (bind_done (gets env_cache_changed) _ s false s) by (unfold gets; by rewrite Ch).
Qed.

(** The file layer only needs names that are valid keys. *)
Lemma store_put s k v : store_inv s → key_ok k → no_zero v → all_bytes v → v ≠ [] →
  ∃ ok s', store_set k (Some v) s = Done (ok, s') ∧ store_inv s' ∧
    (if ok then ef_get_env k s' = Some v
     else ef_get_env k s' = None ∨ ef_get_env k s' = ef_get_env k s) ∧
    (∀ k', key_ok k' → k' ≠ k → ef_get_env k' s' = ef_get_env k' s).
Proof.
  intros [I [es W]] Kk Nz By Ne. assert (He : entry_ok (k, v)) by done.
  destruct (ef_set_env_put s es k v W I He) as (r & s1 & es1 & R & W1 & P & (_ & _ & Fi & _) & _).
  destruct (put_view _ _ _ _ _ (wf_ok _ _ W) P) as (Hr & Ho).
  unfold store_set, ef_set_and_save_env, bind. rewrite R. destruct Hr as [[-> Hk]|[-> Hk]].
  - rewrite bool_decide_true by done. destruct (save_any s1 es1 W1) as (s2 & R2 & W2 & I2); [congruence|].
    rewrite R2. eexists _, _. split; [by rewrite bool_decide_true|]. split; [split; eauto|]. split.
    + by rewrite (ef_get_env_spec s2 es1).
    + intros k' Kk' N. rewrite (ef_get_env_spec s2 es1), (ef_get_env_spec s es) by done. auto.
  - rewrite bool_decide_false by done. eexists _, _. split; [done|].
    split; [split; [congruence|eauto]|].
    split; [left; rewrite (ef_get_env_spec s1 es1) by (try congruence; done); done|].
    intros k' Kk' N. rewrite (ef_get_env_spec s1 es1) by (try congruence; done).
    rewrite (ef_get_env_spec s es) by done. auto.
Qed.

Lemma store_del s k : store_inv s → key_ok k → is_Some (ef_get_env k s) →
  ∃ s', store_set k None s = Done (true, s') ∧ store_inv s' ∧ ef_get_env k s' = None ∧
    (∀ k', key_ok k' → k' ≠ k → ef_get_env k' s' = ef_get_env k' s).
Proof.
  intros [I [es W]] Kk [w G]. rewrite (ef_get_env_spec s es) in G by done.
  pose proof (ef_set_env_del s es k W I Kk) as D. rewrite G in D.
  destruct D as (s1 & es1 & es2 & R & E & W1 & (_ & _ & Fi & _) & _).
  destruct (entries_ok_remove es1 (k, w) es2) as [_ Hk]; [rewrite <-E; apply W|].
  destruct (save_any s1 _ W1) as (s2 & R2 & W2 & I2); [congruence|].
  unfold store_set, ef_set_and_save_env, bind. rewrite R. rewrite bool_decide_true by done. rewrite R2.
  eexists. split; [by rewrite bool_decide_true by done|]. split; [split; eauto|]. split.
  - rewrite (ef_get_env_spec s2 _ _ W2 I2 Kk). by apply assoc_None.
  - intros k' Kk' N. rewrite (ef_get_env_spec s2 _ _ W2 I2 Kk'), (ef_get_env_spec s es) by done.
    rewrite E, assoc_other; [done|simpl; congruence].
Qed.

Lemma store_view s k v : store_inv s → key_ok k → ef_get_env k s = Some v → no_zero v ∧ all_bytes v.
Proof.
  intros [I [es W]] Kk. rewrite (ef_get_env_spec s es) by done. pose proof (wf_ok _ _ W) as [Ok _].
  clear -Ok. induction Ok as [|[k' w] es [_ (_ & ? & ?)] _ IH]; simpl; [done|].
  case_bool_decide; [|done]. intros [= <-]. done.
Qed.

Lemma demo_inv : store_inv demo.
Proof. destruct demo_wf as (W & I & _). exact (conj I (ex_intro _ _ W)). Qed.

#[export] Instance ef_store : EnvStore st.
Proof.
  refine {| env_inv := store_inv; env_view := λ s k, ef_get_env k s; env_get := ef_get_env;
            env_set := store_set; env_name_ok := key_ok |}.
  - done.
  - exact store_view.
  - exact store_put.
  - exact store_del.
Defined.

End EfEnv.
