(* ===== verification/Base64.v ===== *)
(** * Base64: components/base64/base_64.c

    Encoding in lines of 72 characters, each ended by a line feed, and decoding
    that skips every character outside the alphabet.  Modelled on byte lists;
    allocation of the decoder's 256-byte table may fail and its block is counted,
    and the two four-byte work arrays of the decoder start with arbitrary
    content. *)
From S2P Require Import Prelude Bytes.
Local Open Scope Z_scope.

Module Base64.

Definition LF : Z := 10.
Definition PAD : Z := 61.
(** ABCDEFGHIJKLMNOPQRSTUVWXYZabcdefghijklmnopqrstuvwxyz0123456789+/ *)
Definition base_64_table : list Z :=
  seqZ 65 26 ++ seqZ 97 26 ++ seqZ 48 10 ++ [43; 47].
Definition code (i : Z) : Z := nth (Z.to_nat i) base_64_table 0.

(** ** Encoding *)
Definition base64_calc_encode_length (src_Len : Z) : Z :=
  let enc_len := u32 (u32 (src_Len * 4) / 3 + 4) in
  let enc_len := u32 (enc_len + enc_len / 72) in
  u32 (enc_len + 1).

Definition quad (a b c : Z) : list Z :=
  [code (Z.shiftr a 2);
   code (Z.lor (Z.shiftl (Z.land a 0x03) 4) (Z.shiftr b 4));
   code (Z.lor (Z.shiftl (Z.land b 0x0f) 2) (Z.shiftr c 6));
   code (Z.land c 0x3f)].

(** The loop over groups of three bytes, and what follows it. *)
Fixpoint encode_loop (src : list Z) (line_len : Z) : list Z :=
  match src with
  | a :: b :: c :: src' =>
      let line_len := line_len + 4 in
      quad a b c ++
      (if 72 <=? line_len then LF :: encode_loop src' 0 else encode_loop src' line_len)
  | [a; b] =>
      [code (Z.shiftr a 2);
       code (Z.lor (Z.shiftl (Z.land a 0x03) 4) (Z.shiftr b 4));
       code (Z.shiftl (Z.land b 0x0f) 2); PAD; LF]
  | [a] => [code (Z.shiftr a 2); code (Z.shiftl (Z.land a 0x03) 4); PAD; PAD; LF]
  | [] => if negb (line_len =? 0) then [LF] else []
  end.

(** Result, [*out_len] when it was written, and the bytes stored. *)
Definition base64_encode (src : list Z) (has_len has_out : bool) : Z * option Z * list Z :=
  if negb has_out then (0, None, [])
  else let out := encode_loop src 0 in
       (1, (if has_len then Some (Z.of_nat (length out)) else None), out ++ [0]).

(** ** Decoding *)
Definition dtable : list Z :=
  let t := foldl (λ t i, <[Z.to_nat (code i) := i]> t) (replicate 256 0x80) (seqZ 0 64) in
  <[Z.to_nat PAD := 0]> t.
Definition value (ch : Z) : Z := nth (Z.to_nat ch) dtable 0.

Definition count_valid (src : list Z) : Z :=
  Z.of_nat (length (filter (λ ch, value ch ≠ 0x80) src)).

(** Allocation result, and the number of heap blocks that stay allocated. *)
Definition base64_calc_decode_length (alloc_ok : bool) (src : list Z) : Z * nat :=
  if negb alloc_ok then (0, 0%nat)
  else let dec_len := count_valid src in
       ((if negb (dec_len mod 4 =? 0) then 0 else dec_len), 1%nat).

(** [inb] and [block] are the arrays [in] and [block]; the result is what was
    stored behind [pos] and the final [in]. *)
Fixpoint decode_loop (src : list Z) (count : nat) (inb block : list Z) : list Z * list Z :=
  match src with
  | [] => ([], inb)
  | ch :: src' =>
      let tmp := value ch in
      if tmp =? 0x80 then decode_loop src' count inb block
      else
        let inb := <[count := ch]> inb in
        let block := <[count := tmp]> block in
        if (S count =? 4)%nat then
          let v i := nth i block 0 in
          let '(out, inb') := decode_loop src' 0 inb block in
          (u8 (Z.lor (Z.shiftl (v 0%nat) 2) (Z.shiftr (v 1%nat) 4)) ::
           u8 (Z.lor (Z.shiftl (v 1%nat) 4) (Z.shiftr (v 2%nat) 2)) ::
           u8 (Z.lor (Z.shiftl (v 2%nat) 6) (v 3%nat)) :: out, inb')
        else decode_loop src' (S count) inb block
  end.

(** What the caller sees: result, [*out_len] when it was written, the bytes stored
    in the output buffer, and the heap blocks that stay allocated. *)
Record decoded := mk_dec { dec_ret : Z; dec_len : option Z; dec_out : list Z; dec_heap : nat }.

Definition base64_decode (alloc_ok has_out : bool) (inb block src : list Z) : decoded :=
  if negb alloc_ok then mk_dec 0 (Some 0) [] 0
  else
    let count := count_valid src in
    if negb (count mod 4 =? 0) then mk_dec 0 None [] 1
    else if negb has_out then mk_dec 0 (Some (u32 (count * 3) / 4)) [] 1
    else
      let '(out, inb') := decode_loop src 0 inb block in
      let len := length out in
      let len := if (0 <? len)%nat then
                   if nth 2 inb' 0 =? PAD then (len - 2)%nat
                   else if nth 3 inb' 0 =? PAD then (len - 1)%nat else len
                 else len in
      mk_dec 1 (Some (Z.of_nat len)) out 1.

(** ** The alphabet *)
Lemma value_code i : 0 ≤ i < 64 → value (code i) = i ∧ code i ≠ PAD ∧ (value (code i) =? 0x80) = false.
Proof.
  intros Hi. assert (T : forallb (λ i, (value (code i) =? i) && negb (code i =? PAD)) (seqZ 0 64) = true) by (by vm_compute).
  rewrite forallb_forall in T. specialize (T i). rewrite <-list_elem_of_In, elem_of_seqZ in T.
  specialize (T ltac:(lia)). zb. split_and!; try done. apply Z.eqb_neq. lia.
Qed.
Lemma value_pad : value PAD = 0. Proof. by vm_compute. Qed.
Lemma value_lf : value LF = 0x80. Proof. by vm_compute. Qed.

(** ** Bits of a group *)
Lemma all_below (P : Z → bool) n : forallb P (seqZ 0 n) = true → ∀ x, 0 ≤ x < n → P x = true.
Proof. rewrite forallb_forall. intros T x Hx. apply T, list_elem_of_In, elem_of_seqZ. lia. Qed.

Lemma low_bits b k : 0 ≤ k → 0 ≤ Z.land b (Z.ones k) < 2 ^ k.
Proof. intros. rewrite Z.land_ones by done. apply Z.mod_pos_bound. lia. Qed.

Lemma first_byte a b : byte a → byte b →
  0 ≤ Z.shiftr a 2 < 64 ∧ 0 ≤ Z.lor (Z.shiftl (Z.land a 3) 4) (Z.shiftr b 4) < 64 ∧
  u8 (Z.lor (Z.shiftl (Z.shiftr a 2) 2) (Z.shiftr (Z.lor (Z.shiftl (Z.land a 3) 4) (Z.shiftr b 4)) 4)) = a.
Proof.
  unfold byte. intros Ha Hb. pose proof (low_bits a 2 ltac:(lia)) as Hp. change (Z.ones 2) with 3 in Hp.
  pose proof (all_below (λ p, forallb (λ b, let w := Z.lor (Z.shiftl p 4) (Z.shiftr b 4) in
    (0 <=? w) && (w <? 64) && (Z.shiftr w 4 =? p)) (seqZ 0 256)) 4 ltac:(by vm_compute) _ Hp) as T.
  apply (all_below _ _ T) in Hb. cbv zeta in Hb. zb.
  apply (all_below (λ a, let w := Z.shiftr a 2 in (0 <=? w) && (w <? 64) && (u8 (Z.lor (Z.shiftl w 2) (Z.land a 3)) =? a)) 256
    ltac:(by vm_compute)) in Ha. cbv zeta in Ha. zb. split_and!; try lia. congruence.
Qed.

Lemma second_byte a b c : byte a → byte b → byte c →
  0 ≤ Z.lor (Z.shiftl (Z.land b 15) 2) (Z.shiftr c 6) < 64 ∧
  u8 (Z.lor (Z.shiftl (Z.lor (Z.shiftl (Z.land a 3) 4) (Z.shiftr b 4)) 4)
            (Z.shiftr (Z.lor (Z.shiftl (Z.land b 15) 2) (Z.shiftr c 6)) 2)) = b.
Proof.
  unfold byte. intros Ha Hb Hc. pose proof (low_bits a 2 ltac:(lia)) as Hp. change (Z.ones 2) with 3 in Hp.
  pose proof (low_bits b 4 ltac:(lia)) as Hq. change (Z.ones 4) with 15 in Hq.
  pose proof (all_below (λ p, forallb (λ c, let w := Z.lor (Z.shiftl p 2) (Z.shiftr c 6) in
    (0 <=? w) && (w <? 64) && (Z.shiftr w 2 =? p)) (seqZ 0 256)) 16 ltac:(by vm_compute) _ Hq) as T.
  apply (all_below _ _ T) in Hc. cbv zeta in Hc. zb.
  pose proof (all_below (λ p, forallb (λ b, u8 (Z.lor (Z.shiftl (Z.lor (Z.shiftl p 4) (Z.shiftr b 4)) 4) (Z.land b 15)) =? b)
    (seqZ 0 256)) 4 ltac:(by vm_compute) _ Hp) as U. apply (all_below _ _ U) in Hb. zb. split; [lia|congruence].
Qed.

Lemma third_byte b c : byte b → byte c →
  0 ≤ Z.land c 63 < 64 ∧
  u8 (Z.lor (Z.shiftl (Z.lor (Z.shiftl (Z.land b 15) 2) (Z.shiftr c 6)) 6) (Z.land c 63)) = c.
Proof.
  unfold byte. intros Hb Hc. pose proof (low_bits b 4 ltac:(lia)) as Hq. change (Z.ones 4) with 15 in Hq.
  pose proof (low_bits c 6 ltac:(lia)) as Hr. change (Z.ones 6) with 63 in Hr. split; [done|].
  pose proof (all_below (λ p, forallb (λ c, u8 (Z.lor (Z.shiftl (Z.lor (Z.shiftl p 2) (Z.shiftr c 6)) 6) (Z.land c 63)) =? c)
    (seqZ 0 256)) 16 ltac:(by vm_compute) _ Hq) as U. apply (all_below _ _ U) in Hc. by zb.
Qed.

(** ** Decoding a group *)
Lemma decode_four x0 x1 x2 x3 src p q r t p' q' r' t' :
  (value x0 =? 0x80) = false → (value x1 =? 0x80) = false → (value x2 =? 0x80) = false → (value x3 =? 0x80) = false →
  decode_loop (x0 :: x1 :: x2 :: x3 :: src) 0 [p; q; r; t] [p'; q'; r'; t'] =
  let '(out, inb') := decode_loop src 0 [x0; x1; x2; x3] [value x0; value x1; value x2; value x3] in
  (u8 (Z.lor (Z.shiftl (value x0) 2) (Z.shiftr (value x1) 4)) ::
   u8 (Z.lor (Z.shiftl (value x1) 4) (Z.shiftr (value x2) 2)) ::
   u8 (Z.lor (Z.shiftl (value x2) 6) (value x3)) :: out, inb').
Proof. intros E0 E1 E2 E3. cbn [decode_loop]. rewrite E0, E1, E2, E3. reflexivity. Qed.

Lemma decode_lf src n inb block : decode_loop (LF :: src) n inb block = decode_loop src n inb block.
Proof. cbn [decode_loop]. by rewrite value_lf. Qed.

(** The decoder's [in] after a text: the last group. *)
Definition last_group (src : list Z) (inb : list Z) : Prop :=
  ∃ x0 x1 x2 x3, inb = [x0; x1; x2; x3] ∧
    (x2 =? PAD) = (length src mod 3 =? 1)%nat ∧ (x3 =? PAD) = negb (length src mod 3 =? 0)%nat.

Lemma mod3_step (n : nat) : ((S (S (S n))) mod 3 = n mod 3)%nat.
Proof. replace (S (S (S n))) with (n + 1 * 3)%nat by lia. apply Nat.Div0.mod_add. Qed.

(** Recursion over groups of three. *)
Lemma list_ind3 (P : list Z → Prop) :
  P [] → (∀ a, P [a]) → (∀ a b, P [a; b]) → (∀ a b c l, P l → P (a :: b :: c :: l)) → ∀ l, P l.
Proof.
  intros H0 H1 H2 H3. assert (Q : ∀ n l, (length l ≤ n)%nat → P l).
  { induction n as [|n IH]; intros [|a [|b [|c l]]] Hl; auto; cbn in Hl; try lia. apply H3, IH. lia. }
  intros l. by apply (Q (length l)).
Qed.

(** A full group of the encoder. *)
Lemma decode_quad a b c src p q r t p' q' r' t' : byte a → byte b → byte c → ∃ x0 x1 x2 x3 v0 v1 v2 v3,
  decode_loop (quad a b c ++ src) 0 [p; q; r; t] [p'; q'; r'; t'] =
  (let '(out, inb) := decode_loop src 0 [x0; x1; x2; x3] [v0; v1; v2; v3] in (a :: b :: c :: out, inb)) ∧
  (x2 =? PAD) = false ∧ (x3 =? PAD) = false.
Proof.
  intros Ba Bb Bc.
  destruct (first_byte a b Ba Bb) as (R0 & R1 & E1), (second_byte a b c Ba Bb Bc) as (R2 & E2), (third_byte b c Bb Bc) as (R3 & E3).
  destruct (value_code _ R0) as (V0 & N0 & T0), (value_code _ R1) as (V1 & N1 & T1), (value_code _ R2) as (V2 & N2 & T2),
    (value_code _ R3) as (V3 & N3 & T3).
  do 8 eexists. unfold quad. cbn [app]. rewrite decode_four by done. rewrite V0, V1, V2, V3, E1, E2, E3.
  split; [reflexivity|]. split; by apply Z.eqb_neq.
Qed.

Definition pad_len (l : list Z) : nat :=
  match (length l mod 3)%nat with 1%nat => 2%nat | 2%nat => 1%nat | _ => 0%nat end.

Lemma decode_encode_loop l : all_bytes l → ∀ ll p q r t p' q' r' t', ∃ pad inb,
  decode_loop (encode_loop l ll) 0 [p; q; r; t] [p'; q'; r'; t'] = (l ++ pad, inb) ∧ length pad = pad_len l ∧
  (if decide (l = []) then inb = [p; q; r; t] else last_group l inb).
Proof.
  induction l as [|a|a b|a b c l IH] using list_ind3; intros Hl ll p q r t p' q' r' t'.
  - exists [], [p; q; r; t]. cbn [encode_loop]. split; [|done]. destruct (negb _); [by rewrite decode_lf|done].
  - apply Forall_cons in Hl as [Ba _]. destruct (first_byte a 0 Ba ltac:(done)) as (R0 & R1 & E).
    rewrite Z.shiftr_0_l, Z.lor_0_r in R1, E. cbn [encode_loop].
    destruct (value_code _ R0) as (V0 & N0 & T0), (value_code _ R1) as (V1 & N1 & T1).
    rewrite decode_four; [|done|done|by rewrite value_pad..]. rewrite decode_lf, V0, V1, E. cbn [decode_loop].
    do 2 eexists. split; [reflexivity|]. split; [done|]. by do 4 eexists.
  - apply Forall_cons in Hl as [Ba [Bb _]%Forall_cons]. destruct (first_byte a b Ba Bb) as (R0 & R1 & E1).
    destruct (second_byte a b 0 Ba Bb ltac:(done)) as (R2 & E2). rewrite Z.shiftr_0_l, Z.lor_0_r in R2, E2. cbn [encode_loop].
    destruct (value_code _ R0) as (V0 & N0 & T0), (value_code _ R1) as (V1 & N1 & T1), (value_code _ R2) as (V2 & N2 & T2).
    rewrite decode_four; [|done|done|done|by rewrite value_pad]. rewrite decode_lf, V0, V1, V2, E1, E2. cbn [decode_loop].
    do 2 eexists. split; [reflexivity|]. split; [done|]. do 4 eexists. split; [done|].
    split; [by apply Z.eqb_neq|done].
  - apply Forall_cons in Hl as [Ba [Bb [Bc Bl]%Forall_cons]%Forall_cons]. cbn [encode_loop].
    set (rest := if 72 <=? ll + 4 then _ else _).
    destruct (decode_quad a b c rest p q r t p' q' r' t' Ba Bb Bc) as (x0 & x1 & x2 & x3 & v0 & v1 & v2 & v3 & -> & X2 & X3).
    assert (R : ∃ pad inb, decode_loop rest 0 [x0; x1; x2; x3] [v0; v1; v2; v3] = (l ++ pad, inb) ∧ length pad = pad_len l ∧
        (if decide (l = []) then inb = [x0; x1; x2; x3] else last_group l inb)).
    { unfold rest. destruct (72 <=? ll + 4); [rewrite decode_lf|]; by apply IH. }
    destruct R as (pad & inb & -> & Lp & Lg). exists pad, inb. split; [done|].
    unfold pad_len, last_group. cbn [length]. rewrite mod3_step. split; [done|].
    destruct (decide (l = [])) as [->|]; [|done]. subst inb. by do 4 eexists.
Qed.

(** ** Counting characters of the alphabet *)
Lemma count_app a b : count_valid (a ++ b) = count_valid a + count_valid b.
Proof. unfold count_valid. rewrite filter_app, length_app. lia. Qed.
Lemma count_cons ch src : count_valid (ch :: src) = (if value ch =? 0x80 then 0 else 1) + count_valid src.
Proof.
  unfold count_valid. destruct (Z.eqb_spec (value ch) 0x80).
  - rewrite filter_cons_False by (intros N; by apply N). done.
  - rewrite filter_cons_True by done. cbn [length]. rewrite Nat2Z.inj_succ. lia.
Qed.

Lemma count_code i : 0 ≤ i < 64 → ∀ src, count_valid (code i :: src) = 1 + count_valid src.
Proof. intros Hi src. rewrite count_cons. destruct (value_code i Hi) as (_ & _ & ->). done. Qed.

Lemma count_lf src : count_valid (LF :: src) = count_valid src.
Proof. by rewrite count_cons, value_lf. Qed.

Lemma count_encode l : all_bytes l → ∀ ll, count_valid (encode_loop l ll) = 4 * ((Z.of_nat (length l) + 2) / 3).
Proof.
  induction l as [|a|a b|a b c l IH] using list_ind3; intros Hl ll; cbn [encode_loop].
  - destruct (negb _); [by rewrite count_cons, value_lf|done].
  - apply Forall_cons in Hl as [Ba _]. destruct (first_byte a 0 Ba ltac:(done)) as (R0 & R1 & _).
    rewrite Z.shiftr_0_l, Z.lor_0_r in R1. rewrite !count_code by done. by rewrite !count_cons, value_pad, value_lf.
  - apply Forall_cons in Hl as [Ba [Bb _]%Forall_cons]. destruct (first_byte a b Ba Bb) as (R0 & R1 & _).
    destruct (second_byte a b 0 Ba Bb ltac:(done)) as (R2 & _). rewrite Z.shiftr_0_l, Z.lor_0_r in R2.
    rewrite !count_code by done. by rewrite !count_cons, value_pad, value_lf.
  - apply Forall_cons in Hl as [Ba [Bb [Bc Bl]%Forall_cons]%Forall_cons].
    destruct (first_byte a b Ba Bb) as (R0 & R1 & _), (second_byte a b c Ba Bb Bc) as (R2 & _), (third_byte b c Bb Bc) as (R3 & _).
    unfold quad. cbn [app]. rewrite !count_code by done. cbn [length].
    replace (Z.of_nat (S (S (S (length l)))) + 2) with (Z.of_nat (length l) + 2 + 1 * 3) by lia. rewrite Z.div_add by lia.
    destruct (72 <=? ll + 4); [rewrite count_lf|]; rewrite IH by done; lia.
Qed.

(** ** Length of the text *)
Lemma encode_length l : ∀ ll, 0 ≤ ll < 72 → ll mod 4 = 0 →
  let text := 4 * ((Z.of_nat (length l) + 2) / 3) in
  Z.of_nat (length (encode_loop l ll)) = text + (ll + text + 71) / 72.
Proof.
  induction l as [|a|a b|a b c l IH] using list_ind3; intros ll Hl Hm text; unfold text; clear text; cbn [encode_loop].
  - destruct (Z.eqb_spec ll 0) as [->|]; cbn [negb length]; [done|].
    change (4 * ((Z.of_nat 0 + 2) / 3)) with 0. Z.to_euclidean_division_equations; lia.
  - cbn [length]. change (4 * ((Z.of_nat 1 + 2) / 3)) with 4. Z.to_euclidean_division_equations; lia.
  - cbn [length]. change (4 * ((Z.of_nat 2 + 2) / 3)) with 4. Z.to_euclidean_division_equations; lia.
  - rewrite length_app. change (length (quad a b c)) with 4%nat. cbn [length].
    replace (Z.of_nat (S (S (S (length l)))) + 2) with (Z.of_nat (length l) + 2 + 1 * 3) by lia. rewrite Z.div_add by lia.
    destruct (Z.leb_spec 72 (ll + 4)); cbn [length].
    + assert (ll = 68) as -> by (Z.to_euclidean_division_equations; lia). specialize (IH 0 ltac:(lia) eq_refl). cbv zeta in IH.
      rewrite Nat2Z.inj_add, (Nat2Z.inj_succ (length _)), IH. Z.to_euclidean_division_equations; lia.
    + specialize (IH (ll + 4) ltac:(lia) ltac:(Z.to_euclidean_division_equations; lia)). cbv zeta in IH.
      rewrite Nat2Z.inj_add, IH. replace (ll + 4 * ((Z.of_nat (length l) + 2) / 3 + 1) + 71) with (ll + 4 + 4 * ((Z.of_nat (length l) + 2) / 3) + 71) by lia. lia.
Qed.

(** [base64_calc_encode_length] leaves room for the text and its terminator. *)
Lemma encode_fits l : Z.of_nat (length l) < 2 ^ 30 →
  Z.of_nat (length (encode_loop l 0)) + 1 ≤ base64_calc_encode_length (Z.of_nat (length l)) < 2 ^ 31.
Proof.
  intros Hl. rewrite encode_length by done. unfold base64_calc_encode_length.
  set (n := Z.of_nat (length l)) in *. assert (0 ≤ n) by lia. clearbody n.
  rewrite (u32_small (n * 4)) by lia. rewrite (u32_small (n * 4 / 3 + 4)) by (Z.to_euclidean_division_equations; lia).
  rewrite (u32_small (n * 4 / 3 + 4 + _)) by (Z.to_euclidean_division_equations; lia).
  rewrite u32_small by (Z.to_euclidean_division_equations; lia). Z.to_euclidean_division_equations; lia.
Qed.

(** The text is a C string. *)
Definition text_char (x : Z) : Prop := x ≠ 0 ∧ byte x.
Lemma code_char i : 0 ≤ i < 64 → text_char (code i).
Proof.
  intros Hi. apply (all_below (λ i, negb (code i =? 0) && (0 <=? code i) && (code i <? 256)) 64 ltac:(by vm_compute)) in Hi.
  zb. unfold text_char, byte. lia.
Qed.
Lemma lf_char : text_char LF. Proof. done. Qed.
Lemma pad_char : text_char PAD. Proof. done. Qed.
Local Hint Resolve code_char lf_char pad_char : core.

Local Ltac chars := repeat (first [apply Forall_nil_2 | apply Forall_cons_2; [by auto|]]).

Lemma encode_chars l : all_bytes l → ∀ ll, Forall text_char (encode_loop l ll).
Proof.
  induction l as [|a|a b|a b c l IH] using list_ind3; intros Hl ll; cbn [encode_loop].
  - destruct (negb _); chars.
  - apply Forall_cons in Hl as [Ba _]. destruct (first_byte a 0 Ba ltac:(done)) as (R0 & R1 & _).
    rewrite Z.shiftr_0_l, Z.lor_0_r in R1. chars.
  - apply Forall_cons in Hl as [Ba [Bb _]%Forall_cons]. destruct (first_byte a b Ba Bb) as (R0 & R1 & _).
    destruct (second_byte a b 0 Ba Bb ltac:(done)) as (R2 & _). rewrite Z.shiftr_0_l, Z.lor_0_r in R2. chars.
  - apply Forall_cons in Hl as [Ba [Bb [Bc Bl]%Forall_cons]%Forall_cons].
    destruct (first_byte a b Ba Bb) as (R0 & R1 & _), (second_byte a b c Ba Bb Bc) as (R2 & _), (third_byte b c Bb Bc) as (R3 & _).
    unfold quad. cbn [app]. chars. destruct (72 <=? ll + 4); [apply Forall_cons_2; [done|]|]; by apply IH.
Qed.
Lemma encode_string l : all_bytes l → no_zero (encode_loop l 0) ∧ all_bytes (encode_loop l 0).
Proof. intros Hl. apply Forall_and, encode_chars, Hl. Qed.
Lemma encode_not_nil l ll : l ≠ [] → encode_loop l ll ≠ [].
Proof. by destruct l as [|a [|b [|c l]]]. Qed.

(** ** Decoding a text of the encoder *)
Lemma pad_len_final l pad inb (p q r t : Z) : length pad = pad_len l →
  (if decide (l = []) then inb = [p; q; r; t] else last_group l inb) →
  (let len := length (l ++ pad) in
   if (0 <? len)%nat then
     if nth 2 inb 0 =? PAD then (len - 2)%nat else if nth 3 inb 0 =? PAD then (len - 1)%nat else len
   else len) = length l.
Proof.
  intros Lp G. cbv zeta. rewrite length_app, Lp. unfold pad_len. destruct (decide (l = [])) as [->|N]; [done|].
  destruct G as (x0 & x1 & x2 & x3 & -> & E2 & E3). cbn [nth]. rewrite E2, E3.
  assert (length l ≠ 0)%nat by (by destruct l).
  destruct (length l mod 3)%nat as [|[|[|k]]] eqn:M; cbn [negb Nat.eqb]; try (destruct (Nat.ltb_spec 0 (length l + 2)));
    try (destruct (Nat.ltb_spec 0 (length l + 1))); try (destruct (Nat.ltb_spec 0 (length l + 0))); try lia.
  pose proof (Nat.mod_upper_bound (length l) 3). lia.
Qed.

Lemma decode_encoded l inb block : all_bytes l → length inb = 4%nat → length block = 4%nat →
  ∃ pad, base64_decode true true inb block (encode_loop l 0) = mk_dec 1 (Some (Z.of_nat (length l))) (l ++ pad) 1 ∧
    length pad = pad_len l.
Proof.
  intros Hl Hi Hb. destruct inb as [|p [|q [|r [|t [|? ?]]]]]; try done.
  destruct block as [|p' [|q' [|r' [|t' [|? ?]]]]]; try done.
  destruct (decode_encode_loop l Hl 0 p q r t p' q' r' t') as (pad & inb & E & Lp & G). exists pad. split; [|done].
  unfold base64_decode. cbn [negb]. rewrite (count_encode l Hl), Z.mul_comm, Z.mod_mul by done.
  cbn [negb Z.eqb]. rewrite E. cbv zeta. do 2 f_equal. f_equal. by eapply pad_len_final.
Qed.

Lemma pad_len_count l : Z.of_nat (length l + pad_len l) = 3 * ((Z.of_nat (length l) + 2) / 3).
Proof.
  unfold pad_len. pose proof (Nat.div_mod_eq (length l) 3). pose proof (Nat.mod_upper_bound (length l) 3).
  destruct (length l mod 3)%nat as [|[|[|k]]] eqn:M; Z.to_euclidean_division_equations; lia.
Qed.

(** base64_encode produces a C string that fits, with its terminator, the
    length base64_calc_encode_length announces, and base64_decode turns it back
    into the data, whatever its work arrays held: it returns 1, reports the length
    of the data, and what it stores is no longer than what
    base64_calc_decode_length announces. *)
Theorem base64_roundtrip l inb block :
  all_bytes l → Z.of_nat (length l) < 2 ^ 30 → length inb = 4%nat → length block = 4%nat →
  ∃ text pad, base64_encode l true true = (1, Some (Z.of_nat (length text)), text ++ [0]) ∧ no_zero text ∧
    Z.of_nat (length text) + 1 ≤ base64_calc_encode_length (Z.of_nat (length l)) ∧
    base64_decode true true inb block text = mk_dec 1 (Some (Z.of_nat (length l))) (l ++ pad) 1 ∧
    Z.of_nat (length (l ++ pad)) ≤ (base64_calc_decode_length true text).1.
Proof.
  intros Hl Hn Hi Hb. destruct (decode_encoded l inb block Hl Hi Hb) as (pad & D & Lp).
  exists (encode_loop l 0), pad. split_and!; [done|by apply encode_string|by apply encode_fits|done|].
  unfold base64_calc_decode_length. cbn [negb fst]. rewrite (count_encode l Hl), Z.mul_comm, Z.mod_mul by done.
  cbn [negb Z.eqb]. rewrite length_app, Lp, pad_len_count. Z.to_euclidean_division_equations; lia.
Qed.

Definition sample : list Z := seqZ 0 100 ++ [255].
Lemma base64_roundtrip_witness :
  ∃ text pad, base64_encode sample true true = (1, Some (Z.of_nat (length text)), text ++ [0]) ∧ no_zero text ∧
    Z.of_nat (length text) + 1 ≤ base64_calc_encode_length (Z.of_nat (length sample)) ∧
    base64_decode true true [61; 61; 61; 61] [1; 2; 3; 4] text = mk_dec 1 (Some (Z.of_nat (length sample))) (sample ++ pad) 1 ∧
    Z.of_nat (length (sample ++ pad)) ≤ (base64_calc_decode_length true text).1.
Proof.
  apply (base64_roundtrip sample); [|by vm_compute|done|done].
  apply (bool_decide_unpack _). by vm_compute.
Defined.
End Base64.
