(* ===== verification/BkEf.v ===== *)
(** * Buffers in the environment: components/easy_flash/bk_ef.c

    Binary buffers stored as base64 text under a key of the environment of
    EfEnv.v, with the codec of Base64.v.  The outcome of the n-th allocation and
    the content of the decoder's work arrays are parameters; blocks that stay
    allocated are counted; a store behind the end of a block is [Trap Fault]. *)
From S2P Require Import Prelude Bytes EfEnv Base64.
Local Open Scope Z_scope.

Module BkEf.
Import EfEnv Base64.

Section BkEf.
Context (alloc_ok : nat → bool) (inb block : list Z).

Record bk := mk_bk { ef : st; nalloc : nat; heap : nat }.

Definition set_ef (e : st) (s : bk) : bk := mk_bk e (nalloc s) (heap s).
(** [os_zalloc]: a block of [n] zeros, or NULL. *)
Definition os_zalloc (n : Z) : M bk (option (list Z)) := λ s,
  if alloc_ok (nalloc s)
  then Done (Some (replicate (Z.to_nat n) 0), mk_bk (ef s) (S (nalloc s)) (S (heap s)))
  else Done (None, mk_bk (ef s) (S (nalloc s)) (heap s)).
Definition os_free : M bk unit := modify (λ s, mk_bk (ef s) (nalloc s) (pred (heap s))).
(** Bytes stored from the start of a block. *)
Definition store_out (blk bs : list Z) : M bk (list Z) :=
  if (length bs <=? length blk)%nat then ret (write_at blk 0 bs) else trapM Fault.
(** The allocation inside a function of Base64.v, and the blocks it keeps. *)
Definition next_alloc : M bk bool := λ s,
  Done (alloc_ok (nalloc s), mk_bk (ef s) (S (nalloc s)) (heap s)).
Definition keep_blocks (n : nat) : M bk unit := modify (λ s, mk_bk (ef s) (nalloc s) (heap s + n)).
Definition in_env {A} (m : M st A) : M bk A := λ s,
  match m (ef s) with Done (a, e) => Done (a, set_ef e s) | Trap t => Trap t end.

Definition bk_get_env (key : list Z) (s : bk) : option (list Z) := ef_get_env key (ef s).
Definition bk_set_env (key : list Z) (value : option (list Z)) : M bk EfErrCode := in_env (ef_set_env key value).
Definition bk_save_env : M bk EfErrCode := in_env ef_save_env.

(** [None] is a null pointer; [len] is the length of [buf]. *)
Definition bk_set_buf_env (key buf : option (list Z)) : M bk EfErrCode :=
  match key, buf with
  | Some key, Some buf =>
      let len := Z.of_nat (length buf) in
      if len =? 0 then ret EF_ENV_INIT_FAILED
      else
        let buf_len := u32 (base64_calc_encode_length (u32 len) + 4) in
        let* ef_value := os_zalloc buf_len in
        match ef_value with
        | None => ret EF_ENV_INIT_FAILED
        | Some ef_value =>
            let enc := base64_encode buf true true in
            let* ef_value := store_out ef_value enc.2 in
            if enc.1.1 =? 0 then os_free ;;; ret EF_ENV_INIT_FAILED
            else
              let* result := in_env (ef_set_env key (Some (cstr ef_value))) in
              os_free ;;;
              ret result
        end
  | _, _ => ret EF_ENV_INIT_FAILED
  end.

(** [buf] is the caller's buffer, [len] its length; the result holds what it
    contains afterwards.  An [out_len] that the decoder does not write is not
    used. *)
Definition bk_get_buf_env (key buf : list Z) : M bk (EfErrCode * list Z) :=
  let len := Z.of_nat (length buf) in
  let* ef_value := gets (bk_get_env key) in
  match ef_value with
  | None => ret (EF_ENV_NAME_ERR, buf)
  | Some ef_value =>
      let value_len := Z.of_nat (strlen ef_value) in
      if value_len =? 0 then ret (EF_ENV_INIT_FAILED, buf)
      else
        let src := cstr ef_value in
        let* ok := next_alloc in
        let dl := base64_calc_decode_length ok src in
        keep_blocks dl.2 ;;;
        let out_buf_len := dl.1 in
        let* out_ptr := os_zalloc (u32 (out_buf_len + 4)) in
        match out_ptr with
        | None => ret (EF_ENV_INIT_FAILED, buf)
        | Some out_ptr =>
            let* ok := next_alloc in
            let d := base64_decode ok true inb block src in
            keep_blocks (dec_heap d) ;;;
            let* out_ptr := store_out out_ptr (dec_out d) in
            if dec_ret d =? 0 then os_free ;;; ret (EF_ENV_INIT_FAILED, buf)
            else
              let out_len := default 0 (dec_len d) in
              let* buf :=
                (if negb (out_len =? 0) then
                   let count := Z.min len out_len in
                   BK_ASSERT (len =? out_len) ;;;
                   ret (write_at buf 0 (take (Z.to_nat count) out_ptr))
                 else ret buf) in
              os_free ;;;
              ret (EF_NO_ERR, buf)
        end
  end.

(** ** Lemmas *)
Hypothesis arrays : length inb = 4%nat ∧ length block = 4%nat.

Lemma store_out_ok blk bs s : (length bs ≤ length blk)%nat → store_out blk bs s = Done (write_at blk 0 bs, s).
Proof. intros. unfold store_out. rewrite (proj2 (Nat.leb_le _ _)) by done. done. Qed.

Lemma write_at_0 l bs : write_at l 0 bs = bs ++ drop (length bs) l.
Proof. done. Qed.

Lemma zalloc_ok n s : alloc_ok (nalloc s) = true →
  os_zalloc n s = Done (Some (replicate (Z.to_nat n) 0), mk_bk (ef s) (S (nalloc s)) (S (heap s))).
Proof. unfold os_zalloc. by intros ->. Qed.

Lemma env_set_ok k v s r e : ef_set_env k v (ef s) = Done (r, e) → in_env (ef_set_env k v) s = Done (r, set_ef e s).
Proof. unfold in_env. by intros ->. Qed.

Lemma set_buf_encodes k l s r e : all_bytes l → l ≠ [] → Z.of_nat (length l) < 2 ^ 30 →
  alloc_ok (nalloc s) = true → ef_set_env k (Some (encode_loop l 0)) (ef s) = Done (r, e) →
  bk_set_buf_env (Some k) (Some l) s = Done (r, mk_bk e (S (nalloc s)) (heap s)).
Proof.
  intros Hl Ne Hn A E. unfold bk_set_buf_env. assert (length l ≠ 0%nat) by (by destruct l).
  rewrite (proj2 (Z.eqb_neq _ _)) by lia. destruct (encode_fits l Hn) as [F1 F2].
  rewrite (u32_small (Z.of_nat (length l))), u32_small by lia.
  rewrite (bind_done _ _ _ _ _ (zalloc_ok _ s A)). cbv iota beta.
  unfold base64_encode. cbn [negb fst snd].
  set (blk := replicate _ 0). assert (Lb : (length (encode_loop l 0 ++ [0%Z]) ≤ length blk)%nat).
  { unfold blk. rewrite length_app, length_replicate. cbn [length]. lia. }
  rewrite (bind_done _ _ _ _ _ (store_out_ok _ _ _ Lb)).
  change (1 =? 0) with false. cbv iota beta. rewrite write_at_0, <-app_assoc. cbn [app].
  rewrite cstr_app by (by apply encode_string). by rewrite (bind_done _ _ _ _ _ (env_set_ok _ _ (mk_bk _ _ _) _ _ E)).
Qed.

(** What a read of a stored buffer does with each outcome of its first allocation,
    when the other two succeed. *)
Lemma get_stored k l buf s : all_bytes l → l ≠ [] → Z.of_nat (length l) < 2 ^ 30 →
  ef_get_env k (ef s) = Some (encode_loop l 0) →
  alloc_ok (S (nalloc s)) = true → alloc_ok (S (S (nalloc s))) = true →
  bk_get_buf_env k buf s =
  if alloc_ok (nalloc s) then
    if (length buf =? length l)%nat then Done ((EF_NO_ERR, l), mk_bk (ef s) (S (S (S (nalloc s)))) (heap s + 2))
    else Trap Assert
  else if (length l <=? 3)%nat then
    if (length buf =? length l)%nat then Done ((EF_NO_ERR, l), mk_bk (ef s) (S (S (S (nalloc s)))) (heap s + 1))
    else Trap Assert
  else Trap Fault.
Proof.
  intros Hl Ne Hn G A1 A2. destruct arrays as [Hi Hb].
  destruct (decode_encoded l inb block Hl Hi Hb) as (pad & D & Lp). pose proof (pad_len_count l) as Pc.
  assert (N0 : length l ≠ 0%nat) by (by destruct l).
  assert (Lt : strlen (encode_loop l 0) ≠ 0%nat).
  { unfold strlen. rewrite cstr_no_zero by (by apply encode_string). pose proof (encode_not_nil l 0 Ne). by destruct (encode_loop l 0). }
  unfold bk_get_buf_env. rewrite (bind_done (gets (bk_get_env k)) _ s (Some (encode_loop l 0)) s) by (unfold gets, bk_get_env; by rewrite G).
  cbv iota beta zeta. rewrite (proj2 (Z.eqb_neq (Z.of_nat (strlen _)) 0)) by lia. rewrite cstr_no_zero by (by apply encode_string).
  set (z := if alloc_ok (nalloc s) then Z.of_nat (length l + pad_len l) / 3 * 4 else 0).
  set (h := if alloc_ok (nalloc s) then 1%nat else 0%nat).
  assert (Dl : base64_calc_decode_length (alloc_ok (nalloc s)) (encode_loop l 0) = (z, h)).
  { unfold base64_calc_decode_length, z, h. rewrite (count_encode l Hl), Pc, (Z.mul_comm 4), Z.mod_mul by done.
    rewrite (Z.mul_comm 3), Z.div_mul by done. by destruct (alloc_ok (nalloc s)). }
  assert (0 ≤ z < 2 ^ 31) by (unfold z; rewrite Pc; destruct (alloc_ok (nalloc s)); Z.to_euclidean_division_equations; lia).
  unfold next_alloc at 1. rewrite (bind_done _ _ _ _ _ eq_refl). cbv beta. rewrite Dl. cbn [fst snd].
  rewrite (bind_done _ _ _ _ _ eq_refl). rewrite (bind_done _ _ _ _ _ (zalloc_ok _ (mk_bk _ _ _) A1)). cbv iota beta.
  unfold next_alloc. rewrite (bind_done _ _ _ _ _ eq_refl). cbn [nalloc]. rewrite A2, D. cbn [dec_heap dec_out dec_ret dec_len default from_option id].
  rewrite (bind_done _ _ _ _ _ eq_refl), u32_small by lia. cbn [ef nalloc heap].
  set (blk := replicate _ _). set (s2 := mk_bk _ _ _).
  assert (Lb : length blk = Z.to_nat (z + 4)) by (by unfold blk; rewrite length_replicate).
  destruct (decide (length (l ++ pad) ≤ length blk)%nat) as [Le|Gt].
  - assert (alloc_ok (nalloc s) = false → (length l <=? 3)%nat = true) as T.
    { intros Af. apply Nat.leb_le. rewrite length_app, Lp, Lb in Le. unfold z in Le. rewrite Af in Le.
      Z.to_euclidean_division_equations; lia. }
    rewrite (bind_done _ _ _ _ _ (store_out_ok _ _ s2 Le)). cbv beta. change (1 =? 0) with false. cbv iota.
    rewrite (proj2 (Z.eqb_neq (Z.of_nat (length l)) 0)) by lia. cbn [negb].
    set (res := if (length buf =? length l)%nat then Done ((EF_NO_ERR, l), mk_bk (ef s) (S (S (S (nalloc s)))) (heap s + S h)) else Trap Assert).
    transitivity res.
    + unfold res. destruct (Nat.eqb_spec (length buf) (length l)) as [Eb|Nb].
      * rewrite Eb, Z.eqb_refl, Z.min_id, Nat2Z.id, (write_at_0 blk), <-app_assoc, take_app_length, (write_at_0 buf), <-Eb, drop_all, app_nil_r.
        unfold bind, ret, BK_ASSERT, os_free, modify, s2. cbn. do 3 f_equal. lia.
      * rewrite (proj2 (Z.eqb_neq (Z.of_nat (length buf)) _)) by lia. done.
    + unfold res, h. destruct (alloc_ok (nalloc s)); [done|]. rewrite T by done. done.
  - assert (alloc_ok (nalloc s) = false ∧ (length l <=? 3)%nat = false) as [-> ->].
    { rewrite length_app, Lp, Lb in Gt. unfold z in Gt. destruct (alloc_ok (nalloc s)); [Z.to_euclidean_division_equations; lia|].
      split; [done|]. apply Nat.leb_gt. Z.to_euclidean_division_equations; lia. }
    unfold store_out. rewrite (proj2 (Nat.leb_gt _ _)) by lia. done.
Qed.

(** C36: A buffer stored under a key reads back, when every allocation succeeds: on a
    well-formed environment, for a buffer of 1 to 2^30 - 1 bytes, bk_set_buf_env acts on the environment as storing the base64 text of the
    buffer (written within the block that it allocates), releases that block and leaves the other
    keys; when it reports EF_NO_ERR, bk_get_buf_env fills a buffer of the same
    length with the same bytes and fails its assertion for any other length.  Each
    read keeps two heap blocks.  When an allocation fails while reading, the decoder may
    write behind a block: [bk_get_buf_env_overruns]. *)
Theorem bk_buf_env_roundtrip s es k l :
  wf (ef s) es → init_ok (ef s) = true → key_ok k → all_bytes l → l ≠ [] → Z.of_nat (length l) < 2 ^ 30 →
  (∀ n, alloc_ok n = true) →
  ∃ r s' es', bk_set_buf_env (Some k) (Some l) s = Done (r, s') ∧
    wf (ef s') es' ∧ put_list es k (encode_loop l 0) r es' ∧ heap s' = heap s ∧
    (∀ k', key_ok k' → k' ≠ k → bk_get_env k' s' = bk_get_env k' s) ∧
    (r = EF_NO_ERR → ∀ buf, bk_get_buf_env k buf s' =
       if (length buf =? length l)%nat
       then Done ((EF_NO_ERR, l), mk_bk (ef s') (S (S (S (nalloc s')))) (heap s' + 2))
       else Trap Assert).
Proof.
  intros W I Kk Hl Ne Hn A. destruct (encode_string l Hl) as [Nz By].
  assert (He : entry_ok (k, encode_loop l 0)) by (split; [done|split_and!; [by apply encode_not_nil|done|done]]).
  destruct (ef_set_env_put (ef s) es k _ W I He) as (r & e & es' & R & W' & P & Fr & _).
  destruct (put_view _ _ _ _ _ (wf_ok _ _ W) P) as (Hr & Ho). pose proof Fr as (_ & _ & Fi & _). rewrite I in Fi.
  exists r, (mk_bk e (S (nalloc s)) (heap s)), es'. split_and!; try done; [by apply set_buf_encodes| |].
  - intros k' Kk' N. unfold bk_get_env. cbn [ef]. rewrite (ef_get_env_spec e es'), (ef_get_env_spec (ef s) es) by done. auto.
  - intros -> buf. rewrite (get_stored k l); [by rewrite A|done..| |by rewrite A|by rewrite A].
    cbn [ef]. rewrite (ef_get_env_spec e es') by done. by destruct Hr as [[_ ?]|[? _]].
Qed.

(** The length is computed with an allocation of its own; when that one fails the
    decoder still runs if its allocation succeeds, into a block of four bytes. *)
Theorem bk_get_buf_env_overruns s k l buf :
  all_bytes l → (3 < length l)%nat → Z.of_nat (length l) < 2 ^ 30 → bk_get_env k s = Some (encode_loop l 0) →
  alloc_ok (nalloc s) = false → alloc_ok (S (nalloc s)) = true → alloc_ok (S (S (nalloc s))) = true →
  bk_get_buf_env k buf s = Trap Fault.
Proof.
  intros Hl Hn Hm G A0 A1 A2. rewrite (get_stored k l) by (try done; intros ->; cbn in Hn; lia).
  rewrite A0. destruct (Nat.leb_spec (length l) 3); [lia|done].
Qed.
End BkEf.

(** ** Witnesses *)
Definition work : list Z := [1; 2; 3; 4].
Definition demo_bk : bk := mk_bk demo 0 0.
Definition demo_buf : list Z := [0; 255; 61; 10].

Lemma bk_buf_env_roundtrip_witness : ∃ r s' es',
  bk_set_buf_env (λ _, true) (Some [75]) (Some demo_buf) demo_bk = Done (r, s') ∧
    wf (ef s') es' ∧ put_list demo_defs [75] (encode_loop demo_buf 0) r es' ∧ heap s' = 0%nat ∧
    (∀ k', key_ok k' → k' ≠ [75] → bk_get_env k' s' = bk_get_env k' demo_bk) ∧
    (r = EF_NO_ERR → ∀ buf, bk_get_buf_env (λ _, true) work work [75] buf s' =
       if (length buf =? length demo_buf)%nat
       then Done ((EF_NO_ERR, demo_buf), mk_bk (ef s') (S (S (S (nalloc s')))) (heap s' + 2))
       else Trap Assert).
Proof.
  destruct demo_wf as (W & I & _).
  apply (bk_buf_env_roundtrip (λ _, true) work work (conj eq_refl eq_refl) demo_bk demo_defs [75] demo_buf W I).
  - apply key_ok_dec. by vm_compute.
  - apply (bool_decide_unpack _). by vm_compute.
  - done.
  - by vm_compute.
  - done.
Defined.

(** The stored value is found: the allocation is enough and the table is not full. *)
Example demo_buf_stored :
  match bk_set_buf_env (λ _, true) (Some [75]) (Some demo_buf) demo_bk with
  | Done (r, s') =>
      bool_decide (r = EF_NO_ERR) &&
      match bk_get_buf_env (λ _, true) work work [75] [0; 0; 0; 0] s' with
      | Done (p, s'') => bool_decide (p = (EF_NO_ERR, demo_buf)) && (heap s'' =? 2)%nat
      | Trap _ => false
      end
  | Trap _ => false
  end = true.
Proof. by vm_compute. Qed.
Example demo_buf_overruns :
  match bk_set_buf_env (λ n, negb (n =? 1)%nat) (Some [75]) (Some demo_buf) demo_bk with
  | Done (r, s') => match bk_get_buf_env (λ n, negb (n =? 1)%nat) work work [75] [0; 0; 0; 0] s' with
                    | Trap Fault => true | _ => false end
  | Trap _ => false
  end = true.
Proof. by vm_compute. Qed.
End BkEf.
