(* ===== verification/HalFile.v ===== *)
(** * The file layer: src/bk7235/hals/utils/file/src/hal_file.c

    Files are values of a key/value store.  An open file is a slot of a table of
    32 with a RAM copy of its content; closing writes the copy back, with the zero
    byte escaped so that the content is a C string.

    The store is any implementation of the [EnvStore] interface; [ef_store] of
    EfEnv.v is the one in the firmware.  The outcome of the n-th [malloc] and the
    bytes of a fresh block are parameters.  A copy that leaves its buffer is
    [Trap Fault].  The store is taken as initialised ([init_ef] runs
    [easyflash_init] before the first access). *)
From Stdlib Require Import Ascii String.
From S2P Require Import Prelude Bytes EfEnv.
Local Open Scope Z_scope.

Module HalFile.

Definition INVALID_FD : Z := -1.
Definition FILE_ERR_GENERAL : Z := -1.
Definition MAX_FILE_CNT : nat := 32.
Definition ESC_CHAR1 : Z := 0.
Definition ESC_CHAR2 : Z := 0xDB.
Definition REP_CHAR1 : Z := 0xDC.
Definition REP_CHAR2 : Z := 0xDD.
Definition MAX_FILE_NAME_LEN : nat := 63.
Definition MAX_FILE_LENGTH : Z := 1024.
Definition MAX_FILE_TIMER_LENGTH : Z := 3072.
Definition MAGIC_CHAR : Z := 38.

(** ** Escaping *)
Fixpoint encode_loop (l : list Z) : list Z :=
  match l with
  | [] => []
  | b :: l' =>
      if b =? ESC_CHAR1 then ESC_CHAR2 :: REP_CHAR1 :: encode_loop l'
      else if b =? ESC_CHAR2 then ESC_CHAR2 :: REP_CHAR2 :: encode_loop l'
      else b :: encode_loop l'
  end.
(** The bytes written; their number is the return value. *)
Definition file_encode (buf_in : list Z) : list Z := encode_loop buf_in.

(** The bytes written, and whether the loop ran to the end. *)
Fixpoint decode_loop (l : list Z) : list Z * bool :=
  match l with
  | [] => ([], true)
  | b :: l' =>
      if b =? ESC_CHAR2 then
        match l' with
        | [] => ([], false)
        | c :: l'' =>
            if c =? REP_CHAR1 then let '(o, ok) := decode_loop l'' in (ESC_CHAR1 :: o, ok)
            else if c =? REP_CHAR2 then let '(o, ok) := decode_loop l'' in (ESC_CHAR2 :: o, ok)
            else ([], false)
        end
      else let '(o, ok) := decode_loop l' in (b :: o, ok)
  end.
(** The bytes written and the return value. *)
Definition file_decode (buf_in : list Z) : list Z * Z :=
  let '(o, ok) := decode_loop buf_in in (o, if ok then Z.of_nat (length o) else 0).

(** ** The table of open files *)
Record file_info := mk_info {
  file_name : list Z;
  fd : Z;
  content : list Z;
  flen : Z;
  offset : Z }.

Definition closed : file_info := mk_info [] INVALID_FD [] 0 0.

Definition str (s : string) : list Z :=
  map (λ a, Z.of_nat (nat_of_ascii a)) (list_ascii_of_string s).

Fixpoint prefixb (p l : list Z) : bool :=
  match p, l with
  | [], _ => true
  | _, [] => false
  | a :: p', b :: l' => (a =? b) && prefixb p' l'
  end.
Fixpoint strstr (l p : list Z) : bool :=
  prefixb p l || match l with [] => false | _ :: l' => strstr l' p end.

(** The names whose files get the large buffer. *)
Definition long_name (path : list Z) : bool :=
  strstr path (str "config.cfg"%string) || strstr path (str "config_bak.cfg"%string) ||
  strstr path (str "timer.cfg"%string) || strstr path (str "hilink_timer"%string) ||
  strstr path (str "hilink_running"%string).

Record oflag := mk_oflag { O_CREAT_FS : bool; O_EXCL_FS : bool; O_TRUNC_FS : bool; O_APPEND_FS : bool }.
Definition O_RDONLY_FS : oflag := mk_oflag false false false false.
Inductive whence := SEEK_SET_FS | SEEK_CUR_FS | SEEK_END_FS | SEEK_BAD.

Section HalFile.
Context {E : Type} {ES : EnvStore E} (alloc_ok : nat → bool) (garbage : nat → Z).

Record fs := mk_fs {
  infos : list file_info;
  file_long_file_fg : bool;
  env : E;
  nalloc : nat }.

Definition set_infos l s := mk_fs l (file_long_file_fg s) (env s) (nalloc s).
Definition set_long b s := mk_fs (infos s) b (env s) (nalloc s).
Definition set_env e s := mk_fs (infos s) (file_long_file_fg s) e (nalloc s).
Definition put_info (i : nat) (f : file_info) (s : fs) : fs := set_infos (<[i := f]> (infos s)) s.

(** [Some] block of [n] bytes, or NULL. *)
Definition malloc (n : Z) : M fs (option (list Z)) := λ s,
  let s' := mk_fs (infos s) (file_long_file_fg s) (env s) (S (nalloc s)) in
  Done (if alloc_ok (nalloc s) then Some (map garbage (seq 0 (Z.to_nat n))) else None, s').

(** [memcpy] of [bs] to [off] of a block. *)
Definition copy_to (block : list Z) (off : Z) (bs : list Z) : M fs (list Z) :=
  if off + Z.of_nat (length bs) <=? Z.of_nat (length block)
  then ret (write_at block (Z.to_nat off) bs) else trapM Fault.

Definition file_exist (key : list Z) (s : fs) : bool :=
  match env_get key (env s) with Some _ => true | None => false end.

Definition file_load (key : list Z) (value_out : list Z) : M fs (list Z * Z) := λ s,
  match env_get key (env s) with
  | Some value =>
      if negb (default 0 (head value) =? MAGIC_CHAR) then Done ((value_out, 0), s)
      else let '(o, len) := file_decode (cstr (tail value)) in
           (let* c := copy_to value_out 0 o in ret (c, len)) s
  | None => Done ((value_out, 0), s)
  end.

(** [value]: [None] is the NULL pointer. *)
Definition file_save (key : list Z) (value : option (list Z)) : M fs Z := λ s,
  match value with
  | None =>
      match env_set key None (env s) with
      | Done (_, e) => Done (0, set_env e s)
      | Trap t => Trap t
      end
  | Some v =>
      (let* b := malloc (Z.of_nat (length v) * 2 + 1 + 1) in
       match b with
       | None => ret FILE_ERR_GENERAL
       | Some _ => λ s,
           match env_set key (Some (cstr (MAGIC_CHAR :: file_encode v ++ [0]))) (env s) with
           | Done (ok, e) => Done (if ok then 0 else FILE_ERR_GENERAL, set_env e s)
           | Trap t => Trap t
           end
       end) s
  end.

Definition file_get_info (n : Z) (s : fs) : option (nat * file_info) :=
  if (n <=? 0) || (Z.of_nat MAX_FILE_CNT <? n) then None
  else match infos s !! Z.to_nat (n - 1) with
       | Some f => if fd f =? n then Some (Z.to_nat (n - 1), f) else None
       | None => None
       end.

Fixpoint first_free (l : list file_info) : option nat :=
  match l with
  | [] => None
  | f :: l' => if fd f =? INVALID_FD then Some 0%nat else S <$> first_free l'
  end.

Definition HalFileOpen (path : list Z) (o : oflag) : M fs Z := λ s,
  match first_free (infos s) with
  | None => Done (FILE_ERR_GENERAL, s)
  | Some i =>
      if (MAX_FILE_NAME_LEN <? strlen path)%nat then Done (FILE_ERR_GENERAL, s)
      else
        let exist := file_exist path s in
        if negb (O_CREAT_FS o) && negb exist then Done (FILE_ERR_GENERAL, s)
        else if O_EXCL_FS o && exist then Done (FILE_ERR_GENERAL, s)
        else
          let long := long_name path in
          let s1 := set_long long s in
          (let* c := malloc (if long then MAX_FILE_TIMER_LENGTH else MAX_FILE_LENGTH) in
           match c with
           | None => ret FILE_ERR_GENERAL
           | Some c0 =>
               let* n := malloc (Z.of_nat (strlen path) + 1) in
               match n with
               | None => ret FILE_ERR_GENERAL
               | Some _ =>
                   let* (c1, len) :=
                     (if O_TRUNC_FS o then ret (c0, 0) else file_load path c0) in
                   let off := if O_APPEND_FS o then len else 0 in
                   modify (put_info i (mk_info path (Z.of_nat i + 1) c1 len off)) ;;;
                   ret (Z.of_nat i + 1)
               end
           end) s1
  end.

Definition HalFileClose (n : Z) : M fs Z := λ s,
  match file_get_info n s with
  | None => Done (FILE_ERR_GENERAL, s)
  | Some (i, f) =>
      (let* _ := file_save (file_name f) (Some (take (Z.to_nat (flen f)) (content f))) in
       modify (put_info i (mk_info (file_name f) INVALID_FD (content f) (flen f) (offset f))) ;;;
       ret 0) s
  end.

(** The return value and the bytes copied to the caller's buffer. *)
Definition HalFileRead (n : Z) (len : Z) : M fs (Z * list Z) := λ s,
  match file_get_info n s with
  | None => Done ((FILE_ERR_GENERAL, []), s)
  | Some (i, f) =>
      let len := if flen f <? u32 (offset f + len) then u32 (flen f - offset f) else len in
      if negb (len =? 0) then
        if Z.of_nat (length (content f)) <? offset f + len then Trap Fault
        else
          let bs := sub (content f) (Z.to_nat (offset f)) (Z.to_nat len) in
          Done ((len, bs),
                put_info i (mk_info (file_name f) (fd f) (content f) (flen f) (u32 (offset f + len))) s)
      else Done ((len, []), s)
  end.

(** [buf]: the caller's buffer; reading beyond it faults too. *)
Definition HalFileWrite (n : Z) (buf : list Z) (len : Z) : M fs Z := λ s,
  match file_get_info n s with
  | None => Done (FILE_ERR_GENERAL, s)
  | Some (i, f) =>
      let max := if file_long_file_fg s then MAX_FILE_TIMER_LENGTH else MAX_FILE_LENGTH in
      let len := if max <? u32 (offset f + len) then u32 (max - offset f) else len in
      if negb (len =? 0) then
        if Z.of_nat (length buf) <? len then Trap Fault
        else
          (let* c := copy_to (content f) (offset f) (take (Z.to_nat len) buf) in
           let off := u32 (offset f + len) in
           modify (put_info i (mk_info (file_name f) (fd f) c
                                 (if flen f <? off then off else flen f) off)) ;;;
           ret len) s
      else Done (len, s)
  end.

Definition HalFileDelete (path : list Z) : M fs Z := λ s,
  if negb (file_exist path s) then Done (FILE_ERR_GENERAL, s)
  else (let* _ := file_save path None in ret 0) s.

(** The return value and the size. *)
Definition HalFileStat (path : list Z) : M fs (Z * Z) :=
  let* n := HalFileOpen path O_RDONLY_FS in
  if n <=? 0 then ret (FILE_ERR_GENERAL, 0)
  else
    let* f := gets (file_get_info n) in
    match f with
    | None => HalFileClose n ;;; ret (FILE_ERR_GENERAL, 0)
    | Some (_, i) => HalFileClose n ;;; ret (0, flen i)
    end.

Definition HalFileSeek (n : Z) (off : Z) (w : whence) : M fs Z := λ s,
  match file_get_info n s with
  | None => Done (FILE_ERR_GENERAL, s)
  | Some (i, f) =>
      let pos := match w with
                 | SEEK_SET_FS => Some 0 | SEEK_CUR_FS => Some (offset f)
                 | SEEK_END_FS => Some (flen f) | SEEK_BAD => None end in
      match pos with
      | None => Done (FILE_ERR_GENERAL, s)
      | Some p =>
          if p + off <? 0 then Done (FILE_ERR_GENERAL, s)
          else if flen f <? p + off then Done (FILE_ERR_GENERAL, s)
          else Done (p + off, put_info i (mk_info (file_name f) (fd f) (content f) (flen f) (p + off)) s)
      end
  end.

(** The one-call wrappers. *)
Definition O_CREAT : oflag := mk_oflag true false false false.
Definition FileRead (filename : list Z) (len : Z) : M fs (Z * list Z) :=
  let* n := HalFileOpen filename O_CREAT in
  if n <=? 0 then ret (FILE_ERR_GENERAL, [])
  else let* r := HalFileRead n len in HalFileClose n ;;; ret r.
Definition FileWrite (filename buf : list Z) (len : Z) : M fs unit :=
  let* n := HalFileOpen filename O_CREAT in
  let* _ := HalFileWrite n buf len in
  HalFileClose n ;;; ret tt.
Definition FileSize (filename : list Z) : M fs Z :=
  let* n := HalFileOpen filename O_RDONLY_FS in
  if n <=? 0 then ret FILE_ERR_GENERAL
  else
    let* f := gets (file_get_info n) in
    match f with
    | None => HalFileClose n ;;; ret FILE_ERR_GENERAL
    | Some (_, i) => HalFileClose n ;;; ret (flen i)
    end.

(** ** The codec *)
Lemma decode_encode l : decode_loop (encode_loop l) = (l, true).
Proof.
  induction l as [|b l IH]; simpl; [done|].
  destruct (Z.eqb_spec b ESC_CHAR1) as [->|N1]; simpl; [by rewrite IH|].
  destruct (Z.eqb_spec b ESC_CHAR2) as [->|N2]; simpl; [by rewrite IH|].
  rewrite (proj2 (Z.eqb_neq b ESC_CHAR2)) by done. by rewrite IH.
Qed.
Lemma encode_no_zero l : no_zero (encode_loop l).
Proof.
  induction l as [|b l IH]; simpl; [constructor|].
  destruct (Z.eqb_spec b ESC_CHAR1) as [->|N1]; [by do 2 (constructor; [done|])|].
  destruct (Z.eqb_spec b ESC_CHAR2) as [->|N2]; [by do 2 (constructor; [done|])|]. by constructor.
Qed.
Lemma encode_bytes l : all_bytes l → all_bytes (encode_loop l).
Proof.
  induction 1 as [|b l Hb Hl IH]; simpl; [constructor|].
  assert (byte ESC_CHAR2 ∧ byte REP_CHAR1 ∧ byte REP_CHAR2) as (?&?&?) by (unfold byte, ESC_CHAR2, REP_CHAR1, REP_CHAR2; lia).
  destruct (b =? ESC_CHAR1); [by do 2 (constructor; [done|])|].
  destruct (b =? ESC_CHAR2); [by do 2 (constructor; [done|])|by constructor].
Qed.
Lemma decode_bytes n l : (length l ≤ n)%nat → all_bytes l → all_bytes (decode_loop l).1.
Proof.
  revert l. induction n as [|n IH]; intros l Hn B.
  { destruct l; simpl in *; [constructor|lia]. }
  destruct B as [|b l Hb B]; simpl in *; [constructor|].
  assert (byte ESC_CHAR1 ∧ byte ESC_CHAR2) as [? ?] by (unfold byte, ESC_CHAR1, ESC_CHAR2; lia).
  destruct (b =? ESC_CHAR2).
  - destruct B as [|c l Hc B]; simpl in *; [constructor|].
    specialize (IH l ltac:(lia) B). destruct (decode_loop l) as [o ok]. simpl in *.
    destruct (c =? REP_CHAR1); [by constructor|]. destruct (c =? REP_CHAR2); [by constructor|constructor].
  - specialize (IH l ltac:(lia) B). destruct (decode_loop l) as [o ok]. by constructor.
Qed.

(** ** The invariant *)
Definition cap (name : list Z) : Z := if long_name name then MAX_FILE_TIMER_LENGTH else MAX_FILE_LENGTH.

(** The content the store holds under a name. *)
Definition decoded (v : list Z) : list Z * bool := decode_loop (cstr (tail v)).
Definition stored (e : E) (path : list Z) : list Z :=
  match env_view e path with
  | Some v => if default 0 (head v) =? MAGIC_CHAR
              then let '(o, ok) := decoded v in if ok then o else [] else []
  | None => []
  end.

Record open_wf (i : nat) (f : file_info) : Prop := {
  ow_fd : fd f = Z.of_nat i + 1;
  ow_cap : Z.of_nat (length (content f)) = cap (file_name f);
  ow_off : 0 ≤ offset f ≤ flen f;
  ow_len : flen f ≤ cap (file_name f);
  ow_bytes : all_bytes (content f);
  ow_name : env_name_ok (file_name f) }.

Record fs_wf (s : fs) : Prop := {
  fw_len : length (infos s) = MAX_FILE_CNT;
  fw_slots : ∀ i f, infos s !! i = Some f → fd f = INVALID_FD ∨ open_wf i f;
  fw_env : env_inv (env s);
  fw_store : ∀ k v, env_name_ok k → env_view (env s) k = Some v →
    default 0 (head v) = MAGIC_CHAR → Z.of_nat (length (decoded v).1) ≤ cap k }.

Lemma cap_range name : 1024 ≤ cap name ≤ 3072.
Proof. unfold cap, MAX_FILE_TIMER_LENGTH, MAX_FILE_LENGTH. destruct (long_name name); lia. Qed.

Lemma get_info_spec n s i f : fs_wf s → file_get_info n s = Some (i, f) →
  infos s !! i = Some f ∧ n = Z.of_nat i + 1 ∧ fd f = n ∧ open_wf i f.
Proof.
  intros W. unfold file_get_info.
  destruct ((n <=? 0) || (Z.of_nat MAX_FILE_CNT <? n)) eqn:B; [done|]. zb.
  destruct (infos s !! Z.to_nat (n - 1)) as [g|] eqn:L; [|done].
  destruct (Z.eqb_spec (fd g) n) as [E1|]; [|done]. intros [= <- <-].
  split_and!; [done|lia|done|]. destruct (fw_slots _ W _ _ L) as [Hi0|Hi0]; [|done].
  exfalso. unfold INVALID_FD in Hi0. lia.
Qed.

Lemma get_info_put i f s : (i < length (infos s))%nat → length (infos s) = MAX_FILE_CNT →
  fd f = Z.of_nat i + 1 → file_get_info (Z.of_nat i + 1) (put_info i f s) = Some (i, f).
Proof.
  intros Hi HL Hf. unfold file_get_info, put_info, set_infos. cbn [infos].
  rewrite (proj2 (Z.leb_gt _ _)) by lia. rewrite (proj2 (Z.ltb_ge _ _)) by lia. cbn [orb].
  replace (Z.to_nat (Z.of_nat i + 1 - 1)) with i by lia.
  rewrite list_lookup_insert_eq by done. by rewrite Hf, Z.eqb_refl.
Qed.

Lemma fs_wf_put i f s : fs_wf s → (fd f = INVALID_FD ∨ open_wf i f) → fs_wf (put_info i f s).
Proof.
  intros [HL HS HE HT] Hf. split; cbn [put_info set_infos infos env]; [|  |done|done].
  - by rewrite length_insert.
  - intros j g. destruct (decide (j = i)) as [->|N].
    + destruct (decide (i < length (infos s))%nat) as [Hi|Hi].
      * rewrite list_lookup_insert_eq by done. by intros [= <-].
      * rewrite list_insert_ge by lia. apply HS.
    + rewrite list_lookup_insert_ne by congruence. apply HS.
Qed.

(** ** Reading, writing, seeking *)
Lemma read_spec n s i f len :
  fs_wf s → file_get_info n s = Some (i, f) → 0 ≤ len → offset f + len < 2 ^ 32 →
  let k := Z.min len (flen f - offset f) in
  HalFileRead n len s =
  Done ((k, sub (content f) (Z.to_nat (offset f)) (Z.to_nat k)),
        put_info i (mk_info (file_name f) (fd f) (content f) (flen f) (offset f + k)) s).
Proof.
  intros W G Hl Hb k. destruct (get_info_spec _ _ _ _ W G) as (L & En & Ef & O).
  pose proof (ow_cap _ _ O). pose proof (ow_off _ _ O). pose proof (ow_len _ _ O).
  pose proof (cap_range (file_name f)).
  unfold HalFileRead. rewrite G. rewrite (u32_small (offset f + len)) by lia.
  assert (Ek : (if flen f <? offset f + len then u32 (flen f - offset f) else len) = k).
  { unfold k. destruct (Z.ltb_spec (flen f) (offset f + len)); [rewrite u32_small by lia|]; lia. }
  rewrite Ek. destruct (Z.eqb_spec k 0) as [K0|K0]; cbn [negb].
  - rewrite K0, Z.add_0_r. do 2 f_equal. unfold put_info. rewrite list_insert_id; [by destruct s|].
    rewrite L. by destruct f.
  - rewrite (proj2 (Z.ltb_ge _ _)) by lia. by rewrite (u32_small (offset f + k)) by lia.
Qed.

Definition written (f : file_info) (bs : list Z) : file_info :=
  let off := offset f + Z.of_nat (length bs) in
  mk_info (file_name f) (fd f) (write_at (content f) (Z.to_nat (offset f)) bs)
    (Z.max (flen f) off) off.

Lemma write_spec n s i f buf len :
  fs_wf s → file_get_info n s = Some (i, f) → file_long_file_fg s = long_name (file_name f) →
  0 ≤ len ≤ Z.of_nat (length buf) → offset f + len < 2 ^ 32 →
  let k := Z.min len (cap (file_name f) - offset f) in
  HalFileWrite n buf len s = Done (k, put_info i (written f (take (Z.to_nat k) buf)) s).
Proof.
  intros W G Fg Hl Hb k. destruct (get_info_spec _ _ _ _ W G) as (L & En & Ef & O).
  pose proof (ow_cap _ _ O). pose proof (ow_off _ _ O). pose proof (ow_len _ _ O).
  pose proof (cap_range (file_name f)).
  unfold HalFileWrite. rewrite G, Fg. fold (cap (file_name f)).
  rewrite (u32_small (offset f + len)) by lia.
  assert (Ek : (if cap (file_name f) <? offset f + len then u32 (cap (file_name f) - offset f) else len) = k).
  { unfold k. destruct (Z.ltb_spec (cap (file_name f)) (offset f + len)); [rewrite u32_small by lia|]; lia. }
  rewrite Ek. assert (Hk : length (take (Z.to_nat k) buf) = Z.to_nat k) by (rewrite length_take; lia).
  destruct (Z.eqb_spec k 0) as [K0|K0]; cbn [negb].
  - rewrite K0. cbn [Z.to_nat]. rewrite take_0. do 2 f_equal. unfold put_info. rewrite list_insert_id; [by destruct s|].
    rewrite L. unfold written, write_at. cbn [length]. rewrite Z.add_0_r, Nat.add_0_r, Z.max_l by lia.
    rewrite app_nil_l, take_drop. by destruct f.
  - rewrite (proj2 (Z.ltb_ge _ _)) by lia. unfold copy_to, bind. rewrite Hk.
    rewrite (proj2 (Z.leb_le _ _)) by lia. unfold ret, modify. do 2 f_equal.
    unfold written. rewrite Hk, Z2Nat.id, u32_small by lia. f_equal. f_equal.
    destruct (Z.ltb_spec (flen f) (offset f + k)); lia.
Qed.

Lemma written_wf i f bs : open_wf i f → all_bytes bs →
  offset f + Z.of_nat (length bs) ≤ cap (file_name f) → open_wf i (written f bs).
Proof.
  intros O Hb Hl. pose proof (ow_cap _ _ O). pose proof (ow_off _ _ O). pose proof (ow_len _ _ O).
  split; simpl; [apply O| |lia|lia| |apply O].
  - rewrite length_write_at by lia. done.
  - unfold write_at. pose proof (ow_bytes _ _ O).
    repeat (apply all_bytes_app; split); [by apply Forall_take|done|by apply Forall_drop].
Qed.

(** ** Opening and closing *)
Hypothesis garbage_byte : ∀ n, byte (garbage n).

Lemma fresh_block n : 0 ≤ n → Z.of_nat (length (map garbage (seq 0 (Z.to_nat n)))) = n ∧
  all_bytes (map garbage (seq 0 (Z.to_nat n))).
Proof.
  intros Hn. rewrite length_map, length_seq. split; [lia|].
  apply Forall_forall. intros b (i & -> & _)%list_elem_of_fmap. apply garbage_byte.
Qed.

Lemma stored_le s path : fs_wf s → env_name_ok path →
  Z.of_nat (length (stored (env s) path)) ≤ cap path.
Proof.
  intros W Hp. unfold stored. pose proof (cap_range path).
  destruct (env_view (env s) path) as [v|] eqn:V; [|simpl; lia].
  destruct (Z.eqb_spec (default 0 (head v)) MAGIC_CHAR) as [M0|]; [|simpl; lia].
  pose proof (fw_store _ W _ _ Hp V M0). destruct (decoded v) as [o [|]]; simpl in *; lia.
Qed.

Lemma file_load_spec path c0 s :
  fs_wf s → env_name_ok path → Z.of_nat (length c0) = cap path → all_bytes c0 →
  ∃ c, file_load path c0 s = Done ((c, Z.of_nat (length (stored (env s) path))), s) ∧
    length c = length c0 ∧ all_bytes c ∧
    take (length (stored (env s) path)) c = stored (env s) path.
Proof.
  intros W Hp HL HB. unfold file_load, stored.
  rewrite env_get_ok by (done || apply W).
  destruct (env_view (env s) path) as [v|] eqn:V; [|by exists c0].
  destruct (Z.eqb_spec (default 0 (head v)) MAGIC_CHAR) as [M0|]; cbn [negb]; [|by exists c0].
  pose proof (fw_store _ W _ _ Hp V M0) as Hc.
  destruct (env_view_ok _ _ _ (fw_env _ W) Hp V) as [_ Bv].
  assert (Bd : all_bytes (decoded v).1).
  { unfold decoded. eapply decode_bytes; [done|]. destruct v as [|b v]; [constructor|].
    apply Forall_cons in Bv as [_ Bv]. simpl. clear -Bv.
    induction Bv as [|x l Hx Hl IH]; simpl; [constructor|]. destruct (x =? 0); [constructor|by constructor]. }
  unfold file_decode. fold (decoded v). destruct (decoded v) as [o ok]. simpl in Hc, Bd.
  unfold copy_to, bind. rewrite (proj2 (Z.leb_le _ _)) by lia. unfold ret.
  exists (write_at c0 0 o). split; [by destruct ok|]. split_and!.
  - by rewrite length_write_at by lia.
  - unfold write_at. rewrite take_0, app_nil_l. apply all_bytes_app. split; [done|]. by apply Forall_drop.
  - destruct ok; [|done]. rewrite <-sub_take. apply sub_write_same. lia.
Qed.

Lemma first_free_spec l : match first_free l with
  | Some i => ∃ f, l !! i = Some f ∧ fd f = INVALID_FD
  | None => ∀ i f, l !! i = Some f → fd f ≠ INVALID_FD end.
Proof.
  induction l as [|g l IH]; simpl; [done|].
  destruct (Z.eqb_spec (fd g) INVALID_FD) as [E1|E1]; [by exists g|].
  destruct (first_free l) as [i|]; simpl; [done|].
  intros [|i] f; simpl; [by intros [= <-]|apply IH].
Qed.

(** What an opened descriptor is. *)
Definition opened (s s' : fs) (path : list Z) (o : oflag) (n : Z) (i : nat) (f : file_info) : Prop :=
  file_get_info n s' = Some (i, f) ∧ file_name f = path ∧
  file_long_file_fg s' = long_name path ∧ env s' = env s ∧
  (∀ m, m ≠ n → file_get_info m s' = file_get_info m s) ∧
  let data := if O_TRUNC_FS o then [] else stored (env s) path in
  flen f = Z.of_nat (length data) ∧ take (length data) (content f) = data ∧
  offset f = if O_APPEND_FS o then flen f else 0.

Lemma fs_wf_dev s b n : fs_wf s → fs_wf (mk_fs (infos s) b (env s) n).
Proof. intros []. by split. Qed.

Lemma get_info_other i f s m : m ≠ Z.of_nat i + 1 →
  file_get_info m (put_info i f s) = file_get_info m s.
Proof.
  intros N. unfold file_get_info, put_info, set_infos. cbn [infos].
  destruct ((m <=? 0) || (Z.of_nat MAX_FILE_CNT <? m)) eqn:B; [done|]. zb.
  rewrite list_lookup_insert_ne by lia. done.
Qed.

Lemma open_spec path o s : fs_wf s → env_name_ok path →
  ∃ rc s', HalFileOpen path o s = Done (rc, s') ∧ fs_wf s' ∧ env s' = env s ∧
    ((rc = FILE_ERR_GENERAL ∧ infos s' = infos s) ∨ ∃ i f, opened s s' path o rc i f) ∧
    (is_Some (first_free (infos s)) → (strlen path ≤ MAX_FILE_NAME_LEN)%nat →
     O_CREAT_FS o || file_exist path s = true → O_EXCL_FS o && file_exist path s = false →
     (∀ n, alloc_ok n = true) → ∃ i f, opened s s' path o rc i f).
Proof.
  intros W Hp. unfold HalFileOpen. pose proof (first_free_spec (infos s)) as FF.
  destruct (first_free (infos s)) as [i|].
  2: { eexists _, _. split; [done|]. split_and!; [done|done|by left|]. intros []; congruence. }
  destruct FF as (f0 & Lk & _). pose proof (lookup_lt_Some _ _ _ Lk) as Hi.
  destruct (Nat.ltb_spec MAX_FILE_NAME_LEN (strlen path)).
  { eexists _, _. split; [done|]. split_and!; [done|done|by left|]. intros; lia. }
  destruct (negb (O_CREAT_FS o) && negb (file_exist path s)) eqn:B1.
  { eexists _, _. split; [done|]. split_and!; [done|done|by left|]. intros _ _ B.
    rewrite <-negb_orb, B in B1. done. }
  destruct (O_EXCL_FS o && file_exist path s) eqn:B2.
  { eexists _, _. split; [done|]. split_and!; [done|done|by left|]. done. }
  unfold malloc at 1, bind at 1. cbn [set_long nalloc infos env file_long_file_fg].
  destruct (alloc_ok (nalloc s)) eqn:A1.
  2: { eexists _, _. split; [done|]. split_and!; [by apply fs_wf_dev|done|by left|].
       intros _ _ _ _ AA. by rewrite AA in A1. }
  unfold malloc at 1, bind at 1. cbn [nalloc infos env file_long_file_fg].
  destruct (alloc_ok (S (nalloc s))) eqn:A2.
  2: { eexists _, _. split; [done|]. split_and!; [by apply fs_wf_dev|done|by left|].
       intros _ _ _ _ AA. by rewrite AA in A2. }
  fold (cap path). set (s1 := mk_fs (infos s) (long_name path) (env s) (S (S (nalloc s)))).
  pose proof (cap_range path). destruct (fresh_block (cap path) ltac:(lia)) as [Lb Bb].
  set (c0 := map garbage (seq 0 (Z.to_nat (cap path)))) in *.
  assert (W1 : fs_wf s1) by by apply fs_wf_dev.
  set (data := if O_TRUNC_FS o then [] else stored (env s) path).
  assert (HLd : Z.of_nat (length data) ≤ cap path).
  { unfold data. destruct (O_TRUNC_FS o); [simpl; lia|]. by apply (stored_le s). }
  assert (∃ c, (if O_TRUNC_FS o then ret (c0, 0) else file_load path c0) s1 =
              Done ((c, Z.of_nat (length data)), s1) ∧ length c = length c0 ∧ all_bytes c ∧
              take (length data) c = data) as (c & R & Lc & Bc & Tc).
  { unfold data. destruct (O_TRUNC_FS o); [by exists c0|]. by apply (file_load_spec path c0 s1). }
  rewrite (bind_done _ _ _ _ _ R). cbv iota beta. unfold bind, modify, ret.
  set (f := mk_info path (Z.of_nat i + 1) c (Z.of_nat (length data))
              (if O_APPEND_FS o then Z.of_nat (length data) else 0)).
  assert (Of : open_wf i f).
  { split; simpl; [done|lia|destruct (O_APPEND_FS o); lia|lia|done|done]. }
  assert (Op : opened s (put_info i f s1) path o (Z.of_nat i + 1) i f).
  { split_and!; try done; [apply get_info_put; [done|apply W|done]|]. intros m Nm. by rewrite get_info_other. }
  eexists _, _. split; [done|]. split_and!; [apply fs_wf_put; [done|by right]|done|by eauto|by eauto].
Qed.

(** Closing stores the content, if the store and the allocator let it. *)
Lemma encoded_cstr data : cstr (MAGIC_CHAR :: file_encode data ++ [0]) = MAGIC_CHAR :: file_encode data.
Proof. apply (cstr_app (MAGIC_CHAR :: file_encode data) []). constructor; [done|apply encode_no_zero]. Qed.

Lemma stored_encoded e path data : env_view e path = Some (MAGIC_CHAR :: file_encode data) →
  stored e path = data.
Proof.
  intros V. unfold stored, decoded. rewrite V. simpl tail. simpl head. simpl default. rewrite Z.eqb_refl.
  rewrite cstr_no_zero by apply encode_no_zero. unfold file_encode. by rewrite decode_encode.
Qed.

Lemma close_spec n s i f : fs_wf s → file_get_info n s = Some (i, f) →
  ∃ s', HalFileClose n s = Done (0, s') ∧ fs_wf s' ∧ file_get_info n s' = None ∧
    (∀ m, m ≠ n → file_get_info m s' = file_get_info m s) ∧
    (∀ k, env_name_ok k → k ≠ file_name f → env_view (env s') k = env_view (env s) k) ∧
    file_long_file_fg s' = file_long_file_fg s ∧ is_Some (first_free (infos s')) ∧
    (alloc_ok (nalloc s) = true →
     (∃ e, env_set (file_name f) (Some (MAGIC_CHAR :: file_encode (take (Z.to_nat (flen f)) (content f))))
             (env s) = Done (true, e)) →
     is_Some (env_view (env s') (file_name f)) ∧
     stored (env s') (file_name f) = take (Z.to_nat (flen f)) (content f)).
Proof.
  intros W G. destruct (get_info_spec _ _ _ _ W G) as (L & En & Ef & O).
  pose proof (lookup_lt_Some _ _ _ L) as Hi.
  set (data := take (Z.to_nat (flen f)) (content f)).
  assert (Bd : all_bytes data) by (apply Forall_take, O).
  assert (HLd : Z.of_nat (length data) ≤ cap (file_name f)).
  { unfold data. rewrite length_take. pose proof (ow_len _ _ O). pose proof (ow_off _ _ O). lia. }
  unfold HalFileClose. rewrite G. fold data.
  set (f' := mk_info (file_name f) INVALID_FD (content f) (flen f) (offset f)).
  assert (Key : ∀ s1, fs_wf s1 → infos s1 = infos s → file_long_file_fg s1 = file_long_file_fg s →
    let s' := put_info i f' s1 in
    fs_wf s' ∧ file_get_info n s' = None ∧ (∀ m, m ≠ n → file_get_info m s' = file_get_info m s) ∧
    is_Some (first_free (infos s'))).
  { intros s1 W1 I1 _. split_and!.
    - apply fs_wf_put; [done|by left].
    - unfold file_get_info. destruct (_ || _); [done|]. unfold put_info, set_infos. cbn [infos].
      replace (Z.to_nat (n - 1)) with i by lia. rewrite list_lookup_insert_eq by (rewrite I1; done).
      change (fd f') with INVALID_FD. rewrite (proj2 (Z.eqb_neq _ _)); [done|]. unfold INVALID_FD. lia.
    - intros m Nm. rewrite get_info_other by lia. unfold file_get_info. by rewrite I1.
    - unfold put_info, set_infos. cbn [infos]. rewrite I1. pose proof (first_free_spec (<[i:=f']> (infos s))) as FF.
      destruct (first_free _); [by eauto|]. exfalso. apply (FF i f'); [|done]. by apply list_lookup_insert_eq. }
  unfold file_save at 1, malloc, bind. destruct (alloc_ok (nalloc s)) eqn:A.
  - cbn [env]. rewrite encoded_cstr.
    destruct (env_put_ok (env s) (file_name f) (MAGIC_CHAR :: file_encode data))
      as (ok & e & R & He & Hv & Ho).
    { apply W. } { apply O. } { constructor; [done|apply encode_no_zero]. }
    { constructor; [unfold byte, MAGIC_CHAR; lia|by apply encode_bytes]. } { done. }
    rewrite R. unfold modify, ret.
    set (s1 := set_env e _). assert (W1 : fs_wf s1).
    { destruct W as [WL WS WE WT]. split; [done|done|done|]. intros k v Hk V Hm.
      destruct (decide (k = file_name f)) as [->|Nk].
      - cbn [env set_env s1] in V. destruct ok.
        + rewrite Hv in V. apply (inj Some) in V as <-. unfold decoded. simpl tail.
          rewrite cstr_no_zero by apply encode_no_zero. unfold file_encode. by rewrite decode_encode.
        + destruct Hv as [Hv|Hv]; rewrite Hv in V; [done|]. by apply WT.
      - cbn [env set_env s1] in V. rewrite Ho in V by done. by apply WT. }
    destruct (Key s1 W1 eq_refl eq_refl) as (K1 & K2 & K3 & K4).
    eexists. split; [done|]. split_and!; try done.
    intros _ [e' He']. injection He' as -> _. split; [exists (MAGIC_CHAR :: file_encode data); exact Hv|].
    by apply stored_encoded.
  - unfold ret, modify. set (s1 := mk_fs _ _ _ _). assert (W1 : fs_wf s1) by by apply fs_wf_dev.
    destruct (Key s1 W1 eq_refl eq_refl) as (K1 & K2 & K3 & K4).
    eexists. split; [done|]. by split_and!.
Qed.

Lemma delete_spec path s : fs_wf s → env_name_ok path →
  ∃ rc s', HalFileDelete path s = Done (rc, s') ∧ fs_wf s' ∧ infos s' = infos s ∧
    (∀ k, env_name_ok k → k ≠ path → env_view (env s') k = env_view (env s) k) ∧
    (rc = 0 → env_view (env s') path = None) ∧
    (rc = if file_exist path s then 0 else FILE_ERR_GENERAL).
Proof.
  intros W Hp. unfold HalFileDelete. destruct (file_exist path s) eqn:Ex; cbn [negb].
  2: { eexists _, _. split; [done|]. split_and!; try done. }
  unfold file_exist in Ex. rewrite env_get_ok in Ex by (done || apply W).
  destruct (env_view (env s) path) eqn:V; [|done].
  destruct (env_del_ok (env s) path (fw_env _ W) Hp) as (e & R & He & Hn & Ho); [rewrite V; eauto|].
  unfold bind, file_save. rewrite R. unfold ret. eexists _, _. split; [done|]. split_and!; try done.
  destruct W as [WL WS WE WT]. split; [done|done|done|]. intros k v Hk Hv Hm.
  destruct (decide (k = path)) as [->|Nk]; cbn [env set_env] in Hv; [congruence|].
  rewrite Ho in Hv by done. by apply WT.
Qed.

Lemma seek_spec n s i f off w : fs_wf s → file_get_info n s = Some (i, f) →
  let base := match w with SEEK_SET_FS => Some 0 | SEEK_CUR_FS => Some (offset f)
                         | SEEK_END_FS => Some (flen f) | SEEK_BAD => None end in
  match base with
  | Some p =>
      if (0 <=? p + off) && (p + off <=? flen f) then
        HalFileSeek n off w s =
        Done (p + off, put_info i (mk_info (file_name f) (fd f) (content f) (flen f) (p + off)) s)
      else HalFileSeek n off w s = Done (FILE_ERR_GENERAL, s)
  | None => HalFileSeek n off w s = Done (FILE_ERR_GENERAL, s)
  end.
Proof.
  intros W G base. unfold HalFileSeek. rewrite G. fold base. destruct base as [p|]; [|done].
  destruct (Z.leb_spec 0 (p + off)), (Z.leb_spec (p + off) (flen f)), (Z.ltb_spec (p + off) 0),
    (Z.ltb_spec (flen f) (p + off)); try done; lia.
Qed.

Lemma open_wf_move i f p : open_wf i f → 0 ≤ p ≤ flen f →
  open_wf i (mk_info (file_name f) (fd f) (content f) (flen f) p).
Proof. intros [] Hp. by split. Qed.

(** The file escape is a lossless code: decoding the encoding of any bytes
    gives them back, the encoding contains no zero byte (so it is stored whole as
    a C string), is made of bytes and at most doubles the length. *)
Theorem file_codec_roundtrip l : all_bytes l →
  file_decode (file_encode l) = (l, Z.of_nat (length l)) ∧
  no_zero (file_encode l) ∧ all_bytes (file_encode l) ∧
  (length (file_encode l) ≤ 2 * length l)%nat.
Proof.
  intros B. unfold file_decode, file_encode. rewrite decode_encode.
  split_and!; [done|apply encode_no_zero|by apply encode_bytes|]. clear B.
  induction l as [|b l IH]; simpl; [lia|].
  destruct (b =? ESC_CHAR1); [simpl; lia|]. destruct (b =? ESC_CHAR2); simpl; lia.
Qed.

(** C9: Whatever fits is read back: with memory available and a store that
    accepts the encoded content, opening a name for rewriting, writing data that
    fits its buffer, closing, reopening and reading returns exactly the data;
    every other name of the store keeps its content. *)
Theorem hal_file_roundtrip s path data :
  fs_wf s → env_name_ok path → (strlen path ≤ MAX_FILE_NAME_LEN)%nat →
  is_Some (first_free (infos s)) → (∀ n, alloc_ok n = true) →
  all_bytes data → Z.of_nat (length data) ≤ cap path →
  (∃ e, env_set path (Some (MAGIC_CHAR :: file_encode data)) (env s) = Done (true, e)) →
  ∃ n s1 s2 s3 m s4 s5,
    HalFileOpen path (mk_oflag true false true false) s = Done (n, s1) ∧
    HalFileWrite n data (Z.of_nat (length data)) s1 = Done (Z.of_nat (length data), s2) ∧
    HalFileClose n s2 = Done (0, s3) ∧
    HalFileOpen path O_RDONLY_FS s3 = Done (m, s4) ∧
    HalFileRead m (cap path) s4 = Done ((Z.of_nat (length data), data), s5) ∧
    fs_wf s5 ∧ (∀ k, env_name_ok k → k ≠ path → env_view (env s5) k = env_view (env s) k).
Proof.
  intros W Hp Hl Ff Al Bd Hc Hset. pose proof (cap_range path).
  destruct (open_spec path (mk_oflag true false true false) s W Hp) as (n & s1 & R1 & W1 & E1 & _ & Op1).
  destruct (Op1 Ff Hl eq_refl eq_refl Al) as (i & f & G1 & N1 & Fg1 & _ & _ & L1 & _ & O1). simpl in L1, O1.
  destruct (get_info_spec _ _ _ _ W1 G1) as (Lk1 & En1 & Ef1 & Ow1).
  pose proof (write_spec n s1 i f data (Z.of_nat (length data)) W1 G1) as R2. cbv zeta in R2.
  rewrite N1, O1, Z.sub_0_r, Z.min_l in R2 by lia. specialize (R2 Fg1 ltac:(lia) ltac:(lia)).
  rewrite Nat2Z.id, firstn_all in R2. set (f2 := written f data) in *.
  assert (Ow2 : open_wf i f2) by (apply written_wf; [done|done|rewrite O1, N1; lia]).
  set (s2 := put_info i f2 s1) in *.
  assert (W2 : fs_wf s2) by (apply fs_wf_put; [done|by right]).
  assert (G2 : file_get_info n s2 = Some (i, f2)).
  { rewrite En1. apply get_info_put; [eapply lookup_lt_Some; eauto|apply W1|]. apply Ow2. }
  assert (D2 : take (Z.to_nat (flen f2)) (content f2) = data).
  { unfold f2, written. cbn [flen content]. rewrite O1, L1, Z.add_0_l, Z.max_r by lia. rewrite Nat2Z.id.
    rewrite <-sub_take. apply (sub_write_same _ 0). lia. }
  destruct (close_spec n s2 i f2 W2 G2) as (s3 & R3 & W3 & _ & _ & Fr3 & _ & Ff3 & St3).
  rewrite D2 in St3. change (file_name f2) with (file_name f) in St3, Fr3. rewrite N1 in St3, Fr3.
  change (env s2) with (env s1) in St3, Fr3. rewrite E1 in St3, Fr3.
  destruct (St3 (Al _) Hset) as [Ex3 Sd3].
  assert (Fe3 : file_exist path s3 = true).
  { unfold file_exist. rewrite env_get_ok by (done || apply W3). by destruct Ex3 as [v ->]. }
  destruct (open_spec path O_RDONLY_FS s3 W3 Hp) as (m & s4 & R4 & W4 & E4 & _ & Op4).
  destruct (Op4 Ff3 Hl) as (j & g & G4 & N4 & _ & _ & _ & L4 & T4 & O4); [by rewrite Fe3|done|done|].
  cbn [O_TRUNC_FS O_APPEND_FS O_RDONLY_FS] in L4, T4, O4. rewrite Sd3 in L4, T4.
  pose proof (read_spec m s4 j g (cap path) W4 G4 ltac:(lia)) as R5. cbv zeta in R5.
  rewrite O4, Z.sub_0_r, L4, Z.min_r in R5 by lia. specialize (R5 ltac:(lia)).
  rewrite Nat2Z.id in R5. cbn [Z.to_nat] in R5. rewrite sub_take, T4 in R5.
  eexists n, s1, s2, s3, m, s4, _. split_and!; [exact R1|exact R2|exact R3|exact R4|exact R5| |].
  - destruct (get_info_spec _ _ _ _ W4 G4) as (_ & _ & _ & Ow4). apply fs_wf_put; [done|]. right.
    rewrite <-L4. apply open_wf_move; [done|]. pose proof (ow_off _ _ Ow4). lia.
  - intros k Hk Nk. change (env (put_info _ _ s4)) with (env s4). rewrite E4. by apply Fr3.
Qed.

(** No operation faults or breaks the table: on a well-formed file system
    opening, closing, deleting and seeking always return and keep it well-formed;
    reading returns exactly the bytes between the offset and the end, at most as
    many as asked for; writing stores a prefix of the buffer that fits, provided
    the global buffer-size flag still is the one of the file, and returns its
    length; a bad descriptor is refused by all of them. *)
Theorem hal_file_ops_ok s n path o len off w buf :
  fs_wf s → env_name_ok path → all_bytes buf →
  0 ≤ len ≤ Z.of_nat (length buf) → len < 2 ^ 31 →
  (∃ rc s', HalFileOpen path o s = Done (rc, s') ∧ fs_wf s') ∧
  (∃ rc s', HalFileDelete path s = Done (rc, s') ∧ fs_wf s') ∧
  match file_get_info n s with
  | None => HalFileClose n s = Done (FILE_ERR_GENERAL, s) ∧
            HalFileRead n len s = Done ((FILE_ERR_GENERAL, []), s) ∧
            HalFileWrite n buf len s = Done (FILE_ERR_GENERAL, s) ∧
            HalFileSeek n off w s = Done (FILE_ERR_GENERAL, s)
  | Some (i, f) =>
      (∃ s', HalFileClose n s = Done (0, s') ∧ fs_wf s' ∧ file_get_info n s' = None) ∧
      (∃ rc s', HalFileSeek n off w s = Done (rc, s') ∧ fs_wf s') ∧
      (let k := Z.min len (flen f - offset f) in
       ∃ s', HalFileRead n len s =
               Done ((k, sub (content f) (Z.to_nat (offset f)) (Z.to_nat k)), s') ∧ fs_wf s') ∧
      (file_long_file_fg s = long_name (file_name f) →
       let k := Z.min len (cap (file_name f) - offset f) in
       HalFileWrite n buf len s = Done (k, put_info i (written f (take (Z.to_nat k) buf)) s) ∧
       fs_wf (put_info i (written f (take (Z.to_nat k) buf)) s))
  end.
Proof.
  intros W Hp Hb Hl Hl2. split_and!.
  - destruct (open_spec path o s W Hp) as (rc & s' & R & W' & _). eauto.
  - destruct (delete_spec path s W Hp) as (rc & s' & R & W' & _). eauto.
  - destruct (file_get_info n s) as [[i f]|] eqn:G.
    2: { unfold HalFileClose, HalFileRead, HalFileWrite, HalFileSeek. by rewrite G. }
    destruct (get_info_spec _ _ _ _ W G) as (Lk & En & Ef & Ow).
    pose proof (ow_off _ _ Ow). pose proof (ow_len _ _ Ow). pose proof (cap_range (file_name f)).
    split_and!.
    + destruct (close_spec n s i f W G) as (s' & R & W' & N & _). eauto.
    + pose proof (seek_spec n s i f off w W G) as Sk.
      cbv zeta in Sk. destruct w; cbv iota in Sk; try (eexists _, _; split; [exact Sk|done]);
        (destruct ((0 <=? _) && _) eqn:B in Sk; [zb|eexists _, _; split; [exact Sk|done]]);
        (eexists _, _; split; [exact Sk|]; apply fs_wf_put; [done|]; right; apply open_wf_move; [done|lia]).
    + eexists. split; [apply (read_spec n s i f len W G); lia|].
      apply fs_wf_put; [done|]. right. apply open_wf_move; [done|lia].
    + intros Fg k. split; [apply (write_spec n s i f buf len W G Fg); lia|].
      apply fs_wf_put; [done|]. right. apply written_wf; [done|by apply Forall_take|].
      rewrite length_take. unfold k. lia.
Qed.

(** The buffer-size flag is global, not per file: when a file with the small
    buffer is open and a file with a long name was opened after it, a write that
    ends beyond the small buffer is not cut and overruns the heap block. *)
Theorem hal_write_overruns s n i f buf len :
  fs_wf s → file_get_info n s = Some (i, f) →
  long_name (file_name f) = false → file_long_file_fg s = true →
  0 ≤ len ≤ Z.of_nat (length buf) → 1024 < offset f + len ≤ 3072 →
  HalFileWrite n buf len s = Trap Fault.
Proof.
  intros W G Ln Fg Hl Ho. destruct (get_info_spec _ _ _ _ W G) as (_ & _ & _ & Ow).
  pose proof (ow_cap _ _ Ow) as C. unfold cap in C. rewrite Ln in C. unfold MAX_FILE_LENGTH in C.
  pose proof (ow_off _ _ Ow) as Oo. pose proof (ow_len _ _ Ow) as Ol. unfold cap in Ol. rewrite Ln in Ol.
  unfold MAX_FILE_LENGTH in Ol.
  unfold HalFileWrite. rewrite G, Fg. unfold MAX_FILE_TIMER_LENGTH. rewrite u32_small by lia.
  rewrite (proj2 (Z.ltb_ge 3072 _)) by lia. rewrite (proj2 (Z.eqb_neq len 0)) by lia. cbn [negb].
  rewrite (proj2 (Z.ltb_ge _ _)) by lia. unfold bind, copy_to.
  rewrite (proj2 (Z.leb_gt _ _)); [done|]. rewrite length_take. lia.
Qed.

(** HalFileClose reports success when the content was not stored: if the
    encoding buffer cannot be allocated it returns 0, frees the descriptor and
    leaves the old content in the store. *)
Theorem hal_close_hides_failure s n i f :
  fs_wf s → file_get_info n s = Some (i, f) → alloc_ok (nalloc s) = false →
  ∃ s', HalFileClose n s = Done (0, s') ∧ file_get_info n s' = None ∧ env s' = env s.
Proof.
  intros W G A. destruct (close_spec n s i f W G) as (s' & R & _ & N & _).
  exists s'. split_and!; [done|done|]. revert R. unfold HalFileClose. rewrite G.
  unfold file_save, malloc, bind. rewrite A. unfold ret, modify. by intros [= <-].
Qed.

End HalFile.

(** ** Witnesses, on the firmware's own store *)
#[local] Existing Instance EfEnv.ef_store.
#[local] Opaque EfEnv.demo.
Definition all_ok : nat → bool := λ _, true.
Definition zeros : nat → Z := λ _, 0.
Lemma zeros_byte n : byte (zeros n).
Proof. unfold byte, zeros. lia. Qed.

Definition demo_fs (l : list (nat * file_info)) (long : bool) : fs (E := EfEnv.st) :=
  mk_fs (foldr (λ p acc, <[p.1 := p.2]> acc) (replicate MAX_FILE_CNT closed) l) long EfEnv.demo 0.

Lemma demo_store k v : EfEnv.key_ok k → EfEnv.ef_get_env k EfEnv.demo = Some v →
  default 0 (head v) = MAGIC_CHAR → False.
Proof.
  intros Kk. destruct EfEnv.demo_wf as (W & I & _). rewrite (EfEnv.ef_get_env_spec _ _ _ W I Kk).
  simpl. case_bool_decide; [|done]. intros [= <-]. done.
Qed.

Lemma demo_fs_wf l long : (∀ i f, (i, f) ∈ l → open_wf (E := EfEnv.st) i f) → fs_wf (demo_fs l long).
Proof.
  intros Hl. split.
  - unfold demo_fs. cbn [infos]. clear Hl. induction l as [|p l IH]; [done|]. cbn [foldr].
    by rewrite length_insert.
  - unfold demo_fs. cbn [infos]. induction l as [|[j g] l IH]; intros i f; cbn [foldr fst snd].
    + intros [-> _]%lookup_replicate. by left.
    + destruct (decide (i = j)) as [->|N].
      * intros L. pose proof (lookup_lt_Some _ _ _ L) as Hj. rewrite length_insert in Hj.
        rewrite list_lookup_insert_eq in L by done. injection L as <-. right. apply Hl. rewrite elem_of_cons. by left.
      * rewrite list_lookup_insert_ne by congruence. apply IH. intros i' f' H'. apply Hl. rewrite elem_of_cons. by right.
  - exact EfEnv.demo_inv.
  - intros k v Kk V Hm. exfalso. exact (demo_store k v Kk V Hm).
Qed.

Definition path_a : list Z := str "a.txt"%string.
Definition path_long : list Z := str "timer.cfg"%string.
Definition slot_a : file_info := mk_info path_a 1 (replicate 1024 0) 2 1.
Definition fs_a : fs := demo_fs [(0%nat, slot_a)] false.

Lemma path_a_ok : EfEnv.key_ok path_a.
Proof. apply EfEnv.key_ok_dec. by vm_compute. Qed.
Lemma slot_a_wf : open_wf (E := EfEnv.st) 0 slot_a.
Proof.
  split; simpl; try done; [|apply path_a_ok].
  apply (Forall_replicate byte 1024 0). unfold byte. lia.
Qed.
Lemma fs_a_wf long : fs_wf (demo_fs [(0%nat, slot_a)] long).
Proof.
  apply demo_fs_wf. intros i f Hf. apply list_elem_of_singleton in Hf. injection Hf as -> ->. apply slot_a_wf.
Qed.

Lemma file_codec_roundtrip_witness :
  file_decode (file_encode [0; 219; 65]) = ([0; 219; 65], 3) ∧ file_encode [0; 219; 65] = [219; 220; 219; 221; 65].
Proof.
  destruct (file_codec_roundtrip [0; 219; 65]) as [D _]; [by apply (bool_decide_unpack _)|].
  split; [exact D|reflexivity].
Defined.

Definition stored_ok (k v : list Z) : bool :=
  match EfEnv.store_set k (Some v) EfEnv.demo with Done (true, _) => true | _ => false end.
Lemma stored_ok_spec k v : stored_ok k v = true → ∃ e, EfEnv.store_set k (Some v) EfEnv.demo = Done (true, e).
Proof. unfold stored_ok. destruct (EfEnv.store_set _ _ _) as [[[|] e]|]; try done. eauto. Qed.

Lemma hal_file_roundtrip_witness :
  ∃ n s1 s2 s3 m s4 s5,
    HalFileOpen all_ok zeros path_a (mk_oflag true false true false) (demo_fs [] false) = Done (n, s1) ∧
    HalFileWrite n [1; 0; 219] 3 s1 = Done (3, s2) ∧ HalFileClose all_ok zeros n s2 = Done (0, s3) ∧
    HalFileOpen all_ok zeros path_a O_RDONLY_FS s3 = Done (m, s4) ∧
    HalFileRead m 1024 s4 = Done ((3, [1; 0; 219]), s5).
Proof.
  destruct (hal_file_roundtrip all_ok zeros zeros_byte (demo_fs [] false) path_a [1; 0; 219])
    as (n & s1 & s2 & s3 & m & s4 & s5 & R1 & R2 & R3 & R4 & R5 & _).
  - apply demo_fs_wf. intros i f H. by apply not_elem_of_nil in H.
  - apply path_a_ok.
  - apply Nat.leb_le. by vm_compute.
  - by exists 0%nat.
  - done.
  - by apply (bool_decide_unpack _).
  - by vm_compute.
  - apply stored_ok_spec. by vm_compute.
  - exists n, s1, s2, s3, m, s4, s5.
    split; [exact R1|]. split; [exact R2|]. split; [exact R3|]. split; [exact R4|exact R5].
Defined.

Lemma hal_file_ops_ok_witness :
  ∃ s', HalFileRead 1 5 fs_a = Done ((1, [0]), s') ∧ fs_wf s'.
Proof.
  destruct (hal_file_ops_ok all_ok zeros zeros_byte fs_a 1 path_a O_CREAT 5 0 SEEK_SET_FS [1; 2; 3; 4; 5] (fs_a_wf false) path_a_ok)
    as (_ & _ & H); [by apply (bool_decide_unpack _)|simpl; lia|lia|].
  change (file_get_info 1 fs_a) with (Some (0%nat, slot_a)) in H. cbv iota beta in H.
  destruct H as (_ & _ & H & _). destruct H as (s' & R & W). exists s'. split; [exact R|exact W].
Defined.

Definition big : list Z := replicate (Z.to_nat 2000) 7.
Lemma hal_write_overruns_witness :
  HalFileWrite 1 big 2000 (demo_fs [(0%nat, slot_a)] true) = Trap Fault ∧
  (let* n := HalFileOpen all_ok zeros path_a O_CREAT in
   let* _ := HalFileOpen all_ok zeros path_long O_CREAT in
   HalFileWrite n big 2000) (demo_fs [] false) = Trap Fault.
Proof.
  split; [|vm_compute; reflexivity].
  apply (hal_write_overruns (demo_fs [(0%nat, slot_a)] true) 1 0 slot_a big 2000 (fs_a_wf true)).
  - reflexivity.
  - by vm_compute.
  - reflexivity.
  - by vm_compute.
  - simpl. lia.
Defined.

Lemma hal_close_hides_failure_witness :
  ∃ s', HalFileClose (λ _, false) zeros 1 fs_a = Done (0, s') ∧ file_get_info 1 s' = None.
Proof.
  destruct (hal_close_hides_failure (λ _, false) zeros fs_a 1 0 slot_a (fs_a_wf false) eq_refl eq_refl)
    as (s' & R & N & _).
  exists s'. split; [exact R|exact N].
Defined.

End HalFile.
