(* ===== verification/Mailbox.v ===== *)
(** * Logical mailbox channels: middleware/driver/mailbox/mailbox_channel.c

    Eight logical channels share one physical channel between the two CPUs: one
    command is in flight at a time, and each acknowledgement starts the pending
    channel of highest priority (lowest number).

    Modelled: every function of the file, on the 32-bit header word with its bit
    fields.  The answer of the n-th [bk_mailbox_send] and what the callbacks do
    are parameters: a transmit callback may queue one more command on its own
    channel, a receive callback turns the command buffer into the answer.
    Callback invocations and messages handed to the hardware are traces. *)
From S2P Require Import Prelude.
Local Open Scope Z_scope.

Module Mailbox.

(** ** The header word *)
(** [phy_chnnl_hdr_t] *)
Definition hdr_cmd (w : Z) : Z := field w 0 8.
Definition hdr_state (w : Z) : Z := field w 8 4.
Definition hdr_ctrl (w : Z) : Z := field w 12 4.
Definition hdr_tx_seq (w : Z) : Z := field w 16 8.
Definition hdr_logical_chnl (w : Z) : Z := field w 24 8.
Definition set_hdr_state (v w : Z) : Z := set_field w 8 4 v.
Definition set_hdr_ctrl (v w : Z) : Z := set_field w 12 4 v.
Definition set_hdr_tx_seq (v w : Z) : Z := set_field w 16 8 v.
Definition set_hdr_logical_chnl (v w : Z) : Z := set_field w 24 8 v.

Definition MB_LOG_CHNL_NUM : nat := 8.
Definition CHNL_CTRL_ACK_BOX : Z := 1.
Definition CHNL_CTRL_SYNC_TX : Z := 2.
Definition CHNL_STATE_COM_FAIL : Z := 1.
Definition BK_ERR_MAILBOX_TIMEOUT : Z := -0x2b00 - 5.

Inductive box := MB_PHY_CMD_CHNL | MB_PHY_ACK_CHNL.

Record mailbox_data_t := mk_data { param0 : Z; param1 : Z; param2 : Z; param3 : Z }.
Definition set_param0 (w : Z) (d : mailbox_data_t) := mk_data w (param1 d) (param2 d) (param3 d).

(** [true] is CHNL_STATE_BUSY. *)
Record mb_phy_chnl_cb_t := mk_phy {
  phy_tx_state : bool; tx_seq : Z; tx_log_chnl_id : nat; rx_fault_cnt : Z; tx_fault_cnt : Z }.
Record mb_log_chnl_cb_t := mk_log {
  log_tx_state : bool; in_used : bool;
  rx_isr : bool; tx_isr : bool; tx_cmpl_isr : bool;
  isr_param : Z; chnnl_tx_buff : mailbox_data_t }.

Inductive call :=
| TxIsr (ch : nat) (param : Z)
| TxCmplIsr (ch : nat) (param : Z) (ack : mailbox_data_t)
| RxIsr (ch : nat) (param : Z) (cmd : mailbox_data_t).

Record mb := mk_mb {
  phy_chnl_cb : mb_phy_chnl_cb_t;
  log_chnl_cb : list mb_log_chnl_cb_t;
  mb_chnnl_init_ok : bool;
  nsend : nat;
  sent : list (box * mailbox_data_t);
  calls : list call }.

Definition set_phy p s := mk_mb p (log_chnl_cb s) (mb_chnnl_init_ok s) (nsend s) (sent s) (calls s).
Definition set_log l s := mk_mb (phy_chnl_cb s) l (mb_chnnl_init_ok s) (nsend s) (sent s) (calls s).
Definition set_init b s := mk_mb (phy_chnl_cb s) (log_chnl_cb s) b (nsend s) (sent s) (calls s).
Definition add_call c s := mk_mb (phy_chnl_cb s) (log_chnl_cb s) (mb_chnnl_init_ok s) (nsend s) (sent s) (calls s ++ [c]).

Definition phy_busy (b : bool) (p : mb_phy_chnl_cb_t) := mk_phy b (tx_seq p) (tx_log_chnl_id p) (rx_fault_cnt p) (tx_fault_cnt p).
Definition next_seq (ch : nat) (p : mb_phy_chnl_cb_t) := mk_phy (phy_tx_state p) (u8 (tx_seq p + 1)) ch (rx_fault_cnt p) (tx_fault_cnt p).
Definition rx_fault (p : mb_phy_chnl_cb_t) := mk_phy (phy_tx_state p) (tx_seq p) (tx_log_chnl_id p) (u32 (rx_fault_cnt p + 1)) (tx_fault_cnt p).
Definition tx_fault (p : mb_phy_chnl_cb_t) := mk_phy (phy_tx_state p) (tx_seq p) (tx_log_chnl_id p) (rx_fault_cnt p) (u32 (tx_fault_cnt p + 1)).
Definition log_busy (b : bool) (l : mb_log_chnl_cb_t) := mk_log b (in_used l) (rx_isr l) (tx_isr l) (tx_cmpl_isr l) (isr_param l) (chnnl_tx_buff l).
Definition log_buff (d : mailbox_data_t) (l : mb_log_chnl_cb_t) := mk_log (log_tx_state l) (in_used l) (rx_isr l) (tx_isr l) (tx_cmpl_isr l) (isr_param l) d.

Definition upd_phy (f : mb_phy_chnl_cb_t → mb_phy_chnl_cb_t) : M mb unit :=
  modify (λ s, set_phy (f (phy_chnl_cb s)) s).
(** Access to [log_chnl_cb[ch]]; an index out of range faults. *)
Definition get_log (ch : nat) : M mb mb_log_chnl_cb_t := λ s,
  match log_chnl_cb s !! ch with Some l => Done (l, s) | None => Trap Fault end.
Definition upd_log (ch : nat) (f : mb_log_chnl_cb_t → mb_log_chnl_cb_t) : M mb unit := λ s,
  match log_chnl_cb s !! ch with
  | Some l => Done (tt, set_log (<[ch := f l]> (log_chnl_cb s)) s)
  | None => Trap Fault
  end.

(** Reading any field after writing one. *)
Ltac hdr :=
  unfold hdr_cmd, hdr_state, hdr_ctrl, hdr_tx_seq, hdr_logical_chnl,
    set_hdr_state, set_hdr_ctrl, set_hdr_tx_seq, set_hdr_logical_chnl in *;
  repeat first [ rewrite field_set_same by lia | rewrite field_set_other by lia ].

Section Mailbox.
Context (send_ret : nat → Z).
Context (refill : nat → option mailbox_data_t).
Context (answer : nat → mailbox_data_t → mailbox_data_t).

Definition bk_mailbox_send (d : mailbox_data_t) (b : box) : M mb Z := λ s,
  let rc := send_ret (nsend s) in
  Done (rc, mk_mb (phy_chnl_cb s) (log_chnl_cb s) (mb_chnnl_init_ok s) (S (nsend s))
              (if rc =? BK_OK then sent s ++ [(b, d)] else sent s) (calls s)).

(** The checks of [mb_chnl_write] and the copy to the channel's buffer. *)
Definition mb_chnl_store (ch : nat) (cmd : mailbox_data_t) : M mb Z :=
  if (MB_LOG_CHNL_NUM <=? ch)%nat then ret BK_ERR_PARAM
  else
    let* l := get_log ch in
    if negb (in_used l) then ret BK_ERR_STATE
    else if log_tx_state l then ret BK_ERR_BUSY
    else upd_log ch (λ l, log_busy true (log_buff cmd l)) ;;; ret BK_OK.

(** The transmit callback: it may write to its channel; the physical channel is
    busy then, so that [mb_phy_chnl_start_tx] does nothing. *)
Definition call_tx_isr (ch : nat) : M mb unit :=
  let* l := get_log ch in
  modify (add_call (TxIsr ch (isr_param l))) ;;;
  match refill ch with
  | Some cmd => mb_chnl_store ch cmd ;;; ret tt
  | None => ret tt
  end.

Definition mb_phy_chnl_tx_cmd (ch : nat) : M mb Z :=
  if (MB_LOG_CHNL_NUM <=? ch)%nat then ret 1
  else
    upd_phy (next_seq ch) ;;;
    let* p := gets phy_chnl_cb in
    let* l := get_log ch in
    let w := set_hdr_state 0 (set_hdr_ctrl 0 (set_hdr_tx_seq (tx_seq p)
               (set_hdr_logical_chnl (Z.of_nat ch) (param0 (chnnl_tx_buff l))))) in
    let d := set_param0 w (chnnl_tx_buff l) in
    upd_log ch (log_buff d) ;;;
    let* ret_code := bk_mailbox_send d MB_PHY_CMD_CHNL in
    if negb (ret_code =? BK_OK) then upd_phy tx_fault ;;; ret 2
    else
      upd_log ch (log_busy false) ;;;
      (if tx_isr l then call_tx_isr ch else ret tt) ;;;
      ret 0.

Definition mb_phy_chnl_start_tx (ch : nat) : M mb unit :=
  let* p := gets phy_chnl_cb in
  if phy_tx_state p then ret tt
  else
    upd_phy (phy_busy true) ;;;
    let* ret_code := mb_phy_chnl_tx_cmd ch in
    if negb (ret_code =? 0) then upd_phy (phy_busy false) else ret tt.

(** The priority search: the first busy channel. *)
Fixpoint first_pending (l : list mb_log_chnl_cb_t) : option nat :=
  match l with
  | [] => None
  | c :: l' => if log_tx_state c then Some 0%nat else S <$> first_pending l'
  end.

Definition mb_phy_chnl_rx_ack_isr (ack : mailbox_data_t) : M mb unit :=
  let ch := Z.to_nat (hdr_logical_chnl (param0 ack)) in
  let* p := gets phy_chnl_cb in
  if negb (ch =? tx_log_chnl_id p)%nat || negb (hdr_tx_seq (param0 ack) =? tx_seq p)
  then upd_phy rx_fault
  else
    let* l := get_log ch in
    (if tx_cmpl_isr l then
       let w := set_hdr_ctrl 0 (set_hdr_tx_seq 0 (set_hdr_logical_chnl 0 (param0 ack))) in
       modify (add_call (TxCmplIsr ch (isr_param l) (set_param0 w ack)))
     else ret tt) ;;;
    let* ls := gets log_chnl_cb in
    match first_pending ls with
    | None => upd_phy (phy_busy false)
    | Some n =>
        let* ret_code := mb_phy_chnl_tx_cmd n in
        if negb (ret_code =? 0) then upd_phy (phy_busy false) else ret tt
    end.

Definition mb_phy_chnl_rx_cmd_isr (cmd : mailbox_data_t) : M mb unit :=
  let hdr := param0 cmd in
  let ch := Z.to_nat (hdr_logical_chnl hdr) in
  if (MB_LOG_CHNL_NUM <=? ch)%nat then upd_phy rx_fault
  else
    let* l := get_log ch in
    let* (cmd', hdr') :=
      (if rx_isr l then
         let w := set_hdr_state 0 (set_hdr_ctrl 0 (set_hdr_tx_seq 0 (set_hdr_logical_chnl 0 hdr))) in
         let c := set_param0 w cmd in
         modify (add_call (RxIsr ch (isr_param l) c)) ;;;
         ret (answer ch c, hdr)
       else ret (cmd, set_hdr_state (Z.lor (hdr_state hdr) CHNL_STATE_COM_FAIL) hdr)) in
    if negb (Z.land (hdr_ctrl hdr') CHNL_CTRL_SYNC_TX =? 0) then ret tt
    else
      let w := set_hdr_ctrl (Z.lor (hdr_ctrl hdr') CHNL_CTRL_ACK_BOX) hdr' in
      let b := if negb (Z.land (hdr_ctrl w) CHNL_CTRL_ACK_BOX =? 0) then MB_PHY_ACK_CHNL
               else MB_PHY_CMD_CHNL in
      let* ret_code := bk_mailbox_send (set_param0 w cmd') b in
      if negb (ret_code =? BK_OK) then upd_phy tx_fault else ret tt.

Definition mb_phy_chnl_rx_isr (d : mailbox_data_t) : M mb unit :=
  if negb (Z.land (hdr_ctrl (param0 d)) CHNL_CTRL_ACK_BOX =? 0)
  then mb_phy_chnl_rx_ack_isr d else mb_phy_chnl_rx_cmd_isr d.

(** The polling loop; [fuel] bounds the attempts. *)
Fixpoint send_sync_loop (fuel : nat) (d : mailbox_data_t) : M mb Z :=
  match fuel with
  | O => trapM Hang
  | S fuel' =>
      let* ret_code := bk_mailbox_send d MB_PHY_CMD_CHNL in
      if negb (ret_code =? BK_ERR_MAILBOX_TIMEOUT) then ret ret_code
      else send_sync_loop fuel' d
  end.
Definition mb_phy_chnl_tx_cmd_sync (fuel : nat) (ch : nat) (d : mailbox_data_t) : M mb Z :=
  let w := set_hdr_state 0 (set_hdr_ctrl CHNL_CTRL_SYNC_TX (set_hdr_tx_seq 0
             (set_hdr_logical_chnl (Z.of_nat ch) (param0 d)))) in
  send_sync_loop fuel (set_param0 w d).

(** ** Logical channel API *)
Definition zero_data : mailbox_data_t := mk_data 0 0 0 0.
Definition idle_log : mb_log_chnl_cb_t := mk_log false false false false false 0 zero_data.

(** [init_ret], [reg_ret]: results of [bk_mailbox_init] and of the callback registration. *)
Definition mb_chnl_init (init_ret reg_ret : Z) : M mb Z :=
  let* ok := gets mb_chnnl_init_ok in
  if ok then ret BK_OK
  else
    modify (set_phy (mk_phy false 0 0 0 0)) ;;;
    modify (set_log (replicate MB_LOG_CHNL_NUM idle_log)) ;;;
    if negb (init_ret =? BK_OK) then ret init_ret
    else if negb (reg_ret =? BK_OK) then ret reg_ret
    else modify (set_init true) ;;; ret BK_OK.

Definition mb_chnl_open (init_ret reg_ret : Z) (ch : nat) (param : Z) : M mb Z :=
  let* ok := gets mb_chnnl_init_ok in
  let* ret_code := (if ok then ret BK_OK else mb_chnl_init init_ret reg_ret) in
  if negb (ret_code =? BK_OK) then ret ret_code
  else if (MB_LOG_CHNL_NUM <=? ch)%nat then ret BK_ERR_PARAM
  else
    let* l := get_log ch in
    if in_used l then ret BK_ERR_OPEN
    else
      upd_log ch (λ l, mk_log (log_tx_state l) true (rx_isr l) (tx_isr l) (tx_cmpl_isr l) param
                         (chnnl_tx_buff l)) ;;;
      ret BK_OK.

Definition mb_chnl_close (ch : nat) : M mb Z :=
  if (MB_LOG_CHNL_NUM <=? ch)%nat then ret BK_ERR_PARAM
  else
    let* l := get_log ch in
    if negb (in_used l) then ret BK_ERR_STATE
    else
      upd_log ch (λ l, mk_log false false false false false (isr_param l) (chnnl_tx_buff l)) ;;;
      ret BK_OK.

Definition mb_chnl_write (ch : nat) (cmd : mailbox_data_t) : M mb Z :=
  let* rc := mb_chnl_store ch cmd in
  if negb (rc =? BK_OK) then ret rc
  else mb_phy_chnl_start_tx ch ;;; ret BK_OK.

Inductive ctrl_cmd :=
| MB_CHNL_GET_STATUS | MB_CHNL_SET_RX_ISR (set : bool) | MB_CHNL_SET_TX_ISR (set : bool)
| MB_CHNL_SET_TX_CMPL_ISR (set : bool) | MB_CHNL_WRITE_SYNC (d : mailbox_data_t) | MB_CHNL_OTHER.

(** The return code and, for GET_STATUS, the state. *)
Definition mb_chnl_ctrl (fuel : nat) (ch : nat) (cmd : ctrl_cmd) : M mb (Z * bool) :=
  if (MB_LOG_CHNL_NUM <=? ch)%nat then ret (BK_ERR_PARAM, false)
  else
    let* l := get_log ch in
    if negb (in_used l) then ret (BK_ERR_STATE, false)
    else
      match cmd with
      | MB_CHNL_GET_STATUS => ret (BK_OK, log_tx_state l)
      | MB_CHNL_SET_RX_ISR b =>
          upd_log ch (λ l, mk_log (log_tx_state l) (in_used l) b (tx_isr l) (tx_cmpl_isr l)
                             (isr_param l) (chnnl_tx_buff l)) ;;; ret (BK_OK, false)
      | MB_CHNL_SET_TX_ISR b =>
          upd_log ch (λ l, mk_log (log_tx_state l) (in_used l) (rx_isr l) b (tx_cmpl_isr l)
                             (isr_param l) (chnnl_tx_buff l)) ;;; ret (BK_OK, false)
      | MB_CHNL_SET_TX_CMPL_ISR b =>
          upd_log ch (λ l, mk_log (log_tx_state l) (in_used l) (rx_isr l) (tx_isr l) b
                             (isr_param l) (chnnl_tx_buff l)) ;;; ret (BK_OK, false)
      | MB_CHNL_WRITE_SYNC d =>
          let* rc := mb_phy_chnl_tx_cmd_sync fuel ch d in ret (rc, false)
      | MB_CHNL_OTHER => ret (BK_ERR_NOT_SUPPORT, false)
      end.

(** ** The message put on the wire *)
Definition cmd_msg (ch : nat) (seq : Z) (d : mailbox_data_t) : mailbox_data_t :=
  set_param0 (set_hdr_state 0 (set_hdr_ctrl 0 (set_hdr_tx_seq seq
    (set_hdr_logical_chnl (Z.of_nat ch) (param0 d))))) d.

Lemma cmd_msg_hdr ch seq d : (ch < MB_LOG_CHNL_NUM)%nat → 0 ≤ seq < 2 ^ 8 →
  let w := param0 (cmd_msg ch seq d) in
  hdr_logical_chnl w = Z.of_nat ch ∧ hdr_tx_seq w = seq ∧ hdr_ctrl w = 0 ∧ hdr_state w = 0 ∧
  hdr_cmd w = hdr_cmd (param0 d).
Proof.
  intros Hc Hs w. unfold w, cmd_msg. cbn [param0 set_param0]. unfold MB_LOG_CHNL_NUM in Hc.
  split_and!; hdr; done.
Qed.

(** ** The invariant: an idle physical channel has nothing left to send *)
Record mb_wf (s : mb) : Prop := {
  mw_len : length (log_chnl_cb s) = MB_LOG_CHNL_NUM;
  mw_seq : 0 ≤ tx_seq (phy_chnl_cb s) < 2 ^ 8;
  mw_id : (tx_log_chnl_id (phy_chnl_cb s) < MB_LOG_CHNL_NUM)%nat;
  mw_idle : phy_tx_state (phy_chnl_cb s) = false → first_pending (log_chnl_cb s) = None }.

Lemma first_pending_None l : first_pending l = None ↔ ∀ i c, l !! i = Some c → log_tx_state c = false.
Proof.
  induction l as [|c l IH]; simpl; [done|]. destruct (log_tx_state c) eqn:B.
  - split; [done|]. intros H. specialize (H 0%nat c eq_refl). congruence.
  - destruct (first_pending l) as [n|]; simpl.
    + split; [done|]. intros H. assert (Some n = None); [|done].
      apply IH. intros i x Hx. exact (H (S i) x Hx).
    + split; [|done]. intros _ [|i] x; simpl; [by intros [= <-]|]. by apply IH.
Qed.
Lemma first_pending_Some l n : first_pending l = Some n →
  (∃ c, l !! n = Some c ∧ log_tx_state c = true) ∧
  (∀ i c, (i < n)%nat → l !! i = Some c → log_tx_state c = false).
Proof.
  revert n. induction l as [|c l IH]; intros n; simpl; [done|]. destruct (log_tx_state c) eqn:B.
  - intros [= <-]. split; [by exists c|]. intros; lia.
  - destruct (first_pending l) as [m|]; [|done]. intros [= <-].
    destruct (IH m eq_refl) as [H1 H2]. split; [done|].
    intros [|i] x Hi; simpl; [by intros [= <-]|]. apply H2. lia.
Qed.

(** What is left in a channel after its buffer was sent. *)
Definition after_tx (ch : nat) (seq : Z) (l : mb_log_chnl_cb_t) : mb_log_chnl_cb_t :=
  let l1 := log_busy false (log_buff (cmd_msg ch seq (chnnl_tx_buff l)) l) in
  if tx_isr l && in_used l then
    match refill ch with Some cmd => log_busy true (log_buff cmd l1) | None => l1 end
  else l1.

(** The channel's message goes out, or the failed send is counted. *)
Definition tx_done (s : mb) (ch : nat) (l : mb_log_chnl_cb_t) : mb :=
  let seq := u8 (tx_seq (phy_chnl_cb s) + 1) in
  mk_mb (next_seq ch (phy_chnl_cb s)) (<[ch := after_tx ch seq l]> (log_chnl_cb s))
    (mb_chnnl_init_ok s) (S (nsend s))
    (sent s ++ [(MB_PHY_CMD_CHNL, cmd_msg ch seq (chnnl_tx_buff l))])
    (calls s ++ if tx_isr l then [TxIsr ch (isr_param l)] else []).
Definition tx_failed (s : mb) (ch : nat) (l : mb_log_chnl_cb_t) : mb :=
  let seq := u8 (tx_seq (phy_chnl_cb s) + 1) in
  mk_mb (tx_fault (next_seq ch (phy_chnl_cb s)))
    (<[ch := log_buff (cmd_msg ch seq (chnnl_tx_buff l)) l]> (log_chnl_cb s))
    (mb_chnnl_init_ok s) (S (nsend s)) (sent s) (calls s).

Ltac mbn := cbn [set_log set_phy set_init add_call phy_chnl_cb log_chnl_cb mb_chnnl_init_ok nsend
  sent calls next_seq tx_seq negb phy_tx_state tx_log_chnl_id rx_fault_cnt tx_fault_cnt].

Lemma call_tx_isr_ok s ch l :
  (ch < MB_LOG_CHNL_NUM)%nat → log_chnl_cb s !! ch = Some l → log_tx_state l = false →
  call_tx_isr ch s =
  Done (tt, mk_mb (phy_chnl_cb s)
    (<[ch := if in_used l then
               match refill ch with Some cmd => log_busy true (log_buff cmd l) | None => l end
             else l]> (log_chnl_cb s))
    (mb_chnnl_init_ok s) (nsend s) (sent s) (calls s ++ [TxIsr ch (isr_param l)])).
Proof.
  intros Hc Hl Hi. unfold call_tx_isr, get_log, modify, bind, ret. mbn. rewrite Hl.
  assert (K : add_call (TxIsr ch (isr_param l)) s =
    mk_mb (phy_chnl_cb s) (<[ch:=l]> (log_chnl_cb s)) (mb_chnnl_init_ok s) (nsend s) (sent s)
      (calls s ++ [TxIsr ch (isr_param l)])).
  { by rewrite list_insert_id by done. }
  destruct (refill ch) as [cmd|]; [|rewrite K; by destruct (in_used l)].
  unfold mb_chnl_store. rewrite (proj2 (Nat.leb_gt _ _)) by done.
  unfold get_log, upd_log, bind, ret. mbn. rewrite Hl.
  destruct (in_used l); cbn [negb]; [|by rewrite K].
  rewrite Hi. mbn. rewrite Hl. done.
Qed.

Lemma tx_cmd_unfold s ch l :
  (ch < MB_LOG_CHNL_NUM)%nat → log_chnl_cb s !! ch = Some l →
  mb_phy_chnl_tx_cmd ch s =
  if send_ret (nsend s) =? BK_OK then Done (0, tx_done s ch l) else Done (2, tx_failed s ch l).
Proof.
  intros Hc Hl. pose proof (lookup_lt_Some _ _ _ Hl) as Hlt.
  unfold mb_phy_chnl_tx_cmd. rewrite (proj2 (Nat.leb_gt _ _)) by done.
  unfold upd_phy, modify, gets, get_log, upd_log, bk_mailbox_send, bind, ret. mbn.
  rewrite Hl. mbn. rewrite Hl. mbn. destruct (send_ret (nsend s) =? BK_OK); mbn; [|done].
  rewrite list_lookup_insert_eq by done. mbn. rewrite list_insert_insert_eq.
  unfold tx_done, after_tx. destruct (tx_isr l); cbn [andb].
  - rewrite (call_tx_isr_ok _ ch (log_busy false (log_buff
      (cmd_msg ch (u8 (tx_seq (phy_chnl_cb s) + 1)) (chnnl_tx_buff l)) l))); [|done| |done].
    2: { mbn. by rewrite list_lookup_insert_eq by done. }
    mbn.
    rewrite list_insert_insert_eq. cbn [in_used log_busy log_buff isr_param].
    destruct (in_used l), (refill ch); reflexivity.
  - by rewrite app_nil_r.
Qed.

(** ** The acknowledgement of the message in flight *)
Definition ack_for (p : mb_phy_chnl_cb_t) (d : mailbox_data_t) : mailbox_data_t :=
  set_param0 (set_hdr_ctrl CHNL_CTRL_ACK_BOX (set_hdr_tx_seq (tx_seq p)
    (set_hdr_logical_chnl (Z.of_nat (tx_log_chnl_id p)) (param0 d)))) d.

(** The state after the completion callback. *)
Definition completed (s : mb) (l : mb_log_chnl_cb_t) (ack : mailbox_data_t) : mb :=
  if tx_cmpl_isr l then
    add_call (TxCmplIsr (tx_log_chnl_id (phy_chnl_cb s)) (isr_param l)
      (set_param0 (set_hdr_ctrl 0 (set_hdr_tx_seq 0 (set_hdr_logical_chnl 0 (param0 ack)))) ack)) s
  else s.

Lemma rx_ack_unfold s ack l :
  hdr_logical_chnl (param0 ack) = Z.of_nat (tx_log_chnl_id (phy_chnl_cb s)) →
  hdr_tx_seq (param0 ack) = tx_seq (phy_chnl_cb s) →
  log_chnl_cb s !! tx_log_chnl_id (phy_chnl_cb s) = Some l →
  mb_phy_chnl_rx_ack_isr ack s =
  match first_pending (log_chnl_cb s) with
  | None => Done (tt, set_phy (phy_busy false (phy_chnl_cb s)) (completed s l ack))
  | Some n =>
      (let* rc := mb_phy_chnl_tx_cmd n in
       if negb (rc =? 0) then upd_phy (phy_busy false) else ret tt) (completed s l ack)
  end.
Proof.
  intros Hc Hs Hl. unfold mb_phy_chnl_rx_ack_isr. rewrite Hc, Hs, Nat2Z.id.
  rewrite (bind_done _ _ s (phy_chnl_cb s) s) by done.
  rewrite Nat.eqb_refl, Z.eqb_refl. cbn [negb orb].
  rewrite (bind_done _ _ s l s) by (unfold get_log; by rewrite Hl).
  rewrite (bind_done _ _ s tt (completed s l ack)).
  2: { unfold completed. by destruct (tx_cmpl_isr l). }
  rewrite (bind_done _ _ _ (log_chnl_cb s) (completed s l ack)).
  2: { unfold gets, completed. by destruct (tx_cmpl_isr l). }
  destruct (first_pending _); [done|].
  unfold upd_phy, modify, completed. by destruct (tx_cmpl_isr l).
Qed.

(** ** Writing *)
Lemma store_ok s ch cmd l :
  (ch < MB_LOG_CHNL_NUM)%nat → log_chnl_cb s !! ch = Some l → in_used l = true → log_tx_state l = false →
  mb_chnl_store ch cmd s =
  Done (BK_OK, set_log (<[ch := log_busy true (log_buff cmd l)]> (log_chnl_cb s)) s).
Proof.
  intros Hc Hl Hu Hi. unfold mb_chnl_store. rewrite (proj2 (Nat.leb_gt _ _)) by done.
  unfold get_log, upd_log, bind, ret. rewrite Hl, Hu, Hi. mbn. by rewrite Hl.
Qed.

(** The channels waiting to be sent, with their buffers, highest priority first. *)
Fixpoint queued (k : nat) (l : list mb_log_chnl_cb_t) : list (nat * mailbox_data_t) :=
  match l with
  | [] => []
  | c :: l' => (if log_tx_state c then [(k, chnnl_tx_buff c)] else []) ++ queued (S k) l'
  end.

Lemma queued_nil k l : queued k l = [] ↔ first_pending l = None.
Proof.
  revert k. induction l as [|c l IH]; intros k; simpl; [done|].
  destruct (log_tx_state c); [done|]. simpl. rewrite (IH (S k)). by destruct (first_pending l).
Qed.

Lemma queued_cons k l i d q : queued k l = (i, d) :: q →
  ∃ n c, i = (k + n)%nat ∧ first_pending l = Some n ∧ l !! n = Some c ∧ chnnl_tx_buff c = d ∧
    ∀ c', log_tx_state c' = false → queued k (<[n := c']> l) = q.
Proof.
  revert k. induction l as [|c l IH]; intros k; simpl; [done|].
  destruct (log_tx_state c) eqn:B; simpl.
  - intros [= <- <- <-]. exists 0%nat, c. split_and!; [lia|done..|].
    intros c' Hc'. simpl. by rewrite Hc'.
  - intros H. destruct (IH _ H) as (n & x & -> & Hf & Hx & Hd & Hq).
    exists (S n), x. rewrite Hf. split_and!; [lia|done..|].
    intros c' Hc'. simpl. rewrite B. simpl. by apply Hq.
Qed.

(** What a successful write leaves: the command on the wire when the physical
    channel was idle, in the channel's buffer otherwise. *)
Definition write_done (s : mb) (ch : nat) (cmd : mailbox_data_t) (l : mb_log_chnl_cb_t) : mb :=
  let l' := log_busy true (log_buff cmd l) in
  let s1 := set_log (<[ch := l']> (log_chnl_cb s)) s in
  if phy_tx_state (phy_chnl_cb s) then s1
  else tx_done (set_phy (phy_busy true (phy_chnl_cb s)) s1) ch l'.

Lemma tx_done_wf s ch l :
  (ch < MB_LOG_CHNL_NUM)%nat → length (log_chnl_cb s) = MB_LOG_CHNL_NUM →
  phy_tx_state (phy_chnl_cb s) = true → mb_wf (tx_done s ch l).
Proof.
  intros Hc Hlen Hb. unfold tx_done. split; mbn.
  - by rewrite length_insert.
  - apply u8_range.
  - done.
  - congruence.
Qed.

(** Writing to a logical channel, in every state of the driver.  A channel
    number out of range, a closed channel and a channel with a command still
    queued are refused with BK_ERR_PARAM, BK_ERR_STATE and BK_ERR_BUSY and
    change nothing.  Otherwise the write returns BK_OK: on an idle physical
    channel exactly one message goes to the command box, carrying the next
    sequence number (modulo 256), the channel number, cleared control and state
    fields and the caller's command byte and payload, and the physical channel
    becomes busy; on a busy one nothing is sent and the command waits in the
    channel.  The invariant (an idle physical channel has nothing queued) is
    kept. *)
Theorem mb_chnl_write_ok s ch cmd :
  mb_wf s → (∀ n, send_ret n = BK_OK) →
  ∃ rc s', mb_chnl_write ch cmd s = Done (rc, s') ∧ mb_wf s' ∧
    match log_chnl_cb s !! ch with
    | None => rc = BK_ERR_PARAM ∧ s' = s
    | Some l =>
        if negb (in_used l) then rc = BK_ERR_STATE ∧ s' = s
        else if log_tx_state l then rc = BK_ERR_BUSY ∧ s' = s
        else rc = BK_OK ∧
          if phy_tx_state (phy_chnl_cb s) then
            sent s' = sent s ∧ phy_chnl_cb s' = phy_chnl_cb s ∧ calls s' = calls s ∧
            log_chnl_cb s' = <[ch := log_busy true (log_buff cmd l)]> (log_chnl_cb s)
          else
            ∃ m, sent s' = sent s ++ [(MB_PHY_CMD_CHNL, m)] ∧
              phy_tx_state (phy_chnl_cb s') = true ∧ tx_log_chnl_id (phy_chnl_cb s') = ch ∧
              tx_seq (phy_chnl_cb s') = u8 (tx_seq (phy_chnl_cb s) + 1) ∧
              hdr_tx_seq (param0 m) = tx_seq (phy_chnl_cb s') ∧
              hdr_logical_chnl (param0 m) = Z.of_nat ch ∧
              hdr_ctrl (param0 m) = 0 ∧ hdr_state (param0 m) = 0 ∧
              hdr_cmd (param0 m) = hdr_cmd (param0 cmd) ∧
              param1 m = param1 cmd ∧ param2 m = param2 cmd ∧ param3 m = param3 cmd
    end.
Proof.
  intros W Hs. pose proof W as [Hlen Hseq Hid Hidle].
  destruct (log_chnl_cb s !! ch) as [l|] eqn:Hl.
  2: { exists BK_ERR_PARAM, s. split_and!; try done. apply lookup_ge_None in Hl.
       unfold mb_chnl_write, mb_chnl_store. rewrite (proj2 (Nat.leb_le _ _)) by lia. done. }
  assert (Hc : (ch < MB_LOG_CHNL_NUM)%nat) by (rewrite <-Hlen; by eapply lookup_lt_Some).
  destruct (in_used l) eqn:Hu; cbn [negb].
  2: { exists BK_ERR_STATE, s. split_and!; try done. unfold mb_chnl_write, mb_chnl_store.
       rewrite (proj2 (Nat.leb_gt _ _)) by done. unfold get_log, bind. by rewrite Hl, Hu. }
  destruct (log_tx_state l) eqn:Hb.
  { exists BK_ERR_BUSY, s. split_and!; try done. unfold mb_chnl_write, mb_chnl_store.
    rewrite (proj2 (Nat.leb_gt _ _)) by done. unfold get_log, bind. by rewrite Hl, Hu, Hb. }
  exists BK_OK, (write_done s ch cmd l).
  unfold mb_chnl_write. erewrite bind_done by (by apply store_ok). cbn [Z.eqb negb BK_OK].
  unfold mb_phy_chnl_start_tx, gets, upd_phy, modify, bind, ret, write_done. mbn.
  destruct (phy_tx_state (phy_chnl_cb s)) eqn:Hp; mbn.
  - split_and!; try done. split; mbn; try done; [by rewrite length_insert|congruence].
  - erewrite tx_cmd_unfold; [|done|mbn; apply list_lookup_insert_eq; lia].
    rewrite Hs. cbn [Z.eqb negb BK_OK]. split_and!; try done.
    { apply tx_done_wf; mbn; [done|by rewrite length_insert|done]. }
    pose proof (cmd_msg_hdr ch (u8 (tx_seq (phy_chnl_cb s) + 1)) cmd Hc (u8_range _)) as K.
    eexists. unfold tx_done. mbn. split_and!; try done; apply K.
Qed.

(** ** Draining: one acknowledgement per message in flight *)
Fixpoint ack_all (ds : list mailbox_data_t) : M mb unit :=
  match ds with
  | [] => ret tt
  | d :: ds' =>
      let* p := gets phy_chnl_cb in
      mb_phy_chnl_rx_isr (ack_for p d) ;;; ack_all ds'
  end.

Lemma ack_for_hdr p d : (tx_log_chnl_id p < MB_LOG_CHNL_NUM)%nat → 0 ≤ tx_seq p < 2 ^ 8 →
  let w := param0 (ack_for p d) in
  hdr_logical_chnl w = Z.of_nat (tx_log_chnl_id p) ∧ hdr_tx_seq w = tx_seq p ∧ hdr_ctrl w = CHNL_CTRL_ACK_BOX.
Proof.
  intros Hc Hs w. unfold w, ack_for, MB_LOG_CHNL_NUM, CHNL_CTRL_ACK_BOX in *. cbn [param0 set_param0].
  split_and!; hdr; done.
Qed.

Lemma rx_isr_ack s d l :
  mb_wf s → log_chnl_cb s !! tx_log_chnl_id (phy_chnl_cb s) = Some l →
  let a := ack_for (phy_chnl_cb s) d in
  mb_phy_chnl_rx_isr a s =
  match first_pending (log_chnl_cb s) with
  | None => Done (tt, set_phy (phy_busy false (phy_chnl_cb s)) (completed s l a))
  | Some n =>
      (let* rc := mb_phy_chnl_tx_cmd n in
       if negb (rc =? 0) then upd_phy (phy_busy false) else ret tt) (completed s l a)
  end.
Proof.
  intros W Hl a. destruct (ack_for_hdr (phy_chnl_cb s) d (mw_id _ W) (mw_seq _ W)) as (A & B & C).
  unfold mb_phy_chnl_rx_isr, a. rewrite C.
  change (negb (Z.land CHNL_CTRL_ACK_BOX CHNL_CTRL_ACK_BOX =? 0)) with true. cbv iota.
  by apply rx_ack_unfold.
Qed.

Lemma completed_frame s l a :
  phy_chnl_cb (completed s l a) = phy_chnl_cb s ∧ log_chnl_cb (completed s l a) = log_chnl_cb s ∧
  nsend (completed s l a) = nsend s ∧ sent (completed s l a) = sent s.
Proof. unfold completed. by destruct (tx_cmpl_isr l). Qed.

Lemma tx_or_idle_ok s n c :
  (n < MB_LOG_CHNL_NUM)%nat → log_chnl_cb s !! n = Some c → send_ret (nsend s) = BK_OK →
  (let* rc := mb_phy_chnl_tx_cmd n in
   if negb (rc =? 0) then upd_phy (phy_busy false) else ret tt) s = Done (tt, tx_done s n c).
Proof.
  intros Hn Hc Hs. rewrite (bind_done _ _ _ 0 (tx_done s n c)); [done|].
  rewrite (tx_cmd_unfold s n c) by done. by rewrite Hs.
Qed.

Lemma tx_or_idle_fail s n c :
  (n < MB_LOG_CHNL_NUM)%nat → log_chnl_cb s !! n = Some c → send_ret (nsend s) ≠ BK_OK →
  (let* rc := mb_phy_chnl_tx_cmd n in
   if negb (rc =? 0) then upd_phy (phy_busy false) else ret tt) s =
  Done (tt, set_phy (phy_busy false (phy_chnl_cb (tx_failed s n c))) (tx_failed s n c)).
Proof.
  intros Hn Hc Hs. rewrite (bind_done _ _ _ 2 (tx_failed s n c)); [done|].
  rewrite (tx_cmd_unfold s n c) by done. by rewrite (proj2 (Z.eqb_neq _ _)) by done.
Qed.

Lemma after_tx_idle ch seq l : refill ch = None → log_tx_state (after_tx ch seq l) = false.
Proof. intros H. unfold after_tx. rewrite H. by destruct (tx_isr l && in_used l). Qed.

(** The messages of a queue, with consecutive sequence numbers. *)
Fixpoint queue_msgs (seq : Z) (q : list (nat * mailbox_data_t)) : list (box * mailbox_data_t) :=
  match q with
  | [] => []
  | (i, d) :: q' =>
      (MB_PHY_CMD_CHNL, cmd_msg i (u8 (seq + 1)) d) :: queue_msgs (u8 (seq + 1)) q'
  end.

(** C8: Draining the queue.  While the transmit callbacks queue nothing new and
    the hardware accepts what is sent, every acknowledgement of the message in
    flight puts exactly one queued command on the wire, in channel priority
    order (lowest number first) and with consecutive sequence numbers; after one
    acknowledgement more than there were queued commands every command has been
    sent once, unchanged, nothing is queued and the physical channel is idle.
    The answers' command bytes, states and payloads are arbitrary. *)
Theorem mb_ack_drain s ds :
  mb_wf s → (∀ n, send_ret n = BK_OK) → (∀ ch, refill ch = None) →
  phy_tx_state (phy_chnl_cb s) = true → length ds = S (length (queued 0 (log_chnl_cb s))) →
  ∃ s', ack_all ds s = Done (tt, s') ∧ mb_wf s' ∧
    sent s' = sent s ++ queue_msgs (tx_seq (phy_chnl_cb s)) (queued 0 (log_chnl_cb s)) ∧
    phy_tx_state (phy_chnl_cb s') = false ∧ queued 0 (log_chnl_cb s') = [] ∧
    rx_fault_cnt (phy_chnl_cb s') = rx_fault_cnt (phy_chnl_cb s).
Proof.
  intros W Hs Hr. remember (queued 0 (log_chnl_cb s)) as q eqn:Hq. revert s ds W Hq.
  induction q as [|[i d] q IH]; intros s [|a ds] W Hq Hp Hlen; try done.
  - destruct ds; [|done]. destruct (lookup_lt_is_Some_2 (log_chnl_cb s) (tx_log_chnl_id (phy_chnl_cb s))) as [l Hl].
    { rewrite (mw_len _ W). apply W. }
    assert (Hf : first_pending (log_chnl_cb s) = None) by (by eapply queued_nil).
    eexists. simpl. erewrite bind_done by done. erewrite bind_done.
    2: { rewrite (rx_isr_ack s a l) by done. by rewrite Hf. }
    destruct (completed_frame s l (ack_for (phy_chnl_cb s) a)) as (E1 & E2 & E3 & E4).
    split; [done|]. mbn. rewrite E2, E4. rewrite app_nil_r. split_and!; try done.
    destruct W. split; mbn; rewrite ?E2; done.
  - destruct (lookup_lt_is_Some_2 (log_chnl_cb s) (tx_log_chnl_id (phy_chnl_cb s))) as [l Hl].
    { rewrite (mw_len _ W). apply W. }
    destruct (queued_cons _ _ _ _ _ (eq_sym Hq)) as (n & c & -> & Hf & Hc & Hd & Hq').
    destruct (completed_frame s l (ack_for (phy_chnl_cb s) a)) as (E1 & E2 & E3 & E4).
    set (s1 := completed s l (ack_for (phy_chnl_cb s) a)) in *.
    assert (Hn : (n < MB_LOG_CHNL_NUM)%nat) by (rewrite <-(mw_len _ W); by eapply lookup_lt_Some).
    destruct (IH (tx_done s1 n c) ds) as (s' & R & W' & S' & P' & Q' & F').
    + apply tx_done_wf; [done|rewrite E2; apply W|by rewrite E1].
    + unfold tx_done. mbn. rewrite E2, Hq'; [done|]. by apply after_tx_idle.
    + unfold tx_done. mbn. by rewrite E1.
    + simpl in Hlen. lia.
    + exists s'. simpl. erewrite bind_done by done. erewrite bind_done.
      2: { rewrite (rx_isr_ack s a l) by done. rewrite Hf. fold s1.
           by apply (tx_or_idle_ok s1 n c); rewrite ?E2. }
      split_and!; try done.
      * rewrite S'. unfold tx_done. mbn. rewrite E4, E1, Hd, <-app_assoc. done.
      * rewrite F'. unfold tx_done. mbn. by rewrite E1.
Qed.

(** ** One command and its answer, between the two cores *)
Lemma rx_cmd_reply s ch l cmd seq d :
  (ch < MB_LOG_CHNL_NUM)%nat → log_chnl_cb s !! ch = Some l → 0 ≤ seq < 2 ^ 8 →
  cmd = cmd_msg ch seq d → send_ret (nsend s) = BK_OK →
  let seen := set_param0 (set_hdr_state 0 (set_hdr_ctrl 0 (set_hdr_tx_seq 0
                (set_hdr_logical_chnl 0 (param0 cmd))))) cmd in
  let reply := if rx_isr l then answer ch seen else cmd in
  let hdr := if rx_isr l then param0 cmd else set_hdr_state CHNL_STATE_COM_FAIL (param0 cmd) in
  mb_phy_chnl_rx_isr cmd s =
  Done (tt, mk_mb (phy_chnl_cb s) (log_chnl_cb s) (mb_chnnl_init_ok s) (S (nsend s))
    (sent s ++ [(MB_PHY_ACK_CHNL, set_param0 (set_hdr_ctrl CHNL_CTRL_ACK_BOX hdr) reply)])
    (calls s ++ if rx_isr l then [RxIsr ch (isr_param l) seen] else [])).
Proof.
  intros Hc Hl Hq -> Hs seen reply hdr.
  destruct (cmd_msg_hdr ch seq d Hc Hq) as (A & B & C & D & E).
  unfold mb_phy_chnl_rx_isr. rewrite C, Z.land_0_l. cbn [Z.eqb negb].
  unfold mb_phy_chnl_rx_cmd_isr. rewrite A, Nat2Z.id, (proj2 (Nat.leb_gt _ _)) by done.
  unfold get_log, modify, bk_mailbox_send, bind, ret. cbv iota beta. rewrite Hl.
  assert (Cf : hdr_ctrl (set_hdr_state CHNL_STATE_COM_FAIL (param0 (cmd_msg ch seq d))) = 0).
  { revert C. unfold CHNL_STATE_COM_FAIL. hdr. done. }
  assert (K : ∀ w, hdr_ctrl (set_hdr_ctrl (Z.lor 0 CHNL_CTRL_ACK_BOX) w) = CHNL_CTRL_ACK_BOX).
  { intros w. unfold CHNL_CTRL_ACK_BOX. rewrite Z.lor_0_l. hdr. done. }
  unfold reply, hdr. destruct (rx_isr l) eqn:Hr.
  - rewrite C, Z.land_0_l. cbn [Z.eqb negb]. rewrite K. mbn. rewrite Hs. done.
  - rewrite D, Z.lor_0_l.
    rewrite Cf, Z.land_0_l. cbn [Z.eqb negb]. rewrite K. mbn. rewrite Hs, app_nil_r. done.
Qed.

(** A failed transmission is reported as a success and blocks its channel:
    when the hardware refuses the message on an idle physical channel,
    [mb_chnl_write] still returns BK_OK although nothing was sent (only the
    fault counter tells), the physical channel is idle again while the channel
    keeps its busy state, so that every later write to it is refused with
    BK_ERR_BUSY and changes nothing. *)
Theorem mb_write_send_fails s ch cmd l :
  mb_wf s → phy_tx_state (phy_chnl_cb s) = false →
  log_chnl_cb s !! ch = Some l → in_used l = true → send_ret (nsend s) ≠ BK_OK →
  ∃ s', mb_chnl_write ch cmd s = Done (BK_OK, s') ∧
    sent s' = sent s ∧ calls s' = calls s ∧ phy_tx_state (phy_chnl_cb s') = false ∧
    tx_fault_cnt (phy_chnl_cb s') = u32 (tx_fault_cnt (phy_chnl_cb s) + 1) ∧
    ∀ cmd', mb_chnl_write ch cmd' s' = Done (BK_ERR_BUSY, s').
Proof.
  intros W Hp Hl Hu Hs. pose proof (lookup_lt_Some _ _ _ Hl) as Hlt.
  assert (Hc : (ch < MB_LOG_CHNL_NUM)%nat) by (by rewrite <-(mw_len _ W)).
  assert (Hi : log_tx_state l = false).
  { pose proof (mw_idle _ W Hp) as N. rewrite first_pending_None in N. by eapply N. }
  set (l' := log_busy true (log_buff cmd l)).
  set (s1 := set_phy (phy_busy true (phy_chnl_cb s)) (set_log (<[ch := l']> (log_chnl_cb s)) s)).
  exists (set_phy (phy_busy false (phy_chnl_cb (tx_failed s1 ch l'))) (tx_failed s1 ch l')).
  split_and!; try done.
  - unfold mb_chnl_write. erewrite bind_done by (by apply store_ok). cbn [Z.eqb negb BK_OK].
    rewrite (bind_done _ _ _ tt (set_phy (phy_busy false (phy_chnl_cb (tx_failed s1 ch l'))) (tx_failed s1 ch l')));
      [done|].
    unfold mb_phy_chnl_start_tx. erewrite bind_done by done. mbn. rewrite Hp.
    erewrite bind_done by done. apply tx_or_idle_fail; [done| |done].
    mbn. by apply list_lookup_insert_eq.
  - intros cmd'. unfold mb_chnl_write, mb_chnl_store. rewrite (proj2 (Nat.leb_gt _ _)) by done.
    unfold get_log, bind, ret, tx_failed, s1. mbn.
    rewrite list_lookup_insert_eq by (rewrite length_insert; done).
    cbn [in_used log_busy log_buff l' log_tx_state]. by rewrite Hu.
Qed.

Lemma rx_ack_total s a l :
  mb_wf s → log_chnl_cb s !! tx_log_chnl_id (phy_chnl_cb s) = Some l →
  hdr_logical_chnl (param0 a) = Z.of_nat (tx_log_chnl_id (phy_chnl_cb s)) →
  hdr_tx_seq (param0 a) = tx_seq (phy_chnl_cb s) → hdr_ctrl (param0 a) = CHNL_CTRL_ACK_BOX →
  ∃ s', mb_phy_chnl_rx_isr a s = Done (tt, s') ∧
    rx_fault_cnt (phy_chnl_cb s') = rx_fault_cnt (phy_chnl_cb s) ∧
    calls (completed s l a) `prefix_of` calls s'.
Proof.
  intros W Hl A B C. unfold mb_phy_chnl_rx_isr. rewrite C.
  change (negb (Z.land CHNL_CTRL_ACK_BOX CHNL_CTRL_ACK_BOX =? 0)) with true. cbv iota.
  rewrite (rx_ack_unfold s a l) by done.
  destruct (completed_frame s l a) as (E1 & E2 & E3 & E4).
  destruct (first_pending (log_chnl_cb s)) as [n|] eqn:F.
  2: { eexists. split; [done|]. mbn. split; [done|reflexivity]. }
  destruct (first_pending_Some _ _ F) as [(c & Hc & _) _].
  assert (Hn : (n < MB_LOG_CHNL_NUM)%nat) by (rewrite <-(mw_len _ W); by eapply lookup_lt_Some).
  rewrite <-E2 in Hc. destruct (decide (send_ret (nsend (completed s l a)) = BK_OK)) as [S|S].
  - eexists. split; [by apply tx_or_idle_ok|]. unfold tx_done. mbn. rewrite E1.
    split; [done|]. by eexists.
  - eexists. split; [by apply tx_or_idle_fail|]. unfold tx_failed. mbn. rewrite E1.
    split; [done|reflexivity].
Qed.
End Mailbox.

Lemma command_roundtrip sendA refillA answerA sendB refillB answerB sA sB lA lB d :
  let ch := tx_log_chnl_id (phy_chnl_cb sA) in
  let m := cmd_msg ch (tx_seq (phy_chnl_cb sA)) d in
  mb_wf sA → log_chnl_cb sA !! ch = Some lA → log_chnl_cb sB !! ch = Some lB →
  sendB (nsend sB) = BK_OK →
  ∃ seen ack sB' sA',
    mb_phy_chnl_rx_isr sendB refillB answerB m sB = Done (tt, sB') ∧
    calls sB' = calls sB ++ (if rx_isr lB then [RxIsr ch (isr_param lB) seen] else []) ∧
    (hdr_logical_chnl (param0 seen) = 0 ∧ hdr_tx_seq (param0 seen) = 0 ∧ hdr_ctrl (param0 seen) = 0 ∧
     hdr_state (param0 seen) = 0 ∧ hdr_cmd (param0 seen) = hdr_cmd (param0 d) ∧
     param1 seen = param1 d ∧ param2 seen = param2 d ∧ param3 seen = param3 d) ∧
    sent sB' = sent sB ++ [(MB_PHY_ACK_CHNL, ack)] ∧
    mb_phy_chnl_rx_isr sendA refillA answerA ack sA = Done (tt, sA') ∧
    rx_fault_cnt (phy_chnl_cb sA') = rx_fault_cnt (phy_chnl_cb sA) ∧
    (tx_cmpl_isr lA = true → ∃ a,
      (calls sA ++ [TxCmplIsr ch (isr_param lA) a]) `prefix_of` calls sA' ∧
      hdr_logical_chnl (param0 a) = 0 ∧ hdr_tx_seq (param0 a) = 0 ∧ hdr_ctrl (param0 a) = 0 ∧
      hdr_state (param0 a) = (if rx_isr lB then 0 else CHNL_STATE_COM_FAIL) ∧
      hdr_cmd (param0 a) = hdr_cmd (param0 d) ∧
      let r := if rx_isr lB then answerB ch seen else d in
      param1 a = param1 r ∧ param2 a = param2 r ∧ param3 a = param3 r).
Proof.
  intros ch m W HlA HlB HsB.
  assert (Hc : (ch < MB_LOG_CHNL_NUM)%nat) by apply W.
  pose proof (cmd_msg_hdr ch (tx_seq (phy_chnl_cb sA)) d Hc (mw_seq _ W)) as (A & B & C & D & E).
  fold m in A, B, C, D, E.
  set (seen := set_param0 (set_hdr_state 0 (set_hdr_ctrl 0 (set_hdr_tx_seq 0
                 (set_hdr_logical_chnl 0 (param0 m))))) m).
  set (hd := if rx_isr lB then param0 m else set_hdr_state CHNL_STATE_COM_FAIL (param0 m)).
  set (ack := set_param0 (set_hdr_ctrl CHNL_CTRL_ACK_BOX hd) (if rx_isr lB then answerB ch seen else m)).
  assert (HA : hdr_logical_chnl (param0 ack) = Z.of_nat ch ∧ hdr_tx_seq (param0 ack) = tx_seq (phy_chnl_cb sA) ∧
    hdr_ctrl (param0 ack) = CHNL_CTRL_ACK_BOX ∧
    hdr_state (param0 ack) = (if rx_isr lB then 0 else CHNL_STATE_COM_FAIL) ∧
    hdr_cmd (param0 ack) = hdr_cmd (param0 d)).
  { unfold ack, hd, CHNL_CTRL_ACK_BOX, CHNL_STATE_COM_FAIL. cbn [param0 set_param0]. rewrite <-A, <-B, <-E.
    revert D. destruct (rx_isr lB); intros D; split_and!; hdr; done. }
  destruct HA as (A1 & A2 & A3 & A4 & A5).
  destruct (rx_ack_total sendA refillA answerA sA ack lA W HlA A1 A2 A3) as (sA' & R & F & P).
  exists seen, ack. do 2 eexists. split_and!.
  - exact (rx_cmd_reply sendB refillB answerB sB ch lB m _ d Hc HlB (mw_seq _ W) eq_refl HsB).
  - done.
  - unfold seen. cbn [param0 set_param0]. hdr. done.
  - unfold seen. cbn [param0 set_param0]. hdr. done.
  - unfold seen. cbn [param0 set_param0]. hdr. done.
  - unfold seen. cbn [param0 set_param0]. hdr. done.
  - rewrite <-E. unfold seen. cbn [param0 set_param0]. hdr. done.
  - done.
  - done.
  - done.
  - done.
  - exact R.
  - exact F.
  - intros Ht. unfold completed in P. rewrite Ht in P. eexists. split; [exact P|].
    rewrite <-A4, <-A5. cbn [param0 param1 param2 param3 set_param0].
    split_and!; try (hdr; done); unfold ack; by destruct (rx_isr lB).
Qed.

(** A command and its answer between the two cores.  The message in flight
    on core A, received by core B, calls B's handler of that channel with the
    command byte and payload A wrote and a header otherwise cleared, and B puts
    exactly one message into the acknowledge box, with A's sequence number and
    channel; without a handler the answer carries the communication-failure
    state.  Received by A that answer is accepted (no fault is counted): A's
    completion callback of the channel gets B's payload, the command byte it
    sent, the state, and a header otherwise cleared. *)
Theorem mb_command_roundtrip sendA refillA answerA sendB refillB answerB sA sB lA lB d :
  let ch := tx_log_chnl_id (phy_chnl_cb sA) in
  let m := cmd_msg ch (tx_seq (phy_chnl_cb sA)) d in
  mb_wf sA → log_chnl_cb sA !! ch = Some lA → log_chnl_cb sB !! ch = Some lB →
  sendB (nsend sB) = BK_OK →
  ∃ seen ack sB' sA',
    mb_phy_chnl_rx_isr sendB refillB answerB m sB = Done (tt, sB') ∧
    calls sB' = calls sB ++ (if rx_isr lB then [RxIsr ch (isr_param lB) seen] else []) ∧
    (hdr_logical_chnl (param0 seen) = 0 ∧ hdr_tx_seq (param0 seen) = 0 ∧ hdr_ctrl (param0 seen) = 0 ∧
     hdr_state (param0 seen) = 0 ∧ hdr_cmd (param0 seen) = hdr_cmd (param0 d) ∧
     param1 seen = param1 d ∧ param2 seen = param2 d ∧ param3 seen = param3 d) ∧
    sent sB' = sent sB ++ [(MB_PHY_ACK_CHNL, ack)] ∧
    mb_phy_chnl_rx_isr sendA refillA answerA ack sA = Done (tt, sA') ∧
    rx_fault_cnt (phy_chnl_cb sA') = rx_fault_cnt (phy_chnl_cb sA) ∧
    (tx_cmpl_isr lA = true → ∃ a,
      (calls sA ++ [TxCmplIsr ch (isr_param lA) a]) `prefix_of` calls sA' ∧
      hdr_logical_chnl (param0 a) = 0 ∧ hdr_tx_seq (param0 a) = 0 ∧ hdr_ctrl (param0 a) = 0 ∧
      hdr_state (param0 a) = (if rx_isr lB then 0 else CHNL_STATE_COM_FAIL) ∧
      hdr_cmd (param0 a) = hdr_cmd (param0 d) ∧
      let r := if rx_isr lB then answerB ch seen else d in
      param1 a = param1 r ∧ param2 a = param2 r ∧ param3 a = param3 r).
Proof. exact (command_roundtrip sendA refillA answerA sendB refillB answerB sA sB lA lB d). Qed.

(** ** Concrete runs *)
Definition s_ok : nat → Z := λ _, BK_OK.
Definition s_ko : nat → Z := λ _, BK_ERR_TIMEOUT.
Definition no_refill : nat → option mailbox_data_t := λ _, None.
(** A handler that answers with the sum of its operands. *)
Definition adder (_ : nat) (c : mailbox_data_t) : mailbox_data_t :=
  mk_data 0 (u32 (param1 c + param2 c)) 0 0.

Definition boot : mb := mk_mb (mk_phy false 0 0 0 0) [] false 0 [] [].
(** Channels 0, 2 and 5 opened, with receive and completion handlers; when
    [busy], 5 has a message in flight and 2 and 0 have one queued. *)
Definition demo_run (busy : bool) : M mb unit :=
  foldr (λ ch k,
    mb_chnl_open BK_OK BK_OK ch (Z.of_nat ch + 100) ;;;
    mb_chnl_ctrl s_ok 1 ch (MB_CHNL_SET_RX_ISR true) ;;;
    mb_chnl_ctrl s_ok 1 ch (MB_CHNL_SET_TX_CMPL_ISR true) ;;; k)
    (if busy then
       mb_chnl_write s_ok no_refill 5 (mk_data 0xffffff55 50 5 0) ;;;
       mb_chnl_write s_ok no_refill 2 (mk_data 0x22 20 2 0) ;;;
       mb_chnl_write s_ok no_refill 0 (mk_data 0x10 10 1 0) ;;; ret tt
     else ret tt) [0; 2; 5]%nat.
Definition state_of (m : M mb unit) : mb := match m boot with Done (_, s) => s | Trap _ => boot end.
Definition demo : mb := state_of (demo_run true).
Definition demo_idle : mb := state_of (demo_run false).
Definition demo_log (ch : nat) (s : mb) : mb_log_chnl_cb_t := default idle_log (log_chnl_cb s !! ch).

Lemma mb_demo_wf : mb_wf demo.
Proof. split; vm_compute; [done|done|lia|done]. Qed.
Lemma mb_demo_idle_wf : mb_wf demo_idle.
Proof. split; vm_compute; [done|done|lia|done]. Qed.

Lemma mb_chnl_write_ok_witness :
  ∃ rc s', mb_chnl_write s_ok no_refill 2 (mk_data 0x77 1 2 3) demo_idle = Done (rc, s') ∧ rc = BK_OK ∧ mb_wf s'.
Proof.
  destruct (mb_chnl_write_ok s_ok no_refill demo_idle 2 (mk_data 0x77 1 2 3) mb_demo_idle_wf (λ _, eq_refl))
    as (rc & s' & R & W & H).
  exists rc, s'. split; [exact R|]. split; [exact (proj1 H)|exact W].
Defined.

Lemma mb_ack_drain_witness :
  ∃ s', ack_all s_ok no_refill adder (replicate 3 (mk_data 0 7 8 9)) demo = Done (tt, s') ∧
    sent s' = [(MB_PHY_CMD_CHNL, mk_data 0x05010055 50 5 0);
               (MB_PHY_CMD_CHNL, mk_data 0x00020010 10 1 0);
               (MB_PHY_CMD_CHNL, mk_data 0x02030022 20 2 0)].
Proof.
  destruct (mb_ack_drain s_ok no_refill adder demo (replicate 3 (mk_data 0 7 8 9)) mb_demo_wf
    (λ _, eq_refl) (λ _, eq_refl) eq_refl eq_refl) as (s' & R & W & S & _).
  exists s'. split; [exact R|]. rewrite S. vm_compute. reflexivity.
Defined.

Lemma mb_command_roundtrip_witness :
  ∃ ack sB' sA',
    mb_phy_chnl_rx_isr s_ok no_refill adder
      (cmd_msg (tx_log_chnl_id (phy_chnl_cb demo)) (tx_seq (phy_chnl_cb demo)) (mk_data 0x55 50 5 0)) demo_idle =
      Done (tt, sB') ∧
    sent sB' = sent demo_idle ++ [(MB_PHY_ACK_CHNL, ack)] ∧
    mb_phy_chnl_rx_isr s_ok no_refill adder ack demo = Done (tt, sA').
Proof.
  destruct (mb_command_roundtrip s_ok no_refill adder s_ok no_refill adder demo demo_idle
    (demo_log 5 demo) (demo_log 5 demo_idle) (mk_data 0x55 50 5 0) mb_demo_wf
    ltac:(vm_compute; reflexivity) ltac:(vm_compute; reflexivity) eq_refl)
    as (seen & ack & sB' & sA' & R & _ & _ & S & R' & _).
  exists ack, sB', sA'. split_and!; [exact R|exact S|exact R'].
Defined.

Lemma mb_write_send_fails_witness :
  ∃ s', mb_chnl_write s_ko no_refill 2 (mk_data 0x77 1 2 3) demo_idle = Done (BK_OK, s') ∧ sent s' = [].
Proof.
  destruct (mb_write_send_fails s_ko no_refill demo_idle 2 (mk_data 0x77 1 2 3) (demo_log 2 demo_idle)
    mb_demo_idle_wf ltac:(vm_compute; reflexivity) ltac:(vm_compute; reflexivity)
    ltac:(vm_compute; reflexivity) ltac:(done)) as (s' & R & S & _).
  exists s'. split; [exact R|exact S].
Defined.

End Mailbox.
