(* ===== verification/Dma.v ===== *)
(** * The general DMA driver: middleware/driver/general_dma/dma_driver.c

    Twelve channels of a DMA engine: a pool of channels with their users, the
    configuration registers of dma_ll.h and dma_hal.c, interrupts, and a memory
    copy over a channel.

    Modelled: every function of the driver on the master core (no slave core, no
    data cache, system control on), with the register layer below it.  The engine
    is a parameter, [DmaDevice]: starting a channel gives the new state of what is
    outside the configuration registers, and how many reads of the enable bit still
    find it set ([None]: all); it then works while the software looks, a step
    before each read of an enable bit that is set.  [DmaLaws] states what the engine
    has done with a copy from memory to memory when the bit is found clear - it says
    nothing of the memory before that - and what it does with its status register;
    it is all that the theorems in DmaOps.v use.  Interrupt handlers are traced by their identity; what they do
    is not modelled.  The log output is left out. *)
From S2P Require Import Prelude Bytes.
Local Open Scope Z_scope.

(** ** hal_dma_types.h and dma_struct.h *)
Inductive dma_dev_t :=
| DMA_DEV_DTCM | DMA_DEV_LA | DMA_DEV_HSSPI | DMA_DEV_AUDIO | DMA_DEV_SDIO | DMA_DEV_UART1
| DMA_DEV_UART2 | DMA_DEV_UART3 | DMA_DEV_I2S | DMA_DEV_GSPI0 | DMA_DEV_GSPI1 | DMA_DEV_GSPI2
| DMA_DEV_JPEG | DMA_DEV_PSRAM_VIDEO | DMA_DEV_PSRAM_AUDIO | DMA_DEV_USB | DMA_DEV_LCD_CMD
| DMA_DEV_LCD_DATA | DMA_DEV_MAX.

Record dma_port_config_t := mk_port {
  pdev : dma_dev_t; width : Z; addr_inc_en : Z; addr_loop_en : Z; start_addr : Z; end_addr : Z }.
Record dma_config_t := mk_dma_config {
  mode : Z; chan_prio : Z; src : dma_port_config_t; dst : dma_port_config_t }.

(** One entry of [config_group]; [ctrl] and [req_mux] are the words, their fields
    are read and written with [field] and [set_field]. *)
Record group := mk_group {
  ctrl : Z; dest_start_addr : Z; src_start_addr : Z; dest_loop_end_addr : Z;
  dest_loop_start_addr : Z; src_loop_end_addr : Z; src_loop_start_addr : Z; req_mux : Z }.
Definition zero_group : group := mk_group 0 0 0 0 0 0 0 0.

(** The registers software writes, the reads of each channel's enable bit that
    will still find it set, and the rest of the machine. *)
Record dma_hw (C : Type) := mk_hw {
  config_group : list group;
  src_pause_addr : list Z;
  dest_pause_addr : list Z;
  prio_mode : Z;
  busy : list (option nat);
  rest : C }.
Arguments mk_hw {C}.
Arguments config_group {C}.
Arguments src_pause_addr {C}.
Arguments dest_pause_addr {C}.
Arguments prio_mode {C}.
Arguments busy {C}.
Arguments rest {C}.

(** ** The engine *)
Class DmaDevice (C : Type) := {
  dev_start : nat → dma_hw C → C * option nat;
  dev_step : C → C;
  dev_int_status : C → Z;
  dev_write_int_status : Z → C → C;
  dev_remain_len : C → nat → Z;
  dev_src_rd_addr : C → nat → Z;
  dev_dest_wr_addr : C → nat → Z }.

(** A group that asks for one copy from memory to memory, both addresses
    incrementing, in words of 32 bits. *)
Definition copies (g : group) (s d n : Z) : Prop :=
  src_start_addr g = s ∧ dest_start_addr g = d ∧ field (ctrl g) 16 16 + 1 = n ∧
  field (ctrl g) 3 1 = 0 ∧ field (ctrl g) 4 2 = 2 ∧ field (ctrl g) 6 2 = 2 ∧
  field (ctrl g) 8 1 = 1 ∧ field (ctrl g) 9 1 = 1 ∧ field (ctrl g) 10 1 = 0 ∧ field (ctrl g) 11 1 = 0 ∧
  field (req_mux g) 0 5 = 0 ∧ field (req_mux g) 5 5 = 0.

(** [n] bytes at [s] and at [d], word by word, that do not overlap. *)
Definition copyable (s d n : Z) : Prop :=
  0 ≤ s ∧ 0 ≤ d ∧ s + n ≤ 2 ^ 32 ∧ d + n ≤ 2 ^ 32 ∧ s mod 4 = 0 ∧ d mod 4 = 0 ∧ n mod 4 = 0 ∧
  (s + n ≤ d ∨ d + n ≤ s).
Definition copied (m : Z → Z) (s d n : Z) : Z → Z :=
  λ x, if (d <=? x) && (x <? d + n) then m (s + (x - d)) else m x.

(** No other channel is enabled. *)
Definition others_idle {C} (id : nat) (h : dma_hw C) : Prop :=
  ∀ j g, j ≠ id → config_group h !! j = Some g → field (ctrl g) 0 1 = 0.

Class DmaLaws (C : Type) `{DmaDevice C} := {
  dev_mem : C → Z → Z;
  int_status_write : ∀ c v, dev_int_status (dev_write_int_status v c) = Z.land (dev_int_status c) (Z.lnot v);
  int_mem_write : ∀ c v x, dev_mem (dev_write_int_status v c) x = dev_mem c x;
  start_copy : ∀ h id g s d n, config_group h !! id = Some g → copies g s d n → copyable s d n →
    ∃ k, (dev_start id h).2 = Some k ∧
      (others_idle id h →
       ∀ x, dev_mem (Nat.iter (S k) dev_step (dev_start id h).1) x = copied (dev_mem (rest h)) s d n x) }.

Module Dma.

Definition SOC_DMA_CHAN_NUM_PER_UNIT : nat := 12.
Definition DMA_ID_MAX : nat := 12.
Definition DMA_CPU_MASTER : Z := 0.
Definition BK_ERR_DMA_ID : Z := -0x2100 - 1.
Definition BK_ERR_DMA_NOT_INIT : Z := -0x2100 - 2.
Definition BK_ERR_DMA_ID_NOT_INIT : Z := -0x2100 - 3.
Definition BK_ERR_DMA_INVALID_ADDR : Z := -0x2100 - 5.
Definition BK_ERR_DMA_HAL_INVALID_ADDR : Z := -0x2200 - 1.
Definition DMA_V_PRIO_MODE_ROUND_ROBIN : Z := 0.
(** [(u32)(-1)]: no user. *)
Definition NO_USER : Z := 2 ^ 32 - 1.

Record dma_chnl_pool_t := mk_pool { chnl_bitmap : Z; chnl_user : list Z }.

(** [hal_hw]: the hal's register pointer is set.  [gdma_int]: the interrupt of the
    engine is enabled in the system controller.  [calls]: handlers called by the
    interrupt routine, with their channel.  A handler is known by a number. *)
Record drv (C : Type) := mk_drv {
  hal_hw : bool;
  hw : dma_hw C;
  id_init_bits : Z;
  s_dma_finish_isr : list (option nat);
  s_dma_half_finish_isr : list (option nat);
  s_dma_driver_is_init : bool;
  s_dma_chnl_pool : dma_chnl_pool_t;
  isr_registered : bool;
  gdma_int : bool;
  calls : list (nat * nat) }.
Arguments mk_drv {C}.
Arguments hal_hw {C}.
Arguments hw {C}.
Arguments id_init_bits {C}.
Arguments s_dma_finish_isr {C}.
Arguments s_dma_half_finish_isr {C}.
Arguments s_dma_driver_is_init {C}.
Arguments s_dma_chnl_pool {C}.
Arguments isr_registered {C}.
Arguments gdma_int {C}.
Arguments calls {C}.

Section Dma.
Context {C : Type} `{DmaDevice C}.
Implicit Types (h : dma_hw C) (s : drv C).

(** ** State access *)
Definition set_group (i : nat) (g : group) h : dma_hw C :=
  mk_hw (<[i := g]> (config_group h)) (src_pause_addr h) (dest_pause_addr h) (prio_mode h) (busy h) (rest h).
Definition set_busy (i : nat) (n : option nat) h : dma_hw C :=
  mk_hw (config_group h) (src_pause_addr h) (dest_pause_addr h) (prio_mode h) (<[i := n]> (busy h)) (rest h).
Definition set_rest (c : C) h : dma_hw C :=
  mk_hw (config_group h) (src_pause_addr h) (dest_pause_addr h) (prio_mode h) (busy h) c.
Definition set_pause (src dst : list Z) h : dma_hw C :=
  mk_hw (config_group h) src dst (prio_mode h) (busy h) (rest h).
Definition set_prio (p : Z) h : dma_hw C :=
  mk_hw (config_group h) (src_pause_addr h) (dest_pause_addr h) p (busy h) (rest h).

Definition set_hw h s : drv C := mk_drv (hal_hw s) h (id_init_bits s) (s_dma_finish_isr s) (s_dma_half_finish_isr s) (s_dma_driver_is_init s) (s_dma_chnl_pool s) (isr_registered s) (gdma_int s) (calls s).
Definition set_hal b s : drv C := mk_drv b (hw s) (id_init_bits s) (s_dma_finish_isr s) (s_dma_half_finish_isr s) (s_dma_driver_is_init s) (s_dma_chnl_pool s) (isr_registered s) (gdma_int s) (calls s).
Definition set_bits b s : drv C := mk_drv (hal_hw s) (hw s) b (s_dma_finish_isr s) (s_dma_half_finish_isr s) (s_dma_driver_is_init s) (s_dma_chnl_pool s) (isr_registered s) (gdma_int s) (calls s).
Definition set_isrs fin half s : drv C := mk_drv (hal_hw s) (hw s) (id_init_bits s) fin half (s_dma_driver_is_init s) (s_dma_chnl_pool s) (isr_registered s) (gdma_int s) (calls s).
Definition set_init b s : drv C := mk_drv (hal_hw s) (hw s) (id_init_bits s) (s_dma_finish_isr s) (s_dma_half_finish_isr s) b (s_dma_chnl_pool s) (isr_registered s) (gdma_int s) (calls s).
Definition set_pool p s : drv C := mk_drv (hal_hw s) (hw s) (id_init_bits s) (s_dma_finish_isr s) (s_dma_half_finish_isr s) (s_dma_driver_is_init s) p (isr_registered s) (gdma_int s) (calls s).
Definition set_registered b s : drv C := mk_drv (hal_hw s) (hw s) (id_init_bits s) (s_dma_finish_isr s) (s_dma_half_finish_isr s) (s_dma_driver_is_init s) (s_dma_chnl_pool s) b (gdma_int s) (calls s).
Definition set_gdma_int b s : drv C := mk_drv (hal_hw s) (hw s) (id_init_bits s) (s_dma_finish_isr s) (s_dma_half_finish_isr s) (s_dma_driver_is_init s) (s_dma_chnl_pool s) (isr_registered s) b (calls s).
Definition call_isr (f id : nat) s : drv C := mk_drv (hal_hw s) (hw s) (id_init_bits s) (s_dma_finish_isr s) (s_dma_half_finish_isr s) (s_dma_driver_is_init s) (s_dma_chnl_pool s) (isr_registered s) (gdma_int s) (calls s ++ [(f, id)]).

(** Register access through [hal->hw]: a null pointer faults. *)
Definition get_hw {A} (f : dma_hw C → A) : M (drv C) A := λ s,
  if hal_hw s then Done (f (hw s), s) else Trap Fault.
Definition upd_hw (f : dma_hw C → dma_hw C) : M (drv C) unit := λ s,
  if hal_hw s then Done (tt, set_hw (f (hw s)) s) else Trap Fault.
(** [hw->config_group[id]]: an index outside the array faults. *)
Definition get_group (id : nat) : M (drv C) group :=
  let* l := get_hw config_group in
  match l !! id with Some g => ret g | None => trapM Fault end.
Definition upd_group (id : nat) (f : group → group) : M (drv C) unit :=
  let* g := get_group id in upd_hw (set_group id (f g)).
(** [hw->src_pause_addr[id]] and the like. *)
Definition in_range (id : nat) : M (drv C) unit :=
  if (id <? SOC_DMA_CHAN_NUM_PER_UNIT)%nat then ret tt else trapM Fault.

Definition g_ctrl (off n v : Z) (g : group) : group :=
  mk_group (set_field (ctrl g) off n v) (dest_start_addr g) (src_start_addr g) (dest_loop_end_addr g)
    (dest_loop_start_addr g) (src_loop_end_addr g) (src_loop_start_addr g) (req_mux g).
Definition g_ctrl_v (v : Z) (g : group) : group :=
  mk_group v (dest_start_addr g) (src_start_addr g) (dest_loop_end_addr g)
    (dest_loop_start_addr g) (src_loop_end_addr g) (src_loop_start_addr g) (req_mux g).
Definition g_mux (off n v : Z) (g : group) : group :=
  mk_group (ctrl g) (dest_start_addr g) (src_start_addr g) (dest_loop_end_addr g)
    (dest_loop_start_addr g) (src_loop_end_addr g) (src_loop_start_addr g) (set_field (req_mux g) off n v).
Definition g_dest (a : Z) (g : group) : group :=
  mk_group (ctrl g) a (src_start_addr g) (dest_loop_end_addr g)
    (dest_loop_start_addr g) (src_loop_end_addr g) (src_loop_start_addr g) (req_mux g).
Definition g_src (a : Z) (g : group) : group :=
  mk_group (ctrl g) (dest_start_addr g) a (dest_loop_end_addr g)
    (dest_loop_start_addr g) (src_loop_end_addr g) (src_loop_start_addr g) (req_mux g).
Definition g_dest_loop (a e : Z) (g : group) : group :=
  mk_group (ctrl g) (dest_start_addr g) (src_start_addr g) e a (src_loop_end_addr g) (src_loop_start_addr g) (req_mux g).
Definition g_src_loop (a e : Z) (g : group) : group :=
  mk_group (ctrl g) (dest_start_addr g) (src_start_addr g) (dest_loop_end_addr g) (dest_loop_start_addr g) e a (req_mux g).

(** ** The register layer, dma_ll.h *)
Fixpoint zero_groups (n : nat) : M (drv C) unit :=
  match n with O => ret tt | S n' => zero_groups n' ;;; upd_group n' (λ _, zero_group) end.
Definition write_int_status (v : Z) : M (drv C) unit :=
  upd_hw (λ h, set_rest (dev_write_int_status v (rest h)) h).

Definition dma_ll_init : M (drv C) unit :=
  zero_groups SOC_DMA_CHAN_NUM_PER_UNIT ;;; upd_hw (set_prio 0) ;;; write_int_status 0.

Definition dma_ll_dev_to_req_mux (d : dma_dev_t) : Z :=
  match d with
  | DMA_DEV_DTCM => 0x0 | DMA_DEV_UART1 => 0x1 | DMA_DEV_GSPI0 => 0x2 | DMA_DEV_SDIO => 0x3
  | DMA_DEV_UART2 => 0x4 | DMA_DEV_UART3 => 0x5 | DMA_DEV_GSPI1 => 0x6 | DMA_DEV_USB => 0x7
  | DMA_DEV_AUDIO => 0x8 | DMA_DEV_I2S => 0x9 | DMA_DEV_LCD_CMD => 0xa | DMA_DEV_LCD_DATA => 0xb
  | DMA_DEV_JPEG => 0xa | _ => 0
  end.

(** Writing 1 to the enable bit starts the channel. *)
Definition dma_ll_enable (id : nat) : M (drv C) unit :=
  upd_group id (g_ctrl 0 1 1) ;;;
  upd_hw (λ h, let r := dev_start id h in set_rest r.1 (set_busy id r.2 h)).
Definition dma_ll_disable (id : nat) : M (drv C) unit := upd_group id (g_ctrl 0 1 0).

(** The engine works until the read and clears the bit when the transfer is over. *)
Definition dma_ll_get_enable_status (id : nat) : M (drv C) Z :=
  let* g := get_group id in
  if field (ctrl g) 0 1 =? 0 then ret 0
  else
    upd_hw (λ h, set_rest (dev_step (rest h)) h) ;;;
    let* b := get_hw (λ h, busy h !! id) in
    match b with
    | Some (Some O) => upd_group id (g_ctrl 0 1 0) ;;; ret 0
    | Some (Some (S n)) => upd_hw (set_busy id (Some n)) ;;; ret 1
    | _ => ret 1
    end.
Definition dma_ll_is_id_started (id : nat) : M (drv C) bool :=
  let* e := dma_ll_get_enable_status id in ret (e =? 1).

Definition dma_ll_enable_finish_interrupt (id : nat) := upd_group id (g_ctrl 1 1 1).
Definition dma_ll_disable_finish_interrupt (id : nat) := upd_group id (g_ctrl 1 1 0).
Definition dma_ll_enable_half_finish_interrupt (id : nat) := upd_group id (g_ctrl 2 1 1).
Definition dma_ll_disable_half_finish_interrupt (id : nat) := upd_group id (g_ctrl 2 1 0).
Definition dma_ll_clear_finish_interrupt_status (id : nat) : M (drv C) unit :=
  write_int_status (u32 (BIT (Z.of_nat id))).
Definition dma_ll_clear_half_finish_interrupt_status (id : nat) : M (drv C) unit :=
  write_int_status (u32 (Z.shiftl (BIT (Z.of_nat id)) 16)).
Definition dma_ll_clear_interrupt_status (id : nat) : M (drv C) unit :=
  dma_ll_clear_half_finish_interrupt_status id ;;; dma_ll_clear_finish_interrupt_status id.
Definition dma_ll_is_finish_interrupt_triggered (id : nat) : M (drv C) bool :=
  let* v := get_hw (λ h, dev_int_status (rest h)) in
  ret (negb (Z.land (field v 0 12) (BIT (Z.of_nat id)) =? 0)).
Definition dma_ll_is_half_finish_interrupt_triggered (id : nat) : M (drv C) bool :=
  let* v := get_hw (λ h, dev_int_status (rest h)) in
  ret (negb (Z.land (field v 16 12) (BIT (Z.of_nat id)) =? 0)).

Definition dma_ll_reset_config_to_default (id : nat) := upd_group id (λ _, zero_group).
Definition dma_ll_set_work_mode (id : nat) (mode : Z) := upd_group id (g_ctrl 3 1 (Z.land mode 0x01)).
Definition dma_ll_set_chan_prio (id : nat) (p : Z) := upd_group id (g_ctrl 12 3 (Z.land p 0x07)).
Definition dma_ll_set_dest_data_width (id : nat) (w : Z) := upd_group id (g_ctrl 6 2 (Z.land w 0x03)).
Definition dma_ll_set_src_data_width (id : nat) (w : Z) := upd_group id (g_ctrl 4 2 (Z.land w 0x03)).
Definition dma_ll_set_dest_req_mux (id : nat) (d : dma_dev_t) := upd_group id (g_mux 5 5 (Z.land (dma_ll_dev_to_req_mux d) 0xf)).
Definition dma_ll_set_src_req_mux (id : nat) (d : dma_dev_t) := upd_group id (g_mux 0 5 (Z.land (dma_ll_dev_to_req_mux d) 0xf)).
Definition dma_ll_enable_src_addr_inc (id : nat) := upd_group id (g_ctrl 8 1 1).
Definition dma_ll_disable_src_addr_inc (id : nat) := upd_group id (g_ctrl 8 1 0).
Definition dma_ll_enable_dest_addr_inc (id : nat) := upd_group id (g_ctrl 9 1 1).
Definition dma_ll_disable_dest_addr_inc (id : nat) := upd_group id (g_ctrl 9 1 0).
Definition dma_ll_enable_src_addr_loop (id : nat) := upd_group id (g_ctrl 10 1 1).
Definition dma_ll_disable_src_addr_loop (id : nat) := upd_group id (g_ctrl 10 1 0).
Definition dma_ll_enable_dest_addr_loop (id : nat) := upd_group id (g_ctrl 11 1 1).
Definition dma_ll_disable_dest_addr_loop (id : nat) := upd_group id (g_ctrl 11 1 0).
Definition dma_ll_set_dest_start_addr (id : nat) (a : Z) := upd_group id (g_dest (u32 a)).
Definition dma_ll_set_src_start_addr (id : nat) (a : Z) := upd_group id (g_src (u32 a)).
Definition dma_ll_set_dest_loop_addr (id : nat) (a e : Z) := upd_group id (g_dest_loop (u32 a) (u32 e)).
Definition dma_ll_set_src_loop_addr (id : nat) (a e : Z) := upd_group id (g_src_loop (u32 a) (u32 e)).
Definition dma_ll_set_transfer_len (id : nat) (tran_len : Z) : M (drv C) unit :=
  upd_group id (λ g, g_ctrl_v (Z.land (ctrl g) 0xFFFF) g) ;;;
  upd_group id (λ g, g_ctrl_v (Z.lor (ctrl g) (u32 (Z.shiftl (u32 (tran_len - 1)) 16))) g).
Definition dma_ll_get_remain_len (id : nat) : M (drv C) Z :=
  in_range id ;;; get_hw (λ h, dev_remain_len (rest h) id mod 2 ^ 17).
Definition dma_ll_set_prio_mode (p : Z) : M (drv C) unit := upd_hw (set_prio (Z.land p 1)).
Definition dma_ll_set_src_pause_addr (id : nat) (a : Z) : M (drv C) unit :=
  in_range id ;;; upd_hw (λ h, set_pause (<[id := u32 a]> (src_pause_addr h)) (dest_pause_addr h) h).
Definition dma_ll_set_dest_pause_addr (id : nat) (a : Z) : M (drv C) unit :=
  in_range id ;;; upd_hw (λ h, set_pause (src_pause_addr h) (<[id := u32 a]> (dest_pause_addr h)) h).
Definition dma_ll_get_src_read_addr (id : nat) : M (drv C) Z :=
  in_range id ;;; get_hw (λ h, u32 (dev_src_rd_addr (rest h) id)).
Definition dma_ll_get_dest_write_addr (id : nat) : M (drv C) Z :=
  in_range id ;;; get_hw (λ h, u32 (dev_dest_wr_addr (rest h) id)).

(** ** The hal, dma_hal.c *)
Definition dma_hal_init : M (drv C) Z :=
  modify (set_hal true) ;;; dma_ll_init ;;; dma_ll_set_prio_mode DMA_V_PRIO_MODE_ROUND_ROBIN ;;; ret BK_OK.

Definition invalid_addr (p : dma_port_config_t) : bool := (0 <? end_addr p) && (end_addr p <? start_addr p).
Definition enabled (v : Z) : bool := negb (v =? 0).

Definition dma_hal_init_dma (id : nat) (config : dma_config_t) : M (drv C) Z :=
  if invalid_addr (src config) then ret BK_ERR_DMA_HAL_INVALID_ADDR
  else if invalid_addr (dst config) then ret BK_ERR_DMA_HAL_INVALID_ADDR
  else
    dma_ll_set_work_mode id (mode config) ;;;
    dma_ll_set_chan_prio id (chan_prio config) ;;;
    dma_ll_set_dest_data_width id (width (dst config)) ;;;
    dma_ll_set_src_data_width id (width (src config)) ;;;
    dma_ll_set_dest_req_mux id (pdev (dst config)) ;;;
    dma_ll_set_src_req_mux id (pdev (src config)) ;;;
    dma_ll_set_src_start_addr id (start_addr (src config)) ;;;
    dma_ll_set_src_loop_addr id (start_addr (src config)) (end_addr (src config)) ;;;
    dma_ll_set_dest_start_addr id (start_addr (dst config)) ;;;
    dma_ll_set_dest_loop_addr id (start_addr (dst config)) (end_addr (dst config)) ;;;
    (if enabled (addr_inc_en (src config)) then dma_ll_enable_src_addr_inc id else dma_ll_disable_src_addr_inc id) ;;;
    (if enabled (addr_loop_en (src config)) then dma_ll_enable_src_addr_loop id else dma_ll_disable_src_addr_loop id) ;;;
    (if enabled (addr_inc_en (dst config)) then dma_ll_enable_dest_addr_inc id else dma_ll_disable_dest_addr_inc id) ;;;
    (if enabled (addr_loop_en (dst config)) then dma_ll_enable_dest_addr_loop id else dma_ll_disable_dest_addr_loop id) ;;;
    ret BK_OK.

Definition dma_hal_start_common (id : nat) : M (drv C) Z := dma_ll_enable id ;;; ret BK_OK.
Definition dma_hal_stop_common (id : nat) : M (drv C) Z :=
  dma_ll_clear_interrupt_status id ;;; dma_ll_disable id ;;; ret BK_OK.

(** ** The driver: checks *)
Definition return_on_not_init (e : Z) (k : M (drv C) Z) : M (drv C) Z :=
  let* i := gets s_dma_driver_is_init in if negb i then ret e else k.
Definition return_on_invalid_id (id : nat) (e : Z) (k : M (drv C) Z) : M (drv C) Z :=
  if (SOC_DMA_CHAN_NUM_PER_UNIT <=? id)%nat then ret e else k.
(** [BIT(id)] of an id that is no shift distance of a word is not defined. *)
Definition return_on_id_not_init (id : nat) (e : Z) (k : M (drv C) Z) : M (drv C) Z :=
  if (32 <=? id)%nat then trapM Fault
  else let* b := gets id_init_bits in if negb (Z.testbit b (Z.of_nat id)) then ret e else k.
Definition return_on_invalid_addr (p : dma_port_config_t) (k : M (drv C) Z) : M (drv C) Z :=
  if invalid_addr p then ret BK_ERR_DMA_INVALID_ADDR else k.

(** A setter of one channel's registers: most of the driver's calls. *)
Definition on_channel (id : nat) (op : M (drv C) unit) : M (drv C) Z :=
  return_on_not_init BK_ERR_DMA_NOT_INIT (return_on_invalid_id id BK_ERR_DMA_ID (op ;;; ret BK_OK)).
(** The same for a call that returns a register as [uint32_t]. *)
Definition read_channel (id : nat) (op : M (drv C) Z) : M (drv C) Z :=
  return_on_not_init (u32 BK_ERR_DMA_NOT_INIT) (return_on_invalid_id id (u32 BK_ERR_DMA_ID) op).

Definition dma_id_init_common (id : nat) : M (drv C) unit :=
  modify (λ s, set_bits (Z.lor (id_init_bits s) (BIT (Z.of_nat id))) s).
Definition dma_id_deinit_common (id : nat) : M (drv C) unit :=
  modify (λ s, set_bits (Z.land (id_init_bits s) (Z.lnot (BIT (Z.of_nat id)))) s) ;;;
  dma_hal_stop_common id ;;;
  dma_ll_reset_config_to_default id.
Definition dma_id_enable_interrupt_common : M (drv C) unit := modify (set_gdma_int true).

(** ** The channel pool *)
Fixpoint first_free (bitmap : Z) (n chnl_id : nat) : nat :=
  match n with
  | O => chnl_id
  | S n' => if Z.land bitmap (BIT (Z.of_nat chnl_id)) =? 0 then chnl_id else first_free bitmap n' (S chnl_id)
  end.

Definition dma_chnl_alloc (user_id : Z) (p : dma_chnl_pool_t) : nat * dma_chnl_pool_t :=
  let chnl_id := first_free (chnl_bitmap p) DMA_ID_MAX 0 in
  if (chnl_id <? DMA_ID_MAX)%nat
  then (chnl_id, mk_pool (Z.lor (chnl_bitmap p) (BIT (Z.of_nat chnl_id))) (<[chnl_id := u32 user_id]> (chnl_user p)))
  else (chnl_id, p).

Definition dma_chnl_free (user_id : Z) (chnl_id : nat) (p : dma_chnl_pool_t) : Z * dma_chnl_pool_t :=
  if (DMA_ID_MAX <=? chnl_id)%nat then (BK_ERR_DMA_ID, p)
  else if negb (nth chnl_id (chnl_user p) 0 =? u32 user_id) then (BK_ERR_PARAM, p)
  else (BK_OK, mk_pool (Z.land (chnl_bitmap p) (Z.lnot (BIT (Z.of_nat chnl_id)))) (<[chnl_id := NO_USER]> (chnl_user p))).

Definition dma_chnl_user (chnl_id : nat) (p : dma_chnl_pool_t) : Z :=
  if (DMA_ID_MAX <=? chnl_id)%nat then NO_USER else nth chnl_id (chnl_user p) 0.

Definition empty_pool : dma_chnl_pool_t := mk_pool 0 (replicate DMA_ID_MAX NO_USER).

(** ** Initialisation *)
Definition no_isrs : list (option nat) := replicate SOC_DMA_CHAN_NUM_PER_UNIT None.

Definition bk_dma_driver_init : M (drv C) Z :=
  let* i := gets s_dma_driver_is_init in
  if i then ret BK_OK
  else
    modify (set_pool empty_pool) ;;;
    modify (λ s, set_hal false (set_bits 0 s)) ;;;
    modify (set_isrs no_isrs no_isrs) ;;;
    modify (set_registered true) ;;;
    dma_hal_init ;;;
    modify (set_init true) ;;;
    ret BK_OK.

Fixpoint deinit_ids (n id : nat) : M (drv C) unit :=
  match n with O => ret tt | S n' => dma_id_deinit_common id ;;; deinit_ids n' (S id) end.

Definition bk_dma_driver_deinit : M (drv C) Z :=
  let* i := gets s_dma_driver_is_init in
  if negb i then ret BK_OK
  else
    deinit_ids SOC_DMA_CHAN_NUM_PER_UNIT 0 ;;;
    modify (set_gdma_int false) ;;;
    modify (set_init false) ;;;
    ret BK_OK.

Definition bk_dma_alloc (user_id : Z) : M (drv C) nat :=
  let* i := gets s_dma_driver_is_init in
  if negb i then ret DMA_ID_MAX
  else
    let dma_user := Z.shiftl DMA_CPU_MASTER 16 + u16 user_id in
    let* p := gets s_dma_chnl_pool in
    let r := dma_chnl_alloc dma_user p in
    modify (set_pool r.2) ;;;
    ret r.1.

Definition bk_dma_free (user_id : Z) (chnl_id : nat) : M (drv C) Z :=
  return_on_not_init BK_ERR_DMA_NOT_INIT
   (let dma_user := Z.shiftl DMA_CPU_MASTER 16 + u16 user_id in
    let* p := gets s_dma_chnl_pool in
    let r := dma_chnl_free dma_user chnl_id p in
    modify (set_pool r.2) ;;;
    ret r.1).

Definition bk_dma_user (chnl_id : nat) : M (drv C) Z :=
  return_on_not_init NO_USER (let* p := gets s_dma_chnl_pool in ret (dma_chnl_user chnl_id p)).

(** ** Channel calls *)
(** [config] is [None] for a null pointer. *)
Definition bk_dma_init (id : nat) (config : option dma_config_t) : M (drv C) Z :=
  return_on_not_init BK_ERR_DMA_NOT_INIT
   (match config with
    | None => ret BK_ERR_NULL_PARAM
    | Some config =>
        return_on_invalid_id id BK_ERR_DMA_ID
         (return_on_invalid_addr (src config)
           (return_on_invalid_addr (dst config)
             (let* _ := dma_ll_is_id_started id in
              dma_id_init_common id ;;;
              dma_hal_init_dma id config)))
    end).

Definition bk_dma_register_isr (id : nat) (half_finish_isr finish_isr : option nat) : M (drv C) Z :=
  on_channel id (modify (λ s, set_isrs (<[id := finish_isr]> (s_dma_finish_isr s)) (<[id := half_finish_isr]> (s_dma_half_finish_isr s)) s)).

Definition bk_dma_deinit (id : nat) : M (drv C) Z :=
  return_on_invalid_id id BK_ERR_DMA_ID
   (dma_id_deinit_common id ;;; let* _ := bk_dma_register_isr id None None in ret BK_OK).

Definition bk_dma_start (id : nat) : M (drv C) Z :=
  return_on_not_init BK_ERR_DMA_NOT_INIT
   (return_on_id_not_init id BK_ERR_DMA_ID_NOT_INIT (dma_hal_start_common id ;;; ret BK_OK)).
Definition bk_dma_stop (id : nat) : M (drv C) Z :=
  return_on_not_init BK_ERR_DMA_NOT_INIT
   (return_on_id_not_init id BK_ERR_DMA_ID_NOT_INIT (dma_hal_stop_common id ;;; ret BK_OK)).
Definition bk_dma_get_enable_status (id : nat) : M (drv C) Z :=
  return_on_not_init (u32 BK_ERR_DMA_NOT_INIT)
   (return_on_id_not_init id (u32 BK_ERR_DMA_ID_NOT_INIT) (dma_ll_get_enable_status id)).

Definition bk_dma_write (id : nat) (data size : Z) : M (drv C) Z :=
  return_on_not_init BK_ERR_DMA_NOT_INIT
   (return_on_id_not_init id BK_ERR_DMA_ID_NOT_INIT
     (dma_ll_set_src_start_addr id data ;;;
      dma_ll_set_src_loop_addr id data (data + size) ;;;
      dma_ll_set_transfer_len id size ;;;
      dma_hal_start_common id ;;;
      ret BK_OK)).
Definition bk_dma_read (id : nat) (data size : Z) : M (drv C) Z :=
  return_on_not_init BK_ERR_DMA_NOT_INIT
   (return_on_id_not_init id BK_ERR_DMA_ID_NOT_INIT
     (dma_ll_set_dest_start_addr id data ;;;
      dma_ll_set_dest_loop_addr id data (data + size) ;;;
      dma_ll_set_transfer_len id size ;;;
      dma_hal_start_common id ;;;
      ret BK_OK)).

Definition bk_dma_enable_finish_interrupt (id : nat) : M (drv C) Z :=
  return_on_id_not_init id BK_ERR_DMA_ID_NOT_INIT (return_on_invalid_id id BK_ERR_DMA_ID
   (dma_id_enable_interrupt_common ;;; dma_ll_enable_finish_interrupt id ;;; ret BK_OK)).
Definition bk_dma_disable_finish_interrupt (id : nat) : M (drv C) Z :=
  return_on_id_not_init id BK_ERR_DMA_ID_NOT_INIT (return_on_invalid_id id BK_ERR_DMA_ID
   (dma_ll_disable_finish_interrupt id ;;; dma_ll_clear_finish_interrupt_status id ;;; ret BK_OK)).
Definition bk_dma_enable_half_finish_interrupt (id : nat) : M (drv C) Z :=
  return_on_id_not_init id BK_ERR_DMA_ID_NOT_INIT (return_on_invalid_id id BK_ERR_DMA_ID
   (dma_id_enable_interrupt_common ;;; dma_ll_enable_half_finish_interrupt id ;;; ret BK_OK)).
Definition bk_dma_disable_half_finish_interrupt (id : nat) : M (drv C) Z :=
  return_on_id_not_init id BK_ERR_DMA_ID_NOT_INIT (return_on_invalid_id id BK_ERR_DMA_ID
   (dma_ll_disable_half_finish_interrupt id ;;; dma_ll_clear_half_finish_interrupt_status id ;;; ret BK_OK)).

Definition bk_dma_set_transfer_len (id : nat) (tran_len : Z) := on_channel id (dma_ll_set_transfer_len id tran_len).
Definition bk_dma_set_src_addr (id : nat) (a e : Z) :=
  on_channel id (dma_ll_set_src_start_addr id a ;;; dma_ll_set_src_loop_addr id a e).
Definition bk_dma_set_src_start_addr (id : nat) (a : Z) := on_channel id (dma_ll_set_src_start_addr id a).
Definition bk_dma_set_dest_addr (id : nat) (a e : Z) :=
  on_channel id (dma_ll_set_dest_start_addr id a ;;; dma_ll_set_dest_loop_addr id a e).
Definition bk_dma_set_dest_start_addr (id : nat) (a : Z) := on_channel id (dma_ll_set_dest_start_addr id a).
Definition bk_dma_enable_src_addr_increase (id : nat) := on_channel id (dma_ll_enable_src_addr_inc id).
Definition bk_dma_disable_src_addr_increase (id : nat) := on_channel id (dma_ll_disable_src_addr_inc id).
Definition bk_dma_enable_src_addr_loop (id : nat) := on_channel id (dma_ll_enable_src_addr_loop id).
Definition bk_dma_disable_src_addr_loop (id : nat) := on_channel id (dma_ll_disable_src_addr_loop id).
Definition bk_dma_enable_dest_addr_increase (id : nat) := on_channel id (dma_ll_enable_dest_addr_inc id).
Definition bk_dma_disable_dest_addr_increase (id : nat) := on_channel id (dma_ll_disable_dest_addr_inc id).
Definition bk_dma_enable_dest_addr_loop (id : nat) := on_channel id (dma_ll_enable_dest_addr_loop id).
Definition bk_dma_disable_dest_addr_loop (id : nat) := on_channel id (dma_ll_disable_dest_addr_loop id).
Definition bk_dma_get_remain_len (id : nat) : M (drv C) Z :=
  return_on_not_init (u32 BK_ERR_DMA_NOT_INIT)
   (return_on_id_not_init id (u32 BK_ERR_DMA_ID_NOT_INIT) (dma_ll_get_remain_len id)).
Definition dma_set_src_pause_addr (id : nat) (a : Z) := on_channel id (dma_ll_set_src_pause_addr id a).
Definition dma_set_dst_pause_addr (id : nat) (a : Z) := on_channel id (dma_ll_set_dest_pause_addr id a).
Definition dma_get_src_read_addr (id : nat) := read_channel id (dma_ll_get_src_read_addr id).
Definition dma_get_dest_write_addr (id : nat) := read_channel id (dma_ll_get_dest_write_addr id).
Definition bk_dma_set_src_data_width (id : nat) (w : Z) := on_channel id (dma_ll_set_src_data_width id w).
Definition bk_dma_set_dest_data_width (id : nat) (w : Z) := on_channel id (dma_ll_set_dest_data_width id w).

(** ** Copying memory *)
Definition memcpy_config (out in_ len : Z) : dma_config_t :=
  mk_dma_config 0 0 (mk_port DMA_DEV_DTCM 2 1 0 (u32 in_) (u32 (in_ + len)))
                    (mk_port DMA_DEV_DTCM 2 1 0 (u32 out) (u32 (out + len))).

(** [BK_WHILE(dma_hal_get_enable_status(...))]: one read more than the engine is busy. *)
Fixpoint wait_loop (fuel id : nat) : M (drv C) unit :=
  match fuel with
  | O => trapM Hang
  | S fuel' => let* e := dma_ll_get_enable_status id in if e =? 0 then ret tt else wait_loop fuel' id
  end.
Definition wait_done (id : nat) : M (drv C) unit := λ s,
  wait_loop (S (match busy (hw s) !! id with Some (Some n) => n | _ => 0%nat end)) id s.

Definition dma_memcpy_by_chnl (out in_ len : Z) (cpy_chnl : nat) : M (drv C) Z :=
  return_on_not_init BK_ERR_DMA_NOT_INIT (return_on_invalid_id cpy_chnl BK_ERR_DMA_ID
   (let* _ := bk_dma_init cpy_chnl (Some (memcpy_config out in_ len)) in
    dma_ll_set_transfer_len cpy_chnl len ;;;
    dma_hal_start_common cpy_chnl ;;;
    wait_done cpy_chnl ;;;
    ret BK_OK)).

(** [bk_dma_alloc(DMA_DEV_DTCM)]: the user is number 0. *)
Definition dma_memcpy (out in_ len : Z) : M (drv C) Z :=
  return_on_not_init BK_ERR_DMA_NOT_INIT
   (let* cpy_chnl := bk_dma_alloc 0 in
    return_on_invalid_id cpy_chnl BK_ERR_DMA_ID
     (let* r := dma_memcpy_by_chnl out in_ len cpy_chnl in
      let* _ := bk_dma_free 0 cpy_chnl in
      ret r)).

(** ** The interrupt routine *)
Definition isr_half (id : nat) : M (drv C) unit :=
  let* t := dma_ll_is_half_finish_interrupt_triggered id in
  let* f := gets (λ s, nth id (s_dma_half_finish_isr s) None) in
  match t, f with
  | true, Some f => dma_ll_clear_half_finish_interrupt_status id ;;; modify (call_isr f id)
  | _, _ => ret tt
  end.
Definition isr_finish (id : nat) : M (drv C) unit :=
  let* t := dma_ll_is_finish_interrupt_triggered id in
  let* f := gets (λ s, nth id (s_dma_finish_isr s) None) in
  match t, f with
  | true, Some f => dma_ll_clear_finish_interrupt_status id ;;; modify (call_isr f id)
  | _, _ => ret tt
  end.
Fixpoint isr_loop (n id : nat) : M (drv C) unit :=
  match n with O => ret tt | S n' => isr_half id ;;; isr_finish id ;;; isr_loop n' (S id) end.
Definition dma_isr : M (drv C) unit := isr_loop SOC_DMA_CHAN_NUM_PER_UNIT 0.

End Dma.
End Dma.
