(* ===== verification/DmaOps.v ===== *)
(** * The general DMA driver on an engine that obeys the laws

    The effect of the register layer on one channel, the channel pool as a finite
    map, and the theorems about Dma.v: exclusive channels, configuration, memory
    copies, the interrupt routine, and the frame of every call. *)
From S2P Require Import Prelude Bytes Dma.
Import Dma.
Local Open Scope Z_scope.

Module DmaOps.

Section Ops.
Context {C : Type} `{DmaDevice C}.
Implicit Types (s : drv C) (g : group) (b : option nat) (c : C) (id : nat).

(** The driver with group, busy count and device replaced: what the calls on
    channel [id] change. *)
Definition put id g b c s : drv C :=
  set_hw (set_rest c (set_busy id b (set_group id g (hw s)))) s.

Definition ready s : Prop :=
  hal_hw s = true ∧ length (config_group (hw s)) = SOC_DMA_CHAN_NUM_PER_UNIT ∧
  length (busy (hw s)) = SOC_DMA_CHAN_NUM_PER_UNIT.

Lemma put_put id g b c g' b' c' s : put id g' b' c' (put id g b c s) = put id g' b' c' s.
Proof. unfold put, set_hw, set_group, set_busy, set_rest. cbn. by rewrite !list_insert_insert_eq. Qed.

Lemma put_self id g b s : config_group (hw s) !! id = Some g → busy (hw s) !! id = Some b →
  s = put id g b (rest (hw s)) s.
Proof.
  intros G B. unfold put, set_hw, set_group, set_busy, set_rest. cbn.
  rewrite (list_insert_id _ _ _ G), (list_insert_id _ _ _ B). by destruct s as [? [] ? ? ? ? ? ? ? ?].
Qed.

Lemma ready_chan id s : ready s → (id < 12)%nat → ∃ g b,
  config_group (hw s) !! id = Some g ∧ busy (hw s) !! id = Some b ∧ s = put id g b (rest (hw s)) s.
Proof.
  intros (_ & Lg & Lb) Hi. destruct (lookup_lt_is_Some_2 (config_group (hw s)) id) as [g G]; [by rewrite Lg|].
  destruct (lookup_lt_is_Some_2 (busy (hw s)) id) as [b B]; [by rewrite Lb|].
  exists g, b. split_and!; [done|done|by apply put_self].
Qed.

Lemma ready_put id g b c s : ready s → ready (put id g b c s).
Proof. intros (? & ? & ?). unfold ready, put. cbn. rewrite !length_insert. done. Qed.

Lemma put_group id g b c s : ready s → (id < 12)%nat → config_group (hw (put id g b c s)) !! id = Some g.
Proof. intros (_ & Lg & _) Hi. unfold put. cbn. apply list_lookup_insert_eq. by rewrite Lg. Qed.
Lemma put_busy id g b c s : ready s → (id < 12)%nat → busy (hw (put id g b c s)) !! id = Some b.
Proof. intros (_ & _ & Lb) Hi. unfold put. cbn. apply list_lookup_insert_eq. by rewrite Lb. Qed.

(** [gop id m f]: on a ready driver [m] replaces the group of channel [id] by its
    image under [f], and nothing else. *)
Definition gop id (m : M (drv C) unit) (f : group → group) : Prop :=
  ∀ g b c s, ready s → (id < 12)%nat → m (put id g b c s) = Done (tt, put id (f g) b c s).

Lemma get_group_put id g b c s : ready s → (id < 12)%nat →
  get_group id (put id g b c s) = Done (g, put id g b c s).
Proof.
  intros R Hi. unfold get_group, get_hw, bind. destruct R as (Hh & R). cbn [put set_hw hal_hw]. rewrite Hh.
  by rewrite (put_group id g b c s (conj Hh R) Hi).
Qed.

Lemma gop_upd id f : gop id (upd_group id f) f.
Proof.
  intros g b c s R Hi. unfold upd_group. rewrite (bind_done _ _ _ _ _ (get_group_put id g b c s R Hi)).
  unfold upd_hw. destruct R as (Hh & _). cbn [put set_hw hal_hw]. rewrite Hh.
  unfold put, set_hw, set_group, set_busy, set_rest. cbn. by rewrite list_insert_insert_eq.
Qed.

Lemma gop_bind id m k f f' : gop id m f → gop id k f' → gop id (m ;;; k) (λ g, f' (f g)).
Proof. intros P Q g b c s R Hi. rewrite (bind_done _ _ _ _ _ (P g b c s R Hi)). by apply Q. Qed.

Lemma gop_run {A} id m f (k : M (drv C) A) g b c s : gop id m f → ready s → (id < 12)%nat →
  (m ;;; k) (put id g b c s) = k (put id (f g) b c s).
Proof. intros P R Hi. by rewrite (bind_done _ _ _ _ _ (P g b c s R Hi)). Qed.

Lemma gop_if id (v : bool) m k f f' : gop id m f → gop id k f' → gop id (if v then m else k) (if v then f else f').
Proof. by destruct v. Qed.
End Ops.
#[export] Hint Resolve gop_upd gop_bind gop_if : bk.

(** ** Configuration of a channel *)
Definition on_off (v : Z) : Z := if enabled v then 1 else 0.

(** The registers after [dma_hal_init_dma]: the group that the configuration
    describes, with the interrupt bits and the length as before. *)
Record configured (cfg : dma_config_t) (g g' : group) : Prop := {
  cf_kept : field (ctrl g') 1 2 = field (ctrl g) 1 2 ∧ field (ctrl g') 15 17 = field (ctrl g) 15 17;
  cf_mode : field (ctrl g') 3 1 = Z.land (mode cfg) 1;
  cf_widths : field (ctrl g') 4 2 = Z.land (width (src cfg)) 3 ∧ field (ctrl g') 6 2 = Z.land (width (dst cfg)) 3;
  cf_inc : field (ctrl g') 8 1 = on_off (addr_inc_en (src cfg)) ∧ field (ctrl g') 9 1 = on_off (addr_inc_en (dst cfg));
  cf_loop : field (ctrl g') 10 1 = on_off (addr_loop_en (src cfg)) ∧ field (ctrl g') 11 1 = on_off (addr_loop_en (dst cfg));
  cf_prio : field (ctrl g') 12 3 = Z.land (chan_prio cfg) 7;
  cf_mux : field (req_mux g') 0 5 = dma_ll_dev_to_req_mux (pdev (src cfg)) ∧
           field (req_mux g') 5 5 = dma_ll_dev_to_req_mux (pdev (dst cfg)) ∧
           field (req_mux g') 10 22 = field (req_mux g) 10 22;
  cf_addr : src_start_addr g' = u32 (start_addr (src cfg)) ∧ src_loop_start_addr g' = u32 (start_addr (src cfg)) ∧
            src_loop_end_addr g' = u32 (end_addr (src cfg)) ∧
            dest_start_addr g' = u32 (start_addr (dst cfg)) ∧ dest_loop_start_addr g' = u32 (start_addr (dst cfg)) ∧
            dest_loop_end_addr g' = u32 (end_addr (dst cfg)) }.

Definition config_image (cfg : dma_config_t) (g : group) : group :=
  let c := ctrl g in
  let c := set_field c 3 1 (Z.land (mode cfg) 1) in
  let c := set_field c 12 3 (Z.land (chan_prio cfg) 7) in
  let c := set_field c 6 2 (Z.land (width (dst cfg)) 3) in
  let c := set_field c 4 2 (Z.land (width (src cfg)) 3) in
  let c := set_field c 8 1 (on_off (addr_inc_en (src cfg))) in
  let c := set_field c 10 1 (on_off (addr_loop_en (src cfg))) in
  let c := set_field c 9 1 (on_off (addr_inc_en (dst cfg))) in
  let c := set_field c 11 1 (on_off (addr_loop_en (dst cfg))) in
  let m := set_field (req_mux g) 5 5 (Z.land (dma_ll_dev_to_req_mux (pdev (dst cfg))) 0xf) in
  let m := set_field m 0 5 (Z.land (dma_ll_dev_to_req_mux (pdev (src cfg))) 0xf) in
  mk_group c (u32 (start_addr (dst cfg))) (u32 (start_addr (src cfg))) (u32 (end_addr (dst cfg)))
    (u32 (start_addr (dst cfg))) (u32 (end_addr (src cfg))) (u32 (start_addr (src cfg))) m.

Lemma land_low x k : 0 ≤ k → 0 ≤ Z.land x (Z.ones k) < 2 ^ k.
Proof. intros. rewrite Z.land_ones by done. apply Z.mod_pos_bound. lia. Qed.
Lemma on_off_range v : 0 ≤ on_off v < 2 ^ 1.
Proof. unfold on_off. by destruct (enabled v). Qed.
Lemma mux_small d : Z.land (dma_ll_dev_to_req_mux d) 0xf = dma_ll_dev_to_req_mux d ∧ 0 ≤ dma_ll_dev_to_req_mux d < 2 ^ 5.
Proof. by destruct d. Qed.

(** Reads of a field through writes of others. *)
Ltac fields := repeat first
  [ rewrite field_set_other by lia
  | rewrite field_set_same by (first [lia | apply on_off_range | apply (land_low _ 1); lia | apply (land_low _ 2); lia
                                     | apply (land_low _ 3); lia | apply mux_small | assumption]) ].

Lemma config_image_ok cfg g : configured cfg g (config_image cfg g).
Proof.
  destruct (mux_small (pdev (src cfg))) as [Es Rs], (mux_small (pdev (dst cfg))) as [Ed Rd].
  split; unfold config_image; cbn [ctrl req_mux src_start_addr src_loop_start_addr src_loop_end_addr dest_start_addr
    dest_loop_start_addr dest_loop_end_addr]; rewrite ?Es, ?Ed; split_and?; try reflexivity; by fields.
Qed.

Section Calls.
Context {C : Type} `{DmaDevice C}.
Implicit Types (s : drv C) (g : group) (b : option nat) (c : C) (id : nat).

Lemma init_dma_put id cfg g b c s : ready s → (id < 12)%nat → invalid_addr (src cfg) = false → invalid_addr (dst cfg) = false →
  dma_hal_init_dma id cfg (put id g b c s) = Done (BK_OK, put id (config_image cfg g) b c s).
Proof.
  intros R Hi Vs Vd. unfold dma_hal_init_dma. rewrite Vs, Vd.
  repeat (erewrite gop_run; [|first [apply gop_upd | apply gop_if; apply gop_upd]|done|done]).
  unfold ret, config_image, on_off. do 2 f_equal.
  destruct (enabled (addr_inc_en (src cfg))), (enabled (addr_loop_en (src cfg))),
    (enabled (addr_inc_en (dst cfg))), (enabled (addr_loop_en (dst cfg))); reflexivity.
Qed.

(** One read of the enable bit. *)
Definition polled g b : group * option nat :=
  if field (ctrl g) 0 1 =? 0 then (g, b)
  else match b with Some O => (g_ctrl 0 1 0 g, b) | Some (S n) => (g, Some n) | None => (g, b) end.
Definition stepped g c : C := if field (ctrl g) 0 1 =? 0 then c else dev_step c.

Lemma poll_put id g b c s : ready s → (id < 12)%nat →
  dma_ll_get_enable_status id (put id g b c s) =
  Done ((if field (ctrl g) 0 1 =? 0 then 0 else match b with Some O => 0 | _ => 1 end),
        put id (polled g b).1 (polled g b).2 (stepped g c) s).
Proof.
  intros R Hi. unfold dma_ll_get_enable_status. rewrite (bind_done _ _ _ _ _ (get_group_put id g b c s R Hi)).
  unfold polled, stepped. destruct (field (ctrl g) 0 1 =? 0); [done|]. pose proof (proj1 R) as Hh.
  rewrite (bind_done _ _ _ tt (put id g b (dev_step c) s)) by (unfold upd_hw; cbn [put set_hw hal_hw]; by rewrite Hh).
  unfold get_hw. unfold bind at 1. cbn [put set_hw hal_hw]. rewrite Hh.
  rewrite (put_busy id g b (dev_step c) s R Hi). destruct b as [[|n]|]; [by rewrite (bind_done _ _ _ _ _ (gop_upd id _ g _ (dev_step c) s R Hi))| |done].
  unfold bind, upd_hw. cbn [put set_hw hal_hw]. rewrite Hh. unfold ret, put, set_hw, set_group, set_busy, set_rest.
  cbn. by rewrite !list_insert_insert_eq.
Qed.

(** Starting a channel. *)
Lemma start_put id g b c s : ready s → (id < 12)%nat →
  let g1 := g_ctrl 0 1 1 g in
  let r := dev_start id (hw (put id g1 b c s)) in
  dma_ll_enable id (put id g b c s) = Done (tt, put id g1 r.2 r.1 s).
Proof.
  intros R Hi g1 r. unfold dma_ll_enable. rewrite (bind_done _ _ _ _ _ (gop_upd id _ g b c s R Hi)).
  unfold upd_hw. pose proof (proj1 R) as Hh. fold g1. cbn [put set_hw hal_hw]. rewrite Hh. fold r.
  unfold put, set_hw, set_group, set_busy, set_rest. cbn. by rewrite !list_insert_insert_eq.
Qed.

(** Waiting for a channel that is busy for [n] more reads: the engine works for
    one step more. *)
Lemma wait_put id g n c s : ready s → (id < 12)%nat → field (ctrl g) 0 1 = 1 →
  wait_done id (put id g (Some n) c s) =
  Done (tt, put id (g_ctrl 0 1 0 g) (Some 0%nat) (Nat.iter (S n) dev_step c) s).
Proof.
  intros R Hi E. unfold wait_done. rewrite (put_busy id g _ c s R Hi). revert c.
  induction n as [|n IH]; intros c; cbn [wait_loop]; rewrite (bind_done _ _ _ _ _ (poll_put id g _ c s R Hi));
    unfold polled, stepped; rewrite E; cbn [fst snd]; [done|]. rewrite IH. by rewrite (Nat.iter_succ_r (S n)).
Qed.

Lemma wait_forever id g c s : ready s → (id < 12)%nat → field (ctrl g) 0 1 = 1 →
  wait_done id (put id g None c s) = Trap Hang.
Proof.
  intros R Hi E. unfold wait_done. rewrite (put_busy id g _ c s R Hi). cbn [wait_loop].
  rewrite (bind_done _ _ _ _ _ (poll_put id g _ c s R Hi)). by rewrite E.
Qed.

(** The length register holds [len] modulo 65536. *)
Definition len_image (len : Z) g : group :=
  g_ctrl_v (Z.lor (Z.land (ctrl g) 0xFFFF) (u32 (Z.shiftl (u32 (len - 1)) 16))) g.
Lemma len_put id len : gop (C := C) id (dma_ll_set_transfer_len id len) (len_image len).
Proof. exact (gop_bind id _ _ _ _ (gop_upd id _) (gop_upd id _)). Qed.
End Calls.

Lemma len_bits len g i : 0 ≤ i → Z.testbit (ctrl (len_image len g)) i =
  if i <? 16 then Z.testbit (ctrl g) i else (i <? 32) && Z.testbit (len - 1) (i - 16).
Proof.
  intros Hi. unfold len_image, u32. cbn [ctrl g_ctrl_v]. rewrite Z.lor_spec, Z.land_spec. change 0xFFFF with (Z.ones 16).
  rewrite Z.testbit_ones_nonneg by lia. destruct (Z.ltb_spec i 32); cbn [andb].
  - rewrite Z.mod_pow2_bits_low, Z.shiftl_spec by lia. destruct (Z.ltb_spec i 16).
    + by rewrite (Z.testbit_neg_r _ (i - 16)), andb_true_r, orb_false_r by lia.
    + rewrite andb_false_r. cbn [orb]. by rewrite Z.mod_pow2_bits_low by lia.
  - rewrite Z.mod_pow2_bits_high by lia. destruct (Z.ltb_spec i 16); [lia|]. by rewrite andb_false_r.
Qed.

Lemma len_image_low len g off n : 0 ≤ off → 0 ≤ n → off + n ≤ 16 → field (ctrl (len_image len g)) off n = field (ctrl g) off n.
Proof.
  intros Ho Hn Hl. apply Z.bits_inj'. intros i Hi. rewrite !field_spec by lia.
  destruct (Z.ltb_spec i n); [|done]. rewrite len_bits by lia. by rewrite (proj2 (Z.ltb_lt _ _)) by lia.
Qed.

Lemma len_image_len len g : field (ctrl (len_image len g)) 16 16 = (len - 1) mod 2 ^ 16.
Proof.
  apply Z.bits_inj'. intros i Hi. rewrite field_spec by lia. destruct (Z.ltb_spec i 16); cbn [andb].
  - rewrite len_bits, Z.mod_pow2_bits_low by lia.
    rewrite (proj2 (Z.ltb_ge (i + 16) 16)), (proj2 (Z.ltb_lt (i + 16) 32)) by lia. cbn [andb]. f_equal. lia.
  - by rewrite Z.mod_pow2_bits_high by lia.
Qed.

(** ** The pool as a finite map *)
Record pool_rep (p : dma_chnl_pool_t) (m : gmap nat Z) : Prop := {
  pr_len : length (chnl_user p) = DMA_ID_MAX;
  pr_bits : ∀ i, (i < DMA_ID_MAX)%nat → Z.testbit (chnl_bitmap p) (Z.of_nat i) = bool_decide (is_Some (m !! i));
  pr_dom : ∀ i, is_Some (m !! i) → (i < DMA_ID_MAX)%nat;
  pr_user : ∀ i, (i < DMA_ID_MAX)%nat → chnl_user p !! i = Some (default NO_USER (m !! i)) }.

Lemma bit_clear x i : 0 ≤ i → (Z.land x (BIT i) =? 0) = negb (Z.testbit x i).
Proof. intros Hi. pose proof (has_bit_testbit x i Hi) as E. unfold has_bit in E. rewrite <-E. by rewrite negb_involutive. Qed.

(** [first_free] finds the lowest free channel. *)
Lemma free_chnl_spec bm n id :
  let r := first_free bm n id in
  (id ≤ r ≤ id + n)%nat ∧ (∀ i, (id ≤ i < r)%nat → Z.testbit bm (Z.of_nat i) = true) ∧
  ((r < id + n)%nat → Z.testbit bm (Z.of_nat r) = false).
Proof.
  revert id. induction n as [|n IH]; intros id; cbn [first_free]; [split_and!; lia|].
  rewrite bit_clear by lia. destruct (Z.testbit bm (Z.of_nat id)) eqn:B; cbn [negb].
  - destruct (IH (S id)) as (R & F & T). split_and!; [lia|lia| |intros; apply T; lia].
    intros i Hi. destruct (decide (i = id)) as [->|]; [done|apply F; lia].
  - split_and!; [lia|lia|lia|done].
Qed.

Definition full (m : gmap nat Z) : Prop := ∀ i, (i < DMA_ID_MAX)%nat → is_Some (m !! i).

Lemma alloc_spec p m u : pool_rep p m →
  let r := dma_chnl_alloc u p in
  (full m ∧ r = (DMA_ID_MAX, p)) ∨
  ((r.1 < DMA_ID_MAX)%nat ∧ m !! r.1 = None ∧ (∀ i, (i < r.1)%nat → is_Some (m !! i)) ∧
   pool_rep r.2 (<[r.1 := u32 u]> m)).
Proof.
  intros R. unfold dma_chnl_alloc. set (id := first_free (chnl_bitmap p) DMA_ID_MAX 0).
  destruct (free_chnl_spec (chnl_bitmap p) DMA_ID_MAX 0) as (Hr & F & T). fold id in Hr, F, T.
  assert (Low : ∀ i, (i < id)%nat → is_Some (m !! i)).
  { intros i Hi. specialize (F i ltac:(lia)). rewrite (pr_bits _ _ R) in F by lia. by apply bool_decide_eq_true in F. }
  destruct (Nat.ltb_spec id DMA_ID_MAX) as [L|L]; cbn [fst snd]; [right|left].
  - specialize (T ltac:(lia)). rewrite (pr_bits _ _ R) in T by done. apply bool_decide_eq_false, eq_None_not_Some in T.
    split_and!; [done|done|done|]. split; cbn [chnl_user chnl_bitmap].
    + rewrite length_insert. apply R.
    + intros i Hi. change (Z.lor (chnl_bitmap p) (BIT (Z.of_nat id))) with (set_bit (chnl_bitmap p) (Z.of_nat id)).
      rewrite testbit_set_bit, (pr_bits _ _ R) by lia. destruct (decide (i = id)) as [->|N].
      * rewrite lookup_insert_eq. rewrite (bool_decide_true (Z.of_nat id = Z.of_nat id)) by done. rewrite orb_true_r. symmetry. by apply bool_decide_true.
      * rewrite lookup_insert_ne by done. rewrite (bool_decide_false (Z.of_nat id = _)) by lia. by rewrite orb_false_r.
    + intros i. rewrite lookup_insert_is_Some. intros [<-|[_ Hi]]; [done|by apply (pr_dom _ _ R)].
    + intros i Hi. destruct (decide (i = id)) as [->|N].
      * rewrite lookup_insert_eq, list_lookup_insert_eq by (by rewrite (pr_len _ _ R)). done.
      * rewrite lookup_insert_ne, list_lookup_insert_ne by done. by apply R.
  - split; [|f_equal; lia]. intros i Hi. apply Low. lia.
Qed.

Lemma user_nth p m i : pool_rep p m → (i < DMA_ID_MAX)%nat → nth i (chnl_user p) 0 = default NO_USER (m !! i).
Proof. intros R Hi. apply nth_lookup_Some with (d := 0), R, Hi. Qed.

Lemma free_rep p m id : pool_rep p m → (id < DMA_ID_MAX)%nat →
  pool_rep (mk_pool (Z.land (chnl_bitmap p) (Z.lnot (BIT (Z.of_nat id)))) (<[id := NO_USER]> (chnl_user p))) (delete id m).
Proof.
  intros R Hi. split; cbn [chnl_user chnl_bitmap].
  - rewrite length_insert. apply R.
  - intros i Li. change (Z.land (chnl_bitmap p) _) with (clear_bit (chnl_bitmap p) (Z.of_nat id)).
    rewrite testbit_clear_bit, (pr_bits _ _ R) by lia. destruct (decide (i = id)) as [->|N].
    + rewrite lookup_delete_eq. rewrite (bool_decide_true (Z.of_nat id = Z.of_nat id)) by done. rewrite andb_false_r. symmetry. apply bool_decide_false. by intros [].
    + rewrite lookup_delete_ne by done. rewrite (bool_decide_false (Z.of_nat id = _)) by lia. by rewrite andb_true_r.
  - intros i [x Hx]. apply lookup_delete_Some in Hx as [_ Hx]. apply (pr_dom _ _ R). eauto.
  - intros i Li. destruct (decide (i = id)) as [->|N].
    + rewrite lookup_delete_eq, list_lookup_insert_eq by (by rewrite (pr_len _ _ R)). done.
    + rewrite lookup_delete_ne, list_lookup_insert_ne by done. by apply R.
Qed.

Lemma free_spec p m u id : pool_rep p m →
  (DMA_ID_MAX ≤ id → dma_chnl_free u id p = (BK_ERR_DMA_ID, p))%nat ∧
  ((id < DMA_ID_MAX)%nat → default NO_USER (m !! id) ≠ u32 u → dma_chnl_free u id p = (BK_ERR_PARAM, p)) ∧
  ((id < DMA_ID_MAX)%nat → default NO_USER (m !! id) = u32 u →
     (dma_chnl_free u id p).1 = BK_OK ∧ pool_rep (dma_chnl_free u id p).2 (delete id m)).
Proof.
  intros R. unfold dma_chnl_free. destruct (Nat.leb_spec DMA_ID_MAX id) as [L|L]; [split_and!; [done|lia..]|].
  rewrite (user_nth p m) by done. split_and!; [lia| |].
  - intros _ N. by rewrite (proj2 (Z.eqb_neq _ _)).
  - intros _ E. rewrite (proj2 (Z.eqb_eq _ _)) by done. split; [done|by apply free_rep].
Qed.

Lemma empty_rep : pool_rep empty_pool ∅.
Proof.
  split; [done| | |].
  - intros i _. cbn [empty_pool chnl_bitmap]. by rewrite Z.bits_0.
  - intros i [x Hx]. by rewrite lookup_empty in Hx.
  - intros i Hi. unfold empty_pool. cbn [chnl_user]. rewrite lookup_empty. by apply lookup_replicate_2.
Qed.

Section Theorems.
Context {C : Type} `{DmaLaws C}.
Implicit Types (s : drv C) (g : group) (b : option nat) (c : C) (id : nat) (m : gmap nat Z).

(** ** Channels and their users *)
Definition inited s m : Prop := s_dma_driver_is_init s = true ∧ pool_rep (s_dma_chnl_pool s) m.

Lemma user16 u : u32 (Z.shiftl DMA_CPU_MASTER 16 + u16 u) = u16 u.
Proof. apply u32_small. pose proof (u16_range u). cbn. lia. Qed.

Lemma alloc_run s u : s_dma_driver_is_init s = true →
  bk_dma_alloc u s = (let r := dma_chnl_alloc (Z.shiftl DMA_CPU_MASTER 16 + u16 u) (s_dma_chnl_pool s) in Done (r.1, set_pool r.2 s)).
Proof. intros I. unfold bk_dma_alloc, gets, modify, bind, ret. by rewrite I. Qed.
Lemma free_run s u id : s_dma_driver_is_init s = true →
  bk_dma_free u id s = (let r := dma_chnl_free (Z.shiftl DMA_CPU_MASTER 16 + u16 u) id (s_dma_chnl_pool s) in Done (r.1, set_pool r.2 s)).
Proof. intros I. unfold bk_dma_free, return_on_not_init, gets, modify, bind, ret. by rewrite I. Qed.

Lemma set_pool_same s : set_pool (s_dma_chnl_pool s) s = s.
Proof. by destruct s. Qed.

Inductive alloc_ok s m (u : Z) : nat → drv C → Prop :=
| alloc_full : full m → alloc_ok s m u DMA_ID_MAX s
| alloc_free id p : (id < DMA_ID_MAX)%nat → m !! id = None → (∀ i, (i < id)%nat → is_Some (m !! i)) →
    pool_rep p (<[id := u16 u]> m) → alloc_ok s m u id (set_pool p s).

Lemma alloc_sim s m u : inited s m → ∃ id s', bk_dma_alloc u s = Done (id, s') ∧ alloc_ok s m u id s'.
Proof.
  intros [I R]. rewrite alloc_run by done. cbv zeta. do 2 eexists. split; [done|].
  destruct (alloc_spec _ _ (Z.shiftl DMA_CPU_MASTER 16 + u16 u) R) as [[F ->]|(L & N & Lo & P)].
  - cbn [fst snd]. rewrite set_pool_same. by constructor.
  - rewrite user16 in P. by constructor.
Qed.

Inductive free_ok s m (u : Z) id : Z → drv C → Prop :=
| free_bad_id : (DMA_ID_MAX ≤ id)%nat → free_ok s m u id BK_ERR_DMA_ID s
| free_other : (id < DMA_ID_MAX)%nat → m !! id ≠ Some (u16 u) → free_ok s m u id BK_ERR_PARAM s
| free_own p : m !! id = Some (u16 u) → pool_rep p (delete id m) → free_ok s m u id BK_OK (set_pool p s).

Lemma free_sim s m u id : inited s m → ∃ r s', bk_dma_free u id s = Done (r, s') ∧ free_ok s m u id r s'.
Proof.
  intros [I R]. rewrite free_run by done. cbv zeta. do 2 eexists. split; [done|].
  destruct (free_spec _ _ (Z.shiftl DMA_CPU_MASTER 16 + u16 u) id R) as (F1 & F2 & F3). rewrite user16 in F2, F3.
  pose proof (u16_range u) as Ru. destruct (decide (DMA_ID_MAX ≤ id)%nat) as [L|L].
  - rewrite F1 by done. cbn [fst snd]. rewrite set_pool_same. by constructor.
  - destruct (decide (m !! id = Some (u16 u))) as [E|N].
    + rewrite E in F3. destruct F3 as [-> P]; [lia|done|]. by constructor.
    + rewrite F2; [|lia|]; [cbn [fst snd]; rewrite set_pool_same; constructor; [lia|done]|].
      destruct (m !! id) as [w|]; [intros E; by apply N; f_equal|]. unfold NO_USER. cbn. lia.
Qed.

(** The channel pool is a finite map from channels to users: bk_dma_alloc takes
    the lowest free channel for the caller and answers DMA_ID_MAX, changing nothing,
    exactly when all twelve are taken; bk_dma_free releases a channel to the user
    that holds it and refuses a bad number or another user; bk_dma_user reads the
    holder. *)
Theorem dma_pool_refines s m u id : inited s m →
  (∃ i s', bk_dma_alloc u s = Done (i, s') ∧ alloc_ok s m u i s') ∧
  (∃ r s', bk_dma_free u id s = Done (r, s') ∧ free_ok s m u id r s') ∧
  bk_dma_user id s = Done (default NO_USER (m !! id), s).
Proof.
  intros I. split_and!; [by apply alloc_sim|by apply free_sim|]. destruct I as [I R].
  unfold bk_dma_user, return_on_not_init, gets, bind, ret. rewrite I. cbn [negb]. unfold dma_chnl_user.
  destruct (Nat.leb_spec DMA_ID_MAX id) as [L|L]; [|by rewrite (user_nth _ m)].
  destruct (m !! id) eqn:E; [|done]. assert (id < DMA_ID_MAX)%nat by (apply (pr_dom _ _ R); eauto). lia.
Qed.

(** Sequences of calls. *)
Inductive pool_op := Alloc (u : Z) | Free (u : Z) (id : nat).
Definition pool_call (o : pool_op) : M (drv C) Z :=
  match o with
  | Alloc u => let* i := bk_dma_alloc u in ret (Z.of_nat i)
  | Free u id => bk_dma_free u id
  end.
Fixpoint run_calls (ops : list pool_op) : M (drv C) (list Z) :=
  match ops with
  | [] => ret []
  | o :: ops' => let* r := pool_call o in let* rs := run_calls ops' in ret (r :: rs)
  end.

Lemma call_step s m o id u : inited s m → m !! id = Some (u16 u) →
  (∀ u', u16 u' = u16 u → o ≠ Free u' id) →
  ∃ r s' m', pool_call o s = Done (r, s') ∧ inited s' m' ∧ m' !! id = Some (u16 u) ∧
    (∀ w, o = Alloc w → r ≠ Z.of_nat id).
Proof.
  intros I O N. pose proof I as [Ii Ri]. destruct o as [w|w j]; cbn [pool_call].
  - destruct (alloc_sim s m w I) as (i & s' & E & A). rewrite (bind_done _ _ _ _ _ E).
    destruct A as [F|i p L Ni Lo P].
    + exists (Z.of_nat DMA_ID_MAX), s, m. split_and!; [done|done|done|]. intros _ _. assert (id < DMA_ID_MAX)%nat by (apply (pr_dom _ _ Ri); eauto). lia.
    + exists (Z.of_nat i), (set_pool p s), (<[i := u16 w]> m). assert (i ≠ id) by congruence.
      split_and!; [done|done|by rewrite lookup_insert_ne|lia].
  - destruct (free_sim s m w j I) as (r & s' & E & F). destruct F as [L|L Nj|p Oj P].
    + by exists BK_ERR_DMA_ID, s, m.
    + by exists BK_ERR_PARAM, s, m.
    + exists BK_OK, (set_pool p s), (delete j m). assert (j ≠ id).
      { intros ->. rewrite Oj in O. injection O as O. by apply (N w O). }
      split_and!; [done|done|by rewrite lookup_delete_ne|done].
Qed.

(** A channel has one user: whatever sequence of allocations and releases
    follows, a channel held by a user stays his and is not given to anybody else,
    until that user himself releases it. *)
Theorem dma_channel_exclusive ops s m id u : inited s m → m !! id = Some (u16 u) →
  (∀ u', u16 u' = u16 u → Free u' id ∉ ops) →
  ∃ rs s' m', run_calls ops s = Done (rs, s') ∧ inited s' m' ∧ m' !! id = Some (u16 u) ∧
    (∀ k w, ops !! k = Some (Alloc w) → rs !! k ≠ Some (Z.of_nat id)).
Proof.
  revert s m. induction ops as [|o ops IH]; intros s m I O N; cbn [run_calls].
  - exists [], s, m. by split_and!.
  - destruct (call_step s m o id u I O) as (r & s1 & m1 & E & I1 & O1 & A).
    { intros u' Eu ->. apply (N u' Eu). by left. }
    rewrite (bind_done _ _ _ _ _ E). destruct (IH s1 m1 I1 O1) as (rs & s2 & m2 & Er & I2 & O2 & Ar).
    { intros u' Eu Hi. apply (N u' Eu). by right. }
    rewrite (bind_done _ _ _ _ _ Er). exists (r :: rs), s2, m2. split_and!; [done|done|done|].
    intros [|k] w; cbn; [intros [= ->]; intros [= E']; by apply (A w)|apply Ar].
Qed.

(** ** Configuration *)
Lemma bk_dma_init_put id cfg g b c s : ready s → s_dma_driver_is_init s = true → (id < 12)%nat →
  invalid_addr (src cfg) = false → invalid_addr (dst cfg) = false →
  bk_dma_init id (Some cfg) (put id g b c s) =
  Done (BK_OK, put id (config_image cfg (polled g b).1) (polled g b).2 (stepped g c)
    (set_bits (Z.lor (id_init_bits s) (BIT (Z.of_nat id))) s)).
Proof.
  intros R I Hi Vs Vd. unfold bk_dma_init, return_on_not_init.
  rewrite (bind_done (gets s_dma_driver_is_init) _ _ true (put id g b c s)) by (unfold gets; cbn; by rewrite I).
  cbn [negb]. unfold return_on_invalid_id, return_on_invalid_addr. rewrite Vs, Vd.
  rewrite (proj2 (Nat.leb_gt _ _)) by done. unfold dma_ll_is_id_started.
  erewrite bind_done; [|rewrite (bind_done _ _ _ _ _ (poll_put id g b c s R Hi)); reflexivity].
  unfold dma_id_init_common. rewrite (bind_done _ _ _ _ _ eq_refl).
  exact (init_dma_put id cfg _ _ _ (set_bits _ s) R Hi Vs Vd).
Qed.

Lemma put_other id g b c s j : j ≠ id → config_group (hw (put id g b c s)) !! j = config_group (hw s) !! j.
Proof. intros N. unfold put. cbn. by apply list_lookup_insert_ne. Qed.

(** bk_dma_init checks its arguments in the order of the code and changes
    nothing when one fails; otherwise every field of the channel's registers reads
    back what the configuration says, masked to the width of the field, the
    interrupt bits and the length are kept, the channel is marked initialised, and
    the other channels, the pool and the handlers are untouched. *)
Theorem bk_dma_init_ok s id cfg : ready s → s_dma_driver_is_init s = true →
  bk_dma_init id None s = Done (BK_ERR_NULL_PARAM, s) ∧
  ((12 ≤ id)%nat → bk_dma_init id (Some cfg) s = Done (BK_ERR_DMA_ID, s)) ∧
  ((id < 12)%nat → invalid_addr (src cfg) || invalid_addr (dst cfg) = true →
     bk_dma_init id (Some cfg) s = Done (BK_ERR_DMA_INVALID_ADDR, s)) ∧
  ((id < 12)%nat → invalid_addr (src cfg) || invalid_addr (dst cfg) = false →
     ∃ s' g g', bk_dma_init id (Some cfg) s = Done (BK_OK, s') ∧
       config_group (hw s) !! id = Some g ∧ config_group (hw s') !! id = Some g' ∧ configured cfg g g' ∧
       (∀ j, j ≠ id → config_group (hw s') !! j = config_group (hw s) !! j) ∧
       id_init_bits s' = Z.lor (id_init_bits s) (BIT (Z.of_nat id)) ∧
       (field (ctrl g) 0 1 = 0 → rest (hw s') = rest (hw s)) ∧ s_dma_chnl_pool s' = s_dma_chnl_pool s ∧
       s_dma_finish_isr s' = s_dma_finish_isr s ∧ s_dma_half_finish_isr s' = s_dma_half_finish_isr s).
Proof.
  intros R I. assert (E : ∀ k, return_on_not_init BK_ERR_DMA_NOT_INIT k s = k s).
  { intros k. unfold return_on_not_init, gets, bind. by rewrite I. }
  split_and!.
  - unfold bk_dma_init. by rewrite E.
  - intros L. unfold bk_dma_init. rewrite E. unfold return_on_invalid_id. by rewrite (proj2 (Nat.leb_le _ _)).
  - intros L V. unfold bk_dma_init. rewrite E. unfold return_on_invalid_id, return_on_invalid_addr.
    rewrite (proj2 (Nat.leb_gt _ _)) by done. destruct (invalid_addr (src cfg)); [done|]. by destruct (invalid_addr (dst cfg)).
  - intros L [Vs Vd]%orb_false_elim. destruct (ready_chan id s R L) as (g & b & G & B & Es).
    pose proof (bk_dma_init_put id cfg g b (rest (hw s)) s R I L Vs Vd) as P. rewrite <-Es in P.
    eexists _, g, _. split_and!; [exact P|done|by apply put_group| |intros j Nj; exact (put_other id _ _ _ (set_bits _ s) j Nj)|done| |done..].
    2: { intros Z. unfold stepped. cbn. by rewrite Z. }
    pose proof (config_image_ok cfg (polled g b).1) as K. unfold polled in *.
    destruct (field (ctrl g) 0 1 =? 0); [done|]. destruct b as [[|n]|]; try done. cbn [fst] in *.
    destruct K as [[K1 K2] ? ? ? ? ? ? ?]. split; try done. revert K1 K2. cbn [g_ctrl ctrl]. intros -> ->. split; by fields.
Qed.

(** ** Copying memory *)
Definition memory s : Z → Z := dev_mem (rest (hw s)).

(** No transfer is running. *)
Definition idle s : Prop := ∀ j g, config_group (hw s) !! j = Some g → field (ctrl g) 0 1 = 0.

(** The bytes a request of [len] copies: the length register has 16 bits. *)
Definition copy_len (len : Z) : Z := (len - 1) mod 2 ^ 16 + 1.

Lemma memcpy_valid out in_ len : 0 ≤ in_ → 0 ≤ out → 0 ≤ len < 2 ^ 32 → in_ + len ≤ 2 ^ 32 → out + len ≤ 2 ^ 32 →
  invalid_addr (src (memcpy_config out in_ len)) = false ∧ invalid_addr (dst (memcpy_config out in_ len)) = false.
Proof.
  assert (K : ∀ a, 0 ≤ a → 0 ≤ len < 2 ^ 32 → a + len ≤ 2 ^ 32 → (0 <? u32 (a + len)) && (u32 (a + len) <? u32 a) = false).
  { intros a Ha Hl Hs. apply andb_false_iff. destruct (decide (a + len = 2 ^ 32)) as [->|N]; [by left|right].
    rewrite !u32_small by lia. apply Z.ltb_ge. lia. }
  intros. unfold invalid_addr. cbn [memcpy_config src dst start_addr end_addr]. auto.
Qed.

Lemma memcpy_group out in_ len g : 0 ≤ in_ < 2 ^ 32 → 0 ≤ out < 2 ^ 32 →
  copies (g_ctrl 0 1 1 (len_image len (config_image (memcpy_config out in_ len) g))) in_ out (copy_len len).
Proof.
  intros Hs Hd. destruct (config_image_ok (memcpy_config out in_ len) g) as [_ K1 [K2 K2'] [K3 K3'] [K4 K4'] _ (K5 & K5' & _) (K6 & _ & _ & K7 & _)].
  set (g1 := config_image _ _) in *. unfold copies. cbn [g_ctrl ctrl req_mux src_start_addr dest_start_addr len_image g_ctrl_v].
  rewrite K5, K5', K6, K7. cbn [memcpy_config src dst start_addr]. rewrite !(u32_small in_), !(u32_small out) by done.
  split_and!; try done; rewrite field_set_other by lia; fold (len_image len g1);
    change (Z.lor (Z.land (ctrl g1) 0xFFFF) (u32 (Z.shiftl (u32 (len - 1)) 16))) with (ctrl (len_image len g1));
    [by rewrite len_image_len|rewrite len_image_low by lia..]; done.
Qed.

Lemma memcpy_by_chnl_run s id out in_ len : ready s → s_dma_driver_is_init s = true → (id < 12)%nat → 0 ≤ len < 2 ^ 32 →
  in_ + len ≤ 2 ^ 32 → out + len ≤ 2 ^ 32 → copyable in_ out (copy_len len) →
  ∃ g b c, dma_memcpy_by_chnl out in_ len id s =
    Done (BK_OK, put id g b c (set_bits (Z.lor (id_init_bits s) (BIT (Z.of_nat id))) s)) ∧ field (ctrl g) 0 1 = 0 ∧
    (idle s → ∀ x, dev_mem c x = copied (memory s) in_ out (copy_len len) x).
Proof.
  intros R I Hi Hl Hs Hd Cp. pose proof Cp as (P1 & P2 & P3 & P4 & _). assert (0 < copy_len len) by (unfold copy_len; pose proof (Z.mod_pos_bound (len - 1) (2 ^ 16)); lia).
  destruct (ready_chan id s R Hi) as (g & b & G & B & Es). destruct (memcpy_valid out in_ len P1 P2 Hl Hs Hd) as [Vs Vd].
  unfold dma_memcpy_by_chnl, return_on_not_init. rewrite (bind_done (gets _) _ s true s) by (unfold gets; by rewrite I).
  cbn [negb]. unfold return_on_invalid_id. rewrite (proj2 (Nat.leb_gt _ _)) by done.
  pose proof (bk_dma_init_put id _ g b (rest (hw s)) s R I Hi Vs Vd) as P. rewrite <-Es in P. rewrite (bind_done _ _ _ _ _ P).
  set (s1 := set_bits _ s). set (g1 := config_image _ _). set (b1 := (polled g b).2). assert (R1 : ready s1) by done.
  rewrite (gop_run id _ _ _ _ _ _ _ (len_put id len) R1 Hi). unfold dma_hal_start_common.
  erewrite bind_done; [|rewrite (bind_done _ _ _ _ _ (start_put id _ b1 _ s1 R1 Hi)); reflexivity]. cbv zeta.
  set (g2 := g_ctrl 0 1 1 _). set (h2 := hw _).
  destruct (start_copy h2 id g2 in_ out (copy_len len)) as (n & Bz & Mem).
  { by apply put_group. }
  { apply memcpy_group; lia. }
  { done. }
  rewrite Bz. assert (En : field (ctrl g2) 0 1 = 1) by (unfold g2; cbn [g_ctrl ctrl]; by rewrite field_set_same by lia).
  rewrite (bind_done _ _ _ _ _ (wait_put id g2 n _ s1 R1 Hi En)). do 3 eexists. split; [reflexivity|].
  split; [cbn [g_ctrl ctrl]; by rewrite field_set_same by lia|]. intros Id x. rewrite Mem.
  - unfold memory, h2. cbn. unfold stepped. by rewrite (Id id g G).
  - intros j gj Nj. unfold h2. rewrite put_other by done. apply Id.
Qed.

Lemma alloc_free_same p m u : pool_rep p m → ¬ full m →
  let r := dma_chnl_alloc u p in
  (r.1 < DMA_ID_MAX)%nat ∧ m !! r.1 = None ∧ pool_rep r.2 (<[r.1 := u32 u]> m) ∧ dma_chnl_free u r.1 r.2 = (BK_OK, p).
Proof.
  intros R Nf. cbv zeta. destruct (alloc_spec p m u R) as [[F _]|(L & N & _ & P)]; [done|]. split_and!; try done.
  revert L N P. unfold dma_chnl_alloc. set (id := first_free _ _ _).
  destruct (Nat.ltb_spec id DMA_ID_MAX) as [L|L]; cbn [fst snd]; [|lia]. intros _ N P.
  unfold dma_chnl_free. rewrite (proj2 (Nat.leb_gt _ _)) by done. rewrite (user_nth _ _ _ P) by done.
  rewrite lookup_insert_eq. cbn [from_option]. unfold Datatypes.id at 1. rewrite Z.eqb_refl. cbn [negb chnl_user chnl_bitmap]. f_equal.
  pose proof (pr_bits _ _ R id L) as B. rewrite N in B. rewrite bool_decide_false in B by (by intros []).
  pose proof (pr_user _ _ R id L) as U. rewrite N in U. cbn in U.
  rewrite list_insert_insert_eq, list_insert_id by done. destruct p as [bm us]. cbn [chnl_bitmap chnl_user] in *. f_equal.
  change (clear_bit (set_bit bm (Z.of_nat id)) (Z.of_nat id) = bm). apply Z.bits_inj'. intros i Hi.
  rewrite testbit_clear_bit, testbit_set_bit by lia. case_bool_decide; subst; cbn [negb]; [by rewrite andb_false_r|].
  by rewrite orb_false_r, andb_true_r.
Qed.

(** C28: dma_memcpy copies memory through a free channel and waits for the engine.
    On an engine that obeys the laws - which say what is in memory only once the
    enable bit was found clear again - it returns BK_OK with the channel disabled,
    and the other channels and the pool as before; when no other transfer was
    running, the destination equals the source and every other byte is as before.
    Without a free channel it returns BK_ERR_DMA_ID and does nothing.  The ranges
    are word aligned, do not overlap and do not pass the end of the address space.  The number of
    bytes is the request modulo 65536, so that requests up to 65536 bytes are
    copied whole. *)
Theorem dma_memcpy_ok s m out in_ len : ready s → inited s m → 0 ≤ len < 2 ^ 32 →
  in_ + len ≤ 2 ^ 32 → out + len ≤ 2 ^ 32 → copyable in_ out (copy_len len) →
  (full m → dma_memcpy out in_ len s = Done (BK_ERR_DMA_ID, s)) ∧
  (¬ full m → ∃ id s', dma_memcpy out in_ len s = Done (BK_OK, s') ∧ m !! id = None ∧
     (∃ g, config_group (hw s') !! id = Some g ∧ field (ctrl g) 0 1 = 0) ∧
     (idle s → ∀ x, memory s' x = copied (memory s) in_ out (copy_len len) x) ∧
     s_dma_chnl_pool s' = s_dma_chnl_pool s ∧ ready s' ∧
     (∀ j, j ≠ id → config_group (hw s') !! j = config_group (hw s) !! j)) ∧
  (1 ≤ len ≤ 2 ^ 16 → copy_len len = len).
Proof.
  intros R [I P] Hl Hs Hd Cp.
  assert (E : dma_memcpy out in_ len s =
    (let* cpy_chnl := bk_dma_alloc 0 in return_on_invalid_id cpy_chnl BK_ERR_DMA_ID
       (let* r := dma_memcpy_by_chnl out in_ len cpy_chnl in let* _ := bk_dma_free 0 cpy_chnl in ret r)) s).
  { unfold dma_memcpy, return_on_not_init, gets, bind. by rewrite I. }
  split_and!.
  - intros F. rewrite E, (bind_done _ _ _ _ _ (alloc_run s 0 I)). cbv zeta.
    destruct (alloc_spec _ _ (Z.shiftl DMA_CPU_MASTER 16 + u16 0) P) as [[_ ->]|(L & N & _)].
    + cbn [fst snd]. by rewrite set_pool_same.
    + exfalso. destruct (F _ L) as [x X]. congruence.
  - intros F. rewrite E, (bind_done _ _ _ _ _ (alloc_run s 0 I)). cbv zeta. set (w := Z.shiftl _ 16 + u16 0).
    destruct (alloc_free_same _ _ w P F) as (L & N & _ & Fr). set (r := dma_chnl_alloc w _) in *. clearbody r.
    unfold return_on_invalid_id. rewrite (proj2 (Nat.leb_gt _ _)) by done.
    destruct (memcpy_by_chnl_run (set_pool r.2 s) r.1 out in_ len R I L Hl Hs Hd Cp) as (g & b & c & Run & Off & Mem).
    rewrite (bind_done _ _ _ _ _ Run). erewrite bind_done; [|rewrite free_run by done; cbv zeta; reflexivity].
    fold w. change (s_dma_chnl_pool (put _ _ _ _ _)) with r.2. rewrite Fr.
    eexists r.1, _. split_and!; [reflexivity|done|exists g; split; [exact (put_group r.1 g b c _ R L)|exact Off]|exact Mem|done| |intros j Nj; exact (put_other r.1 _ _ _ s j Nj)].
    exact (ready_put r.1 g b c _ R).
  - intros Hn. unfold copy_len. rewrite Z.mod_small by lia. lia.
Qed.

(** ** The interrupt routine *)
Definition status s : Z := dev_int_status (rest (hw s)).
(** Bit [i] of the status register is channel [i]'s end of transfer, bit [16 + i]
    its half; the routine looks at them in this order. *)
Definition bit_chan (i : nat) : nat := if (i <? 16)%nat then i else (i - 16)%nat.
Definition handler s (i : nat) : option nat :=
  if (i <? 16)%nat then nth i (s_dma_finish_isr s) None else nth (i - 16) (s_dma_half_finish_isr s) None.
Definition isr_order (id n : nat) : list nat := concat (map (λ i, [16 + i; i]%nat) (seq id n)).

(** What the routine does with one bit. *)
Definition bit_step s (i : nat) : drv C :=
  match Z.testbit (status s) (Z.of_nat i), handler s i with
  | true, Some f => call_isr f (bit_chan i) (set_hw (set_rest (dev_write_int_status (BIT (Z.of_nat i)) (rest (hw s))) (hw s)) s)
  | _, _ => s
  end.

Lemma triggered v off id : 0 ≤ off → (id < 12)%nat →
  negb (Z.land (field v off 12) (BIT (Z.of_nat id)) =? 0) = Z.testbit v (off + Z.of_nat id).
Proof.
  intros Ho Hi. rewrite bit_clear, negb_involutive, field_spec by lia.
  rewrite (proj2 (Z.ltb_lt _ _)) by lia. cbn [andb]. f_equal. lia.
Qed.

Lemma BIT_half id : (id < 12)%nat → u32 (Z.shiftl (BIT (Z.of_nat id)) 16) = BIT (Z.of_nat (16 + id)) ∧ u32 (BIT (Z.of_nat id)) = BIT (Z.of_nat id).
Proof. intros Hi. do 12 (destruct id as [|id]; [by vm_compute|]). lia. Qed.

Lemma isr_half_step s id : hal_hw s = true → (id < 12)%nat → isr_half id s = Done (tt, bit_step s (16 + id)).
Proof.
  intros Hh Hi. unfold isr_half, dma_ll_is_half_finish_interrupt_triggered, get_hw, gets, bind. rewrite Hh.
  unfold ret at 1. rewrite triggered by lia. unfold bit_step, handler, bit_chan.
  rewrite (proj2 (Nat.ltb_ge (16 + id) 16)) by lia. replace (16 + id - 16)%nat with id by lia.
  replace (Z.of_nat (16 + id)) with (16 + Z.of_nat id) by lia. fold (status s). destruct (Z.testbit _ _); [|done].
  destruct (nth id _ None) as [f|]; [|done]. unfold dma_ll_clear_half_finish_interrupt_status, write_int_status, upd_hw.
  rewrite Hh. destruct (BIT_half id Hi) as [-> _]. by replace (Z.of_nat (16 + id)) with (16 + Z.of_nat id) by lia.
Qed.

Lemma isr_finish_step s id : hal_hw s = true → (id < 12)%nat → isr_finish id s = Done (tt, bit_step s id).
Proof.
  intros Hh Hi. unfold isr_finish, dma_ll_is_finish_interrupt_triggered, get_hw, gets, bind. rewrite Hh.
  unfold ret at 1. rewrite triggered by lia. unfold bit_step, handler, bit_chan.
  rewrite (proj2 (Nat.ltb_lt id 16)) by lia. rewrite Z.add_0_l. fold (status s). destruct (Z.testbit _ _); [|done].
  destruct (nth id _ None) as [f|]; [|done]. unfold dma_ll_clear_finish_interrupt_status, write_int_status, upd_hw.
  rewrite Hh. by destruct (BIT_half id Hi) as [_ ->].
Qed.

Lemma bit_step_hal s i : hal_hw (bit_step s i) = hal_hw s.
Proof. unfold bit_step. destruct (Z.testbit _ _); [|done]. by destruct (handler s i). Qed.

Lemma isr_loop_fold n id s : hal_hw s = true → (id + n ≤ 12)%nat →
  isr_loop n id s = Done (tt, foldl bit_step s (isr_order id n)).
Proof.
  revert id s. induction n as [|n IH]; intros id s Hh Hn; [done|]. cbn [isr_loop].
  rewrite (bind_done _ _ _ _ _ (isr_half_step s id Hh ltac:(lia))).
  rewrite (bind_done _ _ _ _ _ (isr_finish_step (bit_step s (16 + id)) id ltac:(by rewrite bit_step_hal) ltac:(lia))).
  rewrite IH; [done|by rewrite !bit_step_hal|lia].
Qed.

(** One step: the call, the bit, and what is kept. *)
Lemma bit_step_ok s i :
  calls (bit_step s i) = calls s ++ (if Z.testbit (status s) (Z.of_nat i) then
     match handler s i with Some f => [(f, bit_chan i)] | None => [] end else []) ∧
  (∀ j, 0 ≤ j → Z.testbit (status (bit_step s i)) j =
     Z.testbit (status s) j && negb (bool_decide (j = Z.of_nat i ∧ is_Some (handler s i)))) ∧
  (∀ j, handler (bit_step s i) j = handler s j) ∧
  config_group (hw (bit_step s i)) = config_group (hw s) ∧ s_dma_chnl_pool (bit_step s i) = s_dma_chnl_pool s ∧
  ∀ x, memory (bit_step s i) x = memory s x.
Proof.
  unfold bit_step. destruct (Z.testbit (status s) (Z.of_nat i)) eqn:T; [destruct (handler s i) as [f|] eqn:Hd|].
  - split_and!; try done.
    + intros j Hj. unfold status at 1. cbn. rewrite int_status_write. change (Z.land _ (Z.lnot _)) with (clear_bit (status s) (Z.of_nat i)).
      rewrite testbit_clear_bit by lia. do 2 f_equal. apply bool_decide_ext. naive_solver.
    + intros x. apply int_mem_write.
  - rewrite app_nil_r. split_and!; try done. intros j Hj. rewrite bool_decide_false by (intros [_ []]; done). by rewrite andb_true_r.
  - rewrite app_nil_r. split_and!; try done. intros j Hj. case_bool_decide as B; [|by rewrite andb_true_r].
    destruct B as [-> _]. by rewrite T.
Qed.

Definition isr_calls s (l : list nat) : list (nat * nat) :=
  omap (λ i, if Z.testbit (status s) (Z.of_nat i) then (λ f, (f, bit_chan i)) <$> handler s i else None) l.

Lemma isr_calls_ext s s' l : (∀ i, i ∈ l → Z.testbit (status s') (Z.of_nat i) = Z.testbit (status s) (Z.of_nat i)) →
  (∀ j, handler s' j = handler s j) → isr_calls s' l = isr_calls s l.
Proof.
  intros T Hd. unfold isr_calls. induction l as [|i l IH]; [done|]. cbn. rewrite T, Hd by (by left).
  rewrite IH; [done|]. intros; apply T; by right.
Qed.

Lemma fold_bits l s : NoDup l →
  let s' := foldl bit_step s l in
  calls s' = calls s ++ isr_calls s l ∧
  (∀ j, 0 ≤ j → Z.testbit (status s') j =
     Z.testbit (status s) j && negb (bool_decide (Z.to_nat j ∈ l ∧ is_Some (handler s (Z.to_nat j))))) ∧
  (∀ j, handler s' j = handler s j) ∧ config_group (hw s') = config_group (hw s) ∧
  s_dma_chnl_pool s' = s_dma_chnl_pool s ∧ ∀ x, memory s' x = memory s x.
Proof.
  revert s. induction l as [|i l IH]; intros s Nd; cbn [foldl].
  - split_and!; try done; [by rewrite app_nil_r|]. intros j _. rewrite bool_decide_false by (by intros [?%not_elem_of_nil]). by rewrite andb_true_r.
  - apply NoDup_cons in Nd as [Ni Nd]. destruct (bit_step_ok s i) as (C1 & T1 & H1 & G1 & P1 & M1).
    destruct (IH (bit_step s i) Nd) as (C2 & T2 & H2 & G2 & P2 & M2). split_and!.
    + rewrite C2, C1, <-app_assoc. f_equal. rewrite (isr_calls_ext s (bit_step s i) l); [|intros k Hk|done].
      * unfold isr_calls. cbn. destruct (Z.testbit (status s) _); [|done]. by destruct (handler s i).
      * rewrite T1 by lia. rewrite bool_decide_false; [by rewrite andb_true_r|]. intros [E _]. apply Ni. by replace i with k by lia.
    + intros j Hj. rewrite T2, T1 by done. rewrite H1, <-andb_assoc. f_equal. rewrite <-negb_orb. f_equal.
      apply eq_bool_prop_intro. rewrite orb_True, !bool_decide_spec, elem_of_cons.
      split; [intros [[-> ?]|[? ?]]; [rewrite Nat2Z.id in *|]; auto|].
      intros [[E|E] ?]; [left|by right]. split; [lia|by rewrite <-E].
    + intros j. by rewrite H2, H1.
    + by rewrite G2.
    + by rewrite P2.
    + intros x. by rewrite M2.
Qed.

(** The interrupt routine calls, for the channels in order and for each the
    half handler before the end handler, exactly the registered handlers whose bit
    is set, once each, and clears exactly their bits; registers, pool and memory are
    untouched.  A bit without a handler stays set. *)
Theorem dma_isr_ok s : hal_hw s = true →
  ∃ s', dma_isr s = Done (tt, s') ∧
    calls s' = calls s ++ isr_calls s (isr_order 0 SOC_DMA_CHAN_NUM_PER_UNIT) ∧
    (∀ i, (i < 32)%nat → Z.testbit (status s') (Z.of_nat i) =
       Z.testbit (status s) (Z.of_nat i) &&
       negb (bool_decide (bit_chan i < SOC_DMA_CHAN_NUM_PER_UNIT)%nat && bool_decide (is_Some (handler s i)))) ∧
    config_group (hw s') = config_group (hw s) ∧ s_dma_chnl_pool s' = s_dma_chnl_pool s ∧
    ∀ x, memory s' x = memory s x.
Proof.
  intros Hh. eexists. split; [by apply isr_loop_fold|].
  destruct (fold_bits (isr_order 0 SOC_DMA_CHAN_NUM_PER_UNIT) s) as (C1 & T1 & _ & G1 & P1 & M1).
  { apply (bool_decide_unpack _). by vm_compute. }
  split_and!; try done. intros i Hi. rewrite T1, Nat2Z.id by lia. do 2 f_equal.
  rewrite <-bool_decide_and. apply bool_decide_ext.
  assert (E : i ∈ isr_order 0 SOC_DMA_CHAN_NUM_PER_UNIT ↔ (bit_chan i < SOC_DMA_CHAN_NUM_PER_UNIT)%nat).
  { do 32 (destruct i as [|i]; [apply (bool_decide_unpack _); by vm_compute|]). lia. }
  by rewrite E.
Qed.
End Theorems.
End DmaOps.
