(* ===== verification/DmaApi.v ===== *)
(** * Every call of the DMA driver, and an engine

    The calls of the driver's interface as one type; each returns and touches its
    own channel only.  Then a concrete engine that satisfies the laws, on which the
    theorems are applied, and what a copy does outside its precondition. *)
From S2P Require Import Prelude Bytes Dma DmaOps.
Import Dma DmaOps.
Local Open Scope Z_scope.

Module DmaApi.

(** ** The interface *)
Inductive dma_call :=
| CInit (cfg : option dma_config_t) | CDeinit | CStart | CStop | CEnableStatus
| CWrite (data size : Z) | CRead (data size : Z)
| CEnableFinish | CDisableFinish | CEnableHalf | CDisableHalf
| CRegisterIsr (half fin : option nat) | CTransferLen (len : Z)
| CSrcAddr (a e : Z) | CSrcStart (a : Z) | CDestAddr (a e : Z) | CDestStart (a : Z)
| CSrcInc (on : bool) | CSrcLoop (on : bool) | CDestInc (on : bool) | CDestLoop (on : bool)
| CRemainLen | CSrcPause (a : Z) | CDestPause (a : Z) | CSrcRead | CDestWrite
| CSrcWidth (w : Z) | CDestWidth (w : Z).

Section Api.
Context {C : Type} `{DmaLaws C}.
Implicit Types (s : drv C) (id : nat).

Definition run_call (id : nat) (c : dma_call) : M (drv C) Z :=
  match c with
  | CInit cfg => bk_dma_init id cfg
  | CDeinit => bk_dma_deinit id
  | CStart => bk_dma_start id
  | CStop => bk_dma_stop id
  | CEnableStatus => bk_dma_get_enable_status id
  | CWrite d n => bk_dma_write id d n
  | CRead d n => bk_dma_read id d n
  | CEnableFinish => bk_dma_enable_finish_interrupt id
  | CDisableFinish => bk_dma_disable_finish_interrupt id
  | CEnableHalf => bk_dma_enable_half_finish_interrupt id
  | CDisableHalf => bk_dma_disable_half_finish_interrupt id
  | CRegisterIsr h f => bk_dma_register_isr id h f
  | CTransferLen n => bk_dma_set_transfer_len id n
  | CSrcAddr a e => bk_dma_set_src_addr id a e
  | CSrcStart a => bk_dma_set_src_start_addr id a
  | CDestAddr a e => bk_dma_set_dest_addr id a e
  | CDestStart a => bk_dma_set_dest_start_addr id a
  | CSrcInc on => if on then bk_dma_enable_src_addr_increase id else bk_dma_disable_src_addr_increase id
  | CSrcLoop on => if on then bk_dma_enable_src_addr_loop id else bk_dma_disable_src_addr_loop id
  | CDestInc on => if on then bk_dma_enable_dest_addr_increase id else bk_dma_disable_dest_addr_increase id
  | CDestLoop on => if on then bk_dma_enable_dest_addr_loop id else bk_dma_disable_dest_addr_loop id
  | CRemainLen => bk_dma_get_remain_len id
  | CSrcPause a => dma_set_src_pause_addr id a
  | CDestPause a => dma_set_dst_pause_addr id a
  | CSrcRead => dma_get_src_read_addr id
  | CDestWrite => dma_get_dest_write_addr id
  | CSrcWidth w => bk_dma_set_src_data_width id w
  | CDestWidth w => bk_dma_set_dest_data_width id w
  end.
(** The calls that set the enable bit or read it: the engine works in them. *)
Definition starts (c : dma_call) : bool :=
  match c with CStart | CWrite _ _ | CRead _ _ | CInit _ | CEnableStatus => true | _ => false end.

(** An initialised driver: the tables have their length, and no bit of
    [id_init_bits] stands for a channel that does not exist. *)
Record live s : Prop := {
  lv_ready : ready s;
  lv_init : s_dma_driver_is_init s = true;
  lv_bits : ∀ i, (12 ≤ i)%nat → Z.testbit (id_init_bits s) (Z.of_nat i) = false }.

(** What a call on channel [id] keeps. *)
Record kept id s s' : Prop := {
  kp_live : live s → live s';
  kp_pool : s_dma_chnl_pool s' = s_dma_chnl_pool s;
  kp_group : ∀ j, j ≠ id → config_group (hw s') !! j = config_group (hw s) !! j;
  kp_busy : ∀ j, j ≠ id → busy (hw s') !! j = busy (hw s) !! j;
  kp_bits : ∀ j, j ≠ id → Z.testbit (id_init_bits s') (Z.of_nat j) = Z.testbit (id_init_bits s) (Z.of_nat j);
  kp_isrs : ∀ j, j ≠ id → s_dma_finish_isr s' !! j = s_dma_finish_isr s !! j ∧
                          s_dma_half_finish_isr s' !! j = s_dma_half_finish_isr s !! j;
  kp_calls : calls s' = calls s }.

(** [keeps d id m]: on a live driver [m] returns, keeps the above, and unless [d]
    also the memory. *)
Definition keeps {A} (d : bool) id (m : M (drv C) A) : Prop :=
  ∀ s, live s → wp m s (λ _ s', kept id s s' ∧ (d = false → ∀ x, memory s' x = memory s x)).

Lemma kept_refl id s : kept id s s.
Proof. by split. Qed.
Lemma dma_kept_trans id s1 s2 s3 : kept id s1 s2 → kept id s2 s3 → kept id s1 s3.
Proof.
  intros [L1 P1 G1 B1 I1 H1 C1] [L2 P2 G2 B2 I2 H2 C2]. split; [auto|congruence|..|congruence].
  - intros j N. by rewrite G2, G1.
  - intros j N. by rewrite B2, B1.
  - intros j N. by rewrite I2, I1.
  - intros j N. destruct (H1 j N), (H2 j N). split; congruence.
Qed.

Lemma keeps_ret {A} d id (a : A) : keeps d id (ret a).
Proof. intros s L. apply wp_ret. split; [apply kept_refl|done]. Qed.
Lemma keeps_bind {A B} d id (m : M (drv C) A) (k : A → M (drv C) B) :
  keeps d id m → (∀ a, keeps d id (k a)) → keeps d id (bind m k).
Proof.
  intros Km Kk s L. apply wp_bind. eapply wp_mono; [by apply Km|]. cbv beta. intros a s1 [K1 M1].
  eapply wp_mono; [apply (Kk a); by apply K1|]. cbv beta. intros r s2 [K2 M2]. split; [by eapply dma_kept_trans|].
  intros E x. by rewrite M2, M1.
Qed.
Lemma keeps_gets {A} d id (f : drv C → A) : keeps d id (gets f).
Proof. intros s L. apply wp_gets. split; [apply kept_refl|done]. Qed.
Lemma keeps_any {A} d id (m : M (drv C) A) : keeps false id m → keeps d id m.
Proof. intros K s L. eapply wp_mono; [by apply K|]. cbv beta. intros a s' [Kp Mm]. split; [done|auto]. Qed.

Lemma kept_put id g b c s : (id < 12)%nat → kept id s (put id g b c s).
Proof.
  intros Hi. split; try done.
  - intros [R I B]. split; [by apply ready_put|done|done].
  - intros j N. by apply put_other.
  - intros j N. unfold put. cbn. by apply list_lookup_insert_ne.
Qed.

(** Register operations. *)
Lemma keeps_gop id m f : (id < 12)%nat → gop (C := C) id m f → keeps false id m.
Proof.
  intros Hi G s L. destruct (ready_chan id s (lv_ready _ L) Hi) as (g & b & _ & _ & Es).
  pose proof (G g b (rest (hw s)) s (lv_ready _ L) Hi) as E. rewrite <-Es in E. unfold wp. rewrite E.
  split; [by apply kept_put|done].
Qed.
Lemma keeps_upd_group id f : (id < 12)%nat → keeps false id (upd_group (C := C) id f).
Proof. intros Hi. eapply keeps_gop; [done|apply gop_upd]. Qed.
Lemma keeps_poll id : (id < 12)%nat → keeps true id (dma_ll_get_enable_status id).
Proof.
  intros Hi s L. destruct (ready_chan id s (lv_ready _ L) Hi) as (g & b & _ & _ & Es).
  pose proof (poll_put id g b (rest (hw s)) s (lv_ready _ L) Hi) as E. rewrite <-Es in E. unfold wp. rewrite E.
  split; [by apply kept_put|done].
Qed.
Lemma keeps_start id : (id < 12)%nat → keeps true id (dma_ll_enable id).
Proof.
  intros Hi s L. destruct (ready_chan id s (lv_ready _ L) Hi) as (g & b & _ & _ & Es).
  pose proof (start_put id g b (rest (hw s)) s (lv_ready _ L) Hi) as E. cbv zeta in E. rewrite <-Es in E. unfold wp. rewrite E.
  split; [by apply kept_put|done].
Qed.

Lemma keeps_get {A} id (f : dma_hw C → A) : keeps false id (get_hw f).
Proof. intros s L. unfold wp, get_hw. rewrite (proj1 (lv_ready _ L)). split; [apply kept_refl|done]. Qed.
Lemma keeps_status id v : keeps false id (write_int_status (C := C) v).
Proof.
  intros s L. unfold wp, write_int_status, upd_hw. rewrite (proj1 (lv_ready _ L)).
  split; [|intros _ x; apply int_mem_write]. split; try done. by intros [].
Qed.
Lemma keeps_upd id (f : dma_hw C → dma_hw C) :
  (∀ h, config_group (f h) = config_group h ∧ busy (f h) = busy h ∧ rest (f h) = rest h) → keeps false id (upd_hw f).
Proof.
  intros F s L. unfold wp, upd_hw. rewrite (proj1 (lv_ready _ L)). destruct (F (hw s)) as (E1 & E2 & E3).
  split; [|intros _ x; unfold memory; cbn; by rewrite E3].
  split; try done; cbn; [|by rewrite E1|by rewrite E2]. intros [(? & ? & ?) ? ?]. split; [|done|done].
  unfold ready. cbn. by rewrite E1, E2.
Qed.

(** Driver state. *)
Lemma keeps_isrs id (h f : option nat) : (id < 12)%nat →
  keeps false id (modify (λ s, set_isrs (<[id := f]> (s_dma_finish_isr s)) (<[id := h]> (s_dma_half_finish_isr s)) s)).
Proof.
  intros Hi s L. apply wp_modify. split; [|done]. split; try done; [by intros []|].
  intros j N. cbn. by rewrite !list_lookup_insert_ne.
Qed.
Lemma keeps_gdma id : keeps false id dma_id_enable_interrupt_common.
Proof. intros s L. apply wp_modify. split; [|done]. split; try done. by intros []. Qed.
Lemma keeps_set_bit id : (id < 12)%nat → keeps false id (dma_id_init_common id).
Proof.
  intros Hi s L. apply wp_modify. split; [|done].
  assert (T : ∀ j, j ≠ id → Z.testbit (Z.lor (id_init_bits s) (BIT (Z.of_nat id))) (Z.of_nat j) = Z.testbit (id_init_bits s) (Z.of_nat j)).
  { intros j N. change (Z.lor _ _) with (set_bit (id_init_bits s) (Z.of_nat id)). rewrite testbit_set_bit by lia. rewrite bool_decide_false by lia. by rewrite orb_false_r. }
  split; try done. intros [R I B]. split; [done|done|]. intros i Li. cbn. rewrite T by lia. by apply B.
Qed.
Lemma keeps_clear_bit id : (id < 12)%nat →
  keeps false id (modify (λ s, set_bits (Z.land (id_init_bits s) (Z.lnot (BIT (Z.of_nat id)))) s)).
Proof.
  intros Hi s L. apply wp_modify. split; [|done].
  assert (T : ∀ j, j ≠ id → Z.testbit (Z.land (id_init_bits s) (Z.lnot (BIT (Z.of_nat id)))) (Z.of_nat j) = Z.testbit (id_init_bits s) (Z.of_nat j)).
  { intros j N. change (Z.land _ (Z.lnot _)) with (clear_bit (id_init_bits s) (Z.of_nat id)). rewrite testbit_clear_bit by lia. rewrite bool_decide_false by lia. by rewrite andb_true_r. }
  split; try done. intros [R I B]. split; [done|done|]. intros i Li. cbn. rewrite T by lia. by apply B.
Qed.

(** Checks. *)
Lemma keeps_not_init d id e k : keeps d id k → keeps d id (return_on_not_init e k).
Proof.
  intros K s L. unfold return_on_not_init. apply wp_bind, wp_gets. rewrite (lv_init _ L). cbn [negb]. by apply K.
Qed.
Lemma keeps_invalid_id d id e k : ((id < 12)%nat → keeps d id k) → keeps d id (return_on_invalid_id id e k).
Proof. intros K. unfold return_on_invalid_id. destruct (Nat.leb_spec SOC_DMA_CHAN_NUM_PER_UNIT id); [apply keeps_ret|by apply K]. Qed.
Lemma keeps_id_not_init d id e k : (id < 32)%nat → ((id < 12)%nat → keeps d id k) → keeps d id (return_on_id_not_init id e k).
Proof.
  intros Hi K s L. unfold return_on_id_not_init. rewrite (proj2 (Nat.leb_gt _ _)) by done. apply wp_bind, wp_gets.
  destruct (Nat.le_gt_cases 12 id) as [G|G].
  - rewrite (lv_bits _ L) by done. by apply keeps_ret.
  - destruct (Z.testbit _ _); cbn [negb]; [by apply K|by apply keeps_ret].
Qed.
Lemma keeps_invalid_addr d id p k : keeps d id k → keeps d id (return_on_invalid_addr p k).
Proof. intros K. unfold return_on_invalid_addr. destruct (invalid_addr p); [apply keeps_ret|done]. Qed.
Lemma keeps_on_channel d id op : ((id < 12)%nat → keeps d id op) → keeps d id (on_channel id op).
Proof.
  intros K. apply keeps_not_init, keeps_invalid_id. intros Hi. apply keeps_bind; [by apply K|]. intros _. apply keeps_ret.
Qed.
Lemma keeps_if {A} d id (v : bool) (m k : M (drv C) A) : keeps d id m → keeps d id k → keeps d id (if v then m else k).
Proof. by destruct v. Qed.
End Api.

(** One step along the structure of a call; leaves are the register operations and
    the lemmas in the hint database. *)
Create HintDb dma.
#[export] Hint Resolve keeps_ret keeps_gets keeps_get keeps_status keeps_gdma keeps_poll keeps_start keeps_isrs
  keeps_set_bit keeps_clear_bit keeps_upd_group : dma.
Ltac keep := repeat first
  [ apply keeps_not_init | apply keeps_id_not_init; [assumption|intros ?] | apply keeps_invalid_id; intros ?
  | apply keeps_invalid_addr | apply keeps_on_channel; intros ?
  | solve [auto 2 with dma] | solve [apply keeps_any; auto 2 with dma]
  | solve [apply keeps_upd_group; assumption] | solve [apply keeps_any, keeps_upd_group; assumption]
  | apply keeps_if | solve [apply keeps_upd; done] | apply keeps_bind; [|intros ?] ].

Section Frame.
Context {C : Type} `{DmaLaws C}.
Implicit Types (s : drv C) (id : nat).

Lemma keeps_len id n : (id < 12)%nat → keeps (C := C) false id (dma_ll_set_transfer_len id n).
Proof. intros Hi. eapply keeps_gop; [done|apply len_put]. Qed.
Lemma keeps_start_common id : (id < 12)%nat → keeps (C := C) true id (dma_hal_start_common id).
Proof. intros Hi. unfold dma_hal_start_common. keep. Qed.
Lemma keeps_stop_common id : (id < 12)%nat → keeps (C := C) false id (dma_hal_stop_common id).
Proof.
  intros Hi. unfold dma_hal_stop_common, dma_ll_clear_interrupt_status, dma_ll_clear_half_finish_interrupt_status,
    dma_ll_clear_finish_interrupt_status, dma_ll_disable. keep.
Qed.
Local Hint Resolve keeps_len keeps_start_common keeps_stop_common : dma.
Lemma keeps_deinit id : (id < 12)%nat → keeps (C := C) false id (dma_id_deinit_common id).
Proof.
  intros Hi. unfold dma_id_deinit_common. keep.
Qed.
Lemma keeps_init_dma id cfg : (id < 12)%nat → keeps (C := C) false id (dma_hal_init_dma id cfg).
Proof.
  intros Hi. unfold dma_hal_init_dma. keep.
Qed.

Lemma keeps_range id : (id < 12)%nat → keeps (C := C) false id (in_range id).
Proof. intros Hi. unfold in_range. rewrite (proj2 (Nat.ltb_lt _ _)) by done. apply keeps_ret. Qed.

Lemma keeps_register id h f : keeps (C := C) false id (bk_dma_register_isr id h f).
Proof. unfold bk_dma_register_isr. keep. Qed.

Local Hint Resolve keeps_deinit keeps_init_dma keeps_register keeps_range : dma.

(** Every call of the interface is safe and local: on an initialised driver a
    call for any channel number below 32 returns (no access outside the register
    arrays, no loop that does not end), keeps the driver initialised, and leaves the
    registers, init bits and handlers of the other channels, and the pool, as they
    were; memory changes only in the calls that start a channel or read its enable
    bit, while the engine works. *)
Theorem dma_api_frame s id c : live s → (id < 32)%nat →
  ∃ r s', run_call id c s = Done (r, s') ∧ live s' ∧ kept id s s' ∧
    (starts c = false → ∀ x, memory s' x = memory s x).
Proof.
  intros L Hi. assert (K : keeps (starts c) id (run_call id c)).
  { destruct c; cbn [run_call starts]; try (destruct on);
      unfold bk_dma_init, bk_dma_deinit, bk_dma_start, bk_dma_stop, bk_dma_get_enable_status, bk_dma_write, bk_dma_read,
        bk_dma_enable_finish_interrupt, bk_dma_disable_finish_interrupt, bk_dma_enable_half_finish_interrupt,
        bk_dma_disable_half_finish_interrupt, bk_dma_set_transfer_len, bk_dma_set_src_addr, bk_dma_get_remain_len,
        dma_get_src_read_addr, dma_get_dest_write_addr, read_channel, dma_ll_get_remain_len, dma_ll_get_src_read_addr,
        dma_ll_get_dest_write_addr, dma_ll_is_id_started, dma_ll_clear_finish_interrupt_status,
        dma_ll_clear_half_finish_interrupt_status, dma_set_src_pause_addr, dma_set_dst_pause_addr, dma_ll_set_src_pause_addr,
        dma_ll_set_dest_pause_addr; try (destruct cfg); keep.
    all: match goal with |- ?G => idtac G end. }
  destruct (wp_inv _ _ _ (K s L)) as (r & s' & E & Kp & Mm). exists r, s'. split_and!; [done|by apply Kp|done|done].
Qed.

Lemma nth_none {A} n i : nth i (replicate n (None : option A)) None = None.
Proof. revert i. by induction n; intros []; cbn. Qed.

Definition with_groups (gs : list group) s : drv C :=
  set_hw (mk_hw gs (src_pause_addr (hw s)) (dest_pause_addr (hw s)) (prio_mode (hw s)) (busy (hw s)) (rest (hw s))) s.
Lemma zero_groups_run n s : hal_hw s = true → (n ≤ length (config_group (hw s)))%nat →
  zero_groups n s = Done (tt, with_groups (replicate n zero_group ++ drop n (config_group (hw s))) s).
Proof.
  intros Hh. induction n as [|n IH]; intros Hn; cbn [zero_groups].
  - unfold with_groups, set_hw. cbn [replicate app drop]. by destruct s as [? [] ? ? ? ? ? ? ? ?].
  - rewrite (bind_done _ _ _ _ _ (IH ltac:(lia))).
    destruct (lookup_lt_is_Some_2 (config_group (hw s)) n) as [g G]; [lia|].
    unfold upd_group, get_group, get_hw, upd_hw, bind, with_groups, set_hw, set_group.
    cbn [hal_hw hw config_group]. rewrite Hh. rewrite (drop_S _ _ _ G).
    rewrite lookup_app_r, length_replicate, Nat.sub_diag by (rewrite length_replicate; lia). cbn [lookup list_lookup ret]. unfold ret. cbn [hal_hw hw config_group]. 
    rewrite insert_app_r_alt, length_replicate, Nat.sub_diag by (rewrite length_replicate; lia).
    rewrite replicate_S_end, <-app_assoc. reflexivity.
Qed.

#[local] Opaque zero_groups.
(** Initialisation makes an uninitialised driver whose register file has its
    size live: every channel's registers are zero, no channel is allocated or marked
    initialised, and no handler is registered; a second call changes nothing. *)
Theorem bk_dma_driver_init_ok s : s_dma_driver_is_init s = false →
  length (config_group (hw s)) = 12%nat → length (busy (hw s)) = 12%nat →
  ∃ s', bk_dma_driver_init s = Done (BK_OK, s') ∧ live s' ∧ inited s' ∅ ∧
    config_group (hw s') = replicate 12 zero_group ∧ id_init_bits s' = 0 ∧
    (∀ i, handler s' i = None) ∧ isr_registered s' = true ∧ (∀ x, memory s' x = memory s x) ∧
    bk_dma_driver_init s' = Done (BK_OK, s').
Proof.
  intros I Lg Lb. destruct s as [hh [gs sp dp pm bz rs] ib fi hi ii po ir gi ca]. cbn in I, Lg, Lb. subst ii.
  exists (mk_drv true (mk_hw (replicate 12 zero_group) sp dp 0 bz (dev_write_int_status 0 rs)) 0 no_isrs no_isrs true empty_pool true gi ca).
  split.
  { unfold bk_dma_driver_init, dma_hal_init, dma_ll_init, gets, modify. unfold bind at 1. cbn [s_dma_driver_is_init].
    unfold bind, modify, ret. cbn. rewrite zero_groups_run by (cbn; unfold SOC_DMA_CHAN_NUM_PER_UNIT; lia).
    cbn [with_groups hw config_group]. rewrite drop_ge, app_nil_r by (cbn; unfold SOC_DMA_CHAN_NUM_PER_UNIT; lia). reflexivity. }
  split_and!; try done.
  - split; [done|done|]. intros i _. apply Z.bits_0.
  - split; [done|apply empty_rep].
  - intros i. unfold handler. cbn [s_dma_finish_isr s_dma_half_finish_isr]. destruct (i <? 16)%nat; apply nth_none.
  - intros x. apply int_mem_write.
Qed.
#[local] Transparent zero_groups.

(** The result of [bk_dma_init] is not looked at: a copy that runs over the end of
    the address space starts the channel with the registers of its last use. *)
Theorem memcpy_ignores_init s id out in_ len : live s → (id < 12)%nat →
  invalid_addr (src (memcpy_config out in_ len)) = true →
  dma_memcpy_by_chnl out in_ len id s =
  (dma_ll_set_transfer_len id len ;;; dma_hal_start_common id ;;; wait_done id ;;; ret BK_OK) s.
Proof.
  intros L Hi V. unfold dma_memcpy_by_chnl, return_on_not_init, bk_dma_init, return_on_invalid_id, return_on_invalid_addr.
  unfold gets at 1, bind at 1. rewrite (lv_init _ L). cbn [negb]. rewrite (proj2 (Nat.leb_gt _ _)), V by done.
  erewrite bind_done; [reflexivity|]. unfold return_on_not_init, gets, bind. by rewrite (lv_init _ L).
Qed.
End Frame.

(** ** An engine *)
(** [c_job]: the transfer that runs, with the steps before its last one. *)
Record Chip := mk_chip { c_mem : Z → Z; c_int : Z; c_job : option (nat * (nat * Z * Z * Z)) }.
(** Copies whatever the group describes, and is seen busy three times; the copy is
    in memory, and the status bit set, only with the last step. *)
Definition chip_start (id : nat) (h : dma_hw Chip) : Chip * option nat :=
  match config_group h !! id with
  | Some g => (mk_chip (c_mem (rest h)) (c_int (rest h))
                 (Some (3%nat, (id, src_start_addr g, dest_start_addr g, field (ctrl g) 16 16 + 1))), Some 3%nat)
  | None => (rest h, None)
  end.
Definition chip_step (c : Chip) : Chip :=
  match c_job c with
  | Some (S k, j) => mk_chip (c_mem c) (c_int c) (Some (k, j))
  | Some (O, (id, s, d, n)) => mk_chip (copied (c_mem c) s d n) (Z.lor (c_int c) (BIT (Z.of_nat id))) None
  | None => c
  end.
#[export] Instance chip_device : DmaDevice Chip := {|
  dev_start := chip_start; dev_step := chip_step; dev_int_status := c_int;
  dev_write_int_status := λ v c, mk_chip (c_mem c) (Z.land (c_int c) (Z.lnot v)) (c_job c);
  dev_remain_len := λ _ _, 0; dev_src_rd_addr := λ _ _, 0; dev_dest_wr_addr := λ _ _, 0 |}.
#[export] Instance chip_laws : DmaLaws Chip.
Proof.
  refine {| dev_mem := c_mem |}; [done|done|]. intros h id g s d n G (E1 & E2 & E3 & _) _.
  cbn. unfold chip_start. rewrite G, E1, E2, E3. by exists 3%nat.
Defined.

(** ** Witnesses *)
Definition boot : drv Chip :=
  mk_drv false (mk_hw (replicate 12 (mk_group 1 2 3 4 5 6 7 8)) (replicate 12 0) (replicate 12 0) 1 (replicate 12 None) (mk_chip (λ x, x mod 256) 7 None))
    5 (replicate 12 (Some 1%nat)) no_isrs false (mk_pool 3 (replicate 12 0)) false false [].
Definition after {A} (m : M (drv Chip) A) (s : drv Chip) : drv Chip :=
  match m s with Done (_, s') => s' | Trap _ => s end.
Definition demo : drv Chip := after bk_dma_driver_init boot.
Definition demo_held : drv Chip := after (bk_dma_alloc 9) demo.

Lemma demo_live : live demo.
Proof. split; [by split_and!|done|]. intros i _. apply Z.bits_0. Qed.
Lemma demo_inited : inited demo ∅.
Proof. split; [done|apply empty_rep]. Qed.
Lemma demo_held_inited : inited demo_held {[0%nat := 9]}.
Proof.
  destruct (alloc_spec empty_pool ∅ 9 empty_rep) as [[_ E]|(_ & _ & _ & P)]; [discriminate E|]. split; [done|exact P].
Qed.

Lemma bk_dma_driver_init_ok_witness : ∃ s', bk_dma_driver_init boot = Done (BK_OK, s') ∧ live s' ∧ inited s' ∅ ∧
    config_group (hw s') = replicate 12 zero_group ∧ id_init_bits s' = 0 ∧
    (∀ i, handler s' i = None) ∧ isr_registered s' = true ∧ (∀ x, memory s' x = memory boot x) ∧
    bk_dma_driver_init s' = Done (BK_OK, s').
Proof. apply (bk_dma_driver_init_ok boot); done. Defined.

Lemma dma_api_frame_witness : ∃ r s', run_call 3 (CWrite 100 8) demo = Done (r, s') ∧ live s' ∧ kept 3 demo s' ∧
    (starts (CWrite 100 8) = false → ∀ x, memory s' x = memory demo x).
Proof. apply (dma_api_frame demo 3 (CWrite 100 8)); [apply demo_live|lia]. Defined.

Lemma dma_pool_refines_witness :
  (∃ i s', bk_dma_alloc 9 demo = Done (i, s') ∧ alloc_ok demo ∅ 9 i s') ∧
  (∃ r s', bk_dma_free 9 0 demo = Done (r, s') ∧ free_ok demo ∅ 9 0 r s') ∧
  bk_dma_user 0 demo = Done (default NO_USER ((∅ : gmap nat Z) !! 0%nat), demo).
Proof. apply (dma_pool_refines demo ∅ 9 0), demo_inited. Defined.

Lemma demo_idle : idle demo.
Proof. intros j g G. apply list_elem_of_lookup_2 in G. revert g G. apply Forall_forall, (bool_decide_unpack _). by vm_compute. Qed.
(** Without the wait the bytes would not be there yet. *)
Definition demo_unwaited : drv Chip :=
  after (bk_dma_init 0 (Some (memcpy_config 0x2000 0x1001 100)) ;;; dma_ll_set_transfer_len 0 100 ;;; dma_hal_start_common 0) demo.
Example demo_wait : (memory demo_unwaited 0x2000, memory (after (wait_done 0) demo_unwaited) 0x2000) = (0, 1).
Proof. by vm_compute. Qed.

Definition demo_ops : list pool_op := [Alloc 4; Free 7 0; Free 4 1; Alloc 9; Free 4 0].
Lemma dma_channel_exclusive_witness : ∃ rs s' m',
  run_calls demo_ops demo_held = Done (rs, s') ∧ inited s' m' ∧ m' !! 0%nat = Some (u16 9) ∧
    (∀ k w, demo_ops !! k = Some (Alloc w) → rs !! k ≠ Some (Z.of_nat 0)).
Proof.
  apply (dma_channel_exclusive demo_ops demo_held {[0%nat := 9]} 0 9).
  - apply demo_held_inited.
  - by vm_compute.
  - intros u' E. unfold demo_ops. rewrite !elem_of_cons. intros [?|[[= -> ]|[?|[?|[[= ->]|?%not_elem_of_nil]]]]]; done.
Defined.

Definition demo_cfg : dma_config_t :=
  mk_dma_config 1 5 (mk_port DMA_DEV_JPEG 2 0 0 0x1000 0x2000) (mk_port DMA_DEV_DTCM 2 1 1 0x30000 0x40000).
Lemma bk_dma_init_ok_witness :
  bk_dma_init 4 None demo = Done (BK_ERR_NULL_PARAM, demo) ∧
  ((12 ≤ 4)%nat → bk_dma_init 4 (Some demo_cfg) demo = Done (BK_ERR_DMA_ID, demo)) ∧
  ((4 < 12)%nat → invalid_addr (src demo_cfg) || invalid_addr (dst demo_cfg) = true →
     bk_dma_init 4 (Some demo_cfg) demo = Done (BK_ERR_DMA_INVALID_ADDR, demo)) ∧
  ((4 < 12)%nat → invalid_addr (src demo_cfg) || invalid_addr (dst demo_cfg) = false →
     ∃ s' g g', bk_dma_init 4 (Some demo_cfg) demo = Done (BK_OK, s') ∧
       config_group (hw demo) !! 4%nat = Some g ∧ config_group (hw s') !! 4%nat = Some g' ∧ configured demo_cfg g g' ∧
       (∀ j, j ≠ 4%nat → config_group (hw s') !! j = config_group (hw demo) !! j) ∧
       id_init_bits s' = Z.lor (id_init_bits demo) (BIT (Z.of_nat 4)) ∧
       (field (ctrl g) 0 1 = 0 → rest (hw s') = rest (hw demo)) ∧ s_dma_chnl_pool s' = s_dma_chnl_pool demo ∧
       s_dma_finish_isr s' = s_dma_finish_isr demo ∧ s_dma_half_finish_isr s' = s_dma_half_finish_isr demo).
Proof. apply (bk_dma_init_ok demo 4 demo_cfg); [apply demo_live|done]. Defined.

Lemma dma_memcpy_ok_witness :
  (full ∅ → dma_memcpy 0x2000 0x1000 100 demo = Done (BK_ERR_DMA_ID, demo)) ∧
  (¬ full ∅ → ∃ id s', dma_memcpy 0x2000 0x1000 100 demo = Done (BK_OK, s') ∧ (∅ : gmap nat Z) !! id = None ∧
     (∃ g, config_group (hw s') !! id = Some g ∧ field (ctrl g) 0 1 = 0) ∧
     (idle demo → ∀ x, memory s' x = copied (memory demo) 0x1000 0x2000 (copy_len 100) x) ∧
     s_dma_chnl_pool s' = s_dma_chnl_pool demo ∧ ready s' ∧
     (∀ j, j ≠ id → config_group (hw s') !! j = config_group (hw demo) !! j)) ∧
  (1 ≤ 100 ≤ 2 ^ 16 → copy_len 100 = 100) ∧ idle demo.
Proof.
  rewrite (and_assoc (¬ full ∅ → _)), (and_assoc (full ∅ → _)). split; [|exact demo_idle].
  apply (dma_memcpy_ok demo ∅ 0x2000 0x1000 100); [apply demo_live|apply demo_inited|lia..|].
  unfold copyable. change (copy_len 100) with 100. split_and!; first [done|lia].
Defined.

Definition demo_pending : drv Chip :=
  after (bk_dma_register_isr 2 (Some 7%nat) (Some 8%nat)) (set_hw (set_rest (mk_chip (λ x, x) 0x4000E None) (hw demo)) demo).
Lemma dma_isr_ok_witness : ∃ s', dma_isr demo_pending = Done (tt, s') ∧
    calls s' = calls demo_pending ++ isr_calls demo_pending (isr_order 0 SOC_DMA_CHAN_NUM_PER_UNIT) ∧
    (∀ i, (i < 32)%nat → Z.testbit (status s') (Z.of_nat i) =
       Z.testbit (status demo_pending) (Z.of_nat i) &&
       negb (bool_decide (bit_chan i < SOC_DMA_CHAN_NUM_PER_UNIT)%nat && bool_decide (is_Some (handler demo_pending i)))) ∧
    config_group (hw s') = config_group (hw demo_pending) ∧ s_dma_chnl_pool s' = s_dma_chnl_pool demo_pending ∧
    ∀ x, memory s' x = memory demo_pending x.
Proof. apply (dma_isr_ok demo_pending). done. Defined.
(** Both handlers of channel 2 run, half first; bits 1 and 3 have no handler and stay. *)
Example demo_isr : match dma_isr demo_pending with
  | Done (_, s') => (calls s', c_int (rest (hw s'))) | Trap _ => ([], 0) end = ([(7, 2); (8, 2)]%nat, 0xA).
Proof. by vm_compute. Qed.
End DmaApi.
