(* ===== verification/AmpCnt.v ===== *)
(** * Resources shared by the two processors: counters and semaphores

    The part of middleware/driver/spinlock/amp_res_lock.c that runs in one step:
    the request counters, kept on the master core, and the semaphore that each core
    has per resource, with the semaphore calls of
    components/bk_os/liteos_m_mst/rtos_pub.c below them.

    A binary semaphore of LiteOS-M is a count of zero or one and the number of
    tasks that wait: taking it succeeds, waits, or with no time given fails;
    posting hands it to a waiting task, sets the count, or fails when it is set.
    Both cores are in one state; core 0 is the master. *)
From S2P Require Import Prelude Bytes.
Local Open Scope Z_scope.

Inductive cpu := CPU0 | CPU1.
#[export] Instance cpu_eq : EqDecision cpu.
Proof. solve_decision. Defined.
Definition other (c : cpu) : cpu := match c with CPU0 => CPU1 | CPU1 => CPU0 end.
Definition cpu_id (c : cpu) : Z := match c with CPU0 => 0 | CPU1 => 1 end.

Module AmpCnt.

Definition AMP_RES_ID_MAX : Z := 3.
Definition AMP_CPU_CNT : Z := 2.
Definition kNoErr : Z := 0.
Definition kGeneralErr : Z := -1.
Definition kTimeoutErr : Z := -6722.

(** ** Semaphores *)
Record sem := mk_sem { sem_count : bool; waiters : nat }.

(** What becomes of a task that takes a semaphore. *)
Inductive pend := Taken | Waits | TimedOut.
(** [rtos_get_semaphore]: with [wait] false the time is 0. *)
Definition rtos_get_semaphore (wait : bool) (x : sem) : pend * sem :=
  if sem_count x then (Taken, mk_sem false (waiters x))
  else if wait then (Waits, mk_sem false (S (waiters x))) else (TimedOut, x).
(** [rtos_set_semaphore]: the result, and whether a waiting task got it. *)
Definition rtos_set_semaphore (x : sem) : Z * bool * sem :=
  match waiters x with
  | S n => (kNoErr, true, mk_sem (sem_count x) n)
  | O => if sem_count x then (kGeneralErr, false, x) else (kNoErr, false, mk_sem true 0)
  end.

(** ** One resource *)
Record core := mk_core { inited : bool; res_sema : sem; held : nat }.
(** [held]: tasks of this core whose request was granted and that have not released
    it; it is not in the code. *)
Record amp_res := mk_res { req_cnt0 : Z; req_cnt1 : Z; core0 : core; core1 : core }.
Record amp_res_req_cnt_t := mk_cnt { self_req_cnt : Z; others_req_cnt : Z }.
Definition amp := list amp_res.

Definition req_cnt (c : cpu) (r : amp_res) : Z := match c with CPU0 => req_cnt0 r | CPU1 => req_cnt1 r end.
Definition set_req_cnt (c : cpu) (v : Z) (r : amp_res) : amp_res :=
  match c with CPU0 => mk_res v (req_cnt1 r) (core0 r) (core1 r) | CPU1 => mk_res (req_cnt0 r) v (core0 r) (core1 r) end.
Definition get_core (c : cpu) (r : amp_res) : core := match c with CPU0 => core0 r | CPU1 => core1 r end.
Definition set_core (c : cpu) (x : core) (r : amp_res) : amp_res :=
  match c with CPU0 => mk_res (req_cnt0 r) (req_cnt1 r) x (core1 r) | CPU1 => mk_res (req_cnt0 r) (req_cnt1 r) (core0 r) x end.

(** ** The counters *)
(** [cpu_id] comes in a message; [AMP_CPU_CNT] is the number of counters. *)
Definition cpu_of (id : Z) : option cpu := if id =? 0 then Some CPU0 else if id =? 1 then Some CPU1 else None.

(** The sum over all processors in the code's loop, less the own count. *)
Definition others (self : Z) (r : amp_res) : Z := u16 (u16 (u16 (0 + req_cnt0 r) + req_cnt1 r) - self).

Definition amp_res_acquire_cnt (res_id id : Z) (a : amp) : Z * option amp_res_req_cnt_t * amp :=
  if AMP_RES_ID_MAX <=? res_id then (BK_ERR_PARAM, None, a)
  else match a !! Z.to_nat res_id with
  | None => (BK_ERR_PARAM, None, a)
  | Some r =>
      if negb (inited (core0 r)) then (BK_ERR_NOT_INIT, None, a)
      else match cpu_of id with
      | None => (BK_ERR_PARAM, None, a)
      | Some c =>
          let self := req_cnt c r in
          (BK_OK, Some (mk_cnt self (others self r)), <[Z.to_nat res_id := set_req_cnt c (u16 (self + 1)) r]> a)
      end
  end.

Definition amp_res_release_cnt (res_id id : Z) (a : amp) : Z * option amp_res_req_cnt_t * amp :=
  if AMP_RES_ID_MAX <=? res_id then (BK_ERR_PARAM, None, a)
  else match a !! Z.to_nat res_id with
  | None => (BK_ERR_PARAM, None, a)
  | Some r =>
      if negb (inited (core0 r)) then (BK_ERR_NOT_INIT, None, a)
      else match cpu_of id with
      | None => (BK_ERR_PARAM, None, a)
      | Some c =>
          if 0 <? req_cnt c r then
            let r' := set_req_cnt c (u16 (req_cnt c r - 1)) r in
            let self := req_cnt c r' in
            (BK_OK, Some (mk_cnt self (others self r')), <[Z.to_nat res_id := r']> a)
          else (BK_FAIL, None, a)
      end
  end.

(** ** Semaphore calls on core [c] *)
Definition upd_core (c : cpu) (res_id : Z) (f : core → core) (a : amp) : amp :=
  match a !! Z.to_nat res_id with Some r => <[Z.to_nat res_id := set_core c (f (get_core c r)) r]> a | None => a end.

(** A granted request counts as held. *)
Definition set_sema (c : cpu) (res_id : Z) (a : amp) : Z * amp :=
  match a !! Z.to_nat res_id with
  | None => (kGeneralErr, a)
  | Some r =>
      let k := get_core c r in
      let p := rtos_set_semaphore (res_sema k) in
      (p.1.1, <[Z.to_nat res_id := set_core c (mk_core (inited k) p.2 (if p.1.2 then S (held k) else held k)) r]> a)
  end.
Definition get_sema (c : cpu) (res_id : Z) (wait grants : bool) (a : amp) : pend * amp :=
  match a !! Z.to_nat res_id with
  | None => (TimedOut, a)
  | Some r =>
      let k := get_core c r in
      let p := rtos_get_semaphore wait (res_sema k) in
      let got := match p.1 with Taken => grants | _ => false end in
      (p.1, <[Z.to_nat res_id := set_core c (mk_core (inited k) p.2 (if got then S (held k) else held k)) r]> a)
  end.

(** Called from the interrupt routine of core [c]. *)
Definition amp_res_available (c : cpu) (res_id : Z) (a : amp) : Z * amp :=
  if AMP_RES_ID_MAX <=? res_id then (BK_ERR_PARAM, a)
  else match a !! Z.to_nat res_id with
  | None => (BK_ERR_PARAM, a)
  | Some r => if negb (inited (get_core c r)) then (BK_ERR_NOT_INIT, a) else set_sema c res_id a
  end.

(** [init_ret]: the result of creating the semaphore. *)
Definition amp_res_lock_init (c : cpu) (init_ret res_id : Z) (a : amp) : Z * amp :=
  if AMP_RES_ID_MAX <=? res_id then (BK_ERR_PARAM, a)
  else match a !! Z.to_nat res_id with
  | None => (BK_ERR_PARAM, a)
  | Some r =>
      if inited (get_core c r) then (BK_OK, a)
      else
        let r := match c with CPU0 => set_req_cnt CPU1 0 (set_req_cnt CPU0 0 r) | CPU1 => r end in
        if negb (init_ret =? BK_OK) then (init_ret, <[Z.to_nat res_id := r]> a)
        else (BK_OK, <[Z.to_nat res_id := set_core c (mk_core true (mk_sem true 0) 0) r]> a)
  end.
End AmpCnt.
