(* ===== verification/MbIpc.v ===== *)
(** * Commands between the processors: middleware/driver/mailbox/mb_ipc_cmd.c

    A request is a message over a logical mailbox channel (Mailbox.v) that points
    to parameters in an exchange buffer in shared memory; the answer comes back in
    the acknowledgement, with its data in the same buffer.  The slave core uses it
    for the channel pool of the DMA driver (Dma.v) and the counters of the resource
    lock (AmpCnt.v), which are on the master core.

    Modelled: the channel block, both interrupt callbacks, the command handlers of
    both cores and the calls over them, for the control channel; the channel for
    remote calls is in MbRpc.v.  Both cores are in one state.
    [ipc_send_cmd] is split at the wait for the answer, so that the interrupts of
    both cores can come in any order; a complete exchange is [ipc_exchange].  The
    address of the shared memory, the padding of a message and the result of
    writing it are parameters.  The semaphore that admits one sender at a time is
    left out: a sender is one task. *)
From S2P Require Import Prelude Bytes Mailbox Dma AmpCnt.
Local Open Scope Z_scope.

Module MbIpc.
Export Mailbox.
Import AmpCnt.

Definition IPC_RSP_CMD_FLAG : Z := 0x80.
Definition IPC_RSP_CMD_MASK : Z := 0x7F.
Definition IPC_XCHG_DATA_MAX : Z := 64.
Definition ACK_STATE_PENDING : Z := 1.
Definition ACK_STATE_COMPLETE : Z := 2.
Definition ACK_STATE_FAIL : Z := 3.
Definition MB_CHNL_HW_CTRL : Z := 0.

(** The command numbers of mb_ipc_cmd.h. *)
Definition IPC_TEST_CMD : Z := 0.
Definition IPC_CPU1_POWER_UP_INDICATION : Z := 1.
Definition IPC_CPU1_HEART_BEAT_INDICATION : Z := 2.
Definition IPC_GET_POWER_SAVE_FLAG : Z := 3.
Definition IPC_GET_CPU1_HEART_RATE : Z := 4.
Definition IPC_SET_CPU1_HEART_RATE : Z := 5.
Definition IPC_RES_ACQUIRE_CNT : Z := 6.
Definition IPC_RES_RELEASE_CNT : Z := 7.
Definition IPC_RES_AVAILABLE_INDICATION : Z := 8.
Definition IPC_ALLOC_DMA_CHNL : Z := 9.
Definition IPC_FREE_DMA_CHNL : Z := 10.
Definition IPC_DMA_CHNL_USER : Z := 11.

(** ** State *)
Record ipc_chnl_cb_t := mk_cb {
  chnl_inited : bool;
  chnl_id : Z;
  rsp_sema : bool;
  tx_xchg_buff : Z;
  tx_cmd : Z;
  tx_cmd_in_process : bool;
  tx_cmd_failed : bool;
  rsp_buf : list Z;
  rsp_len : Z;
  rx_xchg_buff : Z;
  rx_cmd : Z;
  rx_cmd_in_process : bool;
  cmd_buf : list Z;
  cmd_len : Z }.

(** Both cores: their channel blocks, the two exchange buffers of the channel, and
    what the master core serves. *)
Record sys := mk_sys {
  cb0 : ipc_chnl_cb_t; cb1 : ipc_chnl_cb_t;
  client_buff : list Z; server_buff : list Z;
  pool : Dma.dma_chnl_pool_t; locks : amp }.

Definition cb (c : cpu) (s : sys) : ipc_chnl_cb_t := match c with CPU0 => cb0 s | CPU1 => cb1 s end.
Definition set_cb (c : cpu) (b : ipc_chnl_cb_t) (s : sys) : sys :=
  match c with
  | CPU0 => mk_sys b (cb1 s) (client_buff s) (server_buff s) (pool s) (locks s)
  | CPU1 => mk_sys (cb0 s) b (client_buff s) (server_buff s) (pool s) (locks s)
  end.
Definition set_client l s := mk_sys (cb0 s) (cb1 s) l (server_buff s) (pool s) (locks s).
Definition set_server l s := mk_sys (cb0 s) (cb1 s) (client_buff s) l (pool s) (locks s).
Definition set_pool p s := mk_sys (cb0 s) (cb1 s) (client_buff s) (server_buff s) p (locks s).
Definition set_locks a s := mk_sys (cb0 s) (cb1 s) (client_buff s) (server_buff s) (pool s) a.
Definition upd_cb (c : cpu) (f : ipc_chnl_cb_t → ipc_chnl_cb_t) : M sys unit := modify (λ s, set_cb c (f (cb c s)) s).

Definition b_sema v b := mk_cb (chnl_inited b) (chnl_id b) v (tx_xchg_buff b) (tx_cmd b) (tx_cmd_in_process b) (tx_cmd_failed b) (rsp_buf b) (rsp_len b) (rx_xchg_buff b) (rx_cmd b) (rx_cmd_in_process b) (cmd_buf b) (cmd_len b).
Definition b_tx cmd proc failed b := mk_cb (chnl_inited b) (chnl_id b) (rsp_sema b) (tx_xchg_buff b) cmd proc failed (rsp_buf b) (rsp_len b) (rx_xchg_buff b) (rx_cmd b) (rx_cmd_in_process b) (cmd_buf b) (cmd_len b).
Definition b_proc proc b := b_tx (tx_cmd b) proc (tx_cmd_failed b) b.
Definition b_done failed b := b_tx (tx_cmd b) false failed b.
Definition b_rsp l n b := mk_cb (chnl_inited b) (chnl_id b) (rsp_sema b) (tx_xchg_buff b) (tx_cmd b) (tx_cmd_in_process b) (tx_cmd_failed b) l n (rx_xchg_buff b) (rx_cmd b) (rx_cmd_in_process b) (cmd_buf b) (cmd_len b).
Definition b_rx cmd proc b := mk_cb (chnl_inited b) (chnl_id b) (rsp_sema b) (tx_xchg_buff b) (tx_cmd b) (tx_cmd_in_process b) (tx_cmd_failed b) (rsp_buf b) (rsp_len b) (rx_xchg_buff b) cmd proc (cmd_buf b) (cmd_len b).
Definition b_cmd l n b := mk_cb (chnl_inited b) (chnl_id b) (rsp_sema b) (tx_xchg_buff b) (tx_cmd b) (tx_cmd_in_process b) (tx_cmd_failed b) (rsp_buf b) (rsp_len b) (rx_xchg_buff b) (rx_cmd b) (rx_cmd_in_process b) l n.

(** ** Messages *)
(** [ipc_cmd_t] and [ipc_rsp_t]: pointer and length in the second and third word,
    the state of an answer in the fourth. *)
Definition msg_buff (d : mailbox_data_t) : Z := param1 d.
Definition msg_len (d : mailbox_data_t) : Z := field (param2 d) 0 16.
Definition set_buff (a : Z) (d : mailbox_data_t) := mk_data (param0 d) a (param2 d) (param3 d).
Definition set_len (n : Z) (d : mailbox_data_t) := mk_data (param0 d) (param1 d) (set_field (param2 d) 0 16 n) (param3 d).
Definition set_state (v : Z) (d : mailbox_data_t) := mk_data (param0 d) (param1 d) (param2 d) v.

Definition le16_bytes (w : Z) : list Z := [w mod 256; (w / 256) mod 256].
Definition le16 (l : list Z) : Z := nth 0 l 0 + 256 * nth 1 l 0.

Section MbIpc.
Context (swap_start junk2 junk3 : Z).

(** [ipc_xchg_buf[MB_CHNL_HW_CTRL]] *)
Definition client_addr : Z := swap_start.
Definition server_addr : Z := swap_start + IPC_XCHG_DATA_MAX.

(** Memory behind a pointer: the two buffers. *)
Definition read_mem (a n : Z) : M sys (list Z) := λ s,
  if IPC_XCHG_DATA_MAX <? n then Trap Fault
  else if a =? client_addr then Done (take (Z.to_nat n) (client_buff s), s)
  else if a =? server_addr then Done (take (Z.to_nat n) (server_buff s), s)
  else Trap Fault.
Definition write_mem (a : Z) (bs : list Z) : M sys unit := λ s,
  if IPC_XCHG_DATA_MAX <? Z.of_nat (length bs) then Trap Fault
  else if a =? client_addr then Done (tt, set_client (write_at (client_buff s) 0 bs) s)
  else if a =? server_addr then Done (tt, set_server (write_at (server_buff s) 0 bs) s)
  else Trap Fault.

(** ** Handlers *)
(** The tail of every branch: the answer's length, state, and message. *)
Definition answer (ack : mailbox_data_t) (n result : Z) : M sys (Z * mailbox_data_t) := ret (result, set_len n ack).

Definition answer_test (b : ipc_chnl_cb_t) (ack : mailbox_data_t) : M sys (Z * mailbox_data_t) :=
  if 4 <=? cmd_len b then
    write_mem (msg_buff ack) (le_bytes (u32 (le32 (cmd_buf b) + 1))) ;;; answer ack 4 ACK_STATE_COMPLETE
  else answer ack 0 ACK_STATE_FAIL.

Definition answer_available (c : cpu) (b : ipc_chnl_cb_t) (ack : mailbox_data_t) : M sys (Z * mailbox_data_t) :=
  if 2 <=? cmd_len b then
    let* a := gets locks in
    let r := amp_res_available c (le16 (cmd_buf b)) a in
    modify (set_locks r.2) ;;;
    answer ack 0 (if r.1 =? BK_OK then ACK_STATE_COMPLETE else ACK_STATE_FAIL)
  else answer ack 0 ACK_STATE_FAIL.

Definition ipc_client_cmd_handler (ack : mailbox_data_t) : M sys (Z * mailbox_data_t) :=
  let* b := gets (cb CPU1) in
  let ack := set_buff (rx_xchg_buff b) ack in
  let cmd := rx_cmd b in
  if cmd =? IPC_TEST_CMD then answer_test b ack
  else if cmd =? IPC_GET_POWER_SAVE_FLAG then
    write_mem (msg_buff ack) (le_bytes 0xAA) ;;; answer ack 4 ACK_STATE_COMPLETE
  else if cmd =? IPC_SET_CPU1_HEART_RATE then
    answer ack 0 (if 4 <=? cmd_len b then ACK_STATE_COMPLETE else ACK_STATE_FAIL)
  else if cmd =? IPC_GET_CPU1_HEART_RATE then
    write_mem (msg_buff ack) (le_bytes 0xBB) ;;; answer ack 4 ACK_STATE_COMPLETE
  else if cmd =? IPC_RES_AVAILABLE_INDICATION then answer_available CPU1 b ack
  else answer ack 0 ACK_STATE_FAIL.

(** Both counter requests: [f] is the counter operation. *)
Definition answer_cnt (f : Z → Z → amp → Z * option amp_res_req_cnt_t * amp) (b : ipc_chnl_cb_t) (ack : mailbox_data_t) :
    M sys (Z * mailbox_data_t) :=
  if 4 <=? cmd_len b then
    let* a := gets locks in
    let r := f (le16 (cmd_buf b)) (le16 (drop 2 (cmd_buf b))) a in
    modify (set_locks r.2) ;;;
    match r.1.2 with
    | Some n => write_mem (msg_buff ack) (le16_bytes (self_req_cnt n) ++ le16_bytes (others_req_cnt n))
    | None => ret tt
    end ;;;
    if r.1.1 =? BK_OK then answer ack 4 ACK_STATE_COMPLETE else answer ack 0 ACK_STATE_FAIL
  else answer ack 0 ACK_STATE_FAIL.

Definition answer_alloc (b : ipc_chnl_cb_t) (ack : mailbox_data_t) : M sys (Z * mailbox_data_t) :=
  if 4 <=? cmd_len b then
    let* p := gets pool in
    let r := Dma.dma_chnl_alloc (le32 (cmd_buf b)) p in
    modify (set_pool r.2) ;;;
    write_mem (msg_buff ack) [u8 (Z.of_nat r.1)] ;;; answer ack 1 ACK_STATE_COMPLETE
  else answer ack 0 ACK_STATE_FAIL.

Definition answer_free (b : ipc_chnl_cb_t) (ack : mailbox_data_t) : M sys (Z * mailbox_data_t) :=
  if 8 <=? cmd_len b then
    let* p := gets pool in
    let r := Dma.dma_chnl_free (le32 (cmd_buf b)) (Z.to_nat (le32 (drop 4 (cmd_buf b)))) p in
    modify (set_pool r.2) ;;;
    answer ack 0 (if r.1 =? BK_OK then ACK_STATE_COMPLETE else ACK_STATE_FAIL)
  else answer ack 0 ACK_STATE_FAIL.

Definition answer_user (b : ipc_chnl_cb_t) (ack : mailbox_data_t) : M sys (Z * mailbox_data_t) :=
  if 1 <=? cmd_len b then
    let* p := gets pool in
    write_mem (msg_buff ack) (le_bytes (Dma.dma_chnl_user (Z.to_nat (nth 0 (cmd_buf b) 0)) p)) ;;;
    answer ack 4 ACK_STATE_COMPLETE
  else answer ack 0 ACK_STATE_FAIL.

Definition ipc_server_cmd_handler (ack : mailbox_data_t) : M sys (Z * mailbox_data_t) :=
  let* b := gets (cb CPU0) in
  let ack := set_buff (rx_xchg_buff b) ack in
  let cmd := rx_cmd b in
  if cmd =? IPC_TEST_CMD then answer_test b ack
  else if cmd =? IPC_CPU1_POWER_UP_INDICATION then answer ack 0 ACK_STATE_COMPLETE
  else if cmd =? IPC_CPU1_HEART_BEAT_INDICATION then answer ack 0 ACK_STATE_COMPLETE
  else if cmd =? IPC_RES_ACQUIRE_CNT then answer_cnt amp_res_acquire_cnt b ack
  else if cmd =? IPC_RES_RELEASE_CNT then answer_cnt amp_res_release_cnt b ack
  else if cmd =? IPC_RES_AVAILABLE_INDICATION then answer_available CPU0 b ack
  else if cmd =? IPC_ALLOC_DMA_CHNL then answer_alloc b ack
  else if cmd =? IPC_FREE_DMA_CHNL then answer_free b ack
  else if cmd =? IPC_DMA_CHNL_USER then answer_user b ack
  else if cmd =? 0x60 then ret (ACK_STATE_FAIL, ack)
  else answer ack 0 ACK_STATE_FAIL.

Definition rx_cmd_handler (c : cpu) : mailbox_data_t → M sys (Z * mailbox_data_t) :=
  match c with CPU0 => ipc_server_cmd_handler | CPU1 => ipc_client_cmd_handler end.

(** ** The callbacks *)
(** Data behind a message, when there is any, into one of the block's buffers. *)
Definition copy_in (c : cpu) (d : mailbox_data_t) (store : list Z → Z → ipc_chnl_cb_t → ipc_chnl_cb_t)
    (old : ipc_chnl_cb_t → list Z) : M sys unit :=
  if negb (msg_buff d =? 0) && (0 <? msg_len d) then
    let* bs := read_mem (msg_buff d) (msg_len d) in
    upd_cb c (λ b, store (write_at (old b) 0 bs) (msg_len d) b)
  else upd_cb c (λ b, store (old b) 0 b).

(** The result is the buffer of the message, now the acknowledgement.  [h] is the
    command handler of the channel's block, on a state [S] that has the channels in it
    ([on]). *)
Definition ipc_rx_isr_with {S} (on : ∀ A, M sys A → M S A) (h : mailbox_data_t → M S (Z * mailbox_data_t)) (c : cpu) (cmd : mailbox_data_t) : M S mailbox_data_t :=
  let* b := on _ (gets (cb c)) in
  if negb (Z.land (hdr_cmd (param0 cmd)) IPC_RSP_CMD_FLAG =? 0) then
    if negb (tx_cmd_in_process b) then ret (set_state ACK_STATE_FAIL cmd)
    else if negb (tx_cmd b =? Z.land (hdr_cmd (param0 cmd)) IPC_RSP_CMD_MASK) then ret (set_state ACK_STATE_FAIL cmd)
    else
      on _ (upd_cb c (b_done false)) ;;;
      on _ (if IPC_XCHG_DATA_MAX <? msg_len cmd then upd_cb c (λ b, b_rsp (rsp_buf b) 0 (b_done true b))
            else copy_in c cmd b_rsp rsp_buf) ;;;
      on _ (upd_cb c (b_sema true)) ;;;
      ret (set_state ACK_STATE_COMPLETE (set_len 0 (set_buff 0 cmd)))
  else
    on _ (upd_cb c (b_rx (hdr_cmd (param0 cmd)) true)) ;;;
    let* r :=
      (if IPC_XCHG_DATA_MAX <? msg_len cmd then ret (ACK_STATE_FAIL, cmd)
       else on _ (copy_in c cmd b_cmd cmd_buf) ;;; h cmd) in
    on _ (if negb (r.1 =? ACK_STATE_PENDING) then upd_cb c (λ b, b_rx (rx_cmd b) false b) else ret tt) ;;;
    ret (set_state r.1 r.2).
Definition ipc_cmd_rx_isr (c : cpu) (cmd : mailbox_data_t) : M sys mailbox_data_t := ipc_rx_isr_with (λ _ m, m) (rx_cmd_handler c) c cmd.

Definition ipc_cmd_tx_cmpl_isr (c : cpu) (ack : mailbox_data_t) : M sys unit :=
  let* b := gets (cb c) in
  if hdr_cmd (param0 ack) =? tx_cmd b then
    if negb (tx_cmd_in_process b) then ret tt
    else if negb (Z.land (hdr_state (param0 ack)) CHNL_STATE_COM_FAIL =? 0) || (param3 ack =? ACK_STATE_FAIL) then
      upd_cb c (b_done true) ;;; upd_cb c (b_sema true)
    else if param3 ack =? ACK_STATE_COMPLETE then
      upd_cb c (b_done false) ;;;
      (if IPC_XCHG_DATA_MAX <? msg_len ack then upd_cb c (λ b, b_rsp (rsp_buf b) 0 (b_done true b))
       else copy_in c ack b_rsp rsp_buf) ;;;
      upd_cb c (b_sema true)
    else ret tt
  else ret tt.

(** ** Initialisation *)
(** [sem1], [sem2], [open_ret]: results of creating the semaphores and of opening
    the mailbox channel. *)
Definition ipc_chnl_init (id : Z) (c : cpu) (sem1 sem2 open_ret : Z) : M sys Z :=
  let* b := gets (cb c) in
  if chnl_inited b then ret BK_OK
  else
    let tx := match c with CPU1 => client_addr | CPU0 => server_addr end in
    let rx := match c with CPU1 => server_addr | CPU0 => client_addr end in
    let b0 := mk_cb false id false tx 0 false false (replicate 64 0) 0 rx 0 false (replicate 64 0) 0 in
    upd_cb c (λ _, b0) ;;;
    if negb (sem1 =? BK_OK) then ret sem1
    else if negb (sem2 =? BK_OK) then ret sem2
    else if negb (open_ret =? BK_OK) then ret open_ret
    else
      upd_cb c (λ b, mk_cb true (chnl_id b) (rsp_sema b) (tx_xchg_buff b) (tx_cmd b) (tx_cmd_in_process b)
                       (tx_cmd_failed b) (rsp_buf b) (rsp_len b) (rx_xchg_buff b) (rx_cmd b) (rx_cmd_in_process b)
                       (cmd_buf b) (cmd_len b)) ;;;
      ret BK_OK.
Definition ipc_server_init := ipc_chnl_init MB_CHNL_HW_CTRL CPU0.
Definition ipc_client_init := ipc_chnl_init MB_CHNL_HW_CTRL CPU1.

(** ** Sending *)
(** Up to the message: [inl] is an early return, [inr] the message handed to the
    mailbox ([write_ret] is what [mb_chnl_write] returns).  [cmd_buf] is [None] for a
    null pointer. *)
Definition ipc_send_begin_len (c : cpu) (write_ret cmd : Z) (cmd_buf : option (list Z)) (cmd_len : Z) : M sys (Z + mailbox_data_t) :=
  let* b := gets (cb c) in
  if negb (chnl_inited b) then ret (inl BK_FAIL)
  else
    upd_cb c (b_tx cmd true false) ;;;
    if IPC_XCHG_DATA_MAX <? cmd_len then upd_cb c (b_proc false) ;;; ret (inl BK_ERR_PARAM)
    else
      let data := match cmd_buf with None => [] | Some l => take (Z.to_nat cmd_len) l end in
      (if (0 <? length data)%nat then write_mem (tx_xchg_buff b) data else ret tt) ;;;
      if negb (write_ret =? BK_OK) then upd_cb c (b_proc false) ;;; ret (inl write_ret)
      else ret (inr (mk_data (u8 cmd) (tx_xchg_buff b)
                      (set_field junk2 0 16 (Z.of_nat (length data))) junk3)).
(** The length the callers give is that of their data, and zero without data. *)
Definition ipc_send_begin (c : cpu) (write_ret cmd : Z) (data : option (list Z)) : M sys (Z + mailbox_data_t) :=
  ipc_send_begin_len c write_ret cmd data (Z.of_nat (length (default [] data))).

(** From the wait on: [rtos_get_semaphore] takes the answer's semaphore or times
    out.  [buf_len] is the room for the answer, [None] when there is none; the
    result holds what was copied there. *)
Definition ipc_send_end (c : cpu) (buf_len : option Z) : M sys (Z * list Z) :=
  let* b := gets (cb c) in
  let* r :=
    (if negb (rsp_sema b) then ret (kTimeoutErr, [])
     else
       upd_cb c (b_sema false) ;;;
       upd_cb c (b_proc false) ;;;
       if tx_cmd_failed b then ret (BK_FAIL, [])
       else match buf_len with
       | None => ret (BK_OK, [])
       | Some n =>
           if n =? 0 then ret (BK_OK, [])
           else if n <? rsp_len b then ret (BK_ERR_PARAM, [])
           else ret (BK_OK, take (Z.to_nat (rsp_len b)) (rsp_buf b))
       end) in
  upd_cb c (b_proc false) ;;;
  ret r.

(** The message at the other core, and its acknowledgement back: what the mailbox
    does with it.  A core without callbacks has the failure bit set in the header. *)
Definition deliver (c : cpu) (m : mailbox_data_t) : M sys unit :=
  let* b := gets (cb (other c)) in
  let* ack :=
    (if chnl_inited b then
       let* a := ipc_cmd_rx_isr (other c) m in ret (set_param0 (param0 m) a)
     else ret (set_param0 (set_hdr_state CHNL_STATE_COM_FAIL (param0 m)) m)) in
  ipc_cmd_tx_cmpl_isr c ack.

(** A call whose message is answered before the wait times out. *)
Definition ipc_exchange (c : cpu) (write_ret cmd : Z) (data : option (list Z)) (buf_len : option Z) : M sys (Z * list Z) :=
  let* r := ipc_send_begin c write_ret cmd data in
  match r with
  | inl e => ret (e, [])
  | inr m => deliver c m ;;; ipc_send_end c buf_len
  end.

(** ** The calls of the slave core *)
Definition ipc_send_power_up (w : Z) : M sys Z :=
  let* r := ipc_exchange CPU1 w IPC_CPU1_POWER_UP_INDICATION None None in ret r.1.
Definition ipc_send_heart_beat (w param : Z) : M sys Z :=
  let* r := ipc_exchange CPU1 w IPC_CPU1_HEART_BEAT_INDICATION (Some (le_bytes param)) None in ret r.1.

(** A word that the answer overwrites, as far as there is one. *)
Definition overlay (w : Z) (l : list Z) : Z := le32 (write_at (le_bytes w) 0 l).
Definition cnt_of (l : list Z) : amp_res_req_cnt_t := mk_cnt (le16 l) (le16 (drop 2 l)).
Definition send_cnt (w cmd res_id id : Z) : M sys (Z * amp_res_req_cnt_t) :=
  let* r := ipc_exchange CPU1 w cmd (Some (le16_bytes res_id ++ le16_bytes id)) (Some 4) in ret (r.1, cnt_of r.2).
Definition ipc_send_res_acquire_cnt (w res_id id : Z) := send_cnt w IPC_RES_ACQUIRE_CNT res_id id.
Definition ipc_send_res_release_cnt (w res_id id : Z) := send_cnt w IPC_RES_RELEASE_CNT res_id id.

Definition ipc_send_alloc_dma_chnl (w user_id : Z) : M sys Z :=
  let* r := ipc_exchange CPU1 w IPC_ALLOC_DMA_CHNL (Some (le_bytes user_id)) (Some 1) in
  ret (if negb (r.1 =? BK_OK) then 255 else nth 0 (write_at [255] 0 r.2) 0).
Definition ipc_send_free_dma_chnl (w user_id id : Z) : M sys Z :=
  let* r := ipc_exchange CPU1 w IPC_FREE_DMA_CHNL (Some (le_bytes user_id ++ le_bytes id)) None in ret r.1.
Definition ipc_send_dma_chnl_user (w id : Z) : M sys Z :=
  let* r := ipc_exchange CPU1 w IPC_DMA_CHNL_USER (Some [u8 id]) (Some 4) in
  ret (if negb (r.1 =? BK_OK) then 2 ^ 32 - 1 else overlay (2 ^ 32 - 1) r.2).

(** ** The calls of both cores, and of the master *)
Definition ipc_send_test_cmd (c : cpu) (w param : Z) : M sys Z :=
  let* r := ipc_exchange c w IPC_TEST_CMD (Some (le_bytes param)) (Some 4) in
  ret (overlay param r.2).
Definition ipc_send_available_ind (c : cpu) (w res_id : Z) : M sys Z :=
  let* r := ipc_exchange c w IPC_RES_AVAILABLE_INDICATION (Some (le16_bytes res_id)) None in ret r.1.
Definition ipc_send_get_ps_flag (w : Z) : M sys Z :=
  let* r := ipc_exchange CPU0 w IPC_GET_POWER_SAVE_FLAG None (Some 4) in ret (overlay (2 ^ 32 - 1) r.2).
Definition ipc_send_get_heart_rate (w : Z) : M sys Z :=
  let* r := ipc_exchange CPU0 w IPC_GET_CPU1_HEART_RATE None (Some 4) in ret (overlay (2 ^ 32 - 1) r.2).
Definition ipc_send_set_heart_rate (w param : Z) : M sys Z :=
  let* r := ipc_exchange CPU0 w IPC_SET_CPU1_HEART_RATE (Some (le_bytes param)) None in ret r.1.
End MbIpc.
End MbIpc.
