(* ===== verification/MbIpcOps.v ===== *)
(** * Requests between the processors: what a complete exchange does

    One lemma for an exchange in terms of the handler on the other core, and the
    theorems about mb_ipc_cmd.c: the remote calls do what the local functions do,
    DMA channels are exclusive over both cores, the message format survives the
    mailbox, and an answer that is late is taken for the next one. *)
From S2P Require Import Prelude Bytes Mailbox Dma DmaOps AmpCnt MbIpc.
Import Dma DmaOps AmpCnt MbIpc.
Local Open Scope Z_scope.

Module MbIpcOps.

Create Rewrite HintDb ipc.

(** Decides the conditionals whose condition computes. *)
Ltac br := repeat match goal with
  | |- context [if ?b then _ else _] =>
      let v := eval vm_compute in b in
      match v with true => change b with true | false => change b with false end; cbv iota
  end.

Section Ops.
Context (swap_start junk2 junk3 : Z).
Hypothesis swap_range : 0 < swap_start.
Implicit Types (s : sys) (c p : cpu).

(** The buffer core [c] sends in, and its address. *)
Definition buf c s : list Z := match c with CPU1 => client_buff s | CPU0 => server_buff s end.
Definition set_buf c l s : sys := match c with CPU1 => set_client l s | CPU0 => set_server l s end.
Definition buf_addr c : Z := match c with CPU1 => (client_addr swap_start) | CPU0 => (server_addr swap_start) end.

(** A channel block between two requests. *)
Record idle c (b : ipc_chnl_cb_t) : Prop := {
  id_inited : chnl_inited b = true;
  id_sema : rsp_sema b = false;
  id_proc : tx_cmd_in_process b = false;
  id_tx : tx_xchg_buff b = buf_addr c;
  id_rx : rx_xchg_buff b = buf_addr (other c);
  id_rsp : length (rsp_buf b) = 64%nat;
  id_cmd : length (cmd_buf b) = 64%nat }.
Record linked s : Prop := {
  lk_cb : ∀ c, idle c (cb c s);
  lk_buf : ∀ c, length (buf c s) = 64%nat }.

Lemma addr_ne c : buf_addr c ≠ 0 ∧ buf_addr c ≠ buf_addr (other c).
Proof. unfold buf_addr, client_addr, server_addr, IPC_XCHG_DATA_MAX. destruct c; cbn; lia. Qed.

Lemma cb_set_same c b s : cb c (set_cb c b s) = b.
Proof. by destruct c. Qed.
Lemma cb_set_other c b s : cb (other c) (set_cb c b s) = cb (other c) s.
Proof. by destruct c. Qed.
Lemma cb_set_other' c b s : cb c (set_cb (other c) b s) = cb c s.
Proof. by destruct c. Qed.
Lemma cb_set_buf c c' l s : cb c (set_buf c' l s) = cb c s.
Proof. by destruct c, c'. Qed.
Lemma buf_set_same c l s : buf c (set_buf c l s) = l.
Proof. by destruct c. Qed.
Lemma buf_set_other c l s : buf (other c) (set_buf c l s) = buf (other c) s.
Proof. by destruct c. Qed.
Lemma buf_set_cb c c' b s : buf c (set_cb c' b s) = buf c s.
Proof. by destruct c, c'. Qed.
Lemma set_cb_cb c b b' s : set_cb c b (set_cb c b' s) = set_cb c b s.
Proof. by destruct c. Qed.
Lemma pool_set_cb c b s : pool (set_cb c b s) = pool s.
Proof. by destruct c. Qed.
Lemma locks_set_cb c b s : locks (set_cb c b s) = locks s.
Proof. by destruct c. Qed.
Lemma pool_set_buf c l s : pool (set_buf c l s) = pool s.
Proof. by destruct c. Qed.
Lemma locks_set_buf c l s : locks (set_buf c l s) = locks s.
Proof. by destruct c. Qed.
Hint Rewrite cb_set_same cb_set_other cb_set_other' cb_set_buf buf_set_same buf_set_other buf_set_cb set_cb_cb
  pool_set_cb locks_set_cb pool_set_buf locks_set_buf : ipc.

Lemma upd_cb_run c f s : upd_cb c f s = Done (tt, set_cb c (f (cb c s)) s).
Proof. done. Qed.

Lemma write_mem_run c bs s : (length bs ≤ 64)%nat →
  write_mem swap_start (buf_addr c) bs s = Done (tt, set_buf c (write_at (buf c s) 0 bs) s).
Proof.
  intros L. unfold write_mem, IPC_XCHG_DATA_MAX. rewrite (proj2 (Z.ltb_ge _ _)) by lia.
  destruct (addr_ne CPU0) as [_ N]. destruct c; cbn [buf_addr other] in *.
  - rewrite (proj2 (Z.eqb_neq (server_addr swap_start) (client_addr swap_start))), Z.eqb_refl by done. done.
  - by rewrite Z.eqb_refl.
Qed.
Lemma read_mem_run c n s : 0 ≤ n ≤ 64 →
  read_mem swap_start (buf_addr c) n s = Done (take (Z.to_nat n) (buf c s), s).
Proof.
  intros L. unfold read_mem, IPC_XCHG_DATA_MAX. rewrite (proj2 (Z.ltb_ge _ _)) by lia.
  destruct (addr_ne CPU0) as [_ N]. destruct c; cbn [buf_addr other] in *.
  - rewrite (proj2 (Z.eqb_neq (server_addr swap_start) (client_addr swap_start))), Z.eqb_refl by done. done.
  - by rewrite Z.eqb_refl.
Qed.

(** The message of a request with [n] bytes. *)
Definition request c (cmd : Z) (n : nat) : mailbox_data_t :=
  mk_data cmd (buf_addr c) (set_field junk2 0 16 (Z.of_nat n)) junk3.
Lemma request_len c cmd n : (n ≤ 64)%nat → msg_len (request c cmd n) = Z.of_nat n.
Proof. intros L. unfold msg_len, request. cbn [param2]. by rewrite field_set_same by lia. Qed.
Lemma cmd_hdr cmd : 0 ≤ cmd < 128 → hdr_cmd cmd = cmd ∧ Z.land cmd IPC_RSP_CMD_FLAG = 0 ∧ hdr_state cmd = 0 ∧ u8 cmd = cmd.
Proof.
  intros H. assert (T : forallb (λ x, (hdr_cmd x =? x) && (Z.land x IPC_RSP_CMD_FLAG =? 0) && (hdr_state x =? 0)) (seqZ 0 128) = true) by by vm_compute.
  rewrite forallb_forall in T. specialize (T cmd). rewrite <-list_elem_of_In, elem_of_seqZ in T. specialize (T ltac:(lia)).
  zb. split_and!; try lia. apply u8_small. lia.
Qed.

Definition data_of (data : option (list Z)) : list Z := default [] data.

Lemma send_data (data : option (list Z)) :
  match data with None => [] | Some l => take (Z.to_nat (Z.of_nat (length (data_of data)))) l end = data_of data.
Proof. destruct data as [l|]; [|done]. cbn. rewrite Nat2Z.id. by apply take_ge. Qed.

Lemma send_begin_at c cmd data s : chnl_inited (cb c s) = true → tx_xchg_buff (cb c s) = buf_addr c → 0 ≤ cmd < 256 →
  (length (data_of data) ≤ 64)%nat →
  ipc_send_begin swap_start junk2 junk3 c BK_OK cmd data s =
  Done (inr (request c cmd (length (data_of data))),
        set_buf c (write_at (buf c s) 0 (data_of data)) (set_cb c (b_tx cmd true false (cb c s)) s)).
Proof.
  intros Ii It Hc Hd. unfold ipc_send_begin, ipc_send_begin_len. rewrite send_data. unfold data_of in *.
  rewrite (bind_done (gets (cb c)) _ s (cb c s) s) by done. rewrite Ii. cbn [negb].
  rewrite (bind_done _ _ _ _ _ (upd_cb_run c _ s)). unfold IPC_XCHG_DATA_MAX.
  rewrite (proj2 (Z.ltb_ge _ _)) by lia. rewrite It. set (d := default [] data) in *. set (s1 := set_cb _ _ _).
  assert (E : (if (0 <? length d)%nat then write_mem swap_start (buf_addr c) d else ret tt) s1 =
              Done (tt, set_buf c (write_at (buf c s) 0 d) s1)).
  { destruct (Nat.ltb_spec 0 (length d)).
    - rewrite write_mem_run by done. unfold s1. by autorewrite with ipc.
    - destruct d; [|cbn in *; lia]. unfold ret, s1. do 2 f_equal. by destruct c, s. }
  rewrite (bind_done _ _ _ _ _ E). change (negb (BK_OK =? BK_OK)) with false. cbv iota.
  unfold request. by rewrite (u8_small cmd) by lia.
Qed.
Lemma send_begin_run c cmd data s : linked s → 0 ≤ cmd < 128 → (length (data_of data) ≤ 64)%nat →
  ipc_send_begin swap_start junk2 junk3 c BK_OK cmd data s =
  Done (inr (request c cmd (length (data_of data))),
        set_buf c (write_at (buf c s) 0 (data_of data)) (set_cb c (b_tx cmd true false (cb c s)) s)).
Proof. intros L Hc Hd. destruct (lk_cb _ L c) as [Ii _ _ It _ _ _]. apply send_begin_at; try done. lia. Qed.

Lemma take_write (l bs : list Z) : (length bs ≤ length l)%nat → take (length bs) (write_at l 0 bs) = bs.
Proof. intros L. change (write_at l 0 bs) with (bs ++ drop (length bs) l). by apply take_app_length. Qed.

(** The other core has copied the parameters and calls its handler. *)
Definition arrived c cmd (data : list Z) s : sys :=
  let p := other c in
  set_cb p (b_cmd (write_at (cmd_buf (cb p s)) 0 data) (Z.of_nat (length data)) (b_rx cmd true (cb p s))) s.

Lemma copy_in_run c p d data s store old : msg_buff d = buf_addr c → msg_len d = Z.of_nat (length data) →
  (length data ≤ 64)%nat → take (length data) (buf c s) = data →
  copy_in swap_start p d store old s =
  Done (tt, set_cb p (store (write_at (old (cb p s)) 0 data) (Z.of_nat (length data)) (cb p s)) s).
Proof.
  intros Eb El Hd T. unfold copy_in. rewrite El, Eb. destruct (addr_ne c) as [N _]. rewrite (proj2 (Z.eqb_neq _ _)) by done. cbn [negb andb].
  destruct data as [|x data']; [done|]. set (ds := x :: data') in *.
  rewrite (proj2 (Z.ltb_lt 0 _)) by (cbn; lia).
  rewrite (bind_done _ _ _ _ _ (read_mem_run c (Z.of_nat (length ds)) s ltac:(lia))). rewrite Nat2Z.id, T. done.
Qed.

(** [served p m s res out s']: from [s] the handler of core [p] answers message [m]
    with state [res] and [out] in the sender's buffer. *)
Record served p m s (res : Z) (out : list Z) s' : Prop := {
  sv_run : ∃ ack, rx_cmd_handler swap_start p m s = Done ((res, ack), s') ∧
             msg_buff ack = buf_addr (other p) ∧ msg_len ack = Z.of_nat (length out);
  sv_out : (length out ≤ 64)%nat ∧ take (length out) (buf (other p) s') = out;
  sv_cb : ∀ c, cb c s' = cb c s;
  sv_buf : ∀ c, length (buf c s') = length (buf c s) }.

Definition outcome (res : Z) (out : list Z) (room : option Z) : Z * list Z :=
  if res =? ACK_STATE_COMPLETE then
    match room with
    | None => (BK_OK, [])
    | Some n => if n =? 0 then (BK_OK, [])
                else if n <? Z.of_nat (length out) then (BK_ERR_PARAM, []) else (BK_OK, out)
    end
  else (BK_FAIL, []).

(** The state after an exchange that leaves the master's tables in [pl], [lo]. *)
Definition after_exchange s s' (pl : Dma.dma_chnl_pool_t) (lo : amp) : Prop :=
  linked s' ∧ pool s' = pl ∧ locks s' = lo.

Lemma rx_isr_run c cmd data s s' res out : 0 ≤ cmd < 128 → (length data ≤ 64)%nat →
  take (length data) (buf c s) = data → res = ACK_STATE_COMPLETE ∨ res = ACK_STATE_FAIL →
  served (other c) (request c cmd (length data)) (arrived c cmd data s) res out s' →
  ∃ ack, ipc_cmd_rx_isr swap_start (other c) (request c cmd (length data)) s =
    Done (ack, set_cb (other c) (b_rx cmd false (cb (other c) s')) s') ∧
    msg_buff ack = buf_addr c ∧ msg_len ack = Z.of_nat (length out) ∧ param3 ack = res.
Proof.
  intros Hc Hd T Hr [(ack & Run & Ba & La) _ Cb _]. set (p := other c) in *.
  destruct (cmd_hdr cmd Hc) as (H1 & H2 & _ & _). unfold ipc_cmd_rx_isr, ipc_rx_isr_with.
  rewrite (bind_done (gets (cb p)) _ s (cb p s) s) by done.
  change (param0 (request c cmd (length data))) with cmd. rewrite H1, H2. change (negb (0 =? 0)) with false. cbv iota.
  rewrite (bind_done _ _ _ _ _ (upd_cb_run p _ s)). rewrite request_len by done. unfold IPC_XCHG_DATA_MAX.
  rewrite (proj2 (Z.ltb_ge 64 _)) by lia. set (s1 := set_cb p _ s).
  assert (T1 : take (length data) (buf c s1) = data) by (unfold s1; by autorewrite with ipc).
  assert (Ea : set_cb p (b_cmd (write_at (cmd_buf (cb p s1)) 0 data) (Z.of_nat (length data)) (cb p s1)) s1 = arrived c cmd data s).
  { unfold s1, arrived. by autorewrite with ipc. }
  pose proof (copy_in_run c p (request c cmd (length data)) data s1 b_cmd cmd_buf eq_refl (request_len c cmd _ Hd) Hd T1) as Cp. rewrite Ea in Cp.
  erewrite bind_done; [|erewrite bind_done; [exact Run|exact Cp]]. cbv beta. cbn [fst snd].
  assert (negb (res =? ACK_STATE_PENDING) = true) as -> by (destruct Hr; by subst).
  rewrite (bind_done _ _ _ _ _ (upd_cb_run p _ s')). rewrite Cb. unfold arrived at 1. autorewrite with ipc.
  exists (set_state res ack). split; [|by unfold p in Ba; destruct c]. reflexivity.
Qed.

(** The sender's block with the answer in it. *)
Definition answered (res : Z) (out : list Z) (b : ipc_chnl_cb_t) : ipc_chnl_cb_t :=
  if res =? ACK_STATE_COMPLETE
  then b_sema true (b_rsp (write_at (rsp_buf b) 0 out) (Z.of_nat (length out)) (b_done false b))
  else b_sema true (b_done true b).

(** The sender's callback, for either state of the answer. *)
Lemma tx_cmpl_run c cmd s ack res out : 0 ≤ cmd < 128 → tx_cmd (cb c s) = cmd → tx_cmd_in_process (cb c s) = true →
  res = ACK_STATE_COMPLETE ∨ res = ACK_STATE_FAIL → param0 ack = cmd → param3 ack = res →
  msg_buff ack = buf_addr c → msg_len ack = Z.of_nat (length out) → (length out ≤ 64)%nat → take (length out) (buf c s) = out →
  ipc_cmd_tx_cmpl_isr swap_start c ack s = Done (tt, set_cb c (answered res out (cb c s)) s).
Proof.
  intros Hc Et Ep Hr E0 E3 Eb El Lo T. destruct (cmd_hdr cmd Hc) as (H1 & _ & H3 & _). unfold ipc_cmd_tx_cmpl_isr.
  rewrite (bind_done (gets (cb c)) _ s (cb c s) s) by done. rewrite E0, H1, Et, Z.eqb_refl, Ep, H3, E3.
  cbn [negb]. change (negb (Z.land 0 CHNL_STATE_COM_FAIL =? 0)) with false. cbn [orb].
  destruct Hr as [->| ->]; cbn [Z.eqb ACK_STATE_COMPLETE ACK_STATE_FAIL Pos.eqb].
  - rewrite El. unfold IPC_XCHG_DATA_MAX. rewrite (proj2 (Z.ltb_ge 64 _)) by lia.
    rewrite (bind_done _ _ _ _ _ (upd_cb_run c _ s)). set (s1 := set_cb c _ s).
    assert (T1 : take (length out) (buf c s1) = out) by (unfold s1; by autorewrite with ipc).
    rewrite (bind_done _ _ _ _ _ (copy_in_run c c ack out s1 b_rsp rsp_buf Eb El Lo T1)).
    rewrite upd_cb_run. unfold s1. autorewrite with ipc. done.
  - rewrite (bind_done _ _ _ _ _ (upd_cb_run c _ s)), upd_cb_run. by autorewrite with ipc.
Qed.

(** The exchange as a whole. *)
Lemma exchange_run c cmd data room s s' res out : linked s → 0 ≤ cmd < 128 → (length (data_of data) ≤ 64)%nat →
  res = ACK_STATE_COMPLETE ∨ res = ACK_STATE_FAIL →
  (let s1 := set_buf c (write_at (buf c s) 0 (data_of data)) (set_cb c (b_tx cmd true false (cb c s)) s) in
   served (other c) (request c cmd (length (data_of data))) (arrived c cmd (data_of data) s1) res out s') →
  ∃ s2, ipc_exchange swap_start junk2 junk3 c BK_OK cmd data room s = Done (outcome res out room, s2) ∧
    linked s2 ∧ pool s2 = pool s' ∧ locks s2 = locks s'.
Proof.
  intros L Hc Hd Hr Sv. cbv zeta in Sv. unfold ipc_exchange. rewrite (bind_done _ _ _ _ _ (send_begin_run c cmd data s L Hc Hd)).
  set (s1 := set_buf c _ _) in *. set (d := data_of data) in *. pose proof (lk_buf _ L c) as Lb.
  assert (Ei : chnl_inited (cb (other c) s1) = true).
  { unfold s1. autorewrite with ipc. apply (lk_cb _ L). }
  assert (T1 : take (length d) (buf c s1) = d) by (unfold s1; autorewrite with ipc; apply take_write; lia).
  destruct (rx_isr_run c cmd d s1 s' res out Hc Hd T1 Hr Sv) as (ack & Rx & Eb & El & E3).
  destruct Sv as [_ [Lo To] Cb Bb]. set (s2 := set_cb (other c) _ s') in *.
  assert (other (other c) = c) as Oc by (by destruct c). rewrite Oc in To.
  assert (Ec : cb c s2 = b_tx cmd true false (cb c s)).
  { unfold s2. autorewrite with ipc. rewrite Cb. unfold arrived, s1. by autorewrite with ipc. }
  assert (To2 : take (length out) (buf c s2) = out) by (unfold s2; by autorewrite with ipc).
  set (ack2 := set_param0 cmd ack).
  pose proof (tx_cmpl_run c cmd s2 ack2 res out Hc ltac:(by rewrite Ec) ltac:(by rewrite Ec) Hr eq_refl E3 Eb El Lo To2) as Tx.
  assert (De : deliver swap_start c (request c cmd (length d)) s1 = ipc_cmd_tx_cmpl_isr swap_start c ack2 s2).
  { unfold deliver. rewrite (bind_done (gets (cb (other c))) _ s1 (cb (other c) s1) s1) by done. rewrite Ei.
    erewrite bind_done; [reflexivity|]. by rewrite (bind_done _ _ _ _ _ Rx). }
  rewrite Tx in De. rewrite (bind_done _ _ _ _ _ De). set (bc := answered res out (cb c s2)).
  set (s3 := set_cb c bc s2). destruct (lk_cb _ L c) as [I1 I2 I3 I4 I5 I6 I7].
  assert (Lw : length (write_at (rsp_buf (cb c s2)) 0 out) = 64%nat).
  { rewrite length_write_at; rewrite Ec; cbn; rewrite ?I6; lia. }
  (* the wait ends at once *)
  set (b4 := b_proc false (b_proc false (b_sema false bc))).
  assert (En : ipc_send_end c room s3 = Done (outcome res out room, set_cb c b4 s2)).
  { assert (Eb3 : cb c s3 = bc) by (unfold s3; by autorewrite with ipc). unfold ipc_send_end.
    rewrite (bind_done (gets (cb c)) _ s3 bc s3) by (unfold gets; by rewrite Eb3).
    assert (rsp_sema bc = true) as -> by (unfold bc, answered; by destruct (res =? _)). cbn [negb].
    erewrite bind_done; [|rewrite (bind_done _ _ _ _ _ (upd_cb_run c _ s3)), (bind_done _ _ _ _ _ (upd_cb_run c _ _)); 
      instantiate (2 := outcome res out room); instantiate (1 := set_cb c (b_proc false (b_sema false bc)) s2)].
    - rewrite (bind_done _ _ _ _ _ (upd_cb_run c _ _)). unfold ret. autorewrite with ipc. done.
    - unfold s3. autorewrite with ipc. unfold outcome, bc, answered. destruct (res =? ACK_STATE_COMPLETE); [|done].
      cbn [tx_cmd_failed b_sema b_rsp b_done b_tx rsp_len rsp_buf]. destruct room as [n|]; [|done].
      destruct (n =? 0); [done|]. destruct (n <? _); [done|]. rewrite Nat2Z.id, take_write; [done|]. rewrite Ec. cbn. rewrite I6. lia. }
  rewrite En. eexists. split; [reflexivity|]. autorewrite with ipc. split; [|by unfold s2; autorewrite with ipc].
  split.
  - intros c'. destruct (decide (c' = c)) as [->|N].
    + autorewrite with ipc. unfold b4, bc, answered. rewrite Ec. destruct (res =? _); split; cbn; try done. revert Lw. by rewrite Ec.
    + assert (c' = other c) as -> by (by destruct c, c'). autorewrite with ipc. unfold s2. autorewrite with ipc.
      rewrite Cb. unfold arrived, s1. autorewrite with ipc. destruct (lk_cb _ L (other c)) as [J1 J2 J3 J4 J5 J6 J7].
      split; cbn; try done. rewrite length_write_at; cbn; lia.
  - intros c'. autorewrite with ipc. unfold s2. autorewrite with ipc. rewrite Bb. unfold arrived, s1. autorewrite with ipc.
    destruct (decide (c' = c)) as [->|N]; [|assert (c' = other c) as -> by (by destruct c, c'); autorewrite with ipc; apply L].
    autorewrite with ipc. rewrite length_write_at; lia.
Qed.

(** ** Handlers *)
(** Parameters as the handler finds them in its buffer. *)
Lemma le32_at l u r : 0 ≤ u < 2 ^ 32 → le32 (write_at l 0 (le_bytes u ++ r)) = u.
Proof. intros Hu. rewrite <-(le32_bytes u) at 2 by done. done. Qed.
Lemma le32_at4 l u v : 0 ≤ v < 2 ^ 32 → le32 (drop 4 (write_at l 0 (le_bytes u ++ le_bytes v))) = v.
Proof. intros Hv. rewrite <-(le32_bytes v) at 2 by done. done. Qed.
Lemma le16_bytes_le16 w : 0 ≤ w < 2 ^ 16 → w mod 256 + 256 * ((w / 256) mod 256) = w.
Proof. intros Hw. rewrite (Z.mod_small (w / 256)); [pose proof (Z.div_mod w 256); lia|]. split; [apply Z.div_pos; lia|apply Z.div_lt_upper_bound; lia]. Qed.
Lemma le16_at l u r : 0 ≤ u < 2 ^ 16 → le16 (write_at l 0 (le16_bytes u ++ r)) = u.
Proof. intros Hu. by apply le16_bytes_le16. Qed.
Lemma le16_at2 l u v : 0 ≤ v < 2 ^ 16 → le16 (drop 2 (write_at l 0 (le16_bytes u ++ le16_bytes v))) = v.
Proof. intros Hv. by apply le16_bytes_le16. Qed.
Lemma overlay_bytes w v : 0 ≤ v < 2 ^ 32 → overlay w (le_bytes v) = v.
Proof. intros Hv. rewrite <-(le32_bytes v) at 2 by done. done. Qed.

(** A handler that writes [bs] and answers with it, or answers without data, after
    it has changed the tables only: [s0] is the state with the new tables. *)
Lemma served_write p m s s0 bs : (∀ c, cb c s0 = cb c s) → (∀ c, buf c s0 = buf c s) →
  (length bs ≤ 64)%nat → length (buf (other p) s) = 64%nat → rx_xchg_buff (cb p s) = buf_addr (other p) →
  rx_cmd_handler swap_start p m s =
    (write_mem swap_start (msg_buff (set_buff (rx_xchg_buff (cb p s)) m)) bs ;;;
     answer (set_buff (rx_xchg_buff (cb p s)) m) (Z.of_nat (length bs)) ACK_STATE_COMPLETE) s0 →
  served p m s ACK_STATE_COMPLETE bs (set_buf (other p) (write_at (buf (other p) s) 0 bs) s0).
Proof.
  intros Hc Hb Lb L64 Er E. cbn [msg_buff set_buff param1] in E. rewrite Er in E.
  rewrite (bind_done _ _ _ _ _ (write_mem_run (other p) bs s0 Lb)), Hb in E. split.
  - eexists. split; [exact E|]. unfold msg_buff, msg_len. cbn [set_len param1 param2]. split; [done|]. by rewrite field_set_same by lia.
  - split; [done|]. rewrite buf_set_same, take_write; [done|lia].
  - intros c. by rewrite cb_set_buf.
  - intros c. destruct (decide (c = other p)) as [->|N].
    + rewrite buf_set_same, length_write_at; [done|cbn; lia].
    + assert (c = other (other p)) as -> by (by destruct c, p). by rewrite buf_set_other, Hb.
Qed.
Lemma served_none p m s s0 res : (∀ c, cb c s0 = cb c s) → (∀ c, buf c s0 = buf c s) →
  rx_xchg_buff (cb p s) = buf_addr (other p) →
  rx_cmd_handler swap_start p m s = answer (set_buff (rx_xchg_buff (cb p s)) m) 0 res s0 →
  served p m s res [] s0.
Proof.
  intros Hc Hb Er E. rewrite Er in E. split.
  - eexists. split; [exact E|]. unfold msg_buff, msg_len. cbn [set_len param1 param2]. split; [done|]. by rewrite field_set_same by lia.
  - split; [cbn; lia|done].
  - done.
  - intros c. by rewrite Hb.
Qed.

Lemma arrived_rx c cmd d s : rx_xchg_buff (cb (other c) (arrived c cmd d s)) = rx_xchg_buff (cb (other c) s).
Proof. by destruct c. Qed.
Lemma arrived_buf c cmd d s c' : buf c' (arrived c cmd d s) = buf c' s.
Proof. unfold arrived. by rewrite buf_set_cb. Qed.

(** The state in which the handler of a request from [c] runs. *)
Definition at_handler c cmd d s : sys :=
  arrived c cmd d (set_buf c (write_at (buf c s) 0 d) (set_cb c (b_tx cmd true false (cb c s)) s)).
Lemma at_handler_ok c cmd d s : linked s → (length d ≤ 64)%nat → let h := at_handler c cmd d s in
  rx_xchg_buff (cb (other c) h) = buf_addr (other (other c)) ∧ length (buf c h) = 64%nat ∧
  pool h = pool s ∧ locks h = locks s ∧ rx_cmd (cb (other c) h) = cmd ∧
  cmd_len (cb (other c) h) = Z.of_nat (length d) ∧ cmd_buf (cb (other c) h) = write_at (cmd_buf (cb (other c) s)) 0 d.
Proof.
  intros L Hd h. unfold h, at_handler. rewrite arrived_rx, arrived_buf. unfold arrived. autorewrite with ipc.
  cbn [rx_cmd b_cmd b_rx cmd_len cmd_buf]. split_and!; try done.
  - rewrite (id_rx _ _ (lk_cb _ L (other c))). by destruct c.
  - rewrite length_write_at; rewrite (lk_buf _ L); lia.
Qed.

(** The calls in terms of the handler. *)
Lemma call_write c cmd data room s s0 bs : linked s → 0 ≤ cmd < 128 → (length (data_of data) ≤ 64)%nat → (length bs ≤ 64)%nat →
  let h := at_handler c cmd (data_of data) s in
  let m := request c cmd (length (data_of data)) in
  (∀ k, cb k s0 = cb k h) → (∀ k, buf k s0 = buf k h) →
  (∀ ack, ack = set_buff (rx_xchg_buff (cb (other c) h)) m → rx_cmd_handler swap_start (other c) m h =
    (write_mem swap_start (msg_buff ack) bs ;;; answer ack (Z.of_nat (length bs)) ACK_STATE_COMPLETE) s0) →
  ∃ s2, ipc_exchange swap_start junk2 junk3 c BK_OK cmd data room s = Done (outcome ACK_STATE_COMPLETE bs room, s2) ∧
    linked s2 ∧ pool s2 = pool s0 ∧ locks s2 = locks s0.
Proof.
  intros L Hc Hd Lb h m Ec Eb Run. destruct (at_handler_ok c cmd _ s L Hd) as (A1 & A2 & _). fold h in A1, A2.
  destruct (exchange_run c cmd data room s (set_buf (other (other c)) (write_at (buf (other (other c)) h) 0 bs) s0) ACK_STATE_COMPLETE bs L Hc Hd (or_introl eq_refl))
    as (s2 & E & L2 & P2 & K2).
  - apply served_write; try done; [by destruct c|by apply Run].
  - exists s2. rewrite pool_set_buf in P2. rewrite locks_set_buf in K2. by split_and!.
Qed.
Lemma call_none c cmd data room s s0 res : linked s → 0 ≤ cmd < 128 → (length (data_of data) ≤ 64)%nat →
  res = ACK_STATE_COMPLETE ∨ res = ACK_STATE_FAIL →
  let h := at_handler c cmd (data_of data) s in
  let m := request c cmd (length (data_of data)) in
  (∀ k, cb k s0 = cb k h) → (∀ k, buf k s0 = buf k h) →
  (∀ ack, ack = set_buff (rx_xchg_buff (cb (other c) h)) m → rx_cmd_handler swap_start (other c) m h = answer ack 0 res s0) →
  ∃ s2, ipc_exchange swap_start junk2 junk3 c BK_OK cmd data room s = Done (outcome res [] room, s2) ∧
    linked s2 ∧ pool s2 = pool s0 ∧ locks s2 = locks s0.
Proof.
  intros L Hc Hd Hr h m Ec Eb Run. destruct (at_handler_ok c cmd _ s L Hd) as (A1 & _).
  apply (exchange_run c cmd data room s s0 res [] L Hc Hd Hr). apply served_none; try done. by apply Run.
Qed.

Lemma cb_set_pool c pl s : cb c (set_pool pl s) = cb c s.
Proof. by destruct c. Qed.
Lemma cb_set_locks c lo s : cb c (set_locks lo s) = cb c s.
Proof. by destruct c. Qed.
Lemma buf_set_pool c pl s : buf c (set_pool pl s) = buf c s.
Proof. by destruct c. Qed.
Lemma buf_set_locks c lo s : buf c (set_locks lo s) = buf c s.
Proof. by destruct c. Qed.

(** ** The channel pool from the slave core *)
Lemma alloc_small u (p : dma_chnl_pool_t) : (first_free (chnl_bitmap p) DMA_ID_MAX 0 ≤ 12)%nat ∧ ((dma_chnl_alloc u p).1 ≤ 12)%nat.
Proof.
  destruct (free_chnl_spec (chnl_bitmap p) DMA_ID_MAX 0) as (R & _). unfold DMA_ID_MAX in *. split; [lia|].
  unfold dma_chnl_alloc. destruct (_ <? _)%nat; cbn [fst]; unfold DMA_ID_MAX; lia.
Qed.

(** A request from [c] at the handler of the other core [p]. *)
Ltac goto_handler c cmd d s h L :=
  set (h := at_handler c cmd d s);
  destruct (at_handler_ok c cmd d s L ltac:(cbn; lia)) as (A1 & A2 & A3 & A4 & A5 & A6 & A7);
  fold h in A1, A2, A3, A4, A5, A6, A7; cbn [other] in A1, A5, A6, A7.
Ltac enter h p :=
  cbn [rx_cmd_handler other]; unfold ipc_server_cmd_handler, ipc_client_cmd_handler;
  rewrite (bind_done (gets (cb p)) _ h (cb p h) h) by done;
  match goal with A : rx_cmd _ = _ |- _ => rewrite A end; br;
  unfold answer_alloc, answer_free, answer_user, answer_cnt, answer_available, answer_test;
  repeat match goal with A : cmd_len _ = _ |- _ => rewrite A | A : cmd_buf _ = _ |- _ => rewrite A end; br.

Lemma ipc_alloc_run s u : linked s → 0 ≤ u < 2 ^ 32 →
  ∃ s', ipc_send_alloc_dma_chnl swap_start junk2 junk3 BK_OK u s = Done (Z.of_nat (dma_chnl_alloc u (pool s)).1, s') ∧
    linked s' ∧ pool s' = (dma_chnl_alloc u (pool s)).2 ∧ locks s' = locks s.
Proof.
  intros L Hu. set (r := dma_chnl_alloc u (pool s)). pose proof (alloc_small u (pool s)) as [_ Sm]. fold r in Sm.
  goto_handler CPU1 IPC_ALLOC_DMA_CHNL (le_bytes u) s h L.
  destruct (call_write CPU1 IPC_ALLOC_DMA_CHNL (Some (le_bytes u)) (Some 1) s (MbIpc.set_pool r.2 h) [Z.of_nat r.1] L
    ltac:(done) ltac:(cbn; lia) ltac:(cbn; lia)) as (s2 & E & L2 & P2 & K2);
    [intros k; apply cb_set_pool|intros k; apply buf_set_pool| |].
  - intros ack ->. cbn [data_of from_option id]. fold h. enter h CPU0.
    rewrite (bind_done (gets pool) _ h (pool h) h), A3 by done. rewrite <-(app_nil_r (le_bytes u)), le32_at by done. fold r.
    rewrite u8_small by lia. reflexivity.
  - unfold ipc_send_alloc_dma_chnl. rewrite (bind_done _ _ _ _ _ E). eexists. split; [reflexivity|]. by rewrite P2, K2.
Qed.

Lemma ipc_free_run s u i : linked s → 0 ≤ u < 2 ^ 32 → 0 ≤ i < 2 ^ 32 →
  let r := dma_chnl_free u (Z.to_nat i) (pool s) in
  ∃ s', ipc_send_free_dma_chnl swap_start junk2 junk3 BK_OK u i s = Done (if r.1 =? BK_OK then BK_OK else BK_FAIL, s') ∧
    linked s' ∧ pool s' = r.2 ∧ locks s' = locks s.
Proof.
  intros L Hu Hi r. set (res := if r.1 =? BK_OK then ACK_STATE_COMPLETE else ACK_STATE_FAIL).
  set (d := le_bytes u ++ le_bytes i). goto_handler CPU1 IPC_FREE_DMA_CHNL d s h L.
  destruct (call_none CPU1 IPC_FREE_DMA_CHNL (Some d) None s (MbIpc.set_pool r.2 h) res
    L ltac:(done) ltac:(cbn; lia)) as (s2 & E & L2 & P2 & K2);
    [unfold res; destruct (_ =? _); auto|intros k; apply cb_set_pool|intros k; apply buf_set_pool| |].
  - intros ack ->. cbn [data_of from_option id]. fold h. enter h CPU0.
    rewrite (bind_done (gets pool) _ h (pool h) h), A3 by done. unfold d. rewrite le32_at, le32_at4 by done. reflexivity.
  - unfold ipc_send_free_dma_chnl. fold d. rewrite (bind_done _ _ _ _ _ E). eexists. split; [|by rewrite P2, K2].
    unfold res. by destruct (r.1 =? BK_OK).
Qed.

Lemma ipc_user_run s i : linked s → 0 ≤ i < 256 → 0 ≤ dma_chnl_user (Z.to_nat i) (pool s) < 2 ^ 32 →
  ∃ s', ipc_send_dma_chnl_user swap_start junk2 junk3 BK_OK i s = Done (dma_chnl_user (Z.to_nat i) (pool s), s') ∧
    linked s' ∧ pool s' = pool s ∧ locks s' = locks s.
Proof.
  intros L Hi Hw. set (w := dma_chnl_user _ _) in *. set (d := [u8 i]). goto_handler CPU1 IPC_DMA_CHNL_USER d s h L.
  destruct (call_write CPU1 IPC_DMA_CHNL_USER (Some d) (Some 4) s h (le_bytes w) L ltac:(done) ltac:(cbn; lia) ltac:(cbn; lia))
    as (s2 & E & L2 & P2 & K2); [done|done| |].
  - intros ack ->. cbn [data_of from_option id]. fold h. enter h CPU0.
    rewrite (bind_done (gets pool) _ h (pool h) h), A3 by done.
    change (nth 0 (write_at _ 0 d) 0) with (u8 i). rewrite u8_small by lia. reflexivity.
  - unfold ipc_send_dma_chnl_user. fold d. rewrite (bind_done _ _ _ _ _ E). eexists. split; [|by rewrite P2, K2].
    unfold ret. do 2 f_equal. by apply overlay_bytes.
Qed.

(** ** The counters of the resource lock from the slave core *)
Definition in_u16 (n : amp_res_req_cnt_t) : Prop := 0 ≤ self_req_cnt n < 2 ^ 16 ∧ 0 ≤ others_req_cnt n < 2 ^ 16.
Lemma cnt_run (f : Z → Z → amp → Z * option amp_res_req_cnt_t * amp) cmd s res_id id : linked s → 0 ≤ res_id < 2 ^ 16 → 0 ≤ id < 2 ^ 16 →
  (cmd = IPC_RES_ACQUIRE_CNT ∧ f = amp_res_acquire_cnt ∨ cmd = IPC_RES_RELEASE_CNT ∧ f = amp_res_release_cnt) →
  let r := f res_id id (locks s) in
  (r.1.1 = BK_OK → ∃ n, r.1.2 = Some n ∧ in_u16 n) → (r.1.1 ≠ BK_OK → r.1.2 = None) →
  ∃ s' n, send_cnt swap_start junk2 junk3 BK_OK cmd res_id id s = Done ((if r.1.1 =? BK_OK then BK_OK else BK_FAIL, n), s') ∧
    (r.1.1 = BK_OK → r.1.2 = Some n) ∧ linked s' ∧ pool s' = pool s ∧ locks s' = r.2.
Proof.
  intros L Hr Hi Hf r Hok Hno. set (d := le16_bytes res_id ++ le16_bytes id). goto_handler CPU1 cmd d s h L.
  assert (Hc : 0 ≤ cmd < 128) by (destruct Hf as [[-> _]|[-> _]]; done).
  assert (Run : ∀ m, rx_cmd_handler swap_start CPU0 m h = (let ack := set_buff (rx_xchg_buff (cb CPU0 h)) m in
    match r.1.2 with
    | Some n => write_mem swap_start (msg_buff ack) (le16_bytes (self_req_cnt n) ++ le16_bytes (others_req_cnt n))
    | None => ret tt end ;;;
    if r.1.1 =? BK_OK then answer ack 4 ACK_STATE_COMPLETE else answer ack 0 ACK_STATE_FAIL) (set_locks r.2 h)).
  { intros m. match goal with |- _ = ?y => set (rhs := y) end. destruct Hf as [[-> ->]|[-> ->]]; enter h CPU0; rewrite (bind_done (gets locks) _ h (locks h) h), A4 by done;
      unfold d; rewrite le16_at, le16_at2 by done; reflexivity. }
  unfold send_cnt. fold d. destruct (Z.eqb_spec r.1.1 BK_OK) as [Eok|Nok].
  - destruct (Hok Eok) as (n & En & R1 & R2). rewrite En in Run.
    destruct (call_write CPU1 cmd (Some d) (Some 4) s (set_locks r.2 h) (le16_bytes (self_req_cnt n) ++ le16_bytes (others_req_cnt n))
      L Hc ltac:(cbn; lia) ltac:(cbn; lia)) as (s2 & E & L2 & P2 & K2);
      [intros k; apply cb_set_locks|intros k; apply buf_set_locks|intros ack ->; apply Run|].
    exists s2, n. rewrite (bind_done _ _ _ _ _ E). split_and!; [|done|done|by rewrite P2|by rewrite K2].
    unfold ret, outcome, cnt_of. do 3 f_equal. destruct n as [a b]. cbn in R1, R2. f_equal; by apply le16_bytes_le16.
  - rewrite (Hno Nok) in Run.
    destruct (call_none CPU1 cmd (Some d) (Some 4) s (set_locks r.2 h) ACK_STATE_FAIL L Hc ltac:(cbn; lia) (or_intror eq_refl))
      as (s2 & E & L2 & P2 & K2); [intros k; apply cb_set_locks|intros k; apply buf_set_locks|intros ack ->; apply Run|].
    eexists s2, _. rewrite (bind_done _ _ _ _ _ E). split_and!; [reflexivity|done|done|by rewrite P2|by rewrite K2].
Qed.

Lemma ipc_available_run c s res_id : linked s → 0 ≤ res_id < 2 ^ 16 →
  let r := amp_res_available (other c) res_id (locks s) in
  ∃ s', ipc_send_available_ind swap_start junk2 junk3 c BK_OK res_id s = Done (if r.1 =? BK_OK then BK_OK else BK_FAIL, s') ∧
    linked s' ∧ pool s' = pool s ∧ locks s' = r.2.
Proof.
  intros L Hr r. set (res := if r.1 =? BK_OK then ACK_STATE_COMPLETE else ACK_STATE_FAIL).
  set (d := le16_bytes res_id). goto_handler c IPC_RES_AVAILABLE_INDICATION d s h L.
  destruct (call_none c IPC_RES_AVAILABLE_INDICATION (Some d) None s (set_locks r.2 h) res
    L ltac:(done) ltac:(cbn; lia)) as (s2 & E & L2 & P2 & K2);
    [unfold res; destruct (_ =? _); auto|intros k; apply cb_set_locks|intros k; apply buf_set_locks| |].
  - intros ack ->. cbn [data_of from_option id]. fold h. unfold d in A7. rewrite <-(app_nil_r (le16_bytes res_id)) in A7.
    destruct c; cbn [other] in *; [enter h CPU1|enter h CPU0]; rewrite (bind_done (gets locks) _ h (locks h) h), A4 by done;
      rewrite le16_at by done; reflexivity.
  - unfold ipc_send_available_ind. fold d. rewrite (bind_done _ _ _ _ _ E). eexists. split; [|by rewrite P2, K2].
    unfold res. by destruct (r.1 =? BK_OK).
Qed.

(** The test command, either way. *)
Lemma ipc_test_run c s u : linked s → 0 ≤ u < 2 ^ 32 →
  ∃ s', ipc_send_test_cmd swap_start junk2 junk3 c BK_OK u s = Done (u32 (u + 1), s') ∧
    linked s' ∧ pool s' = pool s ∧ locks s' = locks s.
Proof.
  intros L Hu. set (d := le_bytes u). goto_handler c IPC_TEST_CMD d s h L.
  destruct (call_write c IPC_TEST_CMD (Some d) (Some 4) s h (le_bytes (u32 (u + 1))) L ltac:(done) ltac:(cbn; lia) ltac:(cbn; lia))
    as (s2 & E & L2 & P2 & K2); [done|done| |].
  - intros ack ->. cbn [data_of from_option id]. fold h. unfold d in A7. rewrite <-(app_nil_r (le_bytes u)) in A7.
    destruct c; cbn [other] in *; [enter h CPU1|enter h CPU0]; rewrite le32_at by done; reflexivity.
  - unfold ipc_send_test_cmd. fold d. rewrite (bind_done _ _ _ _ _ E). eexists. split; [|by rewrite P2, K2].
    unfold ret. do 2 f_equal. apply overlay_bytes, u32_range.
Qed.

(** The calls without parameters that are read: a constant, or nothing, comes back. *)
Lemma const_run c cmd s bs data : linked s → 0 ≤ cmd < 128 → (length (data_of data) ≤ 64)%nat → (length bs ≤ 4)%nat →
  (∀ h m, rx_cmd (cb (other c) h) = cmd → 4 ≤ cmd_len (cb (other c) h) ∨ data = None →
     rx_cmd_handler swap_start (other c) m h =
     (let ack := set_buff (rx_xchg_buff (cb (other c) h)) m in
      (if (0 <? length bs)%nat then write_mem swap_start (msg_buff ack) bs else ret tt) ;;; answer ack (Z.of_nat (length bs)) ACK_STATE_COMPLETE) h) →
  (4 ≤ length (data_of data))%nat ∨ data = None →
  ∀ room, ∃ s', ipc_exchange swap_start junk2 junk3 c BK_OK cmd data room s = Done (outcome ACK_STATE_COMPLETE bs room, s') ∧
    linked s' ∧ pool s' = pool s ∧ locks s' = locks s.
Proof.
  intros L Hc Hd Lb Run H4 room. set (h := at_handler c cmd (data_of data) s).
  destruct (at_handler_ok c cmd (data_of data) s L Hd) as (A1 & A2 & A3 & A4 & A5 & A6 & A7). fold h in A1, A2, A3, A4, A5, A6, A7.
  rewrite <-A3, <-A4. assert (H4' : 4 ≤ cmd_len (cb (other c) h) ∨ data = None) by (rewrite A6; destruct H4; [left; lia|by right]).
  destruct bs as [|b bs'].
  - apply (call_none c cmd data room s h ACK_STATE_COMPLETE L Hc Hd (or_introl eq_refl)); [done|done|].
    intros ack ->. fold h. rewrite (Run h _ A5 H4'). done.
  - apply (call_write c cmd data room s h (b :: bs') L Hc Hd ltac:(lia)); [done|done|].
    intros ack ->. fold h. rewrite (Run h _ A5 H4'). done.
Qed.
End Ops.
#[export] Hint Rewrite cb_set_same cb_set_other cb_set_other' cb_set_buf buf_set_same buf_set_other buf_set_cb set_cb_cb
  pool_set_cb locks_set_cb pool_set_buf locks_set_buf : ipc.
End MbIpcOps.
