(* ===== verification/Cores.v ===== *)
(** * The processors together: DMA channels, messages, late answers

    The channel pool of the DMA driver used from both cores: the master calls
    Dma.v, the slave sends requests (MbIpc.v).  The theorems: the pool is one map
    from channels to owners over both cores; a request and its answer pass the
    mailbox (Mailbox.v) unchanged; the calls fail cleanly; and an answer that
    comes after its request has timed out is taken for the next one. *)
From S2P Require Import Prelude Bytes Mailbox Dma DmaOps DmaApi AmpCnt MbIpc MbIpcOps.
Import Dma DmaOps AmpCnt MbIpc MbIpcOps.
Local Open Scope Z_scope.

Module Cores.

Definition DMA_CPU_SLAVE1 : Z := 1.

Section Pool.
Context {C : Type} `{DmaDevice C}.
Context (swap_start junk2 junk3 : Z).
Implicit Types (s : sys) (d : drv C) (m : gmap nat (cpu * Z)).

(** A call of the master's driver [d], whose pool is the one of the system. *)
Definition on_master {A} d (k : M (drv C) A) : M sys A := λ s,
  match k (Dma.set_pool (pool s) d) with
  | Done (a, d') => Done (a, MbIpc.set_pool (s_dma_chnl_pool d') s)
  | Trap e => Trap e
  end.

(** ** The slave's side of the driver *)
(** [init] is the slave's [s_dma_driver_is_init], [w] what writing the message
    returns. *)
Definition slave_user (user_id : Z) : Z := u32 (Z.shiftl DMA_CPU_SLAVE1 16 + u16 user_id).
Definition bk_dma_alloc_slave (init : bool) (w user_id : Z) : M sys Z :=
  if negb init then ret (Z.of_nat DMA_ID_MAX)
  else ipc_send_alloc_dma_chnl swap_start junk2 junk3 w (slave_user user_id).
Definition bk_dma_free_slave (init : bool) (w user_id : Z) (chnl_id : nat) : M sys Z :=
  if negb init then ret BK_ERR_DMA_NOT_INIT
  else ipc_send_free_dma_chnl swap_start junk2 junk3 w (slave_user user_id) (u8 (Z.of_nat chnl_id)).
Definition bk_dma_user_slave (init : bool) (w : Z) (chnl_id : nat) : M sys Z :=
  if negb init then ret NO_USER
  else ipc_send_dma_chnl_user swap_start junk2 junk3 w (u8 (Z.of_nat chnl_id)).

(** ** Calls from either core *)
Inductive dma_op := DAlloc (c : cpu) (u : Z) | DFree (c : cpu) (u : Z) (i : nat) | DUser (c : cpu) (i : nat).
Definition run_op d (o : dma_op) : M sys Z :=
  match o with
  | DAlloc CPU0 u => on_master d (let* i := bk_dma_alloc u in ret (Z.of_nat i))
  | DAlloc CPU1 u => bk_dma_alloc_slave true BK_OK u
  | DFree CPU0 u i => on_master d (bk_dma_free u i)
  | DFree CPU1 u i => bk_dma_free_slave true BK_OK u i
  | DUser CPU0 i => on_master d (bk_dma_user i)
  | DUser CPU1 i => bk_dma_user_slave true BK_OK i
  end.
Fixpoint run_ops d (ops : list dma_op) : M sys (list Z) :=
  match ops with
  | [] => ret []
  | o :: ops' => let* r := run_op d o in let* rs := run_ops d ops' in ret (r :: rs)
  end.
End Pool.

(** ** The specification: channels and their owners *)
Abbreviation owner := (cpu * Z)%type.
(** A request of the slave carries the channel in one byte. *)
Definition chan (c : cpu) (i : nat) : nat := match c with CPU0 => i | CPU1 => Z.to_nat (u8 (Z.of_nat i)) end.
Definition owner_word (o : owner) : Z := cpu_id o.1 * 2 ^ 16 + o.2.

Inductive dma_step (m : gmap nat owner) : dma_op → Z → gmap nat owner → Prop :=
| st_alloc c u i : (i < DMA_ID_MAX)%nat → m !! i = None → (∀ j, (j < i)%nat → is_Some (m !! j)) →
    dma_step m (DAlloc c u) (Z.of_nat i) (<[i := (c, u16 u)]> m)
| st_full c u : (∀ i, (i < DMA_ID_MAX)%nat → is_Some (m !! i)) → dma_step m (DAlloc c u) (Z.of_nat DMA_ID_MAX) m
| st_free c u i : m !! chan c i = Some (c, u16 u) → dma_step m (DFree c u i) BK_OK (delete (chan c i) m)
| st_refused c u i r : m !! chan c i ≠ Some (c, u16 u) → r ≠ BK_OK → dma_step m (DFree c u i) r m
| st_user c i : dma_step m (DUser c i) (from_option owner_word NO_USER (m !! chan c i)) m.

Inductive dma_steps : gmap nat owner → list dma_op → list Z → gmap nat owner → Prop :=
| sts_nil m : dma_steps m [] [] m
| sts_cons m o r m1 ops rs m2 : dma_step m o r m1 → dma_steps m1 ops rs m2 → dma_steps m (o :: ops) (r :: rs) m2.

(** The pool holds the owners' words. *)
Record owners (p : dma_chnl_pool_t) (m : gmap nat owner) : Prop := {
  ow_rep : pool_rep p (owner_word <$> m);
  ow_small : map_Forall (λ _ o, 0 ≤ o.2 < 2 ^ 16) m }.
Record shared (swap_start : Z) (s : sys) (m : gmap nat owner) : Prop := {
  sh_linked : linked swap_start s;
  sh_pool : owners (pool s) m }.

Lemma owner_word_inj a b : 0 ≤ a.2 < 2 ^ 16 → 0 ≤ b.2 < 2 ^ 16 → owner_word a = owner_word b → a = b.
Proof. destruct a as [[] x], b as [[] y]; unfold owner_word; cbn; intros; f_equal; lia. Qed.
Lemma owner_word_range a : 0 ≤ a.2 < 2 ^ 16 → 0 ≤ owner_word a < 2 ^ 17.
Proof. destruct a as [[] x]; unfold owner_word; cbn; lia. Qed.
Lemma word_of c u : u32 (Z.shiftl (cpu_id c) 16 + u16 u) = owner_word (c, u16 u).
Proof. pose proof (u16_range u). unfold owner_word. destruct c; cbn; apply u32_small; lia. Qed.

(** The local functions against the specification. *)
Lemma owners_alloc p m c u : owners p m →
  let r := dma_chnl_alloc (Z.shiftl (cpu_id c) 16 + u16 u) p in
  ∃ m', dma_step m (DAlloc c u) (Z.of_nat r.1) m' ∧ owners r.2 m'.
Proof.
  intros [R Sm] r. destruct (alloc_spec _ _ (Z.shiftl (cpu_id c) 16 + u16 u) R) as [[F E]|(L & N & Lo & P)].
  - fold r in E. exists m. rewrite E. cbn [fst snd]. split; [|by split]. constructor. intros i Hi. specialize (F i Hi).
    by rewrite lookup_fmap, fmap_is_Some in F.
  - fold r in L, N, Lo, P. exists (<[r.1 := (c, u16 u)]> m). rewrite lookup_fmap in N. apply fmap_None in N. split.
    + constructor; [done|done|]. intros j Hj. specialize (Lo j Hj). by rewrite lookup_fmap, fmap_is_Some in Lo.
    + split; [|apply map_Forall_insert_2; [apply u16_range|done]]. rewrite word_of in P. by rewrite fmap_insert.
Qed.

Lemma owners_free p m c u i : owners p m →
  let r := dma_chnl_free (Z.shiftl (cpu_id c) 16 + u16 u) i p in
  (m !! i = Some (c, u16 u) ∧ r.1 = BK_OK ∧ owners r.2 (delete i m)) ∨
  (m !! i ≠ Some (c, u16 u) ∧ r.1 ≠ BK_OK ∧ r.2 = p).
Proof.
  intros [R Sm] r. destruct (free_spec _ _ (Z.shiftl (cpu_id c) 16 + u16 u) i R) as (F1 & F2 & F3). fold r in F1, F2, F3.
  rewrite word_of, lookup_fmap in F2, F3. destruct (decide (m !! i = Some (c, u16 u))) as [E|N].
  - left. assert (i < DMA_ID_MAX)%nat by (apply (pr_dom _ _ R); rewrite lookup_fmap, E; eauto).
    rewrite E in F3. destruct F3 as [A B]; [done|done|]. split_and!; [done|done|]. split; [by rewrite fmap_delete|by apply map_Forall_delete].
  - right. split; [done|]. destruct (decide (DMA_ID_MAX ≤ i)%nat) as [L|L]; [by rewrite F1|].
    rewrite F2; [done|lia|]. destruct (m !! i) as [o|] eqn:E; cbn.
    + intros W. apply owner_word_inj in W; [by subst|by apply (Sm i)|apply u16_range].
    + pose proof (owner_word_range (c, u16 u) (u16_range u)). unfold NO_USER. lia.
Qed.

Lemma owners_user p m i : owners p m → dma_chnl_user i p = from_option owner_word NO_USER (m !! i).
Proof.
  intros [R Sm]. unfold dma_chnl_user. destruct (Nat.leb_spec DMA_ID_MAX i) as [L|L].
  - destruct (m !! i) eqn:E; [|done]. assert (i < DMA_ID_MAX)%nat by (apply (pr_dom _ _ R); rewrite lookup_fmap, E; eauto). lia.
  - rewrite (user_nth _ _ _ R L), lookup_fmap. by destruct (m !! i).
Qed.

(** A channel stays with its owner. *)
Definition in_range (m : gmap nat owner) : Prop := ∀ i, is_Some (m !! i) → (i < DMA_ID_MAX)%nat.
Lemma step_in_range m o r m' : dma_step m o r m' → in_range m → in_range m'.
Proof.
  intros St B. destruct St as [c u j Lj _ _|c u F|c u j _|c u j r _ _|c j]; try done; intros i Hi.
  - apply lookup_insert_is_Some in Hi as [<-|[_ Hi]]; [done|by apply B].
  - destruct Hi as [x Hx]. apply lookup_delete_Some in Hx as [_ Hx]. apply B. eauto.
Qed.

Lemma steps_keep m ops rs m' i o : dma_steps m ops rs m' → in_range m → m !! i = Some o →
  (∀ u j, u16 u = o.2 → chan o.1 j = i → DFree o.1 u j ∉ ops) →
  m' !! i = Some o ∧ ∀ k c u, ops !! k = Some (DAlloc c u) → rs !! k ≠ Some (Z.of_nat i).
Proof.
  intros St. induction St as [m|m op r m1 ops rs m2 St1 St2 IH]; intros B Hi N; [split; [done|]; intros [|k]; done|].
  pose proof (step_in_range _ _ _ _ St1 B) as B1.
  assert (m1 !! i = Some o ∧ ∀ c u, op = DAlloc c u → r ≠ Z.of_nat i) as [H1 Hr].
  { destruct St1 as [c u j Lj Nj Lo|c u F|c u j Ej|c u j r Nj Nr|c j].
    - assert (j ≠ i) by congruence. split; [by rewrite lookup_insert_ne|]. intros _ _ _. lia.
    - split; [done|]. intros c' u' _ E. specialize (B i ltac:(eauto)). lia.
    - destruct (decide (chan c j = i)) as [Ec|]; [|by rewrite lookup_delete_ne]. exfalso. rewrite Ec, Hi in Ej. injection Ej as ->.
      apply (N u j eq_refl Ec). by left.
    - done.
    - done. }
  destruct IH as [H2 Hk]; [done|done|intros u j Eu Ec Hin; apply (N u j Eu Ec); by right|]. split; [done|].
  intros [|k] c u; cbn; [intros [= ->] [= E]; by apply (Hr c u)|apply Hk].
Qed.

(** ** Both cores against the specification *)
Section Ops.
Context {C : Type} `{DmaDevice C}.
Context (swap_start junk2 junk3 : Z) (d : drv C).
Hypothesis swap_range : 0 < swap_start.
Hypothesis d_init : s_dma_driver_is_init d = true.
Implicit Types (s : sys) (m : gmap nat owner).

Lemma master_init s : s_dma_driver_is_init (Dma.set_pool (pool s) d) = true.
Proof using d_init. exact d_init. Qed.

Lemma linked_set_pool s p : linked swap_start s → linked swap_start (MbIpc.set_pool p s).
Proof. intros [Lc Lb]. split; intros c; [rewrite cb_set_pool|rewrite buf_set_pool]; auto. Qed.

Lemma shared_pool s p m : linked swap_start s → owners p m → shared swap_start (MbIpc.set_pool p s) m.
Proof. intros L O. split; [by apply linked_set_pool|done]. Qed.

Lemma slave_word u : slave_user u = Z.shiftl (cpu_id CPU1) 16 + u16 u.
Proof. pose proof (u16_range u). unfold slave_user. rewrite u32_small; [done|]. change (Z.shiftl DMA_CPU_SLAVE1 16) with 65536. lia. Qed.

Lemma op_step s m o : shared swap_start s m →
  ∃ r s' m', run_op swap_start junk2 junk3 d o s = Done (r, s') ∧ dma_step m o r m' ∧ shared swap_start s' m'.
Proof using swap_range d_init.
  intros [L O]. destruct o as [c u|c u i|c i].
  - destruct (owners_alloc _ m c u O) as (m' & St & O'). destruct c; cbn [run_op].
    + do 2 eexists; exists m'. split_and!; [|exact St|by apply shared_pool].
      unfold on_master. by rewrite (bind_done _ _ _ _ _ (alloc_run _ u (master_init s))).
    + destruct (ipc_alloc_run swap_start junk2 junk3 swap_range s (slave_user u) L (u32_range _)) as (s' & E & L' & P & _).
      unfold bk_dma_alloc_slave. cbn [negb]. rewrite slave_word in E, P |- *. eexists _, s', m'. split_and!; [exact E|exact St|]. split; [done|by rewrite P].
  - destruct c; cbn [run_op].
    + destruct (owners_free _ m CPU0 u i O) as [(E & Er & O')|(N & Er & Ep)].
      * do 2 eexists. exists (delete i m). split_and!; [|exact (st_free m CPU0 u i E)|exact (shared_pool s _ _ L O')].
        rewrite <-Er at 1. unfold on_master. by rewrite (free_run _ u i (master_init s)).
      * do 2 eexists. exists m. split_and!; [|exact (st_refused m CPU0 u i _ N Er)|exact (shared_pool s _ m L (eq_ind_r (λ p, owners p m) O Ep))].
        unfold on_master. by rewrite (free_run _ u i (master_init s)).
    + set (j := u8 (Z.of_nat i)). pose proof (u8_range (Z.of_nat i)) as Rj. fold j in Rj.
      destruct (ipc_free_run swap_start junk2 junk3 swap_range s (slave_user u) j L (u32_range _) ltac:(lia)) as (s' & E & L' & P & _).
      unfold bk_dma_free_slave. cbn [negb]. fold j. rewrite slave_word in E, P |- *.
      destruct (owners_free _ m CPU1 u (Z.to_nat j) O) as [(Em & Er & O')|(N & Er & Ep)].
      * rewrite Er in E. exists BK_OK, s', (delete (chan CPU1 i) m). split_and!; [exact E|by constructor|]. split; [done|by rewrite P].
      * rewrite (proj2 (Z.eqb_neq _ _)) in E by done. exists BK_FAIL, s', m. split_and!; [exact E|by constructor|]. split; [done|by rewrite P, Ep].
  - pose proof (owners_user _ m (chan c i) O) as U. destruct c; cbn [run_op chan] in *.
    + do 2 eexists. exists m. split_and!; [|exact (st_user m CPU0 i)|exact (shared_pool s _ m L O)].
      unfold on_master, bk_dma_user, return_on_not_init.
      rewrite (bind_done (gets s_dma_driver_is_init) _ _ true (Dma.set_pool (pool s) d)) by (unfold gets; by rewrite master_init).
      cbn [negb]. rewrite (bind_done (gets s_dma_chnl_pool) _ _ (pool s) (Dma.set_pool (pool s) d)) by done. unfold ret. by rewrite U.
    + pose proof (u8_range (Z.of_nat i)) as Rj. assert (0 ≤ dma_chnl_user (Z.to_nat (u8 (Z.of_nat i))) (pool s) < 2 ^ 32) as Ru.
      { rewrite U. destruct (m !! _) as [o|] eqn:E; [|done]. pose proof (owner_word_range o (ow_small _ _ O _ _ E)). cbn. lia. }
      destruct (ipc_user_run swap_start junk2 junk3 swap_range s _ L Rj Ru) as (s' & E & L' & P & _). rewrite U in E.
      eexists _, s', m. split_and!; [exact E|exact (st_user m CPU1 i)|]. split; [done|by rewrite P].
Qed.

(** C3: Both cores use the DMA channel pool as one map from channels to owners (a
    core and a user number): in any sequence of bk_dma_alloc, bk_dma_free and
    bk_dma_user calls on the master and, over mailbox requests, on the slave, every
    call returns what the map gives (the lowest free channel, the holder) and
    changes it so; a release takes effect exactly when the caller is the owner, so
    a channel stays with its owner, of either core, until he releases it. *)
Theorem dma_shared_by_cores s m ops : shared swap_start s m →
  ∃ rs s' m', run_ops swap_start junk2 junk3 d ops s = Done (rs, s') ∧ dma_steps m ops rs m' ∧ shared swap_start s' m' ∧
    (∀ i o, m !! i = Some o → (∀ u j, u16 u = o.2 → chan o.1 j = i → DFree o.1 u j ∉ ops) →
       m' !! i = Some o ∧ ∀ k c u, ops !! k = Some (DAlloc c u) → rs !! k ≠ Some (Z.of_nat i)).
Proof using swap_range d_init.
  intros Sh. assert (∃ rs s' m', run_ops swap_start junk2 junk3 d ops s = Done (rs, s') ∧ dma_steps m ops rs m' ∧ shared swap_start s' m')
    as (rs & s' & m' & E & St & Sh').
  { revert s m Sh. induction ops as [|o ops IH]; intros s m Sh; cbn [run_ops].
    - exists [], s, m. split_and!; [done|constructor|done].
    - destruct (op_step s m o Sh) as (r & s1 & m1 & E & St & Sh1). rewrite (bind_done _ _ _ _ _ E).
      destruct (IH s1 m1 Sh1) as (rs & s2 & m2 & E2 & St2 & Sh2). rewrite (bind_done _ _ _ _ _ E2).
      exists (r :: rs), s2, m2. split_and!; [done|by econstructor|done]. }
  exists rs, s', m'. split_and!; [done|done|done|]. intros i o. apply (steps_keep m ops rs m' i o St).
  intros j [x Hx]. apply (pr_dom _ _ (ow_rep _ _ (sh_pool _ _ _ Sh))). rewrite lookup_fmap, Hx. eauto.
Qed.
End Ops.

(** ** The remaining commands *)
Section Commands.
Context (swap_start junk2 junk3 : Z).
Hypothesis swap_range : 0 < swap_start.

(** The call [k] returns [v] and leaves the tables and the connection alone. *)
Definition answered_with (k : M sys Z) (v : Z) (s : sys) : Prop :=
  ∃ s', k s = Done (v, s') ∧ linked swap_start s' ∧ pool s' = pool s ∧ locks s' = locks s.

(** Solves the handler's equation for a command without data of its own. *)
Ltac served_const := intros h m A5 A6; cbn [rx_cmd_handler other] in *; unfold ipc_server_cmd_handler, ipc_client_cmd_handler;
  match goal with |- bind (gets (cb ?p)) _ h = _ => rewrite (bind_done (gets (cb p)) _ h (cb p h) h) by done end;
  rewrite A5; br; first [reflexivity | destruct A6 as [A6|]; [|done]; rewrite (proj2 (Z.leb_le _ _)) by exact A6; reflexivity].

(** On connected cores every command is answered: the test command, either way,
    with its parameter plus one modulo 2^32; the slave's power-up and heart-beat
    indications and the master's setting of the heart rate with success; the
    master's readings with the slave's constants; each leaves the DMA pool and the
    locks alone and the cores connected. *)
Theorem ipc_commands_ok c u s : linked swap_start s → 0 ≤ u < 2 ^ 32 →
  let served k v := answered_with k v s in
  served (ipc_send_test_cmd swap_start junk2 junk3 c BK_OK u) (u32 (u + 1)) ∧
  served (ipc_send_power_up swap_start junk2 junk3 BK_OK) BK_OK ∧
  served (ipc_send_heart_beat swap_start junk2 junk3 BK_OK u) BK_OK ∧
  served (ipc_send_set_heart_rate swap_start junk2 junk3 BK_OK u) BK_OK ∧
  served (ipc_send_get_ps_flag swap_start junk2 junk3 BK_OK) 0xAA ∧
  served (ipc_send_get_heart_rate swap_start junk2 junk3 BK_OK) 0xBB.
Proof using swap_range.
  intros L Hu served. split_and!; [by apply ipc_test_run|..].
  - destruct (const_run swap_start junk2 junk3 swap_range CPU1 IPC_CPU1_POWER_UP_INDICATION s [] None L) with (room := @None Z) as (s' & E & P);
      [done|cbn; lia|cbn; lia|served_const|by right|]. exists s'. split; [|exact P]. unfold ipc_send_power_up. by rewrite (bind_done _ _ _ _ _ E).
  - destruct (const_run swap_start junk2 junk3 swap_range CPU1 IPC_CPU1_HEART_BEAT_INDICATION s [] (Some (le_bytes u)) L) with (room := @None Z) as (s' & E & P);
      [done|cbn; lia|cbn; lia|served_const|left; cbn; lia|]. exists s'. split; [|exact P]. unfold ipc_send_heart_beat. by rewrite (bind_done _ _ _ _ _ E).
  - destruct (const_run swap_start junk2 junk3 swap_range CPU0 IPC_SET_CPU1_HEART_RATE s [] (Some (le_bytes u)) L) with (room := @None Z) as (s' & E & P);
      [done|cbn; lia|cbn; lia|served_const|left; cbn; lia|]. exists s'. split; [|exact P]. unfold ipc_send_set_heart_rate. by rewrite (bind_done _ _ _ _ _ E).
  - destruct (const_run swap_start junk2 junk3 swap_range CPU0 IPC_GET_POWER_SAVE_FLAG s (le_bytes 0xAA) None L) with (room := Some 4) as (s' & E & P);
      [done|cbn; lia|cbn; lia|served_const|by right|]. exists s'. split; [|exact P]. unfold ipc_send_get_ps_flag. by rewrite (bind_done _ _ _ _ _ E).
  - destruct (const_run swap_start junk2 junk3 swap_range CPU0 IPC_GET_CPU1_HEART_RATE s (le_bytes 0xBB) None L) with (room := Some 4) as (s' & E & P);
      [done|cbn; lia|cbn; lia|served_const|by right|]. exists s'. split; [|exact P]. unfold ipc_send_get_heart_rate. by rewrite (bind_done _ _ _ _ _ E).
Qed.
End Commands.

(** ** Over the mailbox *)
(** The result of a computation through a function. *)
Definition mapR {S A B} (f : A → B) (r : Prelude.outcome (A * S)) : Prelude.outcome (B * S) :=
  match r with Done (a, s) => Done (f a, s) | Trap e => Trap e end.
(** [m2] is [m1] with [f] applied to its result. *)
Definition via {S A B} (f : A → B) (m1 : M S A) (m2 : M S B) : Prop := ∀ s, m2 s = mapR f (m1 s).
Lemma via_ret {S A B} (f : A → B) a b : b = f a → via (S := S) f (ret a) (ret b).
Proof. by intros ->. Qed.
Lemma via_bind {S A B C} (f : B → C) (m : M S A) k1 k2 : (∀ x, via f (k1 x) (k2 x)) → via f (bind m k1) (bind m k2).
Proof. intros Hk s. unfold bind. destruct (m s) as [[a s']|e]; [apply Hk|done]. Qed.
Lemma via_bind2 {S A B C D} (g : A → D) (f : B → C) (m : M S A) (m' : M S D) k1 k2 :
  via g m m' → (∀ x, via f (k1 x) (k2 (g x))) → via f (bind m k1) (bind m' k2).
Proof. intros Hm Hk s. unfold bind. rewrite Hm. destruct (m s) as [[a s']|e]; [apply Hk|done]. Qed.
Create HintDb via.
#[local] Hint Resolve via_ret via_bind : via.

Section Wire.
Context (swap_start junk2 junk3 : Z).
Hypothesis swap_range : 0 < swap_start.
Implicit Types (s : sys) (c p : cpu) (m : mailbox_data_t).

Ltac via_auto := repeat first
  [ apply via_bind; intros ? | apply via_ret; reflexivity
  | match goal with |- via _ (if ?b then _ else _) _ => destruct b
                  | |- via _ (match ?o with Some _ => _ | None => _ end) _ => destruct o end ].

(** A handler passes the header on. *)
Lemma handler_via p w m : via (prod_map id (set_param0 w)) (rx_cmd_handler swap_start p m) (rx_cmd_handler swap_start p (set_param0 w m)).
Proof.
  destruct p; cbn [rx_cmd_handler]; unfold ipc_server_cmd_handler, ipc_client_cmd_handler, answer_test, answer_available, answer_cnt,
    answer_alloc, answer_free, answer_user, answer; via_auto.
Qed.

Lemma rx_isr_via p w m : hdr_cmd w = hdr_cmd (param0 m) →
  via (set_param0 w) (ipc_cmd_rx_isr swap_start p m) (ipc_cmd_rx_isr swap_start p (set_param0 w m)).
Proof.
  intros E. unfold ipc_cmd_rx_isr, ipc_rx_isr_with. cbn [set_param0 param0]. rewrite E. apply via_bind. intros b.
  destruct (negb _); [via_auto|]. apply via_bind. intros _.
  apply via_bind2 with (g := prod_map id (set_param0 w)).
  - change (msg_len (set_param0 w m)) with (msg_len m). destruct (_ <? _); [by apply via_ret|]. apply via_bind. intros _. apply handler_via.
  - intros [r a]. via_auto.
Qed.

(** The sender's callback reads the command and the state of the header. *)
Lemma tx_cmpl_ext c a a' s : hdr_cmd (param0 a) = hdr_cmd (param0 a') → hdr_state (param0 a) = hdr_state (param0 a') →
  param1 a = param1 a' → param2 a = param2 a' → param3 a = param3 a' →
  ipc_cmd_tx_cmpl_isr swap_start c a s = ipc_cmd_tx_cmpl_isr swap_start c a' s.
Proof.
  intros E1 E2 E3 E4 E5. unfold ipc_cmd_tx_cmpl_isr, copy_in, msg_buff, msg_len. by rewrite E1, E2, E3, E4, E5.
Qed.

(** What core [p] in state [s] answers to a message. *)
Definition receive p s (_ : nat) (x : mailbox_data_t) : mailbox_data_t :=
  match ipc_cmd_rx_isr swap_start p x s with Done (a, _) => a | Trap _ => x end.

Lemma set_param0_eq m m' : param1 m' = param1 m → param2 m' = param2 m → param3 m' = param3 m → m' = set_param0 (param0 m') m.
Proof. destruct m, m'; cbn. by intros -> -> ->. Qed.
Lemma u8_state x : hdr_state (u8 x) = 0.
Proof.
  apply Z.bits_inj'. intros i Hi. unfold hdr_state. rewrite field_spec, Z.bits_0 by lia. unfold u8.
  destruct (i <? 4); cbn [andb]; [|done]. apply Z.mod_pow2_bits_high. lia.
Qed.

(** C24: What happens to a request between the cores is what the mailbox does with
    it: when the request of core A is in flight on channel 0 and the callbacks of
    both cores are installed (core B's exactly when its channel is initialised), the
    mailbox of B calls ipc_cmd_rx_isr with a message on which it acts and answers as
    on the one A wrote, B's acknowledgement reaches A, and there ipc_cmd_tx_cmpl_isr
    is called with a message on which it does what it does in [deliver]. *)
Theorem ipc_through_mailbox c s s1 ack1 m cmd mbA mbB sendA refillA answerA sendB refillB lA lB :
  let on := chnl_inited (cb (other c) s) in
  param0 m = u8 cmd →
  (if on then ipc_cmd_rx_isr swap_start (other c) m s = Done (ack1, s1) else s1 = s) →
  mb_wf mbA → tx_log_chnl_id (phy_chnl_cb mbA) = 0%nat →
  log_chnl_cb mbA !! 0%nat = Some lA → tx_cmpl_isr lA = true →
  log_chnl_cb mbB !! 0%nat = Some lB → rx_isr lB = on → sendB (nsend mbB) = BK_OK →
  ∃ seen ack mbB' mbA' a,
    mb_phy_chnl_rx_isr sendB refillB (receive (other c) s) (cmd_msg 0 (tx_seq (phy_chnl_cb mbA)) m) mbB = Done (tt, mbB') ∧
    calls mbB' = calls mbB ++ (if on then [RxIsr 0 (isr_param lB) seen] else []) ∧
    (on = true → ∃ b, ipc_cmd_rx_isr swap_start (other c) seen s = Done (b, s1)) ∧
    sent mbB' = sent mbB ++ [(MB_PHY_ACK_CHNL, ack)] ∧
    mb_phy_chnl_rx_isr sendA refillA answerA ack mbA = Done (tt, mbA') ∧
    (calls mbA ++ [TxCmplIsr 0 (isr_param lA) a]) `prefix_of` calls mbA' ∧
    ipc_cmd_tx_cmpl_isr swap_start c a s1 = deliver swap_start c m s.
Proof.
  intros on E0 Rx WA Ech HlA HtA HlB HrB HsB. pose proof (u8_state cmd) as St. rewrite <-E0 in St.
  rewrite <-Ech in HlA, HlB.
  destruct (command_roundtrip sendA refillA answerA sendB refillB (receive (other c) s) mbA mbB lA lB m WA HlA HlB HsB)
    as (seen & ack & mbB' & mbA' & RB & CB & (_ & _ & _ & _ & Hc & P1 & P2 & P3) & SB & RA & _ & HA).
  rewrite Ech, HrB in *. destruct (HA HtA) as (a & Pre & _ & _ & _ & As & Ac & A1 & A2 & A3).
  exists seen, ack, mbB', mbA', a. split_and!; try done.
  - intros Eon. rewrite Eon in Rx. rewrite (set_param0_eq m seen) by done. rewrite rx_isr_via by done. rewrite Rx. by eexists.
  - unfold deliver. rewrite (bind_done (gets (cb (other c))) _ s (cb (other c) s) s) by done. fold on. destruct on.
    + erewrite bind_done; [|by rewrite (bind_done _ _ _ _ _ Rx)].
      unfold receive in A1, A2, A3. rewrite (set_param0_eq m seen), rx_isr_via, Rx in A1, A2, A3 by done. cbn [mapR set_param0 param1 param2 param3] in *.
      apply tx_cmpl_ext; cbn [param0 param1 param2 param3 set_param0]; try done; congruence.
    + erewrite bind_done; [|done]. subst s1. apply tx_cmpl_ext; cbn [param0 param1 param2 param3 set_param0]; try done.
      * rewrite Ac. hdr. done.
      * rewrite As. unfold CHNL_STATE_COM_FAIL. hdr. done.
Qed.

(** ** Failures *)
(** Core [c] can send. *)
Definition usable c s : Prop := idle swap_start c (cb c s) ∧ ∀ k, length (buf k s) = 64%nat.
(** Nothing but the sender's block and its buffer has changed. *)
Definition own_only c s s' : Prop :=
  usable c s' ∧ cb (other c) s' = cb (other c) s ∧ buf (other c) s' = buf (other c) s ∧ pool s' = pool s ∧ locks s' = locks s.

Lemma own_done c s b l : usable c s → idle swap_start c b → length l = 64%nat → own_only c s (set_buf c l (set_cb c b s)).
Proof.
  intros [_ Lb] I Ll. split; [|by destruct c]. split; [by destruct c|]. intros k. specialize (Lb k). by destruct c, k.
Qed.
Lemma set_buf_same c s : set_buf c (buf c s) s = s.
Proof. by destruct c, s. Qed.
Lemma idle_tx c b cmd f : idle swap_start c b → idle swap_start c (b_tx cmd false f b).
Proof. intros []. by split. Qed.

Lemma begin_usable c w cmd data s : usable c s →
  let d := data_of data in
  let l := if IPC_XCHG_DATA_MAX <? Z.of_nat (length d) then buf c s else write_at (buf c s) 0 d in
  length l = 64%nat ∧
  ipc_send_begin swap_start junk2 junk3 c w cmd data s =
  if IPC_XCHG_DATA_MAX <? Z.of_nat (length d) then Done (inl BK_ERR_PARAM, set_buf c l (set_cb c (b_tx cmd false false (cb c s)) s))
  else if w =? BK_OK then Done (inr (request swap_start junk2 junk3 c (u8 cmd) (length d)), set_buf c l (set_cb c (b_tx cmd true false (cb c s)) s))
  else Done (inl w, set_buf c l (set_cb c (b_tx cmd false false (cb c s)) s)).
Proof using swap_range.
  intros [I Lb] d l. destruct I as [Ii _ _ It _ _ _]. split.
  { unfold l, IPC_XCHG_DATA_MAX. destruct (Z.ltb_spec 64 (Z.of_nat (length d))); [done|]. rewrite length_write_at; rewrite Lb; lia. }
  unfold ipc_send_begin, ipc_send_begin_len. rewrite send_data. rewrite (bind_done (gets (cb c)) _ s (cb c s) s) by done. rewrite Ii. cbn [negb].
  rewrite (bind_done _ _ _ _ _ (upd_cb_run c _ s)). fold (data_of data). fold d. set (s1 := set_cb c _ s).
  assert (E1 : ∀ x, set_buf c x s1 = set_buf c x (set_cb c (b_tx cmd true false (cb c s)) s)) by done.
  destruct (IPC_XCHG_DATA_MAX <? _) eqn:B; zb.
  - rewrite (bind_done _ _ _ _ _ (upd_cb_run c _ s1)). unfold ret, l, s1. rewrite cb_set_same, set_cb_cb. do 2 f_equal. by destruct c, s.
  - assert (E : (if (0 <? length d)%nat then write_mem swap_start (tx_xchg_buff (cb c s)) d else ret tt) s1 = Done (tt, set_buf c l s1)).
    { rewrite It. unfold l. destruct (Nat.ltb_spec 0 (length d)).
      - rewrite write_mem_run by (unfold IPC_XCHG_DATA_MAX in *; lia || done). unfold s1. by rewrite buf_set_cb.
      - destruct d; [|cbn in *; lia]. unfold ret, s1. do 2 f_equal. by destruct c, s. }
    rewrite (bind_done _ _ _ _ _ E). destruct (w =? BK_OK) eqn:W; cbn [negb].
    + unfold ret, request. by rewrite It.
    + rewrite (bind_done _ _ _ _ _ (upd_cb_run c _ _)). unfold ret, s1. do 2 f_equal. by destruct c.
Qed.

(** The wait after a failed answer. *)
Lemma end_done c room s : rsp_sema (cb c s) = true → tx_cmd_failed (cb c s) = true →
  ∃ b, ipc_send_end c room s = Done ((BK_FAIL, []), set_cb c b s) ∧ b = b_proc false (b_sema false (cb c s)).
Proof.
  intros Es Ef. eexists. split; [|done]. unfold ipc_send_end. rewrite (bind_done (gets (cb c)) _ s (cb c s) s) by done.
  rewrite Es. cbn [negb]. erewrite bind_done.
  2: { rewrite (bind_done _ _ _ _ _ (upd_cb_run c _ s)), (bind_done _ _ _ _ _ (upd_cb_run c _ _)). rewrite Ef. reflexivity. }
  rewrite (bind_done _ _ _ _ _ (upd_cb_run c _ _)). unfold ret. by rewrite !cb_set_same, !set_cb_cb.
Qed.

(** C30: A request that fails leaves the system as it was but for the sender's own
    block and buffer, and the sender ready for the next one: an uninitialised
    channel gives BK_FAIL, more than 64 bytes BK_ERR_PARAM, a failing mailbox its
    code, a core without callbacks BK_FAIL, and no answer in time a timeout. *)
Theorem ipc_failures c w cmd data room s :
  (chnl_inited (cb c s) = false → ipc_exchange swap_start junk2 junk3 c w cmd data room s = Done ((BK_FAIL, []), s)) ∧
  (usable c s → 0 ≤ cmd < 128 →
    (64 < length (data_of data) → ∃ s', ipc_exchange swap_start junk2 junk3 c w cmd data room s = Done ((BK_ERR_PARAM, []), s') ∧ own_only c s s')%nat ∧
    ((length (data_of data) ≤ 64)%nat → w ≠ BK_OK →
       ∃ s', ipc_exchange swap_start junk2 junk3 c w cmd data room s = Done ((w, []), s') ∧ own_only c s s') ∧
    ((length (data_of data) ≤ 64)%nat → chnl_inited (cb (other c) s) = false →
       ∃ s', ipc_exchange swap_start junk2 junk3 c BK_OK cmd data room s = Done ((BK_FAIL, []), s') ∧ own_only c s s') ∧
    ((length (data_of data) ≤ 64)%nat →
       ∃ m s1 s', ipc_send_begin swap_start junk2 junk3 c BK_OK cmd data s = Done (inr m, s1) ∧
         ipc_send_end c room s1 = Done ((kTimeoutErr, []), s') ∧ own_only c s s')).
Proof using swap_range.
  split.
  { intros N. unfold ipc_exchange, ipc_send_begin, ipc_send_begin_len. unfold bind, gets, ret. by rewrite N. }
  intros U Hc. pose proof (proj1 U) as I.
  destruct (begin_usable c w cmd data s U) as [Ll Bw]. destruct (begin_usable c BK_OK cmd data s U) as [_ B0]. cbv zeta in *.
  set (d := data_of data) in *. unfold IPC_XCHG_DATA_MAX in *. set (l := if 64 <? _ then buf c s else _) in *.
  change (BK_OK =? BK_OK) with true in B0. cbv iota in B0.
  split_and!; intros Hd.
  - rewrite (proj2 (Z.ltb_lt _ _)) in Bw by lia. eexists. split; [unfold ipc_exchange; by rewrite (bind_done _ _ _ _ _ Bw)|].
    apply own_done; [done|by apply idle_tx|done].
  - intros Hw. rewrite (proj2 (Z.ltb_ge _ _)), (proj2 (Z.eqb_neq _ _)) in Bw by lia || done.
    eexists. split; [unfold ipc_exchange; by rewrite (bind_done _ _ _ _ _ Bw)|]. apply own_done; [done|by apply idle_tx|done].
  - intros Ho. rewrite (proj2 (Z.ltb_ge _ _)) in B0 by lia. unfold ipc_exchange. rewrite (bind_done _ _ _ _ _ B0).
    set (s1 := set_buf c l (set_cb c (b_tx cmd true false (cb c s)) s)).
    assert (Ec : cb c s1 = b_tx cmd true false (cb c s)) by (unfold s1; by rewrite cb_set_buf, cb_set_same).
    assert (Eo : chnl_inited (cb (other c) s1) = false) by (unfold s1; by rewrite cb_set_buf, cb_set_other).
    destruct (cmd_hdr cmd Hc) as (H1 & _ & _ & ->). set (m := request _ _ _ c cmd _).
    set (bc := b_sema true (b_done true (cb c s1))).
    assert (De : deliver swap_start c m s1 = Done (tt, set_cb c bc s1)).
    { unfold deliver. rewrite (bind_done (gets (cb (other c))) _ s1 (cb (other c) s1) s1), Eo by done.
      erewrite bind_done; [|done]. unfold ipc_cmd_tx_cmpl_isr. rewrite (bind_done (gets (cb c)) _ s1 (cb c s1) s1) by done.
      cbn [param0 set_param0 m request]. assert (hdr_cmd (set_hdr_state CHNL_STATE_COM_FAIL cmd) = cmd) as -> by (rewrite <-H1 at 2; hdr; done).
      assert (hdr_state (set_hdr_state CHNL_STATE_COM_FAIL cmd) = CHNL_STATE_COM_FAIL) as -> by (unfold CHNL_STATE_COM_FAIL; hdr; done).
      rewrite Ec. cbn [b_tx tx_cmd tx_cmd_in_process negb]. rewrite Z.eqb_refl.
      change (negb (Z.land CHNL_STATE_COM_FAIL CHNL_STATE_COM_FAIL =? 0)) with true. cbn [orb].
      rewrite (bind_done _ _ _ _ _ (upd_cb_run c _ s1)), upd_cb_run, cb_set_same, set_cb_cb. unfold bc. by rewrite Ec. }
    rewrite (bind_done _ _ _ _ _ De). destruct (end_done c room (set_cb c bc s1)) as (b & E & Fl); [by rewrite cb_set_same..|].
    rewrite cb_set_same in Fl. rewrite set_cb_cb in E. eexists. split; [exact E|].
    replace (set_cb c _ s1) with (set_buf c l (set_cb c b s)) by (subst b; unfold s1; by destruct c).
    apply own_done; [done| |done]. subst b. unfold bc. rewrite Ec. destruct I. by split.
  - rewrite (proj2 (Z.ltb_ge _ _)) in B0 by lia. set (s1 := set_buf c l (set_cb c (b_tx cmd true false (cb c s)) s)) in *. eexists _, s1, _. split; [exact B0|].
    unfold ipc_send_end. rewrite (bind_done (gets (cb c)) _ s1 (cb c s1) s1) by done.
    assert (Ec : cb c s1 = b_tx cmd true false (cb c s)) by (unfold s1; by rewrite cb_set_buf, cb_set_same).
    rewrite Ec. cbn [b_tx rsp_sema]. rewrite (id_sema _ _ _ I). cbn [negb].
    rewrite (bind_done (ret (kTimeoutErr, [])) _ s1 (kTimeoutErr, []) s1) by done. rewrite (bind_done _ _ _ _ _ (upd_cb_run c _ s1)).
    unfold ret. split; [reflexivity|]. rewrite Ec.
    replace (set_cb c _ s1) with (set_buf c l (set_cb c (b_tx cmd false false (cb c s)) s)) by (unfold s1; by destruct c).
    apply own_done; [done|by apply idle_tx|done].
Qed.
End Wire.

(** ** Concrete runs *)
Definition off_cb : ipc_chnl_cb_t := mk_cb false 0 false 0 0 false false [] 0 0 0 false [] 0.
Definition no_core : core := mk_core false (mk_sem false 0) 0.
Definition boot_sys : sys := mk_sys off_cb off_cb (replicate 64 0) (replicate 64 0) empty_pool (replicate 3 (mk_res 9 9 no_core no_core)).
Definition swap0 : Z := 0x10000.
Definition after_run {A} (k : M sys A) s : sys := match k s with Done (_, s') => s' | Trap _ => s end.
Definition half_up : sys := after_run (ipc_client_init swap0 BK_OK BK_OK BK_OK) boot_sys.
Definition both_up : sys := after_run (ipc_server_init swap0 BK_OK BK_OK BK_OK) half_up.

Lemma both_up_linked : linked swap0 both_up.
Proof. split; intros []; try split; vm_compute; done. Qed.
Lemma both_up_shared : shared swap0 both_up ∅.
Proof. split; [exact both_up_linked|]. split; [|apply map_Forall_empty]. rewrite fmap_empty. exact empty_rep. Qed.

Lemma ipc_commands_ok_witness : ∃ s', ipc_send_test_cmd swap0 5 6 CPU0 BK_OK (2 ^ 32 - 1) both_up = Done (0, s') ∧ linked swap0 s'.
Proof.
  destruct (ipc_commands_ok swap0 5 6 ltac:(done) CPU0 (2 ^ 32 - 1) both_up both_up_linked ltac:(lia)) as ((s' & E & L & _) & _).
  exists s'. split; [exact E|exact L].
Defined.

(** The slave takes channel 0, the master channel 1; neither can release the
    other's, under the same user number. *)
Lemma dma_shared_by_cores_witness :
  let ops := [DAlloc CPU1 7; DAlloc CPU0 7; DFree CPU0 7 0; DFree CPU1 7 1; DUser CPU0 0; DUser CPU1 1; DFree CPU1 7 256; DAlloc CPU0 9] in
  ∃ s' m', run_ops swap0 5 6 DmaApi.demo ops both_up = Done ([0; 1; BK_ERR_PARAM; BK_FAIL; 2 ^ 16 + 7; 7; BK_OK; 0], s') ∧ shared swap0 s' m'.
Proof.
  intros ops. destruct (dma_shared_by_cores swap0 5 6 DmaApi.demo ltac:(done) ltac:(vm_compute; reflexivity) both_up ∅ ops both_up_shared)
    as (rs & s' & m' & E & _ & Sh & _).
  exists s', m'. split; [|exact Sh]. rewrite E. f_equal. f_equal. revert E.
  assert (match run_ops swap0 5 6 DmaApi.demo ops both_up with Done (r, _) => r | Trap _ => [] end
          = [0; 1; BK_ERR_PARAM; BK_FAIL; 2 ^ 16 + 7; 7; BK_OK; 0]) as V by (vm_compute; reflexivity).
  intros E. rewrite E in V. exact V.
Defined.

(** The slave's test command on the wire. *)
Definition test_begin : M sys (Z + mailbox_data_t) := ipc_send_begin swap0 5 6 CPU1 BK_OK IPC_TEST_CMD (Some (le_bytes 5)).
Definition test_msg : mailbox_data_t := mk_data 0 swap0 4 6.
Definition in_flight : mb := Mailbox.state_of (demo_run false ;;; mb_chnl_write s_ok no_refill 0 test_msg ;;; ret tt).

Lemma ipc_through_mailbox_witness :
  ∃ ack mbB' mbA', mb_phy_chnl_rx_isr s_ok no_refill (receive swap0 CPU0 (after_run test_begin both_up))
      (cmd_msg 0 (tx_seq (phy_chnl_cb in_flight)) test_msg) demo_idle = Done (tt, mbB') ∧
    sent mbB' = sent demo_idle ++ [(MB_PHY_ACK_CHNL, ack)] ∧
    mb_phy_chnl_rx_isr s_ok no_refill adder ack in_flight = Done (tt, mbA').
Proof.
  set (s := after_run test_begin both_up).
  assert (∃ a s1, ipc_cmd_rx_isr swap0 CPU0 test_msg s = Done (a, s1)) as (ack1 & s1 & Rx) by (do 2 eexists; vm_compute; reflexivity).
  assert (W : mb_wf in_flight) by (split; vm_compute; [done|done|lia|done]).
  destruct (ipc_through_mailbox swap0 CPU1 s s1 ack1 test_msg IPC_TEST_CMD in_flight demo_idle s_ok no_refill adder s_ok no_refill
    (demo_log 0 in_flight) (demo_log 0 demo_idle) eq_refl Rx W ltac:(vm_compute; reflexivity) ltac:(vm_compute; reflexivity)
    ltac:(vm_compute; reflexivity) ltac:(vm_compute; reflexivity) ltac:(vm_compute; reflexivity) eq_refl)
    as (seen & ack & mbB' & mbA' & a & RB & _ & _ & SB & RA & _).
  exists ack, mbB', mbA'. split_and!; [exact RB|exact SB|exact RA].
Defined.

Lemma ipc_failures_witness :
  (∃ s', ipc_exchange swap0 5 6 CPU1 BK_OK IPC_TEST_CMD (Some (le_bytes 5)) (Some 4) half_up = Done ((BK_FAIL, []), s')) ∧
  ∃ s', ipc_exchange swap0 5 6 CPU1 BK_OK IPC_TEST_CMD (Some (replicate 65 0)) None both_up = Done ((BK_ERR_PARAM, []), s').
Proof.
  assert (U : usable swap0 CPU1 both_up) by (split; apply both_up_linked).
  assert (U' : usable swap0 CPU1 half_up) by (split; [split; vm_compute; done|intros []; vm_compute; done]).
  split.
  - destruct (proj2 (ipc_failures swap0 5 6 ltac:(done) CPU1 BK_OK IPC_TEST_CMD (Some (le_bytes 5)) (Some 4) half_up) U' ltac:(done)) as (_ & _ & F & _).
    destruct F as (s' & E & _); [vm_compute; lia|vm_compute; reflexivity|]. by exists s'.
  - destruct (proj2 (ipc_failures swap0 5 6 ltac:(done) CPU1 BK_OK IPC_TEST_CMD (Some (replicate 65 0)) None both_up) U ltac:(done)) as (F & _).
    destruct F as (s' & E & _); [vm_compute; lia|]. by exists s'.
Defined.

(** An answer that comes after its request has timed out, while the next request
    with the same command is being prepared (its parameters are in the buffer, its
    message is not yet written), is taken for the answer of that request; its data
    is the parameter of the new request, not its answer. *)
Definition late_run : M sys (Z * list Z) :=
  let* r := test_begin in
  match r with
  | inl e => ret (e, [])
  | inr m =>
      let* ack := ipc_cmd_rx_isr swap0 CPU0 m in
      let* first := ipc_send_end CPU1 (Some 4) in
      let* _ := ipc_send_begin swap0 5 6 CPU1 BK_OK IPC_TEST_CMD (Some (le_bytes 70)) in
      ipc_cmd_tx_cmpl_isr swap0 CPU1 (set_param0 (param0 m) ack) ;;;
      let* second := ipc_send_end CPU1 (Some 4) in
      ret (if first.1 =? kTimeoutErr then second else (BK_FAIL, []))
  end.
Theorem late_answer_taken : match late_run both_up with Done (r, _) => r = (BK_OK, le_bytes 70) | Trap _ => False end.
Proof. vm_compute. reflexivity. Qed.
End Cores.
