(* ===== verification/MbRpc.v ===== *)
(** * Remote procedure calls between the processors: the RPC part of
    middleware/driver/mailbox/mb_ipc_cmd.c

    The slave core calls an interface of the master core over a second command channel
    (MbIpc.v).  The master's interrupt answers "pending" and wakes the server task,
    which runs the interface and sends its result as a message of its own; that message
    ends the wait of the caller.

    Modelled: both sides and the initialisation.  The state is the channel's blocks and
    buffers, the semaphore of the server and whether its task runs.  Calls and task are
    split where they wait, so that the interrupts of both cores can come in any order;
    [rpc_exchange] is a whole call.  The servers of the GPIO and the DMA interface are
    not in the repository: [svr m call] is what the one of module [m] answers, [None]
    when it does not know the call. *)
From S2P Require Import Prelude Bytes Mailbox AmpCnt MbIpc MbIpcOps Cores.
Import AmpCnt MbIpc MbIpcOps.
Local Open Scope Z_scope.

Module MbRpc.

Definition MB_CHNL_RPC : Z := 1.
Definition IPC_CALL_CMD : Z := 0x60.
Definition RPC_MOD_GPIO : Z := 0.
Definition RPC_MOD_DMA : Z := 1.

Record rpc := mk_rpc { chnl : sys; server_ind_sema : bool; svr_task : bool }.
Definition on {A} (k : M sys A) : M rpc A := λ r,
  match k (chnl r) with Done (a, s) => Done (a, mk_rpc s (server_ind_sema r) (svr_task r)) | Trap t => Trap t end.
Definition set_ind (v : bool) : M rpc unit := modify (λ r, mk_rpc (chnl r) v (svr_task r)).
Definition set_task (v : bool) : M rpc unit := modify (λ r, mk_rpc (chnl r) (server_ind_sema r) v).

Section MbRpc.
(** [swap_start]: the buffers of this channel in the shared memory. *)
Context (swap_start junk2 junk3 : Z) (svr : Z → list Z → option (list Z)).

(** ** The headers of calls and results *)
Definition mod_id (l : list Z) : Z := nth 0 l 0.
(** [rpc_ret_fail_t]: the header of the call with the length of the data, and the code. *)
Definition rpc_ret_fail (call : list Z) : list Z := take 3 call ++ [4] ++ le_bytes (u32 BK_ERR_NOT_SUPPORT).

(** ** Interrupts *)
Definition rpc_server_cmd_handler (ack : mailbox_data_t) : M rpc (Z * mailbox_data_t) :=
  let* b := on (gets (cb CPU0)) in
  if rx_cmd b =? IPC_CALL_CMD then set_ind true ;;; ret (ACK_STATE_PENDING, ack)
  else on (ipc_server_cmd_handler swap_start ack).
Definition rpc_rx_isr (c : cpu) (cmd : mailbox_data_t) : M rpc mailbox_data_t :=
  match c with
  | CPU0 => ipc_rx_isr_with swap_start (@on) rpc_server_cmd_handler CPU0 cmd
  | CPU1 => on (ipc_cmd_rx_isr swap_start CPU1 cmd)
  end.
Definition rpc_tx_cmpl_isr (c : cpu) (ack : mailbox_data_t) : M rpc unit := on (ipc_cmd_tx_cmpl_isr swap_start c ack).

(** ** Client *)
Definition rpc_client_init (sem1 sem2 open_ret : Z) : M rpc Z := on (ipc_chnl_init swap_start MB_CHNL_RPC CPU1 sem1 sem2 open_ret).

(** Up to the wait, and from it on.  [ret_buf] is the buffer of the caller, with the
    room [length ret_buf]; [None] is the null pointer. *)
Definition rpc_client_call_begin (write_ret : Z) (rpc_param : list Z) : M rpc (Z + mailbox_data_t) :=
  let* b := on (gets (cb CPU1)) in
  if negb (chnl_inited b) then ret (inl BK_FAIL)
  else on (ipc_send_begin swap_start junk2 junk3 CPU1 write_ret IPC_CALL_CMD (Some rpc_param)).
Definition rpc_client_call_end (rpc_param : list Z) (ret_buf : option (list Z)) : M rpc (Z * list Z) :=
  let* r := on (ipc_send_end CPU1 (Z.of_nat ∘ length <$> ret_buf)) in
  let old := default [] ret_buf in
  if negb (r.1 =? BK_OK) then ret (r.1, old)
  else if (length old =? 0)%nat then ret (BK_OK, old)
  else
    let new := write_at old 0 r.2 in
    if negb (mod_id rpc_param =? mod_id new) || negb (mod_id rpc_param =? mod_id new) then ret (BK_FAIL, new)
    else ret (BK_OK, new).

(** ** Server *)
Definition rpc_server_init (sem0 sem1 sem2 open_ret thread_ret : Z) : M rpc Z :=
  if negb (sem0 =? BK_OK) then ret sem0
  else
    set_ind false ;;;
    let* ret_code := on (ipc_chnl_init swap_start MB_CHNL_RPC CPU0 sem1 sem2 open_ret) in
    if negb (ret_code =? BK_OK) then ret ret_code
    else set_task (thread_ret =? BK_OK) ;;; ret BK_OK.

(** Waiting for the semaphore: 1 when it is taken, 0 when the wait times out. *)
Definition rpc_server_listen_cmd : M rpc Z :=
  let* v := gets server_ind_sema in
  if v then set_ind false ;;; ret 1 else ret 0.

Definition rpc_server_rsp_begin (write_ret : Z) (rsp_param : list Z) : M rpc (Z + mailbox_data_t) :=
  let* b := on (gets (cb CPU0)) in
  if negb (chnl_inited b) then ret (inl BK_FAIL)
  else if negb (rx_cmd_in_process b) then ret (inl BK_FAIL)
  else
    let* r := on (ipc_send_begin swap_start junk2 junk3 CPU0 write_ret (Z.lor IPC_CALL_CMD IPC_RSP_CMD_FLAG) (Some rsp_param)) in
    match r with
    | inl e => on (upd_cb CPU0 (λ b, b_rx (rx_cmd b) false b)) ;;; ret (inl e)
    | inr m => ret (inr m)
    end.
Definition rpc_server_rsp_end : M rpc Z :=
  let* r := on (ipc_send_end CPU0 None) in
  on (upd_cb CPU0 (λ b, b_rx (rx_cmd b) false b)) ;;; ret r.1.

(** The table of servers: what the call is answered with. *)
Definition svr_dispatch (call : list Z) : list Z :=
  match (if (mod_id call =? RPC_MOD_GPIO) || (mod_id call =? RPC_MOD_DMA) then svr (mod_id call) call else None) with
  | Some rsp => rsp
  | None => rpc_ret_fail call
  end.
(** [rpc_server_handle_cmd] up to the wait of the answer's message; [None] when there is
    nothing to do. *)
Definition rpc_server_handle_cmd_begin (write_ret : Z) : M rpc (option (Z + mailbox_data_t)) :=
  let* b := on (gets (cb CPU0)) in
  if negb (rx_cmd_in_process b) then ret None
  else let* r := rpc_server_rsp_begin write_ret (svr_dispatch (cmd_buf b)) in ret (Some r).

(** ** A whole call *)
(** A message at the other core, and the acknowledgement that comes back for it. *)
Definition arrive (c : cpu) (m : mailbox_data_t) : M rpc mailbox_data_t :=
  let* a := rpc_rx_isr (other c) m in ret (set_param0 (param0 m) a).
(** The server task once: it takes the semaphore, serves the call and sends the answer;
    the interrupts of that message run at [during]. *)
Definition serve (write_ret : Z) (during : mailbox_data_t → M rpc unit) : M rpc unit :=
  let* t := gets svr_task in
  let* n := (if t : bool then rpc_server_listen_cmd else ret 0) in
  if n =? 0 then ret tt
  else let* r := rpc_server_handle_cmd_begin write_ret in
       match r with
       | Some (inr m) => during m ;;; rpc_server_rsp_end ;;; ret tt
       | _ => ret tt
       end.
(** [early]: the acknowledgement of the call reaches the caller before the answer does;
    otherwise only after it. *)
Definition rpc_exchange (early : bool) (write_ret write_ret' : Z) (rpc_param : list Z) (ret_buf : option (list Z)) : M rpc (Z * list Z) :=
  let* r := rpc_client_call_begin write_ret rpc_param in
  match r with
  | inl e => ret (e, default [] ret_buf)
  | inr m =>
      let* ack := arrive CPU1 m in
      (if early then rpc_tx_cmpl_isr CPU1 ack else ret tt) ;;;
      serve write_ret' (λ m',
        let* ack' := arrive CPU0 m' in
        (if early then ret tt else rpc_tx_cmpl_isr CPU1 ack) ;;;
        rpc_tx_cmpl_isr CPU0 ack') ;;;
      rpc_client_call_end rpc_param ret_buf
  end.

(** ** Steps of a call *)
Hypothesis swap_range : 0 < swap_start.
Implicit Types (r : rpc) (s : sys).
Lemma on_done {A} (k : M sys A) s v t a s' : k s = Done (a, s') → on k (mk_rpc s v t) = Done (a, mk_rpc s' v t).
Proof. unfold on. cbn. by intros ->. Qed.
Lemma on_bind {A B} (k : M sys A) (f : A → M rpc B) s v t a s' :
  k s = Done (a, s') → bind (on k) f (mk_rpc s v t) = f a (mk_rpc s' v t).
Proof. intros E. by rewrite (bind_done _ _ _ _ _ (on_done k s v t a s' E)). Qed.
Lemma gets_run {A} (f : sys → A) s : gets f s = Done (f s, s).
Proof. done. Qed.

(** The call is in the server's block, and the server is woken. *)
Lemma call_arrives s t v param : (length param ≤ 64)%nat → take (length param) (buf CPU1 s) = param →
  rpc_rx_isr CPU0 (request swap_start junk2 junk3 CPU1 IPC_CALL_CMD (length param)) (mk_rpc s v t) =
  Done (set_state ACK_STATE_PENDING (request swap_start junk2 junk3 CPU1 IPC_CALL_CMD (length param)),
        mk_rpc (arrived CPU1 IPC_CALL_CMD param s) true t).
Proof.
  intros Lp T. unfold rpc_rx_isr, ipc_rx_isr_with. rewrite (on_bind _ _ _ _ _ _ _ (gets_run _ s)).
  change (negb (Z.land (hdr_cmd (param0 (request swap_start junk2 junk3 CPU1 IPC_CALL_CMD (length param)))) IPC_RSP_CMD_FLAG =? 0)) with false. cbv iota.
  rewrite (on_bind _ _ _ _ _ _ _ (upd_cb_run CPU0 _ s)). rewrite request_len by done. unfold IPC_XCHG_DATA_MAX.
  rewrite (proj2 (Z.ltb_ge 64 _)) by lia. set (s1 := set_cb CPU0 _ s).
  pose proof (copy_in_run swap_start swap_range CPU1 CPU0 (request swap_start junk2 junk3 CPU1 IPC_CALL_CMD (length param)) param s1 b_cmd cmd_buf
    eq_refl (request_len _ _ _ CPU1 IPC_CALL_CMD _ Lp) Lp T) as Cp.
  change (set_cb CPU0 _ s1) with (arrived CPU1 IPC_CALL_CMD param s) in Cp.
  erewrite bind_done; [|rewrite (on_bind _ _ _ _ _ _ _ Cp); unfold rpc_server_cmd_handler; rewrite (on_bind _ _ _ _ _ _ _ (gets_run _ _)); reflexivity].
  by rewrite (on_bind _ _ _ _ _ _ _ (ret_done tt _)).
Qed.

Abbreviation call_msg n := (request swap_start junk2 junk3 CPU1 IPC_CALL_CMD n).
Definition RSP_CMD : Z := Z.lor IPC_CALL_CMD IPC_RSP_CMD_FLAG.
Abbreviation rsp_msg n := (request swap_start junk2 junk3 CPU0 RSP_CMD n).

(** The caller's block and the server's block with the answer in. *)
Definition got_answer (out : list Z) (b : ipc_chnl_cb_t) : ipc_chnl_cb_t :=
  b_sema true (b_rsp (write_at (rsp_buf b) 0 out) (Z.of_nat (length out)) (b_done false b)).
Definition got_ack (b : ipc_chnl_cb_t) : ipc_chnl_cb_t := b_sema true (b_rsp (rsp_buf b) 0 (b_done false b)).

Lemma answer_arrives s v t out : tx_cmd_in_process (cb CPU1 s) = true → tx_cmd (cb CPU1 s) = IPC_CALL_CMD →
  (length out ≤ 64)%nat → take (length out) (buf CPU0 s) = out →
  rpc_rx_isr CPU1 (rsp_msg (length out)) (mk_rpc s v t) =
  Done (set_state ACK_STATE_COMPLETE (set_len 0 (set_buff 0 (rsp_msg (length out)))), mk_rpc (set_cb CPU1 (got_answer out (cb CPU1 s)) s) v t).
Proof.
  intros Ep Et Lo T. unfold rpc_rx_isr. apply on_done. unfold ipc_cmd_rx_isr, ipc_rx_isr_with.
  rewrite (bind_done (gets (cb CPU1)) _ s (cb CPU1 s) s) by done.
  change (negb (Z.land (hdr_cmd (param0 (rsp_msg (length out)))) IPC_RSP_CMD_FLAG =? 0)) with true. cbv iota.
  change (Z.land (hdr_cmd (param0 (rsp_msg (length out)))) IPC_RSP_CMD_MASK) with IPC_CALL_CMD.
  rewrite Ep, Et, Z.eqb_refl. cbn [negb]. rewrite (bind_done _ _ _ _ _ (upd_cb_run CPU1 _ s)). set (s1 := set_cb CPU1 _ s).
  rewrite request_len by done. unfold IPC_XCHG_DATA_MAX. rewrite (proj2 (Z.ltb_ge 64 _)) by lia.
  rewrite (bind_done _ _ _ _ _ (copy_in_run swap_start swap_range CPU0 CPU1 (rsp_msg (length out)) out s1 b_rsp rsp_buf eq_refl (request_len _ _ _ _ _ _ Lo) Lo T)).
  by rewrite (bind_done _ _ _ _ _ (upd_cb_run CPU1 _ _)).
Qed.
Lemma pending_ack s v t n : tx_cmd (cb CPU1 s) = IPC_CALL_CMD →
  rpc_tx_cmpl_isr CPU1 (set_param0 IPC_CALL_CMD (set_state ACK_STATE_PENDING (call_msg n))) (mk_rpc s v t) = Done (tt, mk_rpc s v t).
Proof.
  intros Et. unfold rpc_tx_cmpl_isr. apply on_done. unfold ipc_cmd_tx_cmpl_isr.
  rewrite (bind_done (gets (cb CPU1)) _ s (cb CPU1 s) s) by done. rewrite Et. cbn. by destruct (tx_cmd_in_process _).
Qed.
Lemma complete_ack s v t n : tx_cmd (cb CPU0 s) = RSP_CMD → tx_cmd_in_process (cb CPU0 s) = true →
  rpc_tx_cmpl_isr CPU0 (set_param0 RSP_CMD (set_state ACK_STATE_COMPLETE (set_len 0 (set_buff 0 (rsp_msg n))))) (mk_rpc s v t) =
  Done (tt, mk_rpc (set_cb CPU0 (got_ack (cb CPU0 s)) s) v t).
Proof.
  intros Et Ep. unfold rpc_tx_cmpl_isr. apply on_done. set (ack := set_param0 _ _). unfold ipc_cmd_tx_cmpl_isr.
  rewrite (bind_done (gets (cb CPU0)) _ s (cb CPU0 s) s) by done. rewrite Et, Ep.
  change (hdr_cmd (param0 ack) =? RSP_CMD) with true. change (param3 ack) with ACK_STATE_COMPLETE.
  change (negb (Z.land (hdr_state (param0 ack)) CHNL_STATE_COM_FAIL =? 0)) with false. cbn [negb orb Z.eqb ACK_STATE_COMPLETE ACK_STATE_FAIL Pos.eqb].
  rewrite (bind_done _ _ _ _ _ (upd_cb_run CPU0 _ s)).
  assert (msg_len ack = 0) as -> by (unfold msg_len, ack; cbn [param2 set_param0 set_state set_len]; by apply field_set_same).
  change (IPC_XCHG_DATA_MAX <? 0) with false. unfold copy_in. change (msg_buff ack) with 0. cbn [Z.eqb negb andb].
  rewrite (bind_done _ _ _ _ _ (upd_cb_run CPU0 _ _)), upd_cb_run. by autorewrite with ipc.
Qed.

(** From the wait on, with an answer there. *)
Lemma send_end_run c room out s : rsp_sema (cb c s) = true → tx_cmd_failed (cb c s) = false →
  rsp_len (cb c s) = Z.of_nat (length out) → take (length out) (rsp_buf (cb c s)) = out →
  ipc_send_end c room s = Done (outcome ACK_STATE_COMPLETE out room, set_cb c (b_proc false (b_sema false (cb c s))) s).
Proof.
  intros Es Ef El T. unfold ipc_send_end. rewrite (bind_done (gets (cb c)) _ s (cb c s) s) by done. rewrite Es. cbn [negb].
  rewrite (bind_done _ _ s (outcome ACK_STATE_COMPLETE out room) (set_cb c (b_proc false (b_sema false (cb c s))) s)).
  - rewrite (bind_done _ _ _ _ _ (upd_cb_run c _ _)). unfold ret. autorewrite with ipc. done.
  - rewrite (bind_done _ _ _ _ _ (upd_cb_run c _ _)), (bind_done _ _ _ _ _ (upd_cb_run c _ _)). autorewrite with ipc.
    rewrite Ef, El, Nat2Z.id, T. unfold outcome, ret. cbn [Z.eqb ACK_STATE_COMPLETE Pos.eqb].
    destruct room as [n|]; [|done]. destruct (n =? 0); [done|]. by destruct (n <? _).
Qed.
Lemma ind_run v s v0 t : set_ind v (mk_rpc s v0 t) = Done (tt, mk_rpc s v t).
Proof. done. Qed.

(** What the caller gets: the code, and its buffer. *)
Definition call_result (rpc_param out : list Z) (ret_buf : option (list Z)) : Z * list Z :=
  let old := default [] ret_buf in
  if (length old =? 0)%nat then (BK_OK, old)
  else if (length old <? length out)%nat then (BK_ERR_PARAM, old)
  else let new := write_at old 0 out in (if mod_id rpc_param =? mod_id new then BK_OK else BK_FAIL, new).
Lemma call_end_run s v t param out ret_buf : rsp_sema (cb CPU1 s) = true → tx_cmd_failed (cb CPU1 s) = false →
  rsp_len (cb CPU1 s) = Z.of_nat (length out) → take (length out) (rsp_buf (cb CPU1 s)) = out →
  rpc_client_call_end param ret_buf (mk_rpc s v t) =
  Done (call_result param out ret_buf, mk_rpc (set_cb CPU1 (b_proc false (b_sema false (cb CPU1 s))) s) v t).
Proof.
  intros Es Ef El T. unfold rpc_client_call_end, call_result.
  rewrite (on_bind _ _ _ _ _ _ _ (send_end_run CPU1 _ out s Es Ef El T)). unfold outcome. cbn [Z.eqb ACK_STATE_COMPLETE Pos.eqb].
  destruct ret_buf as [old|]; cbn [fmap option_fmap option_map from_option compose id]; [|done].
  destruct old as [|x old']; [done|]. set (old := x :: old') in *. assert (length old ≠ 0)%nat as Lold by done.
  rewrite (proj2 (Z.eqb_neq (Z.of_nat (length old)) 0)), (proj2 (Nat.eqb_neq (length old) 0)) by lia.
  destruct (Nat.ltb_spec (length old) (length out)), (Z.ltb_spec (Z.of_nat (length old)) (Z.of_nat (length out))); try lia; [done|].
  cbn [fst snd negb Z.eqb BK_OK]. rewrite orb_diag.
  by destruct (mod_id param =? _).
Qed.

(** The server's side of a call: from the woken task to the end of its message. *)
Definition waiting_for_answer s : Prop := tx_cmd_in_process (cb CPU1 s) = true ∧ tx_cmd (cb CPU1 s) = IPC_CALL_CMD.
Definition served_state (out : list Z) s : sys :=
  let b0 := b_tx RSP_CMD true false (cb CPU0 s) in
  let b1 := b_proc false (b_sema false (got_ack b0)) in
  set_cb CPU0 (b_rx (rx_cmd b1) false b1) (set_cb CPU1 (got_answer out (cb CPU1 s)) (set_buf CPU0 (write_at (buf CPU0 s) 0 out) s)).
Lemma serve_run early s n : waiting_for_answer s → chnl_inited (cb CPU0 s) = true → tx_xchg_buff (cb CPU0 s) = buf_addr swap_start CPU0 →
  rx_cmd_in_process (cb CPU0 s) = true → length (buf CPU0 s) = 64%nat →
  let out := svr_dispatch (cmd_buf (cb CPU0 s)) in (length out ≤ 64)%nat →
  serve BK_OK (λ m',
    let* ack' := arrive CPU0 m' in
    (if early : bool then ret tt else rpc_tx_cmpl_isr CPU1 (set_param0 IPC_CALL_CMD (set_state ACK_STATE_PENDING (call_msg n)))) ;;;
    rpc_tx_cmpl_isr CPU0 ack') (mk_rpc s true true) = Done (tt, mk_rpc (served_state out s) false true).
Proof.
  intros [Wp Wc] Ii It Ip Lb out Lo. unfold serve.
  rewrite (bind_done (gets svr_task) _ _ true (mk_rpc s true true)) by done. cbv iota.
  rewrite (bind_done rpc_server_listen_cmd _ _ 1 (mk_rpc s false true)) by done. cbn [Z.eqb].
  set (s1 := set_buf CPU0 (write_at (buf CPU0 s) 0 out) (set_cb CPU0 (b_tx RSP_CMD true false (cb CPU0 s)) s)).
  assert (rpc_server_handle_cmd_begin BK_OK (mk_rpc s false true) = Done (Some (inr (rsp_msg (length out))), mk_rpc s1 false true)) as H.
  { unfold rpc_server_handle_cmd_begin. rewrite (on_bind _ _ _ _ _ _ _ (gets_run _ s)). rewrite Ip. cbn [negb].
    erewrite bind_done; [reflexivity|]. unfold rpc_server_rsp_begin. rewrite (on_bind _ _ _ _ _ _ _ (gets_run _ s)). rewrite Ii, Ip. cbn [negb].
    rewrite (on_bind _ _ _ _ _ _ _ (send_begin_at swap_start junk2 junk3 swap_range CPU0 RSP_CMD (Some out) s Ii It ltac:(done) Lo)). done. }
  rewrite (bind_done _ _ _ _ _ H). cbv iota.
  assert (take (length out) (buf CPU0 s1) = out) as T by (unfold s1; autorewrite with ipc; apply take_write; lia).
  assert (tx_cmd_in_process (cb CPU1 s1) = true ∧ tx_cmd (cb CPU1 s1) = IPC_CALL_CMD) as [Wp1 Wc1] by done.
  set (s2 := set_cb CPU1 (got_answer out (cb CPU1 s1)) s1).
  rewrite (bind_done _ _ _ tt (mk_rpc (set_cb CPU0 (got_ack (cb CPU0 s2)) s2) false true)).
  2: { rewrite (bind_done _ _ _ (set_param0 RSP_CMD (set_state ACK_STATE_COMPLETE (set_len 0 (set_buff 0 (rsp_msg (length out)))))) (mk_rpc s2 false true)).
    - rewrite (bind_done _ _ _ tt (mk_rpc s2 false true)); [by apply complete_ack|]. destruct early; [done|]. by apply pending_ack.
    - unfold arrive. by rewrite (bind_done _ _ _ _ _ (answer_arrives s1 false true out Wp1 Wc1 Lo T)). }
  rewrite (bind_done _ _ _ BK_OK (mk_rpc (served_state out s) false true)); [done|].
  unfold rpc_server_rsp_end. set (s3 := set_cb CPU0 _ s2).
  rewrite (on_bind _ _ _ _ _ _ _ (send_end_run CPU0 None [] s3 eq_refl eq_refl eq_refl eq_refl)).
  by rewrite (on_bind _ _ _ _ _ _ _ (upd_cb_run CPU0 _ _)).
Qed.

(** Between calls: the blocks are idle and the server's task runs. *)
Definition ready r : Prop := linked swap_start (chnl r) ∧ svr_task r = true.

(** C25: A remote call is served exactly once and answered to its caller: the parameters
    reach the server's buffer, the task runs the interface that the module number
    selects (or answers "not supported"), and its answer arrives in the caller's buffer,
    whichever of the two messages' interrupts the caller takes first.  The caller gets a
    failure when the answer is that of another module and a parameter error when its
    buffer is too small.  Afterwards both cores are ready for the next call and the
    tables of the master are as they were. *)
Theorem rpc_call_ok (early : bool) r rpc_param ret_buf : ready r → (length rpc_param ≤ 64)%nat →
  let out := svr_dispatch (write_at (cmd_buf (cb CPU0 (chnl r))) 0 rpc_param) in (length out ≤ 64)%nat →
  ∃ r', rpc_exchange early BK_OK BK_OK rpc_param ret_buf r = Done (call_result rpc_param out ret_buf, r') ∧
    ready r' ∧ server_ind_sema r' = false ∧ pool (chnl r') = pool (chnl r) ∧ locks (chnl r') = locks (chnl r).
Proof.
  destruct r as [s v t]. intros [L Ht] Lp out Lo. cbn [chnl svr_task] in *. subst t.
  pose proof (lk_cb _ _ L CPU1) as I1. pose proof (lk_cb _ _ L CPU0) as I0.
  unfold rpc_exchange. rewrite (bind_done _ _ _ (inr (call_msg (length rpc_param)))
    (mk_rpc (set_buf CPU1 (write_at (buf CPU1 s) 0 rpc_param) (set_cb CPU1 (b_tx IPC_CALL_CMD true false (cb CPU1 s)) s)) v true)).
  2: { unfold rpc_client_call_begin. rewrite (on_bind _ _ _ _ _ _ _ (gets_run _ s)). rewrite (id_inited _ _ _ I1). cbn [negb].
    apply on_done. exact (send_begin_run swap_start junk2 junk3 swap_range CPU1 IPC_CALL_CMD (Some rpc_param) s L ltac:(done) Lp). }
  set (s1 := set_buf CPU1 _ _). cbv iota.
  assert (take (length rpc_param) (buf CPU1 s1) = rpc_param) as T.
  { unfold s1. autorewrite with ipc. apply take_write. by rewrite (lk_buf _ _ L CPU1). }
  set (s2 := arrived CPU1 IPC_CALL_CMD rpc_param s1).
  rewrite (bind_done _ _ _ (set_param0 IPC_CALL_CMD (set_state ACK_STATE_PENDING (call_msg (length rpc_param)))) (mk_rpc s2 true true)).
  2: { unfold arrive. by rewrite (bind_done _ _ _ _ _ (call_arrives s1 true v rpc_param Lp T)). }
  rewrite (bind_done _ _ _ tt (mk_rpc s2 true true)).
  2: { destruct early; [by apply pending_ack|done]. }
  assert (cmd_buf (cb CPU0 s2) = write_at (cmd_buf (cb CPU0 s)) 0 rpc_param) as Ec by done.
  rewrite (bind_done _ _ _ tt (mk_rpc (served_state out s2) false true)).
  2: { unfold out. rewrite <-Ec. apply serve_run; [done|apply I0|apply I0|done|apply (lk_buf _ _ L CPU0)|by rewrite Ec]. }
  set (s3 := served_state out s2).
  assert (length (rsp_buf (cb CPU1 s)) = 64%nat) as Lr by apply I1.
  rewrite (call_end_run s3 false true rpc_param out ret_buf eq_refl eq_refl eq_refl).
  2: { change (take (length out) (write_at (rsp_buf (cb CPU1 s)) 0 out) = out). apply take_write. by rewrite Lr. }
  eexists. split; [reflexivity|]. split; [|done]. split; [|done]. cbn [chnl]. split.
  - intros [|]; split; try done; try apply I0; try apply I1.
    + change (length (write_at (cmd_buf (cb CPU0 s)) 0 rpc_param) = 64%nat). pose proof (id_cmd _ _ _ I0). rewrite length_write_at; lia.
    + change (length (write_at (rsp_buf (cb CPU1 s)) 0 out) = 64%nat). rewrite length_write_at; lia.
  - pose proof (lk_buf _ _ L). intros [|].
    + change (length (write_at (buf CPU0 s) 0 out) = 64%nat). rewrite length_write_at; rewrite ?H; lia.
    + change (length (write_at (buf CPU1 s) 0 rpc_param) = 64%nat). rewrite length_write_at; rewrite ?H; lia.
Qed.
End MbRpc.

(** ** Examples: both cores initialised *)
Definition swap1 : Z := Cores.swap0 + 128.
Definition boot_rpc : rpc := mk_rpc Cores.boot_sys false false.
Definition run_rpc {A} (k : M rpc A) (r : rpc) : rpc := match k r with Done (_, r') => r' | Trap _ => r end.
Definition client_up : rpc := run_rpc (rpc_client_init swap1 BK_OK BK_OK BK_OK) boot_rpc.
Definition rpc_up : rpc := run_rpc (rpc_server_init swap1 BK_OK BK_OK BK_OK BK_OK BK_OK) client_up.
Lemma rpc_up_ready : ready swap1 rpc_up.
Proof. split; [|reflexivity]. split; [|by intros []]. intros []; split; vm_compute; reflexivity. Qed.
(** The interface of module 0 answers with its header and the third byte of the call, as
    one byte; module 1 knows no call. *)
Definition demo_svr (m : Z) (call : list Z) : option (list Z) := if m =? 0 then Some (take 4 call ++ [nth 4 call 0]) else None.
Definition demo_call (m v : Z) : list Z := [m; 9; 0; 1; v].
Lemma rpc_call_ok_witness : ∃ r',
  rpc_exchange swap1 5 6 demo_svr false BK_OK BK_OK (demo_call 0 77) (Some (replicate 5 0)) rpc_up = Done ((BK_OK, [0; 9; 0; 1; 77]), r') ∧ ready swap1 r'.
Proof.
  destruct (rpc_call_ok swap1 5 6 demo_svr ltac:(done) false rpc_up (demo_call 0 77) (Some (replicate 5 0)) rpc_up_ready) as (r' & E & R & _);
    [cbn; lia|vm_compute; lia|].
  exists r'. split; [|exact R]. rewrite E. reflexivity.
Defined.
Lemma rpc_not_supported early : ∃ r',
  rpc_exchange swap1 5 6 demo_svr early BK_OK BK_OK (demo_call 1 77) (Some (replicate 8 0)) rpc_up =
    Done ((BK_OK, [1; 9; 0; 4] ++ le_bytes (u32 BK_ERR_NOT_SUPPORT)), r').
Proof. destruct early; vm_compute; by eexists. Qed.

(** Creating the task fails: initialisation reports success, and no call is ever served. *)
Lemma rpc_server_without_task : ∃ r', rpc_server_init swap1 BK_OK BK_OK BK_OK BK_OK BK_FAIL client_up = Done (BK_OK, r') ∧ svr_task r' = false ∧
  ∃ r2, rpc_exchange swap1 5 6 demo_svr true BK_OK BK_OK (demo_call 0 1) (Some (replicate 5 0)) r' = Done ((kTimeoutErr, replicate 5 0), r2).
Proof. eexists. split; [vm_compute; reflexivity|]. split; [reflexivity|]. eexists. vm_compute. reflexivity. Qed.

(** A call times out while the server works on it, and the next call is made: the late
    answer is taken for that of the second call, and the second call itself is dropped
    when the answer to the first one ends: the task finds nothing to do. *)
Definition late_call : M rpc ((Z * list Z) * (Z * list Z)) :=
  let begin v := rpc_client_call_begin swap1 5 6 BK_OK (demo_call 0 v) in
  let msg (x : Z + mailbox_data_t) := match x with inr m => m | inl _ => mk_data 0 0 0 0 end in
  let* m1 := begin 11 in
  let* a1 := arrive swap1 CPU1 (msg m1) in
  rpc_tx_cmpl_isr swap1 CPU1 a1 ;;;
  let* _ := rpc_server_listen_cmd in
  let* ans := rpc_server_handle_cmd_begin swap1 5 6 demo_svr BK_OK in
  let* first := rpc_client_call_end (demo_call 0 11) (Some (replicate 5 0)) in
  let* m2 := begin 22 in
  let* a2 := arrive swap1 CPU1 (msg m2) in
  rpc_tx_cmpl_isr swap1 CPU1 a2 ;;;
  let* a := arrive swap1 CPU0 (match ans with Some x => msg x | None => mk_data 0 0 0 0 end) in
  rpc_tx_cmpl_isr swap1 CPU0 a ;;;
  let* _ := rpc_server_rsp_end in
  let* second := rpc_client_call_end (demo_call 0 22) (Some (replicate 5 0)) in
  serve swap1 5 6 demo_svr BK_OK (λ _, ret tt) ;;;
  ret (first, second).
Lemma rpc_late_answer : ∃ r', late_call rpc_up = Done (((kTimeoutErr, replicate 5 0), (BK_OK, [0; 9; 0; 1; 11])), r') ∧
  rx_cmd_in_process (cb CPU0 (chnl r')) = false ∧ server_ind_sema r' = false ∧ ready swap1 r'.
Proof.
  eexists. split; [vm_compute; reflexivity|]. split; [reflexivity|]. split; [reflexivity|]. split; [|reflexivity]. split; [|by intros []].
  intros []; split; vm_compute; reflexivity.
Qed.
End MbRpc.
