(* ===== verification/AmpLock.v ===== *)
(** * The resource lock between the processors: middleware/driver/spinlock/amp_res_lock.c

    A lock for a resource both cores use.  The request counters are on the master
    core; every core has a binary semaphore per resource, which its own tasks take
    and which the other core posts by a request (MbIpc.v).  A call is split into
    the parts between which the other core can run: counting the request, taking
    the semaphore away when the other core has the resource, and taking or waiting
    for it; and for a release counting, telling the other core, and posting.

    The specification is a lock with an owner and two queues.  The calls, each as a
    whole, refine it; three concrete interleavings and a timeout show what the
    parts do when the other core, or a timer, comes in between. *)
From S2P Require Import Prelude Bytes Mailbox Dma AmpCnt MbIpc MbIpcOps Cores.
Import AmpCnt MbIpc MbIpcOps.
Local Open Scope Z_scope.

Module AmpLock.

(** What an acquire call comes to: a code, or the queue of the semaphore. *)
Inductive acq := Returned (r : Z) | Waiting.

Section Lock.
Context (swap_start junk2 junk3 : Z).
Implicit Types (c : cpu) (s : sys).

(** ** Requests *)
(** [w] is what writing a message returns. *)
Definition req_acquire c (w res_id : Z) : M sys (Z * amp_res_req_cnt_t) :=
  match c with
  | CPU0 =>
      let* a := gets locks in
      let r := amp_res_acquire_cnt res_id (cpu_id CPU0) a in
      modify (set_locks r.2) ;;; ret (r.1.1, default (mk_cnt 0 0) r.1.2)
  | CPU1 => ipc_send_res_acquire_cnt swap_start junk2 junk3 w res_id (cpu_id CPU1)
  end.
Definition req_release c (w res_id : Z) : M sys (Z * amp_res_req_cnt_t) :=
  match c with
  | CPU0 =>
      let* a := gets locks in
      let r := amp_res_release_cnt res_id (cpu_id CPU0) a in
      modify (set_locks r.2) ;;; ret (r.1.1, default (mk_cnt 0 0) r.1.2)
  | CPU1 => ipc_send_res_release_cnt swap_start junk2 junk3 w res_id (cpu_id CPU1)
  end.

(** The checks both calls begin with; [isr] is [rtos_is_in_interrupt_context()]. *)
Definition lock_checks {A} c (isr : bool) (res_id : Z) (k : M sys (Z + A)) : M sys (Z + A) :=
  if isr then ret (inl BK_FAIL)
  else if AMP_RES_ID_MAX <=? res_id then ret (inl BK_ERR_PARAM)
  else
    let* a := gets locks in
    match a !! Z.to_nat res_id with
    | None => trapM Fault
    | Some r => if negb (inited (get_core c r)) then ret (inl BK_ERR_NOT_INIT) else k
    end.

(** ** Acquire *)
Definition acquire_enter c (isr : bool) (w res_id : Z) : M sys (Z + bool) :=
  lock_checks c isr res_id
   (let* r := req_acquire c w res_id in
    if negb (r.1 =? BK_OK) then ret (inl r.1)
    else ret (inr ((self_req_cnt r.2 =? 0) && (0 <? others_req_cnt r.2)))).

Definition sema_op c (res_id : Z) (wait grants : bool) : M sys pend :=
  let* a := gets locks in
  let r := get_sema c res_id wait grants a in
  modify (set_locks r.2) ;;; ret r.1.

(** A semaphore without a count and no time to wait is an error. *)
Definition acquire_clear c (res_id : Z) (occupied : bool) : M sys (option Z) :=
  if occupied then
    let* p := sema_op c res_id false false in
    ret (match p with Taken => None | _ => Some kGeneralErr end)
  else ret None.
Definition acquire_take c (res_id : Z) (wait : bool) : M sys acq :=
  let* p := sema_op c res_id wait true in
  ret (match p with Taken => Returned BK_OK | Waits => Waiting | TimedOut => Returned kGeneralErr end).

Definition amp_res_lock_acquire c (isr : bool) (w res_id : Z) (wait : bool) : M sys acq :=
  let* e := acquire_enter c isr w res_id in
  match e with
  | inl r => ret (Returned r)
  | inr occupied =>
      let* f := acquire_clear c res_id occupied in
      match f with
      | Some r => ret (Returned r)
      | None => acquire_take c res_id wait
      end
  end.

(** A waiting task gives up: it leaves the queue and its call returns
    [kTimeoutErr]; nothing takes its request back. *)
Definition acquire_expires c (res_id : Z) : M sys acq :=
  modify (λ s, set_locks (upd_core c res_id (λ k, mk_core (inited k)
            (mk_sem (sem_count (res_sema k)) (pred (waiters (res_sema k)))) (held k)) (locks s)) s) ;;;
  ret (Returned kTimeoutErr).

(** ** Release *)
Definition drop_held c (res_id : Z) : M sys unit :=
  modify (λ s, set_locks (upd_core c res_id (λ k, mk_core (inited k) (res_sema k) (pred (held k))) (locks s)) s).
Definition release_enter c (isr : bool) (w res_id : Z) : M sys (Z + bool) :=
  lock_checks c isr res_id
   (let* r := req_release c w res_id in
    if negb (r.1 =? BK_OK) then ret (inl r.1)
    else drop_held c res_id ;;; ret (inr ((self_req_cnt r.2 =? 0) && (0 <? others_req_cnt r.2)))).
Definition release_tell c (w res_id : Z) (wanted : bool) : M sys (option Z) :=
  if wanted then
    let* r := ipc_send_available_ind swap_start junk2 junk3 c w res_id in
    ret (if negb (r =? BK_OK) then Some r else None)
  else ret None.
Definition release_post c (res_id : Z) : M sys Z :=
  let* a := gets locks in
  let r := set_sema c res_id a in
  modify (set_locks r.2) ;;; ret r.1.

Definition amp_res_lock_release c (isr : bool) (w res_id : Z) : M sys Z :=
  let* e := release_enter c isr w res_id in
  match e with
  | inl r => ret r
  | inr wanted =>
      let* f := release_tell c w res_id wanted in
      match f with
      | Some r => ret r
      | None => release_post c res_id
      end
  end.
End Lock.

(** ** The specification *)
Record lock := mk_lock { owner : option cpu; queue0 : nat; queue1 : nat }.
Definition queue (c : cpu) (l : lock) : nat := match c with CPU0 => queue0 l | CPU1 => queue1 l end.
Definition set_queue (c : cpu) (n : nat) (l : lock) : lock :=
  match c with CPU0 => mk_lock (owner l) n (queue1 l) | CPU1 => mk_lock (owner l) (queue0 l) n end.
Definition set_owner (o : option cpu) (l : lock) : lock := mk_lock o (queue0 l) (queue1 l).

Definition spec_acquire (c : cpu) (l : lock) : acq * lock :=
  match owner l with
  | None => (Returned BK_OK, set_owner (Some c) l)
  | Some _ => (Waiting, set_queue c (S (queue c l)) l)
  end.
(** The queue of the releasing core first, then the other's. *)
Definition spec_release (c : cpu) (l : lock) : lock :=
  match queue c l, queue (other c) l with
  | S n, _ => set_queue c n l
  | O, S n => set_owner (Some (other c)) (set_queue (other c) n l)
  | O, O => set_owner None l
  end.

Definition owns (c : cpu) (l : lock) : bool := bool_decide (owner l = Some c).
Definition requests (c : cpu) (l : lock) : Z := Z.of_nat (queue c l) + (if owns c l then 1 else 0).
(** The count of the semaphore of core [c]. *)
Definition count (c : cpu) (l : lock) : bool :=
  match owner l with None => true | Some o => if decide (o = c) then false else (queue c l =? 0)%nat end.
Definition core_of (c : cpu) (l : lock) : core :=
  mk_core true (mk_sem (count c l) (queue c l)) (if owns c l then 1 else 0)%nat.
Definition res_of (l : lock) : amp_res := mk_res (requests CPU0 l) (requests CPU1 l) (core_of CPU0 l) (core_of CPU1 l).
(** Nobody waits for a free lock, and the counters do not overflow. *)
Record lock_ok (l : lock) : Prop := {
  lo_free : owner l = None → queue0 l = 0%nat ∧ queue1 l = 0%nat;
  lo_small : requests CPU0 l < 2 ^ 16 - 1 ∧ requests CPU1 l < 2 ^ 16 - 1 }.

(** ** The parts on one resource *)
Definition small_cnts (r : amp_res) : Prop := 0 ≤ req_cnt0 r < 2 ^ 16 ∧ 0 ≤ req_cnt1 r < 2 ^ 16.

Lemma others_other c r : small_cnts r → others (req_cnt c r) r = req_cnt (other c) r.
Proof.
  intros [H0 H1]. unfold others, u16. rewrite Zplus_mod_idemp_l, Zminus_mod_idemp_l.
  destruct c; cbn [req_cnt other]; rewrite Z.mod_small; lia.
Qed.
Lemma cpu_of_id c : cpu_of (cpu_id c) = Some c.
Proof. by destruct c. Qed.

Lemma acquire_cnt_run res_id c a r : 0 ≤ res_id < AMP_RES_ID_MAX → a !! Z.to_nat res_id = Some r → inited (core0 r) = true → small_cnts r →
  amp_res_acquire_cnt res_id (cpu_id c) a =
  (BK_OK, Some (mk_cnt (req_cnt c r) (req_cnt (other c) r)), <[Z.to_nat res_id := set_req_cnt c (u16 (req_cnt c r + 1)) r]> a).
Proof.
  intros Hr Ha Hi Hs. unfold amp_res_acquire_cnt. rewrite (proj2 (Z.leb_gt _ _)) by lia. rewrite Ha, Hi. cbn [negb].
  by rewrite cpu_of_id, others_other.
Qed.
Lemma release_cnt_run res_id c a r : 0 ≤ res_id < AMP_RES_ID_MAX → a !! Z.to_nat res_id = Some r → inited (core0 r) = true → small_cnts r →
  0 < req_cnt c r →
  let r' := set_req_cnt c (req_cnt c r - 1) r in
  amp_res_release_cnt res_id (cpu_id c) a =
  (BK_OK, Some (mk_cnt (req_cnt c r - 1) (req_cnt (other c) r)), <[Z.to_nat res_id := r']> a).
Proof.
  intros Hr Ha Hi Hs Hp r'. unfold amp_res_release_cnt. rewrite (proj2 (Z.leb_gt _ _)) by lia. rewrite Ha, Hi. cbn [negb].
  rewrite cpu_of_id, (proj2 (Z.ltb_lt _ _)) by done. rewrite u16_small by (destruct Hs, c; cbn in *; lia). fold r'.
  assert (S' : small_cnts r') by (destruct Hs, c; unfold r'; split; cbn in *; lia).
  rewrite (others_other c r' S'). unfold r'. by destruct c.
Qed.
Lemma release_cnt_none res_id c a r : 0 ≤ res_id < AMP_RES_ID_MAX → a !! Z.to_nat res_id = Some r → inited (core0 r) = true →
  req_cnt c r = 0 → amp_res_release_cnt res_id (cpu_id c) a = (BK_FAIL, None, a).
Proof.
  intros Hr Ha Hi E. unfold amp_res_release_cnt. rewrite (proj2 (Z.leb_gt _ _)) by lia. rewrite Ha, Hi. cbn [negb].
  by rewrite cpu_of_id, E.
Qed.

Section Parts.
Context (swap_start junk2 junk3 : Z) (res_id : Z) (s0 : sys).
Hypothesis swap_range : 0 < swap_start.
Hypothesis res_range : 0 ≤ res_id < AMP_RES_ID_MAX.
Hypothesis res_there : (Z.to_nat res_id < length (locks s0))%nat.
Implicit Types (c : cpu) (s : sys) (r : amp_res).

(** [s] is [s0] with the resource in state [r], up to the channels. *)
Record with_res r s : Prop := {
  wr_linked : linked swap_start s;
  wr_pool : pool s = pool s0;
  wr_locks : locks s = <[Z.to_nat res_id := r]> (locks s0) }.

Lemma with_lookup r s : with_res r s → locks s !! Z.to_nat res_id = Some r.
Proof using res_there. intros [_ _ ->]. by apply list_lookup_insert_eq. Qed.
Lemma with_set r r' s : with_res r s → with_res r' (set_locks (<[Z.to_nat res_id := r']> (locks s)) s).
Proof.
  intros [[Lc Lb] P K]. split.
  - split; intros c; [rewrite cb_set_locks|rewrite buf_set_locks]; auto.
  - done.
  - change (<[Z.to_nat res_id := r']> (locks s) = <[Z.to_nat res_id := r']> (locks s0)). rewrite K. apply (list_insert_insert_eq (A := amp_res)).
Qed.
Lemma with_ipc r r' s s' : with_res r s → linked swap_start s' → pool s' = pool s →
  locks s' = <[Z.to_nat res_id := r']> (locks s) → with_res r' s'.
Proof. intros [_ P K] L' P' K'. split; [done|congruence|]. rewrite K', K. apply (list_insert_insert_eq (A := amp_res)). Qed.

Lemma req_acquire_run c r s : with_res r s → inited (core0 r) = true → small_cnts r →
  ∃ s', req_acquire swap_start junk2 junk3 c BK_OK res_id s = Done ((BK_OK, mk_cnt (req_cnt c r) (req_cnt (other c) r)), s') ∧
    with_res (set_req_cnt c (u16 (req_cnt c r + 1)) r) s'.
Proof using All.
  intros W Hi Hs. pose proof (acquire_cnt_run res_id c (locks s) r res_range (with_lookup _ _ W) Hi Hs) as E.
  destruct c; cbn [req_acquire].
  - rewrite (bind_done (gets locks) _ s (locks s) s) by done. rewrite E. eexists. split; [reflexivity|]. by apply with_set with r.
  - destruct (cnt_run swap_start junk2 junk3 swap_range amp_res_acquire_cnt IPC_RES_ACQUIRE_CNT s res_id (cpu_id CPU1))
      as (s' & n & R & En & L' & P' & K'); [by apply W|unfold AMP_RES_ID_MAX in *; lia|done|by left| | |].
    + rewrite E. cbn [fst snd]. intros _. eexists. split; [done|]. by destruct Hs.
    + by rewrite E.
    + rewrite E in R, En, K'. cbn [fst snd] in *. specialize (En eq_refl). injection En as <-. exists s'. split; [exact R|].
      by apply (with_ipc r _ s).
Qed.

Lemma req_release_run c r s : with_res r s → inited (core0 r) = true → small_cnts r → 0 < req_cnt c r →
  ∃ s', req_release swap_start junk2 junk3 c BK_OK res_id s = Done ((BK_OK, mk_cnt (req_cnt c r - 1) (req_cnt (other c) r)), s') ∧
    with_res (set_req_cnt c (req_cnt c r - 1) r) s'.
Proof using All.
  intros W Hi Hs Hp. pose proof (release_cnt_run res_id c (locks s) r res_range (with_lookup _ _ W) Hi Hs Hp) as E. cbv zeta in E.
  destruct c; cbn [req_release].
  - rewrite (bind_done (gets locks) _ s (locks s) s) by done. rewrite E. eexists. split; [reflexivity|]. by apply with_set with r.
  - destruct (cnt_run swap_start junk2 junk3 swap_range amp_res_release_cnt IPC_RES_RELEASE_CNT s res_id (cpu_id CPU1))
      as (s' & n & R & En & L' & P' & K'); [by apply W|unfold AMP_RES_ID_MAX in *; lia|done|by right| | |].
    + rewrite E. cbn [fst snd]. intros _. eexists. split; [done|]. destruct Hs. cbn in Hp. split; cbn; lia.
    + by rewrite E.
    + rewrite E in R, En, K'. cbn [fst snd] in *. specialize (En eq_refl). injection En as <-. exists s'. split; [exact R|].
      by apply (with_ipc r _ s).
Qed.
Lemma req_release_none c r s : with_res r s → inited (core0 r) = true → small_cnts r → req_cnt c r = 0 →
  ∃ s' n, req_release swap_start junk2 junk3 c BK_OK res_id s = Done ((BK_FAIL, n), s') ∧ with_res r s'.
Proof using All.
  intros W Hi Hs E0. pose proof (release_cnt_none res_id c (locks s) r res_range (with_lookup _ _ W) Hi E0) as E.
  destruct c; cbn [req_release].
  - rewrite (bind_done (gets locks) _ s (locks s) s) by done. rewrite E. eexists _, _. split; [reflexivity|]. by destruct s.
  - destruct (cnt_run swap_start junk2 junk3 swap_range amp_res_release_cnt IPC_RES_RELEASE_CNT s res_id (cpu_id CPU1))
      as (s' & n & R & En & L' & P' & K'); [by apply W|unfold AMP_RES_ID_MAX in *; lia|done|by right|by rewrite E|by rewrite E|].
    rewrite E in R, K'. cbn [fst snd] in *. exists s', n. split; [exact R|]. destruct W as [_ P K]. split; congruence.
Qed.

Lemma sema_op_run c wait grants r s : with_res r s →
  let k := get_core c r in
  let p := rtos_get_semaphore wait (res_sema k) in
  let got := match p.1 with Taken => grants | _ => false end in
  ∃ s', sema_op c res_id wait grants s = Done (p.1, s') ∧
    with_res (set_core c (mk_core (inited k) p.2 (if got then S (held k) else held k)) r) s'.
Proof using All.
  intros W k p got. unfold sema_op. rewrite (bind_done (gets locks) _ s (locks s) s) by done.
  unfold get_sema. rewrite (with_lookup _ _ W). fold k p got. eexists. split; [reflexivity|]. by apply with_set with r.
Qed.

Definition posted c r : amp_res :=
  let k := get_core c r in
  let p := rtos_set_semaphore (res_sema k) in
  set_core c (mk_core (inited k) p.2 (if p.1.2 then S (held k) else held k)) r.
Lemma release_post_run c r s : with_res r s →
  ∃ s', release_post c res_id s = Done ((rtos_set_semaphore (res_sema (get_core c r))).1.1, s') ∧ with_res (posted c r) s'.
Proof using All.
  intros W. unfold release_post. rewrite (bind_done (gets locks) _ s (locks s) s) by done.
  unfold set_sema. rewrite (with_lookup _ _ W). eexists. split; [reflexivity|]. by apply with_set with r.
Qed.
Lemma release_tell_run c r s : with_res r s → inited (get_core (other c) r) = true →
  let rc := (rtos_set_semaphore (res_sema (get_core (other c) r))).1.1 in
  ∃ s', release_tell swap_start junk2 junk3 c BK_OK res_id true s = Done (if rc =? BK_OK then None else Some BK_FAIL, s') ∧
    with_res (posted (other c) r) s'.
Proof using All.
  intros W Hi rc. destruct (ipc_available_run swap_start junk2 junk3 swap_range c s res_id) as (s' & E & L' & P' & K');
    [by apply W|unfold AMP_RES_ID_MAX in *; lia|]. unfold amp_res_available in E, K'.
  rewrite (proj2 (Z.leb_gt _ _)) in E, K' by lia. rewrite (with_lookup _ _ W), Hi in E, K'. cbn [negb] in E, K'.
  unfold set_sema in E, K'. rewrite (with_lookup _ _ W) in E, K'. cbn [fst snd] in E, K'. fold rc in E.
  exists s'. split; [|by apply (with_ipc r _ s)]. unfold release_tell. rewrite (bind_done _ _ _ _ _ E). by destruct (rc =? BK_OK).
Qed.
End Parts.

(** ** The calls against the specification *)
Lemma requests_pos c l : 0 ≤ requests c l.
Proof. unfold requests. destruct (owns c l); lia. Qed.
Lemma res_of_small l : lock_ok l → small_cnts (res_of l).
Proof. intros [_ [? ?]]. pose proof (requests_pos CPU0 l). pose proof (requests_pos CPU1 l). split; cbn; lia. Qed.
Lemma res_of_inited c l : inited (get_core c (res_of l)) = true.
Proof. by destruct c. Qed.

(** Equality of two states of a resource. *)
Ltac same_res := unfold posted, res_of, core_of, requests, owns, count, spec_release; cbn -[Z.of_nat Z.add Z.sub];
  repeat match goal with
  | |- context [bool_decide ?P] => let v := eval vm_compute in (bool_decide P) in change (bool_decide P) with v
  | |- context [decide (?x = ?y)] => destruct (decide (x = y)); try done
  end; cbn -[Z.of_nat Z.add Z.sub]; repeat (f_equal; try lia).

Section Calls.
Context (swap_start junk2 junk3 : Z) (res_id : Z) (s0 : sys).
Hypothesis swap_range : 0 < swap_start.
Hypothesis res_range : 0 ≤ res_id < AMP_RES_ID_MAX.
Hypothesis res_there : (Z.to_nat res_id < length (locks s0))%nat.
Implicit Types (c : cpu) (s : sys) (l : lock).
Local Abbreviation holds := (with_res swap_start res_id s0).

Lemma lock_checks_run {A} c l s (k : M sys (Z + A)) : holds (res_of l) s → lock_checks c false res_id k s = k s.
Proof using All.
  intros W. unfold lock_checks. rewrite (proj2 (Z.leb_gt _ _)) by lia.
  rewrite (bind_done (gets locks) _ s (locks s) s), (with_lookup _ _ _ res_there _ _ W) by done. by rewrite res_of_inited.
Qed.

(** Taking the semaphore, with and without the part before it. *)
Lemma take_run c r s : holds r s → let k := get_core c r in
  ∃ s', acquire_take c res_id true s =
      Done ((if sem_count (res_sema k) then Returned BK_OK else Waiting), s') ∧
    holds (set_core c (if sem_count (res_sema k) then mk_core (inited k) (mk_sem false (waiters (res_sema k))) (S (held k))
                       else mk_core (inited k) (mk_sem false (S (waiters (res_sema k)))) (held k)) r) s'.
Proof using All.
  intros W k. destruct (sema_op_run swap_start junk2 junk3 res_id s0 swap_range res_range res_there c true true r s W) as (s' & E & W').
  fold k in E, W'. exists s'. unfold acquire_take. rewrite (bind_done _ _ _ _ _ E). revert W'. unfold rtos_get_semaphore.
  by destruct (sem_count (res_sema k)).
Qed.
Lemma clear_take_run c r s : holds r s → let k := get_core c r in sem_count (res_sema k) = true →
  ∃ s1, acquire_clear c res_id true s = Done (None, s1) ∧
    holds (set_core c (mk_core (inited k) (mk_sem false (waiters (res_sema k))) (held k)) r) s1.
Proof using All.
  intros W k Hk. destruct (sema_op_run swap_start junk2 junk3 res_id s0 swap_range res_range res_there c false false r s W) as (s' & E & W').
  fold k in E, W'. unfold rtos_get_semaphore in E, W'. rewrite Hk in E, W'. exists s'. split; [|exact W'].
  unfold acquire_clear. by rewrite (bind_done _ _ _ _ _ E).
Qed.

Lemma req_of c l : req_cnt c (res_of l) = requests c l.
Proof. by destruct c. Qed.

(** When the resource looks occupied, it is the other core's and nobody here waits. *)
Lemma occupied_cases c l : lock_ok l →
  let b := (req_cnt c (res_of l) =? 0) && (0 <? req_cnt (other c) (res_of l)) in
  (owner l = Some (other c) ∧ queue c l = 0%nat ∧ b = true) ∨
  ((∀ o, owner l = Some o → count c l = false) ∧ b = false).
Proof.
  intros Ok b. unfold b. rewrite !req_of. unfold requests, owns, count. pose proof (lo_free l Ok) as F.
  destruct (owner l) as [o|]; [destruct (decide (o = c)) as [->|N]|].
  - right. split; [done|]. rewrite (bool_decide_true (Some c = Some c)) by done.
    by rewrite (proj2 (Z.eqb_neq _ _)) by lia.
  - assert (o = other c) as -> by (by destruct o, c). rewrite bool_decide_false by congruence.
    rewrite (bool_decide_true (Some (other c) = _)) by done. destruct (queue c l) as [|n]; [left|right].
    + split_and!; [done|done|]. rewrite (proj2 (Z.ltb_lt _ _)) by lia. done.
    + split; [done|]. rewrite (proj2 (Z.eqb_neq _ _)) by lia. done.
  - right. split; [done|]. destruct (F eq_refl) as [E0 E1]. destruct c; cbn [queue other]; rewrite E0, E1; by rewrite !bool_decide_false by done.
Qed.

Lemma acquire_sim c l s : holds (res_of l) s → lock_ok l → requests c l + 1 < 2 ^ 16 - 1 →
  ∃ s', amp_res_lock_acquire swap_start junk2 junk3 c false BK_OK res_id true s = Done ((spec_acquire c l).1, s') ∧
    holds (res_of (spec_acquire c l).2) s'.
Proof using All.
  intros W Ok Hq. destruct (req_acquire_run swap_start junk2 junk3 res_id s0 swap_range res_range res_there c _ s W eq_refl (res_of_small l Ok))
    as (s1 & E1 & W1). unfold amp_res_lock_acquire, acquire_enter.
  erewrite bind_done; [|rewrite (lock_checks_run c l s _ W), (bind_done _ _ _ _ _ E1); reflexivity].
  cbv beta iota. cbn [fst snd self_req_cnt others_req_cnt].
  rewrite u16_small in W1 by (pose proof (res_of_small l Ok) as [? ?]; destruct c; cbn -[Z.of_nat Z.add Z.sub Z.pow] in *; lia).
  destruct (occupied_cases c l Ok) as [(Eo & Eq & ->)|(En & ->)].
  - destruct (clear_take_run c _ s1 W1) as (s2 & E2 & W2); [by destruct l as [? ? ?], c; cbn in *; subst|].
    rewrite (bind_done _ _ _ _ _ E2). destruct (take_run c _ s2 W2) as (s3 & E3 & W3). exists s3.
    destruct l as [o q0 q1]. cbn [owner] in Eo. subst o. split; [rewrite E3; by destruct c|]. revert W3.
    destruct c; cbn [queue queue0 queue1] in Eq; subst; match goal with |- holds ?a _ → holds ?b _ => replace b with a; [done|] end; same_res.
  - unfold acquire_clear. rewrite (bind_done (ret None) _ s1 None s1) by done. destruct (take_run c _ s1 W1) as (s3 & E3 & W3). exists s3.
    assert (Ec : sem_count (res_sema (get_core c (set_req_cnt c (req_cnt c (res_of l) + 1) (res_of l)))) = count c l) by (by destruct c).
    rewrite Ec in E3, W3. destruct l as [[o|] q0 q1].
    + rewrite (En o eq_refl) in E3, W3. split; [exact E3|]. revert W3.
      specialize (En o eq_refl). unfold count in En. cbn [owner queue queue0 queue1] in En.
      match goal with |- holds ?a _ → holds ?b _ => replace b with a; [done|] end.
      destruct c, o; cbn [decide queue queue0 queue1] in En; same_res.
    + split; [exact E3|]. revert W3. destruct (lo_free _ Ok eq_refl) as [E0 E0']. cbn in E0, E0'. subst.
      match goal with |- holds ?a _ → holds ?b _ => replace b with a; [done|] end. by destruct c.
Qed.

Lemma drop_held_run c r s : holds r s →
  let k := get_core c r in
  ∃ s', drop_held c res_id s = Done (tt, s') ∧ holds (set_core c (mk_core (inited k) (res_sema k) (pred (held k))) r) s'.
Proof using All.
  intros W k. eexists. split; [reflexivity|]. unfold upd_core. rewrite (with_lookup _ _ _ res_there _ _ W).
  by apply with_set with r.
Qed.

Lemma release_sim c l s : holds (res_of l) s → lock_ok l → owner l = Some c →
  ∃ s', amp_res_lock_release swap_start junk2 junk3 c false BK_OK res_id s = Done (BK_OK, s') ∧ holds (res_of (spec_release c l)) s'.
Proof using All.
  intros W Ok Eo. assert (Er : requests c l = Z.of_nat (queue c l) + 1) by (unfold requests, owns; by rewrite bool_decide_true).
  assert (Eq' : requests (other c) l = Z.of_nat (queue (other c) l)).
  { unfold requests, owns. rewrite bool_decide_false; [lia|]. rewrite Eo. by destruct c. }
  destruct (req_release_run swap_start junk2 junk3 res_id s0 swap_range res_range res_there c _ s W eq_refl (res_of_small l Ok)) as (s1 & E1 & W1);
    [rewrite req_of; lia|]. rewrite (req_of c), (req_of (other c)), Er, Eq' in E1. rewrite (req_of c), Er in W1.
  destruct (drop_held_run c _ s1 W1) as (s2 & E2 & W2). unfold amp_res_lock_release, release_enter.
  erewrite bind_done; [|rewrite (lock_checks_run c l s _ W), (bind_done _ _ _ _ _ E1); exact (bind_done _ _ _ _ _ E2)].
  cbv beta iota. cbn [fst snd self_req_cnt others_req_cnt].
  destruct l as [o q0 q1]. cbn [owner] in Eo. subst o.
  destruct ((Z.of_nat (queue c (mk_lock (Some c) q0 q1)) + 1 - 1 =? 0) && (0 <? Z.of_nat (queue (other c) (mk_lock (Some c) q0 q1)))) eqn:B; zb.
  - destruct (release_tell_run swap_start junk2 junk3 res_id s0 swap_range res_range res_there c _ s2 W2) as (s3 & E3 & W3); [by destruct c|].
    assert (∃ n, c = CPU0 ∧ q0 = 0%nat ∧ q1 = S n ∨ c = CPU1 ∧ q1 = 0%nat ∧ q0 = S n) as [n [(-> & -> & ->)|(-> & -> & ->)]].
    { exists (pred (queue (other c) (mk_lock (Some c) q0 q1))). destruct c; cbn -[Z.of_nat] in *; [left|right]; split_and!; lia || done. }
    all: rewrite (bind_done _ _ _ _ _ E3); cbn [rtos_set_semaphore].
    + destruct (release_post_run swap_start junk2 junk3 res_id s0 swap_range res_range res_there CPU0 _ s3 W3) as (s4 & E4 & W4).
      exists s4. split; [exact E4|]. revert W4. match goal with |- holds ?a _ → holds ?b _ => replace b with a; [done|] end. same_res.
    + destruct (release_post_run swap_start junk2 junk3 res_id s0 swap_range res_range res_there CPU1 _ s3 W3) as (s4 & E4 & W4).
      exists s4. split; [exact E4|]. revert W4. match goal with |- holds ?a _ → holds ?b _ => replace b with a; [done|] end. same_res.
  - unfold release_tell. rewrite (bind_done (ret None) _ s2 None s2) by done.
    destruct (release_post_run swap_start junk2 junk3 res_id s0 swap_range res_range res_there c _ s2 W2) as (s4 & E4 & W4).
    exists s4. split; [rewrite E4; destruct c, q0, q1; done|]. revert W4.
    match goal with |- holds ?a _ → holds ?b _ => replace b with a; [done|] end.
    destruct c, q0 as [|q0], q1 as [|q1]; cbn -[Z.of_nat Z.add] in B; try lia; same_res.
Qed.

Lemma release_none c l s : holds (res_of l) s → lock_ok l → requests c l = 0 →
  ∃ s', amp_res_lock_release swap_start junk2 junk3 c false BK_OK res_id s = Done (BK_FAIL, s') ∧ holds (res_of l) s'.
Proof using All.
  intros W Ok E0. destruct (req_release_none swap_start junk2 junk3 res_id s0 swap_range res_range res_there c _ s W eq_refl (res_of_small l Ok))
    as (s1 & n & E1 & W1); [by rewrite req_of|]. exists s1. split; [|done]. unfold amp_res_lock_release, release_enter.
  erewrite bind_done; [|rewrite (lock_checks_run c l s _ W), (bind_done _ _ _ _ _ E1); reflexivity]. done.
Qed.
End Calls.

Lemma spec_acquire_ok c l : lock_ok l → requests c l + 1 < 2 ^ 16 - 1 → lock_ok (spec_acquire c l).2.
Proof.
  intros [F [S0 S1]] Hq. destruct l as [[o|] q0 q1]; unfold spec_acquire, requests, owns in *; cbn -[Z.of_nat Z.add Z.sub Z.pow] in *.
  - split; cbn -[Z.of_nat Z.add Z.sub Z.pow]; [by destruct c|]. destruct c, o; cbn -[Z.of_nat Z.add Z.sub Z.pow] in *; unfold requests, owns; cbn -[Z.of_nat Z.add Z.sub Z.pow]; lia.
  - destruct (F eq_refl) as [-> ->]. split; [done|]. by destruct c.
Qed.

Lemma spec_release_ok c l : lock_ok l → owner l = Some c → lock_ok (spec_release c l).
Proof.
  intros [_ [S0 S1]] E. destruct l as [o q0 q1]. cbn [owner] in E. subst o. unfold spec_release, requests, owns in *.
  destruct c, q0 as [|q0], q1 as [|q1]; split; cbn -[Z.of_nat Z.add Z.pow] in *; try done; unfold requests, owns; cbn -[Z.of_nat Z.add Z.pow];
    repeat match goal with
    | |- context [bool_decide ?P] => let v := eval vm_compute in (bool_decide P) in change (bool_decide P) with v
    | H : context [bool_decide ?P] |- _ => let v := eval vm_compute in (bool_decide P) in change (bool_decide P) with v in H
    end; lia.
Qed.

(** ** Sequences of calls *)
Inductive lock_op := Acq (c : cpu) | Rel (c : cpu).
(** A release by a core that has requests but not the lock is not specified, nor
    more requests than the counters hold. *)
Definition spec_step (o : lock_op) (l : lock) : option (acq * lock) :=
  match o with
  | Acq c => if requests c l + 1 <? 2 ^ 16 - 1 then Some (spec_acquire c l) else None
  | Rel c => if owns c l then Some (Returned BK_OK, spec_release c l)
             else if requests c l =? 0 then Some (Returned BK_FAIL, l) else None
  end.
Fixpoint spec_run (ops : list lock_op) (l : lock) : option (list acq * lock) :=
  match ops with
  | [] => Some ([], l)
  | o :: ops' =>
      match spec_step o l with
      | None => None
      | Some (r, l1) => match spec_run ops' l1 with Some (rs, l2) => Some (r :: rs, l2) | None => None end
      end
  end.

Section Runs.
Context (swap_start junk2 junk3 : Z) (res_id : Z).
Hypothesis swap_range : 0 < swap_start.
Hypothesis res_range : 0 ≤ res_id < AMP_RES_ID_MAX.

Definition run_op (o : lock_op) : M sys acq :=
  match o with
  | Acq c => amp_res_lock_acquire swap_start junk2 junk3 c false BK_OK res_id true
  | Rel c => let* r := amp_res_lock_release swap_start junk2 junk3 c false BK_OK res_id in ret (Returned r)
  end.
Fixpoint run_ops (ops : list lock_op) : M sys (list acq) :=
  match ops with
  | [] => ret []
  | o :: ops' => let* r := run_op o in let* rs := run_ops ops' in ret (r :: rs)
  end.

Lemma runs_ok s0 ops s l rs l' : (Z.to_nat res_id < length (locks s0))%nat → with_res swap_start res_id s0 (res_of l) s → lock_ok l →
  spec_run ops l = Some (rs, l') →
  ∃ s', run_ops ops s = Done (rs, s') ∧ with_res swap_start res_id s0 (res_of l') s' ∧ lock_ok l'.
Proof using All.
  intros Th. revert s l rs. induction ops as [|o ops IH]; intros s l rs W Ok R; cbn [spec_run run_ops] in *.
  { injection R as <- <-. by exists s. }
  destruct (spec_step o l) as [[r l1]|] eqn:St; [|done]. destruct (spec_run ops l1) as [[rs1 l2]|] eqn:Sr; [|done]. injection R as <- <-.
  assert (∃ s1, run_op o s = Done (r, s1) ∧ with_res swap_start res_id s0 (res_of l1) s1 ∧ lock_ok l1) as (s1 & E & W1 & Ok1).
  { destruct o as [c|c]; cbn [spec_step run_op] in *.
    - destruct (Z.ltb_spec (requests c l + 1) (2 ^ 16 - 1)) as [Hq|]; [|done]. injection St as St.
      destruct (acquire_sim swap_start junk2 junk3 res_id s0 swap_range res_range Th c l s W Ok Hq) as (s1 & E & W1).
      pose proof (spec_acquire_ok c l Ok Hq) as Ok1. rewrite St in E, W1, Ok1. by exists s1.
    - destruct (owns c l) eqn:Ow; [|destruct (Z.eqb_spec (requests c l) 0) as [E0|]; [|done]]; injection St as <- <-.
      + unfold owns in Ow. apply bool_decide_eq_true in Ow.
        destruct (release_sim swap_start junk2 junk3 res_id s0 swap_range res_range Th c l s W Ok Ow) as (s1 & E & W1).
        rewrite (bind_done _ _ _ _ _ E). exists s1. split_and!; [done|done|by apply spec_release_ok].
      + destruct (release_none swap_start junk2 junk3 res_id s0 swap_range res_range Th c l s W Ok E0) as (s1 & E & W1).
        rewrite (bind_done _ _ _ _ _ E). by exists s1. }
  rewrite (bind_done _ _ _ _ _ E). destruct (IH s1 l1 rs1 W1 Ok1 Sr) as (s2 & E2 & W2). rewrite (bind_done _ _ _ _ _ E2).
  by exists s2.
Qed.

(** The lock on resource [res_id] is in state [l]. *)
Record locked_as s l : Prop := {
  la_linked : linked swap_start s;
  la_res : locks s !! Z.to_nat res_id = Some (res_of l);
  la_ok : lock_ok l }.
Lemma locked_with s l : locked_as s l → with_res swap_start res_id s (res_of l) s ∧ (Z.to_nat res_id < length (locks s))%nat.
Proof. intros [L R _]. split; [|by eapply lookup_lt_Some]. split; [done|done|]. symmetry. by apply (list_insert_id (A := amp_res)). Qed.
Lemma with_locked s0 s l : (Z.to_nat res_id < length (locks s0))%nat → with_res swap_start res_id s0 (res_of l) s → lock_ok l → locked_as s l.
Proof. intros Th W Ok. split; [apply W|by apply (with_lookup swap_start res_id s0)|done]. Qed.


(** Releases by whoever has the lock. *)
Fixpoint releases (n : nat) (l : lock) : list lock_op :=
  match n, owner l with
  | S n', Some c => Rel c :: releases n' (spec_release c l)
  | _, _ => []
  end.
Lemma releases_run n l : n = S (queue0 l + queue1 l) → is_Some (owner l) →
  spec_run (releases n l) l = Some (replicate n (Returned BK_OK), mk_lock None 0 0).
Proof.
  revert l. induction n as [|n IH]; intros l E [c Ec]; [lia|]. cbn [releases]. rewrite Ec. cbn [spec_run spec_step].
  unfold owns. rewrite bool_decide_true by done. destruct n as [|n].
  - assert (l = mk_lock (Some c) 0 0) as -> by (destruct l as [? [|?] [|?]]; cbn in *; by simplify_eq || lia). by destruct c.
  - rewrite IH; [done| |]; unfold spec_release; destruct l as [o q0 q1]; cbn in Ec; subst o; destruct c, q0, q1; cbn in *; eauto; lia.
Qed.

(** Nobody waits forever: when the resource is taken, one release by each holder
    in turn, as many as there are requests, succeeds, passes the resource to a
    waiting task every time and leaves it free with nobody waiting. *)
Theorem amp_lock_drains s l c : locked_as s l → owner l = Some c →
  let n := S (queue0 l + queue1 l) in
  ∃ s', run_ops (releases n l) s = Done (replicate n (Returned BK_OK), s') ∧ locked_as s' (mk_lock None 0 0).
Proof using All.
  intros La Ec n. destruct (locked_with s l La) as [W Th].
  destruct (runs_ok s (releases n l) s l _ _ Th W (la_ok _ _ La) (releases_run n l eq_refl ltac:(eauto))) as (s' & E & W' & Ok').
  exists s'. split; [exact E|by apply (with_locked s)].
Qed.
End Runs.

(** Initialisation on both cores, in either order, gives a free lock. *)
Lemma init_free c res_id a r : 0 ≤ res_id < AMP_RES_ID_MAX → a !! Z.to_nat res_id = Some r →
  inited (core0 r) = false → inited (core1 r) = false →
  let a1 := amp_res_lock_init c BK_OK res_id a in
  let a2 := amp_res_lock_init (other c) BK_OK res_id a1.2 in
  a1.1 = BK_OK ∧ a2.1 = BK_OK ∧ a2.2 = <[Z.to_nat res_id := res_of (mk_lock None 0 0)]> a.
Proof.
  intros Hr Ha H0 H1 a1 a2. pose proof (lookup_lt_Some _ _ _ Ha) as Hl.
  assert (E1 : a1 = (BK_OK, <[Z.to_nat res_id := set_core c (mk_core true (mk_sem true 0) 0)
      (match c with CPU0 => set_req_cnt CPU1 0 (set_req_cnt CPU0 0 r) | CPU1 => r end)]> a)).
  { unfold a1, amp_res_lock_init. rewrite (proj2 (Z.leb_gt _ _)), Ha by lia. destruct c; cbn [get_core]; by rewrite ?H0, ?H1. }
  unfold a2. rewrite E1. cbn [fst snd]. unfold amp_res_lock_init. rewrite (proj2 (Z.leb_gt _ _)) by lia.
  rewrite (list_lookup_insert_eq (A := amp_res)) by done. destruct c; cbn [get_core other core0 core1 set_core set_req_cnt inited]; rewrite ?H0, ?H1; cbn [negb fst snd].
  - split_and!; [done|done|]. apply (list_insert_insert_eq (A := amp_res)).
  - split_and!; [done|done|]. apply (list_insert_insert_eq (A := amp_res)).
Qed.

(** ** Concrete runs *)
Definition lock_up : sys :=
  set_locks (amp_res_lock_init CPU1 BK_OK 1 (amp_res_lock_init CPU0 BK_OK 1 (locks Cores.both_up)).2).2 Cores.both_up.
Lemma lock_up_free : locked_as Cores.swap0 1 lock_up (mk_lock None 0 0).
Proof.
  split; [|vm_compute; reflexivity|split; [done|split; vm_compute; reflexivity]].
  destruct Cores.both_up_linked as [Lc Lb]. unfold lock_up. split; intros c; [rewrite cb_set_locks|rewrite buf_set_locks]; auto.
Qed.
Abbreviation exec := (run_ops Cores.swap0 5 6 1).
Definition demo_ops : list lock_op := [Acq CPU1; Acq CPU0; Acq CPU1; Rel CPU1; Rel CPU1; Rel CPU0; Rel CPU0; Acq CPU0].


Definition crowded : sys := Cores.after_run (exec [Acq CPU1; Acq CPU0; Acq CPU1; Acq CPU0]) lock_up.
Lemma crowded_locked : locked_as Cores.swap0 1 crowded (mk_lock (Some CPU1) 2 1).
Proof.
  split; [|vm_compute; reflexivity|split; [done|split; vm_compute; reflexivity]].
  split; intros []; try split; vm_compute; done.
Qed.
Lemma amp_lock_drains_witness :
  ∃ s', exec [Rel CPU1; Rel CPU1; Rel CPU0; Rel CPU0] crowded = Done (replicate 4 (Returned BK_OK), s') ∧
    locked_as Cores.swap0 1 s' (mk_lock None 0 0).
Proof.
  exact (amp_lock_drains Cores.swap0 5 6 1 ltac:(done) ltac:(unfold AMP_RES_ID_MAX; lia) crowded (mk_lock (Some CPU1) 2 1) CPU1 crowded_locked eq_refl).
Defined.

(** ** Interleavings *)
Definition res1 (s : sys) : amp_res := nth 1 (locks s) (mk_res 0 0 (mk_core false (mk_sem false 0) 0) (mk_core false (mk_sem false 0) 0)).
Definition enter c := acquire_enter Cores.swap0 5 6 c false BK_OK 1.
Definition acquire c := amp_res_lock_acquire Cores.swap0 5 6 c false BK_OK 1 true.
Definition release c := amp_res_lock_release Cores.swap0 5 6 c false BK_OK 1.

(** The master has counted its request and is interrupted by the slave's release:
    the indication finds the master's semaphore full, so the release fails and does
    not post the slave's own semaphore.  The master then takes its semaphore away
    and waits: nobody has the resource, both semaphores are empty, and the slave's
    next call fails. *)
Theorem release_in_between :
  match (acquire CPU1 ;;; let* e := enter CPU0 in let* rel := release CPU1 in
         let* f := acquire_clear CPU0 1 true in let* k := acquire_take CPU0 1 true in
         let* again := acquire CPU1 in ret (e, rel, f, k, again)) lock_up with
  | Done (r, s) =>
      r = (inr true, BK_FAIL, None, Waiting, Returned kGeneralErr) ∧
      res1 s = mk_res 1 1 (mk_core true (mk_sem false 1) 0) (mk_core true (mk_sem false 0) 0)
  | Trap _ => False
  end.
Proof. vm_compute. auto. Qed.

(** The slave has the resource; a task of the master has counted its request when
    another task of the master acquires: that one sees a request of its own core,
    leaves the semaphore alone and takes it.  Both cores have the resource. *)
Theorem acquire_in_between :
  match (acquire CPU1 ;;; let* e := enter CPU0 in let* k := acquire CPU0 in ret (e, k)) lock_up with
  | Done (r, s) => r = (inr true, Returned BK_OK) ∧ held (core0 (res1 s)) = 1%nat ∧ held (core1 (res1 s)) = 1%nat
  | Trap _ => False
  end.
Proof. vm_compute. auto. Qed.

(** A wait that times out leaves its request counted: after the slave's release
    nobody has or waits for the resource, and yet the slave's next acquire waits,
    and still does when the master has acquired and released it. *)
Theorem timeout_leaves_request :
  match (acquire CPU1 ;;; acquire CPU0 ;;; acquire_expires CPU0 1 ;;; let* r1 := release CPU1 in let* k := acquire CPU1 in
         let* k0 := acquire CPU0 in let* r0 := release CPU0 in ret (r1, k, k0, r0)) lock_up with
  | Done (r, s) =>
      r = (BK_OK, Waiting, Returned BK_OK, BK_OK) ∧
      held (core0 (res1 s)) = 0%nat ∧ held (core1 (res1 s)) = 0%nat ∧ waiters (res_sema (core1 (res1 s))) = 1%nat
  | Trap _ => False
  end.
Proof. vm_compute. auto. Qed.
End AmpLock.
