(* ===== verification/Dhcpd.v ===== *)
(** * DHCP server of the soft access point: lwip_intf_v2_1/dhcpd

    The server keeps a cache of at most eight leases (MAC address, IP address),
    answers DISCOVER with an offer and REQUEST with an acknowledgement or a
    refusal, and refuses every DNS query.

    Modelled: dhcp-server.c and dhcp-server-main.c, on the one message buffer
    in which requests are parsed and responses are built, with the byte offsets
    of [struct bootp_header].  Addresses are kept in network order in
    little-endian words as in the code, so that [ntohl] is a byte swap.  The
    results of the socket, timer, memory and network-interface calls are
    parameters; what the server sends and the ARP entries it sets are a trace.
    A read outside the message buffer faults.  The mutex (held by the server
    thread for its whole life) and the log output are left out.

    Proved here: byte order and subnet arithmetic, the search for a free
    address, and the invariant of the whole server over every sequence of
    rounds.  The answers to well-formed messages are in DhcpdTalk. *)
From S2P Require Import Prelude Bytes.
Local Open Scope Z_scope.

Module Dhcpd.

(** ** Byte order *)
Definition not32 (x : Z) : Z := Z.lxor x (Z.ones 32).
Definition ntohl (x : Z) : Z :=
  Z.lor (Z.lor (Z.shiftl (Z.land x 0xff) 24) (Z.shiftl (Z.land x 0xff00) 8))
        (Z.lor (Z.shiftr (Z.land x 0xff0000) 8) (Z.shiftr (Z.land x 0xff000000) 24)).
Definition htonl (x : Z) : Z := ntohl x.
Definition htons (x : Z) : Z := Z.lor (Z.shiftl (Z.land x 0xff) 8) (Z.land (Z.shiftr x 8) 0xff).

(** ** Constants of dhcp-priv.h and dhcp-bootp.h *)
Definition SERVER_BUFFER_SIZE : nat := 1024.
Definition MAC_IP_CACHE_SIZE : nat := 8.
Definition CLIENT_IP_NOT_FOUND : Z := 0.
Definition DEFAULT_DHCP_ADDRESS_TIMEOUT : Z := 60 * 60 * 1.
Definition BOOTP_OP_REQUEST : Z := 1.
Definition BOOTP_OP_RESPONSE : Z := 2.
Definition BOOTP_OPTION_SUBNET_MASK : Z := 1.
Definition BOOTP_OPTION_ROUTER : Z := 3.
Definition BOOTP_OPTION_NAMESERVER : Z := 6.
Definition BOOTP_OPTION_REQUESTED_IP : Z := 50.
Definition BOOTP_OPTION_ADDRESS_TIME : Z := 51.
Definition BOOTP_OPTION_DHCP_MESSAGE : Z := 53.
Definition BOOTP_OPTION_DHCP_SERVER_ID : Z := 54.
Definition BOOTP_END_OPTION : Z := 0xFF.
Definition DHCP_MESSAGE_DISCOVER : Z := 1.
Definition DHCP_MESSAGE_OFFER : Z := 2.
Definition DHCP_MESSAGE_REQUEST : Z := 3.
Definition DHCP_MESSAGE_ACK : Z := 5.
Definition DHCP_MESSAGE_NAK : Z := 6.
Definition DHCP_NO_RESPONSE : Z := 255.
Definition EINVAL : Z := 22.
(** Offsets of [struct bootp_header] and its size. *)
Definition off_flags : nat := 10.
Definition off_ciaddr : nat := 12.
Definition off_yiaddr : nat := 16.
Definition off_siaddr : nat := 20.
Definition off_riaddr : nat := 24.
Definition off_chaddr : nat := 28.
Definition sizeof_bootp_header : nat := 240.
Definition sizeof_dns_header : nat := 12.

(** ** State *)
Record client_mac_cache := mk_entry { client_mac : list Z; lease_ip : Z }.
#[export] Instance client_mac_cache_eq : EqDecision client_mac_cache.
Proof. solve_decision. Defined.

Inductive event :=
| SetDefaultNetif
| SendTo (sock dst : Z) (payload : list Z)
| ArpAdd (ip : Z) (mac : list Z)
| ArpRemove (ip : Z)
| GratuitousArp (ip : Z)
| Close (sock : Z).

Record dhcp_server_data := mk_dhcps {
  sock : Z; dnssock : Z; ctrlsock : Z;
  count_clients : nat;
  msg : option (list Z);
  uaddr : Z; baddr : Z;
  ip_mac_mapping : list client_mac_cache;
  netmask : Z; my_ip : Z; client_ip : Z; current_ip : Z; router_ip : Z;
  dhcp_address_timeout : Z;
  dhcp_nack_dns_server_handler : bool;
  dhcpd_running : bool;
  nsend : nat;
  trace : list event }.

Definition set_socks a b c s := mk_dhcps a b c (count_clients s) (msg s) (uaddr s) (baddr s) (ip_mac_mapping s) (netmask s) (my_ip s) (client_ip s) (current_ip s) (router_ip s) (dhcp_address_timeout s) (dhcp_nack_dns_server_handler s) (dhcpd_running s) (nsend s) (trace s).
Definition set_cache n l s := mk_dhcps (sock s) (dnssock s) (ctrlsock s) n (msg s) (uaddr s) (baddr s) l (netmask s) (my_ip s) (client_ip s) (current_ip s) (router_ip s) (dhcp_address_timeout s) (dhcp_nack_dns_server_handler s) (dhcpd_running s) (nsend s) (trace s).
Definition set_msg m s := mk_dhcps (sock s) (dnssock s) (ctrlsock s) (count_clients s) m (uaddr s) (baddr s) (ip_mac_mapping s) (netmask s) (my_ip s) (client_ip s) (current_ip s) (router_ip s) (dhcp_address_timeout s) (dhcp_nack_dns_server_handler s) (dhcpd_running s) (nsend s) (trace s).
Definition set_uaddr a s := mk_dhcps (sock s) (dnssock s) (ctrlsock s) (count_clients s) (msg s) a (baddr s) (ip_mac_mapping s) (netmask s) (my_ip s) (client_ip s) (current_ip s) (router_ip s) (dhcp_address_timeout s) (dhcp_nack_dns_server_handler s) (dhcpd_running s) (nsend s) (trace s).
Definition set_net nm ip gw cur s := mk_dhcps (sock s) (dnssock s) (ctrlsock s) (count_clients s) (msg s) (uaddr s) (baddr s) (ip_mac_mapping s) nm ip (client_ip s) cur gw (dhcp_address_timeout s) (dhcp_nack_dns_server_handler s) (dhcpd_running s) (nsend s) (trace s).
Definition set_client_ip a s := mk_dhcps (sock s) (dnssock s) (ctrlsock s) (count_clients s) (msg s) (uaddr s) (baddr s) (ip_mac_mapping s) (netmask s) (my_ip s) a (current_ip s) (router_ip s) (dhcp_address_timeout s) (dhcp_nack_dns_server_handler s) (dhcpd_running s) (nsend s) (trace s).
Definition set_current_ip a s := mk_dhcps (sock s) (dnssock s) (ctrlsock s) (count_clients s) (msg s) (uaddr s) (baddr s) (ip_mac_mapping s) (netmask s) (my_ip s) (client_ip s) a (router_ip s) (dhcp_address_timeout s) (dhcp_nack_dns_server_handler s) (dhcpd_running s) (nsend s) (trace s).
Definition set_timeout a s := mk_dhcps (sock s) (dnssock s) (ctrlsock s) (count_clients s) (msg s) (uaddr s) (baddr s) (ip_mac_mapping s) (netmask s) (my_ip s) (client_ip s) (current_ip s) (router_ip s) a (dhcp_nack_dns_server_handler s) (dhcpd_running s) (nsend s) (trace s).
Definition set_handler b s := mk_dhcps (sock s) (dnssock s) (ctrlsock s) (count_clients s) (msg s) (uaddr s) (baddr s) (ip_mac_mapping s) (netmask s) (my_ip s) (client_ip s) (current_ip s) (router_ip s) (dhcp_address_timeout s) b (dhcpd_running s) (nsend s) (trace s).
Definition set_running b s := mk_dhcps (sock s) (dnssock s) (ctrlsock s) (count_clients s) (msg s) (uaddr s) (baddr s) (ip_mac_mapping s) (netmask s) (my_ip s) (client_ip s) (current_ip s) (router_ip s) (dhcp_address_timeout s) (dhcp_nack_dns_server_handler s) b (nsend s) (trace s).
Definition set_trace n t s := mk_dhcps (sock s) (dnssock s) (ctrlsock s) (count_clients s) (msg s) (uaddr s) (baddr s) (ip_mac_mapping s) (netmask s) (my_ip s) (client_ip s) (current_ip s) (router_ip s) (dhcp_address_timeout s) (dhcp_nack_dns_server_handler s) (dhcpd_running s) n t.

Definition emit (e : event) : M dhcp_server_data unit := modify (λ s, set_trace (nsend s) (trace s ++ [e]) s).

(** ** Access to the message buffer *)
Definition rd (off n : nat) : M dhcp_server_data (list Z) := λ s,
  match msg s with
  | Some b => if (off + n <=? length b)%nat then Done (sub b off n, s) else Trap Fault
  | None => Trap Fault
  end.
Definition wr (off : nat) (bs : list Z) : M dhcp_server_data unit := λ s,
  match msg s with
  | Some b => if (off + length bs <=? length b)%nat then Done (tt, set_msg (Some (write_at b off bs)) s) else Trap Fault
  | None => Trap Fault
  end.
Definition rd8 (off : nat) : M dhcp_server_data Z := let* l := rd off 1 in ret (nth 0 l 0).
Definition rd32 (off : nat) : M dhcp_server_data Z := let* l := rd off 4 in ret (le32 l).
Definition rd16 (off : nat) : M dhcp_server_data Z := let* l := rd off 2 in ret (nth 0 l 0 + 256 * nth 1 l 0).
Definition wr16 (off : nat) (v : Z) : M dhcp_server_data unit := wr off [v mod 256; (v / 256) mod 256].

(** ** The address cache *)
Definition ac_not_full (s : dhcp_server_data) : bool := (count_clients s <? MAC_IP_CACHE_SIZE)%nat.

(** The entries the search loops visit. *)
Definition leases (s : dhcp_server_data) : list client_mac_cache :=
  take (count_clients s `min` MAC_IP_CACHE_SIZE) (ip_mac_mapping s).

Fixpoint find_mac (chaddr : list Z) (l : list client_mac_cache) : option Z :=
  match l with
  | [] => None
  | e :: l' => if bool_decide (client_mac e = chaddr) then Some (lease_ip e) else find_mac chaddr l'
  end.
Fixpoint find_ip (ip : Z) (l : list client_mac_cache) : option (list Z) :=
  match l with
  | [] => None
  | e :: l' => if lease_ip e =? ip then Some (client_mac e) else find_ip ip l'
  end.
Definition ac_lookup_mac (chaddr : list Z) (s : dhcp_server_data) : Z :=
  default CLIENT_IP_NOT_FOUND (find_mac chaddr (leases s)).
Definition ac_lookup_ip (ip : Z) (s : dhcp_server_data) : option (list Z) := find_ip ip (leases s).

(** The result is the C [bool]: [return -1] is [true]. *)
Definition ac_add (chaddr : list Z) (ip : Z) : M dhcp_server_data bool := λ s,
  if ac_not_full s then
    Done (false, set_cache (S (count_clients s)) (<[count_clients s := mk_entry chaddr ip]> (ip_mac_mapping s)) s)
  else Done (true, s).

Definition ac_valid_ip (requested_ip : Z) (s : dhcp_server_data) : bool :=
  if (requested_ip =? ntohl (my_ip s)) || (requested_ip =? ntohl (Z.land (my_ip s) (netmask s))) ||
     (requested_ip =? ntohl (Z.lor (my_ip s) (Z.land 0xffffffff (not32 (netmask s)))))
  then false
  else match ac_lookup_ip (htonl requested_ip) s with Some _ => false | None => true end.

Definition write_u32 (be_value : Z) : list Z :=
  [Z.land be_value 0xFF; Z.land (Z.shiftr be_value 8) 0xFF; Z.land (Z.shiftr be_value 16) 0xFF;
   Z.land (Z.shiftr be_value 24) 0xFF].

Definition dhcp_server_lease_timeout (val : Z) : M dhcp_server_data Z :=
  if (val =? 0) || (60 * 60 * 24 * 49700 <? val) then ret (- EINVAL)
  else modify (set_timeout val) ;;; ret 0.

(** ** Address assignment *)
Definition next_host (s : dhcp_server_data) (cur : Z) : Z :=
  Z.lor (ntohl (Z.land (my_ip s) (netmask s))) (Z.land (u32 (cur + 1)) (ntohl (not32 (netmask s)))).

(** [while (!ac_valid_ip(dhcps.current_ip))]; [fuel] bounds the evaluations of the test. *)
Fixpoint yiaddr_loop (fuel : nat) : M dhcp_server_data unit :=
  match fuel with
  | O => trapM Hang
  | S fuel' =>
      let* ok := gets (λ s, ac_valid_ip (current_ip s) s) in
      if ok then ret tt
      else modify (λ s, set_current_ip (next_host s (current_ip s)) s) ;;; yiaddr_loop fuel'
  end.

Definition next_yiaddr (fuel : nat) : M dhcp_server_data Z :=
  let* chaddr := rd off_chaddr 6 in
  let* new_ip := gets (ac_lookup_mac chaddr) in
  if new_ip =? CLIENT_IP_NOT_FOUND then
    modify (λ s, set_current_ip (next_host s (current_ip s)) s) ;;;
    yiaddr_loop fuel ;;;
    let* new_ip := gets (λ s, htonl (current_ip s)) in
    ac_add chaddr new_ip ;;;
    ret new_ip
  else ret new_ip.

(** One option: type, length, value. *)
Definition wr_opt (off : nat) (type : Z) (value : list Z) : M dhcp_server_data nat :=
  wr off (type :: Z.of_nat (length value) :: value) ;;; ret (off + (2 + length value))%nat.

Definition make_response (fuel : nat) (type : Z) : M dhcp_server_data nat :=
  wr 0 [BOOTP_OP_RESPONSE; 1; 6; 0] ;;;
  wr off_ciaddr (le_bytes 0) ;;;
  let* c := gets client_ip in
  wr off_yiaddr (le_bytes (if type =? DHCP_MESSAGE_ACK then c else 0)) ;;;
  (if type =? DHCP_MESSAGE_OFFER then
     let* ip := next_yiaddr fuel in wr off_yiaddr (le_bytes ip)
   else ret tt) ;;;
  wr off_siaddr (le_bytes 0) ;;;
  wr off_riaddr (le_bytes 0) ;;;
  let* o := wr_opt sizeof_bootp_header BOOTP_OPTION_DHCP_MESSAGE [type] in
  if type =? DHCP_MESSAGE_NAK then ret o
  else
    let* s := gets id in
    let* o := wr_opt o BOOTP_OPTION_SUBNET_MASK (write_u32 (netmask s)) in
    let* o := wr_opt o BOOTP_OPTION_ADDRESS_TIME (write_u32 (htonl (dhcp_address_timeout s))) in
    let* o := wr_opt o BOOTP_OPTION_DHCP_SERVER_ID (write_u32 (my_ip s)) in
    let* o := wr_opt o BOOTP_OPTION_ROUTER (write_u32 (router_ip s)) in
    let* o := wr_opt o BOOTP_OPTION_NAMESERVER
                (write_u32 (if dhcp_nack_dns_server_handler s then router_ip s else 0)) in
    wr o [BOOTP_END_OPTION] ;;;
    ret (S o).

Definition dhcp_get_ip_from_mac (mac : list Z) (s : dhcp_server_data) : Z * Z :=
  let ip := ac_lookup_mac mac s in
  if ip =? CLIENT_IP_NOT_FOUND then (-1, ip) else (0, ip).

(** The address whose printed form is returned, [None] for NULL. *)
Definition dhcp_lookup_mac (mac : list Z) (s : dhcp_server_data) : option Z := find_mac mac (leases s).

Section Dhcpd.
(** [sendto n len]: result of the n-th [lwip_sendto], asked to send [len] bytes. *)
Context (sendto : nat → Z → Z).

Definition lwip_sendto (sk dst : Z) (bs : list Z) : M dhcp_server_data Z := λ s,
  Done (sendto (nsend s) (Z.of_nat (length bs)),
        set_trace (S (nsend s)) (trace s ++ [SendTo sk dst bs]) s).

(** [while (sent < len)]; [fuel] bounds the number of calls. *)
Fixpoint send_loop (fuel : nat) (sk dst : Z) (bs : list Z) (sent : nat) : M dhcp_server_data Z :=
  match fuel with
  | O => trapM Hang
  | S fuel' =>
      if (sent <? length bs)%nat then
        let* nb := lwip_sendto sk dst (drop sent bs) in
        if nb <? 0 then ret (-1)
        else send_loop fuel' sk dst bs (sent + Z.to_nat nb)
      else ret 0
  end.

Definition send_response (sk dst : Z) (bs : list Z) : M dhcp_server_data Z :=
  (if (dst =? 0) || (dst =? 0xffffffff) then emit SetDefaultNetif else ret tt) ;;;
  send_loop (S (S (length bs))) sk dst bs 0.

(** ** DNS: every query is refused *)
Definition process_dns_message (len : nat) (from : Z) : M dhcp_server_data Z :=
  if (len <? sizeof_dns_header)%nat then ret (-1)
  else
    let* f := rd16 2 in
    if negb (field f 15 1 =? 0) then ret (-1)
    else
      let* q := rd16 4 in
      if htons q <=? 0 then ret (-1)
      else
        let f := set_field f 15 1 1 in
        let f := set_field f 11 4 0 in
        let f := set_field f 10 1 0 in
        let f := set_field f 9 1 0 in
        let f := set_field f 8 1 1 in
        let f := set_field f 7 1 0 in
        let f := set_field f 0 4 5 in
        wr16 2 (htons f) ;;;
        wr16 4 (htons 1) ;;;
        wr16 6 0 ;;;
        wr16 8 0 ;;;
        wr16 10 0 ;;;
        let* bs := rd 0 len in
        let* sk := gets dnssock in
        send_response sk from bs ;;;
        ret (-1).

(** ** DHCP *)
(** The local variables of [process_dhcp_message]. *)
Record locals := mk_loc { response_type : Z; got_ip : bool; need_ip : bool; got_client_ip : bool }.

(** The check of a requested address against the subnet and the cache. *)
Definition check_client_ip (lc : locals) : M dhcp_server_data locals :=
  let* s := gets id in
  if Z.land (client_ip s) (netmask s) =? Z.land (my_ip s) (netmask s) then
    let* chaddr := rd off_chaddr 6 in
    let* new_ip := gets (ac_lookup_mac chaddr) in
    if negb (new_ip =? CLIENT_IP_NOT_FOUND) then
      ret (mk_loc (response_type lc) (new_ip =? client_ip s) (need_ip lc) (got_client_ip lc))
    else if ac_valid_ip (ntohl (client_ip s)) s then
      (if ac_not_full s then ac_add chaddr (client_ip s) ;;; ret tt else ret tt) ;;;
      ret (mk_loc (response_type lc) true (need_ip lc) (got_client_ip lc))
    else ret lc
  else ret lc.

(** One option: the new locals and the number of bytes consumed. *)
Definition process_option (off : nat) (lc : locals) : M dhcp_server_data (locals * nat) :=
  let* type := rd8 off in
  let* length := rd8 (off + 1) in
  let* lc :=
    (if (type =? BOOTP_OPTION_DHCP_MESSAGE) && (length =? 1) then
       let* v := rd8 (off + 2) in
       if v =? DHCP_MESSAGE_DISCOVER then
         ret (mk_loc DHCP_MESSAGE_OFFER (got_ip lc) (need_ip lc) (got_client_ip lc))
       else if v =? DHCP_MESSAGE_REQUEST then
         let* ciaddr := rd32 off_ciaddr in
         if negb (ciaddr =? 0) then
           modify (set_client_ip ciaddr) ;;; ret (mk_loc (response_type lc) (got_ip lc) true true)
         else ret (mk_loc (response_type lc) (got_ip lc) true (got_client_ip lc))
       else ret lc
     else ret lc) in
  let* lc :=
    (if (type =? BOOTP_OPTION_REQUESTED_IP) && (length =? 4) then
       let* v := rd32 (off + 2) in
       modify (set_client_ip v) ;;;
       ret (mk_loc (response_type lc) (got_ip lc) (need_ip lc) true)
     else ret lc) in
  let* lc := (if got_client_ip lc then check_client_ip lc else ret lc) in
  let resp := if need_ip lc then (if got_ip lc then DHCP_MESSAGE_ACK else DHCP_MESSAGE_NAK)
              else response_type lc in
  ret (mk_loc resp (got_ip lc) (need_ip lc) (got_client_ip lc), (2 + Z.to_nat length)%nat).

(** [while (len > 0 && opt->type != BOOTP_END_OPTION)]; every option consumes
    at least two bytes, so that [fuel = len] is enough. *)
Fixpoint option_loop (fuel : nat) (len : Z) (off : nat) (lc : locals) : M dhcp_server_data locals :=
  match fuel with
  | O => trapM Hang
  | S fuel' =>
      if 0 <? len then
        let* type := rd8 off in
        if type =? BOOTP_END_OPTION then ret lc
        else
          let* (lc', consumed) := process_option off lc in
          option_loop fuel' (len - Z.of_nat consumed) (off + consumed)%nat lc'
      else ret lc
  end.

(** Building and sending the response. *)
Definition respond (fuel : nat) (response_type : Z) : M dhcp_server_data unit :=
  let* send_byte := make_response fuel response_type in
  let* dst_ip := rd32 off_yiaddr in
  let* chaddr := rd off_chaddr 6 in
  (if negb (dst_ip =? 0) then
     modify (set_uaddr dst_ip) ;;;
     emit (ArpAdd dst_ip chaddr) ;;;
     let* f := rd16 off_flags in
     wr16 off_flags (Z.land f (Z.lnot (htons (BIT 15)))) ;;;
     let* s := gets id in
     let* bs := rd 0 send_byte in
     send_response (sock s) (uaddr s) bs ;;;
     emit (ArpRemove dst_ip)
   else ret tt) ;;;
  let* f := rd16 off_flags in
  wr16 off_flags (Z.lor f (htons (BIT 15))) ;;;
  let* s := gets id in
  let* bs := rd 0 send_byte in
  send_response (sock s) (baddr s) bs ;;;
  send_response (sock s) (baddr s) bs ;;;
  send_response (sock s) (baddr s) bs ;;;
  (if response_type =? DHCP_MESSAGE_ACK then emit (GratuitousArp (my_ip s)) else ret tt).

Definition process_dhcp_message (fuel : nat) (len : nat) : M dhcp_server_data Z :=
  let* m := gets msg in
  match m with
  | None => ret (-1)
  | Some _ =>
      if (len <? sizeof_bootp_header + 2 + 1)%nat then ret (-1)
      else
        let* op := rd8 0 in
        if negb ((op =? BOOTP_OP_REQUEST) || (op =? BOOTP_OP_RESPONSE)) then ret (-1)
        else
          let* htype := rd8 1 in
          let* hlen := rd8 2 in
          if negb (htype =? 1) || negb (hlen =? 6) then ret (-1)
          else
            let* lc := option_loop (S len) (Z.of_nat len - 240) sizeof_bootp_header
                         (mk_loc DHCP_NO_RESPONSE false false false) in
            if negb (response_type lc =? DHCP_NO_RESPONSE) then
              respond fuel (response_type lc) ;;; ret 0
            else ret 0
  end.

(** ** Life cycle *)
Definition close (sk : Z) : M dhcp_server_data unit := emit (Close sk).

Definition dhcp_clean_sockets : M dhcp_server_data unit :=
  let* s := gets id in
  (if negb (sock s =? -1) then
     close (sock s) ;;; modify (λ s, set_socks (-1) (dnssock s) (ctrlsock s) s) else ret tt) ;;;
  (if dhcp_nack_dns_server_handler s then
     if negb (dnssock s =? -1) then
       close (dnssock s) ;;; modify (λ s, set_socks (sock s) (-1) (ctrlsock s) s) else ret tt
   else ret tt) ;;;
  (if negb (ctrlsock s =? -1) then
     close (ctrlsock s) ;;; modify (λ s, set_socks (sock s) (dnssock s) (-1) s) else ret tt).

Definition dhcp_free_allocations (deinit_ret : Z) : M dhcp_server_data Z :=
  dhcp_clean_sockets ;;;
  modify (set_msg None) ;;;
  ret deinit_ret.

(** Results of [lwip_socket], of [setsockopt(SO_BROADCAST)] and of [lwip_bind]. *)
Record sock_env := mk_sock_env { se_socket : Z; se_broadcast : Z; se_bind : Z }.
Definition create_and_bind_udp_socket (e : sock_env) : M dhcp_server_data Z :=
  if se_socket e =? -1 then ret (-1)
  else if se_broadcast e =? -1 then close (se_socket e) ;;; ret (-1)
  else if negb (se_bind e =? 0) then close (se_socket e) ;;; ret (-1)
  else ret (se_socket e).

Record init_env := mk_init_env {
  ie_alloc : option (list Z); ie_mutex : Z;
  ie_ip : option Z; ie_mask : option Z; ie_gw : option Z;
  ie_sock : sock_env; ie_dns : sock_env; ie_ctrl : sock_env }.

Definition init_out (r : Z) : M dhcp_server_data Z := modify (set_msg None) ;;; ret r.
Definition get_broadcast_addr : Z := 0xffffffff.

Definition dhcp_server_init (e : init_env) : M dhcp_server_data Z :=
  modify (λ s, mk_dhcps 0 0 0 0 None 0 0 (replicate MAC_IP_CACHE_SIZE (mk_entry (replicate 6 0) 0))
    0 0 0 0 0 (dhcp_address_timeout s) (dhcp_nack_dns_server_handler s) (dhcpd_running s) (nsend s) (trace s)) ;;;
  match ie_alloc e with
  | None => ret (-1)
  | Some b =>
      modify (set_msg (Some b)) ;;;
      if negb (ie_mutex e =? 0) then ret (-1)
      else
        modify (λ s, mk_dhcps (sock s) (dnssock s) (ctrlsock s) (count_clients s) (msg s)
          get_broadcast_addr get_broadcast_addr (ip_mac_mapping s) 0 0 0 0 0
          (dhcp_address_timeout s) (dhcp_nack_dns_server_handler s) (dhcpd_running s) (nsend s) (trace s)) ;;;
        match ie_ip e with
        | None => init_out (-1)
        | Some ip =>
            modify (set_net 0 ip 0 0) ;;;
            match ie_mask e with
            | None => init_out (-1)
            | Some nm =>
                modify (set_net nm ip 0 0) ;;;
                match ie_gw e with
                | None => init_out (-1)
                | Some gw =>
                    modify (set_net nm ip gw 0) ;;;
                    let* sk := create_and_bind_udp_socket (ie_sock e) in
                    modify (λ s, set_socks sk (dnssock s) (ctrlsock s) s) ;;;
                    if sk <? 0 then init_out (-1)
                    else
                      let* h := gets dhcp_nack_dns_server_handler in
                      let* ds := (if h then create_and_bind_udp_socket (ie_dns e) else gets dnssock) in
                      modify (λ s, set_socks (sock s) ds (ctrlsock s) s) ;;;
                      if h && (ds <? 0) then ret (-1)
                      else
                        let* cs := create_and_bind_udp_socket (ie_ctrl e) in
                        modify (λ s, set_socks (sock s) (dnssock s) cs s) ;;;
                        if cs <? 0 then init_out (-1)
                        else
                          modify (λ s, set_current_ip
                            (Z.lor (ntohl (Z.land (my_ip s) (netmask s)))
                                   (Z.land 99 (ntohl (not32 (netmask s))))) s) ;;;
                          ret 0
                end
            end
        end
  end.

Definition dhcp_enable_nack_dns_server : M dhcp_server_data unit := modify (set_handler true).

(** What one round of [select] and [recvfrom] delivers. *)
Record round := mk_round {
  rd_select : Z;
  rd_dhcp : option (list Z); rd_dns : option (Z * list Z); rd_ctrl : option (list Z) }.

(** [lwip_recvfrom] into the buffer: the datagram cut to the buffer's size. *)
Definition recvfrom (pkt : list Z) : M dhcp_server_data nat :=
  let p := take SERVER_BUFFER_SIZE pkt in
  wr 0 p ;;; ret (length p).

Definition HALT : list Z := [72; 65; 76; 84].

(** One round; [false] when the server leaves its loop. *)
Definition server_round (fuel : nat) (r : round) : M dhcp_server_data bool :=
  if rd_select r <? 0 then ret false
  else
    match rd_dhcp r with
    | Some p =>
        let* len := recvfrom p in
        if (0 <? len)%nat then process_dhcp_message fuel len ;;; ret tt else ret tt
    | None => ret tt
    end ;;;
    let* h := gets dhcp_nack_dns_server_handler in
    match (if h then rd_dns r else None) with
    | Some (from, p) =>
        let* len := recvfrom p in
        if (0 <? len)%nat then process_dns_message len from ;;; ret tt else ret tt
    | None => ret tt
    end ;;;
    match rd_ctrl r with
    | Some p =>
        let* len := recvfrom p in
        let* m := rd 0 SERVER_BUFFER_SIZE in
        ret (negb ((0 <? len)%nat && bool_decide (cstr m = HALT)))
    | None => ret true
    end.

(** [dhcp_server]: the rounds up to the one that ends the loop, then the clean-up. *)
Fixpoint server_rounds (fuel : nat) (rs : list round) : M dhcp_server_data bool :=
  match rs with
  | [] => ret true
  | r :: rs' =>
      let* go := server_round fuel r in
      if go then server_rounds fuel rs' else ret false
  end.
Definition dhcp_server (fuel : nat) (rs : list round) : M dhcp_server_data unit :=
  let* go := server_rounds fuel rs in
  if go then ret tt else dhcp_clean_sockets.

Definition send_ctrl_msg (m : list Z) : M dhcp_server_data Z :=
  let* s := gets id in lwip_sendto (ctrlsock s) (htonl 0x7f000001) (m ++ [0]).
Definition dhcp_send_halt (deinit_ret : Z) : M dhcp_server_data Z :=
  let* r := send_ctrl_msg HALT in
  if r <? 0 then ret (-1) else dhcp_free_allocations deinit_ret.

(** dhcp-server-main.c *)
Definition dhcp_server_start (e : init_env) (create_ret deinit_ret : Z) : M dhcp_server_data Z :=
  dhcp_enable_nack_dns_server ;;;
  let* r := gets dhcpd_running in
  if r then ret (-1)
  else
    let* i := dhcp_server_init e in
    if negb (i =? 0) then ret (-1)
    else if negb (create_ret =? 0) then dhcp_free_allocations deinit_ret ;;; ret (-1)
    else modify (set_running true) ;;; ret 0.

Definition dhcp_server_stop (deinit_ret : Z) : M dhcp_server_data unit :=
  let* r := gets dhcpd_running in
  if r then
    let* h := dhcp_send_halt deinit_ret in
    if negb (h =? 0) then ret tt else modify (set_running false)
  else ret tt.

End Dhcpd.

(** ** Byte swap, bit by bit *)
Definition swap_pos (i : Z) : Z := 8 * (3 - i / 8) + i mod 8.

Lemma ntohl_high x i : 32 ≤ i → Z.testbit (ntohl x) i = false.
Proof.
  intros Hi. unfold ntohl. rewrite !Z.lor_spec, !Z.shiftl_spec, !Z.shiftr_spec, !Z.land_spec by lia.
  rewrite (Z.bits_above_log2 0xff (i - 24)), (Z.bits_above_log2 0xff00 (i - 8)),
    (Z.bits_above_log2 0xff0000 (i + 8)), (Z.bits_above_log2 0xff000000 (i + 24)) by (simpl; lia).
  by rewrite !andb_false_r.
Qed.

Lemma ntohl_bit x i : 0 ≤ i < 32 → Z.testbit (ntohl x) i = Z.testbit x (swap_pos i).
Proof.
  intros Hi. assert (K : i ∈ seqZ 0 32) by (apply elem_of_seqZ; lia).
  unfold ntohl. rewrite !Z.lor_spec, !Z.shiftl_spec, !Z.shiftr_spec, !Z.land_spec by lia. clear Hi.
  vm_compute in K. elem_cases K; cbn -[Z.testbit]; rewrite ?(Z.testbit_neg_r x) by lia.
  all: vm_compute (Z.testbit 255 _); vm_compute (Z.testbit 65280 _); vm_compute (Z.testbit 16711680 _);
    vm_compute (Z.testbit 4278190080 _); rewrite ?andb_false_r, ?andb_true_r, ?orb_false_r; reflexivity.
Qed.

Lemma swap_pos_range i : 0 ≤ i < 32 → 0 ≤ swap_pos i < 32.
Proof. unfold swap_pos. intros. pose proof (Z.div_mod i 8). pose proof (Z.mod_pos_bound i 8). lia. Qed.
Lemma swap_pos_invol i : 0 ≤ i < 32 → swap_pos (swap_pos i) = i.
Proof.
  intros Hi. assert (K : i ∈ seqZ 0 32) by (apply elem_of_seqZ; lia).
  clear Hi. vm_compute in K. elem_cases K; reflexivity.
Qed.

(** Words are equal when their 32 bits are. *)
Definition word (x : Z) : Prop := 0 ≤ x < 2 ^ 32.
Lemma word_high x i : word x → 32 ≤ i → Z.testbit x i = false.
Proof.
  intros [H1 H2] Hi. rewrite <-(Z.mod_small x (2 ^ 32)) by done. by apply Z.mod_pow2_bits_high.
Qed.
Lemma word_of_bits x : 0 ≤ x → (∀ i, 32 ≤ i → Z.testbit x i = false) → word x.
Proof.
  intros H0 H. split; [done|]. destruct (Z.eq_dec x 0) as [->|N]; [done|].
  apply Z.log2_lt_pow2; [lia|]. destruct (Z.lt_ge_cases (Z.log2 x) 32) as [|G]; [done|].
  specialize (H _ G). rewrite Z.bit_log2 in H by lia. done.
Qed.
Lemma word_ext x y : word x → word y → (∀ i, 0 ≤ i < 32 → Z.testbit x i = Z.testbit y i) → x = y.
Proof.
  intros Hx Hy E. apply Z.bits_inj'. intros i Hi. destruct (Z.lt_ge_cases i 32).
  - apply E. lia.
  - by rewrite !word_high by done.
Qed.

Lemma ntohl_word x : word (ntohl x).
Proof.
  apply word_of_bits; [|intros; by apply ntohl_high].
  unfold ntohl. rewrite !Z.lor_nonneg, !Z.shiftl_nonneg, !Z.shiftr_nonneg, !Z.land_nonneg. split_and!; lia.
Qed.
#[local] Hint Resolve ntohl_word : bk.
Lemma land_word x y : word x → word y → word (Z.land x y).
Proof.
  intros Hx Hy. apply word_of_bits; [apply Z.land_nonneg; left; apply Hx|].
  intros i Hi. by rewrite Z.land_spec, word_high by done.
Qed.
Lemma lor_word x y : word x → word y → word (Z.lor x y).
Proof.
  intros Hx Hy. apply word_of_bits; [apply Z.lor_nonneg; split; [apply Hx|apply Hy]|].
  intros i Hi. by rewrite Z.lor_spec, !word_high by done.
Qed.
Lemma not32_bit x i : 0 ≤ i < 32 → Z.testbit (not32 x) i = negb (Z.testbit x i).
Proof.
  intros. unfold not32. rewrite Z.lxor_spec, Z.testbit_ones_nonneg by lia.
  rewrite (proj2 (Z.ltb_lt _ _)) by lia. apply xorb_true_r.
Qed.
Lemma not32_word x : word x → word (not32 x).
Proof.
  intros Hx. apply word_of_bits; [apply Z.lxor_nonneg; by destruct Hx|].
  intros i Hi. unfold not32. rewrite Z.lxor_spec, word_high, Z.testbit_ones_nonneg by (done || lia).
  by rewrite (proj2 (Z.ltb_ge _ _)) by lia.
Qed.

Lemma ntohl_invol x : word x → ntohl (ntohl x) = x.
Proof.
  intros Hx. apply word_ext; [apply ntohl_word|done|]. intros i Hi.
  pose proof (swap_pos_range i Hi). by rewrite !ntohl_bit, swap_pos_invol by done.
Qed.
Lemma ntohl_inj x y : word x → word y → ntohl x = ntohl y → x = y.
Proof. intros Hx Hy E. rewrite <-(ntohl_invol x), <-(ntohl_invol y) by done. by rewrite E. Qed.
Lemma ntohl_land x y : word x → word y → ntohl (Z.land x y) = Z.land (ntohl x) (ntohl y).
Proof.
  intros Hx Hy. apply word_ext; [apply ntohl_word|apply land_word; apply ntohl_word|]. intros i Hi.
  by rewrite Z.land_spec, !ntohl_bit, Z.land_spec by done.
Qed.
Lemma ntohl_lor x y : word x → word y → ntohl (Z.lor x y) = Z.lor (ntohl x) (ntohl y).
Proof.
  intros Hx Hy. apply word_ext; [apply ntohl_word|apply lor_word; apply ntohl_word|]. intros i Hi.
  by rewrite Z.lor_spec, !ntohl_bit, Z.lor_spec by done.
Qed.
Lemma ntohl_not32 x : word x → ntohl (not32 x) = not32 (ntohl x).
Proof.
  intros Hx. apply word_ext; [apply ntohl_word|apply not32_word, ntohl_word|]. intros i Hi.
  pose proof (swap_pos_range i Hi). by rewrite not32_bit, !ntohl_bit, not32_bit by done.
Qed.

(** ** The subnet: [2^k] addresses *)
Definition mask_bits (nm k : Z) : Prop := word nm ∧ 0 ≤ k ≤ 32 ∧ ntohl nm = 2 ^ 32 - 2 ^ k.

Lemma mask_host nm k : mask_bits nm k → ntohl (not32 nm) = Z.ones k.
Proof.
  intros (Hw & Hk & E). rewrite ntohl_not32, E by done. unfold not32.
  apply Z.bits_inj'. intros i Hi. rewrite Z.lxor_spec, !Z.testbit_ones_nonneg by lia.
  replace (2 ^ 32 - 2 ^ k) with (Z.shiftl (Z.ones (32 - k)) k).
  2: { rewrite Z.shiftl_mul_pow2, Z.ones_equiv by lia. rewrite <-Z.sub_1_r, Z.mul_sub_distr_r, <-Z.pow_add_r by lia.
       replace (32 - k + k) with 32 by lia. lia. }
  rewrite Z.shiftl_spec by done. destruct (Z.lt_ge_cases i k).
  - rewrite Z.testbit_neg_r by lia. rewrite (proj2 (Z.ltb_lt i 32)), (proj2 (Z.ltb_lt i k)) by lia. done.
  - rewrite Z.testbit_ones_nonneg by lia. rewrite (proj2 (Z.ltb_ge i k)) by lia.
    by destruct (Z.ltb_spec (i - k) (32 - k)), (Z.ltb_spec i 32); try lia.
Qed.
Lemma mask_bit nm k i : mask_bits nm k → 0 ≤ i < 32 → Z.testbit (ntohl nm) i = negb (i <? k).
Proof.
  intros H Hi. pose proof (mask_host _ _ H) as E. destruct H as (Hw & Hk & _).
  rewrite ntohl_not32 in E by done. apply (f_equal (λ z, Z.testbit z i)) in E.
  rewrite not32_bit, Z.testbit_ones_nonneg in E by lia. rewrite <-E. by rewrite negb_involutive.
Qed.

Definition subnet (s : dhcp_server_data) (ip : Z) : Prop := Z.land ip (netmask s) = Z.land (my_ip s) (netmask s).
(** The network address and the directed broadcast address, in network order. *)
Definition net_addr (s : dhcp_server_data) : Z := Z.land (my_ip s) (netmask s).
Definition bcast_addr (s : dhcp_server_data) : Z := Z.lor (my_ip s) (Z.land 0xffffffff (not32 (netmask s))).
Definition base (s : dhcp_server_data) : Z := ntohl (net_addr s).

Section Subnet.
Context (s : dhcp_server_data) (k : Z).
Hypothesis (Hm : mask_bits (netmask s) k) (Hmy : word (my_ip s)).

Lemma base_eq : base s = Z.land (ntohl (my_ip s)) (ntohl (netmask s)).
Proof. unfold base, net_addr. apply ntohl_land; [done|apply Hm]. Qed.
Lemma base_low i : 0 ≤ i < k → Z.testbit (base s) i = false.
Proof.
  intros Hi. pose proof Hm as (_ & Hk & _). rewrite base_eq, Z.land_spec, (mask_bit (netmask s) k) by (done || lia).
  rewrite (proj2 (Z.ltb_lt _ _)) by lia. by rewrite andb_false_r.
Qed.

Lemma host_mod h : 0 ≤ h < 2 ^ k → Z.lor (base s) h mod 2 ^ k = h.
Proof.
  intros Hh. pose proof Hm as (_ & Hk & _). rewrite <-Z.land_ones by lia.
  apply Z.bits_inj'. intros i Hi. rewrite Z.land_spec, Z.lor_spec, Z.testbit_ones_nonneg by lia.
  destruct (Z.ltb_spec i k).
  - by rewrite base_low, andb_true_r by lia.
  - rewrite andb_false_r. rewrite <-(Z.mod_small h (2 ^ k)) by done. by rewrite Z.mod_pow2_bits_high by lia.
Qed.

Lemma host_word h : 0 ≤ h < 2 ^ k → word (Z.lor (base s) h).
Proof.
  intros Hh. apply lor_word; [apply ntohl_word|]. destruct Hm as (_ & Hk & _).
  split; [lia|]. eapply Z.lt_le_trans; [apply Hh|]. apply Z.pow_le_mono_r; lia.
Qed.

Lemma host_subnet h : 0 ≤ h < 2 ^ k → subnet s (ntohl (Z.lor (base s) h)).
Proof.
  intros Hh. pose proof Hm as (Hw & Hk & _). pose proof (host_word h Hh) as W. unfold subnet.
  apply ntohl_inj; [apply land_word; [apply ntohl_word|done]|by apply land_word|].
  rewrite !ntohl_land, ntohl_invol by auto using ntohl_word. rewrite <-base_eq.
  apply word_ext; [apply land_word; auto using ntohl_word|apply ntohl_word|]. intros i Hi.
  rewrite Z.land_spec, Z.lor_spec, (mask_bit (netmask s) k) by done.
  destruct (Z.ltb_spec i k); cbn [negb].
  - by rewrite andb_false_r, base_low by lia.
  - rewrite andb_true_r. rewrite <-(Z.mod_small h (2 ^ k)), Z.mod_pow2_bits_high by lia. apply orb_false_r.
Qed.

Lemma next_host_eq c : next_host s c = Z.lor (base s) ((c + 1) mod 2 ^ k).
Proof.
  unfold next_host, base, net_addr. f_equal. rewrite (mask_host _ k Hm). destruct Hm as (_ & Hk & _).
  rewrite Z.land_ones by lia. unfold u32. apply Z.mod_mod_divide.
  exists (2 ^ (32 - k)). rewrite <-Z.pow_add_r by lia. f_equal. lia.
Qed.

Lemma iter_next_host c n :
  Nat.iter (S n) (next_host s) c = Z.lor (base s) ((c + Z.of_nat (S n)) mod 2 ^ k).
Proof.
  pose proof Hm as (_ & Hk & _). induction n as [|n IH]; [apply next_host_eq|].
  change (Nat.iter (S (S n)) (next_host s) c) with (next_host s (Nat.iter (S n) (next_host s) c)).
  rewrite IH, next_host_eq. f_equal. rewrite <-Z.add_mod_idemp_l by lia.
  rewrite host_mod by (apply Z.mod_pos_bound; lia). rewrite Z.add_mod_idemp_l by lia. f_equal. lia.
Qed.

Lemma iter_next_host_inj c i j :
  Z.of_nat i < 2 ^ k → Z.of_nat j < 2 ^ k →
  Nat.iter (S i) (next_host s) c = Nat.iter (S j) (next_host s) c → i = j.
Proof.
  intros Hi Hj E. pose proof Hm as (_ & Hk & _). rewrite !iter_next_host in E.
  apply (f_equal (λ z, z mod 2 ^ k)) in E. rewrite !host_mod in E by (apply Z.mod_pos_bound; lia).
  assert (D : (Z.of_nat i - Z.of_nat j) mod 2 ^ k = 0).
  { replace (Z.of_nat i - Z.of_nat j) with ((c + Z.of_nat (S i)) - (c + Z.of_nat (S j))) by lia.
    rewrite Zminus_mod, E, Z.sub_diag. apply Z.mod_0_l. lia. }
  apply Z.mod_divide in D; [|lia]. destruct D as [q Hq]. assert (q = 0) by nia. lia.
Qed.
End Subnet.

(** ** The cache *)
Lemma find_mac_None m l : find_mac m l = None ↔ m ∉ client_mac <$> l.
Proof.
  induction l as [|e l IH]; simpl; [by split; [intros _; apply not_elem_of_nil|]|].
  case_bool_decide as E.
  - subst. split; [done|]. intros H. destruct H. apply elem_of_cons. by left.
  - rewrite IH, not_elem_of_cons. naive_solver.
Qed.
Lemma find_mac_Some m l ip : find_mac m l = Some ip → mk_entry m ip ∈ l.
Proof.
  induction l as [|[m' ip'] l IH]; simpl; [done|]. case_bool_decide as E; simpl in E.
  - intros [= <-]. subst. apply elem_of_cons. by left.
  - intros H. apply elem_of_cons. right. auto.
Qed.
Lemma find_ip_None ip l : find_ip ip l = None ↔ ip ∉ lease_ip <$> l.
Proof.
  induction l as [|e l IH]; simpl; [by split; [intros _; apply not_elem_of_nil|]|].
  rewrite not_elem_of_cons. destruct (Z.eqb_spec (lease_ip e) ip) as [E|E]; [naive_solver|].
  rewrite IH. naive_solver.
Qed.

(** An address that may be leased: of the subnet, not the server's own, not the
    network's, not the broadcast address. *)
Definition valid_lease (s : dhcp_server_data) (ip : Z) : Prop :=
  word ip ∧ subnet s ip ∧ ip ≠ my_ip s ∧ ip ≠ net_addr s ∧ ip ≠ bcast_addr s.

(** The invariant of the server. *)
Record server_wf (k : Z) (s : dhcp_server_data) : Prop := {
  sw_mask : mask_bits (netmask s) k;
  sw_my : word (my_ip s);
  sw_client : word (client_ip s);
  sw_len : length (ip_mac_mapping s) = MAC_IP_CACHE_SIZE;
  sw_cnt : (count_clients s ≤ MAC_IP_CACHE_SIZE)%nat;
  sw_macs : NoDup (client_mac <$> leases s);
  sw_ips : NoDup (lease_ip <$> leases s);
  sw_valid : Forall (λ e, valid_lease s (lease_ip e)) (leases s);
  sw_buf : ∃ b, msg s = Some b ∧ length b = SERVER_BUFFER_SIZE ∧ all_bytes b }.

Lemma net_addr_word s k : server_wf k s → word (net_addr s).
Proof. intros W. apply land_word; [apply W|]. apply W. Qed.
Lemma bcast_addr_word s k : server_wf k s → word (bcast_addr s).
Proof.
  intros W. apply lor_word; [apply W|]. apply land_word; [done|]. apply not32_word. apply W.
Qed.

Lemma valid_lease_nonzero s ip : valid_lease s ip → ip ≠ 0.
Proof.
  intros V ->. destruct V as (_ & S & _ & N & _). unfold subnet in S. rewrite Z.land_0_l in S. by apply N.
Qed.

Lemma lookup_mac_0 k s m : server_wf k s →
  ac_lookup_mac m s = CLIENT_IP_NOT_FOUND ↔ find_mac m (leases s) = None.
Proof.
  intros W. unfold ac_lookup_mac. destruct (find_mac m (leases s)) as [ip|] eqn:E; [|done].
  split; [|done]. intros E0. change (ip = 0) in E0. subst ip. apply find_mac_Some in E.
  pose proof (sw_valid _ _ W) as V. rewrite Forall_forall in V. specialize (V _ E). simpl in V.
  by apply valid_lease_nonzero in V.
Qed.

Lemma valid_ip_spec k s ip : server_wf k s → word ip → subnet s ip →
  ac_valid_ip (ntohl ip) s = true ↔ valid_lease s ip ∧ ip ∉ lease_ip <$> leases s.
Proof.
  intros W Hip Hs. unfold ac_valid_ip, ac_lookup_ip, htonl. rewrite ntohl_invol by done.
  fold (net_addr s) (bcast_addr s).
  assert (Q : ∀ y, word y → (ntohl ip =? ntohl y) = (ip =? y)).
  { intros y Hy. destruct (Z.eqb_spec ip y) as [->|N]; [apply Z.eqb_refl|].
    apply Z.eqb_neq. intros E. apply N. by apply ntohl_inj. }
  rewrite !Q by eauto using net_addr_word, bcast_addr_word, sw_my.
  destruct (Z.eqb_spec ip (my_ip s)); cbn [orb]; [split; [done|by intros [(? & ? & ? & ? & ?) _]]|].
  destruct (Z.eqb_spec ip (net_addr s)); cbn [orb]; [split; [done|by intros [(? & ? & ? & ? & ?) _]]|].
  destruct (Z.eqb_spec ip (bcast_addr s)); cbn [orb]; [split; [done|by intros [(? & ? & ? & ? & ?) _]]|].
  rewrite <-find_ip_None. destruct (find_ip ip (leases s)); [split; [done|by intros []]|].
  split; [|done]. intros _. split; [|done]. done.
Qed.

(** Storing a lease. *)
Lemma leases_add k s m ip : server_wf k s → ac_not_full s = true →
  leases (set_cache (S (count_clients s)) (<[count_clients s := mk_entry m ip]> (ip_mac_mapping s)) s) =
  leases s ++ [mk_entry m ip].
Proof.
  intros W F. unfold ac_not_full in F. apply Nat.ltb_lt in F. unfold leases.
  cbn [count_clients ip_mac_mapping set_cache].
  pose proof (sw_len _ _ W). rewrite !Nat.min_l by lia.
  rewrite (take_S_r _ _ (mk_entry m ip)) by (apply list_lookup_insert_eq; lia).
  by rewrite take_insert_ge by lia.
Qed.

Lemma server_wf_add k s m ip :
  server_wf k s → valid_lease s ip → find_mac m (leases s) = None → (ip ∉ lease_ip <$> leases s) →
  ∃ b s', ac_add m ip s = Done (b, s') ∧ server_wf k s' ∧
    leases s' = (if ac_not_full s then leases s ++ [mk_entry m ip] else leases s) ∧
    s' = set_cache (count_clients s') (ip_mac_mapping s') s.
Proof.
  intros W V Hm Hip. unfold ac_add. destruct (ac_not_full s) eqn:F.
  2: { exists true, s. split_and!; try done. by destruct s. }
  do 2 eexists. split; [done|]. pose proof (leases_add k s m ip W F) as L.
  split_and!; [|done|done]. rewrite find_mac_None in Hm.
  unfold ac_not_full in F. apply Nat.ltb_lt in F.
  split; try apply W; rewrite ?L.
  - simpl. rewrite length_insert. apply W.
  - done.
  - rewrite fmap_app. apply NoDup_app. split_and!; [apply W| |apply NoDup_singleton].
    intros x Hx Hx'. apply list_elem_of_singleton in Hx'. by subst.
  - rewrite fmap_app. apply NoDup_app. split_and!; [apply W| |apply NoDup_singleton].
    intros x Hx Hx'. apply list_elem_of_singleton in Hx'. by subst.
  - apply Forall_app. split; [apply W|]. apply Forall_singleton. done.
Qed.

(** ** Searching a free address *)
Lemma yiaddr_loop_found fuel s n :
  (n < fuel)%nat → ac_valid_ip (Nat.iter n (next_host s) (current_ip s)) s = true →
  ∃ m, yiaddr_loop fuel s = Done (tt, set_current_ip (Nat.iter m (next_host s) (current_ip s)) s) ∧
    ac_valid_ip (Nat.iter m (next_host s) (current_ip s)) s = true.
Proof.
  revert s n. induction fuel as [|fuel IH]; intros s n Hn Hv; [lia|]. cbn [yiaddr_loop].
  erewrite bind_done by reflexivity. destruct (ac_valid_ip (current_ip s) s) eqn:V.
  - exists 0%nat. split; [by destruct s|done].
  - destruct n as [|n]; [simpl in Hv; congruence|].
    rewrite Nat.iter_succ_r in Hv.
    destruct (IH (set_current_ip (next_host s (current_ip s)) s) n) as (m & E & Hm); [lia|exact Hv|].
    exists (S m). rewrite Nat.iter_succ_r. split; [|exact Hm]. erewrite bind_done by reflexivity. exact E.
Qed.

Lemma yiaddr_loop_hangs fuel s :
  (∀ n, ac_valid_ip (Nat.iter n (next_host s) (current_ip s)) s = false) → yiaddr_loop fuel s = Trap Hang.
Proof.
  revert s. induction fuel as [|fuel IH]; intros s H; [done|]. cbn [yiaddr_loop].
  erewrite bind_done by reflexivity. rewrite (H 0%nat : ac_valid_ip (current_ip s) s = false).
  erewrite bind_done by reflexivity. apply IH. intros n. specialize (H (S n)).
  rewrite Nat.iter_succ_r in H. exact H.
Qed.

(** The addresses that are not free: at most eleven. *)
Definition taken (s : dhcp_server_data) : list Z :=
  [ntohl (my_ip s); ntohl (net_addr s); ntohl (bcast_addr s)] ++ ((λ e, ntohl (lease_ip e)) <$> leases s).

Lemma invalid_taken s x : word x → ac_valid_ip x s = false → x ∈ taken s.
Proof.
  intros Hx. unfold ac_valid_ip, taken. fold (net_addr s) (bcast_addr s).
  destruct (Z.eqb_spec x (ntohl (my_ip s))) as [->|]; [set_solver|].
  destruct (Z.eqb_spec x (ntohl (net_addr s))) as [->|]; [set_solver|].
  destruct (Z.eqb_spec x (ntohl (bcast_addr s))) as [->|]; [set_solver|]. cbn [orb].
  unfold ac_lookup_ip, htonl. destruct (find_ip (ntohl x) (leases s)) eqn:F; [|done]. intros _.
  apply elem_of_app. right. destruct (decide (ntohl x ∈ lease_ip <$> leases s)) as [E|E].
  - apply list_elem_of_fmap in E as (e & E & He). apply list_elem_of_fmap. exists e.
    by rewrite <-E, ntohl_invol.
  - apply find_ip_None in E. congruence.
Qed.

Lemma free_host k s c : server_wf k s → 4 ≤ k →
  ∃ n, (n < 12)%nat ∧ ac_valid_ip (Nat.iter (S n) (next_host s) c) s = true.
Proof.
  intros W Hk. set (f := λ n, Nat.iter (S n) (next_host s) c).
  assert (Hp : 16 ≤ 2 ^ k) by (change 16 with (2 ^ 4); apply Z.pow_le_mono_r; lia).
  destruct (decide (Exists (λ n, ac_valid_ip (f n) s = true) (seq 0 12))) as [E|E].
  - apply Exists_exists in E as (n & Hn & V). exists n. apply elem_of_seq in Hn. split; [lia|done].
  - exfalso. assert (D : NoDup (f <$> seq 0 12)).
    { apply NoDup_fmap_2_strong; [|apply NoDup_seq]. intros i j Hi Hj. apply elem_of_seq in Hi, Hj.
      apply (iter_next_host_inj s k (sw_mask _ _ W) (sw_my _ _ W)); lia. }
    assert (L : (length (f <$> seq 0 12) ≤ length (taken s))%nat).
    { apply submseteq_length, NoDup_submseteq; [done|]. intros x Hx.
      apply list_elem_of_fmap in Hx as (n & -> & Hn). apply invalid_taken.
      - unfold f. rewrite (iter_next_host s k (sw_mask _ _ W) (sw_my _ _ W)).
        apply (host_word s k (sw_mask _ _ W)). apply Z.mod_pos_bound. lia.
      - destruct (ac_valid_ip (f n) s) eqn:V; [|done]. destruct E. apply Exists_exists. by exists n. }
    unfold taken in L. rewrite length_fmap, length_seq, length_app, length_fmap in L.
    unfold leases in L. rewrite length_take in L. unfold MAC_IP_CACHE_SIZE in L. simpl length in L. lia.
Qed.

Lemma wf_mac k s : server_wf k s → ∃ b, msg s = Some b ∧ rd off_chaddr 6 s = Done (sub b off_chaddr 6, s).
Proof.
  intros W. destruct (sw_buf _ _ W) as (b & Hb & L & _). exists b. split; [done|].
  unfold rd. rewrite Hb, L. done.
Qed.

Lemma set_current_wf k s c : server_wf k s → server_wf k (set_current_ip c s).
Proof. intros []. by split. Qed.

(** What an assignment leaves unchanged. *)
Definition same_conf (s s' : dhcp_server_data) : Prop :=
  sock s' = sock s ∧ dnssock s' = dnssock s ∧ ctrlsock s' = ctrlsock s ∧
  baddr s' = baddr s ∧ netmask s' = netmask s ∧ my_ip s' = my_ip s ∧ router_ip s' = router_ip s ∧
  dhcp_address_timeout s' = dhcp_address_timeout s ∧
  dhcp_nack_dns_server_handler s' = dhcp_nack_dns_server_handler s.

Lemma next_yiaddr_spec k s fuel :
  server_wf k s → 4 ≤ k → (12 ≤ fuel)%nat →
  ∃ b ip s', msg s = Some b ∧ next_yiaddr fuel s = Done (ip, s') ∧ server_wf k s' ∧ valid_lease s ip ∧
    msg s' = msg s ∧ client_ip s' = client_ip s ∧ trace s' = trace s ∧ nsend s' = nsend s ∧ same_conf s s' ∧
    let mac := sub b off_chaddr 6 in
    match find_mac mac (leases s) with
    | Some ip0 => ip = ip0 ∧ s' = s
    | None => (ip ∉ lease_ip <$> leases s) ∧
        leases s' = if ac_not_full s then leases s ++ [mk_entry mac ip] else leases s
    end.
Proof.
  intros W Hk Hf. destruct (wf_mac k s W) as (b & Hb & R). exists b.
  unfold next_yiaddr. erewrite bind_done by exact R. erewrite bind_done by reflexivity.
  pose proof (lookup_mac_0 k s (sub b off_chaddr 6) W) as L0.
  destruct (find_mac (sub b off_chaddr 6) (leases s)) as [ip|] eqn:F.
  - exists ip, s. rewrite (proj2 (Z.eqb_neq _ _)) by (intros E; by apply L0 in E).
    unfold ac_lookup_mac. rewrite F. split_and!; try done.
    apply find_mac_Some in F. pose proof (sw_valid _ _ W) as V. rewrite Forall_forall in V. exact (V _ F).
  - rewrite (proj2 (Z.eqb_eq _ _)) by (by apply L0). erewrite bind_done by reflexivity.
    set (s1 := set_current_ip (next_host s (current_ip s)) s).
    destruct (free_host k s (current_ip s) W Hk) as (n & Hn & V).
    rewrite Nat.iter_succ_r in V.
    destruct (yiaddr_loop_found fuel s1 n) as (m & E & Hv); [lia|exact V|].
    erewrite bind_done by exact E. erewrite bind_done by reflexivity.
    assert (I : ∃ h, 0 ≤ h < 2 ^ k ∧ Nat.iter m (next_host s1) (current_ip s1) = Z.lor (base s) h).
    { change (next_host s1) with (next_host s). cbn [s1 current_ip set_current_ip].
      rewrite <-Nat.iter_succ_r, (iter_next_host s k (sw_mask _ _ W) (sw_my _ _ W)).
      eexists. split; [|done]. apply Z.mod_pos_bound. lia. }
    destruct I as (h & Hh & Ih). rewrite Ih in Hv |- *. cbn [current_ip set_current_ip].
    set (ip := htonl (Z.lor (base s) h)).
    pose proof (host_word s k (sw_mask _ _ W) h Hh) as Wh.
    pose proof (host_subnet s k (sw_mask _ _ W) (sw_my _ _ W) h Hh) as Sh.
    assert (VL : valid_lease s ip ∧ ip ∉ lease_ip <$> leases s).
    { apply (valid_ip_spec k s ip W (ntohl_word _) Sh). unfold ip, htonl. rewrite ntohl_invol by done. exact Hv. }
    destruct VL as [VL NI].
    destruct (server_wf_add k (set_current_ip (Z.lor (base s) h) s1) (sub b off_chaddr 6) ip)
      as (r & s' & A & W' & L' & S'); [by do 2 apply set_current_wf|done|done|done|].
    exists ip, s'. erewrite bind_done by exact A. rewrite S' at 4 5 6 7 8. split_and!; done.
Qed.

(** ** Every operation keeps the invariant, the configuration and the leases *)
Definition inv (k : Z) (s0 s : dhcp_server_data) : Prop :=
  server_wf k s ∧ same_conf s0 s ∧ leases s0 `prefix_of` leases s.

Lemma inv_refl k s : server_wf k s → inv k s s.
Proof. intros W. split_and!; done. Qed.

(** Changes of fields the invariant does not speak of. *)
Lemma inv_frame k s0 s s' :
  inv k s0 s → same_conf s s' → client_ip s' = client_ip s → count_clients s' = count_clients s →
  ip_mac_mapping s' = ip_mac_mapping s → msg s' = msg s → inv k s0 s'.
Proof.
  intros (W & C & P) C' Ec En Em Eb. unfold same_conf in C, C'. destruct_and!.
  assert (EL : leases s' = leases s) by (unfold leases; congruence).
  split_and!; [|split_and!; congruence|congruence].
  destruct W as [W1 W2 W3 W4 W5 W6 W7 W8 W9].
  split; rewrite ?EL, ?Ec, ?En, ?Em, ?Eb; try done; try congruence.
  apply (Forall_impl _ _ _ W8). intros e (A1 & A2 & A3 & A4 & A5).
  unfold valid_lease, subnet, net_addr, bcast_addr in *.
  repeat match goal with H : netmask s' = _ |- _ => rewrite H end.
  repeat match goal with H : my_ip s' = _ |- _ => rewrite H end. done.
Qed.

Lemma inv_client k s0 s a : inv k s0 s → word a → inv k s0 (set_client_ip a s).
Proof. intros (W & C & P) Ha. split_and!; try done. by destruct W. Qed.

Lemma inv_msg k s0 s b : inv k s0 s → length b = SERVER_BUFFER_SIZE → all_bytes b → inv k s0 (set_msg (Some b) s).
Proof. intros (W & C & P) L A. split_and!; try done. destruct W. split; try done. by exists b. Qed.

Section Inv.
Context (sendto : nat → Z → Z) (k : Z) (s0 : dhcp_server_data).
(** lwIP sends a datagram as a whole or reports an error. *)
Hypothesis (sendto_ok : ∀ n l, 0 < l → sendto n l = l ∨ sendto n l < 0).
Local Abbreviation I := (inv k s0).

Lemma wp_rd off n s Q : I s → (off + n ≤ SERVER_BUFFER_SIZE)%nat →
  (∀ l, length l = n → all_bytes l → Q l s) → wp (rd off n) s Q.
Proof.
  intros (W & _) H HQ. destruct (sw_buf _ _ W) as (b & Hb & L & A). unfold wp, rd. rewrite Hb, L.
  rewrite (proj2 (Nat.leb_le _ _)) by done. apply HQ; [apply length_sub; lia|]. by apply all_bytes_sub.
Qed.
Lemma wp_rd8 off s Q : I s → (off + 1 ≤ SERVER_BUFFER_SIZE)%nat → (∀ v, byte v → Q v s) → wp (rd8 off) s Q.
Proof.
  intros HI H HQ. apply wp_bind, wp_rd; [done|done|]. intros [|v [|? ?]] L A; try done.
  apply wp_ret, HQ. exact (Forall_inv A).
Qed.
Lemma le32_word l : length l = 4%nat → all_bytes l → word (le32 l).
Proof.
  destruct l as [|a [|b [|c [|d [|? ?]]]]]; try done. intros _ A. unfold all_bytes in A.
  rewrite !Forall_cons in A. unfold le32, word, byte in *. simpl. lia.
Qed.
Lemma wp_rd32 off s Q : I s → (off + 4 ≤ SERVER_BUFFER_SIZE)%nat → (∀ v, word v → Q v s) → wp (rd32 off) s Q.
Proof.
  intros HI H HQ. apply wp_bind, wp_rd; [done|done|]. intros l L A. apply wp_ret, HQ. by apply le32_word.
Qed.
Lemma wp_rd16 off s Q : I s → (off + 2 ≤ SERVER_BUFFER_SIZE)%nat → (∀ v, Q v s) → wp (rd16 off) s Q.
Proof. intros HI H HQ. apply wp_bind, wp_rd; [done|done|]. intros l L A. apply wp_ret, HQ. Qed.
Lemma wp_wr off bs s (Q : unit → dhcp_server_data → Prop) :
  I s → (off + length bs ≤ SERVER_BUFFER_SIZE)%nat → all_bytes bs →
  (∀ s', I s' → Q tt s') → wp (wr off bs) s Q.
Proof.
  intros HI H A HQ. pose proof HI as (W & _). destruct (sw_buf _ _ W) as (b & Hb & L & B). unfold wp, wr. rewrite Hb, L.
  rewrite (proj2 (Nat.leb_le _ _)) by done. apply HQ. apply inv_msg; [done| |by apply all_bytes_write_at].
  rewrite length_write_at; lia.
Qed.
Lemma wp_wr16 off v s (Q : unit → dhcp_server_data → Prop) :
  I s → (off + 2 ≤ SERVER_BUFFER_SIZE)%nat → (∀ s', I s' → Q tt s') → wp (wr16 off v) s Q.
Proof.
  intros. apply wp_wr; try done. repeat constructor; apply Z.mod_pos_bound; lia.
Qed.
Lemma write_u32_bytes v : all_bytes (write_u32 v).
Proof.
  assert (H : ∀ x, byte (Z.land x 0xFF)).
  { intros x. change 0xFF with (Z.ones 8). rewrite Z.land_ones by done. apply Z.mod_pos_bound. lia. }
  repeat constructor; apply H.
Qed.
Lemma wp_wr_opt off t bs s (Q : nat → dhcp_server_data → Prop) :
  I s → (off + 2 + length bs ≤ SERVER_BUFFER_SIZE)%nat → byte t → all_bytes bs → (length bs < 256)%nat →
  (∀ s', I s' → Q (off + (2 + length bs))%nat s') → wp (wr_opt off t bs) s Q.
Proof.
  intros HI H Ht A L HQ. apply wp_bind, wp_wr; [done|simpl; lia| |].
  - constructor; [done|]. constructor; [unfold byte; lia|done].
  - intros s' HI'. by apply wp_ret, HQ.
Qed.
Lemma wp_emit e s (Q : unit → dhcp_server_data → Prop) : I s → (∀ s', I s' → Q tt s') → wp (emit e) s Q.
Proof. intros HI HQ. apply HQ. by eapply inv_frame. Qed.

Lemma wp_send_response sk dst bs s (Q : Z → dhcp_server_data → Prop) :
  I s → (∀ r s', I s' → Q r s') → wp (send_response sendto sk dst bs) s Q.
Proof.
  intros HI HQ. apply wp_bind.
  assert (K : ∀ s', I s' → wp (send_loop sendto (S (S (length bs))) sk dst bs 0) s' Q).
  { intros s' HI'. cbn [send_loop]. destruct (0 <? length bs)%nat eqn:L; [|by apply wp_ret, HQ].
    apply Nat.ltb_lt in L. apply wp_bind. unfold wp at 1, lwip_sendto. rewrite drop_0.
    destruct (Z.ltb_spec (sendto (nsend s') (Z.of_nat (length bs))) 0) as [N|N].
    - apply wp_ret, HQ. by eapply inv_frame.
    - destruct (sendto_ok (nsend s') (Z.of_nat (length bs))) as [E|E]; [lia| |lia].
      rewrite E, Nat2Z.id, (proj2 (Nat.ltb_ge (0 + length bs) (length bs))) by lia.
      apply wp_ret, HQ. by eapply inv_frame. }
  destruct (_ || _); [apply wp_emit; [done|]; intros; by apply K|]. by apply wp_ret, K.
Qed.

Lemma wp_next_yiaddr fuel s Q :
  I s → 4 ≤ k → (12 ≤ fuel)%nat → (∀ ip s', I s' → Q ip s') → wp (next_yiaddr fuel) s Q.
Proof.
  intros (W & C & P) Hk Hf HQ.
  destruct (next_yiaddr_spec k s fuel W Hk Hf) as (b & ip & s' & _ & E & W' & _ & _ & _ & _ & _ & C' & L).
  apply (wp_done _ _ _ _ _ E), HQ. split_and!; [done| |].
  - unfold same_conf in *. destruct_and!. split_and!; congruence.
  - cbv zeta in L. destruct (find_mac (sub b off_chaddr 6) (leases s)); [by destruct L as [_ ->]|]. destruct L as [_ ->].
    destruct (ac_not_full s); [|done]. by apply prefix_app_r.
Qed.

Ltac bnd := unfold SERVER_BUFFER_SIZE, off_flags, off_ciaddr, off_yiaddr, off_siaddr, off_riaddr, off_chaddr,
  sizeof_bootp_header, sizeof_dns_header in *; simpl length; lia.
Ltac io := repeat first
  [ lazymatch goal with |- wp (bind _ _) _ _ => apply wp_bind | |- wp (gets _) _ _ => apply wp_gets
      | |- wp (ret _) _ _ => apply wp_ret end
  | apply wp_emit; [assumption|intros ? ?]
  | apply wp_send_response; [assumption|intros ? ? ?]
  | apply wp_rd16; [assumption|bnd|intros ?]
  | apply wp_rd32; [assumption|bnd|intros ? ?]
  | apply wp_rd8; [assumption|bnd|intros ? ?]
  | apply wp_wr16; [assumption|bnd|intros ? ?]
  | apply wp_wr_opt; [assumption|bnd|done|solve [apply write_u32_bytes]|bnd|intros ? ?]
  | apply wp_wr; [assumption|bnd|solve [auto with bk]|intros ? ?] ].

Lemma wp_make_response fuel type s Q :
  I s → 4 ≤ k → (12 ≤ fuel)%nat → byte type →
  (∀ n s', (n ≤ 274)%nat → I s' → Q n s') → wp (make_response fuel type) s Q.
Proof.
  intros HI Hk Hf Ht HQ. unfold make_response.
  assert (B4 : all_bytes [BOOTP_OP_RESPONSE; 1; 6; 0]) by (by apply (bool_decide_unpack _)).
  apply wp_bind, wp_wr; [done|bnd|done|]. intros s1 H1. io.
  assert (K : ∀ s2, I s2 → wp (if type =? DHCP_MESSAGE_OFFER then
     let* ip := next_yiaddr fuel in wr off_yiaddr (le_bytes ip) else ret tt) s2 (λ _ s', I s')).
  { intros s2 H2. destruct (type =? DHCP_MESSAGE_OFFER); [|done].
    apply wp_bind, wp_next_yiaddr; try done. intros ip s3 H3. io. done. }
  eapply wp_mono; [exact (K _ ltac:(eassumption))|]. intros [] s2 H2. cbv beta in H2. io.
  apply wp_wr_opt; [done|bnd|done|by apply Forall_singleton|bnd|].
  intros s3 I3. destruct (type =? DHCP_MESSAGE_NAK); [apply wp_ret, HQ; [bnd|done]|].
  io.
  apply wp_wr; [done|bnd|by apply (bool_decide_unpack _)|]. intros s4 I4.
  apply wp_ret, HQ; [bnd|done].
Qed.

Lemma wp_respond fuel type s (Q : unit → dhcp_server_data → Prop) :
  I s → 4 ≤ k → (12 ≤ fuel)%nat → byte type → (∀ s', I s' → Q tt s') → wp (respond sendto fuel type) s Q.
Proof.
  intros HI Hk Hf Ht HQ. apply wp_bind, wp_make_response; try done. intros n s1 Hn I1.
  apply wp_bind, wp_rd32; [done|bnd|]. intros dst Hd. apply wp_bind, wp_rd; [done|bnd|]. intros mac _ _.
  apply wp_bind.
  set (P := λ (_ : unit) (s' : dhcp_server_data), I s'). apply (wp_mono _ _ P).
  { destruct (negb (dst =? 0)); [|by apply wp_ret].
    apply wp_bind, wp_modify. assert (I2 : I (set_uaddr dst s1)) by (by eapply inv_frame).
    io. apply wp_rd; [done|bnd|]. intros bs _ _. io. done. }
  intros [] s2 I2. io. apply wp_rd; [done|bnd|]. intros bs _ _. io.
  destruct (type =? DHCP_MESSAGE_ACK); io; by apply HQ.
Qed.

Lemma inv_add s m ip (Q : bool → dhcp_server_data → Prop) :
  I s → valid_lease s ip → find_mac m (leases s) = None → (ip ∉ lease_ip <$> leases s) →
  (∀ b s', I s' → Q b s') → wp (ac_add m ip) s Q.
Proof.
  intros (W & C & P) V Hm Hip HQ. destruct (server_wf_add k s m ip W V Hm Hip) as (b & s' & E & W' & L & F).
  apply (wp_done _ _ _ _ _ E), HQ. split_and!; [done|rewrite F; done|].
  rewrite L. destruct (ac_not_full s); [by apply prefix_app_r|done].
Qed.

Lemma wp_check_client_ip lc s (Q : locals → dhcp_server_data → Prop) :
  I s → (∀ g s', I s' → Q (mk_loc (response_type lc) g (need_ip lc) (got_client_ip lc)) s') →
  wp (check_client_ip lc) s Q.
Proof.
  intros HI HQ. assert (HQ' : ∀ s', I s' → Q lc s').
  { intros s' I'. specialize (HQ (got_ip lc) s' I'). by destruct lc. }
  unfold check_client_ip. io. unfold id. destruct (Z.eqb_spec (Z.land (client_ip s) (netmask s)) (Z.land (my_ip s) (netmask s))) as [S|S].
  2: { by apply wp_ret, HQ'. }
  apply wp_bind, wp_rd; [done|bnd|]. intros mac _ _. io.
  destruct (Z.eqb_spec (ac_lookup_mac mac s) CLIENT_IP_NOT_FOUND) as [E|E]; cbn [negb].
  2: { by apply wp_ret, HQ. }
  pose proof HI as (W & _). apply (lookup_mac_0 k) in E; [|done].
  destruct (ac_valid_ip (ntohl (client_ip s)) s) eqn:V; [|by apply wp_ret, HQ'].
  apply (valid_ip_spec k s) in V as [V NI]; [|done|apply W|done].
  destruct (ac_not_full s); io; [|by apply HQ].
  apply inv_add; try done. intros b s' I'. io. by apply HQ.
Qed.

Lemma wp_process_option off lc s (Q : locals * nat → dhcp_server_data → Prop) :
  I s → (off + 6 ≤ SERVER_BUFFER_SIZE)%nat → byte (response_type lc) →
  (∀ lc' n s', (2 ≤ n)%nat → byte (response_type lc') → I s' → Q (lc', n) s') →
  wp (process_option off lc) s Q.
Proof.
  intros HI Ho Hr HQ. unfold process_option. io. rename v into type, v0 into len.
  set (P := λ (lc : locals) (s' : dhcp_server_data), byte (response_type lc) ∧ I s').
  assert (R : ∀ (b : bool), byte (if b then DHCP_MESSAGE_ACK else DHCP_MESSAGE_NAK)) by (by intros []).
  eapply (wp_mono _ _ P).
  { destruct ((type =? BOOTP_OPTION_DHCP_MESSAGE) && (len =? 1)); [|by apply wp_ret].
    io. destruct (v =? DHCP_MESSAGE_DISCOVER); [by apply wp_ret|].
    destruct (v =? DHCP_MESSAGE_REQUEST); [|by apply wp_ret].
    io. destruct (negb (_ =? 0)); [|by apply wp_ret]. apply wp_bind, wp_modify, wp_ret.
    split; [done|]. by apply inv_client. }
  intros lc1 s1 [R1 I1]. io. eapply (wp_mono _ _ P).
  { destruct ((type =? BOOTP_OPTION_REQUESTED_IP) && (len =? 4)); [|by apply wp_ret].
    io. apply wp_modify, wp_ret. split; [done|]. by apply inv_client. }
  intros lc2 s2 [R2 I2]. io. eapply (wp_mono _ _ P).
  { destruct (got_client_ip lc2); [|by apply wp_ret]. apply wp_check_client_ip; [done|].
    intros g s3 I3. done. }
  intros lc3 s3 [R3 I3]. io. apply HQ; [lia| |done]. cbn [response_type].
  by destruct (need_ip lc3).
Qed.

Lemma wp_option_loop fuel len off lc s (Q : locals → dhcp_server_data → Prop) :
  I s → len + Z.of_nat off ≤ 1019 → len < Z.of_nat fuel → (0 < fuel)%nat → byte (response_type lc) →
  (∀ lc' s', byte (response_type lc') → I s' → Q lc' s') → wp (option_loop fuel len off lc) s Q.
Proof.
  revert len off lc s. induction fuel as [|fuel IH]; intros len off lc s HI Ho Hf H0 Hr HQ; [lia|].
  cbn [option_loop]. destruct (Z.ltb_spec 0 len); [|by apply wp_ret, HQ].
  apply wp_bind, wp_rd8; [done|bnd|]. intros t _. destruct (t =? BOOTP_END_OPTION); [by apply wp_ret, HQ|].
  apply wp_bind, wp_process_option; [done|bnd|done|]. intros lc' n s' Hn R' I'.
  apply IH; try done; lia.
Qed.

Lemma wp_process_dhcp fuel len s (Q : Z → dhcp_server_data → Prop) :
  I s → 4 ≤ k → (12 ≤ fuel)%nat → (len ≤ 1019)%nat → (∀ r s', I s' → Q r s') →
  wp (process_dhcp_message sendto fuel len) s Q.
Proof.
  intros HI Hk Hf Hl HQ. unfold process_dhcp_message. io. destruct (msg s); [|by apply wp_ret, HQ].
  destruct (len <? _)%nat eqn:L; [by apply wp_ret, HQ|]. apply Nat.ltb_ge in L. io.
  destruct (negb (_ || _)); [by apply wp_ret, HQ|]. io.
  destruct (negb _ || negb _); [by apply wp_ret, HQ|]. io.
  apply wp_option_loop; [done|bnd|lia|lia|done|]. intros lc s' R I'.
  destruct (negb _); [|by apply wp_ret, HQ].
  apply wp_bind, wp_respond; try done. intros s2 I2. by apply wp_ret, HQ.
Qed.

Lemma wp_process_dns len from s (Q : Z → dhcp_server_data → Prop) :
  I s → (len ≤ SERVER_BUFFER_SIZE)%nat → (∀ r s', I s' → Q r s') → wp (process_dns_message sendto len from) s Q.
Proof.
  intros HI Hl HQ. unfold process_dns_message. destruct (len <? _)%nat eqn:L; [by apply wp_ret, HQ|].
  apply Nat.ltb_ge in L. io. destruct (negb _); [by apply wp_ret, HQ|]. io.
  destruct (_ <=? 0); [by apply wp_ret, HQ|]. cbv zeta. io.
  apply wp_rd; [done|lia|]. intros bs _ _. io. by apply HQ.
Qed.

Lemma wp_recvfrom p s (Q : nat → dhcp_server_data → Prop) :
  I s → all_bytes p → (∀ s', I s' → Q (length p `min` SERVER_BUFFER_SIZE)%nat s') → wp (recvfrom p) s Q.
Proof.
  intros HI A HQ. unfold recvfrom. cbv zeta. apply wp_bind, wp_wr; [done| |by apply Forall_take|].
  - rewrite length_take. lia.
  - intros s' I'. apply wp_ret. rewrite length_take, Nat.min_comm. by apply HQ.
Qed.

(** A round as the network may deliver it: any bytes, DHCP datagrams of at most 1019 bytes. *)
Definition round_ok (r : round) : Prop :=
  (if rd_dhcp r is Some p then all_bytes p ∧ (length p ≤ 1019)%nat else True) ∧
  (if rd_dns r is Some (_, p) then all_bytes p else True) ∧
  (if rd_ctrl r is Some p then all_bytes p else True).

Lemma wp_server_round fuel r s (Q : bool → dhcp_server_data → Prop) :
  I s → 4 ≤ k → (12 ≤ fuel)%nat → round_ok r → (∀ b s', I s' → Q b s') → wp (server_round sendto fuel r) s Q.
Proof.
  intros HI Hk Hf (R1 & R2 & R3) HQ. unfold server_round. destruct (rd_select r <? 0); [by apply wp_ret, HQ|].
  set (P := λ (_ : unit) (s' : dhcp_server_data), I s').
  apply wp_bind, (wp_mono _ _ P).
  { destruct (rd_dhcp r) as [p|]; [|by apply wp_ret]. destruct R1 as [A L].
    apply wp_bind, wp_recvfrom; [done|done|]. intros s1 I1.
    destruct (0 <? _)%nat; [|by apply wp_ret]. apply wp_bind, wp_process_dhcp; try done. lia. }
  intros [] s1 I1. io. apply (wp_mono _ _ P).
  { destruct (dhcp_nack_dns_server_handler s1); [|by apply wp_ret].
    destruct (rd_dns r) as [[from p]|]; [|by apply wp_ret].
    apply wp_bind, wp_recvfrom; [done|done|]. intros s2 I2.
    destruct (0 <? _)%nat; [|by apply wp_ret]. apply wp_bind, wp_process_dns; [done|lia|].
    intros _ s3 I3. by apply wp_ret. }
  intros [] s2 I2. destruct (rd_ctrl r) as [p|]; [|by apply wp_ret, HQ].
  apply wp_bind, wp_recvfrom; [done|done|]. intros s3 I3. apply wp_bind, wp_rd; [done|lia|].
  intros m _ _. by apply wp_ret, HQ.
Qed.

Lemma wp_server_rounds fuel rs s (Q : bool → dhcp_server_data → Prop) :
  I s → 4 ≤ k → (12 ≤ fuel)%nat → Forall round_ok rs → (∀ b s', I s' → Q b s') →
  wp (server_rounds sendto fuel rs) s Q.
Proof.
  intros HI Hk Hf HR HQ. revert s HI. induction HR as [|r rs Hr _ IH]; intros s HI; [by apply wp_ret, HQ|].
  cbn [server_rounds]. apply wp_bind, wp_server_round; try done. intros [] s' I'; [by apply IH|by apply wp_ret, HQ].
Qed.
End Inv.

(** ** The life of the server *)
Section Life.
Context (sendto : nat → Z → Z) (k : Z) (fuel : nat).
Hypothesis (sendto_ok : ∀ n l, 0 < l → sendto n l = l ∨ sendto n l < 0).

(** The buffer [malloc] returns and the addresses of the interface. *)
Definition env_ok (e : init_env) : Prop :=
  (∀ b, ie_alloc e = Some b → length b = SERVER_BUFFER_SIZE ∧ all_bytes b) ∧
  (∀ ip, ie_ip e = Some ip → word ip) ∧ (∀ nm, ie_mask e = Some nm → mask_bits nm k).

(** The states the server passes through. *)
Inductive reachable : dhcp_server_data → Prop :=
| reach_init e s s' : env_ok e → dhcp_server_init e s = Done (0, s') → reachable s'
| reach_round r s b s' : reachable s → round_ok r → server_round sendto fuel r s = Done (b, s') → reachable s'.

(** The fields that are settled before the sockets are opened. *)
Definition fresh (b : list Z) (nm ip : Z) (s : dhcp_server_data) : Prop :=
  netmask s = nm ∧ my_ip s = ip ∧ client_ip s = 0 ∧ count_clients s = 0%nat ∧
  ip_mac_mapping s = replicate MAC_IP_CACHE_SIZE (mk_entry (replicate 6 0) 0) ∧ msg s = Some b.

Lemma socket_fresh b nm ip e s r s' :
  fresh b nm ip s → create_and_bind_udp_socket e s = Done (r, s') → fresh b nm ip s'.
Proof.
  intros F. unfold create_and_bind_udp_socket, close, emit, modify, bind, ret.
  destruct (_ =? -1); [by intros [= _ <-]|].
  destruct (_ =? -1); [by intros [= _ <-]|].
  destruct (negb _); by intros [= _ <-].
Qed.

Lemma wf_fresh s b nm ip :
  fresh b nm ip s → mask_bits nm k → word ip → length b = SERVER_BUFFER_SIZE → all_bytes b →
  server_wf k s ∧ leases s = [].
Proof.
  intros (Hnm & Hi & Hc & Hn & Hl & Hb) Hm Hip Lb Ab.
  assert (L : leases s = []) by (unfold leases; by rewrite Hn).
  split; [|done]. split; rewrite ?L, ?Hc, ?Hn, ?Hl, ?Hnm, ?Hi;
    first [done|lia|by apply NoDup_nil_2|by apply Forall_nil_2|by exists b].
Qed.

(** The part of the initialisation that opens the sockets. *)
Lemma init_sockets_fresh b nm ip e s s' :
  fresh b nm ip s →
  (let* sk := create_and_bind_udp_socket (ie_sock e) in
   modify (λ s, set_socks sk (dnssock s) (ctrlsock s) s) ;;;
   if sk <? 0 then init_out (-1)
   else
     let* h := gets dhcp_nack_dns_server_handler in
     let* ds := (if h then create_and_bind_udp_socket (ie_dns e) else gets dnssock) in
     modify (λ s, set_socks (sock s) ds (ctrlsock s) s) ;;;
     if h && (ds <? 0) then ret (-1)
     else
       let* cs := create_and_bind_udp_socket (ie_ctrl e) in
       modify (λ s, set_socks (sock s) (dnssock s) cs s) ;;;
       if cs <? 0 then init_out (-1)
       else
         modify (λ s, set_current_ip (Z.lor (ntohl (Z.land (my_ip s) (netmask s)))
                                            (Z.land 99 (ntohl (not32 (netmask s))))) s) ;;;
         ret 0) s = Done (0, s') → fresh b nm ip s'.
Proof.
  intros F H. apply bind_inv in H as (sk & s1 & E1 & H). pose proof (socket_fresh _ _ _ _ _ _ _ F E1) as F1.
  apply bind_inv in H as ([] & s2 & E2 & H). injection E2 as <-. destruct (sk <? 0); [done|].
  apply bind_inv in H as (h & s3 & E3 & H). injection E3 as _ <-.
  apply bind_inv in H as (ds & s4 & E4 & H).
  assert (F4 : fresh b nm ip s4).
  { destruct h; [by eapply (socket_fresh _ _ _ _ (set_socks _ _ _ s1)); [|exact E4]|]. by injection E4 as _ <-. }
  apply bind_inv in H as ([] & s5 & E5 & H). injection E5 as <-. destruct (h && _); [done|].
  apply bind_inv in H as (cs & s6 & E6 & H).
  assert (F6 : fresh b nm ip s6) by (by eapply (socket_fresh _ _ _ _ (set_socks _ _ _ s4)); [|exact E6]).
  apply bind_inv in H as ([] & s7 & E7 & H). injection E7 as <-. destruct (cs <? 0); [done|].
  apply bind_inv in H as ([] & s8 & E8 & H). injection E8 as <-. by injection H as <-.
Qed.

Lemma init_wf e s s' : env_ok e → dhcp_server_init e s = Done (0, s') → server_wf k s' ∧ leases s' = [].
Proof.
  intros (Hb & Hip & Hm). unfold dhcp_server_init. erewrite bind_done by reflexivity.
  destruct (ie_alloc e) as [b|]; [|done]. destruct (Hb b eq_refl) as [Lb Ab].
  erewrite bind_done by reflexivity. destruct (negb _); [done|]. erewrite bind_done by reflexivity.
  destruct (ie_ip e) as [ip|]; [|done]. erewrite bind_done by reflexivity.
  destruct (ie_mask e) as [nm|]; [|done]. erewrite bind_done by reflexivity.
  destruct (ie_gw e) as [gw|]; [|done]. erewrite bind_done by reflexivity.
  intros H. apply (init_sockets_fresh b nm ip) in H; [|done].
  apply (wf_fresh _ b nm ip); auto.
Qed.

Lemma round_inv r s : 4 ≤ k → (12 ≤ fuel)%nat → server_wf k s → round_ok r →
  wp (server_round sendto fuel r) s (λ _ s', inv k s s').
Proof. intros Hk Hf W Hr. apply (wp_server_round sendto k s sendto_ok); auto using inv_refl. Qed.

Lemma reachable_wf s : 4 ≤ k → (12 ≤ fuel)%nat → reachable s → server_wf k s.
Proof.
  intros Hk Hf. induction 1 as [e s s' He E|r s b s' _ IH Hr E]; [by eapply init_wf|].
  pose proof (round_inv r s Hk Hf IH Hr) as H. unfold wp in H. rewrite E in H. apply H.
Qed.

(** C6: The server from start to halt.  In every state reachable from a
    successful initialisation by rounds of the server loop, whatever the
    datagrams on the DHCP, DNS and control sockets contain (DHCP datagrams of at
    most 1019 bytes), the lease table is sound: at most eight leases, no two for
    the same client, no two of the same address, and every address lies in the
    server's subnet and is neither the server's own nor the network nor the
    broadcast address.  From there every further round returns (no access
    outside the message buffer, no endless loop) and only ever adds leases:
    those given stay bound to their clients.  The subnet has at least sixteen
    addresses; twelve tries then find a free one. *)
Theorem dhcp_server_ok s :
  4 ≤ k → (12 ≤ fuel)%nat → reachable s →
  (length (leases s) ≤ MAC_IP_CACHE_SIZE)%nat ∧
  NoDup (client_mac <$> leases s) ∧ NoDup (lease_ip <$> leases s) ∧
  (∀ mac ip, mk_entry mac ip ∈ leases s →
     Z.land ip (netmask s) = Z.land (my_ip s) (netmask s) ∧ ip ≠ my_ip s ∧ ip ≠ net_addr s ∧ ip ≠ bcast_addr s) ∧
  ∀ r, round_ok r → ∃ go s', server_round sendto fuel r s = Done (go, s') ∧ leases s `prefix_of` leases s'.
Proof.
  intros Hk Hf R. pose proof (reachable_wf s Hk Hf R) as W. split_and!; try apply W.
  - unfold leases. rewrite length_take. lia.
  - intros mac ip Hin. pose proof (sw_valid _ _ W) as V. rewrite Forall_forall in V. by apply V in Hin as (_ & ?).
  - intros r Hr.
    pose proof (round_inv r s Hk Hf W Hr) as H. apply wp_inv in H as (go & s' & E & _ & _ & P). eauto.
Qed.
End Life.

(** C38: Choosing an address.  A client with a lease is offered that address
    again and nothing changes.  Any other client gets, after at most twelve
    tries in a subnet of at least sixteen addresses, an address of the subnet
    that is neither the server's, nor the network's, nor the broadcast address,
    nor leased to anyone; the lease is entered while the table has room, and the
    invariant of the server is kept. *)
Theorem next_yiaddr_ok k s b fuel :
  server_wf k s → msg s = Some b → 4 ≤ k → (12 ≤ fuel)%nat →
  let mac := sub b off_chaddr 6 in
  ∃ ip s', next_yiaddr fuel s = Done (ip, s') ∧ server_wf k s' ∧ valid_lease s ip ∧
    match find_mac mac (leases s) with
    | Some old => ip = old ∧ s' = s
    | None => (ip ∉ lease_ip <$> leases s) ∧
        leases s' = if ac_not_full s then leases s ++ [mk_entry mac ip] else leases s
    end.
Proof.
  intros W Hb Hk Hf mac. destruct (next_yiaddr_spec k s fuel W Hk Hf)
    as (b' & ip & s' & Hb' & E & W' & V & _ & _ & _ & _ & _ & L).
  rewrite Hb in Hb'. injection Hb' as <-. exists ip, s'. split_and!; done.
Qed.

(** An exhausted subnet stops the server for good: when every address of the
    subnet is the server's, the network's, the broadcast address or leased, a
    DISCOVER of an unknown client makes the search run for ever, however long
    one waits.  (A subnet of four or eight addresses gets there with one or five
    clients, before the table of eight is full.) *)
Theorem next_yiaddr_exhausted k s b fuel :
  server_wf k s → msg s = Some b → find_mac (sub b off_chaddr 6) (leases s) = None →
  (∀ x, subnet s (ntohl x) → word x → ac_valid_ip x s = false) →
  next_yiaddr fuel s = Trap Hang.
Proof.
  intros W Hb F X. destruct (wf_mac k s W) as (b' & Hb' & R). rewrite Hb in Hb'. injection Hb' as <-.
  unfold next_yiaddr. rewrite (bind_done _ _ _ _ _ R). erewrite bind_done by reflexivity.
  rewrite (proj2 (Z.eqb_eq _ _)) by (by apply (lookup_mac_0 k)).
  erewrite bind_done by reflexivity. unfold bind. rewrite yiaddr_loop_hangs; [done|].
  intros n. change (next_host (set_current_ip ?c s)) with (next_host s). cbn [current_ip set_current_ip].
  rewrite <-Nat.iter_succ_r, (iter_next_host s k (sw_mask _ _ W) (sw_my _ _ W)).
  pose proof (sw_mask _ _ W) as (_ & Hk & _).
  assert (Hh : 0 ≤ (current_ip s + Z.of_nat (S n)) mod 2 ^ k < 2 ^ k) by (apply Z.mod_pos_bound; lia).
  apply X; [by eapply host_subnet; eauto using sw_mask, sw_my|by eapply host_word; eauto using sw_mask].
Qed.

(** The addresses of the subnet, in host order. *)
Lemma subnet_enum k s x : mask_bits (netmask s) k → word (my_ip s) → word x → subnet s (ntohl x) →
  ∃ h, 0 ≤ h < 2 ^ k ∧ x = Z.lor (base s) h.
Proof.
  intros Hm Hmy Hx S. pose proof Hm as (Hw & Hk & _). exists (x mod 2 ^ k).
  split; [apply Z.mod_pos_bound; lia|].
  assert (E : Z.land x (ntohl (netmask s)) = base s).
  { rewrite (base_eq s k Hm Hmy). unfold subnet in S. apply (f_equal ntohl) in S.
    rewrite !ntohl_land, ntohl_invol in S by auto using ntohl_word. done. }
  apply Z.bits_inj'. intros i Hi. rewrite Z.lor_spec, <-E, Z.land_spec.
  destruct (Z.lt_ge_cases i 32) as [L|L].
  - rewrite (mask_bit (netmask s) k) by (done || lia). destruct (Z.ltb_spec i k); cbn [negb].
    + by rewrite andb_false_r, Z.mod_pow2_bits_low by lia.
    + by rewrite andb_true_r, Z.mod_pow2_bits_high, orb_false_r by lia.
  - rewrite (word_high x) by done. rewrite Z.mod_pow2_bits_high by lia. done.
Qed.

(** ** Concrete servers *)
Definition send_all (_ : nat) (l : Z) : Z := l.
Lemma send_all_ok n l : 0 < l → send_all n l = l ∨ send_all n l < 0.
Proof. by left. Qed.

(** 192.168.0.1, with the given netmask. *)
Definition demo_env (nm : Z) : init_env :=
  mk_init_env (Some (replicate SERVER_BUFFER_SIZE 0)) 0 (Some 0x0100a8c0) (Some nm) (Some 0x0100a8c0)
    (mk_sock_env 3 0 0) (mk_sock_env 4 0 0) (mk_sock_env 5 0 0).
Definition blank : dhcp_server_data :=
  mk_dhcps 0 0 0 0 None 0 0 [] 0 0 0 0 0 DEFAULT_DHCP_ADDRESS_TIMEOUT true false 0 [].
Definition run_state {A} (m : M dhcp_server_data A) (s : dhcp_server_data) : dhcp_server_data :=
  match m s with Done (_, s') => s' | Trap _ => s end.
Definition demo_server (nm : Z) : dhcp_server_data := run_state (dhcp_server_init (demo_env nm)) blank.
Definition mask24 : Z := 0x00ffffff.
Definition mask30 : Z := 0xfcffffff.

Lemma demo_env_ok k nm : mask_bits nm k → env_ok k (demo_env nm).
Proof.
  intros H. split_and!.
  - intros b E. apply (inj Some) in E. subst b. split; [apply length_replicate|by apply Forall_replicate].
  - by intros ip [= <-].
  - by intros m [= <-].
Qed.
Lemma mask24_bits : mask_bits mask24 8.
Proof. by split_and!. Qed.
Lemma mask30_bits : mask_bits mask30 2.
Proof. by split_and!. Qed.
Definition starts (nm : Z) : Prop := dhcp_server_init (demo_env nm) blank = Done (0, demo_server nm).
Lemma mask24_starts : starts mask24.
Proof. vm_compute. reflexivity. Qed.
Lemma mask30_starts : starts mask30.
Proof. vm_compute. reflexivity. Qed.
Lemma demo_server_wf k nm : mask_bits nm k → starts nm → server_wf k (demo_server nm).
Proof. intros H S. exact (proj1 (init_wf k (demo_env nm) blank _ (demo_env_ok k nm H) S)). Qed.

(** A client's message: header, options, end mark, padding. *)
Definition client_msg (ci : Z) (mac : list Z) (opts : list Z) : list Z :=
  let m := [BOOTP_OP_REQUEST; 1; 6; 0] ++ [0xde; 0xad; 0xbe; 0xef] ++ [0; 0; 0; 0] ++ le_bytes ci ++
           replicate 12 0 ++ mac ++ replicate 202 0 ++ [99; 130; 83; 99] ++ opts in
  m ++ replicate (SERVER_BUFFER_SIZE - length m) 0.
Definition mac_of (n : Z) : list Z := [2; 0; 0; 0; 0; n].
Definition discover_opts : list Z := [53; 1; DHCP_MESSAGE_DISCOVER; 255].

Lemma dhcp_server_ok_witness :
  ∃ go s', server_round send_all 12 (mk_round 1 (Some (client_msg 0 (mac_of 7) discover_opts)) None None) (demo_server mask24) =
    Done (go, s').
Proof.
  destruct (dhcp_server_ok send_all 8 12 send_all_ok (demo_server mask24)) as (_ & _ & _ & _ & R).
  - lia.
  - lia.
  - eapply (reach_init _ _ _ (demo_env mask24) blank); [apply demo_env_ok, mask24_bits|exact mask24_starts].
  - destruct (R (mk_round 1 (Some (take 300 (client_msg 0 (mac_of 7) discover_opts))) None None)) as (go & s' & _).
    + split_and!; [|done|done]. split; [by apply (bool_decide_unpack _)|by vm_compute; lia].
    + vm_compute. do 2 eexists. reflexivity.
Defined.

Definition asking (nm n : Z) : dhcp_server_data := set_msg (Some (client_msg 0 (mac_of n) discover_opts)) (demo_server nm).
Lemma set_msg_wf k s b : server_wf k s → length b = SERVER_BUFFER_SIZE → all_bytes b → server_wf k (set_msg (Some b) s).
Proof. intros [] L A. split; try done. by exists b. Qed.
Lemma asking_wf k nm n : mask_bits nm k → starts nm → length (client_msg 0 (mac_of n) discover_opts) = SERVER_BUFFER_SIZE →
  all_bytes (client_msg 0 (mac_of n) discover_opts) → server_wf k (asking nm n).
Proof. intros H S L A. exact (set_msg_wf k _ _ (demo_server_wf k nm H S) L A). Qed.
Lemma asking_wf7 : server_wf 8 (asking mask24 7).
Proof.
  apply asking_wf; [apply mask24_bits|apply mask24_starts|vm_compute; reflexivity|].
  apply (bool_decide_unpack _). vm_compute. reflexivity.
Qed.

Lemma next_yiaddr_ok_witness :
  ∃ s', next_yiaddr 12 (asking mask24 7) = Done (0x6400a8c0, s') ∧ leases s' = [mk_entry (mac_of 7) 0x6400a8c0].
Proof.
  destruct (next_yiaddr_ok 8 (asking mask24 7) (client_msg 0 (mac_of 7) discover_opts) 12
    asking_wf7 eq_refl ltac:(lia) ltac:(lia)) as (ip & s' & E & _).
  assert (K : next_yiaddr 12 (asking mask24 7) = Done (0x6400a8c0, run_state (next_yiaddr 12) (asking mask24 7)))
    by (vm_compute; reflexivity).
  rewrite K in E. injection E as _ <-. eexists. split; [exact K|]. vm_compute. reflexivity.
Defined.

(** 192.168.0.1/30 after its one client got 192.168.0.2, asked by a second client. *)
Definition exhausted : dhcp_server_data := run_state (ac_add (mac_of 7) 0x0200a8c0) (asking mask30 8).
Lemma exhausted_wf : server_wf 2 exhausted.
Proof.
  assert (W : server_wf 2 (asking mask30 8)).
  { apply asking_wf; [apply mask30_bits|apply mask30_starts|vm_compute; reflexivity|].
    apply (bool_decide_unpack _). vm_compute. reflexivity. }
  destruct (server_wf_add 2 (asking mask30 8) (mac_of 7) 0x0200a8c0 W) as (b & s' & E & W' & _).
  - split_and!; vm_compute; first [done|discriminate|split; done].
  - vm_compute. reflexivity.
  - vm_compute. apply not_elem_of_nil.
  - unfold exhausted, run_state. rewrite E. exact W'.
Qed.

Lemma next_yiaddr_exhausted_witness : next_yiaddr 1000 exhausted = Trap Hang.
Proof.
  apply (next_yiaddr_exhausted 2 exhausted (client_msg 0 (mac_of 8) discover_opts) 1000 exhausted_wf eq_refl).
  - vm_compute. reflexivity.
  - intros x S Hx. destruct (subnet_enum 2 exhausted x) as (h & Hh & ->); [apply exhausted_wf..|done|done|].
    assert (K : h ∈ seqZ 0 4) by (apply elem_of_seqZ; lia). clear S Hx Hh. vm_compute in K.
    elem_cases K; vm_compute; reflexivity.
Defined.
End Dhcpd.
