(* ===== verification/DhcpdTalk.v ===== *)
(** * Conversations with the DHCP server

    What a well-formed DISCOVER, REQUEST or DNS query is answered: the parser
    follows the encoded options in any order, the decision on a requested
    address is the one of the lease table, and the response built in the message
    buffer has the promised fields.  Definitions modelling code are in Dhcpd. *)
From S2P Require Import Prelude Bytes Dhcpd.
Import Dhcpd.
Local Open Scope Z_scope.

Module DhcpdTalk.

(** ** Well-formed DHCP messages *)
Definition enc_opt (o : Z * list Z) : list Z := o.1 :: Z.of_nat (length o.2) :: o.2.
Definition enc_opts (opts : list (Z * list Z)) : list Z := concat (enc_opt <$> opts).

(** An option the parser walks over as written. *)
Definition opt_ok (o : Z * list Z) : Prop := o.1 ≠ BOOTP_END_OPTION ∧ (length o.2 < 256)%nat.

(** Buffer [b] holds a message of [len] bytes with that client, address field and options. *)
Record is_dhcp (b : list Z) (len : nat) (mac : list Z) (ci : Z) (opts : list (Z * list Z)) : Prop := {
  dm_len : length b = SERVER_BUFFER_SIZE;
  dm_bytes : all_bytes b;
  dm_op : sub b 0 1 = [BOOTP_OP_REQUEST] ∨ sub b 0 1 = [BOOTP_OP_RESPONSE];
  dm_hw : sub b 1 2 = [1; 6];
  dm_ci : word ci ∧ sub b off_ciaddr 4 = le_bytes ci;
  dm_mac : sub b off_chaddr 6 = mac;
  dm_opts : Forall opt_ok opts;
  dm_enc : sub b sizeof_bootp_header (length (enc_opts opts ++ [BOOTP_END_OPTION])) = enc_opts opts ++ [BOOTP_END_OPTION];
  dm_total : len = (sizeof_bootp_header + length (enc_opts opts ++ [BOOTP_END_OPTION]))%nat;
  dm_max : (len ≤ SERVER_BUFFER_SIZE)%nat }.

Lemma sub_prefix b o l r : sub b o (length (l ++ r)) = l ++ r → (o + length (l ++ r) ≤ length b)%nat →
  sub b o (length l) = l ∧ sub b (o + length l) (length r) = r.
Proof.
  intros E L. rewrite length_app, sub_add in E. rewrite length_app in L.
  apply app_inj_1 in E; [done|]. apply length_sub. lia.
Qed.

Lemma rd_eq s b o n : msg s = Some b → (o + n ≤ length b)%nat → rd o n s = Done (sub b o n, s).
Proof. intros Hb H. unfold rd. by rewrite Hb, (proj2 (Nat.leb_le _ _)). Qed.
Lemma rd8_eq s b o x : msg s = Some b → (o + 1 ≤ length b)%nat → sub b o 1 = [x] → rd8 o s = Done (x, s).
Proof. intros Hb H E. unfold rd8. erewrite bind_done by (by apply rd_eq). by rewrite E. Qed.
Lemma rd32_eq s b o x : msg s = Some b → (o + 4 ≤ length b)%nat → word x → sub b o 4 = le_bytes x →
  rd32 o s = Done (x, s).
Proof. intros Hb H Hx E. unfold rd32. erewrite bind_done by (by apply rd_eq). by rewrite E, le32_bytes. Qed.

(** ** The decision on a requested address *)
Section Decision.
Context (k : Z) (s0 : dhcp_server_data) (b : list Z) (len : nat) (mac : list Z) (ci ip : Z) (opts : list (Z * list Z)).
Context (kind : Z).
Hypothesis (W : server_wf k s0) (Hmsg : msg s0 = Some b) (Hb : is_dhcp b len mac ci opts) (Hip : word ip).
(** One message-type option of that kind, at most one requested address, and
    for a request with an address in the header that address and no other. *)
Hypothesis (Hkind : kind = DHCP_MESSAGE_DISCOVER ∨ kind = DHCP_MESSAGE_REQUEST).
Definition opts_ok : Prop :=
  Forall (λ o, (o.1 = BOOTP_OPTION_DHCP_MESSAGE → o.2 = [kind]) ∧
               (o.1 = BOOTP_OPTION_REQUESTED_IP → o.2 = le_bytes ip ∧ (kind = DHCP_MESSAGE_REQUEST → ci = 0))) opts ∧
  (kind = DHCP_MESSAGE_REQUEST → ci ≠ 0 → ci = ip).
Hypothesis (Hopts : opts_ok).

(** The server may lease [ip] to [mac]. *)
Definition may_lease : bool :=
  (Z.land ip (netmask s0) =? Z.land (my_ip s0) (netmask s0)) &&
  match find_mac mac (leases s0) with
  | Some old => old =? ip
  | None => ac_valid_ip (ntohl ip) s0
  end.

(** The state after the decision. *)
Definition decided : dhcp_server_data :=
  let s := set_client_ip ip s0 in
  if may_lease && ac_not_full s0 && match find_mac mac (leases s0) with Some _ => false | None => true end
  then set_cache (S (count_clients s)) (<[count_clients s := mk_entry mac ip]> (ip_mac_mapping s)) s
  else s.

Lemma decided_conf : netmask decided = netmask s0 ∧ my_ip decided = my_ip s0 ∧ msg decided = Some b ∧
  client_ip decided = ip ∧ set_client_ip ip decided = decided.
Proof. unfold decided. rewrite <-Hmsg. by destruct (_ && _ && _). Qed.

Lemma client_wf : server_wf k (set_client_ip ip s0).
Proof. by destruct W. Qed.

Lemma decided_leases : server_wf k decided ∧
  leases decided = if may_lease && ac_not_full s0 && match find_mac mac (leases s0) with Some _ => false | None => true end
    then leases s0 ++ [mk_entry mac ip] else leases s0.
Proof.
  unfold decided. destruct (may_lease && ac_not_full s0 && _) eqn:D.
  2: { split; [apply client_wf|done]. }
  apply andb_true_iff in D as [[D1 D2]%andb_true_iff D3]. unfold may_lease in D1.
  destruct (find_mac mac (leases s0)) eqn:F; [done|]. apply andb_true_iff in D1 as [S V]. apply Z.eqb_eq in S.
  apply (valid_ip_spec k s0) in V as [V NI]; [|done..].
  destruct (server_wf_add k (set_client_ip ip s0) mac ip client_wf V F NI) as (r & s' & A & W' & L & _).
  unfold ac_add in A. change (ac_not_full (set_client_ip ip s0)) with (ac_not_full s0) in A, L.
  rewrite D2 in A, L. injection A as <- <-. split; [exact W'|exact L].
Qed.

Lemma check_first r n : check_client_ip (mk_loc r false n true) (set_client_ip ip s0) =
  Done (mk_loc r may_lease n true, decided).
Proof.
  pose proof Hb as []. unfold check_client_ip. erewrite bind_done by reflexivity. unfold id.
  cbn [client_ip netmask my_ip set_client_ip].
  unfold decided, may_lease. destruct (_ =? Z.land (my_ip s0) (netmask s0)); cbn [andb]; [|done].
  rewrite (bind_done _ _ _ mac (set_client_ip ip s0)).
  2: { rewrite (rd_eq _ b); [by rewrite dm_mac0|done|]. rewrite dm_len0. unfold off_chaddr, SERVER_BUFFER_SIZE. lia. }
  erewrite bind_done by reflexivity.
  pose proof (lookup_mac_0 k _ mac client_wf) as L0. change (leases (set_client_ip ip s0)) with (leases s0) in L0.
  unfold ac_lookup_mac in *. change (leases (set_client_ip ip s0)) with (leases s0) in *.
  destruct (find_mac mac (leases s0)) as [old|] eqn:F.
  - rewrite (proj2 (Z.eqb_neq _ _)) by (intros E; by apply L0 in E). cbn [negb].
    rewrite !andb_false_r. done.
  - cbn [default negb Z.eqb CLIENT_IP_NOT_FOUND]. rewrite andb_true_r.
    change (ac_valid_ip (ntohl ip) (set_client_ip ip s0)) with (ac_valid_ip (ntohl ip) s0).
    destruct (ac_valid_ip (ntohl ip) s0); cbn [andb]; [|done].
    change (ac_not_full (set_client_ip ip s0)) with (ac_not_full s0).
    destruct (ac_not_full s0) eqn:NF; [|done]. unfold ac_add, bind.
    change (ac_not_full (set_client_ip ip s0)) with (ac_not_full s0). by rewrite NF.
Qed.

Lemma check_again r n : check_client_ip (mk_loc r may_lease n true) decided =
  Done (mk_loc r may_lease n true, decided).
Proof.
  pose proof Hb as []. destruct decided_conf as (E1 & E2 & E3 & E4 & _). destruct decided_leases as [WD LD].
  unfold check_client_ip. erewrite bind_done by reflexivity. unfold id. rewrite E1, E2, E4.
  destruct (Z.land ip (netmask s0) =? Z.land (my_ip s0) (netmask s0)) eqn:S; [|done].
  rewrite (bind_done _ _ _ mac decided).
  2: { rewrite (rd_eq _ b); [by rewrite dm_mac0|done|]. rewrite dm_len0. unfold off_chaddr, SERVER_BUFFER_SIZE. lia. }
  erewrite bind_done by reflexivity. pose proof (lookup_mac_0 k _ mac WD) as L0.
  unfold ac_lookup_mac in *. rewrite LD in *.
  destruct (find_mac mac (leases s0)) as [old|] eqn:F.
  - rewrite !andb_false_r in *. rewrite F in *.
    rewrite (proj2 (Z.eqb_neq _ _)) by (intros E; by apply L0 in E). cbn [negb].
    unfold may_lease. rewrite S, F. done.
  - rewrite andb_true_r in *. destruct (may_lease && ac_not_full s0) eqn:D.
    + apply andb_true_iff in D as [D1 D2]. rewrite D1.
      assert (FA : find_mac mac (leases s0 ++ [mk_entry mac ip]) = Some ip).
      { clear -F. induction (leases s0) as [|e l IH]; simpl in *; [by rewrite bool_decide_true|].
        case_bool_decide; [done|]. by apply IH. }
      rewrite FA in *. rewrite (proj2 (Z.eqb_neq _ _)) by (intros E; by apply L0 in E). cbn [negb default].
      unfold default. simpl. by rewrite Z.eqb_refl.
    + rewrite F. cbn [default negb Z.eqb CLIENT_IP_NOT_FOUND].
      assert (ED : decided = set_client_ip ip s0).
      { unfold decided. rewrite F, andb_true_r, D. done. }
      rewrite ED. change (ac_valid_ip (ntohl ip) (set_client_ip ip s0)) with (ac_valid_ip (ntohl ip) s0).
      destruct (ac_valid_ip (ntohl ip) s0) eqn:V; [|done].
      change (ac_not_full (set_client_ip ip s0)) with (ac_not_full s0).
      assert (M : may_lease = true) by (unfold may_lease; by rewrite S, F).
      rewrite M in *. cbn [andb] in D. by rewrite D.
Qed.

(** ** Walking the options *)
Definition st (seen : bool) : dhcp_server_data := if seen then decided else s0.
Definition is_req : bool := kind =? DHCP_MESSAGE_REQUEST.
Definition lcf (n seen : bool) : locals :=
  mk_loc (if n then if is_req then (if seen && may_lease then DHCP_MESSAGE_ACK else DHCP_MESSAGE_NAK) else DHCP_MESSAGE_OFFER
          else DHCP_NO_RESPONSE)
    (seen && may_lease) (n && is_req) seen.

Definition n_step (o : Z * list Z) (n : bool) : bool := n || (o.1 =? BOOTP_OPTION_DHCP_MESSAGE).
Definition seen_step (o : Z * list Z) (seen : bool) : bool :=
  seen || (o.1 =? BOOTP_OPTION_REQUESTED_IP) || ((o.1 =? BOOTP_OPTION_DHCP_MESSAGE) && is_req && negb (ci =? 0)).

Lemma st_msg seen : msg (st seen) = Some b.
Proof. destruct seen; [apply decided_conf|done]. Qed.
Lemma st_client seen : set_client_ip ip (st seen) = if seen then decided else set_client_ip ip s0.
Proof. destruct seen; [apply decided_conf|done]. Qed.

(** The check that ends an iteration. *)
Lemma check_step r (n seen : bool) : 
  check_client_ip (mk_loc r (seen && may_lease) n true) (set_client_ip ip (st seen)) =
  Done (mk_loc r may_lease n true, decided).
Proof. rewrite st_client. destruct seen; cbn [andb]; [apply check_again|apply check_first]. Qed.

Lemma process_option_step off t v n seen :
  sub b off (length (enc_opt (t, v))) = enc_opt (t, v) → (off + length (enc_opt (t, v)) ≤ length b)%nat →
  (length v < 256)%nat →
  (t = BOOTP_OPTION_DHCP_MESSAGE → v = [kind]) →
  (t = BOOTP_OPTION_REQUESTED_IP → v = le_bytes ip ∧ (kind = DHCP_MESSAGE_REQUEST → ci = 0)) →
  process_option off (lcf n seen) (st seen) =
  Done ((lcf (n_step (t, v) n) (seen_step (t, v) seen), length (enc_opt (t, v))), st (seen_step (t, v) seen)).
Proof.
  intros E L Lv H53 H50. pose proof Hb as []. pose proof (st_msg seen) as HM.
  assert (E2 : sub b (off + 2) (length v) = v).
  { change (enc_opt (t, v)) with ([t; Z.of_nat (length v)] ++ v) in E, L. by apply sub_prefix in E as [_ E]. }
  assert (Et : sub b off 1 = [t] ∧ sub b (off + 1) 1 = [Z.of_nat (length v)]).
  { change (enc_opt (t, v)) with ([t] ++ [Z.of_nat (length v)] ++ v) in E, L.
    apply sub_prefix in E as [A E]; [|done]. split; [done|]. rewrite length_app in L.
    apply sub_prefix in E as [B _]; [done|]. simpl in *. lia. }
  destruct Et as [Et El]. cbn [length enc_opt fst snd] in L. unfold process_option.
  erewrite bind_done by (apply (rd8_eq _ b); [done|lia|exact Et]).
  erewrite bind_done by (apply (rd8_eq _ b); [done|lia|exact El]).
  rewrite Nat2Z.id. cbn [length enc_opt fst snd]. unfold n_step, seen_step. cbn [fst].
  destruct (Z.eqb_spec t BOOTP_OPTION_DHCP_MESSAGE) as [T|T].
  - rewrite (H53 T) in E2, L |- *. rewrite T.
    change (Z.of_nat (length [kind]) =? 1) with true. cbn [andb].
    rewrite orb_true_r, orb_false_r. unfold BOOTP_OPTION_DHCP_MESSAGE, BOOTP_OPTION_REQUESTED_IP.
    cbn [Z.eqb Pos.eqb andb].
    destruct Hkind as [K|K]; unfold is_req in *; rewrite K in *.
    + rewrite (bind_done _ _ _ (mk_loc DHCP_MESSAGE_OFFER (seen && may_lease) false seen) (st seen)).
      2: { erewrite bind_done by (apply (rd8_eq _ b); [done|simpl in L; lia|exact E2]).
           unfold lcf. unfold is_req. rewrite K. cbn. by rewrite andb_false_r. }
      erewrite bind_done by reflexivity. cbn [DHCP_MESSAGE_DISCOVER DHCP_MESSAGE_REQUEST Z.eqb andb].
      rewrite orb_false_r. unfold lcf, is_req. rewrite K.
      cbn [DHCP_MESSAGE_DISCOVER DHCP_MESSAGE_REQUEST Z.eqb Pos.eqb andb got_client_ip].
      destruct seen; [|done]. cbn [andb].
      rewrite (bind_done _ _ _ _ _ (check_again DHCP_MESSAGE_OFFER false)). done.
    + rewrite (bind_done _ _ _ (mk_loc (response_type (lcf n seen)) (seen && may_lease) true
        (seen || negb (ci =? 0))) (if ci =? 0 then st seen else set_client_ip ip (st seen))).
      2: { erewrite bind_done by (apply (rd8_eq _ b); [done|simpl in L; lia|exact E2]).
           cbn [DHCP_MESSAGE_DISCOVER DHCP_MESSAGE_REQUEST Z.eqb Pos.eqb].
           destruct dm_ci0 as [Wci Eci].
           erewrite bind_done by (apply (rd32_eq _ b); [done| |exact Wci|exact Eci];
             rewrite dm_len0; unfold off_ciaddr, SERVER_BUFFER_SIZE; lia).
           destruct (Z.eqb_spec ci 0) as [Z0|Z0]; cbn [negb]; [by rewrite orb_false_r|].
           rewrite orb_true_r. rewrite <-(proj2 Hopts K Z0). done. }
      erewrite bind_done by reflexivity. cbn [DHCP_MESSAGE_REQUEST Z.eqb Pos.eqb andb].
      cbn [got_client_ip].
      unfold lcf, is_req. rewrite K. cbn [DHCP_MESSAGE_REQUEST Z.eqb Pos.eqb andb].
      destruct (Z.eqb_spec ci 0) as [Z0|Z0]; cbn [negb]; rewrite ?orb_false_r, ?orb_true_r.
      * destruct seen; [|done]. cbn [andb]. erewrite bind_done by apply check_again. done.
      * erewrite bind_done by apply check_step. done.
  - cbn [andb]. rewrite (bind_done _ _ _ (lcf n seen) (st seen)) by done.
    rewrite !orb_false_r.
    destruct (Z.eqb_spec t BOOTP_OPTION_REQUESTED_IP) as [T5|T5].
    + destruct (H50 T5) as [Ev _]. rewrite Ev in E2, L |- *. 
      change (Z.of_nat (length (le_bytes ip)) =? 4) with true. cbn [andb].
      rewrite (bind_done _ _ _ (mk_loc (response_type (lcf n seen)) (seen && may_lease) (n && is_req) true)
        (set_client_ip ip (st seen))).
      2: { erewrite bind_done by (apply (rd32_eq _ b); [done|simpl in L; lia|exact Hip|exact E2]). done. }
      cbn [got_client_ip]. erewrite bind_done by apply check_step. rewrite orb_true_r.
      unfold lcf. cbn [need_ip got_ip response_type got_client_ip st andb]. by destruct n, is_req.
    + cbn [andb]. rewrite (bind_done _ _ _ (lcf n seen) (st seen)) by done. rewrite orb_false_r.
      change (got_client_ip (lcf n seen)) with seen. destruct seen.
      * erewrite bind_done by apply check_again. unfold lcf. cbn [need_ip got_ip response_type got_client_ip andb]. by destruct n, is_req.
      * erewrite bind_done by reflexivity. unfold lcf. cbn [need_ip got_ip response_type got_client_ip andb]. by destruct n, is_req.
Qed.

Definition n_all (l : list (Z * list Z)) (n : bool) : bool := foldl (λ n o, n_step o n) n l.
Definition seen_all (l : list (Z * list Z)) (seen : bool) : bool := foldl (λ x o, seen_step o x) seen l.

Lemma option_loop_opts l fuel off n seen :
  Forall opt_ok l →
  Forall (λ o, (o.1 = BOOTP_OPTION_DHCP_MESSAGE → o.2 = [kind]) ∧
               (o.1 = BOOTP_OPTION_REQUESTED_IP → o.2 = le_bytes ip ∧ (kind = DHCP_MESSAGE_REQUEST → ci = 0))) l →
  sub b off (length (enc_opts l ++ [BOOTP_END_OPTION])) = enc_opts l ++ [BOOTP_END_OPTION] →
  (off + length (enc_opts l ++ [BOOTP_END_OPTION]) ≤ length b)%nat → (length l < fuel)%nat →
  option_loop fuel (Z.of_nat (length (enc_opts l ++ [BOOTP_END_OPTION]))) off (lcf n seen) (st seen) =
  Done (lcf (n_all l n) (seen_all l seen), st (seen_all l seen)).
Proof.
  revert fuel off n seen. induction l as [|[t v] l IH]; intros [|fuel] off n seen Ho Hs E L Hf; try (simpl in Hf; lia).
  - cbn [option_loop]. rewrite (proj2 (Z.ltb_lt _ _)) by (simpl; lia).
    erewrite bind_done by (apply (rd8_eq _ b); [apply st_msg|simpl in L; lia|exact E]). done.
  - apply Forall_cons in Ho as [[Ht Hv] Ho]. apply Forall_cons in Hs as [[S1 S2] Hs].
    assert (EE : enc_opts ((t, v) :: l) ++ [BOOTP_END_OPTION] = enc_opt (t, v) ++ (enc_opts l ++ [BOOTP_END_OPTION])).
    { unfold enc_opts. rewrite fmap_cons. cbn [concat]. by rewrite app_assoc. }
    rewrite EE in E, L |- *. apply sub_prefix in E as [E1 E2]; [|done]. rewrite length_app in L |- *.
    assert (E0 : sub b off 1 = [t]).
    { change (enc_opt (t, v)) with ([t] ++ Z.of_nat (length v) :: v) in E1, L.
      apply sub_prefix in E1 as [E1 _]; [done|lia]. }
    cbn [option_loop]. rewrite (proj2 (Z.ltb_lt _ _)) by (simpl; lia).
    erewrite bind_done by (apply (rd8_eq _ b); [apply st_msg|simpl in L; lia|exact E0]).
    rewrite (proj2 (Z.eqb_neq _ _)) by exact Ht.
    erewrite bind_done by (apply process_option_step; [exact E1|lia|exact Hv|exact S1|exact S2]).
    change (n_all ((t, v) :: l) n) with (n_all l (n_step (t, v) n)).
    change (seen_all ((t, v) :: l) seen) with (seen_all l (seen_step (t, v) seen)).
    rewrite <-(IH fuel (off + length (enc_opt (t, v)))%nat (n_step (t, v) n) (seen_step (t, v) seen)
      Ho Hs E2 ltac:(lia) ltac:(simpl in Hf; lia)).
    f_equal. lia.
Qed.

Lemma n_all_spec l n : n_all l n = true ↔ n = true ∨ ∃ o, o ∈ l ∧ o.1 = BOOTP_OPTION_DHCP_MESSAGE.
Proof.
  revert n. induction l as [|o l IH]; intros n; [simpl; set_solver|].
  change (n_all (o :: l) n) with (n_all l (n_step o n)).
  rewrite IH. unfold n_step. rewrite orb_true_iff, Z.eqb_eq. set_solver.
Qed.
Lemma seen_all_mono l : seen_all l true = true.
Proof. induction l as [|o l IH]; [done|exact IH]. Qed.

(** The options contain a message type, and the message names an address. *)
Definition has_type : Prop := ∃ v, (BOOTP_OPTION_DHCP_MESSAGE, v) ∈ opts.
Definition has_addr : Prop := (kind = DHCP_MESSAGE_REQUEST ∧ ci ≠ 0) ∨ ∃ v, (BOOTP_OPTION_REQUESTED_IP, v) ∈ opts.

Lemma seen_all_in l o seen : o ∈ l → seen_step o false = true → seen_all l seen = true.
Proof.
  revert seen. induction l as [|x l IH]; intros seen Ho Hs; [by apply not_elem_of_nil in Ho|].
  change (seen_all (x :: l) seen) with (seen_all l (seen_step x seen)).
  apply elem_of_cons in Ho as [->|Ho]; [|by apply IH].
  assert (E : seen_step x seen = true) by (destruct seen; [done|exact Hs]). rewrite E. apply seen_all_mono.
Qed.
Lemma seen_all_addr : has_type → has_addr → seen_all opts false = true.
Proof.
  intros [v Hv] [[K Hc]|[w Hw]].
  - eapply seen_all_in; [exact Hv|]. unfold seen_step, is_req. rewrite K. cbn.
    by rewrite (proj2 (Z.eqb_neq _ _)).
  - eapply seen_all_in; [exact Hw|]. done.
Qed.

Lemma process_parsed sendto fuel :
  has_type → process_dhcp_message sendto fuel len s0 =
  (respond sendto fuel (response_type (lcf true (seen_all opts false))) ;;; ret 0) (st (seen_all opts false)).
Proof.
  intros HT. pose proof Hb as []. unfold process_dhcp_message. erewrite bind_done by reflexivity. rewrite Hmsg.
  assert (Lm : (1 ≤ length opts ∧ 2 * length opts ≤ length (enc_opts opts))%nat).
  { split; [destruct HT as [v Hv]; destruct opts; [by apply not_elem_of_nil in Hv|simpl; lia]|].
    clear. induction opts as [|[t v] l IH]; [done|]. unfold enc_opts in *. rewrite fmap_cons. simpl. rewrite length_app. lia. }
  rewrite length_app in dm_total0. cbn [length] in dm_total0. unfold sizeof_bootp_header in dm_total0.
  rewrite (proj2 (Nat.ltb_ge _ _)) by (unfold sizeof_bootp_header; lia).
  assert (OP : ∃ op, sub b 0 1 = [op] ∧ (op =? BOOTP_OP_REQUEST) || (op =? BOOTP_OP_RESPONSE) = true).
  { destruct dm_op0 as [->| ->]; by eexists. }
  destruct OP as (op & Eop & Hop). 
  erewrite bind_done by (apply (rd8_eq _ b); [done| |exact Eop]; rewrite dm_len0; unfold SERVER_BUFFER_SIZE; lia).
  rewrite Hop. cbn [negb]. change [1; 6] with ([1] ++ [6]) in dm_hw0.
  change 2%nat with (length ([1] ++ [6])) in dm_hw0 at 1.
  apply sub_prefix in dm_hw0 as [H1 H2]; [|rewrite dm_len0; unfold SERVER_BUFFER_SIZE; simpl; lia].
  erewrite bind_done by (apply (rd8_eq _ b); [done| |exact H1]; rewrite dm_len0; unfold SERVER_BUFFER_SIZE; lia).
  erewrite bind_done by (apply (rd8_eq _ b); [done| |exact H2]; rewrite dm_len0; unfold SERVER_BUFFER_SIZE; lia).
  cbn [Z.eqb Pos.eqb negb orb].
  assert (N : n_all opts false = true).
  { apply n_all_spec. right. destruct HT as [v Hv]. by exists (BOOTP_OPTION_DHCP_MESSAGE, v). }
  rewrite (bind_done _ _ _ (lcf true (seen_all opts false)) (st (seen_all opts false))).
  - unfold lcf at 1. cbn [response_type]. destruct is_req; [|done]. by destruct (_ && _).
  - rewrite <-N. etransitivity; [|apply (option_loop_opts opts (S len) sizeof_bootp_header false false)]; try done.
    + rewrite length_app. cbn [length]. f_equal. unfold sizeof_bootp_header. lia.
    + apply Hopts.
    + rewrite length_app, dm_len0. cbn [length]. unfold sizeof_bootp_header, SERVER_BUFFER_SIZE in *. lia.
    + lia.
Qed.
End Decision.

(** ** Responses *)
(** Fields of a buffer: offset, length, content. *)
Definition has (b : list Z) (fs : list (nat * nat * list Z)) : Prop :=
  length b = SERVER_BUFFER_SIZE ∧ Forall (λ f, sub b f.1.1 f.1.2 = f.2) fs.
Definition apart (off n : nat) (f : nat * nat * list Z) : bool :=
  (f.1.1 + f.1.2 <=? off)%nat || (off + n <=? f.1.1)%nat.

Lemma wr_step s b off bs fs :
  msg s = Some b → has b fs → (off + length bs ≤ SERVER_BUFFER_SIZE)%nat → forallb (apart off (length bs)) fs = true →
  ∃ b', wr off bs s = Done (tt, set_msg (Some b') s) ∧ has b' ((off, length bs, bs) :: fs).
Proof.
  intros Hm [L F] Ho D. exists (write_at b off bs). unfold wr. rewrite Hm, L, (proj2 (Nat.leb_le _ _)) by done.
  split; [done|]. split; [rewrite length_write_at; lia|]. constructor.
  - simpl. apply sub_write_same. lia.
  - rewrite forallb_forall in D. rewrite Forall_forall in F |- *. intros f Hf.
    rewrite <-(F f Hf). apply list_elem_of_In, D in Hf. unfold apart in Hf.
    apply orb_true_iff in Hf as [Hf|Hf]; apply Nat.leb_le in Hf.
    + apply sub_write_before; lia.
    + apply sub_write_after; lia.
Qed.

Lemma wr_opt_step s b off t bs fs :
  msg s = Some b → has b fs → (off + 2 + length bs ≤ SERVER_BUFFER_SIZE)%nat →
  forallb (apart off (2 + length bs)) fs = true →
  ∃ b', wr_opt off t bs s = Done ((off + (2 + length bs))%nat, set_msg (Some b') s) ∧
    has b' ((off, (2 + length bs)%nat, enc_opt (t, bs)) :: fs).
Proof.
  intros Hm H Ho D. destruct (wr_step s b off (enc_opt (t, bs)) fs) as (b' & E & H'); [done|done|simpl; lia|done|].
  exists b'. split; [|done]. unfold wr_opt. by erewrite bind_done by exact E.
Qed.

(** The message buffer plays no part in the choice of an address but for the client's MAC. *)
Lemma yiaddr_loop_msg fuel s b :
  yiaddr_loop fuel (set_msg b s) =
  match yiaddr_loop fuel s with Done (r, s1) => Done (r, set_msg b s1) | Trap t => Trap t end.
Proof.
  revert s. induction fuel as [|fuel IH]; intros s; [done|]. cbn [yiaddr_loop].
  unfold bind, gets, modify.
  change (ac_valid_ip (current_ip (set_msg b s)) (set_msg b s)) with (ac_valid_ip (current_ip s) s).
  destruct (ac_valid_ip (current_ip s) s); [done|]. apply (IH (set_current_ip (next_host s (current_ip s)) s)).
Qed.
Lemma next_yiaddr_msg fuel s b b' yi s1 :
  msg s = Some b → length b = SERVER_BUFFER_SIZE → length b' = SERVER_BUFFER_SIZE →
  sub b' off_chaddr 6 = sub b off_chaddr 6 → next_yiaddr fuel s = Done (yi, s1) →
  next_yiaddr fuel (set_msg (Some b') s) = Done (yi, set_msg (Some b') s1).
Proof.
  intros Hm L L' E. unfold next_yiaddr.
  assert (B : (off_chaddr + 6 ≤ SERVER_BUFFER_SIZE)%nat) by (unfold off_chaddr, SERVER_BUFFER_SIZE; lia).
  rewrite (bind_done (rd _ _) _ s _ _ (rd_eq s b off_chaddr 6 Hm ltac:(lia))).
  rewrite (bind_done (rd _ _) _ _ _ _ (rd_eq (set_msg (Some b') s) b' off_chaddr 6 eq_refl ltac:(lia))).
  rewrite E. unfold gets, modify, bind.
  change (ac_lookup_mac (sub b off_chaddr 6) (set_msg (Some b') s)) with (ac_lookup_mac (sub b off_chaddr 6) s).
  destruct (_ =? CLIENT_IP_NOT_FOUND).
  - change (set_current_ip (next_host (set_msg (Some b') s) (current_ip (set_msg (Some b') s))) (set_msg (Some b') s))
      with (set_msg (Some b') (set_current_ip (next_host s (current_ip s)) s)).
    rewrite yiaddr_loop_msg. destruct (yiaddr_loop fuel _) as [[[] s2]|]; [|done].
    unfold ac_add, ret. change (ac_not_full (set_msg (Some b') s2)) with (ac_not_full s2).
    destruct (ac_not_full s2); intros H; injection H as <- <-; reflexivity.
  - unfold ret. intros [= <- <-]. reflexivity.
Qed.

(** A response as the client sees it. *)
Record response (p : list Z) (s : dhcp_server_data) (type yi : Z) (xid mac : list Z) : Prop := {
  rp_len : length p = if type =? DHCP_MESSAGE_NAK then 243%nat else 274%nat;
  rp_op : sub p 0 4 = [BOOTP_OP_RESPONSE; 1; 6; 0];
  rp_xid : sub p 4 4 = xid;
  rp_yi : sub p off_yiaddr 4 = le_bytes yi;
  rp_mac : sub p off_chaddr 6 = mac;
  rp_type : sub p 240 3 = enc_opt (BOOTP_OPTION_DHCP_MESSAGE, [type]);
  rp_conf : type ≠ DHCP_MESSAGE_NAK →
    sub p 243 31 = enc_opts [(BOOTP_OPTION_SUBNET_MASK, write_u32 (netmask s));
      (BOOTP_OPTION_ADDRESS_TIME, write_u32 (htonl (dhcp_address_timeout s)));
      (BOOTP_OPTION_DHCP_SERVER_ID, write_u32 (my_ip s)); (BOOTP_OPTION_ROUTER, write_u32 (router_ip s));
      (BOOTP_OPTION_NAMESERVER, write_u32 (if dhcp_nack_dns_server_handler s then router_ip s else 0))]
      ++ [BOOTP_END_OPTION] }.

(** The same on the whole buffer, of which the response is the first part. *)
Definition resp_fields (s : dhcp_server_data) (type yi : Z) (xid mac : list Z) : list (nat * nat * list Z) :=
  [(0, 4, [BOOTP_OP_RESPONSE; 1; 6; 0]%Z); (4, 4, xid); (off_yiaddr, 4, le_bytes yi); (off_chaddr, 6, mac);
   (240, 3, enc_opt (BOOTP_OPTION_DHCP_MESSAGE, [type]))]%nat ++
  if type =? DHCP_MESSAGE_NAK then [] else
  [(243, 6, enc_opt (BOOTP_OPTION_SUBNET_MASK, write_u32 (netmask s)));
   (249, 6, enc_opt (BOOTP_OPTION_ADDRESS_TIME, write_u32 (htonl (dhcp_address_timeout s))));
   (255, 6, enc_opt (BOOTP_OPTION_DHCP_SERVER_ID, write_u32 (my_ip s)));
   (261, 6, enc_opt (BOOTP_OPTION_ROUTER, write_u32 (router_ip s)));
   (267, 6, enc_opt (BOOTP_OPTION_NAMESERVER, write_u32 (if dhcp_nack_dns_server_handler s then router_ip s else 0)));
   (273, 1, [BOOTP_END_OPTION])]%nat.

Definition resp_len (type : Z) : nat := if type =? DHCP_MESSAGE_NAK then 243 else 274.

Lemma has_in b fs o n x : has b fs → (o, n, x) ∈ fs → sub b o n = x.
Proof. intros [_ F] H. rewrite Forall_forall in F. exact (F _ H). Qed.
Lemma has_sub b fs fs' : has b fs → (∀ f, f ∈ fs' → f ∈ fs) → has b fs'.
Proof. intros [L F] H. split; [done|]. rewrite Forall_forall in *. auto. Qed.

Lemma sub_fields p o : sub p o (6 + (6 + (6 + (6 + (6 + 1))))) =
  sub p o 6 ++ sub p (o + 6) 6 ++ sub p (o + 6 + 6) 6 ++ sub p (o + 6 + 6 + 6) 6 ++
  sub p (o + 6 + 6 + 6 + 6) 6 ++ sub p (o + 6 + 6 + 6 + 6 + 6) 1.
Proof. by rewrite !(sub_add p). Qed.

Lemma response_of s b type yi xid mac :
  has b (resp_fields s type yi xid mac) → response (sub b 0 (resp_len type)) s type yi xid mac.
Proof.
  intros H. pose proof (proj1 H) as L. unfold SERVER_BUFFER_SIZE in L.
  assert (K : ∀ o n x, (o + n ≤ resp_len type)%nat → (o, n, x) ∈ resp_fields s type yi xid mac →
    sub (sub b 0 (resp_len type)) o n = x).
  { intros o n x Ho Hin. rewrite sub_sub by done. by apply (has_in b _ _ _ _ H). }
  assert (LP : length (sub b 0 (resp_len type)) = resp_len type).
  { apply length_sub. unfold resp_len. destruct (_ =? _); lia. }
  set (p := sub b 0 (resp_len type)) in *. clearbody p.
  assert (RL : (243 ≤ resp_len type ≤ 274)%nat) by (unfold resp_len; destruct (_ =? _); lia).
  split; try (apply K; [unfold off_yiaddr, off_chaddr; lia|set_solver]).
  - exact LP.
  - intros N. unfold resp_fields, resp_len in *. rewrite (proj2 (Z.eqb_neq _ _)) in * by done.
    pose proof (λ i o n x Ho (H : _ !! i = Some (o, n, x)), K o n x Ho (list_elem_of_lookup_2 _ i _ H)) as K'.
    etransitivity; [exact (sub_fields p 243)|].
    exact (f_equal2 app (K' 5 243 6 _ ltac:(lia) eq_refl) (f_equal2 app (K' 6 249 6 _ ltac:(lia) eq_refl)
      (f_equal2 app (K' 7 255 6 _ ltac:(lia) eq_refl) (f_equal2 app (K' 8 261 6 _ ltac:(lia) eq_refl)
      (f_equal2 app (K' 9 267 6 _ ltac:(lia) eq_refl) (K' 10 273 1 _ ltac:(lia) eq_refl))))))%nat.
Qed.

(** The address put into the response, and the state its choice leads to. *)
Definition chosen (fuel : nat) (type : Z) (s : dhcp_server_data) (yi : Z) (s1 : dhcp_server_data) : Prop :=
  if type =? DHCP_MESSAGE_OFFER then next_yiaddr fuel s = Done (yi, s1) ∧ same_conf s s1
  else yi = (if type =? DHCP_MESSAGE_ACK then client_ip s else 0) ∧ s1 = s.


(** The header of the response, up to the address. *)
Lemma make_header fuel type s b yi s1 xid mac :
  msg s = Some b → has b [(4, 4, xid); (off_chaddr, 6, mac)]%nat → chosen fuel type s yi s1 →
  ∃ b', has b' [(off_yiaddr, 4, le_bytes yi); (0, 4, [BOOTP_OP_RESPONSE; 1; 6; 0]%Z); (4, 4, xid); (off_chaddr, 6, mac)]%nat ∧
    ∀ (K : M dhcp_server_data nat),
    (wr 0 [BOOTP_OP_RESPONSE; 1; 6; 0] ;;;
     wr off_ciaddr (le_bytes 0) ;;;
     let* c := gets client_ip in
     wr off_yiaddr (le_bytes (if type =? DHCP_MESSAGE_ACK then c else 0)) ;;;
     (if type =? DHCP_MESSAGE_OFFER then
        let* ip := next_yiaddr fuel in wr off_yiaddr (le_bytes ip)
      else ret tt) ;;; K) s = K (set_msg (Some b') s1).
Proof.
  intros Hm H C.
  destruct (wr_step s b 0 [BOOTP_OP_RESPONSE; 1; 6; 0] _ Hm H) as (b1 & E1 & H1); [by vm_compute; lia|done|].
  destruct (wr_step (set_msg (Some b1) s) b1 off_ciaddr (le_bytes 0) _ eq_refl H1) as (b2 & E2 & H2); [by vm_compute; lia|done|].
  set (y0 := if type =? DHCP_MESSAGE_ACK then client_ip s else 0).
  destruct (wr_step (set_msg (Some b2) s) b2 off_yiaddr (le_bytes y0) _ eq_refl H2) as (b3 & E3 & H3); [by vm_compute; lia|done|].
  unfold chosen in C. destruct (type =? DHCP_MESSAGE_OFFER) eqn:T.
  - destruct C as [C _].
    assert (H3' : has b3 [(0, 4, [BOOTP_OP_RESPONSE; 1; 6; 0]%Z); (4, 4, xid); (off_chaddr, 6, mac)]%nat)
      by (eapply has_sub; [exact H3|set_solver]).
    destruct (wr_step (set_msg (Some b3) s1) b3 off_yiaddr (le_bytes yi) _ eq_refl H3') as (b4 & E4 & H4); [by vm_compute; lia|done|].
    exists b4. split; [exact H4|]. intros K.
    rewrite (bind_done _ _ _ _ _ E1), (bind_done _ _ _ _ _ E2). erewrite bind_done by reflexivity.
    rewrite (bind_done _ _ _ _ _ E3). rewrite (bind_done _ _ _ tt (set_msg (Some b4) s1)); [done|].
    erewrite bind_done; [exact E4|].
    refine (next_yiaddr_msg fuel s b b3 yi s1 Hm (proj1 H) (proj1 H3) _ C).
    rewrite (has_in _ _ off_chaddr 6 mac H3) by set_solver. by rewrite (has_in _ _ off_chaddr 6 mac H) by set_solver.
  - destruct C as [-> ->]. exists b3. split; [eapply has_sub; [exact H3|set_solver]|]. intros K.
    rewrite (bind_done _ _ _ _ _ E1), (bind_done _ _ _ _ _ E2). erewrite bind_done by reflexivity.
    by rewrite (bind_done _ _ _ _ _ E3).
Qed.

Lemma make_response_spec fuel type s b yi s1 xid mac :
  msg s = Some b → has b [(4, 4, xid); (off_chaddr, 6, mac)]%nat → chosen fuel type s yi s1 →
  ∃ b', make_response fuel type s = Done (resp_len type, set_msg (Some b') s1) ∧
    has b' (resp_fields s1 type yi xid mac).
Proof.
  intros Hm H C. destruct (make_header fuel type s b yi s1 xid mac Hm H C) as (b0 & H0 & K).
  unfold make_response. rewrite K. clear K.
  destruct (wr_step (set_msg (Some b0) s1) b0 off_siaddr (le_bytes 0) _ eq_refl H0) as (b1 & E1 & H1); [by vm_compute; lia|done|].
  destruct (wr_step (set_msg (Some b1) s1) b1 off_riaddr (le_bytes 0) _ eq_refl H1) as (b2 & E2 & H2); [by vm_compute; lia|done|].
  destruct (wr_opt_step (set_msg (Some b2) s1) b2 sizeof_bootp_header BOOTP_OPTION_DHCP_MESSAGE [type] _ eq_refl H2)
    as (b3 & E3 & H3); [by vm_compute; lia|done|].
  rewrite (bind_done _ _ _ _ _ E1), (bind_done _ _ _ _ _ E2), (bind_done _ _ _ _ _ E3).
  unfold resp_len, resp_fields. destruct (type =? DHCP_MESSAGE_NAK).
  { exists b3. split; [done|]. eapply has_sub; [exact H3|]. set_solver. }
  erewrite bind_done by reflexivity. unfold id. cbn [netmask dhcp_address_timeout my_ip router_ip dhcp_nack_dns_server_handler set_msg].
  destruct (wr_opt_step (set_msg (Some b3) s1) b3 243 BOOTP_OPTION_SUBNET_MASK (write_u32 (netmask s1)) _ eq_refl H3)
    as (b4 & E4 & H4); [by vm_compute; lia|done|].
  destruct (wr_opt_step (set_msg (Some b4) s1) b4 249 BOOTP_OPTION_ADDRESS_TIME (write_u32 (htonl (dhcp_address_timeout s1))) _ eq_refl H4)
    as (b5 & E5 & H5); [by vm_compute; lia|done|].
  destruct (wr_opt_step (set_msg (Some b5) s1) b5 255 BOOTP_OPTION_DHCP_SERVER_ID (write_u32 (my_ip s1)) _ eq_refl H5)
    as (b6 & E6 & H6); [by vm_compute; lia|done|].
  destruct (wr_opt_step (set_msg (Some b6) s1) b6 261 BOOTP_OPTION_ROUTER (write_u32 (router_ip s1)) _ eq_refl H6)
    as (b7 & E7 & H7); [by vm_compute; lia|done|].
  destruct (wr_opt_step (set_msg (Some b7) s1) b7 267 BOOTP_OPTION_NAMESERVER
    (write_u32 (if dhcp_nack_dns_server_handler s1 then router_ip s1 else 0)) _ eq_refl H7)
    as (b8 & E8 & H8); [by vm_compute; lia|done|].
  destruct (wr_step (set_msg (Some b8) s1) b8 273 [BOOTP_END_OPTION] _ eq_refl H8) as (b9 & E9 & H9); [by vm_compute; lia|done|].
  exists b9. split.
  - etransitivity; [exact (bind_done _ _ _ _ _ E4)|]. etransitivity; [exact (bind_done _ _ _ _ _ E5)|].
    etransitivity; [exact (bind_done _ _ _ _ _ E6)|]. etransitivity; [exact (bind_done _ _ _ _ _ E7)|].
    etransitivity; [exact (bind_done _ _ _ _ _ E8)|]. etransitivity; [exact (bind_done _ _ _ _ _ E9)|]. done.
  - eapply has_sub; [exact H9|]. clear. intros f Hf. apply list_elem_of_lookup_1 in Hf as [i Hi].
    do 11 (destruct i as [|i]; [injection Hi as <-; set_solver|]). done.
Qed.

(** ** Sending *)
Definition sent_evs (sk dst : Z) (p : list Z) : list event :=
  (if (dst =? 0) || (dst =? 0xffffffff) then [SetDefaultNetif] else []) ++ [SendTo sk dst p].

Section Respond.
Context (sendto : nat → Z → Z).
Hypothesis (sendto_ok : ∀ n l, 0 < l → sendto n l = l ∨ sendto n l < 0).

Lemma send_response_eq sk dst bs s : (0 < length bs)%nat →
  ∃ r, send_response sendto sk dst bs s = Done (r, set_trace (S (nsend s)) (trace s ++ sent_evs sk dst bs) s).
Proof.
  intros L. unfold send_response, sent_evs.
  assert (K : ∀ s, ∃ r, send_loop sendto (S (S (length bs))) sk dst bs 0 s =
    Done (r, set_trace (S (nsend s)) (trace s ++ [SendTo sk dst bs]) s)).
  { clear s. intros s. cbn [send_loop]. rewrite (proj2 (Nat.ltb_lt _ _)) by done.
    unfold bind, lwip_sendto. rewrite drop_0.
    destruct (Z.ltb_spec (sendto (nsend s) (Z.of_nat (length bs))) 0); [by eexists|].
    destruct (sendto_ok (nsend s) (Z.of_nat (length bs))) as [E|E]; [lia| |lia].
    rewrite E, Nat2Z.id, (proj2 (Nat.ltb_ge (0 + length bs) (length bs))) by lia. by eexists. }
  destruct (_ || _).
  - destruct (K (set_trace (nsend s) (trace s ++ [SetDefaultNetif]) s)) as [r E]. exists r.
    erewrite bind_done by reflexivity. rewrite E. cbn [nsend trace set_trace]. by rewrite <-app_assoc.
  - destruct (K s) as [r E]. exists r. by erewrite bind_done by reflexivity.
Qed.

(** Nothing but the trace, the buffer and the destination of the last response. *)
Definition after_respond (s1 : dhcp_server_data) (b : list Z) (u : Z) (n : nat) (evs : list event) : dhcp_server_data :=
  set_trace n (trace s1 ++ evs) (set_uaddr u (set_msg (Some b) s1)).

Lemma wr16_step s b v fs : msg s = Some b → has b fs → forallb (apart off_flags 2) fs = true →
  ∃ b', wr16 off_flags v s = Done (tt, set_msg (Some b') s) ∧ has b' fs.
Proof.
  intros Hm H D. destruct (wr_step s b off_flags [v mod 256; (v / 256) mod 256] fs Hm H) as (b' & E & H');
    [by vm_compute; lia|done|]. exists b'. split; [exact E|]. eapply has_sub; [exact H'|set_solver].
Qed.

Lemma resp_fields_flags s type yi xid mac : forallb (apart off_flags 2) (resp_fields s type yi xid mac) = true.
Proof. unfold resp_fields. by destruct (_ =? _). Qed.

Lemma rd_resp s b type fs : msg s = Some b → has b fs → rd 0 (resp_len type) s = Done (sub b 0 (resp_len type), s).
Proof.
  intros Hm [L _]. apply rd_eq; [done|]. rewrite L. unfold resp_len, SERVER_BUFFER_SIZE. destruct (_ =? _); simpl; lia.
Qed.
Lemma rd16_flags s b fs : msg s = Some b → has b fs → ∃ f, rd16 off_flags s = Done (f, s).
Proof.
  intros Hm [L _]. unfold rd16. eexists. erewrite bind_done; [reflexivity|]. apply (rd_eq _ b); [done|].
  rewrite L. vm_compute. lia.
Qed.

(** The broadcast part: three copies. *)
Lemma respond_bcast s b type yi xid mac conf :
  msg s = Some b → has b (resp_fields conf type yi xid mac) →
  ∃ b' n, has b' (resp_fields conf type yi xid mac) ∧
    let p := sub b' 0 (resp_len type) in
    (let* f := rd16 off_flags in
     wr16 off_flags (Z.lor f (htons (BIT 15))) ;;;
     let* s := gets id in
     let* bs := rd 0 (resp_len type) in
     send_response sendto (sock s) (baddr s) bs ;;;
     send_response sendto (sock s) (baddr s) bs ;;;
     send_response sendto (sock s) (baddr s) bs ;;;
     (if type =? DHCP_MESSAGE_ACK then emit (GratuitousArp (my_ip s)) else ret tt)) s =
    Done (tt, set_trace n (trace s ++ sent_evs (sock s) (baddr s) p ++ sent_evs (sock s) (baddr s) p ++
      sent_evs (sock s) (baddr s) p ++ (if type =? DHCP_MESSAGE_ACK then [GratuitousArp (my_ip s)] else []))
      (set_msg (Some b') s)).
Proof.
  intros Hm H. destruct (rd16_flags s b _ Hm H) as [f Ef].
  destruct (wr16_step s b (Z.lor f (htons (BIT 15))) _ Hm H (resp_fields_flags _ _ _ _ _)) as (b' & E & H').
  exists b'. eexists. split; [exact H'|]. set (p := sub b' 0 (resp_len type)).
  assert (Lp : (0 < length p)%nat).
  { unfold p. rewrite (rp_len _ _ _ _ _ _ (response_of _ _ _ _ _ _ H')). destruct (_ =? _); lia. }
  cbv zeta. rewrite (bind_done _ _ _ _ _ Ef), (bind_done _ _ _ _ _ E). erewrite bind_done by reflexivity. unfold id.
  rewrite (bind_done _ _ _ _ _ (rd_resp (set_msg (Some b') s) b' type _ eq_refl H')). fold p.
  cbn [sock baddr my_ip set_msg].
  destruct (send_response_eq (sock s) (baddr s) p (set_msg (Some b') s) Lp) as [r1 S1].
  rewrite (bind_done _ _ _ _ _ S1). clear S1.
  match goal with |- bind _ _ ?x = _ => destruct (send_response_eq (sock s) (baddr s) p x Lp) as [r2 S2] end.
  rewrite (bind_done _ _ _ _ _ S2). clear S2.
  match goal with |- bind _ _ ?x = _ => destruct (send_response_eq (sock s) (baddr s) p x Lp) as [r3 S3] end.
  rewrite (bind_done _ _ _ _ _ S3). clear S3. cbn [trace nsend set_trace set_msg].
  destruct (type =? DHCP_MESSAGE_ACK); unfold emit, modify, ret; cbn [trace nsend set_trace];
    rewrite <-?app_assoc, ?app_nil_r; reflexivity.
Qed.

(** What goes out: a unicast copy when the response carries an address, three
    broadcast copies, and the announcement that follows an acknowledgement. *)
Definition response_trace (s : dhcp_server_data) (type yi : Z) (mac p1 p2 : list Z) : list event :=
  (if yi =? 0 then [] else [ArpAdd yi mac] ++ sent_evs (sock s) yi p1 ++ [ArpRemove yi]) ++
  sent_evs (sock s) (baddr s) p2 ++ sent_evs (sock s) (baddr s) p2 ++ sent_evs (sock s) (baddr s) p2 ++
  (if type =? DHCP_MESSAGE_ACK then [GratuitousArp (my_ip s)] else []).

Lemma respond_spec fuel type s b yi s1 xid mac :
  msg s = Some b → has b [(4, 4, xid); (off_chaddr, 6, mac)]%nat → chosen fuel type s yi s1 → word yi →
  ∃ p1 p2 b' u n, respond sendto fuel type s = Done (tt, after_respond s1 b' u n (response_trace s1 type yi mac p1 p2)) ∧
    response p1 s1 type yi xid mac ∧ response p2 s1 type yi xid mac ∧ length b' = SERVER_BUFFER_SIZE.
Proof.
  intros Hm H C Hy. destruct (make_response_spec fuel type s b yi s1 xid mac Hm H C) as (b1 & E1 & H1).
  unfold respond, response_trace. rewrite (bind_done _ _ _ _ _ E1).
  assert (F : ∀ o n x, (o, n, x) ∈ resp_fields s1 type yi xid mac → sub b1 o n = x) by (intros; by eapply has_in).
  pose proof (proj1 H1) as L1.
  erewrite bind_done by (apply (rd32_eq _ b1); [reflexivity|rewrite L1; vm_compute; lia|exact Hy|];
    apply F; unfold resp_fields; set_solver).
  erewrite bind_done by (apply (rd_eq _ b1); [reflexivity|rewrite L1; vm_compute; lia]).
  rewrite (F off_chaddr 6%nat mac) by (unfold resp_fields; set_solver).
  destruct (Z.eqb_spec yi 0) as [Y|Y]; cbn [negb].
  - erewrite bind_done by reflexivity.
    destruct (respond_bcast (set_msg (Some b1) s1) b1 type yi xid mac s1 eq_refl H1) as (b2 & n & H2 & E2).
    exists (sub b2 0 (resp_len type)), (sub b2 0 (resp_len type)), b2, (uaddr s1), n.
    rewrite E2. split_and!; [|by apply response_of|by apply response_of|apply H2]. cbn [app].
    by destruct s1.
  - set (sa := set_trace (nsend s1) (trace s1 ++ [ArpAdd yi mac]) (set_uaddr yi (set_msg (Some b1) s1))).
    destruct (rd16_flags sa b1 _ eq_refl H1) as [f Ef].
    destruct (wr16_step sa b1 (Z.land f (Z.lnot (htons (BIT 15)))) _ eq_refl H1 (resp_fields_flags _ _ _ _ _)) as (b2 & E2 & H2).
    set (p1 := sub b2 0 (resp_len type)).
    assert (Lp : (0 < length p1)%nat).
    { unfold p1. rewrite (rp_len _ _ _ _ _ _ (response_of _ _ _ _ _ _ H2)). destruct (_ =? _); lia. }
    destruct (send_response_eq (sock s1) yi p1 (set_msg (Some b2) sa) Lp) as [r Sr].
    set (sb := set_trace (S (nsend s1)) (trace s1 ++ [ArpAdd yi mac] ++ sent_evs (sock s1) yi p1 ++ [ArpRemove yi])
                 (set_uaddr yi (set_msg (Some b2) s1))).
    rewrite (bind_done _ _ _ tt sb).
    2: { erewrite bind_done by reflexivity. rewrite (bind_done _ _ _ tt sa) by reflexivity.
         rewrite (bind_done _ _ _ _ _ Ef), (bind_done _ _ _ _ _ E2). erewrite bind_done by reflexivity. unfold id.
         rewrite (bind_done _ _ _ _ _ (rd_resp (set_msg (Some b2) sa) b2 type _ eq_refl H2)). fold p1.
         cbn [sock uaddr set_msg sa set_trace set_uaddr]. fold sa. rewrite (bind_done _ _ _ _ _ Sr).
         unfold emit, modify, sb. cbn [trace nsend set_trace set_msg sa set_uaddr]. by rewrite <-!app_assoc. }
    destruct (respond_bcast sb b2 type yi xid mac s1 eq_refl H2) as (b3 & n & H3 & E3).
    exists p1, (sub b3 0 (resp_len type)), b3, yi, n. rewrite E3.
    split_and!; [|by apply response_of|by apply response_of|apply H3].
    unfold sb. cbn [trace nsend set_trace set_msg set_uaddr sock baddr my_ip]. unfold after_respond.
    by rewrite <-!app_assoc.
Qed.
End Respond.

(** ** Conversations *)
Lemma same_conf_trans s1 s2 s3 : same_conf s1 s2 → same_conf s2 s3 → same_conf s1 s3.
Proof. unfold same_conf. intros. destruct_and!. split_and!; congruence. Qed.
Lemma response_conf p s s' type yi xid mac : same_conf s s' → response p s' type yi xid mac → response p s type yi xid mac.
Proof.
  intros (C1 & C2 & C3 & C4 & C5 & C6 & C7 & C8 & C9) [R1 R2 R3 R4 R5 R6 R7].
  rewrite C5, C6, C7, C8, C9 in R7. by split.
Qed.
Lemma response_trace_conf s s' type yi mac p1 p2 : same_conf s s' →
  response_trace s' type yi mac p1 p2 = response_trace s type yi mac p1 p2.
Proof. intros (C1 & C2 & C3 & C4 & C5 & C6 & C7 & C8 & C9). unfold response_trace. by rewrite C1, C4, C6. Qed.

Lemma is_dhcp_has b len mac ci opts : is_dhcp b len mac ci opts → has b [(4, 4, sub b 4 4); (off_chaddr, 6, mac)]%nat.
Proof.
  intros []. split; [done|]. constructor; [done|]. apply Forall_singleton. exact dm_mac0.
Qed.

Lemma decided_same_conf s mac ip : same_conf s (decided s mac ip).
Proof. unfold decided. by destruct (_ && _ && _). Qed.
Lemma st_same_conf s mac ip seen : same_conf s (st s mac ip seen).
Proof. destruct seen; [apply decided_same_conf|done]. Qed.
Lemma st_trace s mac ip seen : trace (st s mac ip seen) = trace s.
Proof. destruct seen; [|done]. simpl. unfold decided. by destruct (_ && _ && _). Qed.

Section Talk.
Context (sendto : nat → Z → Z) (k : Z).
Hypothesis (sendto_ok : ∀ n l, 0 < l → sendto n l = l ∨ sendto n l < 0).

Lemma request_ok s b len mac ci ip opts fuel :
  server_wf k s → msg s = Some b → is_dhcp b len mac ci opts → word ip →
  opts_ok ci ip opts DHCP_MESSAGE_REQUEST → has_type opts → has_addr ci opts DHCP_MESSAGE_REQUEST →
  let ok := may_lease s mac ip in
  let type := if ok then DHCP_MESSAGE_ACK else DHCP_MESSAGE_NAK in
  let yi := if ok then ip else 0 in
  ∃ p1 p2 b' u n,
    process_dhcp_message sendto fuel len s =
      Done (0, after_respond (decided s mac ip) b' u n (response_trace s type yi mac p1 p2)) ∧
    response p1 s type yi (sub b 4 4) mac ∧ response p2 s type yi (sub b 4 4) mac.
Proof.
  intros W Hm Hb Hip Ho HT HA ok type yi.
  assert (S : seen_all ci DHCP_MESSAGE_REQUEST opts false = true) by (by apply seen_all_addr).
  rewrite (process_parsed k s b len mac ci ip opts DHCP_MESSAGE_REQUEST) by (done || by right).
  rewrite S. cbn [st].
  assert (T : response_type (lcf s mac ip DHCP_MESSAGE_REQUEST true true) = type) by done. rewrite T.
  destruct (decided_conf s b mac ip Hm) as (_ & _ & Hm' & Ec & _).
  pose proof (decided_same_conf s mac ip) as SC.
  assert (C : chosen fuel type (decided s mac ip) yi (decided s mac ip)).
  { unfold chosen, type, yi. destruct ok; cbn; by rewrite ?Ec. }
  destruct (respond_spec sendto sendto_ok fuel type _ b yi _ (sub b 4 4) mac Hm' (is_dhcp_has _ _ _ _ _ Hb) C)
    as (p1 & p2 & b' & u & n & E & R1 & R2 & _).
  { unfold yi. by destruct ok. }
  rewrite (response_trace_conf _ _ _ _ _ _ _ SC) in E.
  exists p1, p2, b', u, n. split; [by erewrite bind_done by exact E|].
  split; by eapply response_conf.
Qed.

Lemma wf_next_msg s b s1 u n evs b' : server_wf k s1 → length b = SERVER_BUFFER_SIZE → all_bytes b →
  s = set_msg (Some b) (after_respond s1 b' u n evs) → server_wf k s.
Proof. intros [] L A ->. split; try done. by exists b. Qed.

Lemma discover_ok s b len mac ci ip opts fuel :
  server_wf k s → msg s = Some b → is_dhcp b len mac ci opts → word ip → 4 ≤ k → (12 ≤ fuel)%nat →
  opts_ok ci ip opts DHCP_MESSAGE_DISCOVER → has_type opts →
  ∃ yi p1 p2 s1 b' u n,
    let s' := after_respond s1 b' u n (response_trace s DHCP_MESSAGE_OFFER yi mac p1 p2) in
    process_dhcp_message sendto fuel len s = Done (0, s') ∧ server_wf k s1 ∧ same_conf s s1 ∧
    trace s1 = trace s ∧ valid_lease s yi ∧ may_lease s1 mac yi = true ∧
    response p1 s DHCP_MESSAGE_OFFER yi (sub b 4 4) mac ∧ response p2 s DHCP_MESSAGE_OFFER yi (sub b 4 4) mac.
Proof.
  intros W Hm Hb Hip Hk Hf Ho HT.
  set (seen := seen_all ci DHCP_MESSAGE_DISCOVER opts false).
  pose proof (decided_leases k s mac ip W Hip) as [WD LD].
  assert (Ws : server_wf k (st s mac ip seen)) by (by destruct seen).
  assert (Hms : msg (st s mac ip seen) = Some b) by (by apply st_msg).
  pose proof (st_same_conf s mac ip seen) as SC.
  destruct (next_yiaddr_spec k _ fuel Ws Hk Hf) as (b0 & yi & s1 & Hb0 & E & W1 & V & M1 & _ & T1 & _ & C1 & L1).
  rewrite Hms in Hb0. injection Hb0 as <-. rewrite (dm_mac _ _ _ _ _ Hb) in L1. cbv zeta in L1.
  pose proof (same_conf_trans _ _ _ SC C1) as SC1.
  assert (C : chosen fuel DHCP_MESSAGE_OFFER (st s mac ip seen) yi s1) by done.
  destruct (respond_spec sendto sendto_ok fuel DHCP_MESSAGE_OFFER _ b yi s1 (sub b 4 4) mac Hms (is_dhcp_has _ _ _ _ _ Hb) C (proj1 V))
    as (p1 & p2 & b' & u & n & R & R1 & R2 & _).
  exists yi, p1, p2, s1, b', u, n. rewrite (response_trace_conf _ _ _ _ _ _ _ SC1) in R.
  assert (Vs : valid_lease s yi).
  { destruct SC as (_ & _ & _ & _ & A & B & _). unfold valid_lease, subnet, net_addr, bcast_addr in *. by rewrite A, B in V. }
  assert (V1 : valid_lease s1 yi).
  { destruct SC1 as (_ & _ & _ & _ & A & B & _). unfold valid_lease, subnet, net_addr, bcast_addr in *. by rewrite A, B. }
  split_and!; try done.
  - rewrite (process_parsed k s b len mac ci ip opts DHCP_MESSAGE_DISCOVER) by (done || by left).
    by erewrite bind_done by exact R.
  - rewrite T1. apply st_trace.
  - unfold may_lease. rewrite (proj2 (Z.eqb_eq _ _)) by apply V1. cbn [andb].
    destruct (find_mac mac (leases (st s mac ip seen))) as [old|] eqn:F.
    + destruct L1 as [-> ->]. rewrite F. apply Z.eqb_refl.
    + destruct L1 as [NI L1]. destruct (find_mac mac (leases s1)) as [z|] eqn:F1.
      * apply Z.eqb_eq. apply find_mac_Some in F1. rewrite L1 in F1. destruct (ac_not_full (st s mac ip seen)).
        -- apply elem_of_app in F1 as [F1|F1%list_elem_of_singleton]; [|congruence].
           apply find_mac_None in F. destruct F. apply list_elem_of_fmap. by exists (mk_entry mac z).
        -- apply find_mac_None in F. destruct F. apply list_elem_of_fmap. by exists (mk_entry mac z).
      * apply (valid_ip_spec k s1); [done|apply V1|apply V1|]. split; [done|].
        rewrite find_mac_None, L1 in F1. destruct (ac_not_full (st s mac ip seen)).
        -- destruct F1. rewrite fmap_app. set_solver.
        -- by rewrite L1.
  - by eapply response_conf.
  - by eapply response_conf.
Qed.

(** C11: The answer to a REQUEST, in every state of the server.  For a message
    with one message-type option and one requested address (an option, or the
    client-address field of the header), in any order among any other options,
    the server acknowledges exactly when the address lies in its subnet and is
    the one leased to this client, or the client has no lease and the address is
    free; otherwise it refuses.  The response carries the client's transaction
    id and MAC, the granted address (zero in a refusal), the message type and
    the network configuration, once by unicast when an address is granted and
    three times by broadcast.  A newly granted address is entered in the table
    while there is room, and no lease changes otherwise. *)
Theorem dhcp_request_decision s b len mac ci ip opts fuel :
  server_wf k s → msg s = Some b → is_dhcp b len mac ci opts → word ip →
  opts_ok ci ip opts DHCP_MESSAGE_REQUEST → has_type opts → has_addr ci opts DHCP_MESSAGE_REQUEST →
  let ok := may_lease s mac ip in
  let type := if ok then DHCP_MESSAGE_ACK else DHCP_MESSAGE_NAK in
  let yi := if ok then ip else 0 in
  ∃ p1 p2 s', process_dhcp_message sendto fuel len s = Done (0, s') ∧
    leases s' = (if ok && ac_not_full s && match find_mac mac (leases s) with Some _ => false | None => true end
                 then leases s ++ [mk_entry mac ip] else leases s) ∧
    trace s' = trace s ++ response_trace s type yi mac p1 p2 ∧
    response p1 s type yi (sub b 4 4) mac ∧ response p2 s type yi (sub b 4 4) mac.
Proof.
  intros W Hm Hb Hip Ho HT HA ok type yi.
  destruct (request_ok s b len mac ci ip opts fuel W Hm Hb Hip Ho HT HA) as (p1 & p2 & b' & u & n & E & R).
  exists p1, p2. eexists. split; [exact E|]. split_and!; try apply R.
  - exact (proj2 (decided_leases k s mac ip W Hip)).
  - unfold after_respond. cbn [trace set_trace]. f_equal. apply (st_trace s mac ip true).
Qed.

(** C19: The whole exchange, in a subnet of at least sixteen addresses and with twelve
    tries for a free one (in a smaller subnet the search may not end, see
    [next_yiaddr_exhausted]).  A DISCOVER of any client, with or without a wish for
    an address, is answered by an offer of a valid address of the subnet, and
    the client's REQUEST for the offered address is then acknowledged with that
    very address: also when the lease table is full, and when the client had
    asked for another address before. *)
Theorem dhcp_dora s b len mac ci ip opts fuel :
  server_wf k s → msg s = Some b → is_dhcp b len mac ci opts → word ip → 4 ≤ k → (12 ≤ fuel)%nat →
  opts_ok ci ip opts DHCP_MESSAGE_DISCOVER → has_type opts →
  ∃ yi p1 p2 s1, process_dhcp_message sendto fuel len s = Done (0, s1) ∧ valid_lease s yi ∧
    trace s1 = trace s ++ response_trace s DHCP_MESSAGE_OFFER yi mac p1 p2 ∧
    response p1 s DHCP_MESSAGE_OFFER yi (sub b 4 4) mac ∧ response p2 s DHCP_MESSAGE_OFFER yi (sub b 4 4) mac ∧
    ∀ b2 len2 opts2, is_dhcp b2 len2 mac 0 opts2 → opts_ok 0 yi opts2 DHCP_MESSAGE_REQUEST →
      has_type opts2 → has_addr 0 opts2 DHCP_MESSAGE_REQUEST →
      ∃ q1 q2 s2, process_dhcp_message sendto fuel len2 (set_msg (Some b2) s1) = Done (0, s2) ∧
        trace s2 = trace s1 ++ response_trace s DHCP_MESSAGE_ACK yi mac q1 q2 ∧
        response q1 s DHCP_MESSAGE_ACK yi (sub b2 4 4) mac ∧ response q2 s DHCP_MESSAGE_ACK yi (sub b2 4 4) mac.
Proof.
  intros W Hm Hb Hip Hk Hf Ho HT.
  destruct (discover_ok s b len mac ci ip opts fuel) as (yi & p1 & p2 & s1 & b' & u & n & E & W1 & C1 & T1 & V & ML & R1 & R2); try done.
  exists yi, p1, p2. eexists. split; [exact E|]. split_and!; try done.
  { unfold after_respond. cbn [trace set_trace]. by rewrite T1. }
  intros b2 len2 opts2 Hb2 Ho2 HT2 HA2.
  set (s2 := set_msg (Some b2) _).
  assert (W2 : server_wf k s2) by (eapply wf_next_msg; [exact W1|apply Hb2|apply Hb2|reflexivity]).
  destruct (request_ok s2 b2 len2 mac 0 yi opts2 fuel W2 eq_refl Hb2 (proj1 V) Ho2 HT2 HA2)
    as (q1 & q2 & b3 & u3 & n3 & E3 & Q1 & Q2).
  change (may_lease s2 mac yi) with (may_lease s1 mac yi) in *. rewrite ML in *.
  assert (C2 : same_conf s s2) by exact C1.
  exists q1, q2. eexists. split_and!; [exact E3| |by eapply response_conf|by eapply response_conf].
  rewrite (response_trace_conf _ _ _ _ _ _ _ C2). unfold after_respond at 1. cbn [trace set_trace].
  f_equal. apply (st_trace s2 mac yi true).
Qed.
(** A full lease table no longer keeps addresses apart: when eight clients
    hold leases, two further clients that ask for the same free address are both
    acknowledged with it, since the first grant is not remembered. *)
Theorem dhcp_full_table_duplicate s b1 len1 mac1 opts1 b2 len2 mac2 opts2 ip fuel :
  server_wf k s → ac_not_full s = false →
  find_mac mac1 (leases s) = None → find_mac mac2 (leases s) = None →
  word ip → subnet s ip → ac_valid_ip (ntohl ip) s = true →
  msg s = Some b1 → is_dhcp b1 len1 mac1 0 opts1 → opts_ok 0 ip opts1 DHCP_MESSAGE_REQUEST →
  has_type opts1 → has_addr 0 opts1 DHCP_MESSAGE_REQUEST →
  is_dhcp b2 len2 mac2 0 opts2 → opts_ok 0 ip opts2 DHCP_MESSAGE_REQUEST →
  has_type opts2 → has_addr 0 opts2 DHCP_MESSAGE_REQUEST →
  ∃ p1 p2 s1 q1 q2 s2,
    process_dhcp_message sendto fuel len1 s = Done (0, s1) ∧
    process_dhcp_message sendto fuel len2 (set_msg (Some b2) s1) = Done (0, s2) ∧
    trace s2 = trace s ++ response_trace s DHCP_MESSAGE_ACK ip mac1 p1 p2 ++ response_trace s DHCP_MESSAGE_ACK ip mac2 q1 q2.
Proof.
  intros W NF F1 F2 Hip Hs V Hm B1 O1 T1 A1 B2 O2 T2 A2.
  destruct (request_ok s b1 len1 mac1 0 ip opts1 fuel W Hm B1 Hip O1 T1 A1) as (p1 & p2 & b' & u & n & E1 & _).
  assert (M1 : may_lease s mac1 ip = true).
  { unfold may_lease. rewrite (proj2 (Z.eqb_eq _ _)) by exact Hs. by rewrite F1. }
  rewrite M1 in E1.
  assert (D1 : decided s mac1 ip = set_client_ip ip s) by (unfold decided; by rewrite M1, NF).
  rewrite D1 in E1. set (s1 := after_respond _ _ _ _ _) in E1.
  assert (W1 : server_wf k (set_msg (Some b2) s1)).
  { eapply (wf_next_msg _ b2 (set_client_ip ip s)); [by apply client_wf|apply B2|apply B2|reflexivity]. }
  destruct (request_ok _ b2 len2 mac2 0 ip opts2 fuel W1 eq_refl B2 Hip O2 T2 A2) as (q1 & q2 & b3 & u3 & n3 & E2 & _).
  assert (M2 : may_lease (set_msg (Some b2) s1) mac2 ip = true).
  { change (may_lease (set_msg (Some b2) s1) mac2 ip) with (may_lease s mac2 ip).
    unfold may_lease. rewrite (proj2 (Z.eqb_eq _ _)) by exact Hs. by rewrite F2. }
  rewrite M2 in E2.
  assert (D2 : decided (set_msg (Some b2) s1) mac2 ip = set_client_ip ip (set_msg (Some b2) s1)).
  { unfold decided. rewrite M2. change (ac_not_full (set_msg (Some b2) s1)) with (ac_not_full s). by rewrite NF. }
  rewrite D2 in E2.
  exists p1, p2, s1, q1, q2. eexists. split_and!; [exact E1|exact E2|].
  unfold s1, after_respond. cbn [trace set_trace set_client_ip set_msg set_uaddr]. by rewrite <-app_assoc.
Qed.
End Talk.

(** ** DNS *)
Definition dns_flags (f : Z) : Z :=
  let f := set_field f 15 1 1 in
  let f := set_field f 11 4 0 in
  let f := set_field f 10 1 0 in
  let f := set_field f 9 1 0 in
  let f := set_field f 8 1 1 in
  let f := set_field f 7 1 0 in
  set_field f 0 4 5.

Lemma dns_flags_eq f : 0 ≤ f < 2 ^ 16 → dns_flags f = Z.lor 0x8105 (Z.land f 0x70).
Proof.
  intros Hf. unfold dns_flags. cbv zeta. apply Z.bits_inj'. intros i Hi. rewrite Z.lor_spec, Z.land_spec.
  rewrite !set_field_spec by lia. destruct (Z.lt_ge_cases i 16) as [L|L].
  - assert (K : i ∈ seqZ 0 16) by (apply elem_of_seqZ; lia). clear Hi L. vm_compute in K.
    elem_cases K; cbn -[Z.testbit]; rewrite ?andb_false_r, ?andb_true_r, ?orb_false_r; try reflexivity;
      by rewrite ?andb_true_r.
  - zif. cbn [andb].
    rewrite <-(Z.mod_small f (2 ^ 16)), Z.mod_pow2_bits_high, (Z.bits_above_log2 0x8105) by (simpl; lia). done.
Qed.

Lemma byte_check (P : Z → bool) : forallb P (seqZ 0 256) = true → ∀ x, byte x → P x = true.
Proof.
  intros H x Hx. rewrite forallb_forall in H. apply H. apply list_elem_of_In, elem_of_seqZ. unfold byte in *. lia.
Qed.

(** The two flag bytes of the answer, in the order they go on the wire; the
    response bit is looked up in the other byte of the query. *)
Lemma dns_flags_wire f1 f2 : byte f1 → byte f2 →
  let f := htons (dns_flags (f1 + 256 * f2)) in
  [f mod 256; (f / 256) mod 256] = [0x81; 5 + Z.land f1 0x70] ∧
  negb (field (f1 + 256 * f2) 15 1 =? 0) = (128 <=? f2).
Proof.
  unfold byte. intros H1 H2. rewrite dns_flags_eq by lia.
  assert (E : Z.land (f1 + 256 * f2) 0x70 = Z.land f1 0x70).
  { change 0x70 with (Z.land 0xff 0x70). rewrite !Z.land_assoc. f_equal. change 0xff with (Z.ones 8).
    rewrite !Z.land_ones by lia. change (2 ^ 8) with 256. rewrite (Z.mul_comm 256 f2). by rewrite Z.mod_add by lia. }
  rewrite E. split.
  - pose proof (byte_check (λ x, let f := htons (Z.lor 0x8105 (Z.land x 0x70)) in
      (f mod 256 =? 0x81) && ((f / 256) mod 256 =? 5 + Z.land x 0x70)) eq_refl f1 H1) as H.
    apply andb_true_iff in H as [A%Z.eqb_eq B%Z.eqb_eq]. cbv zeta. congruence.
  - unfold field. rewrite Z.land_ones, Z.shiftr_div_pow2 by lia. change (2 ^ 1) with 2. change (2 ^ 15) with (256 * 128).
    rewrite <-Z.div_div by lia. rewrite (Z.add_comm f1), (Z.mul_comm 256 f2), Z.div_add_l, (Z.div_small f1), Z.add_0_r by lia.
    destruct (Z.leb_spec 128 f2).
    + replace (f2 / 128) with 1 by (apply Z.div_unique with (f2 - 128); lia). done.
    + rewrite Z.div_small by lia. done.
Qed.
Lemma htons_zero q1 q2 : byte q1 → byte q2 → (htons (q1 + 256 * q2) <=? 0) = (q1 =? 0) && (q2 =? 0).
Proof.
  unfold byte, htons. intros H1 H2. change 0xff with (Z.ones 8). rewrite !Z.land_ones, Z.shiftr_div_pow2, Z.shiftl_mul_pow2 by lia.
  change (2 ^ 8) with 256. rewrite (Z.mul_comm 256 q2), Z.mod_add, Z.div_add, (Z.div_small q1), (Z.mod_small q1) by lia.
  rewrite Z.add_0_l, Z.mod_small by lia.
  pose proof (Z.lor_nonneg (q1 * 256) q2) as N. pose proof (Z.lor_eq_0_iff (q1 * 256) q2) as O.
  destruct (Z.leb_spec (Z.lor (q1 * 256) q2) 0), (Z.eqb_spec q1 0), (Z.eqb_spec q2 0); cbn [andb]; try done; lia.
Qed.

Lemma rd16_eq s b o x y : msg s = Some b → (o + 2 ≤ length b)%nat → sub b o 2 = [x; y] → rd16 o s = Done (x + 256 * y, s).
Proof. intros Hb H E. unfold rd16. erewrite bind_done by (by apply rd_eq). by rewrite E. Qed.

Lemma dns_answer_bytes b id fl rest n :
  has b [(10, 2, [0; 0]%Z); (8, 2, [0; 0]%Z); (6, 2, [0; 0]%Z); (4, 2, [0; 1]%Z); (2, 2, fl); (0, 2, id); (12, n, rest)]%nat →
  sub b 0 (12 + n) = id ++ fl ++ [0; 1; 0; 0; 0; 0; 0; 0] ++ rest.
Proof.
  intros H. change (12 + n)%nat with (2 + (2 + (2 + (2 + (2 + (2 + n))))))%nat. rewrite !(sub_add b).
  rewrite (has_in _ _ 0 2 id H) by set_solver. rewrite (has_in _ _ (0 + 2) 2 fl H)%nat by set_solver.
  rewrite (has_in _ _ (0 + 2 + 2) 2 [0; 1]%Z H)%nat by set_solver.
  rewrite (has_in _ _ (0 + 2 + 2 + 2) 2 [0; 0]%Z H)%nat by set_solver.
  rewrite (has_in _ _ (0 + 2 + 2 + 2 + 2) 2 [0; 0]%Z H)%nat by set_solver.
  rewrite (has_in _ _ (0 + 2 + 2 + 2 + 2 + 2) 2 [0; 0]%Z H)%nat by set_solver.
  by rewrite (has_in _ _ (0 + 2 + 2 + 2 + 2 + 2 + 2) n rest H)%nat by set_solver.
Qed.

(** DNS queries are refused.  A datagram shorter than a header, with the top
    bit of the fourth byte set, or with no question is dropped and changes
    nothing.  Any other one is answered once, to its sender: same id, flag bytes
    0x81 and 0x05 (response, recursion desired, REFUSED, plus the upper three
    opcode bits of the query in the second), one question, no records, and the
    rest of the datagram unchanged.  Leases and configuration are untouched. *)
Theorem dns_query_refused sendto s b len from f1 f2 q1 q2 :
  (∀ n l, 0 < l → sendto n l = l ∨ sendto n l < 0) →
  msg s = Some b → length b = SERVER_BUFFER_SIZE → (len ≤ SERVER_BUFFER_SIZE)%nat →
  sub b 2 2 = [f1; f2] → sub b 4 2 = [q1; q2] → byte f1 → byte f2 → byte q1 → byte q2 →
  ∃ s', process_dns_message sendto len from s = Done (-1, s') ∧ leases s' = leases s ∧ same_conf s s' ∧
    if (len <? 12)%nat || (128 <=? f2) || (q1 =? 0) && (q2 =? 0) then s' = s
    else trace s' = trace s ++ sent_evs (dnssock s) from
      (sub b 0 2 ++ [0x81; 5 + Z.land f1 0x70] ++ [0; 1; 0; 0; 0; 0; 0; 0] ++ sub b 12 (len - 12)).
Proof.
  intros Hsend Hm Lb Hlen Hf Hq B1 B2 B3 B4.
  destruct (dns_flags_wire f1 f2 B1 B2) as [FW FQ]. pose proof (htons_zero q1 q2 B3 B4) as QZ.
  unfold process_dns_message, sizeof_dns_header. destruct (len <? 12)%nat eqn:L12; [by exists s|].
  apply Nat.ltb_ge in L12. cbn [orb].
  erewrite bind_done by (apply (rd16_eq _ b); [done|rewrite Lb; vm_compute; lia|exact Hf]).
  rewrite FQ. destruct (128 <=? f2); [by exists s|]. cbn [orb].
  erewrite bind_done by (apply (rd16_eq _ b); [done|rewrite Lb; vm_compute; lia|exact Hq]).
  rewrite QZ. destruct ((q1 =? 0) && (q2 =? 0)); [by exists s|].
  change (htons 1) with 256. cbv zeta. fold (dns_flags (f1 + 256 * f2)).
  assert (H0 : has b [(0, 2, sub b 0 2); (12, (len - 12)%nat, sub b 12 (len - 12))]%nat) by (split; [done|by repeat constructor]).
  destruct (wr_step s b 2 [0x81; 5 + Z.land f1 0x70] _ Hm H0) as (b1 & E1 & H1); [by vm_compute; lia|done|].
  destruct (wr_step (set_msg (Some b1) s) b1 4 [0; 1] _ eq_refl H1) as (b2 & E2 & H2); [by vm_compute; lia|done|].
  destruct (wr_step (set_msg (Some b2) s) b2 6 [0; 0] _ eq_refl H2) as (b3 & E3 & H3); [by vm_compute; lia|done|].
  destruct (wr_step (set_msg (Some b3) s) b3 8 [0; 0] _ eq_refl H3) as (b4 & E4 & H4); [by vm_compute; lia|done|].
  destruct (wr_step (set_msg (Some b4) s) b4 10 [0; 0] _ eq_refl H4) as (b5 & E5 & H5); [by vm_compute; lia|done|].
  erewrite bind_done by (unfold wr16; rewrite FW; exact E1).
  erewrite bind_done by exact E2. erewrite bind_done by exact E3. erewrite bind_done by exact E4.
  erewrite bind_done by exact E5.
  erewrite bind_done by (apply (rd_eq _ b5); [reflexivity|rewrite (proj1 H5); lia]).
  erewrite bind_done by reflexivity. cbn [dnssock set_msg].
  replace (sub b5 0 len) with (sub b5 0 (12 + (len - 12))) by (f_equal; lia).
  rewrite (dns_answer_bytes b5 (sub b 0 2) [0x81; 5 + Z.land f1 0x70] (sub b 12 (len - 12)) (len - 12) H5).
  match goal with |- context [send_response _ _ _ ?p] => set (ans := p) end.
  destruct (send_response_eq sendto Hsend (dnssock s) from ans (set_msg (Some b5) s)) as [r S].
  { unfold ans. rewrite !length_app. simpl. lia. }
  eexists. split; [by erewrite bind_done by exact S|]. done.
Qed.

(** ** Concrete conversations *)
Definition disc_opts : list (Z * list Z) := [(53, [DHCP_MESSAGE_DISCOVER]); (55, [1; 3; 6])].
Definition req_opts (ip : Z) : list (Z * list Z) := [(53, [DHCP_MESSAGE_REQUEST]); (55, [1; 3; 6]); (50, le_bytes ip)].
Definition wire (mac : list Z) (opts : list (Z * list Z)) : list Z :=
  client_msg 0 mac (enc_opts opts ++ [BOOTP_END_OPTION]).
Definition ip100 : Z := 0x6400a8c0.
Definition ip200 : Z := 0xc800a8c0.

Ltac dhcp_msg := split; [vm_compute; reflexivity|apply (bool_decide_unpack _); vm_compute; reflexivity
  |left; vm_compute; reflexivity|vm_compute; reflexivity|split; [split; vm_compute; [discriminate|reflexivity]|vm_compute; reflexivity]
  |vm_compute; reflexivity|repeat constructor; vm_compute; (discriminate || lia)|vm_compute; reflexivity|vm_compute; reflexivity
  |vm_compute; lia].

Lemma wire_disc : is_dhcp (wire (mac_of 7) disc_opts) 249 (mac_of 7) 0 disc_opts.
Proof. dhcp_msg. Qed.
Lemma wire_req n : n = 7 ∨ n = 20 ∨ n = 21 → is_dhcp (wire (mac_of n) (req_opts ip200)) 255 (mac_of n) 0 (req_opts ip200).
Proof. intros [->|[->| ->]]; dhcp_msg. Qed.
Lemma disc_opts_ok : opts_ok 0 0 disc_opts DHCP_MESSAGE_DISCOVER.
Proof. split; [|done]. repeat constructor; done. Qed.
Lemma req_opts_ok ip : opts_ok 0 ip (req_opts ip) DHCP_MESSAGE_REQUEST.
Proof. split; [|done]. repeat constructor; done. Qed.
Lemma disc_has_type : has_type disc_opts.
Proof. eexists. apply elem_of_cons. by left. Qed.
Lemma req_has_type ip : has_type (req_opts ip).
Proof. eexists. apply elem_of_cons. by left. Qed.
Lemma req_has_addr ip : has_addr 0 (req_opts ip) DHCP_MESSAGE_REQUEST.
Proof. right. exists (le_bytes ip). unfold req_opts. set_solver. Qed.
Lemma ip200_word : word ip200.
Proof. done. Qed.

(** The /24 server with that message in its buffer. *)
Definition hears (m : list Z) : dhcp_server_data := set_msg (Some m) (demo_server mask24).
Lemma hears_msg m : msg (hears m) = Some m.
Proof. reflexivity. Qed.
Lemma hears_wf m len mac ci opts : is_dhcp m len mac ci opts → server_wf 8 (hears m).
Proof. intros []. apply set_msg_wf; [|done|done]. apply demo_server_wf; [apply mask24_bits|apply mask24_starts]. Qed.

Lemma dhcp_request_decision_witness :
  ∃ p1 p2 s', process_dhcp_message send_all 12 255 (hears (wire (mac_of 7) (req_opts ip200))) = Done (0, s') ∧
    leases s' = [mk_entry (mac_of 7) ip200] ∧
    trace s' = response_trace (demo_server mask24) DHCP_MESSAGE_ACK ip200 (mac_of 7) p1 p2.
Proof.
  destruct (dhcp_request_decision send_all 8 send_all_ok (hears (wire (mac_of 7) (req_opts ip200)))
    (wire (mac_of 7) (req_opts ip200)) 255 (mac_of 7) 0 ip200
    (req_opts ip200) 12 (hears_wf _ _ _ _ _ (wire_req 7 (or_introl eq_refl))) (hears_msg _) (wire_req 7 (or_introl eq_refl)) ip200_word (req_opts_ok _)
    (req_has_type _) (req_has_addr _)) as (p1 & p2 & s' & E & L & T & _).
  exists p1, p2, s'. split; [exact E|].
  assert (M : may_lease (hears (wire (mac_of 7) (req_opts ip200))) (mac_of 7) ip200 = true) by (vm_compute; reflexivity).
  rewrite M in L, T. split; [rewrite L; vm_compute; reflexivity|rewrite T; reflexivity].
Defined.

Lemma dhcp_dora_witness :
  ∃ yi p1 p2 s1, process_dhcp_message send_all 12 249 (hears (wire (mac_of 7) disc_opts)) = Done (0, s1) ∧
    response p1 (hears (wire (mac_of 7) disc_opts)) DHCP_MESSAGE_OFFER yi [0xde; 0xad; 0xbe; 0xef] (mac_of 7) ∧
    trace s1 = response_trace (demo_server mask24) DHCP_MESSAGE_OFFER yi (mac_of 7) p1 p2.
Proof.
  destruct (dhcp_dora send_all 8 send_all_ok (hears (wire (mac_of 7) disc_opts)) (wire (mac_of 7) disc_opts) 249 (mac_of 7) 0 0 disc_opts 12
    (hears_wf _ _ _ _ _ wire_disc) (hears_msg _) wire_disc ltac:(done) ltac:(lia) ltac:(lia) disc_opts_ok disc_has_type)
    as (yi & p1 & p2 & s1 & E & _ & T & R1 & _).
  exists yi, p1, p2, s1. split; [exact E|]. split; [exact R1|exact T].
Defined.

(** Eight leases, 192.168.0.11 to 192.168.0.18. *)
Definition full_server (m : list Z) : dhcp_server_data :=
  set_msg (Some m) (foldr (λ n s, run_state (ac_add (mac_of n) (0x0a00a8c0 + n * 2 ^ 24)) s) (demo_server mask24) (seqZ 1 8)).

Lemma full_server_msg m : msg (full_server m) = Some m.
Proof. reflexivity. Qed.
Lemma add_wf k s m ip : server_wf k s → valid_lease s ip → find_mac m (leases s) = None → (ip ∉ lease_ip <$> leases s) →
  server_wf k (run_state (ac_add m ip) s).
Proof.
  intros W V F N. destruct (server_wf_add k s m ip W V F N) as (b & s' & E & W' & _).
  unfold run_state. rewrite E. exact W'.
Qed.
Lemma full_server_wf m len mac ci opts : is_dhcp m len mac ci opts → server_wf 8 (full_server m).
Proof.
  intros []. apply set_msg_wf; [|done|done]. change (seqZ 1 8) with [1; 2; 3; 4; 5; 6; 7; 8]. cbn [foldr].
  repeat (apply add_wf;
    [|split_and!; vm_compute; first [done|discriminate|split; done]|vm_compute; reflexivity
     |apply (bool_decide_unpack _); vm_compute; reflexivity]).
  apply demo_server_wf; [apply mask24_bits|apply mask24_starts].
Qed.

Lemma dhcp_full_table_duplicate_witness :
  ∃ s1 s2, process_dhcp_message send_all 12 255 (full_server (wire (mac_of 20) (req_opts ip200))) = Done (0, s1) ∧
    process_dhcp_message send_all 12 255 (set_msg (Some (wire (mac_of 21) (req_opts ip200))) s1) = Done (0, s2).
Proof.
  pose proof (wire_req 20 (or_intror (or_introl eq_refl))) as B1.
  pose proof (wire_req 21 (or_intror (or_intror eq_refl))) as B2.
  destruct (dhcp_full_table_duplicate send_all 8 send_all_ok (full_server (wire (mac_of 20) (req_opts ip200)))
    (wire (mac_of 20) (req_opts ip200)) 255 (mac_of 20) (req_opts ip200)
    (wire (mac_of 21) (req_opts ip200)) 255 (mac_of 21) (req_opts ip200) ip200 12
    (full_server_wf _ _ _ _ _ B1) ltac:(vm_compute; reflexivity) ltac:(vm_compute; reflexivity) ltac:(vm_compute; reflexivity)
    ip200_word ltac:(vm_compute; reflexivity) ltac:(vm_compute; reflexivity) (full_server_msg _) B1 (req_opts_ok _) (req_has_type _) (req_has_addr _)
    B2 (req_opts_ok _) (req_has_type _) (req_has_addr _)) as (p1 & p2 & s1 & q1 & q2 & s2 & E1 & E2 & _).
  exists s1, s2. split; [exact E1|exact E2].
Defined.

(** A query for one name; the answer is REFUSED. *)
Definition dns_query : list Z := [0x12; 0x34; 1; 0; 0; 1; 0; 0; 0; 0; 0; 0; 1; 97; 0; 0; 1; 0; 1].
Lemma dns_query_refused_witness :
  ∃ s', process_dns_message send_all 19 0x0200a8c0 (hears (dns_query ++ replicate 1005 0)) = Done (-1, s') ∧
    trace s' = [SendTo 4 0x0200a8c0 [0x12; 0x34; 0x81; 5; 0; 1; 0; 0; 0; 0; 0; 0; 1; 97; 0; 0; 1; 0; 1]].
Proof.
  destruct (dns_query_refused send_all (hears (dns_query ++ replicate 1005 0)) (dns_query ++ replicate 1005 0)
    19 0x0200a8c0 1 0 0 1 send_all_ok (hears_msg _)
    ltac:(vm_compute; reflexivity) ltac:(vm_compute; lia) eq_refl eq_refl ltac:(done) ltac:(done) ltac:(done) ltac:(done))
    as (s' & E & _ & _ & T).
  exists s'. split; [exact E|]. cbn [Nat.ltb Nat.leb Z.leb Z.compare orb andb Z.eqb] in T. rewrite T. vm_compute. reflexivity.
Defined.

(** The response bit is tested before the flags are put in host order: a
    response (top bit of the third byte) without the recursion-available bit is
    answered like a query. *)
Example dns_response_answered :
  ∃ s', process_dns_message send_all 19 0x0200a8c0
      (hears ([0x12; 0x34; 0x81; 0; 0; 1; 0; 0; 0; 0; 0; 0; 1; 97; 0; 0; 1; 0; 1] ++ replicate 1005 0)) = Done (-1, s') ∧
    length (trace s') = 1%nat.
Proof. eexists. split; vm_compute; reflexivity. Qed.

(** A REQUEST with two requested addresses, the second the server's own: with a
    full table the first one is granted but not stored, the second is not free
    and leaves the grant in place, and the server acknowledges its own address. *)
Definition two_addr_opts : list (Z * list Z) :=
  [(53, [DHCP_MESSAGE_REQUEST]); (50, le_bytes ip200); (50, le_bytes 0x0100a8c0)].
Definition sends (s : dhcp_server_data) : list (Z * list Z) :=
  omap (λ e, if e is SendTo _ d p then Some (d, sub p 240 3) else None) (trace s).
Example dhcp_own_address_granted :
  sends (run_state (process_dhcp_message send_all 12 256) (full_server (wire (mac_of 20) two_addr_opts))) =
  (0x0100a8c0, [53; 1; DHCP_MESSAGE_ACK]) :: replicate 3 (0xffffffff, [53; 1; DHCP_MESSAGE_ACK]).
Proof. vm_compute. reflexivity. Qed.

(** A datagram that fills the buffer with a pad option in its last byte: the
    length of that option is read behind the buffer. *)
Example dhcp_option_overread :
  process_dhcp_message send_all 12 1024
    (hears (take 240 (wire (mac_of 7) disc_opts) ++ concat (replicate 3 (1 :: 255 :: replicate 255 0)) ++
            (1 :: 10 :: replicate 10 0) ++ [1])) = Trap Fault.
Proof. vm_compute. reflexivity. Qed.
End DhcpdTalk.
