(* ===== verification/FlashDriver.v ===== *)
(** * The NOR flash driver: middleware/driver/flash/flash_driver.c

    The driver reads and programs the serial flash in blocks of 32 bytes through
    the controller registers of flash_ll.h, erases sectors of 4096 bytes, and
    keeps the block-protection bits of the chip's status register.

    Modelled: every function of the configured driver (quad mode enabled, origin
    API and JTAG off) but the power-management registration that this chip does
    not use, with the register layer flash_ll.h and flash_hal.c below it.  The
    controller with its chip is a parameter, [FlashDevice]: starting an operation
    gives the new state of the chip, the answer in the result registers, and the
    number of polls that still find it busy.  [FlashLaws] states the command set
    of a serial NOR flash; it is all that the theorems in FlashOps.v and FlashPort.v
    use, and [NorChip] of FlashPort.v is a chip that satisfies it.

    Disabling interrupts makes each transfer one step and is otherwise left out,
    as are the mutex that only outside callers take and the log output. *)
From S2P Require Import Prelude Bytes EfEnv.
Local Open Scope Z_scope.

(** ** Types of hal_flash_types.h, flash_types.h and flash_struct.h *)
Inductive flash_op_cmd_t :=
| FLASH_OP_CMD_WREN | FLASH_OP_CMD_WRDI | FLASH_OP_CMD_RDSR | FLASH_OP_CMD_WRSR
| FLASH_OP_CMD_READ | FLASH_OP_CMD_RDSR2 | FLASH_OP_CMD_WRSR2 | FLASH_OP_CMD_PP
| FLASH_OP_CMD_SE | FLASH_OP_CMD_RDID | FLASH_OP_CMD_CRMR.
#[export] Instance flash_op_cmd_eq : EqDecision flash_op_cmd_t.
Proof. solve_decision. Defined.

Record op_sw_t := mk_op { addr_sw_reg : Z; op_type_sw : flash_op_cmd_t; wp_value : Z }.
Record sr_cmd_t := mk_sr { wrsr_cmd_reg : Z; wrsr_cmd_sel : Z }.
Record config_t := mk_conf { clk_cfg : Z; mode_sel : Z; cpu_data_wr_en : Z; wrsr_data : Z }.

(** The controller: its registers, the words written to [data_sw_flash] since the
    last operation, the words still to be read from [data_flash_sw], the polls
    that will still find it busy, and the chip. *)
Record flash_hw_t (C : Type) := mk_hw {
  op_sw : op_sw_t;
  data_sw_flash : list Z;
  data_flash_sw : list Z;
  sr_cmd : sr_cmd_t;
  rd_flash_id : Z;
  status_reg : Z;
  config : config_t;
  busy_sw : nat;
  dev : C }.
Arguments mk_hw {C}.
Arguments op_sw {C}.
Arguments data_sw_flash {C}.
Arguments data_flash_sw {C}.
Arguments sr_cmd {C}.
Arguments rd_flash_id {C}.
Arguments status_reg {C}.
Arguments config {C}.
Arguments busy_sw {C}.
Arguments dev {C}.

Record answer (C : Type) := mk_answer {
  a_dev : C; a_data : list Z; a_id : Z; a_status : Z; a_busy : nat }.
Arguments mk_answer {C}.
Arguments a_dev {C}.
Arguments a_data {C}.
Arguments a_id {C}.
Arguments a_status {C}.
Arguments a_busy {C}.

(** ** The device *)
Class FlashDevice (C : Type) := { dev_exec : flash_hw_t C → answer C }.

(** What a serial NOR flash behind the controller does, as observed through the
    content, status register and id of the chip.  [dev_prot] is the chip's map
    from status register to protected addresses, [dev_wmask] the bits of the
    status register that can be written; bit 0, write in progress, cannot. *)
Definition block_bytes (ws : list Z) : list Z := concat (map le_bytes ws).
Definition masked (mask old new : Z) : Z := Z.lor (Z.land old (Z.lnot mask)) (Z.land new mask).

Class FlashLaws (C : Type) `{FlashDevice C} := {
  dev_ok : C → Prop;
  dev_mem : C → Z → Z;
  dev_sr : C → Z;
  dev_id : C → Z;
  dev_size : Z;
  dev_prot : Z → Z → bool;
  dev_wmask : Z;
  dev_size_max : dev_size ≤ 2 ^ 24;
  dev_size_sectors : dev_size mod 4096 = 0;
  dev_wmask_ok : 0 ≤ dev_wmask < 2 ^ 16 ∧ Z.testbit dev_wmask 0 = false;
  dev_byte : ∀ c x, dev_ok c → byte (dev_mem c x);
  dev_sr_range : ∀ c, dev_ok c → 0 ≤ dev_sr c < 2 ^ 16 ∧ Z.testbit (dev_sr c) 0 = false;
  dev_id_range : ∀ c, dev_ok c → 0 ≤ dev_id c < 2 ^ 32;
  exec_ok : ∀ h, busy_sw h = 0%nat → dev_ok (dev h) →
    dev_ok (a_dev (dev_exec h)) ∧ dev_id (a_dev (dev_exec h)) = dev_id (dev h);
  exec_mem : ∀ h, busy_sw h = 0%nat → dev_ok (dev h) →
    op_type_sw (op_sw h) ≠ FLASH_OP_CMD_PP → op_type_sw (op_sw h) ≠ FLASH_OP_CMD_SE →
    ∀ x, dev_mem (a_dev (dev_exec h)) x = dev_mem (dev h) x;
  exec_sr : ∀ h, busy_sw h = 0%nat → dev_ok (dev h) →
    op_type_sw (op_sw h) ≠ FLASH_OP_CMD_WRSR → op_type_sw (op_sw h) ≠ FLASH_OP_CMD_WRSR2 →
    dev_sr (a_dev (dev_exec h)) = dev_sr (dev h);
  exec_rdid : ∀ h, busy_sw h = 0%nat → dev_ok (dev h) →
    op_type_sw (op_sw h) = FLASH_OP_CMD_RDID → a_id (dev_exec h) = dev_id (dev h);
  exec_rdsr : ∀ h, busy_sw h = 0%nat → dev_ok (dev h) →
    op_type_sw (op_sw h) = FLASH_OP_CMD_RDSR → a_status (dev_exec h) = field (dev_sr (dev h)) 0 8;
  exec_rdsr2 : ∀ h, busy_sw h = 0%nat → dev_ok (dev h) →
    op_type_sw (op_sw h) = FLASH_OP_CMD_RDSR2 → a_status (dev_exec h) = field (dev_sr (dev h)) 8 8;
  exec_wrsr : ∀ h, busy_sw h = 0%nat → dev_ok (dev h) →
    op_type_sw (op_sw h) = FLASH_OP_CMD_WRSR →
    dev_sr (a_dev (dev_exec h)) =
      masked dev_wmask (dev_sr (dev h))
        (if (wrsr_cmd_sel (sr_cmd h) =? 1) && (wrsr_cmd_reg (sr_cmd h) =? 0x31)
         then set_field (dev_sr (dev h)) 8 8 (wrsr_data (config h))
         else set_field (dev_sr (dev h)) 0 8 (wrsr_data (config h)));
  exec_wrsr2 : ∀ h, busy_sw h = 0%nat → dev_ok (dev h) →
    op_type_sw (op_sw h) = FLASH_OP_CMD_WRSR2 →
    dev_sr (a_dev (dev_exec h)) = masked dev_wmask (dev_sr (dev h)) (wrsr_data (config h));
  exec_read : ∀ h, busy_sw h = 0%nat → dev_ok (dev h) →
    op_type_sw (op_sw h) = FLASH_OP_CMD_READ →
    addr_sw_reg (op_sw h) mod 32 = 0 → addr_sw_reg (op_sw h) + 32 ≤ dev_size →
    length (a_data (dev_exec h)) = 8%nat ∧
    block_bytes (a_data (dev_exec h)) = EfEnv.read_flash (dev_mem (dev h)) (addr_sw_reg (op_sw h)) 32;
  exec_pp : ∀ h, busy_sw h = 0%nat → dev_ok (dev h) →
    op_type_sw (op_sw h) = FLASH_OP_CMD_PP →
    addr_sw_reg (op_sw h) mod 32 = 0 → addr_sw_reg (op_sw h) + 32 ≤ dev_size →
    length (data_sw_flash h) = 8%nat → Forall (λ w, 0 ≤ w < 2 ^ 32) (data_sw_flash h) →
    ∀ x, dev_mem (a_dev (dev_exec h)) x =
      if dev_prot (dev_sr (dev h)) x then dev_mem (dev h) x
      else EfEnv.program (addr_sw_reg (op_sw h)) (block_bytes (data_sw_flash h)) (dev_mem (dev h)) x;
  exec_se : ∀ h, busy_sw h = 0%nat → dev_ok (dev h) →
    op_type_sw (op_sw h) = FLASH_OP_CMD_SE →
    addr_sw_reg (op_sw h) mod 4096 = 0 → addr_sw_reg (op_sw h) + 4096 ≤ dev_size →
    ∀ x, dev_mem (a_dev (dev_exec h)) x =
      if dev_prot (dev_sr (dev h)) x then dev_mem (dev h) x
      else EfEnv.erase_sector (addr_sw_reg (op_sw h)) (dev_mem (dev h)) x }.

Module FlashDriver.

(** ** Constants of flash_driver.h, flash_reg.h, flash_types.h and sys_types.h *)
Definition FLASH_SIZE_1M : Z := 0x100000.
Definition FLASH_SIZE_2M : Z := 0x200000.
Definition FLASH_SIZE_4M : Z := 0x400000.
Definition FLASH_SIZE_8M : Z := 0x800000.
Definition FLASH_BUFFER_LEN : nat := 8.
Definition FLASH_BYTES_CNT : Z := 32.
Definition FLASH_ADDRESS_MASK : Z := 0x1f.
Definition FLASH_ERASE_SECTOR_MASK : Z := 0xFFF000.
Definition FLASH_STATUS_REG_PROTECT_MASK : Z := 0xff.
Definition FLASH_STATUS_REG_PROTECT_OFFSET : Z := 8.
Definition FLASH_CMP_MASK : Z := 1.
Definition FLASH_DPLL_DIV_VALUE_TEN : Z := 3.
Definition FLASH_ID_GD25Q32C : Z := 0xC84016.
Definition CMD_WRSR_S8_S15 : Z := 0x31.
Definition FLASH_MODE_DUAL : Z := 1.
Definition FLASH_CLK_XTAL : Z := 0.
Definition FLASH_CLK_DPLL : Z := 1.
Definition FLASH_CLK_APLL : Z := 2.
Definition BK_ERR_FLASH_ADDR_OUT_OF_RANGE : Z := -0x3700 - 2.

Inductive flash_line_mode_t := FLASH_LINE_MODE_TWO | FLASH_LINE_MODE_FOUR.
#[export] Instance flash_line_mode_eq : EqDecision flash_line_mode_t.
Proof. solve_decision. Defined.

(** [FLASH_PROTECT_UNKNOWN] is the value -1 that [bk_flash_get_protect_type]
    returns for a status register that matches no type. *)
Inductive flash_protect_type_t :=
| FLASH_PROTECT_NONE | FLASH_PROTECT_ALL | FLASH_PROTECT_HALF | FLASH_UNPROTECT_LAST_BLOCK
| FLASH_PROTECT_UNKNOWN.
#[export] Instance flash_protect_type_eq : EqDecision flash_protect_type_t.
Proof. solve_decision. Defined.

Inductive flash_speed_type_t := FLASH_SPEED_HIGH | FLASH_SPEED_LOW.
Inductive ps_level_t := IDLE_PS | NORMAL_PS | LOWVOL_PS | DEEP_PS | OTHER_PS.

Record flash_config_t := mk_config {
  cfg_flash_id : Z; status_reg_size : Z; flash_size : Z; line_mode : flash_line_mode_t;
  cmp_post : Z; protect_post : Z; protect_mask : Z;
  protect_all : Z; protect_none : Z; protect_half : Z; unprotect_last_block : Z;
  quad_en_post : Z; quad_en_val : Z; coutinuous_read_mode_bits_val : Z; cfg_mode_sel : Z }.

Definition flash_config : list flash_config_t := [
  mk_config 0x1C7016 1 FLASH_SIZE_4M FLASH_LINE_MODE_TWO   0 2 0x1F 0x1F 0x00 0x16 0x01B 0 0 0xA5 0x01;
  mk_config 0x1C7015 1 FLASH_SIZE_2M FLASH_LINE_MODE_TWO   0 2 0x1F 0x1F 0x00 0x0d 0x0d  0 0 0xA5 0x01;
  mk_config 0x0B4014 2 FLASH_SIZE_1M FLASH_LINE_MODE_TWO  14 2 0x1F 0x1F 0x00 0x0C 0x101 9 1 0xA0 0x01;
  mk_config 0x0B4015 2 FLASH_SIZE_2M FLASH_LINE_MODE_TWO  14 2 0x1F 0x1F 0x00 0x0D 0x101 9 1 0xA0 0x01;
  mk_config 0x1C4116 2 FLASH_SIZE_4M FLASH_LINE_MODE_FOUR 14 2 0x1F 0x1F 0x00 0x0E 0x00E 9 1 0xA0 0x02;
  mk_config 0x0B4016 2 FLASH_SIZE_4M FLASH_LINE_MODE_FOUR 14 2 0x1F 0x1F 0x00 0x0E 0x101 9 1 0xA0 0x02;
  mk_config 0x0B4017 2 FLASH_SIZE_8M FLASH_LINE_MODE_TWO  14 2 0x1F 0x05 0x00 0x0E 0x109 9 1 0xA0 0x01;
  mk_config 0x0E4016 2 FLASH_SIZE_4M FLASH_LINE_MODE_TWO  14 2 0x1F 0x1F 0x00 0x0E 0x101 9 1 0xA0 0x01;
  mk_config 0xC84015 2 FLASH_SIZE_2M FLASH_LINE_MODE_TWO  14 2 0x1F 0x1F 0x00 0x0D 0x101 9 1 0xA0 0x01;
  mk_config 0xC84016 2 FLASH_SIZE_4M FLASH_LINE_MODE_FOUR 14 2 0x1F 0x1F 0x00 0x0E 0x00E 9 1 0xA0 0x02;
  mk_config 0xC86515 2 FLASH_SIZE_2M FLASH_LINE_MODE_TWO  14 2 0x1F 0x1F 0x00 0x0D 0x101 9 1 0xA0 0x01;
  mk_config 0xEF4016 2 FLASH_SIZE_4M FLASH_LINE_MODE_TWO  14 2 0x1F 0x1F 0x00 0x00 0x101 9 1 0xA0 0x01;
  mk_config 0x204016 2 FLASH_SIZE_4M FLASH_LINE_MODE_TWO  14 2 0x1F 0x1F 0x00 0x0E 0x101 9 1 0xA0 0x01;
  mk_config 0xC22315 1 FLASH_SIZE_2M FLASH_LINE_MODE_TWO   0 2 0x0F 0x0F 0x00 0x0A 0x00E 6 1 0xA5 0x01;
  mk_config 0xEB6015 2 FLASH_SIZE_2M FLASH_LINE_MODE_TWO  14 2 0x1F 0x1F 0x00 0x0D 0x101 9 1 0xA0 0x01].
(** The last entry of the table, used for an id that is not in it. *)
Definition default_config : flash_config_t :=
  mk_config 0x000000 2 FLASH_SIZE_4M FLASH_LINE_MODE_TWO   0 2 0x1F 0x00 0x00 0x00 0x000 0 0 0x00 0x01.

(** The [sleeped] bits of [PM_STATUS]. *)
Record ps_sleeped := mk_ps {
  unconditional_ps_sleeped : bool; normal_ps_sleeped : bool;
  lowvol_ps_sleeped : bool; deep_ps_sleeped : bool }.

Section Device.
Context {C : Type} `{FlashDevice C}.
Implicit Types (h : flash_hw_t C).

(** ** Register access *)
Definition set_op f h := mk_hw (f (op_sw h)) (data_sw_flash h) (data_flash_sw h) (sr_cmd h) (rd_flash_id h) (status_reg h) (config h) (busy_sw h) (dev h).
Definition set_tx l h := mk_hw (op_sw h) l (data_flash_sw h) (sr_cmd h) (rd_flash_id h) (status_reg h) (config h) (busy_sw h) (dev h).
Definition set_rx l h := mk_hw (op_sw h) (data_sw_flash h) l (sr_cmd h) (rd_flash_id h) (status_reg h) (config h) (busy_sw h) (dev h).
Definition set_sr_cmd x h := mk_hw (op_sw h) (data_sw_flash h) (data_flash_sw h) x (rd_flash_id h) (status_reg h) (config h) (busy_sw h) (dev h).
Definition set_config f h := mk_hw (op_sw h) (data_sw_flash h) (data_flash_sw h) (sr_cmd h) (rd_flash_id h) (status_reg h) (f (config h)) (busy_sw h) (dev h).
Definition set_busy n h := mk_hw (op_sw h) (data_sw_flash h) (data_flash_sw h) (sr_cmd h) (rd_flash_id h) (status_reg h) (config h) n (dev h).

Definition op_addr (a : Z) (o : op_sw_t) : op_sw_t := mk_op (a mod 2 ^ 24) (op_type_sw o) (wp_value o).
Definition op_type (c : flash_op_cmd_t) (o : op_sw_t) : op_sw_t := mk_op (addr_sw_reg o) c (wp_value o).
Definition op_wp (v : Z) (o : op_sw_t) : op_sw_t := mk_op (addr_sw_reg o) (op_type_sw o) v.
Definition conf_clk (v : Z) (c : config_t) : config_t := mk_conf (v mod 2 ^ 4) (mode_sel c) (cpu_data_wr_en c) (wrsr_data c).
Definition conf_mode (v : Z) (c : config_t) : config_t := mk_conf (clk_cfg c) (v mod 2 ^ 5) (cpu_data_wr_en c) (wrsr_data c).
Definition conf_wr_en (v : Z) (c : config_t) : config_t := mk_conf (clk_cfg c) (mode_sel c) v (wrsr_data c).
Definition conf_wrsr (v : Z) (c : config_t) : config_t := mk_conf (clk_cfg c) (mode_sel c) (cpu_data_wr_en c) (u16 v).

(** [hw->op_sw.op_sw = 1]: the controller starts the operation in its registers. *)
Definition op_start : M (flash_hw_t C) unit := λ h,
  let a := dev_exec h in
  Done (tt, mk_hw (op_sw h) [] (a_data a) (sr_cmd h) (a_id a) (a_status a) (config h) (a_busy a) (a_dev a)).

(** ** The register layer, flash_ll.h *)
Definition flash_ll_is_busy : M (flash_hw_t C) bool := λ h,
  Done (negb (busy_sw h =? 0)%nat, set_busy (pred (busy_sw h)) h).

(** [while (flash_ll_is_busy(hw));] *)
Fixpoint busy_loop (fuel : nat) : M (flash_hw_t C) unit :=
  match fuel with
  | O => trapM Hang
  | S fuel' => let* b := flash_ll_is_busy in if b then busy_loop fuel' else ret tt
  end.
Definition wait_idle : M (flash_hw_t C) unit := λ h, busy_loop (S (busy_sw h)) h.

Definition flash_ll_set_op_cmd (cmd : flash_op_cmd_t) : M (flash_hw_t C) unit :=
  modify (set_op (op_type cmd)) ;;; op_start ;;; modify (set_op (op_wp 1)).

Definition flash_ll_get_id : M (flash_hw_t C) Z :=
  flash_ll_set_op_cmd FLASH_OP_CMD_RDID ;;; wait_idle ;;; gets rd_flash_id.

Definition flash_ll_init_wrsr_cmd (wrsr_cmd : Z) : M (flash_hw_t C) unit :=
  modify (set_sr_cmd (mk_sr (u8 wrsr_cmd) 1)) ;;; wait_idle.
Definition flash_ll_deinit_wrsr_cmd : M (flash_hw_t C) unit :=
  modify (set_sr_cmd (mk_sr 1 0)) ;;; wait_idle.

Definition flash_ll_write_status_reg (sr_width sr_data : Z) : M (flash_hw_t C) unit :=
  let sr_data := u16 sr_data in
  wait_idle ;;;
  modify (set_config (conf_wrsr sr_data)) ;;;
  wait_idle ;;;
  (if sr_width =? 1 then flash_ll_set_op_cmd FLASH_OP_CMD_WRSR
   else if sr_width =? 2 then
     let* id := flash_ll_get_id in
     if FLASH_ID_GD25Q32C =? id then
       flash_ll_set_op_cmd FLASH_OP_CMD_WRSR ;;; wait_idle ;;;
       modify (set_config (conf_wrsr (Z.shiftr sr_data 8))) ;;; wait_idle ;;;
       flash_ll_init_wrsr_cmd CMD_WRSR_S8_S15 ;;; wait_idle ;;;
       flash_ll_set_op_cmd FLASH_OP_CMD_WRSR ;;; wait_idle ;;;
       flash_ll_deinit_wrsr_cmd
     else flash_ll_set_op_cmd FLASH_OP_CMD_WRSR2
   else ret tt) ;;;
  wait_idle.

Definition flash_ll_read_status_reg (sr_width : Z) : M (flash_hw_t C) Z :=
  wait_idle ;;; flash_ll_set_op_cmd FLASH_OP_CMD_RDSR ;;; wait_idle ;;;
  let* state_reg_data := gets status_reg in
  if sr_width =? 2 then
    flash_ll_set_op_cmd FLASH_OP_CMD_RDSR2 ;;; wait_idle ;;;
    let* hi := gets status_reg in ret (u16 (Z.lor state_reg_data (Z.shiftl hi 8)))
  else ret state_reg_data.

Definition flash_ll_disable_cpu_data_wr : M (flash_hw_t C) unit := modify (set_config (conf_wr_en 0)).
Definition flash_ll_clear_qwfr : M (flash_hw_t C) unit :=
  modify (set_config (conf_mode 0)) ;;; modify (set_op (op_addr 0)) ;;;
  flash_ll_set_op_cmd FLASH_OP_CMD_CRMR ;;; wait_idle.
Definition flash_ll_set_mode (m : Z) : M (flash_hw_t C) unit := modify (set_config (conf_mode m)).
Definition flash_ll_set_dual_mode : M (flash_hw_t C) unit := modify (set_config (conf_mode FLASH_MODE_DUAL)).
Definition flash_ll_set_quad_m_value (m_value : Z) : M (flash_hw_t C) unit := ret tt.

Definition flash_ll_erase_sector (erase_addr : Z) : M (flash_hw_t C) unit :=
  wait_idle ;;; modify (set_op (op_addr erase_addr)) ;;; modify (set_op (op_type FLASH_OP_CMD_SE)) ;;;
  op_start ;;; wait_idle.
Definition flash_ll_set_op_cmd_read (read_addr : Z) : M (flash_hw_t C) unit :=
  modify (set_op (op_addr read_addr)) ;;; modify (set_op (op_type FLASH_OP_CMD_READ)) ;;;
  op_start ;;; wait_idle.
Definition flash_ll_read_data : M (flash_hw_t C) Z := λ h,
  Done (default 0 (head (data_flash_sw h)), set_rx (tail (data_flash_sw h)) h).
Definition flash_ll_set_op_cmd_write (write_addr : Z) : M (flash_hw_t C) unit :=
  modify (set_op (op_addr write_addr)) ;;; modify (set_op (op_type FLASH_OP_CMD_PP)) ;;;
  op_start ;;; wait_idle.
Definition flash_ll_write_data (data : Z) : M (flash_hw_t C) unit := λ h,
  Done (tt, set_tx (data_sw_flash h ++ [data]) h).
Definition flash_ll_set_clk (v : Z) : M (flash_hw_t C) unit := modify (set_config (conf_clk v)).
Definition flash_ll_set_default_clk : M (flash_hw_t C) unit := flash_ll_set_clk 5.
Definition flash_ll_set_clk_dpll : M (flash_hw_t C) unit := modify (set_config (conf_clk 5)).
Definition flash_ll_set_clk_dco (ate_enabled : bool) : M (flash_hw_t C) unit :=
  modify (set_config (conf_clk (if ate_enabled then 0xB else 0x9))).
Definition flash_ll_write_enable : M (flash_hw_t C) unit :=
  flash_ll_set_op_cmd FLASH_OP_CMD_WREN ;;; wait_idle.
Definition flash_ll_write_disable : M (flash_hw_t C) unit :=
  flash_ll_set_op_cmd FLASH_OP_CMD_WRDI ;;; wait_idle.

(** flash_hal.c *)
Definition flash_hal_get_protect_value (sr_size post mask cpost : Z) : M (flash_hw_t C) Z :=
  let* sr_value := flash_ll_read_status_reg sr_size in
  let param := Z.land (Z.shiftr sr_value post) mask in
  let cmp := Z.land (Z.shiftr sr_value cpost) 1 in
  ret (Z.lor (Z.shiftl cmp 8) param).

(** ** State of the driver

    [hal_hw] says whether [s_flash.hal.hw] is set, [cb_calls] lists the
    power-save callbacks that ran, [cksel_flash] and [ckdiv_flash] are the clock
    fields of the system register that sys_hal.c reads and writes. *)
Record drv := mk_drv {
  hal_hw : bool;
  hw : flash_hw_t C;
  flash_id : Z;
  flash_cfg : option flash_config_t;
  s_flash_is_init : bool;
  flash_ps_status : ps_sleeped;
  s_flash_ps_suspend_cb : option nat;
  s_flash_ps_resume_cb : option nat;
  cb_calls : list nat;
  s_hold_low_speed_status : Z;
  cksel_flash : Z;
  ckdiv_flash : Z }.
Implicit Types (d : drv).

Definition set_hw h d := mk_drv (hal_hw d) h (flash_id d) (flash_cfg d) (s_flash_is_init d) (flash_ps_status d) (s_flash_ps_suspend_cb d) (s_flash_ps_resume_cb d) (cb_calls d) (s_hold_low_speed_status d) (cksel_flash d) (ckdiv_flash d).
Definition set_s_flash b i c d := mk_drv b (hw d) i c (s_flash_is_init d) (flash_ps_status d) (s_flash_ps_suspend_cb d) (s_flash_ps_resume_cb d) (cb_calls d) (s_hold_low_speed_status d) (cksel_flash d) (ckdiv_flash d).
Definition set_flash_id i d := set_s_flash (hal_hw d) i (flash_cfg d) d.
Definition set_init b d := mk_drv (hal_hw d) (hw d) (flash_id d) (flash_cfg d) b (flash_ps_status d) (s_flash_ps_suspend_cb d) (s_flash_ps_resume_cb d) (cb_calls d) (s_hold_low_speed_status d) (cksel_flash d) (ckdiv_flash d).
Definition set_ps p l d := mk_drv (hal_hw d) (hw d) (flash_id d) (flash_cfg d) (s_flash_is_init d) p (s_flash_ps_suspend_cb d) (s_flash_ps_resume_cb d) l (s_hold_low_speed_status d) (cksel_flash d) (ckdiv_flash d).
Definition set_cbs a b d := mk_drv (hal_hw d) (hw d) (flash_id d) (flash_cfg d) (s_flash_is_init d) (flash_ps_status d) a b (cb_calls d) (s_hold_low_speed_status d) (cksel_flash d) (ckdiv_flash d).
Definition set_clock hold sel div d := mk_drv (hal_hw d) (hw d) (flash_id d) (flash_cfg d) (s_flash_is_init d) (flash_ps_status d) (s_flash_ps_suspend_cb d) (s_flash_ps_resume_cb d) (cb_calls d) hold sel div.

(** A call of the register layer through [s_flash.hal], and a read of
    [s_flash.flash_cfg]: both pointers are NULL before the driver is initialised. *)
Definition on_hw {A} (m : M (flash_hw_t C) A) : M drv A := λ d,
  if hal_hw d then
    match m (hw d) with Done (a, h') => Done (a, set_hw h' d) | Trap t => Trap t end
  else Trap Fault.
Definition cfg : M drv flash_config_t := λ d,
  match flash_cfg d with Some c => Done (c, d) | None => Trap Fault end.

(** ** Line mode and power save *)
Definition flash_set_qe : M drv unit :=
  on_hw wait_idle ;;;
  let* c := cfg in
  let* status_reg := on_hw (flash_ll_read_status_reg (status_reg_size c)) in
  let qe := Z.shiftl (quad_en_val c) (quad_en_post c) in
  if negb (Z.land status_reg qe =? 0) then ret tt
  else on_hw (flash_ll_write_status_reg (status_reg_size c) (Z.lor status_reg qe)).

Definition flash_set_qwfr : M drv unit :=
  let* c := cfg in on_hw (flash_ll_set_mode (cfg_mode_sel c)).

Definition bk_flash_set_line_mode (m : flash_line_mode_t) : M drv Z :=
  on_hw flash_ll_clear_qwfr ;;;
  match m with
  | FLASH_LINE_MODE_TWO => on_hw flash_ll_set_dual_mode
  | FLASH_LINE_MODE_FOUR =>
      let* c := cfg in
      on_hw (flash_ll_set_quad_m_value (coutinuous_read_mode_bits_val c)) ;;;
      (if 1 =? quad_en_val c then flash_set_qe else ret tt) ;;;
      flash_set_qwfr
  end ;;;
  ret BK_OK.

Definition bk_flash_get_line_mode : M drv flash_line_mode_t :=
  let* c := cfg in ret (line_mode c).

Definition run_cb (cb : option nat) : M drv unit :=
  modify (λ d, set_ps (flash_ps_status d) (cb_calls d ++ option_list cb) d).

Definition flash_ps_suspend (ps_level : ps_level_t) : M drv Z :=
  match ps_level with
  | OTHER_PS => ret 0
  | _ =>
      let* cb := gets s_flash_ps_suspend_cb in run_cb cb ;;;
      let* m := bk_flash_get_line_mode in
      (if decide (FLASH_LINE_MODE_FOUR = m) then bk_flash_set_line_mode FLASH_LINE_MODE_TWO ;;; ret tt else ret tt) ;;;
      modify (λ d, set_ps (mk_ps true true true true) (cb_calls d) d) ;;;
      ret 0
  end.

Definition flash_ps_resume (ps_level : ps_level_t) : M drv Z :=
  match ps_level with
  | OTHER_PS => ret 0
  | _ =>
      let* m := bk_flash_get_line_mode in
      (if decide (FLASH_LINE_MODE_FOUR = m) then bk_flash_set_line_mode FLASH_LINE_MODE_FOUR ;;; ret tt else ret tt) ;;;
      let* cb := gets s_flash_ps_resume_cb in run_cb cb ;;;
      modify (λ d, set_ps (mk_ps false false false false) (cb_calls d) d) ;;;
      ret 0
  end.

(** ** Block protection *)
Definition FLASH_GET_PROTECT_CFG (v : Z) : Z := Z.land v FLASH_STATUS_REG_PROTECT_MASK.
Definition FLASH_GET_CMP_CFG (v : Z) : Z := Z.land (Z.shiftr v FLASH_STATUS_REG_PROTECT_OFFSET) FLASH_STATUS_REG_PROTECT_MASK.

Definition flash_get_protect_cfg (c : flash_config_t) (type : flash_protect_type_t) : Z :=
  match type with
  | FLASH_PROTECT_NONE => FLASH_GET_PROTECT_CFG (protect_none c)
  | FLASH_PROTECT_ALL => FLASH_GET_PROTECT_CFG (protect_all c)
  | FLASH_PROTECT_HALF => FLASH_GET_PROTECT_CFG (protect_half c)
  | FLASH_UNPROTECT_LAST_BLOCK => FLASH_GET_PROTECT_CFG (unprotect_last_block c)
  | FLASH_PROTECT_UNKNOWN => FLASH_GET_PROTECT_CFG (protect_all c)
  end.
Definition flash_get_cmp_cfg (c : flash_config_t) (type : flash_protect_type_t) : Z :=
  match type with
  | FLASH_PROTECT_NONE => FLASH_GET_CMP_CFG (protect_none c)
  | FLASH_PROTECT_ALL => FLASH_GET_CMP_CFG (protect_all c)
  | FLASH_PROTECT_HALF => FLASH_GET_CMP_CFG (protect_half c)
  | FLASH_UNPROTECT_LAST_BLOCK => FLASH_GET_CMP_CFG (unprotect_last_block c)
  | FLASH_PROTECT_UNKNOWN => FLASH_GET_CMP_CFG (protect_all c)
  end.
Definition flash_set_protect_cfg (c : flash_config_t) (status_reg_val new_protect_cfg : Z) : Z :=
  Z.lor (Z.land status_reg_val (Z.lnot (Z.shiftl (protect_mask c) (protect_post c))))
        (Z.shiftl (Z.land new_protect_cfg (protect_mask c)) (protect_post c)).
Definition flash_set_cmp_cfg (c : flash_config_t) (status_reg_val new_cmp_cfg : Z) : Z :=
  Z.lor (Z.land status_reg_val (Z.lnot (Z.shiftl FLASH_CMP_MASK (cmp_post c))))
        (Z.shiftl (Z.land new_cmp_cfg FLASH_CMP_MASK) (cmp_post c)).
Definition flash_is_need_update_status_reg (c : flash_config_t) (protect_cfg cmp_cfg status_reg_val : Z) : bool :=
  let cur_protect_val := Z.land (Z.shiftr status_reg_val (protect_post c)) (protect_mask c) in
  let cur_cmp_val := Z.land (Z.shiftr status_reg_val (cmp_post c)) FLASH_CMP_MASK in
  negb (cur_protect_val =? protect_cfg) || negb (cur_cmp_val =? cmp_cfg).

Definition flash_set_protect_type (type : flash_protect_type_t) : M drv unit :=
  let* c := cfg in
  let protect_cfg := flash_get_protect_cfg c type in
  let cmp_cfg := flash_get_cmp_cfg c type in
  let* status_reg := on_hw (flash_ll_read_status_reg (status_reg_size c)) in
  if flash_is_need_update_status_reg c protect_cfg cmp_cfg status_reg then
    let status_reg := flash_set_protect_cfg c status_reg protect_cfg in
    let status_reg := flash_set_cmp_cfg c status_reg cmp_cfg in
    on_hw (flash_ll_write_status_reg (status_reg_size c) status_reg)
  else ret tt.

(** ** Transfers *)

(** The inner loop of [flash_read_common]: bytes [i..] of the block go to the
    caller until the block or the request ends.  At most 32 rounds. *)
Fixpoint copy_out (fuel : nat) (pb : list Z) (i address len : Z) : list Z * Z * Z :=
  match fuel with
  | O => ([], address, len)
  | S fuel' =>
      if i <? FLASH_BYTES_CNT then
        let b := nth (Z.to_nat i) pb 0 in
        let address := u32 (address + 1) in
        let len := u32 (len - 1) in
        if len =? 0 then ([b], address, len)
        else let '(bs, address, len) := copy_out fuel' pb (i + 1) address len in
             (b :: bs, address, len)
      else ([], address, len)
  end.

Fixpoint read_words (n : nat) : M (flash_hw_t C) (list Z) :=
  match n with
  | O => ret []
  | S n' => let* w := flash_ll_read_data in let* ws := read_words n' in ret (w :: ws)
  end.

(** [while (len)]; [fuel] bounds the tests. *)
Fixpoint read_loop (fuel : nat) (addr address len : Z) : M drv (list Z) :=
  match fuel with
  | O => trapM Hang
  | S fuel' =>
      if len =? 0 then ret []
      else
        on_hw (flash_ll_set_op_cmd_read addr) ;;;
        let addr := u32 (addr + FLASH_BYTES_CNT) in
        let* buf := on_hw (read_words FLASH_BUFFER_LEN) in
        let '(bs, address, len) := copy_out 32 (block_bytes buf) (address mod FLASH_BYTES_CNT) address len in
        let* rest := read_loop fuel' addr address len in
        ret (bs ++ rest)
  end.

Definition flash_read_common (address len : Z) : M drv (list Z) :=
  let addr := Z.land address (Z.lnot FLASH_ADDRESS_MASK) in
  if len =? 0 then ret []
  else on_hw wait_idle ;;; read_loop (S (Z.to_nat len)) addr address len.

(** The inner loop of [flash_write_common]: bytes of the caller replace bytes
    [i..] of the block. *)
Fixpoint fill_block (fuel : nat) (pb buffer : list Z) (i address len : Z) : list Z * list Z * Z * Z :=
  match fuel with
  | O => (pb, buffer, address, len)
  | S fuel' =>
      if i <? FLASH_BYTES_CNT then
        let pb := write_at pb (Z.to_nat i) [default 0 (head buffer)] in
        let buffer := tail buffer in
        let address := u32 (address + 1) in
        let len := u32 (len - 1) in
        if len =? 0 then (pb, buffer, address, len)
        else fill_block fuel' pb buffer (i + 1) address len
      else (pb, buffer, address, len)
  end.

(** The block buffer seen as words. *)
Fixpoint words (n : nat) (pb : list Z) : list Z :=
  match n with O => [] | S n' => le32 pb :: words n' (drop 4 pb) end.

Fixpoint write_words (ws : list Z) : M (flash_hw_t C) unit :=
  match ws with
  | [] => ret tt
  | w :: ws' => flash_ll_write_data w ;;; write_words ws'
  end.

Fixpoint write_loop (fuel : nat) (pb buffer : list Z) (addr address len : Z) : M drv unit :=
  match fuel with
  | O => trapM Hang
  | S fuel' =>
      if len =? 0 then ret tt
      else
        let* pb := if len <? FLASH_BYTES_CNT then
                     let* pb := flash_read_common addr FLASH_BYTES_CNT in
                     on_hw wait_idle ;;; ret pb
                   else ret pb in
        let '(pb, buffer, address, len) := fill_block 32 pb buffer (address mod FLASH_BYTES_CNT) address len in
        on_hw (write_words (words FLASH_BUFFER_LEN pb)) ;;;
        on_hw (flash_ll_set_op_cmd_write addr) ;;;
        let addr := u32 (addr + FLASH_BYTES_CNT) in
        write_loop fuel' (replicate 32 0xFF) buffer addr address len
  end.

Definition flash_write_common (buffer : list Z) (address len : Z) : M drv Z :=
  let addr := Z.land address (Z.lnot FLASH_ADDRESS_MASK) in
  let* c := cfg in
  if (flash_size c <=? addr) || (flash_size c <? len) || (flash_size c <? u32 (addr + len))
  then ret BK_ERR_FLASH_ADDR_OUT_OF_RANGE
  else
    let* pb := if negb (address mod FLASH_BYTES_CNT =? 0)
               then flash_read_common addr FLASH_BYTES_CNT
               else ret (replicate 32 0xFF) in
    on_hw wait_idle ;;;
    write_loop (S (Z.to_nat len)) pb buffer addr address len ;;;
    ret BK_OK.

(** ** Clock *)
Definition bk_flash_set_clk (flash_src_clk flash_dpll_div : Z) : M drv Z := λ d,
  if (FLASH_CLK_DPLL =? flash_src_clk) && (flash_dpll_div =? 0) then Done (BK_FAIL, d)
  else if FLASH_CLK_APLL =? flash_src_clk then Done (BK_FAIL, d)
  else if (cksel_flash d =? flash_src_clk) && (ckdiv_flash d =? flash_dpll_div) then Done (BK_OK, d)
  else
    let div := if FLASH_CLK_DPLL =? flash_src_clk then flash_dpll_div mod 2 ^ 2 else ckdiv_flash d in
    Done (BK_OK, set_clock (s_hold_low_speed_status d) (flash_src_clk mod 2 ^ 2) div d).

Definition bk_flash_clk_switch (t : flash_speed_type_t) (modules : Z) : M drv Z :=
  match t with
  | FLASH_SPEED_LOW =>
      modify (λ d, set_clock (Z.lor (s_hold_low_speed_status d) modules) (cksel_flash d) (ckdiv_flash d) d) ;;;
      let* hold := gets s_hold_low_speed_status in
      if negb (hold =? 0) then bk_flash_set_clk FLASH_CLK_XTAL FLASH_DPLL_DIV_VALUE_TEN ;;; ret BK_OK
      else ret BK_OK
  | FLASH_SPEED_HIGH =>
      modify (λ d, set_clock (Z.land (s_hold_low_speed_status d) (Z.lnot modules)) (cksel_flash d) (ckdiv_flash d) d) ;;;
      let* hold := gets s_hold_low_speed_status in
      if hold =? 0 then bk_flash_set_clk FLASH_CLK_DPLL FLASH_DPLL_DIV_VALUE_TEN ;;; ret BK_OK
      else ret BK_OK
  end.

(** ** Interface of the driver *)
Definition flash_get_current_config : M drv unit := λ d,
  let c := default default_config (find (λ c, flash_id d =? cfg_flash_id c) flash_config) in
  Done (tt, set_s_flash (hal_hw d) (flash_id d) (Some c) d).

(** [mutex_result] is what [rtos_init_mutex] and [rtos_deinit_mutex] return. *)
Definition bk_flash_driver_init (mutex_result : Z) : M drv Z :=
  let* inited := gets s_flash_is_init in
  if inited then ret BK_OK
  else
    modify (set_s_flash false 0 None) ;;;
    modify (set_s_flash true 0 None) ;;;
    let* id := on_hw flash_ll_get_id in
    modify (set_flash_id id) ;;;
    flash_get_current_config ;;;
    flash_set_protect_type FLASH_UNPROTECT_LAST_BLOCK ;;;
    on_hw flash_ll_disable_cpu_data_wr ;;;
    let* c := cfg in
    bk_flash_set_line_mode (line_mode c) ;;;
    on_hw flash_ll_set_default_clk ;;;
    bk_flash_clk_switch FLASH_SPEED_HIGH 0 ;;;
    BK_ASSERT (mutex_result =? 0) ;;;
    modify (set_init true) ;;;
    ret BK_OK.

Definition bk_flash_driver_deinit (mutex_result : Z) : M drv Z :=
  let* inited := gets s_flash_is_init in
  if negb inited then ret BK_OK
  else BK_ASSERT (mutex_result =? 0) ;;; modify (set_init false) ;;; ret BK_OK.

Definition bk_flash_erase_sector (address : Z) : M drv Z :=
  let erase_addr := Z.land address FLASH_ERASE_SECTOR_MASK in
  flash_ps_suspend NORMAL_PS ;;;
  let* c := cfg in
  if flash_size c <=? erase_addr then ret BK_ERR_FLASH_ADDR_OUT_OF_RANGE
  else
    on_hw (flash_ll_erase_sector erase_addr) ;;;
    flash_ps_resume NORMAL_PS ;;;
    ret BK_OK.

Definition bk_flash_read_bytes (address size : Z) : M drv (Z * list Z) :=
  let* c := cfg in
  if flash_size c <=? address then ret (BK_ERR_FLASH_ADDR_OUT_OF_RANGE, [])
  else let* bs := flash_read_common address size in ret (BK_OK, bs).

Definition bk_flash_write_bytes (address : Z) (user_buf : list Z) (size : Z) : M drv Z :=
  flash_ps_suspend NORMAL_PS ;;;
  let* c := cfg in
  if flash_size c <=? address then ret BK_ERR_FLASH_ADDR_OUT_OF_RANGE
  else
    flash_write_common user_buf address size ;;;
    flash_ps_resume NORMAL_PS ;;;
    ret BK_OK.

(** The body of the calls that wrap one access to the hardware. *)
Definition suspended {A} (m : M drv A) : M drv A :=
  flash_ps_suspend NORMAL_PS ;;; let* a := m in flash_ps_resume NORMAL_PS ;;; ret a.

Definition bk_flash_get_id : M drv Z :=
  suspended (let* id := on_hw flash_ll_get_id in modify (set_flash_id id)) ;;; gets flash_id.
Definition bk_flash_set_clk_dpll : M drv Z :=
  suspended (modify (λ d, set_clock (s_hold_low_speed_status d) FLASH_CLK_APLL (ckdiv_flash d) d) ;;;
             on_hw flash_ll_set_clk_dpll) ;;; ret BK_OK.
Definition bk_flash_set_clk_dco (ate_enabled : bool) : M drv Z :=
  suspended (modify (λ d, set_clock (s_hold_low_speed_status d) FLASH_CLK_DPLL (ckdiv_flash d) d) ;;;
             on_hw (flash_ll_set_clk_dco ate_enabled)) ;;; ret BK_OK.
Definition bk_flash_write_enable : M drv Z := suspended (on_hw flash_ll_write_enable) ;;; ret BK_OK.
Definition bk_flash_write_disable : M drv Z := suspended (on_hw flash_ll_write_disable) ;;; ret BK_OK.
Definition bk_flash_read_status_reg : M drv Z :=
  suspended (let* c := cfg in on_hw (flash_ll_read_status_reg (status_reg_size c))).
Definition bk_flash_write_status_reg (status_reg_data : Z) : M drv Z :=
  suspended (let* c := cfg in on_hw (flash_ll_write_status_reg (status_reg_size c) status_reg_data)) ;;; ret BK_OK.

Definition protect_type_of (c : flash_config_t) (protect_value : Z) : flash_protect_type_t :=
  if protect_value =? protect_all c then FLASH_PROTECT_ALL
  else if protect_value =? protect_none c then FLASH_PROTECT_NONE
  else if protect_value =? protect_half c then FLASH_PROTECT_HALF
  else if protect_value =? unprotect_last_block c then FLASH_UNPROTECT_LAST_BLOCK
  else FLASH_PROTECT_UNKNOWN.
Definition bk_flash_get_protect_type : M drv flash_protect_type_t :=
  suspended (let* c := cfg in
             let* v := on_hw (flash_hal_get_protect_value (status_reg_size c) (protect_post c) (protect_mask c) (cmp_post c)) in
             ret (protect_type_of c v)).
Definition bk_flash_set_protect_type (type : flash_protect_type_t) : M drv Z :=
  suspended (flash_set_protect_type type) ;;; ret BK_OK.

Definition bk_flash_is_driver_inited (d : drv) : bool := s_flash_is_init d.
Definition bk_flash_get_current_total_size : M drv Z := let* c := cfg in ret (flash_size c).
Definition bk_flash_register_ps_suspend_callback (cb : option nat) : M drv Z :=
  modify (λ d, set_cbs cb (s_flash_ps_resume_cb d) d) ;;; ret BK_OK.
Definition bk_flash_register_ps_resume_callback (cb : option nat) : M drv Z :=
  modify (λ d, set_cbs (s_flash_ps_suspend_cb d) cb d) ;;; ret BK_OK.

End Device.
Arguments drv : clear implicits.

End FlashDriver.
