(* ===== verification/FlashOps.v ===== *)
(** * The flash driver on a device that obeys the laws

    From the bits of the status register over the register layer and the block
    transfers up to the driver's calls: each lemma gives what a call does to the
    content and the status register of the chip, for any device of class
    [FlashLaws].  The theorems about the driver are in FlashPort.v. *)
From S2P Require Import Prelude Bytes EfEnv FlashDriver.
Import FlashDriver.
Local Open Scope Z_scope.

Module FlashOps.

(** ** Bits of the status register *)
Lemma masked_spec m a b i : 0 ≤ i →
  Z.testbit (masked m a b) i = if Z.testbit m i then Z.testbit b i else Z.testbit a i.
Proof.
  intros Hi. unfold masked. rewrite Z.lor_spec, !Z.land_spec, Z.lnot_spec by done.
  destruct (Z.testbit m i); cbn [negb]; rewrite ?andb_true_r, ?andb_false_r; [done|apply orb_false_r].
Qed.

Lemma masked_same m a : masked m a a = a.
Proof. apply Z.bits_inj'. intros i Hi. rewrite masked_spec by done. by destruct (Z.testbit m i). Qed.

Lemma masked_set_field m a b off n v : 0 ≤ off → 0 ≤ n →
  (∀ i, off ≤ i < off + n → Z.testbit m i = true) →
  masked m a (set_field b off n v) = set_field (masked m a b) off n v.
Proof.
  intros Ho Hn Hm. apply Z.bits_inj'. intros i Hi.
  rewrite masked_spec, !set_field_spec, masked_spec by done.
  destruct (Z.leb_spec off i), (Z.ltb_spec i (off + n)); cbn [andb]; try done. by rewrite Hm by lia.
Qed.

Lemma set_field_field w off n : 0 ≤ off → 0 ≤ n → set_field w off n (field w off n) = w.
Proof.
  intros Ho Hn. apply Z.bits_inj'. intros i Hi. rewrite set_field_spec by done.
  destruct (Z.leb_spec off i), (Z.ltb_spec i (off + n)); cbn [andb]; try done.
  rewrite field_spec by lia. replace (i - off + off) with i by lia.
  by rewrite (proj2 (Z.ltb_lt _ _)) by lia.
Qed.

(** Changing a field of the low byte and writing the byte back. *)
Lemma set_low_byte w b off n v : 0 ≤ off → 0 ≤ n → off + n ≤ 8 →
  set_field w 0 8 (set_field b off n v) = set_field (set_field w 0 8 b) off n v.
Proof.
  intros Ho Hn Hl. apply Z.bits_inj'. intros i Hi. rewrite !set_field_spec by lia.
  replace (i - 0) with i by lia. cbn [andb]. change (0 + 8) with 8.
  destruct (Z.leb_spec 0 i), (Z.ltb_spec i 8), (Z.leb_spec off i), (Z.ltb_spec i (off + n)); cbn [andb]; try done; lia.
Qed.

Lemma set_field_range w off n v k : 0 ≤ off → 0 ≤ n → off + n ≤ k →
  0 ≤ w < 2 ^ k → 0 ≤ set_field w off n v < 2 ^ k.
Proof.
  intros Ho Hn Hk Hw.
  replace (set_field w off n v) with (set_field w off n v mod 2 ^ k); [apply Z.mod_pos_bound; lia|].
  apply Z.bits_inj'. intros i Hi. destruct (Z.ltb_spec i k).
  - by rewrite Z.mod_pow2_bits_low by lia.
  - rewrite Z.mod_pow2_bits_high by lia. rewrite set_field_spec by lia.
    rewrite (proj2 (Z.ltb_ge i (off + n))), andb_false_r by lia.
    rewrite <-(Z.mod_small w (2 ^ k)) by done. by rewrite Z.mod_pow2_bits_high by lia.
Qed.

Lemma masked_range m a b : 0 ≤ m < 2 ^ 16 → 0 ≤ a < 2 ^ 16 → 0 ≤ masked m a b < 2 ^ 16.
Proof.
  intros Hm Ha. replace (masked m a b) with (masked m a b mod 2 ^ 16); [apply Z.mod_pos_bound; lia|].
  apply Z.bits_inj'. intros i Hi. destruct (Z.ltb_spec i 16).
  - by rewrite Z.mod_pow2_bits_low by lia.
  - rewrite Z.mod_pow2_bits_high, masked_spec by lia.
    rewrite <-(Z.mod_small m (2 ^ 16)), <-(Z.mod_small a (2 ^ 16)) by done.
    by rewrite !Z.mod_pow2_bits_high by lia.
Qed.

(** Two one-byte writes amount to one two-byte write. *)
Lemma two_byte_write m sr data : 0 ≤ m < 2 ^ 16 →
  let sr1 := masked m sr (set_field sr 0 8 data) in
  masked m sr1 (set_field sr1 8 8 (Z.shiftr data 8)) = masked m sr data.
Proof.
  intros Hm sr1. apply Z.bits_inj'. intros i Hi. unfold sr1.
  rewrite !masked_spec, !set_field_spec, !masked_spec, !set_field_spec by lia.
  destruct (Z.testbit m i) eqn:E; [|done].
  assert (i < 16).
  { destruct (Z.ltb_spec i 16); [done|]. rewrite <-(Z.mod_small m (2 ^ 16)) in E by done.
    by rewrite Z.mod_pow2_bits_high in E by lia. }
  destruct (Z.leb_spec 8 i), (Z.ltb_spec i (8 + 8)); cbn [andb]; try lia.
  - rewrite Z.shiftr_spec by lia. f_equal. lia.
  - rewrite (proj2 (Z.leb_le 0 i)), (proj2 (Z.ltb_lt i (0 + 8))) by lia. cbn [andb]. f_equal. lia.
Qed.

(** Reading the register as two bytes. *)
Lemma two_byte_read sr : 0 ≤ sr < 2 ^ 16 → u16 (Z.lor (field sr 0 8) (Z.shiftl (field sr 8 8) 8)) = sr.
Proof.
  intros Hs. apply Z.bits_inj'. intros i Hi. unfold u16. destruct (Z.ltb_spec i 16).
  - rewrite Z.mod_pow2_bits_low, Z.lor_spec, Z.shiftl_spec, (field_spec sr 0 8 i) by lia.
    rewrite Z.add_0_r. destruct (Z.ltb_spec i 8); cbn [andb].
    + rewrite (Z.testbit_neg_r _ (i - 8)) by lia. apply orb_false_r.
    + rewrite field_spec by lia. rewrite (proj2 (Z.ltb_lt (i - 8) 8)) by lia. cbn [andb orb]. f_equal. lia.
  - rewrite Z.mod_pow2_bits_high by lia.
    rewrite <-(Z.mod_small sr (2 ^ 16)) by done. by rewrite Z.mod_pow2_bits_high by lia.
Qed.

(** ** The register layer on a device that obeys the laws *)
Section Laws.
Context {C : Type} `{FlashLaws C}.
Implicit Types (h : flash_hw_t C) (d : drv C).

(** Between operations the controller is idle, has no data waiting to be written,
    and sends the standard command to write the status register. *)
Definition ready h : Prop :=
  busy_sw h = 0%nat ∧ wrsr_cmd_sel (sr_cmd h) = 0 ∧ dev_ok (dev h) ∧ data_sw_flash h = [].

(** After an operation: the content went through [F], status register and mode
    are [sr] and [m], and the controller is ready again. *)
Definition hpost (F : (Z → Z) → Z → Z) (sr m : Z) h h' : Prop :=
  ready h' ∧ (∀ x, dev_mem (dev h') x = F (dev_mem (dev h)) x) ∧
  dev_sr (dev h') = sr ∧ dev_id (dev h') = dev_id (dev h) ∧ mode_sel (config h') = m.
Definition hsame h h' : Prop := hpost (λ f, f) (dev_sr (dev h)) (mode_sel (config h)) h h'.

Lemma busy_loop_done n h : (busy_sw h < n)%nat → busy_loop n h = Done (tt, set_busy 0 h).
Proof.
  revert h. induction n as [|n IH]; intros h Hn; [lia|]. cbn [busy_loop].
  erewrite bind_done by reflexivity. destruct (busy_sw h) as [|k] eqn:E; cbn [Nat.eqb negb].
  - unfold ret. destruct h; cbn in *. by rewrite E.
  - rewrite IH by (cbn; lia). done.
Qed.
Lemma wait_idle_done h : wait_idle h = Done (tt, set_busy 0 h).
Proof. apply busy_loop_done. lia. Qed.

Lemma wp_wait h Q : Q tt (set_busy 0 h) → wp wait_idle h Q.
Proof. apply wp_done, wait_idle_done. Qed.
Lemma ready_idle h : ready h → set_busy 0 h = h.
Proof. intros (E & _). destruct h; cbn in *. by rewrite E. Qed.
Lemma wp_wait_ready h Q : ready h → Q tt h → wp wait_idle h Q.
Proof. intros Hr Hq. apply wp_wait. by rewrite ready_idle. Qed.

(** Starting a command and waiting for its end. *)
Definition run_op (c : flash_op_cmd_t) h : flash_hw_t C :=
  let a := dev_exec (set_op (op_type c) h) in
  mk_hw (op_wp 1 (op_type c (op_sw h))) [] (a_data a) (sr_cmd h) (a_id a) (a_status a) (config h) 0 (a_dev a).

Lemma wp_cmd c {B} (k : unit → M (flash_hw_t C) B) h Q :
  wp (k tt) (run_op c h) Q → wp (flash_ll_set_op_cmd c ;;; (let* x := wait_idle in k x)) h Q.
Proof.
  intros HQ. apply wp_bind. eapply wp_done; [reflexivity|]. apply wp_bind, wp_wait. exact HQ.
Qed.
Lemma wp_cmd_last c h (Q : unit → flash_hw_t C → Prop) :
  Q tt (run_op c h) → wp (flash_ll_set_op_cmd c ;;; wait_idle) h Q.
Proof. intros HQ. apply wp_bind. eapply wp_done; [reflexivity|]. by apply wp_wait. Qed.

Lemma run_op_ready c h : ready h → ready (run_op c h) ∧ dev_id (dev (run_op c h)) = dev_id (dev h).
Proof.
  intros (B & S & O & T). destruct (exec_ok (set_op (op_type c) h) B O) as [O' I].
  by split; [split_and!|].
Qed.

Lemma run_op_mem c h x : ready h → c ≠ FLASH_OP_CMD_PP → c ≠ FLASH_OP_CMD_SE →
  dev_mem (dev (run_op c h)) x = dev_mem (dev h) x.
Proof. intros (B & S & O & T) N1 N2. exact (exec_mem (set_op (op_type c) h) B O N1 N2 x). Qed.
Lemma run_op_sr c h : ready h → c ≠ FLASH_OP_CMD_WRSR → c ≠ FLASH_OP_CMD_WRSR2 →
  dev_sr (dev (run_op c h)) = dev_sr (dev h).
Proof. intros (B & S & O & T) N1 N2. exact (exec_sr (set_op (op_type c) h) B O N1 N2). Qed.

(** Commands that only read. *)
Definition quiet_cmd (c : flash_op_cmd_t) : bool :=
  match c with
  | FLASH_OP_CMD_PP | FLASH_OP_CMD_SE | FLASH_OP_CMD_WRSR | FLASH_OP_CMD_WRSR2 => false
  | _ => true
  end.
Lemma run_op_quiet c h : ready h → quiet_cmd c = true → hsame h (run_op c h).
Proof.
  intros R Qc. destruct (run_op_ready c h R) as [R' I]. split_and!; try done.
  - intros x. apply run_op_mem; [done|by destruct c..].
  - apply run_op_sr; [done|by destruct c..].
Qed.

Lemma hsame_ready h h' : hsame h h' → ready h'.
Proof. by intros (R & _). Qed.
Lemma hsame_refl h : ready h → hsame h h.
Proof. done. Qed.
Lemma hpost_trans_l F sr m h1 h2 h3 : hsame h1 h2 → hpost F sr m h2 h3 →
  (∀ f g, (∀ x, f x = g x) → ∀ x, F f x = F g x) → hpost F sr m h1 h3.
Proof.
  intros (R & M & S & I & D) (R' & M' & S' & I' & D') HF. split_and!; try done.
  - intros x. rewrite M'. by apply HF.
  - by rewrite I'.
Qed.
Lemma hsame_trans h1 h2 h3 : hsame h1 h2 → hsame h2 h3 → hsame h1 h3.
Proof.
  intros A B. pose proof A as (_ & _ & S & _ & D). unfold hsame in B. rewrite S, D in B.
  by eapply hpost_trans_l; [exact A|exact B|].
Qed.

Lemma flash_ll_get_id_ok h : ready h →
  wp flash_ll_get_id h (λ a h', a = dev_id (dev h) ∧ hsame h h' ∧ config h' = config h).
Proof.
  intros R. unfold flash_ll_get_id. apply wp_cmd, wp_gets. split; [|by split; [apply run_op_quiet|]].
  destruct R as (B & S & O & T). by apply (exec_rdid (set_op (op_type FLASH_OP_CMD_RDID) h)).
Qed.

Definition sr_view (w sr : Z) : Z := if w =? 2 then sr else field sr 0 8.

Lemma flash_ll_read_status_reg_ok w h : ready h →
  wp (flash_ll_read_status_reg w) h (λ a h', a = sr_view w (dev_sr (dev h)) ∧ hsame h h').
Proof.
  intros R. unfold flash_ll_read_status_reg. apply wp_bind, wp_wait_ready; [done|]. apply wp_cmd.
  set (h1 := run_op FLASH_OP_CMD_RDSR h). assert (S1 : hsame h h1) by (by apply run_op_quiet).
  apply wp_bind, wp_gets.
  assert (status_reg h1 = field (dev_sr (dev h)) 0 8) as ->.
  { destruct R as (B & S & O & T). by apply (exec_rdsr (set_op (op_type FLASH_OP_CMD_RDSR) h)). }
  unfold sr_view. destruct (Z.eqb_spec w 2); [|by apply wp_ret].
  apply wp_cmd, wp_bind, wp_gets, wp_ret.
  pose proof (hsame_ready _ _ S1) as R1.
  split; [|eapply hsame_trans; [exact S1|]; by apply run_op_quiet].
  assert (status_reg (run_op FLASH_OP_CMD_RDSR2 h1) = field (dev_sr (dev h1)) 8 8) as ->.
  { destruct R1 as (B & S & O & T). by apply (exec_rdsr2 (set_op (op_type FLASH_OP_CMD_RDSR2) h1)). }
  destruct S1 as (_ & _ & -> & _). apply two_byte_read. destruct R as (_ & _ & O & _). by apply dev_sr_range.
Qed.

(** What writing the status register leaves in it. *)
Definition sr_write (w sr data : Z) : Z :=
  if w =? 1 then masked dev_wmask sr (set_field sr 0 8 data)
  else if w =? 2 then masked dev_wmask sr data else sr.

Lemma run_op_wrsr h : ready h →
  let h' := run_op FLASH_OP_CMD_WRSR h in
  hpost (λ f, f) (masked dev_wmask (dev_sr (dev h)) (set_field (dev_sr (dev h)) 0 8 (wrsr_data (config h))))
    (mode_sel (config h)) h h'.
Proof.
  intros R h'. destruct (run_op_ready FLASH_OP_CMD_WRSR h R) as [R' I]. split_and!; try done.
  - intros x. by apply run_op_mem.
  - destruct R as (B & S & O & T). unfold h', run_op. cbn [dev].
    rewrite (exec_wrsr (set_op (op_type FLASH_OP_CMD_WRSR) h)) by done. cbn. by rewrite S.
Qed.

Lemma run_op_wrsr_high h h0 : ready h → h0 = set_sr_cmd (mk_sr CMD_WRSR_S8_S15 1) h →
  let h' := set_sr_cmd (mk_sr 1 0) (run_op FLASH_OP_CMD_WRSR h0) in
  hpost (λ f, f) (masked dev_wmask (dev_sr (dev h)) (set_field (dev_sr (dev h)) 8 8 (wrsr_data (config h))))
    (mode_sel (config h)) h h'.
Proof.
  intros (B & S & O & T) -> h'.
  set (h1 := set_op (op_type FLASH_OP_CMD_WRSR) (set_sr_cmd (mk_sr CMD_WRSR_S8_S15 1) h)).
  destruct (exec_ok h1 B O) as [O' I]. split_and!; try done.
  - intros x. exact (exec_mem h1 B O ltac:(done) ltac:(done) x).
  - exact (exec_wrsr h1 B O eq_refl).
Qed.

Lemma run_op_wrsr2 h : ready h →
  hpost (λ f, f) (masked dev_wmask (dev_sr (dev h)) (wrsr_data (config h)))
    (mode_sel (config h)) h (run_op FLASH_OP_CMD_WRSR2 h).
Proof.
  intros R. destruct (run_op_ready FLASH_OP_CMD_WRSR2 h R) as [R' I]. split_and!; try done.
  - intros x. by apply run_op_mem.
  - destruct R as (B & S & O & T). exact (exec_wrsr2 (set_op (op_type FLASH_OP_CMD_WRSR2) h) B O eq_refl).
Qed.

Lemma u16_u16 z : u16 (u16 z) = u16 z.
Proof. apply u16_small, u16_range. Qed.

Lemma hpost_config F sr m h h' f : (∀ c, mode_sel (f c) = mode_sel c) →
  hpost F sr m (set_config f h) h' ↔ hpost F sr m h h'.
Proof. done. Qed.

(** One operation after another that leaves the content alone. *)
Lemma hpost_seq sr1 m1 sr2 m2 h1 h2 h3 :
  hpost (λ f, f) sr1 m1 h1 h2 → hpost (λ f, f) sr2 m2 h2 h3 → hpost (λ f, f) sr2 m2 h1 h3.
Proof.
  intros (R & M & S & I & D) (R' & M' & S' & I' & D'). split_and!; try done.
  - intros x. by rewrite M', M.
  - by rewrite I'.
Qed.

Lemma wp_write_gd data h (k : unit → flash_hw_t C → Prop) : ready h →
  wrsr_data (config h) = u16 data →
  (∀ h', hpost (λ f, f) (masked dev_wmask (dev_sr (dev h)) (u16 data)) (mode_sel (config h)) h h' → k tt h') →
  wp (flash_ll_set_op_cmd FLASH_OP_CMD_WRSR ;;; wait_idle ;;;
      modify (set_config (conf_wrsr (Z.shiftr (u16 data) 8))) ;;; wait_idle ;;;
      flash_ll_init_wrsr_cmd CMD_WRSR_S8_S15 ;;; wait_idle ;;;
      flash_ll_set_op_cmd FLASH_OP_CMD_WRSR ;;; wait_idle ;;;
      flash_ll_deinit_wrsr_cmd) h k.
Proof.
  intros R Hd Hk. apply (wp_cmd FLASH_OP_CMD_WRSR).
  pose proof (run_op_wrsr h R) as P1. cbv zeta in P1. set (h1 := run_op FLASH_OP_CMD_WRSR h) in *.
  pose proof P1 as (R1 & _ & S1 & _ & D1).
  apply wp_bind, wp_modify, wp_bind, wp_wait_ready; [exact R1|].
  apply wp_bind, wp_bind, wp_modify, wp_wait, wp_bind, wp_wait.
  set (h2 := set_config (conf_wrsr (Z.shiftr (u16 data) 8)) h1).
  assert (R2 : ready h2) by exact R1.
  assert (ready_set : set_busy 0 (set_busy 0 (set_sr_cmd (mk_sr (u8 CMD_WRSR_S8_S15) 1) h2)) =
                      set_sr_cmd (mk_sr CMD_WRSR_S8_S15 1) h2).
  { destruct R2 as (B & _). destruct h2. cbn in *. by rewrite B. }
  rewrite ready_set. apply (wp_cmd FLASH_OP_CMD_WRSR). apply wp_bind, wp_modify, wp_wait.
  pose proof (run_op_wrsr_high h2 _ R2 eq_refl) as P2. cbv zeta in P2.
  apply Hk. rewrite <-D1. rewrite <-two_byte_write by apply dev_wmask_ok. cbv zeta.
  rewrite <-Hd, <-S1. eapply hpost_seq; [exact P1|].
  assert (wrsr_data (config h2) = Z.shiftr (wrsr_data (config h)) 8) as E.
  { cbn. rewrite Hd. apply u16_small. pose proof (u16_range data). split; [apply Z.shiftr_nonneg; lia|].
    rewrite Z.shiftr_div_pow2 by lia. apply Z.div_lt_upper_bound; lia. }
  rewrite E in P2. exact P2.
Qed.

Lemma flash_ll_write_status_reg_ok w data h : ready h →
  wp (flash_ll_write_status_reg w data) h
    (λ _ h', hpost (λ f, f) (sr_write w (dev_sr (dev h)) (u16 data)) (mode_sel (config h)) h h').
Proof.
  intros R. unfold flash_ll_write_status_reg. cbv zeta.
  apply wp_bind, wp_wait_ready; [done|]. apply wp_bind, wp_modify, wp_bind.
  set (h1 := set_config (conf_wrsr (u16 data)) h). assert (R1 : ready h1) by exact R.
  apply wp_wait_ready; [done|]. apply wp_bind.
  assert (W1 : wrsr_data (config h1) = u16 data) by apply u16_u16.
  unfold sr_write. destruct (Z.eqb_spec w 1) as [->|N1]; [|destruct (Z.eqb_spec w 2) as [->|N2]].
  - eapply wp_done; [reflexivity|]. apply wp_wait. rewrite <-W1. apply (run_op_wrsr h1 R1).
  - apply wp_bind. eapply wp_mono; [by apply flash_ll_get_id_ok|]. intros id h2 (-> & S2 & C2).
    pose proof (hsame_ready _ _ S2) as R2. rewrite <-C2 in W1.
    assert (E : hpost (λ f, f) (masked dev_wmask (dev_sr (dev h)) (u16 data)) (mode_sel (config h)) h =
                hpost (λ f, f) (masked dev_wmask (dev_sr (dev h1)) (u16 data)) (mode_sel (config h1)) h1) by done.
    rewrite E. pose proof S2 as (_ & _ & <- & _ & <-).
    destruct (_ =? _).
    + apply (wp_write_gd data); [done..|]. intros h3 P3. apply wp_wait_ready; [by destruct P3|].
      by eapply hpost_seq.
    + eapply wp_done; [reflexivity|]. apply wp_wait. rewrite <-W1.
      eapply hpost_seq; [exact S2|]. by apply run_op_wrsr2.
  - apply wp_ret, wp_wait_ready; done.
Qed.

Lemma flash_ll_clear_qwfr_ok h : ready h →
  wp flash_ll_clear_qwfr h (λ _ h', hpost (λ f, f) (dev_sr (dev h)) 0 h h').
Proof.
  intros R. unfold flash_ll_clear_qwfr. do 2 apply wp_bind, wp_modify. apply wp_cmd_last.
  set (h1 := set_op (op_addr 0) (set_config (conf_mode 0) h)).
  apply (run_op_quiet FLASH_OP_CMD_CRMR h1); [exact R|done].
Qed.

(** Sector erase; what is protected keeps its content. *)
Definition guarded (sr : Z) (G : (Z → Z) → Z → Z) (f : Z → Z) : Z → Z :=
  λ x, if dev_prot sr x then f x else G f x.

Lemma flash_ll_erase_sector_ok a h : ready h → 0 ≤ a → a mod 4096 = 0 → a + 4096 ≤ dev_size →
  wp (flash_ll_erase_sector a) h
    (λ _ h', hpost (guarded (dev_sr (dev h)) (EfEnv.erase_sector a)) (dev_sr (dev h)) (mode_sel (config h)) h h').
Proof.
  intros R Ha Hm Hs. unfold flash_ll_erase_sector. apply wp_bind, wp_wait_ready; [done|].
  do 2 apply wp_bind, wp_modify. apply wp_bind. eapply wp_done; [reflexivity|]. apply wp_wait.
  set (h1 := set_op (op_type FLASH_OP_CMD_SE) (set_op (op_addr a) h)).
  destruct R as (B & S & O & T). destruct (exec_ok h1 B O) as [O' I].
  assert (Ea : addr_sw_reg (op_sw h1) = a).
  { apply Z.mod_small. pose proof (dev_size_max (C := C)). lia. }
  split_and!; try done.
  - intros x. pose proof (exec_se h1 B O eq_refl) as E. rewrite Ea in E. by apply E.
  - by apply (exec_sr h1 B O).
Qed.

(** Reading one block of 32 bytes. *)
Lemma read_words_ok n h ws : data_flash_sw h = ws → length ws = n →
  wp (read_words n) h (λ a h', a = ws ∧ h' = set_rx [] h).
Proof.
  revert h ws. induction n as [|n IH]; intros h ws E L; cbn [read_words].
  - apply wp_ret. destruct ws; [|done]. split; [done|]. destruct h; cbn in *. by rewrite E.
  - destruct ws as [|w ws]; [done|]. apply wp_bind. eapply wp_done; [reflexivity|].
    apply wp_bind. eapply wp_mono; [apply (IH _ ws)|].
    + cbn. by rewrite E.
    + by injection L.
    + intros a h' [-> ->]. apply wp_ret. cbn. by rewrite E.
Qed.

Lemma flash_ll_set_op_cmd_read_ok a h : ready h → 0 ≤ a → a mod 32 = 0 → a + 32 ≤ dev_size →
  wp (flash_ll_set_op_cmd_read a) h (λ _ h', hsame h h' ∧ length (data_flash_sw h') = 8%nat ∧
    block_bytes (data_flash_sw h') = EfEnv.read_flash (dev_mem (dev h)) a 32).
Proof.
  intros R Ha Hm Hs. unfold flash_ll_set_op_cmd_read.
  do 2 apply wp_bind, wp_modify. apply wp_bind. eapply wp_done; [reflexivity|]. apply wp_wait.
  set (h1 := set_op (op_type FLASH_OP_CMD_READ) (set_op (op_addr a) h)).
  destruct R as (B & S & O & T). destruct (exec_ok h1 B O) as [O' I].
  assert (Ea : addr_sw_reg (op_sw h1) = a).
  { apply Z.mod_small. pose proof (dev_size_max (C := C)). lia. }
  pose proof (exec_read h1 B O eq_refl) as E. rewrite Ea in E.
  split; [split_and!; try done|by apply E].
  - by apply (exec_mem h1 B O).
  - by apply (exec_sr h1 B O).
Qed.

(** Programming one block of 32 bytes. *)
Lemma write_words_ok ws h :
  wp (write_words ws) h (λ _ h', h' = set_tx (data_sw_flash h ++ ws) h).
Proof.
  revert h. induction ws as [|w ws IH]; intros h; cbn [write_words].
  - apply wp_ret. rewrite app_nil_r. by destruct h.
  - apply wp_bind. eapply wp_done; [reflexivity|]. eapply wp_mono; [apply IH|].
    intros _ h' ->. cbn. by rewrite <-app_assoc.
Qed.

Lemma le_bytes_le32 a b c e l : byte a → byte b → byte c → byte e →
  le_bytes (le32 (a :: b :: c :: e :: l)) = [a; b; c; e] ∧ 0 ≤ le32 (a :: b :: c :: e :: l) < 2 ^ 32.
Proof.
  unfold byte, le_bytes, le32. cbn [nth]. intros. split; [|lia].
  repeat f_equal; Z.to_euclidean_division_equations; lia.
Qed.

Lemma words_ok n pb : length pb = (4 * n)%nat → all_bytes pb →
  block_bytes (words n pb) = pb ∧ length (words n pb) = n ∧ Forall (λ w, 0 ≤ w < 2 ^ 32) (words n pb).
Proof.
  revert pb. induction n as [|n IH]; intros pb L Hb; cbn [words].
  - by destruct pb.
  - destruct pb as [|a [|b [|c [|e pb]]]]; try (cbn in L; lia).
    apply Forall_cons in Hb as [Ba [Bb [Bc [Be Hb]%Forall_cons]%Forall_cons]%Forall_cons].
    destruct (le_bytes_le32 a b c e pb Ba Bb Bc Be) as [E1 E2].
    destruct (IH pb ltac:(cbn in L; lia) Hb) as (I1 & I2 & I3).
    change (drop 4 (a :: b :: c :: e :: pb)) with pb.
    split_and!; [|by cbn; rewrite I2|by constructor].
    change (le_bytes (le32 (a :: b :: c :: e :: pb)) ++ block_bytes (words n pb) = a :: b :: c :: e :: pb).
    by rewrite E1, I1.
Qed.

Lemma write_block_ok a pb h : ready h → 0 ≤ a → a mod 32 = 0 → a + 32 ≤ dev_size →
  length pb = 32%nat → all_bytes pb →
  wp (write_words (words FLASH_BUFFER_LEN pb)) h (λ _ h1, wp (flash_ll_set_op_cmd_write a) h1
    (λ _ h', hpost (guarded (dev_sr (dev h)) (EfEnv.program a pb)) (dev_sr (dev h)) (mode_sel (config h)) h h')).
Proof.
  intros R Ha Hm Hs Lp Bp. destruct (words_ok 8 pb Lp Bp) as (W1 & W2 & W3).
  eapply wp_mono; [apply write_words_ok|]. intros _ h1 ->.
  do 2 apply wp_bind, wp_modify. apply wp_bind. eapply wp_done; [reflexivity|]. apply wp_wait.
  destruct R as (B & S & O & T). rewrite T. cbn [app].
  set (h1 := set_op (op_type FLASH_OP_CMD_PP) (set_op (op_addr a) (set_tx (words FLASH_BUFFER_LEN pb) h))).
  destruct (exec_ok h1 B O) as [O' I].
  assert (Ea : addr_sw_reg (op_sw h1) = a).
  { apply Z.mod_small. pose proof (dev_size_max (C := C)). lia. }
  split_and!; try done.
  - intros x. pose proof (exec_pp h1 B O eq_refl) as E. rewrite Ea in E.
    change (data_sw_flash h1) with (words 8 pb) in E. rewrite W1 in E. by apply E.
  - by apply (exec_sr h1 B O).
Qed.
End Laws.

(** ** Block transfers as operations on byte ranges *)
Local Ltac pairs := repeat match goal with |- (_, _) = (_, _) => apply (f_equal2 pair) end; try lia; try done.

Lemma copy_out_ok k pb i address len :
  0 ≤ i ≤ 32 → 32 - i ≤ Z.of_nat k → length pb = 32%nat → 0 < len → 0 ≤ address → address + len < 2 ^ 32 →
  let n := Z.min len (32 - i) in
  copy_out k pb i address len = (sub pb (Z.to_nat i) (Z.to_nat n), address + n, len - n).
Proof.
  revert i address len. induction k as [|k IH]; intros i address len Hi Hk Lp Hl Ha Ho n; cbn [copy_out]; subst n.
  - assert (i = 32) as -> by lia. rewrite Z.min_r by lia. change (Z.to_nat (32 - 32)) with 0%nat.
    unfold sub. cbn [take]. pairs.
  - unfold FLASH_BYTES_CNT. destruct (Z.ltb_spec i 32) as [Hlt|].
    2: { replace i with 32 by lia. rewrite Z.min_r by lia. unfold sub. cbn. pairs. }
    cbv zeta. rewrite !u32_small by lia.
    assert (E : drop (Z.to_nat i) pb = nth (Z.to_nat i) pb 0 :: drop (S (Z.to_nat i)) pb).
    { apply drop_S. destruct (nth_lookup_or_length pb (Z.to_nat i) 0); [done|lia]. }
    destruct (Z.eqb_spec (len - 1) 0).
    + rewrite Z.min_l by lia. replace len with 1 by lia. unfold sub. rewrite E.
      change (Z.to_nat 1) with 1%nat. cbn [take]. pairs.
    + rewrite IH by lia. unfold sub. rewrite E.
      replace (Z.to_nat (Z.min len (32 - i))) with (S (Z.to_nat (Z.min (len - 1) (32 - (i + 1))))) by lia.
      cbn [take]. replace (Z.to_nat (i + 1)) with (S (Z.to_nat i)) by lia. pairs.
Qed.

Lemma write_at_nil l i : write_at l i [] = l.
Proof. unfold write_at. cbn [length app]. rewrite Nat.add_0_r. apply take_drop. Qed.

Lemma write_at_cons l i x bs : (i + 1 + length bs ≤ length l)%nat →
  write_at (write_at l i [x]) (i + 1) bs = write_at l i (x :: bs).
Proof.
  intros Hl. unfold write_at at 1 3. cbn [length app].
  assert (L : length (write_at l i [x]) = length l) by (apply length_write_at; cbn; lia).
  assert (take (i + 1) (write_at l i [x]) = take i l ++ [x]) as ->.
  { unfold write_at. rewrite app_assoc. apply take_app_length'. rewrite length_app, length_take. cbn. lia. }
  assert (drop (i + 1 + length bs) (write_at l i [x]) = drop (i + S (length bs)) l) as ->.
  { unfold write_at. rewrite app_assoc, drop_app_ge by (rewrite length_app, length_take; cbn; lia).
    rewrite drop_drop. f_equal. rewrite length_app, length_take. cbn. lia. }
  by rewrite <-app_assoc.
Qed.

Lemma fill_block_ok k pb buffer i address len :
  0 ≤ i ≤ 32 → 32 - i ≤ Z.of_nat k → length pb = 32%nat → 0 < len → Z.of_nat (length buffer) = len →
  0 ≤ address → address + len < 2 ^ 32 →
  let n := Z.min len (32 - i) in
  fill_block k pb buffer i address len =
    (write_at pb (Z.to_nat i) (take (Z.to_nat n) buffer), drop (Z.to_nat n) buffer, address + n, len - n).
Proof.
  revert pb buffer i address len.
  induction k as [|k IH]; intros pb buffer i address len Hi Hk Lp Hl Lb Ha Ho n; cbn [fill_block]; subst n.
  - assert (i = 32) as -> by lia. rewrite Z.min_r by lia. change (Z.to_nat (32 - 32)) with 0%nat.
    rewrite take_0, drop_0, write_at_nil. pairs.
  - unfold FLASH_BYTES_CNT. destruct (Z.ltb_spec i 32) as [Hlt|].
    2: { replace i with 32 by lia. rewrite Z.min_r by lia. change (Z.to_nat (32 - 32)) with 0%nat.
         rewrite take_0, drop_0, write_at_nil. pairs. }
    destruct buffer as [|b buffer]; [cbn in Lb; lia|]. cbn [head default tail]. cbv zeta.
    rewrite !u32_small by lia. destruct (Z.eqb_spec (len - 1) 0).
    + rewrite Z.min_l by lia. replace len with 1 by lia. change (Z.to_nat 1) with 1%nat.
      cbn [take drop]. rewrite drop_0. pairs.
    + assert (Lb' : Z.of_nat (length buffer) = len - 1) by (cbn in Lb; lia).
      rewrite IH; try lia; [|rewrite length_write_at; cbn; lia].
      replace (Z.to_nat (Z.min len (32 - i))) with (S (Z.to_nat (Z.min (len - 1) (32 - (i + 1))))) by lia.
      cbn [take drop]. replace (Z.to_nat (i + 1)) with (Z.to_nat i + 1)%nat by lia.
      rewrite write_at_cons by (rewrite length_take; lia). pairs.
Qed.

Lemma read_flash_app f a n m :
  EfEnv.read_flash f a (n + m) = EfEnv.read_flash f a n ++ EfEnv.read_flash f (a + Z.of_nat n) m.
Proof.
  unfold EfEnv.read_flash. rewrite <-map_app. f_equal. rewrite Nat2Z.inj_add, seqZ_app by lia. done.
Qed.

Lemma program_ext a l f g x : f x = g x → EfEnv.program a l f x = EfEnv.program a l g x.
Proof. unfold EfEnv.program. by intros ->. Qed.

Lemma program_app a l1 l2 f x :
  EfEnv.program (a + Z.of_nat (length l1)) l2 (EfEnv.program a l1 f) x = EfEnv.program a (l1 ++ l2) f x.
Proof.
  unfold EfEnv.program. rewrite length_app.
  destruct (Z.leb_spec (a + Z.of_nat (length l1)) x), (Z.ltb_spec x (a + Z.of_nat (length l1) + Z.of_nat (length l2))),
    (Z.leb_spec a x), (Z.ltb_spec x (a + Z.of_nat (length l1))), (Z.ltb_spec x (a + Z.of_nat (length l1 + length l2)));
    cbn [andb]; try lia; try done.
  - rewrite app_nth2 by lia. do 2 f_equal. lia.
  - rewrite app_nth1 by lia. done.
Qed.

(** A block whose bytes outside [bs] repeat the content, or that is all [bs],
    programs the range of [bs] and nothing else. *)
Lemma program_block f a i bs pb x : (∀ y, byte (f y)) → (i + length bs ≤ 32)%nat → length pb = 32%nat →
  pb = EfEnv.read_flash f a 32 ∨ i = 0%nat ∧ length bs = 32%nat →
  EfEnv.program a (write_at pb i bs) f x = EfEnv.program (a + Z.of_nat i) bs f x.
Proof.
  intros Hf Hi Lp Hp. unfold EfEnv.program. rewrite length_write_at, Lp by lia.
  destruct (Z.leb_spec a x), (Z.ltb_spec x (a + Z.of_nat 32)); cbn [andb];
    destruct (Z.leb_spec (a + Z.of_nat i) x), (Z.ltb_spec x (a + Z.of_nat i + Z.of_nat (length bs))); cbn [andb]; try lia; try done.
  - f_equal. unfold write_at. rewrite app_nth2 by (rewrite length_take; lia).
    rewrite app_nth1 by (rewrite length_take; lia). f_equal. rewrite length_take. lia.
  - destruct Hp as [->|[-> Lb]]; [|lia].
    assert (E : nth (Z.to_nat (x - a)) (write_at (EfEnv.read_flash f a 32) i bs) 0 = f x).
    { unfold write_at. rewrite app_assoc, app_nth2; rewrite length_app, length_take; [|lia].
      apply nth_lookup_Some. rewrite lookup_drop, EfEnv.read_flash_lookup by lia. do 2 f_equal. lia. }
    rewrite E. apply Z.land_diag.
  - destruct Hp as [->|[-> Lb]]; [|lia].
    assert (E : nth (Z.to_nat (x - a)) (write_at (EfEnv.read_flash f a 32) i bs) 0 = f x).
    { unfold write_at. rewrite app_nth1 by (rewrite length_take; lia).
      apply nth_lookup_Some. rewrite lookup_take_lt, EfEnv.read_flash_lookup by lia. do 2 f_equal. lia. }
    rewrite E. apply Z.land_diag.
Qed.

Section Transfers.
Context {C : Type} `{FlashLaws C}.
Implicit Types (h : flash_hw_t C) (d : drv C).

Lemma wp_on_hw {A} (m : M (flash_hw_t C) A) d (Q : A → drv C → Prop) :
  hal_hw d = true → wp m (hw d) (λ a h', Q a (set_hw h' d)) → wp (on_hw m) d Q.
Proof. unfold wp, on_hw. intros ->. by destruct (m (hw d)) as [[a h']|]. Qed.

Lemma wp_cfg d c (Q : flash_config_t → drv C → Prop) : flash_cfg d = Some c → Q c d → wp cfg d Q.
Proof. unfold wp, cfg. by intros ->. Qed.

(** What a call that only drives the hardware leaves behind. *)
Definition dpost F sr m d d' : Prop := ∃ h', d' = set_hw h' d ∧ hpost F sr m (hw d) h'.
Definition dsame d d' : Prop := ∃ h', d' = set_hw h' d ∧ hsame (hw d) h'.
Definition dmem d : Z → Z := dev_mem (dev (hw d)).
Definition dsr d : Z := dev_sr (dev (hw d)).
Definition dmode d : Z := mode_sel (config (hw d)).

Lemma set_hw_same d : set_hw (hw d) d = d.
Proof. by destruct d. Qed.
Lemma dsame_refl d : ready (hw d) → dsame d d.
Proof. intros R. exists (hw d). by rewrite set_hw_same. Qed.
Lemma dsame_trans d1 d2 d3 : dsame d1 d2 → dsame d2 d3 → dsame d1 d3.
Proof.
  intros (h2 & -> & S2) (h3 & -> & S3). exists h3. split; [done|]. by eapply hsame_trans.
Qed.

Lemma dev_size_blocks : dev_size mod 32 = 0.
Proof. pose proof (dev_size_sectors (C := C)). Z.to_euclidean_division_equations; lia. Qed.

(** Alignment of the first block. *)
Lemma align_block a : 0 ≤ a → Z.land a (Z.lnot FLASH_ADDRESS_MASK) = a - a mod 32.
Proof.
  intros Ha. change FLASH_ADDRESS_MASK with (Z.ones 5). rewrite <-Z.ldiff_land, Z.ldiff_ones_r by lia.
  rewrite Z.shiftl_mul_pow2, Z.shiftr_div_pow2 by lia. change (2 ^ 5) with 32.
  pose proof (Z.div_mod a 32 ltac:(lia)). lia.
Qed.

Lemma read_loop_ok fuel addr address len d :
  (Z.to_nat len < fuel)%nat → hal_hw d = true → ready (hw d) → addr mod 32 = 0 →
  0 ≤ addr → addr = address - address mod 32 ∨ len = 0 → 0 ≤ len → address + len ≤ dev_size →
  wp (read_loop fuel addr address len) d (λ bs d',
    bs = EfEnv.read_flash (dmem d) address (Z.to_nat len) ∧ dsame d d').
Proof.
  revert addr address len d.
  induction fuel as [|fuel IH]; intros addr address len d Hf Hh R Am Ap Ae Hl Hs; [lia|].
  cbn [read_loop]. destruct (Z.eqb_spec len 0) as [->|N].
  { apply wp_ret. split; [done|by apply dsame_refl]. }
  destruct Ae as [Ae|]; [|lia]. pose proof (dev_size_max (C := C)).
  pose proof (Z.mod_pos_bound address 32 ltac:(lia)).
  pose proof dev_size_blocks as Dm.
  assert (addr + 32 ≤ dev_size) by (Z.to_euclidean_division_equations; lia).
  apply wp_bind, wp_on_hw; [done|]. eapply wp_mono; [by apply flash_ll_set_op_cmd_read_ok|].
  intros _ h1 (S1 & L1 & B1). apply wp_bind, wp_on_hw; [done|].
  eapply wp_mono; [by apply (read_words_ok 8 h1 (data_flash_sw h1))|]. intros ws h2 [-> ->].
  set (d2 := set_hw _ _). assert (S2 : dsame d d2) by (by exists (set_rx [] h1)).
  rewrite B1. unfold FLASH_BYTES_CNT. rewrite copy_out_ok; try lia; [|by rewrite EfEnv.length_read_flash].
  set (i := address mod 32) in *. set (n := Z.min len (32 - i)).
  apply wp_bind. rewrite u32_small by lia.
  eapply wp_mono; [apply IH; try done; try lia|].
  - by destruct S2 as (? & -> & R2 & _).
  - rewrite Zplus_mod, Am. done.
  - destruct (decide (n = len)); [right; lia|left]. rewrite Z.mod_eq by lia.
    replace (address + n) with (addr + 1 * 32) by lia. rewrite Z.div_add by lia.
    Z.to_euclidean_division_equations; lia.
  - intros bs d' [-> S3]. apply wp_ret. split; [|by eapply dsame_trans].
    replace (Z.to_nat len) with (Z.to_nat n + Z.to_nat (len - n))%nat by lia. rewrite read_flash_app.
    f_equal.
    + rewrite EfEnv.read_flash_sub by lia. f_equal. lia.
    + replace (address + Z.of_nat (Z.to_nat n)) with (address + n) by lia.
      apply EfEnv.read_flash_ext. intros x _. destruct S2 as (h' & E & _ & Mx & _). rewrite E. apply Mx.
Qed.

Lemma flash_read_common_ok address len d : hal_hw d = true → ready (hw d) →
  0 ≤ address → 0 ≤ len → address + len ≤ dev_size →
  wp (flash_read_common address len) d (λ bs d',
    bs = EfEnv.read_flash (dmem d) address (Z.to_nat len) ∧ dsame d d').
Proof.
  intros Hh R Ha Hl Hs. unfold flash_read_common. cbv zeta. rewrite align_block by done.
  destruct (Z.eqb_spec len 0) as [->|N]; [apply wp_ret; split; [done|by apply dsame_refl]|].
  apply wp_bind, wp_on_hw; [done|]. apply wp_wait_ready; [done|]. rewrite set_hw_same.
  pose proof (Z.mod_pos_bound address 32 ltac:(lia)).
  apply read_loop_ok; try done; try lia; Z.to_euclidean_division_equations; lia.
Qed.

Lemma dsame_dpost F sr m d1 d2 d3 : dsame d1 d2 → dpost F sr m d2 d3 →
  (∀ f g, (∀ x, f x = g x) → ∀ x, F f x = F g x) → dpost F sr m d1 d3.
Proof.
  intros (h2 & -> & S2) (h3 & -> & S3) HF. exists h3. split; [done|]. by eapply hpost_trans_l.
Qed.

Lemma guarded_ext sr G f g :
  (∀ f g x, f x = g x → G f x = G g x) → (∀ x, f x = g x) → ∀ x, guarded (C := C) sr G f x = guarded sr G g x.
Proof. intros HG E x. unfold guarded. rewrite (HG f g x (E x)). by rewrite E. Qed.

Lemma guarded_program_ext sr a l f g : (∀ x, f x = g x) →
  ∀ x, guarded (C := C) sr (EfEnv.program a l) f x = guarded sr (EfEnv.program a l) g x.
Proof. intros E. apply guarded_ext; [|done]. intros f1 g1 x. apply program_ext. Qed.

(** One block followed by the rest of the buffer. *)
Lemma dpost_program sr m a b bs1 bs2 d1 d2 d3 :
  dpost (guarded sr (EfEnv.program a bs1)) sr m d1 d2 → b = a + Z.of_nat (length bs1) →
  dpost (guarded sr (EfEnv.program b bs2)) sr m d2 d3 →
  dpost (guarded sr (EfEnv.program a (bs1 ++ bs2))) sr m d1 d3.
Proof.
  intros (h2 & -> & R2 & M2 & S2 & I2 & D2) -> (h3 & -> & R3 & M3 & S3 & I3 & D3).
  exists h3. split; [done|]. split_and!; try done.
  - intros x. rewrite M3. unfold guarded. cbn [hw set_hw]. rewrite M2. unfold guarded.
    destruct (dev_prot sr x) eqn:E; [done|]. rewrite <-program_app. apply program_ext. rewrite M2. unfold guarded. by rewrite E.
  - by rewrite I3.
Qed.

Lemma dmem_byte d x : ready (hw d) → byte (dmem d x).
Proof. intros (_ & _ & O & _). by apply dev_byte. Qed.

Lemma read_flash_dmem_bytes d a n : ready (hw d) → all_bytes (EfEnv.read_flash (dmem d) a n).
Proof. intros R. apply EfEnv.read_flash_bytes. intros x. by apply dmem_byte. Qed.

(** The block buffer in one round of the loop: the old content of the block, or
    anything when the whole block is overwritten. *)
Lemma refill_ok pb addr len d i : hal_hw d = true → ready (hw d) → 0 ≤ addr → addr + 32 ≤ dev_size →
  length pb = 32%nat → all_bytes pb → 0 < len → pb = EfEnv.read_flash (dmem d) addr 32 ∨ i = 0 →
  wp (if len <? FLASH_BYTES_CNT then
        let* pb := flash_read_common addr FLASH_BYTES_CNT in on_hw wait_idle ;;; ret pb
      else ret pb) d (λ pb1 d1, dsame d d1 ∧ length pb1 = 32%nat ∧ all_bytes pb1 ∧
    (pb1 = EfEnv.read_flash (dmem d) addr 32 ∨ i = 0 ∧ Z.min len (32 - i) = 32)).
Proof.
  intros Hh R Ha Hs Lp Bp Hl Hp. unfold FLASH_BYTES_CNT. destruct (Z.ltb_spec len 32).
  - apply wp_bind. eapply wp_mono; [by apply flash_read_common_ok; try lia|].
    intros bs d1 [-> S1]. pose proof S1 as (h1 & -> & R1 & _). apply wp_bind, wp_on_hw; [done|].
    apply wp_wait_ready; [done|]. apply wp_ret.
    split_and!; [done|apply EfEnv.length_read_flash|by apply read_flash_dmem_bytes|by left].
  - apply wp_ret. split_and!; [by apply dsame_refl|done|done|]. destruct Hp; [by left|right]. lia.
Qed.

Lemma block_step addr pb i bs d d1 : hal_hw d = true → ready (hw d) → 0 ≤ addr → addr mod 32 = 0 → addr + 32 ≤ dev_size →
  dsame d d1 → length pb = 32%nat → all_bytes pb → all_bytes bs → (i + length bs ≤ 32)%nat →
  pb = EfEnv.read_flash (dmem d) addr 32 ∨ i = 0%nat ∧ length bs = 32%nat →
  wp (on_hw (write_words (words FLASH_BUFFER_LEN (write_at pb i bs)))) d1
    (λ _ d2, wp (on_hw (flash_ll_set_op_cmd_write addr)) d2
      (λ _ d3, dpost (guarded (dsr d) (EfEnv.program (addr + Z.of_nat i) bs)) (dsr d) (dmode d) d d3)).
Proof.
  intros Hh R Ha Hm Hs (h1 & -> & R1 & M1 & Sr1 & I1 & D1) Lp Bp Bb Hi Hp.
  apply wp_on_hw; [done|]. eapply wp_mono.
  { apply (write_block_ok addr); [done..| |].
    - rewrite length_write_at; lia.
    - by apply all_bytes_write_at. }
  intros [] h2 W. apply wp_on_hw; [done|]. eapply wp_mono; [exact W|].
  intros _ h3 (R3 & M3 & Sr3 & I3 & D3). exists h3. split; [done|]. cbn [hw set_hw] in *.
  unfold dsr, dmode. rewrite Sr1 in *. rewrite D1 in *. split_and!; try done.
  - intros x. rewrite M3. unfold guarded. rewrite M1. destruct (dev_prot _ x); [done|].
    rewrite (program_ext _ _ _ (dmem d)) by apply M1.
    apply program_block; try done. by intros; apply dmem_byte.
  - by rewrite I3.
Qed.

Lemma program_nil a f x : EfEnv.program a [] f x = f x.
Proof.
  unfold EfEnv.program. cbn [length].
  destruct (Z.leb_spec a x), (Z.ltb_spec x (a + Z.of_nat 0)); cbn [andb]; try done; lia.
Qed.

Lemma write_loop_ok fuel pb buffer addr address len d :
  (Z.to_nat len < fuel)%nat → hal_hw d = true → ready (hw d) → addr mod 32 = 0 → 0 ≤ addr →
  addr = address - address mod 32 ∨ len = 0 → Z.of_nat (length buffer) = len → all_bytes buffer →
  address + len ≤ dev_size → length pb = 32%nat → all_bytes pb →
  pb = EfEnv.read_flash (dmem d) addr 32 ∨ address mod 32 = 0 ∨ len = 0 →
  wp (write_loop fuel pb buffer addr address len) d (λ _ d',
    dpost (guarded (dsr d) (EfEnv.program address buffer)) (dsr d) (dmode d) d d').
Proof.
  revert pb buffer addr address len d.
  induction fuel as [|fuel IH]; intros pb buffer addr address len d Hf Hh R Am Ap Ae Lb Bb Hs Lp Bp Hp; [lia|].
  cbn [write_loop]. destruct (Z.eqb_spec len 0) as [->|N].
  { destruct buffer; [|done]. apply wp_ret. exists (hw d). rewrite set_hw_same. split; [done|].
    split_and!; try done. intros x. unfold guarded. rewrite program_nil. by destruct (dev_prot _ x). }
  destruct Ae as [Ae|]; [|lia]. pose proof (dev_size_max (C := C)). pose proof dev_size_blocks as Dm.
  pose proof (Z.mod_pos_bound address 32 ltac:(lia)).
  assert (addr + 32 ≤ dev_size) by (Z.to_euclidean_division_equations; lia).
  set (i := address mod 32) in *. set (n := Z.min len (32 - i)).
  assert (Ln : length (take (Z.to_nat n) buffer) = Z.to_nat n) by (rewrite length_take; lia).
  apply wp_bind. eapply wp_mono; [apply (refill_ok pb addr len d i); try done; [lia|naive_solver]|].
  intros pb1 d1 (S1 & L1 & B1 & P1). unfold FLASH_BYTES_CNT. fold n in P1. fold i.
  rewrite fill_block_ok by lia. fold n. cbv zeta.
  apply wp_bind. eapply wp_mono.
  { apply (block_step addr pb1 (Z.to_nat i) (take (Z.to_nat n) buffer) d d1); try done; [by apply Forall_take|lia|].
    destruct P1 as [|[-> ->]]; [by left|right]. by rewrite Ln. }
  intros [] d2 W. apply wp_bind. eapply wp_mono; [exact W|]. clear W. intros [] d3 Pd. cbv beta in Pd.
  replace (addr + Z.of_nat (Z.to_nat i)) with address in Pd by lia.
  pose proof Pd as (h3 & Ed & R3 & _ & Sr3 & _ & Md3). rewrite u32_small by lia.
  assert (E : n = len ∨ address + n = addr + 1 * 32) by lia.
  eapply wp_mono; [apply IH; try done; try lia|].
  - by rewrite Ed.
  - by rewrite Ed.
  - rewrite Zplus_mod, Am. done.
  - destruct E as [|E]; [right; lia|left]. rewrite E, Z.mod_add by lia. lia.
  - rewrite length_drop. lia.
  - by apply Forall_drop.
  - by apply Forall_replicate.
  - right. destruct E as [|E]; [right; lia|left]. by rewrite E, Z.mod_add by lia.
  - intros [] d4 P4. unfold dsr, dmode in P4. rewrite Ed in P4. cbn [hw set_hw] in P4. rewrite Sr3, Md3, <-Ed in P4.
    rewrite <-(take_drop (Z.to_nat n) buffer). eapply dpost_program; [exact Pd| |exact P4]. lia.
Qed.
End Transfers.

(** ** Configuration table and device

    [config_fits c]: the device can hold what entry [c] asks for. *)
Definition all_types : list flash_protect_type_t :=
  [FLASH_PROTECT_NONE; FLASH_PROTECT_ALL; FLASH_PROTECT_HALF; FLASH_UNPROTECT_LAST_BLOCK; FLASH_PROTECT_UNKNOWN].
Lemma all_types_full t : t ∈ all_types.
Proof. destruct t; set_solver. Qed.

Definition prot_width (c : flash_config_t) : Z := Z.log2 (protect_mask c + 1).
(** The configured value of a protection type. *)
Definition raw (c : flash_config_t) (t : flash_protect_type_t) : Z :=
  match t with
  | FLASH_PROTECT_NONE => protect_none c
  | FLASH_PROTECT_ALL | FLASH_PROTECT_UNKNOWN => protect_all c
  | FLASH_PROTECT_HALF => protect_half c
  | FLASH_UNPROTECT_LAST_BLOCK => unprotect_last_block c
  end.
Definition home_mode (c : flash_config_t) : Z :=
  match line_mode c with FLASH_LINE_MODE_FOUR => cfg_mode_sel c mod 2 ^ 5 | FLASH_LINE_MODE_TWO => FLASH_MODE_DUAL end.

(** The status register with protection type [t] in it. *)
Definition prot_sr (c : flash_config_t) (t : flash_protect_type_t) (sr : Z) : Z :=
  set_field (set_field sr (protect_post c) (prot_width c) (flash_get_protect_cfg c t)) (cmp_post c) 1 (flash_get_cmp_cfg c t).
(** The protection value in a status register. *)
Definition prot_value (c : flash_config_t) (sr : Z) : Z :=
  Z.lor (Z.shiftl (field sr (cmp_post c) 1) 8) (field sr (protect_post c) (prot_width c)).

Section Config.
Context {C : Type} `{FlashLaws C}.

Definition writable (off n : Z) : bool := forallb (Z.testbit dev_wmask) (seqZ off n).
Definition type_fits (c : flash_config_t) (t : flash_protect_type_t) : bool :=
  let p := flash_get_protect_cfg c t in let k := flash_get_cmp_cfg c t in
  (0 <=? p) && (p <? 2 ^ prot_width c) && (0 <=? k) && (k <? 2 ^ 1) && (raw c t =? Z.lor (Z.shiftl k 8) p) &&
  (writable (cmp_post c) 1 || (cmp_post c =? 0) && (k =? 0)).
Definition quad_fits (c : flash_config_t) : bool :=
  match line_mode c with
  | FLASH_LINE_MODE_TWO => true
  | FLASH_LINE_MODE_FOUR =>
      (status_reg_size c =? 2) && (quad_en_val c =? 1) && (0 <=? quad_en_post c) && (quad_en_post c <? 16) &&
      writable (quad_en_post c) 1 && negb (quad_en_post c =? cmp_post c) &&
      ((quad_en_post c <? protect_post c) || (protect_post c + prot_width c <=? quad_en_post c))
  end.
Definition config_fits (c : flash_config_t) : bool :=
  ((status_reg_size c =? 1) || (status_reg_size c =? 2)) && (protect_mask c =? Z.ones (prot_width c)) &&
  (prot_width c <=? 8) && (0 <=? protect_post c) && (0 <=? cmp_post c) &&
  (protect_post c + prot_width c <=? 8 * status_reg_size c) && (cmp_post c + 1 <=? 8 * status_reg_size c) &&
  ((cmp_post c + 1 <=? protect_post c) || (protect_post c + prot_width c <=? cmp_post c)) &&
  writable (protect_post c) (prot_width c) && forallb (type_fits c) all_types && quad_fits c &&
  (0 <? flash_size c) && (flash_size c <=? dev_size) && (flash_size c mod 4096 =? 0).

Lemma writable_spec off n i : writable off n = true → off ≤ i < off + n → Z.testbit dev_wmask i = true.
Proof. unfold writable. rewrite forallb_forall. intros Hw Hi. apply Hw, list_elem_of_In, elem_of_seqZ. lia. Qed.

Lemma prot_width_nonneg c : 0 ≤ prot_width c.
Proof. apply Z.log2_nonneg. Qed.

Lemma set_field_clear w : Z.testbit w 0 = false → set_field w 0 1 0 = w.
Proof.
  intros E. apply Z.bits_inj'. intros i Hi. rewrite set_field_spec by lia.
  destruct (Z.leb_spec 0 i), (Z.ltb_spec i (0 + 1)); cbn [andb]; try done; try lia.
  assert (i = 0) as -> by lia. by rewrite E.
Qed.

Lemma field_low sr off n : 0 ≤ off → 0 ≤ n → off + n ≤ 8 → field (field sr 0 8) off n = field sr off n.
Proof.
  intros Ho Hn Hl. apply Z.bits_inj'. intros i Hi. rewrite !field_spec by lia. rewrite Z.add_0_r.
  destruct (Z.ltb_spec i n); cbn [andb]; [|done]. by rewrite (proj2 (Z.ltb_lt (i + off) 8)) by lia.
Qed.

(** Writing a protection type changes exactly its bits. *)
Lemma write_fields w sr off n p cp k : w = 1 ∨ w = 2 → 0 ≤ sr < 2 ^ 16 → Z.testbit sr 0 = false →
  0 ≤ off → 0 ≤ n → 0 ≤ cp → off + n ≤ 8 * w → cp + 1 ≤ 8 * w → (cp + 1 ≤ off ∨ off + n ≤ cp) →
  writable off n = true → writable cp 1 = true ∨ cp = 0 ∧ k = 0 →
  sr_write w sr (u16 (set_field (set_field (sr_view w sr) off n p) cp 1 k)) =
  set_field (set_field sr off n p) cp 1 k.
Proof.
  intros Hw Hs B0 Ho Hn Hc Ho8 Hc8 D Wo Wc.
  assert (Hv : 0 ≤ sr_view w sr < 2 ^ (8 * w)).
  { unfold sr_view. destruct Hw as [-> | ->]; cbn [Z.eqb Z.mul Pos.eqb Pos.mul]; [|done].
    unfold field. rewrite Z.land_ones by lia. apply Z.mod_pos_bound. lia. }
  assert (Hr : 0 ≤ set_field (set_field (sr_view w sr) off n p) cp 1 k < 2 ^ (8 * w)).
  { apply set_field_range; [lia..|]. by apply set_field_range. }
  assert (2 ^ (8 * w) ≤ 2 ^ 16) by (apply Z.pow_le_mono_r; lia).
  rewrite u16_small by lia.
  assert (E : sr_write w sr (set_field (set_field (sr_view w sr) off n p) cp 1 k) =
              masked dev_wmask sr (set_field (set_field sr off n p) cp 1 k)).
  { unfold sr_write, sr_view. destruct Hw as [-> | ->]; cbn [Z.eqb Pos.eqb]; [|done].
    by rewrite !set_low_byte, set_field_field by lia. }
  rewrite E. destruct Wc as [Wc|[-> ->]].
  - rewrite masked_set_field by (lia || by intros i; apply writable_spec).
    rewrite masked_set_field by (lia || by intros i; apply writable_spec). by rewrite masked_same.
  - assert (B : Z.testbit (set_field sr off n p) 0 = false).
    { rewrite set_field_spec by lia. destruct (Z.leb_spec off 0), (Z.ltb_spec 0 (off + n)); cbn [andb]; try done; lia. }
    rewrite set_field_clear by done.
    rewrite masked_set_field by (lia || by intros i; apply writable_spec). by rewrite masked_same.
Qed.

(** The fields of a fitting entry. *)
Record fits (c : flash_config_t) : Prop := {
  fit_width : status_reg_size c = 1 ∨ status_reg_size c = 2;
  fit_mask : protect_mask c = Z.ones (prot_width c);
  fit_mask8 : prot_width c ≤ 8;
  fit_post : 0 ≤ protect_post c;
  fit_cmp : 0 ≤ cmp_post c;
  fit_post8 : protect_post c + prot_width c ≤ 8 * status_reg_size c;
  fit_cmp8 : cmp_post c + 1 ≤ 8 * status_reg_size c;
  fit_apart : cmp_post c + 1 ≤ protect_post c ∨ protect_post c + prot_width c ≤ cmp_post c;
  fit_prot : writable (protect_post c) (prot_width c) = true;
  fit_type : ∀ t, type_fits c t = true;
  fit_quad : quad_fits c = true;
  fit_size : 0 < flash_size c ≤ dev_size;
  fit_sectors : flash_size c mod 4096 = 0 }.

Lemma config_fits_spec c : config_fits c = true → fits c.
Proof.
  unfold config_fits. intros E. repeat rewrite andb_true_iff in E. destruct_and! E.
  repeat match goal with
  | H : _ || _ = true |- _ => apply orb_true_iff in H
  | H : forallb _ _ = true |- _ => rewrite forallb_forall in H
  end.
  split; try lia; try done. intros t. match goal with H : ∀ x, _ → type_fits _ _ = true |- _ => apply H end.
  apply list_elem_of_In, all_types_full.
Qed.

Lemma type_fits_spec c t : type_fits c t = true →
  0 ≤ flash_get_protect_cfg c t < 2 ^ prot_width c ∧ 0 ≤ flash_get_cmp_cfg c t < 2 ^ 1 ∧
  raw c t = Z.lor (Z.shiftl (flash_get_cmp_cfg c t) 8) (flash_get_protect_cfg c t) ∧
  (writable (cmp_post c) 1 = true ∨ cmp_post c = 0 ∧ flash_get_cmp_cfg c t = 0).
Proof.
  unfold type_fits. cbv zeta. intros E. repeat rewrite andb_true_iff in E. destruct_and! E.
  match goal with H : _ || _ = true |- _ => apply orb_true_iff in H; rewrite andb_true_iff in H end.
  zb. split_and!; try done. naive_solver lia.
Qed.

Lemma sr_write_protect c t sr : fits c → 0 ≤ sr < 2 ^ 16 → Z.testbit sr 0 = false →
  let v := sr_view (status_reg_size c) sr in
  sr_write (status_reg_size c) sr
    (u16 (flash_set_cmp_cfg c (flash_set_protect_cfg c v (flash_get_protect_cfg c t)) (flash_get_cmp_cfg c t))) =
  prot_sr c t sr.
Proof.
  intros F Hs B0 v. unfold flash_set_cmp_cfg, flash_set_protect_cfg. rewrite (fit_mask c F).
  destruct F. destruct (type_fits_spec c t) as (_ & _ & _ & Wc); [done|].
  apply (write_fields (status_reg_size c) sr); try done. apply prot_width_nonneg.
Qed.

(** Reading a field through the one or two bytes that are read. *)
Lemma view_field c sr off n : fits c → 0 ≤ off → 0 ≤ n → off + n ≤ 8 * status_reg_size c →
  Z.land (Z.shiftr (sr_view (status_reg_size c) sr) off) (Z.ones n) = field sr off n.
Proof.
  intros F Ho Hn Hl. unfold sr_view. destruct (fit_width c F) as [E|E]; rewrite E in *; [|done].
  by apply field_low; lia.
Qed.

Lemma prot_value_sr c t sr : fits c → prot_value c (prot_sr c t sr) = raw c t.
Proof.
  intros F. destruct (type_fits_spec c t) as (Hp & Hk & -> & _); [by apply fit_type|].
  pose proof (prot_width_nonneg c). destruct F. unfold prot_value, prot_sr. f_equal.
  - f_equal. by apply field_set_same.
  - rewrite field_set_other by lia. by apply field_set_same.
Qed.

Lemma need_update_spec c t sr : fits c →
  flash_is_need_update_status_reg c (flash_get_protect_cfg c t) (flash_get_cmp_cfg c t) (sr_view (status_reg_size c) sr) = false →
  prot_sr c t sr = sr.
Proof.
  intros F E. unfold flash_is_need_update_status_reg in E. rewrite (fit_mask c F) in E.
  pose proof (prot_width_nonneg c). pose proof F as []. change FLASH_CMP_MASK with (Z.ones 1) in E.
  rewrite !view_field in E by (done || lia). zb. unfold prot_sr. rewrite <-H2, <-H3, set_field_field by lia.
  by apply set_field_field.
Qed.

Lemma prot_sr_set c t t' sr : fits c → prot_sr c t (prot_sr c t' sr) = prot_sr c t sr.
Proof.
  intros F. pose proof (prot_width_nonneg c). destruct F. apply Z.bits_inj'. intros i Hi. unfold prot_sr.
  rewrite !set_field_spec by lia.
  destruct (Z.leb_spec (cmp_post c) i), (Z.ltb_spec i (cmp_post c + 1)), (Z.leb_spec (protect_post c) i),
    (Z.ltb_spec i (protect_post c + prot_width c)); cbn [andb]; done.
Qed.

Lemma pair_inj k p k' p' : 0 ≤ p < 2 ^ 8 → 0 ≤ p' < 2 ^ 8 →
  Z.lor (Z.shiftl k 8) p = Z.lor (Z.shiftl k' 8) p' → k = k' ∧ p = p'.
Proof.
  assert (B : ∀ k p, 0 ≤ p < 2 ^ 8 → Z.lor (Z.shiftl k 8) p = k * 256 + p).
  { intros a b Hb. rewrite Z.shiftl_mul_pow2 by lia. change (2 ^ 8) with 256 in *.
    assert (L : Z.land (a * 256) b = 0); [|pose proof (Z.add_lor_land (a * 256) b); lia].
    rewrite <-(Z.mod_small b 256) by done. apply Z.bits_inj_0. intros i. rewrite Z.land_spec.
    destruct (Z.ltb_spec i 0); [by rewrite Z.testbit_neg_r by lia|].
    change 256 with (2 ^ 8). destruct (Z.ltb_spec i 8).
    - by rewrite Z.mul_pow2_bits_low by lia.
    - rewrite Z.mod_pow2_bits_high by lia. apply andb_false_r. }
  intros Hp Hp' E. rewrite !B in E by done. change (2 ^ 8) with 256 in *. lia.
Qed.

(** A register that already holds the value of a type is unchanged by setting it. *)
Lemma prot_sr_id c t sr : fits c → prot_value c sr = raw c t → prot_sr c t sr = sr.
Proof.
  intros F E. destruct (type_fits_spec c t) as (Hp & Hk & R & _); [by apply fit_type|]. rewrite R in E. clear R.
  pose proof (prot_width_nonneg c). destruct F.
  assert (L : 2 ^ prot_width c ≤ 2 ^ 8) by (apply Z.pow_le_mono_r; lia).
  apply pair_inj in E as [E1 E2]; [| |lia].
  - unfold prot_sr. rewrite <-E1, <-E2, set_field_field by lia. by apply set_field_field.
  - unfold field. rewrite Z.land_ones by lia. pose proof (Z.mod_pos_bound (Z.shiftr sr (protect_post c)) (2 ^ prot_width c)). lia.
Qed.

Lemma protect_type_of_raw c v : protect_type_of c v ≠ FLASH_PROTECT_UNKNOWN → raw c (protect_type_of c v) = v.
Proof.
  unfold protect_type_of.
  repeat match goal with |- context [?a =? ?b] => destruct (Z.eqb_spec a b); [done|] end. done.
Qed.
Lemma protect_type_of_type c t : protect_type_of c (raw c t) ≠ FLASH_PROTECT_UNKNOWN.
Proof.
  unfold protect_type_of.
  repeat match goal with |- context [?a =? ?b] => destruct (Z.eqb_spec a b); [done|] end. by destruct t.
Qed.

Lemma prot_sr_range c t sr : fits c → 0 ≤ sr < 2 ^ 16 → 0 ≤ prot_sr c t sr < 2 ^ 16.
Proof.
  intros F Hs. pose proof (prot_width_nonneg c). destruct F. unfold prot_sr.
  apply set_field_range; [lia..|]. by apply set_field_range; try lia.
Qed.
End Config.

(** ** The driver's invariant, and what its calls do *)
Section Driver.
Context {C : Type} `{FlashLaws C}.
Implicit Types (h : flash_hw_t C) (d : drv C).

Definition qe_on (c : flash_config_t) (sr : Z) : Prop :=
  line_mode c = FLASH_LINE_MODE_FOUR → Z.testbit sr (quad_en_post c) = true.

(** Initialised with entry [c], hardware idle, quad mode enabled in the chip when
    [c] asks for it, and the controller in mode [m]. *)
Definition in_mode (c : flash_config_t) (m : Z) d : Prop :=
  hal_hw d = true ∧ flash_cfg d = Some c ∧ ready (hw d) ∧ qe_on c (dsr d) ∧ dmode d = m.
Definition inv (c : flash_config_t) d : Prop := in_mode c (home_mode c) d.
Definition asleep (c : flash_config_t) d : Prop := in_mode c FLASH_MODE_DUAL d.

(** [d'] differs from [d] in the hardware and the power-save record only. *)
Definition kept d d' : Prop := set_ps (flash_ps_status d) (cb_calls d) (set_hw (hw d) d') = d.
(** The effect of a call on the chip: content and status register. *)
Definition eff (F : (Z → Z) → Z → Z) (sr : Z) d d' : Prop :=
  kept d d' ∧ (∀ x, dmem d' x = F (dmem d) x) ∧ dsr d' = sr ∧ dev_id (dev (hw d')) = dev_id (dev (hw d)).

Lemma kept_trans d1 d2 d3 : kept d1 d2 → kept d2 d3 → kept d1 d3.
Proof. destruct d1, d2, d3. unfold kept, set_ps, set_hw. cbn. congruence. Qed.

Lemma eff_trans F G sr1 sr2 d1 d2 d3 : (∀ f g, (∀ x, f x = g x) → ∀ x, G f x = G g x) →
  eff F sr1 d1 d2 → eff G sr2 d2 d3 → eff (λ f, G (F f)) sr2 d1 d3.
Proof.
  intros HG (K1 & M1 & S1 & I1) (K2 & M2 & S2 & I2). split_and!; [by eapply kept_trans| |done|by rewrite I2].
  intros x. rewrite M2. by apply HG.
Qed.

Lemma dpost_eff c m F sr d d' : in_mode c m d → dpost F sr m d d' → qe_on c sr →
  in_mode c m d' ∧ eff F sr d d'.
Proof.
  intros (Hh & Hc & R & _ & _) (h' & -> & R' & Mm & S & I & D) Q. split.
  - split_and!; try done. unfold dsr. cbn. by rewrite S.
  - split_and!; try done. by destruct d.
Qed.

(** Line mode. *)
Lemma dual_ok c m d : in_mode c m d →
  wp (bk_flash_set_line_mode FLASH_LINE_MODE_TWO) d (λ _ d', asleep c d' ∧ eff (λ f, f) (dsr d) d d').
Proof.
  intros (Hh & Hc & R & Q & _). apply wp_bind, wp_on_hw; [done|].
  eapply wp_mono; [by apply flash_ll_clear_qwfr_ok|]. intros _ h1 (R1 & M1 & S1 & I1 & D1).
  apply wp_bind, wp_on_hw; [done|]. apply wp_modify, wp_ret. cbn [hw set_hw].
  split; [split_and!; try done; unfold qe_on, dsr; cbn; by rewrite S1|]. split_and!; try done. by destruct d.
Qed.

Lemma lor_BIT w i : 0 ≤ i → Z.lor w (BIT i) = set_field w i 1 1.
Proof.
  intros Hi. apply Z.bits_inj'. intros j Hj. rewrite set_field_spec, Z.lor_spec, testbit_BIT by lia.
  case_bool_decide; destruct (Z.leb_spec i j), (Z.ltb_spec j (i + 1)); cbn [andb]; try lia.
  - subst j. rewrite Z.sub_diag. apply orb_true_r.
  - apply orb_false_r.
  - apply orb_false_r.
Qed.

(** Setting the quad-enable bit: nothing to do when it is set. *)
Lemma set_qe_ok c h : fits c → ready h → line_mode c = FLASH_LINE_MODE_FOUR →
  let sr' := Z.lor (dev_sr (dev h)) (BIT (quad_en_post c)) in
  sr_view (status_reg_size c) (dev_sr (dev h)) = dev_sr (dev h) ∧ Z.shiftl (quad_en_val c) (quad_en_post c) = BIT (quad_en_post c) ∧
  Z.testbit sr' (quad_en_post c) = true ∧
  ((Z.land (dev_sr (dev h)) (BIT (quad_en_post c)) =? 0) = false → sr' = dev_sr (dev h)) ∧
  sr_write (status_reg_size c) (dev_sr (dev h)) (u16 sr') = sr'.
Proof.
  intros F (_ & _ & O & _) L sr'. pose proof (fit_quad c F) as Fq. unfold quad_fits in Fq. rewrite L in Fq. zb.
  destruct (dev_sr_range _ O) as [Hr _].
  assert (E : sr' = set_field (dev_sr (dev h)) (quad_en_post c) 1 1) by (by apply lor_BIT).
  unfold sr_view, sr_write. replace (status_reg_size c) with 2 by lia. cbn [Z.eqb Pos.eqb].
  split_and!; [done|by replace (quad_en_val c) with 1 by lia| | |].
  - unfold sr'. rewrite Z.lor_spec, testbit_BIT, bool_decide_true by lia. apply orb_true_r.
  - intros Hb. apply Z.bits_inj'. intros i Hi. unfold sr'. rewrite Z.lor_spec, testbit_BIT by lia.
    case_bool_decide; [|apply orb_false_r]. subst i. rewrite orb_true_r. symmetry.
    rewrite <-has_bit_testbit by lia. unfold has_bit. by rewrite Hb.
  - rewrite u16_small by (rewrite E; apply set_field_range; lia).
    rewrite E, masked_set_field by (lia || by intros i; apply writable_spec). by rewrite masked_same.
Qed.

Lemma quad_init_ok c d : fits c → hal_hw d = true → flash_cfg d = Some c → ready (hw d) →
  line_mode c = FLASH_LINE_MODE_FOUR →
  wp (bk_flash_set_line_mode FLASH_LINE_MODE_FOUR) d (λ _ d', inv c d' ∧
    eff (λ f, f) (Z.lor (dsr d) (BIT (quad_en_post c))) d d').
Proof.
  intros F Hh Hc R L. pose proof (fit_quad c F) as Fq. unfold quad_fits in Fq. rewrite L in Fq. zb.
  apply wp_bind, wp_on_hw; [done|].
  eapply wp_mono; [by apply flash_ll_clear_qwfr_ok|]. intros _ h1 (R1 & M1 & S1 & I1 & D1).
  destruct (set_qe_ok c h1 F R1 L) as (V & B & T & Same & Wr).
  apply wp_bind, wp_bind. eapply wp_cfg; [exact Hc|]. apply wp_bind, wp_on_hw; [done|]. apply wp_ret.
  apply wp_bind. rewrite (proj2 (Z.eqb_eq 1 (quad_en_val c))) by lia.
  apply (wp_mono _ _ (λ _ d2, ∃ h2, d2 = set_hw h2 d ∧ hpost (λ f, f) (Z.lor (dsr d) (BIT (quad_en_post c))) 0 (hw d) h2)).
  - apply wp_bind, wp_on_hw; [done|]. apply wp_wait_ready; [done|]. apply wp_bind.
    eapply wp_cfg; [exact Hc|]. apply wp_bind, wp_on_hw; [done|].
    eapply wp_mono; [by apply flash_ll_read_status_reg_ok|]. cbn [hw set_hw]. rewrite V, B.
    intros sr h2 [-> S2]. pose proof S2 as (R2 & M2 & Sr2 & I2 & D2).
    assert (P1 : hpost (λ f, f) (dsr d) 0 (hw d) h1) by done. rewrite S1 in *. fold (dsr d) in *.
    destruct (_ =? 0) eqn:E; cbn [negb].
    + apply wp_on_hw; [done|]. eapply wp_mono; [by apply flash_ll_write_status_reg_ok|]. cbn [hw set_hw].
      intros _ h3 P3. exists h3. split; [done|]. rewrite Sr2, Wr, D2, D1 in P3.
      eapply hpost_seq; [exact P1|]. eapply hpost_seq; [exact S2|]. exact P3.
    + apply wp_ret. exists h2. split; [done|]. rewrite (Same eq_refl). unfold hsame in S2. rewrite D1 in S2.
      rewrite S1 in S2. by eapply hpost_seq.
  - intros _ d2 (h2 & -> & R2 & M2 & Sr2 & I2 & D2).
    apply wp_bind. eapply wp_cfg; [exact Hc|]. apply wp_on_hw; [done|]. apply wp_modify, wp_ret.
    cbn [hw set_hw]. rewrite S1 in T. split.
    + split_and!; try done.
      * intros _. unfold dsr. cbn. rewrite Sr2. exact T.
      * unfold home_mode. by rewrite L.
    + split_and!; try done. by destruct d.
Qed.

Lemma quad_ok c m d : fits c → in_mode c m d → line_mode c = FLASH_LINE_MODE_FOUR →
  wp (bk_flash_set_line_mode FLASH_LINE_MODE_FOUR) d (λ _ d', inv c d' ∧ eff (λ f, f) (dsr d) d d').
Proof.
  intros F (Hh & Hc & R & Q & _) L. pose proof (fit_quad c F) as Fq. unfold quad_fits in Fq. rewrite L in Fq. zb.
  destruct (set_qe_ok c (hw d) F R L) as (_ & _ & _ & Same & _).
  assert (B : has_bit (dsr d) (quad_en_post c) = true) by (rewrite has_bit_testbit by lia; by apply Q).
  apply negb_true_iff in B. unfold dsr in *. rewrite <-(Same B).
  by apply quad_init_ok.
Qed.

Lemma kept_ps d p l : kept d (set_ps p l d).
Proof. by destruct d. Qed.

(** In its own mode, or left suspended by a call that failed. *)
Definition inited (c : flash_config_t) d : Prop := inv c d ∨ asleep c d.

Lemma flash_ps_suspend_ok c d : inited c d →
  wp (flash_ps_suspend NORMAL_PS) d (λ _ d', asleep c d' ∧ eff (λ f, f) (dsr d) d d').
Proof.
  intros I. unfold flash_ps_suspend. apply wp_bind, wp_gets, wp_bind, wp_modify.
  set (d1 := set_ps _ _ d). assert (∃ m, in_mode c m d1 ∧ (m = home_mode c ∨ m = FLASH_MODE_DUAL)) as (m & I1 & Hm).
  { destruct I as [I|I]; eexists; (split; [exact I|]); auto. }
  assert (E1 : eff (λ f, f) (dsr d) d d1) by (split_and!; try done; apply kept_ps).
  pose proof I1 as (_ & Hc & _). apply wp_bind, wp_bind. eapply wp_cfg; [exact Hc|]. apply wp_ret, wp_bind.
  apply (wp_mono _ _ (λ _ d2, asleep c d2 ∧ eff (λ f, f) (dsr d) d d2)).
  - destruct (decide (FLASH_LINE_MODE_FOUR = line_mode c)) as [L|L].
    + apply wp_bind. eapply wp_mono; [by apply (dual_ok c m)|]. intros _ d2 [A E2]. apply wp_ret.
      split; [done|]. by apply (eff_trans (λ f, f) (λ f, f) (dsr d) (dsr d) d d1 d2).
    + apply wp_ret. split; [|done]. unfold home_mode in Hm. by destruct (line_mode c), Hm; subst.
  - intros _ d2 [A E2]. apply wp_bind, wp_modify, wp_ret. split; [exact A|].
    destruct E2 as (K & Rest). split; [|exact Rest]. eapply kept_trans; [exact K|apply kept_ps].
Qed.

Lemma flash_ps_resume_ok c d : fits c → asleep c d →
  wp (flash_ps_resume NORMAL_PS) d (λ _ d', inv c d' ∧ eff (λ f, f) (dsr d) d d').
Proof.
  intros F A. unfold flash_ps_resume. pose proof A as (_ & Hc & _).
  apply wp_bind, wp_bind. eapply wp_cfg; [exact Hc|]. apply wp_ret, wp_bind.
  apply (wp_mono _ _ (λ _ d2, inv c d2 ∧ eff (λ f, f) (dsr d) d d2)).
  - destruct (decide (FLASH_LINE_MODE_FOUR = line_mode c)) as [L|L].
    + apply wp_bind. eapply wp_mono; [by apply (quad_ok c FLASH_MODE_DUAL)|]. intros r d2 P. exact P.
    + apply wp_ret. split; [|by split_and!; [destruct d|..]].
      unfold inv, home_mode. by destruct (line_mode c).
  - intros _ d2 [I E2]. apply wp_bind, wp_gets, wp_bind, wp_modify, wp_bind, wp_modify, wp_ret. split; [exact I|].
    destruct E2 as (K & Rest). split; [|exact Rest].
    eapply kept_trans; [exact K|]. eapply kept_trans; apply kept_ps.
Qed.

(** A call between suspend and resume. *)
Lemma suspended_ok {A} c (m : M (drv C) A) d F sr (P : A → Prop) : fits c → inited c d →
  (∀ f g, (∀ x, f x = g x) → ∀ x, F f x = F g x) →
  (∀ d1, asleep c d1 → eff (λ f, f) (dsr d) d d1 →
    wp m d1 (λ a d2, P a ∧ asleep c d2 ∧ eff F sr d1 d2)) →
  wp (suspended m) d (λ a d', P a ∧ inv c d' ∧ eff F sr d d').
Proof.
  intros Ft I HF Hm. apply wp_bind. eapply wp_mono; [by apply flash_ps_suspend_ok|]. intros _ d1 [A1 E1].
  apply wp_bind. eapply wp_mono; [by apply Hm|]. intros a d2 (Pa & A2 & E2).
  apply wp_bind. eapply wp_mono; [by apply flash_ps_resume_ok|]. intros _ d3 [I3 E3]. apply wp_ret.
  split_and!; [done|done|]. apply (eff_trans F (λ f, f) sr sr d d2 d3); [done| |].
  - by apply (eff_trans (λ f, f) F (dsr d) sr d d1 d2).
  - destruct E2 as (_ & _ & S2 & _). by rewrite <-S2 in *.
Qed.

(** Protection. *)
Lemma prot_sr_qe c t sr : fits c → qe_on c sr → qe_on c (prot_sr c t sr).
Proof.
  intros F Q L. pose proof (fit_quad c F) as Fq. unfold quad_fits in Fq. rewrite L in Fq. zb.
  match goal with H : _ || _ = true |- _ => apply orb_true_iff in H end.
  pose proof (prot_width_nonneg c). destruct F. unfold prot_sr. rewrite !set_field_spec by lia.
  destruct (Z.leb_spec (cmp_post c) (quad_en_post c)), (Z.ltb_spec (quad_en_post c) (cmp_post c + 1)); cbn [andb]; try lia;
  destruct (Z.leb_spec (protect_post c) (quad_en_post c)), (Z.ltb_spec (quad_en_post c) (protect_post c + prot_width c)); cbn [andb];
    try (by apply Q); lia.
Qed.

Lemma protect_dpost c t d : fits c → hal_hw d = true → flash_cfg d = Some c → ready (hw d) →
  wp (flash_set_protect_type t) d (λ _ d', dpost (λ f, f) (prot_sr c t (dsr d)) (dmode d) d d').
Proof.
  intros F Hh Hc R. apply wp_bind. eapply wp_cfg; [exact Hc|].
  apply wp_bind, wp_on_hw; [done|]. eapply wp_mono; [by apply flash_ll_read_status_reg_ok|].
  intros v h1 [-> S1]. pose proof S1 as (R1 & M1 & Sr1 & I1 & D1).
  destruct (flash_is_need_update_status_reg _ _ _ _) eqn:E.
  - apply wp_on_hw; [done|]. eapply wp_mono; [by apply flash_ll_write_status_reg_ok|]. cbn [hw set_hw].
    intros _ h2 P2. rewrite Sr1, sr_write_protect in P2; [|done|apply dev_sr_range; by destruct R as (_&_&?&_)..].
    exists h2. split; [by destruct d|]. rewrite D1 in P2. by eapply hpost_seq.
  - apply wp_ret. fold (dsr d) in E. rewrite (need_update_spec _ _ _ F E). by exists h1.
Qed.

Lemma flash_set_protect_type_ok c m t d : fits c → in_mode c m d →
  wp (flash_set_protect_type t) d (λ _ d', in_mode c m d' ∧ eff (λ f, f) (prot_sr c t (dsr d)) d d').
Proof.
  intros F I. pose proof I as (Hh & Hc & R & Q & D). eapply wp_mono; [by apply protect_dpost|].
  intros [] d' P. rewrite D in P. apply dpost_eff; [done|done|by apply prot_sr_qe].
Qed.

Lemma get_protect_value_ok c h : fits c → ready h →
  wp (flash_hal_get_protect_value (status_reg_size c) (protect_post c) (protect_mask c) (cmp_post c)) h
    (λ v h', v = prot_value c (dev_sr (dev h)) ∧ hsame h h').
Proof.
  intros F R. apply wp_bind. eapply wp_mono; [by apply flash_ll_read_status_reg_ok|].
  intros v h1 [-> S1]. apply wp_ret. split; [|done]. rewrite (fit_mask c F).
  pose proof (prot_width_nonneg c). pose proof F as []. change 1 with (Z.ones 1) at 1. by rewrite !view_field by (done || lia).
Qed.

Lemma asleep_same c d d1 : asleep c d → dsame d d1 → asleep c d1 ∧ eff (λ f, f) (dsr d) d d1.
Proof.
  intros A (h1 & -> & S1). apply (dpost_eff c FLASH_MODE_DUAL); [done| |by destruct A as (_&_&_&?&_)].
  exists h1. split; [done|]. unfold hsame in S1. destruct A as (_ & _ & _ & _ & D). unfold dmode in D. by rewrite D in S1.
Qed.

Lemma eff_sr d sr F d1 d2 : eff (λ f, f) (dsr d) d d1 → sr = dsr d → eff F (dsr d1) d1 d2 → eff F sr d1 d2.
Proof. intros (_ & _ & S & _) ->. by rewrite S. Qed.

Lemma get_protect_type_ok c d : fits c → inited c d →
  wp bk_flash_get_protect_type d (λ t d', t = protect_type_of c (prot_value c (dsr d)) ∧ inv c d' ∧ eff (λ f, f) (dsr d) d d').
Proof.
  intros F I. apply (suspended_ok c); [done..|]. intros d1 A1 E1. pose proof A1 as (Hh & Hc & R & _).
  apply wp_bind. eapply wp_cfg; [exact Hc|]. apply wp_bind, wp_on_hw; [done|].
  eapply wp_mono; [by apply get_protect_value_ok|]. intros v h1 [-> S1]. apply wp_ret.
  pose proof E1 as (_ & _ & Sr & _). unfold dsr in Sr at 1. rewrite Sr. split; [done|].
  destruct (asleep_same c d1 (set_hw h1 d1) A1) as [A2 E2]; [by exists h1|]. split; [done|]. by eapply eff_sr.
Qed.

Lemma set_protect_type_ok c t d : fits c → inited c d →
  wp (bk_flash_set_protect_type t) d (λ r d', r = BK_OK ∧ inv c d' ∧ eff (λ f, f) (prot_sr c t (dsr d)) d d').
Proof.
  intros F I. apply wp_bind.
  eapply wp_mono; [apply (suspended_ok c _ d (λ f, f) (prot_sr c t (dsr d)) (λ _, True)); [done..|]|].
  - intros d1 A1 E1. eapply wp_mono; [by apply flash_set_protect_type_ok|]. intros _ d2 [A2 E2].
    destruct E1 as (_ & _ & S & _). by rewrite S in E2.
  - intros _ d' (_ & I' & E'). by apply wp_ret.
Qed.
End Driver.

Section Api.
Context {C : Type} `{FlashLaws C}.
Implicit Types (h : flash_hw_t C) (d : drv C).

Lemma erase_sector_ext a f g x : f x = g x → EfEnv.erase_sector a f x = EfEnv.erase_sector a g x.
Proof. unfold EfEnv.erase_sector. by intros ->. Qed.
Lemma guarded_erase_ext sr a f g : (∀ x, f x = g x) →
  ∀ x, guarded (C := C) sr (EfEnv.erase_sector a) f x = guarded sr (EfEnv.erase_sector a) g x.
Proof. intros E. apply guarded_ext; [|done]. intros f1 g1 x. apply erase_sector_ext. Qed.

Lemma sector_mask a : 0 ≤ a → let e := Z.land a FLASH_ERASE_SECTOR_MASK in 0 ≤ e ∧ e mod 4096 = 0.
Proof.
  intros Ha e. unfold e, FLASH_ERASE_SECTOR_MASK.
  change 0xFFF000 with (Z.shiftl (Z.ones 12) 12). split; [apply Z.land_nonneg; by left|].
  change 4096 with (2 ^ 12). rewrite <-Z.land_ones, <-Z.land_assoc by lia. by rewrite Z.land_0_r.
Qed.

Lemma erase_ok c address d : fits c → inited c d → 0 ≤ address →
  let e := Z.land address FLASH_ERASE_SECTOR_MASK in
  wp (bk_flash_erase_sector address) d (λ r d',
    if flash_size c <=? e
    then r = BK_ERR_FLASH_ADDR_OUT_OF_RANGE ∧ asleep c d' ∧ eff (λ f, f) (dsr d) d d'
    else r = BK_OK ∧ inv c d' ∧ eff (guarded (dsr d) (EfEnv.erase_sector e)) (dsr d) d d').
Proof.
  intros F I Ha e. destruct (sector_mask address Ha) as [He Hm]. fold e in He, Hm.
  apply wp_bind. eapply wp_mono; [by apply flash_ps_suspend_ok|]. intros _ d1 [A1 E1].
  pose proof A1 as (Hh & Hc & R & Q & D). apply wp_bind. eapply wp_cfg; [exact Hc|]. fold e.
  destruct (Z.leb_spec (flash_size c) e); [by apply wp_ret|].
  pose proof (fit_size c F). pose proof (dev_size_sectors (C := C)).
  pose proof E1 as (_ & _ & S1 & _).
  apply wp_bind, wp_on_hw; [done|].
  eapply wp_mono; [apply flash_ll_erase_sector_ok; try done; Z.to_euclidean_division_equations; lia|].
  intros [] h2 P2. destruct (dpost_eff c FLASH_MODE_DUAL (guarded (dsr d) (EfEnv.erase_sector e)) (dsr d) d1 (set_hw h2 d1)) as [A2 E2].
  { done. }
  { exists h2. split; [done|]. unfold dsr, dmode in *. by rewrite S1, D in P2. }
  { by rewrite <-S1. }
  apply wp_bind. eapply wp_mono; [by apply flash_ps_resume_ok|]. intros _ d3 [I3 E3]. apply wp_ret.
  split_and!; [done|done|]. pose proof E2 as (_ & _ & S2 & _). rewrite S2 in E3.
  eapply (eff_trans _ (λ f, f)); [done| |exact E3].
  eapply (eff_trans (λ f, f)); [apply guarded_erase_ext|exact E1|exact E2].
Qed.

Lemma read_ok c address size d : fits c → inv c d → 0 ≤ address → 0 ≤ size → address + size ≤ dev_size →
  wp (bk_flash_read_bytes address size) d (λ r d',
    if flash_size c <=? address then r = (BK_ERR_FLASH_ADDR_OUT_OF_RANGE, []) ∧ d' = d
    else r = (BK_OK, EfEnv.read_flash (dmem d) address (Z.to_nat size)) ∧ inv c d' ∧ eff (λ f, f) (dsr d) d d').
Proof.
  intros F I Ha Hs Hr. pose proof I as (Hh & Hc & R & Q & D). apply wp_bind. eapply wp_cfg; [exact Hc|].
  destruct (flash_size c <=? address); [by apply wp_ret|]. apply wp_bind.
  eapply wp_mono; [by apply flash_read_common_ok|]. intros bs d1 [-> (h1 & E & S1)]. apply wp_ret. split; [done|].
  apply dpost_eff; [done| |done]. exists h1. split; [done|]. unfold hsame in S1. unfold dmode in D. by rewrite D in S1.
Qed.

(** The range check of [flash_write_common], on the address of the first block. *)
Definition write_refused (c : flash_config_t) (address len : Z) : bool :=
  let addr := address - address mod 32 in
  (flash_size c <=? addr) || (flash_size c <? len) || (flash_size c <? u32 (addr + len)).

Lemma write_common_ok c buf address d : fits c → asleep c d → 0 ≤ address → all_bytes buf →
  address + Z.of_nat (length buf) ≤ dev_size →
  wp (flash_write_common buf address (Z.of_nat (length buf))) d (λ r d',
    if write_refused c address (Z.of_nat (length buf))
    then r = BK_ERR_FLASH_ADDR_OUT_OF_RANGE ∧ d' = d
    else r = BK_OK ∧ asleep c d' ∧ eff (guarded (dsr d) (EfEnv.program address buf)) (dsr d) d d').
Proof.
  intros F A Ha Hb Hs. pose proof A as (Hh & Hc & R & Q & D). unfold flash_write_common. cbv zeta.
  rewrite align_block by done. apply wp_bind. eapply wp_cfg; [exact Hc|]. unfold write_refused. cbv zeta.
  destruct (_ || _); [by apply wp_ret|].
  pose proof (Z.mod_pos_bound address 32 ltac:(lia)). pose proof dev_size_blocks as Dm.
  pose proof (dev_size_max (C := C)).
  set (addr := address - address mod 32).
  assert (Am : addr mod 32 = 0) by (unfold addr; Z.to_euclidean_division_equations; lia).
  assert (0 ≤ addr) by (unfold addr; Z.to_euclidean_division_equations; lia).
  apply wp_bind.
  apply (wp_mono _ _ (λ pb d1, dsame d d1 ∧ length pb = 32%nat ∧ all_bytes pb ∧
           (pb = EfEnv.read_flash (dmem d) addr 32 ∨ address mod 32 = 0 ∨ Z.of_nat (length buf) = 0))).
  - unfold FLASH_BYTES_CNT. destruct (Z.eqb_spec (address mod 32) 0); cbn [negb].
    + apply wp_ret. split_and!; [by apply dsame_refl|done|by apply Forall_replicate|by right; left].
    + eapply wp_mono; [apply flash_read_common_ok; try done; unfold addr; Z.to_euclidean_division_equations; lia|].
      intros bs d1 [-> S1]. split_and!; [done|apply EfEnv.length_read_flash|by apply read_flash_dmem_bytes|by left].
  - intros pb d1 (S1 & Lp & Bp & Pp). destruct (asleep_same c d d1 A S1) as [A1 E1].
    pose proof A1 as (Hh1 & Hc1 & R1 & Q1 & D1). apply wp_bind, wp_on_hw; [done|].
    apply wp_wait_ready; [done|]. rewrite set_hw_same. apply wp_bind.
    eapply wp_mono; [apply write_loop_ok; try done; [lia|by left|]|].
    + destruct Pp as [->|]; [left|by right]. apply EfEnv.read_flash_ext. intros x _. symmetry. apply E1.
    + intros [] d2 P2. apply wp_ret. split; [done|]. pose proof E1 as (_ & _ & S & _). rewrite S, D1 in P2.
      destruct (dpost_eff c FLASH_MODE_DUAL _ _ d1 d2 A1 P2 Q) as [A2 E2]. split; [done|].
      eapply (eff_trans (λ f, f)); [apply guarded_program_ext|exact E1|exact E2].
Qed.

Lemma write_ok c address buf d : fits c → inited c d → 0 ≤ address → all_bytes buf →
  address + Z.of_nat (length buf) ≤ dev_size →
  wp (bk_flash_write_bytes address buf (Z.of_nat (length buf))) d (λ r d',
    if flash_size c <=? address
    then r = BK_ERR_FLASH_ADDR_OUT_OF_RANGE ∧ asleep c d' ∧ eff (λ f, f) (dsr d) d d'
    else r = BK_OK ∧ inv c d' ∧
      eff (if write_refused c address (Z.of_nat (length buf)) then λ f, f
           else guarded (dsr d) (EfEnv.program address buf)) (dsr d) d d').
Proof.
  intros F I Ha Hb Hs. apply wp_bind. eapply wp_mono; [by apply flash_ps_suspend_ok|]. intros _ d1 [A1 E1].
  pose proof A1 as (Hh & Hc & R & Q & D). apply wp_bind. eapply wp_cfg; [exact Hc|].
  destruct (flash_size c <=? address); [by apply wp_ret|]. pose proof E1 as (_ & _ & S1 & _).
  apply wp_bind. eapply wp_mono; [by apply (write_common_ok c)|]. intros r d2 P2.
  assert (P : asleep c d2 ∧ eff (if write_refused c address (Z.of_nat (length buf)) then λ f, f
           else guarded (dsr d) (EfEnv.program address buf)) (dsr d) d d2).
  { rewrite S1 in P2. destruct (write_refused _ _ _).
    - by destruct P2 as [_ ->].
    - destruct P2 as (_ & A2 & E2). split; [done|]. eapply (eff_trans (λ f, f)); [apply guarded_program_ext|exact E1|exact E2]. }
  destruct P as [A2 E2]. apply wp_bind. eapply wp_mono; [by apply flash_ps_resume_ok|]. intros _ d3 [I3 E3]. apply wp_ret.
  split_and!; [done|done|]. pose proof E2 as (_ & _ & S2 & _). rewrite S2 in E3.
  by eapply (eff_trans _ (λ f, f)).
Qed.
End Api.

End FlashOps.
