(* ===== verification/FlashPort.v ===== *)
(** * The flash driver's theorems and the environment's flash port

    Initialisation, transfers, protection and clock of the driver; a concrete chip
    that satisfies the device laws; and the port of components/easy_flash
    (port/ef_port.c) written over the driver, which implements the byte-array
    flash that EfEnv.v verifies the environment against. *)
From S2P Require Import Prelude Bytes EfEnv FlashDriver FlashOps.
Import FlashDriver FlashOps.
Local Open Scope Z_scope.

Module FlashPort.

(** ** The flash port, over the driver (port/ef_port.c) *)
Section Port.
Context {C : Type} `{FlashDevice C}.

Definition EF_ASSERT (b : bool) : M (drv C) unit := if b then ret tt else trapM Hang.

(** The buffer is left alone when the driver refuses the address. *)
Definition ef_port_read (addr size : Z) : M (drv C) (list Z) :=
  EF_ASSERT (size mod 4 =? 0) ;;;
  let* r := bk_flash_read_bytes addr size in ret r.2.

(** The do/while loop of [bk_erase]; [fuel] is one more than the sectors left. *)
Fixpoint erase_loop (fuel : nat) (addr size : Z) : M (drv C) unit :=
  match fuel with
  | O => trapM Hang
  | S fuel' =>
      bk_flash_erase_sector addr ;;;
      let size' := if size <? 4096 then 0 else size - 4096 in
      if size' =? 0 then ret tt else erase_loop fuel' (u32 (addr + 4096)) size'
  end.

Definition bk_erase (addr size : Z) : M (drv C) Z :=
  let* protect_type := bk_flash_get_protect_type in
  (if decide (FLASH_PROTECT_NONE ≠ protect_type) then bk_flash_set_protect_type FLASH_PROTECT_NONE ;;; ret tt else ret tt) ;;;
  erase_loop (S (Z.to_nat (size / 4096))) (Z.land addr 0x00FFF000) size ;;;
  (if decide (FLASH_PROTECT_NONE ≠ protect_type) then bk_flash_set_protect_type protect_type ;;; ret tt else ret tt) ;;;
  ret size.

Definition ef_port_erase (addr size : Z) : M (drv C) EfEnv.EfErrCode :=
  EF_ASSERT (addr mod EfEnv.EF_ERASE_MIN_SIZE =? 0) ;;;
  bk_erase addr size ;;; ret EfEnv.EF_NO_ERR.

Definition ef_port_write (addr : Z) (buf : list Z) : M (drv C) EfEnv.EfErrCode :=
  EF_ASSERT (Z.of_nat (length buf) mod 4 =? 0) ;;;
  let* protect_type := bk_flash_get_protect_type in
  (if decide (FLASH_PROTECT_NONE ≠ protect_type) then bk_flash_set_protect_type FLASH_PROTECT_NONE ;;; ret tt else ret tt) ;;;
  bk_flash_write_bytes addr buf (Z.of_nat (length buf)) ;;;
  bk_flash_set_protect_type protect_type ;;;
  ret EfEnv.EF_NO_ERR.
End Port.

(** ** The clock of the flash, shared by the modules that ask for a low speed *)
Section Clock.
Context {C : Type} `{FlashDevice C}.
Implicit Types (d : drv C).

Lemma set_clk_dpll_done d :
  bk_flash_set_clk FLASH_CLK_DPLL FLASH_DPLL_DIV_VALUE_TEN d =
  Done (BK_OK, set_clock (s_hold_low_speed_status d) FLASH_CLK_DPLL FLASH_DPLL_DIV_VALUE_TEN d).
Proof.
  unfold bk_flash_set_clk, FLASH_CLK_DPLL, FLASH_CLK_APLL, FLASH_DPLL_DIV_VALUE_TEN.
  change ((1 =? 1) && (3 =? 0)) with false. change (2 =? 1) with false. cbv iota zeta. change (1 =? 1) with true. cbv iota.
  destruct ((cksel_flash d =? 1) && (ckdiv_flash d =? 3)) eqn:E; [|done]. zb. destruct d. cbn in *. by subst.
Qed.

Lemma clk_high_done d : s_hold_low_speed_status d = 0 →
  bk_flash_clk_switch FLASH_SPEED_HIGH 0 d =
  Done (BK_OK, set_clock 0 FLASH_CLK_DPLL FLASH_DPLL_DIV_VALUE_TEN d).
Proof.
  intros Hz. unfold bk_flash_clk_switch. erewrite bind_done by reflexivity. erewrite bind_done by reflexivity.
  cbn [s_hold_low_speed_status set_clock]. rewrite Hz.
  change (Z.land 0 (Z.lnot 0) =? 0) with true. cbv iota.
  rewrite (bind_done _ _ _ _ _ (set_clk_dpll_done _)). done.
Qed.

Lemma set_clk_xtal_done d :
  bk_flash_set_clk FLASH_CLK_XTAL FLASH_DPLL_DIV_VALUE_TEN d =
  Done (BK_OK, set_clock (s_hold_low_speed_status d) FLASH_CLK_XTAL (ckdiv_flash d) d).
Proof.
  unfold bk_flash_set_clk, FLASH_CLK_DPLL, FLASH_CLK_XTAL, FLASH_CLK_APLL, FLASH_DPLL_DIV_VALUE_TEN.
  change ((1 =? 0) && (3 =? 0)) with false. change (2 =? 0) with false. cbv iota zeta. change (1 =? 0) with false. cbv iota.
  destruct ((cksel_flash d =? 0) && (ckdiv_flash d =? 3)) eqn:E; [|done]. zb. destruct d. cbn in *. by subst.
Qed.

Fixpoint clk_requests (rs : list (flash_speed_type_t * Z)) : M (drv C) unit :=
  match rs with
  | [] => ret tt
  | (t, modules) :: rs' => bk_flash_clk_switch t modules ;;; clk_requests rs'
  end.

(** Module [i] holds the clock low when its last request was for low speed. *)
Fixpoint holds_low (i : Z) (rs : list (flash_speed_type_t * Z)) (b : bool) : bool :=
  match rs with
  | [] => b
  | (FLASH_SPEED_LOW, modules) :: rs' => holds_low i rs' (b || Z.testbit modules i)
  | (FLASH_SPEED_HIGH, modules) :: rs' => holds_low i rs' (b && negb (Z.testbit modules i))
  end.

Definition clock_ok d : Prop :=
  0 ≤ s_hold_low_speed_status d ∧
  cksel_flash d = (if s_hold_low_speed_status d =? 0 then FLASH_CLK_DPLL else FLASH_CLK_XTAL).

Lemma clk_switch_ok t modules d : clock_ok d → 0 ≤ modules →
  ∃ hold sel div, let d' := set_clock hold sel div d in
    bk_flash_clk_switch t modules d = Done (BK_OK, d') ∧ clock_ok d' ∧
    hold = match t with FLASH_SPEED_LOW => Z.lor (s_hold_low_speed_status d) modules
           | FLASH_SPEED_HIGH => Z.land (s_hold_low_speed_status d) (Z.lnot modules) end.
Proof.
  intros [Hp Hs] Hm. unfold bk_flash_clk_switch.
  destruct t; erewrite bind_done by reflexivity; erewrite bind_done by reflexivity; cbn [s_hold_low_speed_status set_clock].
  - set (hold := Z.land (s_hold_low_speed_status d) (Z.lnot modules)).
    assert (0 ≤ hold) by (apply Z.land_nonneg; by left). destruct (Z.eqb_spec hold 0) as [E|E].
    + rewrite (bind_done _ _ _ _ _ (set_clk_dpll_done _)). do 3 eexists. split; [reflexivity|].
      split; [|done]. split; [done|]. cbn. by rewrite E.
    + do 3 eexists. split; [reflexivity|]. split; [|done]. split; [done|]. cbn.
      rewrite (proj2 (Z.eqb_neq hold 0)) by done. rewrite Hs.
      destruct (Z.eqb_spec (s_hold_low_speed_status d) 0) as [E0|]; [|done]. unfold hold in E. by rewrite E0 in E.
  - set (hold := Z.lor (s_hold_low_speed_status d) modules).
    assert (0 ≤ hold) by (by apply Z.lor_nonneg). destruct (Z.eqb_spec hold 0) as [E|E]; cbn [negb].
    + do 3 eexists. split; [reflexivity|]. split; [|done]. split; [done|]. cbn. rewrite E.
      unfold hold in E. apply Z.lor_eq_0_iff in E as [E1 _]. by rewrite Hs, E1.
    + rewrite (bind_done _ _ _ _ _ (set_clk_xtal_done _)). do 3 eexists. split; [reflexivity|].
      split; [|done]. split; [done|]. cbn. by rewrite (proj2 (Z.eqb_neq hold 0)).
Qed.

Lemma clk_requests_ok rs d : clock_ok d → Forall (λ r, 0 ≤ r.2) rs →
  ∃ d', clk_requests rs d = Done (tt, d') ∧ clock_ok d' ∧
    (∀ i, 0 ≤ i → Z.testbit (s_hold_low_speed_status d') i = holds_low i rs (Z.testbit (s_hold_low_speed_status d) i)) ∧
    d' = set_clock (s_hold_low_speed_status d') (cksel_flash d') (ckdiv_flash d') d.
Proof.
  revert d. induction rs as [|[t modules] rs IH]; intros d O Hr; cbn [clk_requests].
  - exists d. split_and!; try done. by destruct d.
  - apply Forall_cons in Hr as [Hm Hr]. destruct (clk_switch_ok t modules d O Hm) as (hold & sel & div & E & O1 & Eh).
    rewrite (bind_done _ _ _ _ _ E). destruct (IH _ O1 Hr) as (d' & E' & O' & B & K). exists d'. split_and!; try done.
    intros i Hi. rewrite B by done. cbn [s_hold_low_speed_status set_clock]. rewrite Eh. destruct t; cbn [holds_low].
    + by rewrite Z.land_spec, Z.lnot_spec by done.
    + by rewrite Z.lor_spec.
Qed.
End Clock.

(** ** Initialisation *)
Definition config_of (id : Z) : flash_config_t :=
  default default_config (find (λ c, id =? cfg_flash_id c) flash_config).

Section Init.
Context {C : Type} `{FlashLaws C}.
Implicit Types (h : flash_hw_t C) (d : drv C).

(** The status register after initialisation: last block unprotected, quad mode
    enabled when the entry uses it. *)
Definition init_sr (c : flash_config_t) (sr : Z) : Z :=
  let sr := prot_sr c FLASH_UNPROTECT_LAST_BLOCK sr in
  match line_mode c with FLASH_LINE_MODE_FOUR => Z.lor sr (BIT (quad_en_post c)) | FLASH_LINE_MODE_TWO => sr end.

Lemma line_mode_ok c d : fits c → hal_hw d = true → flash_cfg d = Some c → ready (hw d) →
  wp (bk_flash_set_line_mode (line_mode c)) d (λ _ d', inv c d' ∧
    eff (λ f, f) (match line_mode c with FLASH_LINE_MODE_FOUR => Z.lor (dsr d) (BIT (quad_en_post c))
                  | FLASH_LINE_MODE_TWO => dsr d end) d d').
Proof.
  intros F Hh Hc R. destruct (line_mode c) eqn:L.
  - assert (I : in_mode c (dmode d) d) by (split_and!; try done; intros L'; congruence).
    unfold inv, home_mode. rewrite L. by apply (dual_ok c (dmode d)).
  - by apply quad_init_ok.
Qed.

(** Nothing but the controller's own settings and the driver's records change. *)
Lemma driver_init_ok d : let c := config_of (dev_id (dev (hw d))) in
  s_flash_is_init d = false → s_hold_low_speed_status d = 0 → ready (hw d) → fits c →
  wp (bk_flash_driver_init 0) d (λ r d', r = BK_OK ∧ s_flash_is_init d' = true ∧ inv c d' ∧
    flash_id d' = dev_id (dev (hw d)) ∧ (∀ x, dmem d' x = dmem d x) ∧ dsr d' = init_sr c (dsr d) ∧
    s_hold_low_speed_status d' = 0 ∧ cksel_flash d' = FLASH_CLK_DPLL ∧ ckdiv_flash d' = FLASH_DPLL_DIV_VALUE_TEN).
Proof.
  intros c Hi Hz R F. unfold bk_flash_driver_init. apply wp_bind, wp_gets. rewrite Hi.
  do 2 apply wp_bind, wp_modify. apply wp_bind, wp_on_hw; [done|].
  eapply wp_mono; [by apply flash_ll_get_id_ok|]. intros id h1 (-> & (R1 & M1 & S1 & I1 & D1) & _).
  apply wp_bind, wp_modify, wp_bind. eapply wp_done; [reflexivity|]. cbn [hw set_s_flash flash_id set_hw set_flash_id hal_hw].
  fold (config_of (dev_id (dev (hw d)))). fold c.
  set (d1 := set_s_flash _ _ (Some c) _). apply wp_bind.
  eapply wp_mono; [by apply (protect_dpost c _ d1)|]. intros [] d2 (h2 & -> & R2 & M2 & S2 & I2 & D2).
  apply wp_bind, wp_on_hw; [done|]. apply wp_modify, wp_bind. eapply wp_cfg; [reflexivity|].
  set (d3 := set_hw _ (set_hw h2 d1)). apply wp_bind.
  eapply wp_mono; [by apply (line_mode_ok c d3)|]. intros r d4 (I4 & K4 & M4 & S4 & _).
  pose proof I4 as (Hh4 & Hc4 & R4 & Q4 & D4).
  apply wp_bind, wp_on_hw; [done|]. apply wp_modify, wp_bind.
  set (d5 := set_hw _ d4).
  assert (Kd : flash_id d4 = flash_id d3 ∧ s_hold_low_speed_status d4 = s_hold_low_speed_status d3).
  { unfold kept in K4. by rewrite <-K4. }
  destruct Kd as [Kid Kh].
  eapply wp_done; [apply clk_high_done; cbn; rewrite Kh; exact Hz|].
  apply wp_bind, wp_ret, wp_bind, wp_modify, wp_ret. split_and!; try done.
  - intros x. transitivity (dmem d4 x); [done|]. rewrite M4. transitivity (dev_mem (dev h2) x); [done|]. rewrite M2. apply M1.
  - transitivity (dsr d4); [done|]. rewrite S4. change (dsr d3) with (dev_sr (dev h2)). rewrite S2.
    change (dsr d1) with (dev_sr (dev h1)). rewrite S1. done.
Qed.
End Init.

(** ** A chip that obeys the laws

    Four megabytes; each operation answers three polls as busy.  The protection
    map is that of entry 0x0B4016: nothing, all but the last 64 KB, the lower
    half, or everything. *)
Record NorChip := mk_nor { n_mem : Z → Z; n_sr : Z; n_id : Z }.

Definition nor_wmask : Z := 0xFFFC.
Definition nor_prot (sr x : Z) : bool :=
  let v := Z.lor (Z.shiftl (field sr 14 1) 8) (field sr 2 5) in
  if v =? 0 then false else if v =? 0x101 then x <? 0x3F0000 else if v =? 0x0E then x <? 0x200000 else true.

Definition nor_exec (h : flash_hw_t NorChip) : answer NorChip :=
  let c := dev h in let a := addr_sw_reg (op_sw h) in
  let sr w := mk_answer (mk_nor (n_mem c) (masked nor_wmask (n_sr c) w) (n_id c)) [] 0 0 3 in
  let mem G := mk_answer (mk_nor (λ x, if nor_prot (n_sr c) x then n_mem c x else G (n_mem c) x) (n_sr c) (n_id c)) [] 0 0 3 in
  match op_type_sw (op_sw h) with
  | FLASH_OP_CMD_READ => mk_answer c (words 8 (EfEnv.read_flash (n_mem c) a 32)) 0 0 3
  | FLASH_OP_CMD_PP => mem (EfEnv.program a (block_bytes (data_sw_flash h)))
  | FLASH_OP_CMD_SE => mem (EfEnv.erase_sector a)
  | FLASH_OP_CMD_RDID => mk_answer c [] (n_id c) 0 3
  | FLASH_OP_CMD_RDSR => mk_answer c [] 0 (field (n_sr c) 0 8) 3
  | FLASH_OP_CMD_RDSR2 => mk_answer c [] 0 (field (n_sr c) 8 8) 3
  | FLASH_OP_CMD_WRSR =>
      if (wrsr_cmd_sel (sr_cmd h) =? 1) && (wrsr_cmd_reg (sr_cmd h) =? 0x31)
      then sr (set_field (n_sr c) 8 8 (wrsr_data (config h))) else sr (set_field (n_sr c) 0 8 (wrsr_data (config h)))
  | FLASH_OP_CMD_WRSR2 => sr (wrsr_data (config h))
  | _ => mk_answer c [] 0 0 3
  end.
#[export] Instance nor_device : FlashDevice NorChip := {| dev_exec := nor_exec |}.

Definition nor_ok (c : NorChip) : Prop :=
  (∀ x, byte (n_mem c x)) ∧ 0 ≤ n_sr c < 2 ^ 16 ∧ Z.testbit (n_sr c) 0 = false ∧ 0 ≤ n_id c < 2 ^ 32.

Lemma land_byte a b : byte a → 0 ≤ b → byte (Z.land a b).
Proof.
  unfold byte. intros Ha Hb. change 256 with (2 ^ 8) in *. split; [apply Z.land_nonneg; lia|].
  destruct (Z.eq_dec (Z.land a b) 0) as [->|]; [lia|].
  apply Z.log2_lt_pow2; [pose proof (proj2 (Z.land_nonneg a b)); lia|].
  eapply Z.le_lt_trans; [apply Z.log2_land; lia|]. eapply Z.le_lt_trans; [apply Z.le_min_l|].
  destruct (Z.eq_dec a 0) as [->|]; [cbn; lia|]. apply Z.log2_lt_pow2; lia.
Qed.

Lemma block_bytes_bytes ws : all_bytes (block_bytes ws).
Proof. induction ws as [|w ws IH]; [by apply Forall_nil_2|]. apply all_bytes_app. split; [apply le_bytes_bytes|done]. Qed.

Lemma program_byte a l f x : (∀ y, byte (f y)) → all_bytes l → byte (EfEnv.program a l f x).
Proof.
  intros Hf Hl. unfold EfEnv.program. destruct (_ && _); [|done]. apply land_byte; [done|].
  destruct (nth_in_or_default (Z.to_nat (x - a)) l 0) as [Hi| ->]; [|lia].
  unfold all_bytes in Hl. rewrite Forall_forall in Hl. apply list_elem_of_In in Hi. by apply Hl.
Qed.

Lemma nor_exec_ok h : nor_ok (dev h) → nor_ok (a_dev (nor_exec h)) ∧ n_id (a_dev (nor_exec h)) = n_id (dev h).
Proof.
  intros (B & S & S0 & I).
  assert (W : ∀ w, nor_ok (mk_nor (n_mem (dev h)) (masked nor_wmask (n_sr (dev h)) w) (n_id (dev h)))).
  { intros w. destruct (masked_range nor_wmask (n_sr (dev h)) w); [done..|].
    split; [done|]. split; [done|]. split; [|done]. cbn [n_sr]. by rewrite masked_spec. }
  unfold nor_exec. destruct (op_type_sw (op_sw h)); cbn [a_dev n_id];
    try (split; [exact (conj B (conj S (conj S0 I)))|done]); try (split; [apply W|done]).
  - destruct (_ && _); split; try apply W; done.
  - split; [split; [|exact (conj S (conj S0 I))]|done]. intros x. cbn. destruct (nor_prot _ x); [done|].
    apply program_byte; [done|apply block_bytes_bytes].
  - split; [split; [|exact (conj S (conj S0 I))]|done]. intros x. cbn. destruct (nor_prot _ x); [done|].
    unfold EfEnv.erase_sector. by destruct (_ && _).
Qed.

#[export] Instance nor_laws : FlashLaws NorChip.
Proof.
  refine {| dev_ok := nor_ok; dev_mem := n_mem; dev_sr := n_sr; dev_id := n_id;
            dev_size := 0x400000; dev_prot := nor_prot; dev_wmask := nor_wmask |};
    try done; try (by intros c; intros (? & ? & ? & ?)); unfold dev_exec, nor_device, nor_exec.
  - intros c x (B & _). apply B.
  - intros h _. apply nor_exec_ok.
  - intros h _ _ N1 N2 x. destruct (op_type_sw (op_sw h)); try done. by destruct (_ && _).
  - intros h _ _ N1 N2. by destruct (op_type_sw (op_sw h)).
  - by intros h _ _ ->.
  - by intros h _ _ ->.
  - by intros h _ _ ->.
  - intros h _ _ ->. by destruct (_ && _).
  - by intros h _ _ ->.
  - intros h _ O -> _ _. cbn [a_data]. destruct (words_ok 8 (EfEnv.read_flash (n_mem (dev h)) (addr_sw_reg (op_sw h)) 32)) as (W1 & W2 & _).
    + by rewrite EfEnv.length_read_flash.
    + apply EfEnv.read_flash_bytes. by destruct O.
    + done.
  - by intros h _ _ ->.
  - by intros h _ _ ->.
Defined.

(** A chip with everything protected and an idle controller, and the driver
    initialised on it. *)
Definition nor_hw (id : Z) (mem : Z → Z) : flash_hw_t NorChip :=
  mk_hw (mk_op 0 FLASH_OP_CMD_WRDI 0) [] [] (mk_sr 1 0) 0 0 (mk_conf 0 0 1 0) 0 (mk_nor mem 0x7C id).
Definition boot_drv (id : Z) (mem : Z → Z) : drv NorChip :=
  mk_drv false (nor_hw id mem) 0 None false (mk_ps false false false false) None None [] 0 0 0.
Definition nor_drv (id : Z) (mem : Z → Z) : drv NorChip :=
  match bk_flash_driver_init 0 (boot_drv id mem) with Done (_, d) => d | Trap _ => boot_drv id mem end.

Lemma nor_hw_ready id mem : (∀ x, byte (mem x)) → 0 ≤ id < 2 ^ 32 → ready (nor_hw id mem).
Proof. intros B Hi. split_and!; try done; lia. Qed.

Lemma nor_drv_inv id mem : (∀ x, byte (mem x)) → 0 ≤ id < 2 ^ 32 → config_fits (C := NorChip) (config_of id) = true →
  inv (config_of id) (nor_drv id mem) ∧ (∀ x, dmem (nor_drv id mem) x = mem x).
Proof.
  intros B Hi F%config_fits_spec.
  pose proof (driver_init_ok (boot_drv id mem) eq_refl eq_refl (nor_hw_ready id mem B Hi) F) as W.
  apply wp_inv in W as (r & d & E & _ & _ & I & _ & M & _). unfold nor_drv. rewrite E. exact (conj I M).
Qed.

(** Every entry of the table fits a chip of its size: here the entries of at most
    four megabytes. *)
Example table_fits : forallb (λ c, implb (flash_size c <=? 0x400000) (config_fits (C := NorChip) c)) (default_config :: flash_config) = true.
Proof. by vm_compute. Qed.

(** ** The port implements the byte-array flash *)
Section PortOk.
Context {C : Type} `{FlashLaws C}.
Implicit Types (d : drv C).

(** With the bits of type NONE in the status register nothing is protected. *)
Definition none_unprotects (c : flash_config_t) : Prop :=
  ∀ sr x, prot_value c sr = protect_none c → dev_prot sr x = false.

(** The register after a port call: as before, or everything protected when its
    protection bits match no type of the entry. *)
Definition restored (c : flash_config_t) (sr : Z) : Z :=
  match protect_type_of c (prot_value c sr) with
  | FLASH_PROTECT_UNKNOWN => prot_sr c FLASH_PROTECT_ALL sr
  | _ => sr
  end.

Lemma restored_eq c sr : fits (C := C) c →
  let t := protect_type_of c (prot_value c sr) in prot_sr c t sr = restored c sr.
Proof.
  intros F t. unfold restored. fold t. destruct (decide (t = FLASH_PROTECT_UNKNOWN)) as [->|N]; [done|].
  rewrite (prot_sr_id (C := C)); [by destruct t|done|]. symmetry. by apply protect_type_of_raw.
Qed.

Lemma unprotect_ok c t d : fits c → inited c d → t = protect_type_of c (prot_value c (dsr d)) →
  wp (if decide (FLASH_PROTECT_NONE ≠ t) then bk_flash_set_protect_type FLASH_PROTECT_NONE ;;; ret tt else ret tt) d
    (λ _ d', inited c d' ∧ (inv c d → inv c d') ∧ ∃ sr, eff (λ f, f) sr d d' ∧ prot_value c sr = protect_none c ∧
       prot_sr c t sr = restored c (dsr d) ∧ (FLASH_PROTECT_NONE = t → sr = dsr d)).
Proof.
  intros F I Ht. pose proof (restored_eq c (dsr d) F) as E. cbv zeta in E. rewrite <-Ht in E.
  destruct (decide (FLASH_PROTECT_NONE ≠ t)) as [N|N].
  - apply wp_bind. eapply wp_mono; [by apply (set_protect_type_ok c)|]. intros r d1 (_ & I1 & E1). apply wp_ret.
    split; [by left|]. split; [done|]. eexists. split; [exact E1|]. rewrite (prot_sr_set (C := C)) by done.
    split; [by apply (prot_value_sr (C := C) c FLASH_PROTECT_NONE)|]. by split.
  - apply dec_stable in N. apply wp_ret. split; [done|]. split; [done|]. exists (dsr d). split; [by split_and!; [destruct d|..]|].
    split; [|done]. change (protect_none c) with (raw c FLASH_PROTECT_NONE). rewrite N, Ht. symmetry.
    apply protect_type_of_raw. by rewrite <-Ht, <-N.
Qed.

Lemma guarded_free c sr G : none_unprotects c → prot_value c sr = protect_none c →
  ∀ f x, guarded (C := C) sr G f x = G f x.
Proof. intros Hn Hv f x. unfold guarded. by rewrite Hn. Qed.

Lemma eff_F F G sr d d' : (∀ f x, F f x = G f x) → eff F sr d d' → eff G sr d d'.
Proof. intros E (K & M & S & I). split_and!; try done. intros x. by rewrite M, E. Qed.

Lemma write_in_range c a n : fits (C := C) c → 0 ≤ a < flash_size c → 0 ≤ n → a + n ≤ flash_size c →
  write_refused c a n = false.
Proof.
  intros F Ha Hn Hs. unfold write_refused. cbv zeta. pose proof (Z.mod_pos_bound a 32 ltac:(lia)).
  pose proof (fit_size (C := C) c F). pose proof (dev_size_max (C := C)).
  assert (a mod 32 ≤ a) by (apply Z.mod_le; lia).
  rewrite u32_small by lia. by zif.
Qed.

Lemma port_write_ok c addr buf d : fits c → none_unprotects c → inv c d → all_bytes buf →
  0 ≤ addr < flash_size c → addr + Z.of_nat (length buf) ≤ flash_size c → Z.of_nat (length buf) mod 4 = 0 →
  wp (ef_port_write addr buf) d (λ r d', r = EfEnv.EF_NO_ERR ∧ inv c d' ∧
    eff (EfEnv.program addr buf) (restored c (dsr d)) d d').
Proof.
  intros F Hn I Hb Ha Hs H4. unfold ef_port_write. rewrite H4. apply wp_bind, wp_ret, wp_bind.
  eapply wp_mono; [by apply (get_protect_type_ok c); [|left]|]. intros t d1 (Ht & I1 & E1).
  pose proof E1 as (_ & _ & S1 & _). apply wp_bind. eapply wp_mono; [apply (unprotect_ok c); [done|by left|by rewrite S1]|].
  intros _ d2 (_ & I2 & sr & E2 & V & Rs & _). specialize (I2 I1). pose proof E2 as (_ & _ & S2 & _).
  pose proof (fit_size c F). apply wp_bind. eapply wp_mono; [apply (write_ok c); [done|by left|lia|done|lia]|].
  rewrite (write_in_range c) by (done || lia). rewrite (proj2 (Z.leb_gt (flash_size c) addr)) by lia.
  intros r d3 (_ & I3 & E3). rewrite S2 in E3. eapply eff_F in E3; [|by apply (guarded_free c)].
  pose proof E3 as (_ & _ & S3 & _). apply wp_bind. eapply wp_mono; [by apply (set_protect_type_ok c); [|left]|].
  intros r' d4 (_ & I4 & E4). apply wp_ret. split_and!; [done|done|]. rewrite S3, Rs, S1 in E4.
  eapply (eff_trans _ (λ f, f)); [done| |exact E4]. eapply (eff_trans (λ f, f)); [|eapply (eff_trans (λ f, f) (λ f, f)); [done|exact E1|exact E2]|exact E3].
  intros f g Hfg x. by apply program_ext.
Qed.

Lemma sector_mask_id a : 0 ≤ a < 2 ^ 24 → a mod 4096 = 0 → Z.land a 0xFFF000 = a.
Proof.
  intros Ha Hm. replace a with (Z.shiftl (a / 4096) 12) at 1 by (rewrite Z.shiftl_mul_pow2 by lia; pose proof (Z.div_mod a 4096); lia).
  change 0xFFF000 with (Z.shiftl (Z.ones 12) 12). rewrite <-Z.shiftl_land, Z.land_ones by lia.
  rewrite Z.mod_small by (split; [apply Z.div_pos; lia|apply Z.div_lt_upper_bound; lia]).
  rewrite Z.shiftl_mul_pow2 by lia. pose proof (Z.div_mod a 4096). lia.
Qed.

Lemma spec_erase_ext fuel addr size f g : (∀ x, f x = g x) →
  ∀ x, EfEnv.erase_loop fuel addr size f x = EfEnv.erase_loop fuel addr size g x.
Proof.
  revert addr size f g. induction fuel as [|fuel IH]; intros addr size f g E x; cbn [EfEnv.erase_loop]; [done|].
  set (size' := if size <? 4096 then 0 else size - 4096).
  destruct (size' =? 0); [by apply erase_sector_ext|]. apply IH. intros y. by apply erase_sector_ext.
Qed.

Lemma erase_loop_ok c fuel addr size d : fits c → none_unprotects c → inv c d → prot_value c (dsr d) = protect_none c →
  0 ≤ addr < flash_size c → addr mod 4096 = 0 → 0 ≤ size → addr + size ≤ flash_size c → size < 4096 * Z.of_nat fuel →
  wp (erase_loop fuel addr size) d (λ _ d', inv c d' ∧ eff (EfEnv.erase_loop fuel addr size) (dsr d) d d').
Proof.
  intros F Hn. revert addr size d. pose proof (fit_size c F). pose proof (dev_size_max (C := C)).
  induction fuel as [|fuel IH]; intros addr size d I V Ha Hm Hs Hr Hf; [lia|]. cbn [erase_loop EfEnv.erase_loop].
  apply wp_bind. eapply wp_mono; [apply (erase_ok c); [done|by left|lia]|]. cbv zeta.
  unfold FLASH_ERASE_SECTOR_MASK. rewrite sector_mask_id by lia. rewrite (proj2 (Z.leb_gt (flash_size c) addr)) by lia.
  intros r d1 (_ & I1 & E1). eapply eff_F in E1; [|by apply (guarded_free c)]. pose proof E1 as (_ & _ & S1 & _).
  set (size' := if size <? 4096 then 0 else size - 4096). destruct (Z.eqb_spec size' 0) as [Z0|Z0]; [by apply wp_ret|].
  assert (4096 < size ∧ size' = size - 4096) as [Hl ->].
  { unfold size' in *. destruct (Z.ltb_spec size 4096); lia. }
  rewrite u32_small by lia. eapply wp_mono; [apply IH; try done; try lia; [by rewrite S1|]|].
  - rewrite Zplus_mod, Hm. done.
  - intros _ d2 [I2 E2]. split; [done|]. rewrite S1 in E2.
    eapply (eff_trans (EfEnv.erase_sector addr)); [apply spec_erase_ext|exact E1|exact E2].
Qed.

Lemma port_erase_ok c addr size d : fits c → none_unprotects c → inv c d →
  0 ≤ addr < flash_size c → addr mod 4096 = 0 → 0 ≤ size → addr + size ≤ flash_size c →
  wp (ef_port_erase addr size) d (λ r d', r = EfEnv.EF_NO_ERR ∧ inv c d' ∧
    eff (EfEnv.bk_erase addr size) (restored c (dsr d)) d d').
Proof.
  intros F Hn I Ha Hm Hs Hr. pose proof (fit_size c F). pose proof (dev_size_max (C := C)).
  unfold ef_port_erase, EfEnv.EF_ERASE_MIN_SIZE. rewrite Hm. apply wp_bind, wp_ret, wp_bind.
  unfold bk_erase, EfEnv.bk_erase. rewrite sector_mask_id by lia. apply wp_bind.
  eapply wp_mono; [by apply (get_protect_type_ok c); [|left]|]. intros t d1 (Ht & I1 & E1).
  pose proof E1 as (_ & _ & S1 & _). apply wp_bind. eapply wp_mono; [apply (unprotect_ok c); [done|by left|by rewrite S1]|].
  intros _ d2 (_ & I2 & sr & E2 & V & Rs & Same). specialize (I2 I1). pose proof E2 as (_ & _ & S2 & _).
  apply wp_bind. eapply wp_mono; [apply (erase_loop_ok c); try done; [by rewrite S2|]|].
  { pose proof (Z.div_mod size 4096 ltac:(lia)). pose proof (Z.mod_pos_bound size 4096 ltac:(lia)).
    pose proof (Z.div_pos size 4096 ltac:(lia) ltac:(lia)). lia. }
  intros _ d3 [I3 E3]. rewrite S2 in E3. pose proof E3 as (_ & _ & S3 & _).
  assert (E13 : eff (EfEnv.erase_loop (S (Z.to_nat (size / 4096))) addr size) sr d d3).
  { eapply (eff_trans (λ f, f)); [apply spec_erase_ext| |exact E3]. by eapply (eff_trans (λ f, f) (λ f, f)). }
  rewrite S1 in Rs, Same. apply wp_bind. destruct (decide (FLASH_PROTECT_NONE ≠ t)) as [N|N].
  - apply wp_bind. eapply wp_mono; [by apply (set_protect_type_ok c); [|left]|]. intros r' d4 (_ & I4 & E4).
    do 3 apply wp_ret. split_and!; [done|done|]. rewrite S3, Rs in E4. by eapply (eff_trans _ (λ f, f)).
  - apply dec_stable in N. do 3 apply wp_ret. split_and!; [done|done|]. rewrite <-Rs.
    rewrite <-N, (Same N), (prot_sr_id (C := C)); [|done|by rewrite <-(Same N)]. by rewrite <-(Same N).
Qed.

Lemma port_read_ok c addr size d : fits c → inv c d → 0 ≤ addr < flash_size c → 0 ≤ size → addr + size ≤ flash_size c →
  size mod 4 = 0 →
  wp (ef_port_read addr size) d (λ r d', r = EfEnv.read_flash (dmem d) addr (Z.to_nat size) ∧ inv c d' ∧ eff (λ f, f) (dsr d) d d').
Proof.
  intros F I Ha Hs Hr H4. pose proof (fit_size c F). unfold ef_port_read. rewrite H4. apply wp_bind, wp_ret, wp_bind.
  eapply wp_mono; [apply (read_ok c); try done; lia|]. rewrite (proj2 (Z.leb_gt (flash_size c) addr)) by lia.
  intros r d1 (-> & I1 & E1). by apply wp_ret.
Qed.

(** A write that the driver refuses because the chip is too small. *)
Lemma port_write_refused c addr buf d : fits c → inv c d → all_bytes buf →
  0 ≤ addr → flash_size c ≤ addr → addr + Z.of_nat (length buf) ≤ dev_size → Z.of_nat (length buf) mod 4 = 0 →
  wp (ef_port_write addr buf) d (λ r d', r = EfEnv.EF_NO_ERR ∧ inv c d' ∧ eff (λ f, f) (restored c (dsr d)) d d').
Proof.
  intros F I Hb Ha Hs Hr H4. unfold ef_port_write. rewrite H4. apply wp_bind, wp_ret, wp_bind.
  eapply wp_mono; [by apply (get_protect_type_ok c); [|left]|]. intros t d1 (Ht & I1 & E1).
  pose proof E1 as (_ & _ & S1 & _). apply wp_bind. eapply wp_mono; [apply (unprotect_ok c); [done|by left|by rewrite S1]|].
  intros _ d2 (_ & I2 & sr & E2 & V & Rs & _). specialize (I2 I1). pose proof E2 as (_ & _ & S2 & _).
  apply wp_bind. eapply wp_mono; [apply (write_ok c); [done|by left|lia|done|lia]|].
  rewrite (proj2 (Z.leb_le (flash_size c) addr)) by lia. intros r d3 (_ & A3 & E3). rewrite S2 in E3.
  pose proof E3 as (_ & _ & S3 & _). apply wp_bind. eapply wp_mono; [by apply (set_protect_type_ok c); [|right]|].
  intros r' d4 (_ & I4 & E4). apply wp_ret. split_and!; [done|done|]. rewrite S3, Rs, S1 in E4.
  eapply (eff_trans (λ f, f) (λ f, f)); [done| |exact E4].
  eapply (eff_trans (λ f, f) (λ f, f)); [done|eapply (eff_trans (λ f, f) (λ f, f)); [done|exact E1|exact E2]|exact E3].
Qed.

(** Sequences of port calls, on the byte array and on the driver. *)
Inductive port_op := PRead (addr size : Z) | PErase (addr size : Z) | PWrite (addr : Z) (buf : list Z).
Inductive port_res := RBytes (l : list Z) | RCode (e : EfEnv.EfErrCode).

Definition spec_op (o : port_op) : M EfEnv.st port_res :=
  match o with
  | PRead a n => let* l := EfEnv.ef_port_read a n in ret (RBytes l)
  | PErase a n => let* e := EfEnv.ef_port_erase a n in ret (RCode e)
  | PWrite a l => let* e := EfEnv.ef_port_write a l in ret (RCode e)
  end.
Definition drv_op (o : port_op) : M (drv C) port_res :=
  match o with
  | PRead a n => let* l := ef_port_read a n in ret (RBytes l)
  | PErase a n => let* e := ef_port_erase a n in ret (RCode e)
  | PWrite a l => let* e := ef_port_write a l in ret (RCode e)
  end.
Fixpoint run_ops {S} (f : port_op → M S port_res) (ops : list port_op) : M S (list port_res) :=
  match ops with
  | [] => ret []
  | o :: ops' => let* r := f o in let* rs := run_ops f ops' in ret (r :: rs)
  end.

Definition op_in_range (c : flash_config_t) (o : port_op) : Prop :=
  match o with
  | PRead a n => 0 ≤ a < flash_size c ∧ 0 ≤ n ∧ a + n ≤ flash_size c ∧ n mod 4 = 0
  | PErase a n => 0 ≤ a < flash_size c ∧ 0 ≤ n ∧ a + n ≤ flash_size c ∧ a mod 4096 = 0
  | PWrite a l => 0 ≤ a < flash_size c ∧ a + Z.of_nat (length l) ≤ flash_size c ∧
                  Z.of_nat (length l) mod 4 = 0 ∧ all_bytes l
  end.

(** Same content; the driver is in its own mode. *)
Definition port_sim (c : flash_config_t) (s : EfEnv.st) d : Prop :=
  inv c d ∧ ∀ x, EfEnv.flash s x = dmem d x.

Lemma sim_step c F G sr s d d' : port_sim c s d → inv c d' → eff F sr d d' →
  (∀ f g, (∀ x, f x = g x) → ∀ x, F f x = F g x) → (∀ x, G x = F (EfEnv.flash s) x) →
  port_sim c (EfEnv.set_flash G s) d'.
Proof.
  intros [I M] I' (_ & M' & _) HF HG. split; [done|]. intros x. rewrite M'. cbn [EfEnv.flash EfEnv.set_flash]. rewrite HG. by apply HF.
Qed.

Lemma port_op_sim c o s d : fits c → none_unprotects c → port_sim c s d → op_in_range c o →
  ∃ r s' d', spec_op o s = Done (r, s') ∧ drv_op o d = Done (r, d') ∧ port_sim c s' d' ∧ kept d d' ∧
    (dsr d' = dsr d ∨ dsr d' = restored c (dsr d)).
Proof.
  intros F Hn [I M]. destruct o as [a n|a n|a l]; cbn [op_in_range].
  - intros (Ha & Hs & Hr & H4).
    destruct (wp_inv _ _ _ (port_read_ok c a n d F I Ha Hs Hr H4)) as (r & d' & E & -> & I' & K & M' & S & _).
    do 2 eexists. exists d'. split; [|split; [unfold drv_op; rewrite (bind_done _ _ _ _ _ E); reflexivity|]].
    + unfold spec_op, EfEnv.ef_port_read, EfEnv.EF_ASSERT. rewrite H4. cbn [Z.eqb].
      rewrite (EfEnv.read_flash_ext (dmem d) (EfEnv.flash s) a) by (intros x _; by rewrite M). reflexivity.
    + split_and!; [split; [done|]|done|by left]. intros x. by rewrite M'.
  - intros (Ha & Hs & Hr & H4).
    destruct (wp_inv _ _ _ (port_erase_ok c a n d F Hn I Ha H4 Hs Hr)) as (r & d' & E & -> & I' & Ef).
    do 2 eexists. exists d'. split; [|split; [unfold drv_op; rewrite (bind_done _ _ _ _ _ E); reflexivity|]].
    + unfold spec_op, EfEnv.ef_port_erase, EfEnv.EF_ASSERT, EfEnv.EF_ERASE_MIN_SIZE. rewrite H4. reflexivity.
    + split_and!; [|by destruct Ef|right; by destruct Ef as (_ & _ & ? & _)].
      eapply sim_step; [split; [exact I|exact M]|exact I'|exact Ef|apply spec_erase_ext|done].
  - intros (Ha & Hr & H4 & Hb).
    destruct (wp_inv _ _ _ (port_write_ok c a l d F Hn I Hb Ha Hr H4)) as (r & d' & E & -> & I' & Ef).
    do 2 eexists. exists d'. split; [|split; [unfold drv_op; rewrite (bind_done _ _ _ _ _ E); reflexivity|]].
    + unfold spec_op, EfEnv.ef_port_write, EfEnv.EF_ASSERT. rewrite H4. reflexivity.
    + split_and!; [|by destruct Ef|right; by destruct Ef as (_ & _ & ? & _)].
      eapply sim_step; [split; [exact I|exact M]|exact I'|exact Ef| |done].
      intros f g Hfg x. by apply program_ext.
Qed.

Lemma restored_known c sr : protect_type_of c (prot_value c sr) ≠ FLASH_PROTECT_UNKNOWN → restored c sr = sr.
Proof. unfold restored. by destruct (protect_type_of _ _). Qed.
End PortOk.

(** ** Theorems *)
Section Theorems.
Context {C : Type} `{FlashLaws C}.
Implicit Types (d : drv C).

(** C12: the flash port over the driver implements the byte-array flash of the
    environment.  Any sequence of in-range reads, erases and writes returns on the
    driver, gives the results the byte array gives, and leaves the same content;
    the driver ends in its own mode with nothing but hardware and power-save
    record changed, and a known protection type is back in the status register. *)
Theorem flash_port_refines c ops s d :
  config_fits (C := C) c = true → none_unprotects (C := C) c → port_sim c s d → Forall (op_in_range c) ops →
  ∃ rs s' d', run_ops spec_op ops s = Done (rs, s') ∧ run_ops drv_op ops d = Done (rs, d') ∧
    port_sim c s' d' ∧ kept d d' ∧
    (protect_type_of c (prot_value c (dsr d)) ≠ FLASH_PROTECT_UNKNOWN → dsr d' = dsr d).
Proof.
  intros F%config_fits_spec Hn Sim Hr. revert s d Sim. induction Hr as [|o ops Ho Hr IH]; intros s d Sim.
  - exists [], s, d. split_and!; try done. by destruct d.
  - destruct (port_op_sim c o s d F Hn Sim Ho) as (r & s1 & d1 & E1 & E2 & Sim1 & K1 & S1).
    destruct (IH s1 d1 Sim1) as (rs & s' & d' & E3 & E4 & Sim' & K2 & S2). exists (r :: rs), s', d'. cbn [run_ops].
    rewrite (bind_done _ _ _ _ _ E1), (bind_done _ _ _ _ _ E2), (bind_done _ _ _ _ _ E3), (bind_done _ _ _ _ _ E4).
    split_and!; try done; [by eapply kept_trans|]. intros Kn.
    assert (S1' : dsr d1 = dsr d) by (destruct S1 as [?|S1]; [done|]; by rewrite S1, restored_known).
    rewrite <-S1'. apply S2. by rewrite S1'.
Qed.

(** What a read returns. *)
Definition read_result (c : flash_config_t) (address : Z) (n : nat) d : Z * list Z :=
  if flash_size c <=? address then (BK_ERR_FLASH_ADDR_OUT_OF_RANGE, [])
  else (BK_OK, EfEnv.read_flash (dmem d) address n).

(** what the three transfer calls of the driver do, on every branch.  A read
    returns exactly the bytes of the range; a write programs exactly its range
    (any alignment, protected bytes keep their value) and an erase exactly the
    sector.  Outside the chip read and the two others report an error; write and
    erase have then left the controller suspended; a range that only ends outside
    is refused inside the write, which still reports success. *)
Theorem flash_transfer_ok c address buf d :
  config_fits (C := C) c = true → inv c d → 0 ≤ address → all_bytes buf →
  address + Z.of_nat (length buf) ≤ dev_size (C := C) →
  let n := Z.of_nat (length buf) in let e := Z.land address FLASH_ERASE_SECTOR_MASK in
  (∃ d', bk_flash_read_bytes address n d = Done (read_result c address (length buf) d, d') ∧
     inv c d' ∧ eff (λ f, f) (dsr d) d d') ∧
  (∃ r d', bk_flash_write_bytes address buf n d = Done (r, d') ∧
     if flash_size c <=? address
     then r = BK_ERR_FLASH_ADDR_OUT_OF_RANGE ∧ asleep c d' ∧ eff (λ f, f) (dsr d) d d'
     else r = BK_OK ∧ inv c d' ∧
       eff (if write_refused c address n then λ f, f else guarded (dsr d) (EfEnv.program address buf)) (dsr d) d d') ∧
  (∃ r d', bk_flash_erase_sector address d = Done (r, d') ∧
     if flash_size c <=? e
     then r = BK_ERR_FLASH_ADDR_OUT_OF_RANGE ∧ asleep c d' ∧ eff (λ f, f) (dsr d) d d'
     else r = BK_OK ∧ inv c d' ∧ eff (guarded (dsr d) (EfEnv.erase_sector e)) (dsr d) d d').
Proof.
  intros F%config_fits_spec I Ha Hb Hs n e. split_and!.
  - destruct (wp_inv _ _ _ (read_ok c address n d F I Ha ltac:(lia) Hs)) as (r & d' & E & W). exists d'.
    unfold read_result. destruct (flash_size c <=? address).
    + destruct W as [-> ->]. split_and!; try done. split_and!; try done. by destruct d.
    + unfold n in W. rewrite Nat2Z.id in W. destruct W as (-> & I' & E'). done.
  - apply wp_inv, write_ok; [done|by left|done..].
  - apply wp_inv, erase_ok; [done|by left|done].
Qed.

(** The bits of the status register that a protection type consists of. *)
Definition prot_bit (c : flash_config_t) (i : Z) : bool :=
  (i =? cmp_post c) || (protect_post c <=? i) && (i <? protect_post c + prot_width c).

(** setting a protection type and reading it back gives a type with the same
    configured value.  Only the protection and complement bits of the status
    register change, on chips with one-byte registers, two-byte registers, and
    registers written one byte at a time alike. *)
Theorem flash_protect_roundtrip c t d : config_fits (C := C) c = true → inited c d →
  ∃ d1 t' d2, bk_flash_set_protect_type t d = Done (BK_OK, d1) ∧ bk_flash_get_protect_type d1 = Done (t', d2) ∧
    raw c t' = raw c t ∧ t' ≠ FLASH_PROTECT_UNKNOWN ∧ inv c d2 ∧ kept d d2 ∧ (∀ x, dmem d2 x = dmem d x) ∧
    (∀ i, 0 ≤ i → prot_bit c i = false → Z.testbit (dsr d2) i = Z.testbit (dsr d) i).
Proof.
  intros F%config_fits_spec I.
  destruct (wp_inv _ _ _ (set_protect_type_ok c t d F I)) as (r & d1 & E1 & -> & I1 & K1 & M1 & S1 & _).
  destruct (wp_inv _ _ _ (get_protect_type_ok c d1 F (or_introl I1))) as (t' & d2 & E2 & -> & I2 & K2 & M2 & S2 & _).
  exists d1. do 2 eexists. split; [exact E1|]. split; [exact E2|]. rewrite S1, (prot_value_sr (C := C)) by done.
  pose proof (protect_type_of_type c t). split; [by apply protect_type_of_raw|].
  split_and!; try done; [by eapply kept_trans|intros x; by rewrite M2, M1|].
  intros i Hi N. rewrite S2, S1. unfold prot_sr. pose proof (prot_width_nonneg c). destruct F.
  unfold prot_bit in N. apply orb_false_iff in N as [N1 N2]. zb. rewrite !set_field_spec, N2 by lia.
  destruct (Z.leb_spec (cmp_post c) i), (Z.ltb_spec i (cmp_post c + 1)); cbn [andb]; try done; lia.
Qed.

Lemma init_sr_value c sr : fits (C := C) c → prot_value c (init_sr c sr) = unprotect_last_block c.
Proof.
  intros F. pose proof (fit_quad c F) as Fq. unfold init_sr, quad_fits in *. cbv zeta.
  pose proof (prot_value_sr (C := C) c FLASH_UNPROTECT_LAST_BLOCK sr F) as E.
  destruct (line_mode c) eqn:L; [done|]. zb.
  match goal with H : _ || _ = true |- _ => apply orb_true_iff in H end.
  pose proof (prot_width_nonneg c). destruct F. rewrite lor_BIT by lia.
  change (unprotect_last_block c) with (raw c FLASH_UNPROTECT_LAST_BLOCK). rewrite <-E. unfold prot_value.
  rewrite !field_set_other by lia. done.
Qed.

(** initialisation finds the table entry of the chip's id, leaves the content
    of the flash alone, unprotects the last block, puts the controller in the
    entry's line mode (enabling quad mode in the chip when needed), selects the
    fast clock, and is idempotent. *)
Theorem flash_driver_init_ok d : let c := config_of (dev_id (dev (hw d))) in
  s_flash_is_init d = false → s_hold_low_speed_status d = 0 → ready (hw d) → config_fits (C := C) c = true →
  ∃ d', bk_flash_driver_init 0 d = Done (BK_OK, d') ∧ inv c d' ∧ (∀ x, dmem d' x = dmem d x) ∧
    prot_value c (dsr d') = unprotect_last_block c ∧ flash_id d' = dev_id (dev (hw d)) ∧
    s_hold_low_speed_status d' = 0 ∧ cksel_flash d' = FLASH_CLK_DPLL ∧
    (∀ r, bk_flash_driver_init r d' = Done (BK_OK, d')).
Proof.
  intros c Hi Hz R F%config_fits_spec.
  destruct (wp_inv _ _ _ (driver_init_ok d Hi Hz R F)) as (r & d' & E & -> & Hi' & I & Id & M & S & Hh & Hc & _).
  exists d'. split_and!; try done.
  - rewrite S. by apply init_sr_value.
  - intros r. unfold bk_flash_driver_init. erewrite bind_done by reflexivity. by rewrite Hi'.
Qed.

(** the clock arbiter.  After any sequence of speed requests the flash runs
    from the crystal exactly when some module asked for low speed and has not
    released it since, and from the fast clock otherwise. *)
Theorem flash_clock_arbiter rs d : s_hold_low_speed_status d = 0 → cksel_flash d = FLASH_CLK_DPLL →
  Forall (λ r, 0 ≤ r.2) rs →
  ∃ d', clk_requests rs d = Done (tt, d') ∧
    (cksel_flash d' = FLASH_CLK_XTAL ↔ ∃ i, 0 ≤ i ∧ holds_low i rs false = true) ∧
    (cksel_flash d' = FLASH_CLK_DPLL ↔ ∀ i, 0 ≤ i → holds_low i rs false = false) ∧ dmem d' = dmem d.
Proof.
  intros Hz Hs Hr. assert (O : clock_ok d) by (split; rewrite Hz; done).
  destruct (clk_requests_ok rs d O Hr) as (d' & E & [P' O'] & B & K).
  assert (B' : ∀ i, 0 ≤ i → Z.testbit (s_hold_low_speed_status d') i = holds_low i rs false).
  { intros i Hi. rewrite B by done. by rewrite Hz, Z.testbit_0_l. }
  exists d'. split; [done|]. rewrite O'. rewrite K at 3.
  destruct (Z.eqb_spec (s_hold_low_speed_status d') 0) as [Z0|N].
  - assert (A : ∀ i, 0 ≤ i → holds_low i rs false = false) by (intros i Hi; by rewrite <-B', Z0, Z.testbit_0_l).
    split_and!; try done. split; [done|]. intros (i & Hi & T). by rewrite A in T.
  - assert (Ex : ∃ i, 0 ≤ i ∧ holds_low i rs false = true).
    { exists (Z.log2 (s_hold_low_speed_status d')). split; [apply Z.log2_nonneg|].
      rewrite <-B' by apply Z.log2_nonneg. apply Z.bit_log2. lia. }
    split_and!; try done. split; [done|]. destruct Ex as (i & Hi & T). intros A. by rewrite A in T.
Qed.

(** the port reports success for a write the driver refuses.  When the chip is
    smaller than the address of the environment, every save returns EF_NO_ERR and
    leaves the flash as it was. *)
Theorem ef_port_write_lost c addr buf d : config_fits (C := C) c = true → inv c d → all_bytes buf →
  flash_size c ≤ addr → addr + Z.of_nat (length buf) ≤ dev_size (C := C) → Z.of_nat (length buf) mod 4 = 0 →
  ∃ d', ef_port_write addr buf d = Done (EfEnv.EF_NO_ERR, d') ∧ ∀ x, dmem d' x = dmem d x.
Proof.
  intros F%config_fits_spec I Hb Hs Hr H4. pose proof (fit_size c F).
  destruct (wp_inv _ _ _ (port_write_refused c addr buf d F I Hb ltac:(lia) Hs Hr H4)) as (r & d' & E & -> & _ & _ & M & _).
  by exists d'.
Qed.
End Theorems.

(** ** Instances on the concrete chip *)
Definition ramp (x : Z) : Z := x mod 256.
Lemma ramp_byte x : byte (ramp x).
Proof. apply Z.mod_pos_bound. lia. Qed.
Definition c4M : flash_config_t := config_of 0x0B4016.
Definition c2M : flash_config_t := config_of 0x0B4015.
Definition ramp_st : EfEnv.st := EfEnv.mk_st [] 0 0 false false ramp.
Definition zeros (n : nat) : list Z := replicate n 0.

Lemma c4M_inv : inv c4M (nor_drv 0x0B4016 ramp) ∧ ∀ x, dmem (nor_drv 0x0B4016 ramp) x = ramp x.
Proof. apply nor_drv_inv; [apply ramp_byte|lia|by vm_compute]. Qed.
Lemma c2M_inv : inv c2M (nor_drv 0x0B4015 ramp) ∧ ∀ x, dmem (nor_drv 0x0B4015 ramp) x = ramp x.
Proof. apply nor_drv_inv; [apply ramp_byte|lia|by vm_compute]. Qed.
Lemma c4M_none : none_unprotects (C := NorChip) c4M.
Proof. intros sr x E. change (nor_prot sr x = false). unfold nor_prot. unfold prot_value in E. cbv zeta.
  change (prot_width c4M) with 5 in E. change (cmp_post c4M) with 14 in E. change (protect_post c4M) with 2 in E.
  rewrite E. done.
Qed.
Lemma c4M_sim : port_sim c4M ramp_st (nor_drv 0x0B4016 ramp).
Proof. destruct c4M_inv as [I M]. split; [exact I|]. intros x. symmetry. apply M. Qed.

(** The area of the environment lies inside a chip of four megabytes. *)
Definition env_script : list port_op :=
  [PErase EfEnv.EF_START_ADDR EfEnv.ENV_AREA_SIZE; PWrite (EfEnv.EF_START_ADDR + 20) (zeros 44);
   PRead (EfEnv.EF_START_ADDR + 16) 8].

Lemma flash_port_refines_witness :
  Forall (op_in_range c4M) env_script ∧
  ∃ rs s' d', run_ops spec_op env_script ramp_st = Done (rs, s') ∧
    run_ops drv_op env_script (nor_drv 0x0B4016 ramp) = Done (rs, d') ∧ port_sim c4M s' d' ∧ kept (nor_drv 0x0B4016 ramp) d' ∧
    (protect_type_of c4M (prot_value c4M (dsr (nor_drv 0x0B4016 ramp))) ≠ FLASH_PROTECT_UNKNOWN →
     dsr d' = dsr (nor_drv 0x0B4016 ramp)).
Proof.
  assert (R : Forall (op_in_range c4M) env_script).
  { apply Forall_cons; split; [by vm_compute|]. apply Forall_cons; split; [|apply Forall_cons; split; [by vm_compute|apply Forall_nil_2]].
    split; [by vm_compute|]. split; [by vm_compute|]. split; [by vm_compute|]. by apply (bool_decide_unpack _). }
  split; [exact R|]. exact (flash_port_refines c4M env_script ramp_st (nor_drv 0x0B4016 ramp) ltac:(by vm_compute) c4M_none c4M_sim R).
Defined.

(** On the driver, evaluated: the script reads erased bytes, then programmed ones. *)
Example env_script_result :
  match run_ops drv_op env_script (nor_drv 0x0B4016 ramp) with Done (rs, _) => Some rs | Trap _ => None end =
  Some [RCode EfEnv.EF_NO_ERR; RCode EfEnv.EF_NO_ERR; RBytes [255; 255; 255; 255; 0; 0; 0; 0]].
Proof. by vm_compute. Qed.

Lemma flash_transfer_ok_witness :
  ∃ r d', bk_flash_write_bytes 0x3F0010 (zeros 40) (Z.of_nat 40) (nor_drv 0x0B4016 ramp) = Done (r, d') ∧
    r = BK_OK ∧ inv c4M d' ∧
    eff (guarded (dsr (nor_drv 0x0B4016 ramp)) (EfEnv.program 0x3F0010 (zeros 40)))
      (dsr (nor_drv 0x0B4016 ramp)) (nor_drv 0x0B4016 ramp) d'.
Proof.
  destruct (flash_transfer_ok c4M 0x3F0010 (zeros 40) (nor_drv 0x0B4016 ramp) ltac:(by vm_compute) (proj1 c4M_inv)
    ltac:(lia) ltac:(by apply (bool_decide_unpack _)) ltac:(by vm_compute)) as (_ & W & _). exact W.
Defined.

Lemma flash_protect_roundtrip_witness :
  ∃ d1 t' d2, bk_flash_set_protect_type FLASH_PROTECT_HALF (nor_drv 0x0B4016 ramp) = Done (BK_OK, d1) ∧
    bk_flash_get_protect_type d1 = Done (t', d2) ∧ raw c4M t' = 0x0E.
Proof.
  destruct (flash_protect_roundtrip c4M FLASH_PROTECT_HALF (nor_drv 0x0B4016 ramp) ltac:(by vm_compute) (or_introl (proj1 c4M_inv)))
    as (d1 & t' & d2 & E1 & E2 & E3 & _).
  exists d1, t', d2. exact (conj E1 (conj E2 E3)).
Defined.

Lemma flash_driver_init_ok_witness :
  ∃ d', bk_flash_driver_init 0 (boot_drv 0x0B4016 ramp) = Done (BK_OK, d') ∧ prot_value c4M (dsr d') = 0x101.
Proof.
  destruct (flash_driver_init_ok (boot_drv 0x0B4016 ramp) eq_refl eq_refl (nor_hw_ready 0x0B4016 ramp ramp_byte ltac:(lia))
    ltac:(by vm_compute)) as (d' & E & _ & _ & V & _).
  exists d'. exact (conj E V).
Defined.

Lemma flash_clock_arbiter_witness :
  ∃ d', clk_requests [(FLASH_SPEED_LOW, 1); (FLASH_SPEED_LOW, 2); (FLASH_SPEED_HIGH, 1)]
          (set_clock 0 FLASH_CLK_DPLL 3 (boot_drv 0x0B4016 ramp)) = Done (tt, d') ∧
    (cksel_flash d' = FLASH_CLK_XTAL ↔ ∃ i, 0 ≤ i ∧
       holds_low i [(FLASH_SPEED_LOW, 1); (FLASH_SPEED_LOW, 2); (FLASH_SPEED_HIGH, 1)] false = true).
Proof.
  destruct (flash_clock_arbiter [(FLASH_SPEED_LOW, 1); (FLASH_SPEED_LOW, 2); (FLASH_SPEED_HIGH, 1)]
    (set_clock 0 FLASH_CLK_DPLL 3 (boot_drv 0x0B4016 ramp)) eq_refl eq_refl ltac:(repeat constructor; cbn; lia)) as (d' & E & X & _).
  exists d'. exact (conj E X).
Defined.

Lemma ef_port_write_lost_witness :
  ∃ d', ef_port_write EfEnv.EF_START_ADDR (zeros 8) (nor_drv 0x0B4015 ramp) = Done (EfEnv.EF_NO_ERR, d') ∧
    ∀ x, dmem d' x = dmem (nor_drv 0x0B4015 ramp) x.
Proof.
  exact (ef_port_write_lost c2M EfEnv.EF_START_ADDR (zeros 8) (nor_drv 0x0B4015 ramp) ltac:(by vm_compute) (proj1 c2M_inv)
    ltac:(by apply (bool_decide_unpack _)) ltac:(by vm_compute) ltac:(by vm_compute) ltac:(by vm_compute)).
Defined.

(** The range check takes the address of the first block: a write that starts
    inside a block passes it and programs bytes behind the end of the chip. *)
Example write_past_end :
  match (bk_flash_set_protect_type FLASH_PROTECT_NONE ;;; bk_flash_write_bytes (0x200000 - 16) (zeros 32) 32)
          (nor_drv 0x0B4015 (λ _, 255)) with
  | Done (r, d') => (r, dmem d' (0x200000 - 17), dmem d' 0x1FFFFF, dmem d' 0x20000F, dmem d' 0x200010)
  | Trap _ => (BK_FAIL, 0, 0, 0, 0)
  end = (BK_OK, 255, 0, 0, 255).
Proof. by vm_compute. Qed.

End FlashPort.
