(* ===== verification/FlashClients.v ===== *)
(** * Users of the flash driver: partitions and the IoT flash interface

    middleware/driver/flash/flash_partition.c with the partition table of
    middleware/boards/bk7235/vnd_flash/vnd_flash.c, and
    src/bk7235/hals/iot_hardware/wifiiot_lite/hal_iot_flash.c.  Both are thin layers
    of sector arithmetic over the driver; the theorems say which bytes each call
    touches, that partitions do not disturb each other, and where the layers do
    not do what their callers expect. *)
From S2P Require Import Prelude Bytes EfEnv FlashDriver FlashOps FlashPort.
Import FlashDriver FlashOps FlashPort.
Local Open Scope Z_scope.

Module FlashClients.

(** ** Partition table *)
Definition PAR_OPT_READ_EN : Z := 1.
Definition PAR_OPT_WRITE_DIS : Z := 0.
Record bk_logic_partition_t := mk_part {
  partition_start_addr : Z; partition_length : Z; partition_options : Z }.

(** The values of [bk_partition_t]. *)
Definition BK_PARTITION_BOOTLOADER : Z := 0.
Definition BK_PARTITION_APPLICATION : Z := 1.
Definition BK_PARTITION_OTA : Z := 2.
Definition BK_PARTITION_APPLICATION1 : Z := 3.
Definition BK_PARTITION_MATTER_FLASH : Z := 4.
Definition BK_PARTITION_RF_FIRMWARE : Z := 5.
Definition BK_PARTITION_NET_PARAM : Z := 6.
Definition BK_PARTITION_USR_CONFIG : Z := 7.
Definition BK_PARTITION_MAX : Z := 8.

(** In order of [bk_partition_t]; without Matter support its entry is all zero. *)
Definition bk7256_partitions : list bk_logic_partition_t :=
  let opts := Z.lor PAR_OPT_READ_EN PAR_OPT_WRITE_DIS in
  [ mk_part 0x00000000 0x11000 opts; mk_part 0x11000 0x1CB000 opts; mk_part 0x253000 0x187000 opts;
    mk_part 0x1DC000 0x77000 opts; mk_part 0 0 0; mk_part 0x3FE000 0x1000 opts;
    mk_part 0x3FF000 0x1000 opts; mk_part 0x3DA000 0x24000 opts ].

Definition flash_partition_is_valid (partition : Z) : bool :=
  (BK_PARTITION_BOOTLOADER <=? partition) && (partition <? BK_PARTITION_MAX).
Definition bk_flash_partition_get_info (partition : Z) : option bk_logic_partition_t :=
  if flash_partition_is_valid partition then bk7256_partitions !! Z.to_nat partition else None.

Definition BK_ERR_FLASH_PARTITION_NOT_FOUND : Z := -0x3700 - 3.

Section Clients.
Context {C : Type} `{FlashDevice C}.

(** [for (i = start_sector; i <= end_sector; i++)] with the sector's address
    [base + (i << 12)]; [fuel] bounds the tests. *)
Fixpoint erase_sectors (fuel : nat) (base i end_sector : Z) : M (drv C) unit :=
  match fuel with
  | O => trapM Hang
  | S fuel' =>
      if i <=? end_sector then
        bk_flash_erase_sector (u32 (base + u32 (Z.shiftl i 12))) ;;;
        erase_sectors fuel' base (i + 1) end_sector
      else ret tt
  end.
Definition sector_fuel (start_sector end_sector : Z) : nat := S (Z.to_nat (end_sector + 1 - start_sector)).

(** ** flash_partition.c; a NULL buffer is [None] *)
Definition bk_flash_partition_erase (partition offset size : Z) : M (drv C) Z :=
  let start_sector := Z.shiftr offset 12 in
  let end_sector := Z.shiftr (u32 (offset + size - 1)) 12 in
  match bk_flash_partition_get_info partition with
  | None => if start_sector <=? end_sector then trapM Fault else ret BK_OK
  | Some info =>
      erase_sectors (sector_fuel start_sector end_sector) (partition_start_addr info) start_sector end_sector ;;;
      ret BK_OK
  end.

Definition bk_flash_partition_write (partition : Z) (buffer : option (list Z)) (offset buffer_len : Z) : M (drv C) Z :=
  match buffer with
  | None => ret BK_ERR_NULL_PARAM
  | Some bs =>
      match bk_flash_partition_get_info partition with
      | None => ret BK_ERR_FLASH_PARTITION_NOT_FOUND
      | Some info => bk_flash_write_bytes (u32 (partition_start_addr info + offset)) bs buffer_len ;;; ret BK_OK
      end
  end.

(** The second component is what was stored in the caller's buffer. *)
Definition bk_flash_partition_read (partition : Z) (has_buffer : bool) (offset buffer_len : Z) : M (drv C) (Z * list Z) :=
  if negb has_buffer then ret (BK_ERR_NULL_PARAM, [])
  else match bk_flash_partition_get_info partition with
       | None => ret (BK_ERR_FLASH_PARTITION_NOT_FOUND, [])
       | Some info =>
           let* r := bk_flash_read_bytes (u32 (partition_start_addr info + offset)) buffer_len in ret (BK_OK, r.2)
       end.

(** ** hal_iot_flash.c: the state adds the static [protect_flag]; the success code
    is the operating system's *)
Context (IOT_SUCCESS : Z).
Record iot := mk_iot { iot_drv : drv C; protect_flag : flash_protect_type_t }.
Definition on_drv {A} (m : M (drv C) A) : M iot A := λ s,
  match m (iot_drv s) with Done (a, d) => Done (a, mk_iot d (protect_flag s)) | Trap t => Trap t end.

Definition IoTFlashRead (flashOffset size : Z) : M iot (Z * list Z) :=
  let* r := on_drv (bk_flash_read_bytes flashOffset size) in ret (IOT_SUCCESS, r.2).

Definition IoTFlashWrite (flashOffset size : Z) (ramData : list Z) (doErase : Z) : M iot Z :=
  on_drv (bk_flash_write_bytes flashOffset ramData size) ;;; ret IOT_SUCCESS.

Definition IoTFlashErase (flashOffset size : Z) : M iot Z :=
  let start_sector := Z.shiftr flashOffset 12 in
  let end_sector := Z.shiftr (u32 (u32 (flashOffset + size) - 1)) 12 in
  on_drv (erase_sectors (sector_fuel start_sector end_sector) 0 start_sector end_sector) ;;; ret IOT_SUCCESS.

(** The call that would lift the protection stands behind the [return]. *)
Definition IoTFlashInit : M iot Z :=
  let* t := on_drv bk_flash_get_protect_type in
  modify (λ s, mk_iot (iot_drv s) t) ;;; ret IOT_SUCCESS.

Definition IoTFlashDeinit : M iot Z :=
  let* t := gets protect_flag in
  on_drv (bk_flash_set_protect_type t) ;;; ret IOT_SUCCESS.
End Clients.
Arguments iot : clear implicits.

(** ** Sectors *)
Definition fill_ff (a b : Z) (f : Z → Z) : Z → Z := λ x, if (a <=? x) && (x <? b) then 255 else f x.

Section Proofs.
Context {C : Type} `{FlashLaws C}.
Implicit Types (d : drv C).

Lemma fill_ff_ext sr a b f g : (∀ x, f x = g x) → ∀ x, guarded (C := C) sr (fill_ff a b) f x = guarded sr (fill_ff a b) g x.
Proof. intros E. apply guarded_ext; [|done]. intros f1 g1 x. unfold fill_ff. by intros ->. Qed.

Lemma erase_then_fill sr a b f x :
  a + 4096 ≤ b →
  guarded (C := C) sr (fill_ff (a + 4096) b) (guarded sr (EfEnv.erase_sector a) f) x = guarded sr (fill_ff a b) f x.
Proof.
  intros Hb. unfold guarded, fill_ff, EfEnv.erase_sector. destruct (dev_prot sr x); [done|].
  destruct (Z.leb_spec (a + 4096) x), (Z.ltb_spec x b), (Z.leb_spec a x), (Z.ltb_spec x (a + 4096)); cbn [andb]; try done; lia.
Qed.

Lemma erase_sectors_ok c fuel base i e d : fits c → inv c d → 0 ≤ base → base mod 4096 = 0 → 0 ≤ i ≤ e + 1 →
  base + (e + 1) * 4096 ≤ flash_size c → (Z.to_nat (e + 1 - i) < fuel)%nat →
  wp (erase_sectors fuel base i e) d (λ _ d', inv c d' ∧
    eff (guarded (dsr d) (fill_ff (base + i * 4096) (base + (e + 1) * 4096))) (dsr d) d d').
Proof.
  intros F. revert i d. pose proof (fit_size c F). pose proof (dev_size_max (C := C)).
  induction fuel as [|fuel IH]; intros i d I Hb Hm Hi Hs Hf; [lia|]. cbn [erase_sectors].
  destruct (Z.leb_spec i e).
  - assert (Ea : u32 (base + u32 (Z.shiftl i 12)) = base + i * 4096).
    { rewrite Z.shiftl_mul_pow2 by lia. change (2 ^ 12) with 4096. rewrite (u32_small (i * 4096)) by lia. apply u32_small. lia. }
    rewrite Ea. apply wp_bind. eapply wp_mono; [apply (erase_ok c); [done|by left|lia]|]. cbv zeta.
    unfold FLASH_ERASE_SECTOR_MASK. rewrite sector_mask_id; [|lia|by rewrite Z.mod_add].
    rewrite (proj2 (Z.leb_gt _ _)) by lia. intros r d1 (_ & I1 & E1). pose proof E1 as (_ & _ & S1 & _).
    eapply wp_mono; [apply IH; try done; lia|]. intros _ d2 [I2 E2]. rewrite S1 in E2. split; [done|].
    replace (base + (i + 1) * 4096) with (base + i * 4096 + 4096) in E2 by lia.
    eapply eff_F; [|eapply eff_trans; [apply fill_ff_ext|exact E1|exact E2]].
    intros f x. apply erase_then_fill. lia.
  - apply wp_ret. split; [done|]. split_and!; try done; [by destruct d|]. intros x.
    unfold guarded, fill_ff. destruct (Z.leb_spec (base + i * 4096) x), (Z.ltb_spec x (base + (e + 1) * 4096)); cbn [andb];
      try lia; by destruct (dev_prot _ x).
Qed.

(** First and last sector of a range. *)
Lemma sectors_of off n : 0 ≤ off → 0 < n → off + n ≤ 2 ^ 24 →
  let i := Z.shiftr off 12 in let e := Z.shiftr (u32 (off + n - 1)) 12 in
  i = off / 4096 ∧ e = (off + n - 1) / 4096 ∧ 0 ≤ i ≤ e + 1.
Proof.
  intros Ho Hn Hs i e. unfold i, e. rewrite u32_small, !Z.shiftr_div_pow2 by lia. change (2 ^ 12) with 4096.
  split_and!; try done; [apply Z.div_pos; lia|]. assert (off / 4096 ≤ (off + n - 1) / 4096) by (apply Z.div_le_mono; lia). lia.
Qed.

(** ** Facts of the partition table *)
Definition part_ok (i : bk_logic_partition_t) : bool :=
  (0 <=? partition_start_addr i) && (partition_start_addr i mod 4096 =? 0) && (partition_length i mod 4096 =? 0) &&
  (0 <=? partition_length i) && (partition_start_addr i + partition_length i <=? FLASH_SIZE_4M).
Definition apart (i j : bk_logic_partition_t) : bool :=
  (partition_start_addr i + partition_length i <=? partition_start_addr j) ||
  (partition_start_addr j + partition_length j <=? partition_start_addr i) ||
  (partition_length i =? 0) || (partition_length j =? 0).
Definition in_part (i : bk_logic_partition_t) (x : Z) : Prop :=
  partition_start_addr i ≤ x < partition_start_addr i + partition_length i.

Lemma get_info_lookup p i : bk_flash_partition_get_info p = Some i → 0 ≤ p ∧ bk7256_partitions !! Z.to_nat p = Some i.
Proof. unfold bk_flash_partition_get_info, flash_partition_is_valid. destruct (_ && _) eqn:E; [|done]. by zb. Qed.

Lemma get_info_ok p i : bk_flash_partition_get_info p = Some i → part_ok i = true.
Proof.
  intros [_ E]%get_info_lookup. apply list_elem_of_lookup_2, list_elem_of_In in E. revert i E.
  apply (proj1 (forallb_forall part_ok bk7256_partitions)). by vm_compute.
Qed.

Lemma parts_apart p q i j : bk_flash_partition_get_info p = Some i → bk_flash_partition_get_info q = Some j → p ≠ q →
  ∀ x, in_part i x → ¬ in_part j x.
Proof.
  intros [Hp Ei]%get_info_lookup [Hq Ej]%get_info_lookup N x Hi Hj.
  assert (A : apart i j = true).
  { assert (T : forallb (λ '(a, b), (a =? b)%nat || match bk7256_partitions !! a, bk7256_partitions !! b with
        | Some i, Some j => apart i j | _, _ => true end) (list_prod (seq 0 8) (seq 0 8)) = true) by (by vm_compute).
    rewrite forallb_forall in T. specialize (T (Z.to_nat p, Z.to_nat q)).
    pose proof (lookup_lt_Some _ _ _ Ei) as Lp. pose proof (lookup_lt_Some _ _ _ Ej) as Lq. cbn in Lp, Lq.
    cbv beta iota in T. rewrite Ei, Ej in T. apply orb_true_iff in T as [T|T]; [apply Nat.eqb_eq in T; lia|done|].
    apply in_prod; apply in_seq; lia. }
  unfold apart, in_part in *. rewrite !orb_true_iff in A. lia.
Qed.

Lemma guarded_open sr G f x : guarded (C := C) sr G f x = if negb (dev_prot sr x) then G f x else f x.
Proof. unfold guarded. by destruct (dev_prot sr x). Qed.
Lemma guarded_keeps sr (G : (Z → Z) → Z → Z) f x : G f x = f x → guarded (C := C) sr G f x = f x.
Proof. unfold guarded. by destruct (dev_prot sr x). Qed.

(** The bounds of a range inside a partition. *)
Lemma part_range c p i offset n : fits (C := C) c → flash_size c = FLASH_SIZE_4M →
  bk_flash_partition_get_info p = Some i → 0 ≤ offset → 0 < n → offset + n ≤ partition_length i →
  let a := partition_start_addr i + offset in
  0 ≤ partition_start_addr i ∧ partition_start_addr i mod 4096 = 0 ∧ partition_length i mod 4096 = 0 ∧
  u32 a = a ∧ 0 ≤ a < flash_size c ∧ a + n ≤ flash_size c ∧ partition_start_addr i + partition_length i ≤ flash_size c.
Proof.
  intros F E Hp Ho Hn Hl a. apply get_info_ok in Hp. unfold part_ok in Hp. zb.
  assert (Ha : 0 ≤ a < FLASH_SIZE_4M) by (unfold a; lia). unfold FLASH_SIZE_4M in *.
  rewrite E. split_and!; try lia. apply u32_small. lia.
Qed.

(** What only touches one partition leaves the others alone. *)
Lemma part_isolation p q i j (F : (Z → Z) → Z → Z) f : bk_flash_partition_get_info p = Some i → bk_flash_partition_get_info q = Some j → q ≠ p →
  (∀ x, ¬ in_part i x → F f x = f x) → ∀ x, in_part j x → F f x = f x.
Proof. intros Hp Hq N HF x Hx. apply HF. intros Hi. by eapply (parts_apart p q i j). Qed.

Lemma program_outside i a bs f x : partition_start_addr i ≤ a → a + Z.of_nat (length bs) ≤ partition_start_addr i + partition_length i →
  ¬ in_part i x → EfEnv.program a bs f x = f x.
Proof.
  unfold in_part, EfEnv.program. intros H1 H2 N.
  destruct (Z.leb_spec a x), (Z.ltb_spec x (a + Z.of_nat (length bs))); cbn [andb]; try done; lia.
Qed.

Lemma fill_outside i lo hi f x : partition_start_addr i ≤ lo → hi ≤ partition_start_addr i + partition_length i →
  ¬ in_part i x → fill_ff lo hi f x = f x.
Proof.
  unfold in_part, fill_ff. intros H1 H2 N. destruct (Z.leb_spec lo x), (Z.ltb_spec x hi); cbn [andb]; try done; lia.
Qed.

Lemma partition_read_ok c p i offset n d : fits c → flash_size c = FLASH_SIZE_4M → inv c d →
  bk_flash_partition_get_info p = Some i → 0 ≤ offset → 0 < n → offset + n ≤ partition_length i →
  wp (bk_flash_partition_read p true offset n) d (λ r d',
    r = (BK_OK, EfEnv.read_flash (dmem d) (partition_start_addr i + offset) (Z.to_nat n)) ∧ inv c d' ∧ eff (λ f, f) (dsr d) d d').
Proof.
  intros F E I Hp Ho Hn Hl. destruct (part_range c p i offset n F E Hp Ho Hn Hl) as (_ & _ & _ & Eu & Ha & Hr & _).
  unfold bk_flash_partition_read. cbn [negb]. rewrite Hp, Eu. apply wp_bind. pose proof (fit_size c F).
  eapply wp_mono; [apply (read_ok c); try done; lia|]. rewrite (proj2 (Z.leb_gt _ _)) by lia.
  intros r d' (-> & I' & E'). by apply wp_ret.
Qed.

Lemma partition_write_ok c p i offset bs d : fits c → flash_size c = FLASH_SIZE_4M → inv c d →
  bk_flash_partition_get_info p = Some i → 0 ≤ offset → bs ≠ [] → all_bytes bs →
  offset + Z.of_nat (length bs) ≤ partition_length i →
  wp (bk_flash_partition_write p (Some bs) offset (Z.of_nat (length bs))) d (λ r d', r = BK_OK ∧ inv c d' ∧
    eff (guarded (dsr d) (EfEnv.program (partition_start_addr i + offset) bs)) (dsr d) d d').
Proof.
  intros F E I Hp Ho Hn Hb Hl.
  assert (0 < Z.of_nat (length bs)) by (destruct bs; [done|cbn; lia]).
  destruct (part_range c p i offset (Z.of_nat (length bs)) F E Hp Ho ltac:(done) Hl) as (_ & _ & _ & Eu & Ha & Hr & _).
  unfold bk_flash_partition_write. rewrite Hp, Eu. apply wp_bind. pose proof (fit_size c F).
  eapply wp_mono; [apply (write_ok c); [done|by left|lia|done|lia]|]. rewrite (proj2 (Z.leb_gt _ _)) by lia.
  rewrite (write_in_range (C := C)) by (done || lia). intros r d' (_ & I' & E'). by apply wp_ret.
Qed.

(** Erasing the sectors that meet a range. *)
Lemma erase_range_ok c base off n d : fits c → inv c d → 0 ≤ base → base mod 4096 = 0 → 0 ≤ off → 0 < n →
  base + off + n ≤ flash_size c →
  let i := Z.shiftr off 12 in let e := Z.shiftr (u32 (off + n - 1)) 12 in
  wp (erase_sectors (sector_fuel i e) base i e) d (λ _ d', inv c d' ∧
    eff (guarded (dsr d) (fill_ff ((base + off) / 4096 * 4096) ((base + off + n - 1) / 4096 * 4096 + 4096))) (dsr d) d d').
Proof.
  intros F I Hb Hm Ho Hn Hs i e. pose proof (fit_size c F). pose proof (dev_size_max (C := C)). pose proof (fit_sectors c F).
  destruct (sectors_of off n Ho Hn ltac:(lia)) as (Ei & Ee & Hie). fold i e in Ei, Ee, Hie.
  assert (A : (base + off) / 4096 * 4096 = base + i * 4096) by (rewrite Ei; Z.to_euclidean_division_equations; lia).
  assert (B : (base + off + n - 1) / 4096 * 4096 + 4096 = base + (e + 1) * 4096)
    by (rewrite Ee; Z.to_euclidean_division_equations; lia).
  rewrite A, B. apply erase_sectors_ok; try done; [|unfold sector_fuel; lia].
  rewrite Ee. Z.to_euclidean_division_equations; lia.
Qed.

Lemma partition_erase_ok c p i offset n d : fits c → flash_size c = FLASH_SIZE_4M → inv c d →
  bk_flash_partition_get_info p = Some i → 0 ≤ offset → 0 < n → offset + n ≤ partition_length i →
  let a := partition_start_addr i + offset in
  wp (bk_flash_partition_erase p offset n) d (λ r d', r = BK_OK ∧ inv c d' ∧
    eff (guarded (dsr d) (fill_ff (a / 4096 * 4096) ((a + n - 1) / 4096 * 4096 + 4096))) (dsr d) d d').
Proof.
  intros F E I Hp Ho Hn Hl a. destruct (part_range c p i offset n F E Hp Ho Hn Hl) as (H1 & H2 & _ & _ & _ & Hr & _).
  unfold bk_flash_partition_erase. cbv zeta. rewrite Hp. apply wp_bind.
  eapply wp_mono; [by apply (erase_range_ok c)|]. intros _ d' [I' E']. by apply wp_ret.
Qed.
End Proofs.

(** ** Theorems *)
Section Theorems.
Context {C : Type} `{FlashLaws C}.
Implicit Types (d : drv C).

(** C35: partition calls inside a partition, on a 4M flash.  The table marks every
    partition as not writable; the calls do not look at that mark, only the block
    protection of the chip counts.  Reading returns the bytes at the partition's
    place.  Writing reports success and programs exactly the bytes of the range that
    are not protected; erasing clears exactly those of the sectors that meet the
    range; no byte of another partition changes.  So on a chip without protection
    both do all they were asked for, and on a protected range (after the driver's
    initialisation, all but the last block of the flash) they report BK_OK and
    change nothing. *)
Theorem partition_access_ok c p info offset bs d :
  config_fits (C := C) c = true → flash_size c = FLASH_SIZE_4M → inv c d →
  bk_flash_partition_get_info p = Some info → 0 ≤ offset → bs ≠ [] → all_bytes bs →
  offset + Z.of_nat (length bs) ≤ partition_length info →
  let n := Z.of_nat (length bs) in let a := partition_start_addr info + offset in
  let open x := negb (dev_prot (C := C) (dsr d) x) in
  (∃ d', bk_flash_partition_read p true offset n d = Done ((BK_OK, EfEnv.read_flash (dmem d) a (length bs)), d') ∧
     inv c d' ∧ ∀ x, dmem d' x = dmem d x) ∧
  (∃ d', bk_flash_partition_write p (Some bs) offset n d = Done (BK_OK, d') ∧ inv c d' ∧
     (∀ x, dmem d' x = if open x then EfEnv.program a bs (dmem d) x else dmem d x) ∧
     ∀ q j x, bk_flash_partition_get_info q = Some j → q ≠ p → in_part j x → dmem d' x = dmem d x) ∧
  (∃ d', bk_flash_partition_erase p offset n d = Done (BK_OK, d') ∧ inv c d' ∧
     (∀ x, dmem d' x = if open x then fill_ff (a / 4096 * 4096) ((a + n - 1) / 4096 * 4096 + 4096) (dmem d) x else dmem d x) ∧
     ∀ q j x, bk_flash_partition_get_info q = Some j → q ≠ p → in_part j x → dmem d' x = dmem d x).
Proof.
  intros F%config_fits_spec E I Hp Ho Hne Hb Hl n a open.
  assert (Hn0 : 0 < n) by (unfold n; destruct bs; [done|cbn; lia]).
  destruct (part_range c p info offset n F E Hp Ho Hn0 Hl) as (P1 & P2 & P3 & _).
  split_and!.
  - destruct (wp_inv _ _ _ (partition_read_ok c p info offset n d F E I Hp Ho Hn0 Hl)) as (r & d' & Ed & -> & I' & _ & M & _).
    exists d'. unfold n in Ed. by rewrite Nat2Z.id in Ed.
  - destruct (wp_inv _ _ _ (partition_write_ok c p info offset bs d F E I Hp Ho Hne Hb Hl)) as (r & d' & Ed & -> & I' & _ & M & _).
    exists d'. split_and!; [done|done|intros x; by rewrite M, guarded_open|]. intros q j x Hq N Hx. rewrite M.
    eapply (part_isolation p q info j (guarded (dsr d) (EfEnv.program a bs))); try done.
    intros y Hy. apply guarded_keeps, program_outside with info; unfold a; lia || done.
  - destruct (wp_inv _ _ _ (partition_erase_ok c p info offset n d F E I Hp Ho Hn0 Hl)) as (r & d' & Ed & -> & I' & _ & M & _).
    fold a in M. exists d'. split_and!; [done|done|intros x; by rewrite M, guarded_open|]. intros q j x Hq N Hx. rewrite M.
    eapply (part_isolation p q info j (guarded (dsr d) (fill_ff _ _))); try done.
    intros y Hy. apply guarded_keeps, fill_outside with info; unfold a; try done; Z.to_euclidean_division_equations; lia.
Qed.

Lemma wp_on_drv {A} (m : M (drv C) A) (s : iot C) (Q : A → iot C → Prop) :
  wp m (iot_drv s) (λ a d', Q a (mk_iot d' (protect_flag s))) → wp (on_drv m) s Q.
Proof. unfold wp, on_drv. by destruct (m (iot_drv s)) as [[a d']|]. Qed.

(** the IoT interface erases exactly the sectors that meet a non-empty range,
    where they are not protected, and reports success. *)
Theorem iot_flash_erase_ok ok c off n (s : iot C) :
  config_fits (C := C) c = true → inv c (iot_drv s) → 0 ≤ off → 0 < n → off + n ≤ flash_size c →
  let d := iot_drv s in
  ∃ d', IoTFlashErase ok off n s = Done (ok, mk_iot d' (protect_flag s)) ∧ inv c d' ∧ kept d d' ∧ dsr d' = dsr d ∧
    ∀ x, dmem d' x = guarded (dsr d) (fill_ff (off / 4096 * 4096) ((off + n - 1) / 4096 * 4096 + 4096)) (dmem d) x.
Proof.
  intros F%config_fits_spec I Ho Hn Hs d. pose proof (fit_size c F). pose proof (dev_size_max (C := C)).
  pose proof (erase_range_ok c 0 off n d F I ltac:(lia) eq_refl Ho Hn ltac:(lia)) as W. cbv zeta in W.
  destruct (wp_inv _ _ _ W) as ([] & d' & E & I' & K & M & S & _). exists d'.
  unfold IoTFlashErase. cbv zeta. rewrite (u32_small (off + n)) by lia.
  erewrite bind_done; [|unfold on_drv; fold d; rewrite E; reflexivity]. by split_and!.
Qed.

(** initialising the IoT interface does not lift the block protection.  A write
    to a protected range then reports success and changes nothing, with or
    without the request to erase first; de-initialising restores what was there. *)
Theorem iot_flash_init_protected ok c off bs erase (s : iot C) :
  config_fits (C := C) c = true → inv c (iot_drv s) → all_bytes bs → 0 ≤ off < flash_size c →
  off + Z.of_nat (length bs) ≤ flash_size c →
  (∀ x, off ≤ x < off + Z.of_nat (length bs) → dev_prot (C := C) (dsr (iot_drv s)) x = true) →
  ∃ s1 s2 s3, IoTFlashInit ok s = Done (ok, s1) ∧
    IoTFlashWrite ok off (Z.of_nat (length bs)) bs erase s1 = Done (ok, s2) ∧ IoTFlashDeinit ok s2 = Done (ok, s3) ∧
    (∀ x, dmem (iot_drv s3) x = dmem (iot_drv s) x) ∧ dsr (iot_drv s2) = dsr (iot_drv s) ∧
    dsr (iot_drv s3) = restored c (dsr (iot_drv s)).
Proof.
  intros F%config_fits_spec I Hb Ho Hs Hp. pose proof (fit_size c F).
  destruct (wp_inv _ _ _ (get_protect_type_ok c _ F (or_introl I))) as (t & d1 & E1 & Ht & I1 & _ & M1 & S1 & _).
  destruct (wp_inv _ _ _ (write_ok c off bs d1 F (or_introl I1) ltac:(lia) Hb ltac:(lia))) as (r & d2 & E2 & W).
  rewrite (proj2 (Z.leb_gt (flash_size c) off)), (write_in_range (C := C)) in W by (done || lia).
  destruct W as (_ & I2 & _ & M2 & S2 & _).
  destruct (wp_inv _ _ _ (set_protect_type_ok c t d2 F (or_introl I2))) as (r3 & d3 & E3 & -> & I3 & _ & M3 & S3 & _).
  exists (mk_iot d1 t), (mk_iot d2 t), (mk_iot d3 t). cbn [iot_drv]. split_and!.
  - unfold IoTFlashInit. erewrite bind_done; [|unfold on_drv; rewrite E1; reflexivity]. done.
  - unfold IoTFlashWrite. erewrite bind_done; [|unfold on_drv; cbn [iot_drv]; rewrite E2; reflexivity]. done.
  - unfold IoTFlashDeinit. erewrite bind_done by reflexivity.
    erewrite bind_done; [|unfold on_drv; cbn [iot_drv protect_flag]; rewrite E3; reflexivity]. done.
  - intros x. rewrite M3, M2. unfold guarded. destruct (dev_prot (dsr d1) x) eqn:E; [apply M1|].
    unfold EfEnv.program. rewrite S1 in E. destruct (Z.leb_spec off x), (Z.ltb_spec x (off + Z.of_nat (length bs))); cbn [andb]; try apply M1.
    by rewrite Hp in E by lia.
  - by rewrite S2.
  - rewrite S3, S2, S1, Ht. by apply (restored_eq (C := C)).
Qed.

(** the second copy of the environment lies over the RF firmware and network
    partitions.  Erasing more than one sector of it through the environment's
    port leaves the RF partition reading as erased. *)
Theorem env_erases_rf_partition c n m d :
  config_fits (C := C) c = true → flash_size c = FLASH_SIZE_4M → none_unprotects (C := C) c → inv c d →
  4096 < n ≤ EfEnv.ENV_AREA_SIZE / 2 → 0 < m ≤ 4096 →
  ∃ d1 d2, ef_port_erase EfEnv.A1 n d = Done (EfEnv.EF_NO_ERR, d1) ∧
    bk_flash_partition_read BK_PARTITION_RF_FIRMWARE true 0 m d1 = Done ((BK_OK, replicate (Z.to_nat m) 255), d2).
Proof.
  intros F%config_fits_spec E Hu I Hn Hm. change (EfEnv.ENV_AREA_SIZE / 2) with 12288 in Hn.
  change EfEnv.A1 with 0x3FD000. unfold FLASH_SIZE_4M in E.
  destruct (wp_inv _ _ _ (port_erase_ok c 0x3FD000 n d F Hu I ltac:(lia) eq_refl ltac:(lia) ltac:(lia)))
    as (r & d1 & E1 & -> & I1 & _ & M1 & _).
  destruct (wp_inv _ _ _ (partition_read_ok c BK_PARTITION_RF_FIRMWARE (mk_part 0x3FE000 0x1000 1) 0 m d1 F E I1 eq_refl
    ltac:(lia) ltac:(lia) ltac:(cbn; lia))) as (r & d2 & E2 & -> & _).
  exists d1, d2. split; [done|]. rewrite E2. do 3 f_equal. apply EfEnv.read_flash_eq; [apply length_replicate|].
  intros i Hi. rewrite lookup_replicate_2 by done. f_equal. rewrite M1. unfold EfEnv.bk_erase.
  rewrite sector_mask_id by (done || lia). pose proof (Z.div_mod n 4096 ltac:(lia)). pose proof (Z.mod_pos_bound n 4096 ltac:(lia)).
  pose proof (Z.div_pos n 4096 ltac:(lia) ltac:(lia)).
  rewrite EfEnv.erase_loop_spec by lia. cbn [partition_start_addr].
  assert (8192 ≤ EfEnv.ceil4k n) by (unfold EfEnv.ceil4k; Z.to_euclidean_division_equations; lia).
  rewrite (proj2 (Z.leb_le _ _)), (proj2 (Z.ltb_lt _ _)) by lia. done.
Qed.
End Theorems.

(** ** Instances on the concrete chip *)
Definition drv4M : drv NorChip := nor_drv 0x0B4016 ramp.
Lemma drv4M_open : ∃ d, bk_flash_set_protect_type FLASH_PROTECT_NONE drv4M = Done (BK_OK, d) ∧ inv c4M d ∧
  ∀ x, dev_prot (C := NorChip) (dsr d) x = false.
Proof.
  assert (F : fits (C := NorChip) c4M) by (apply config_fits_spec; by vm_compute).
  destruct (wp_inv _ _ _ (set_protect_type_ok c4M FLASH_PROTECT_NONE drv4M F (or_introl (proj1 c4M_inv)))) as (r & d & E & -> & I & _ & _ & S & _).
  exists d. split; [exact E|]. split; [exact I|]. intros x. apply c4M_none. rewrite S. by apply (prot_value_sr (C := NorChip) c4M FLASH_PROTECT_NONE).
Qed.

Lemma iot_drv_intro {C} `{FlashDevice C} (P : drv C → Prop) d t : P d → P (iot_drv (mk_iot d t)).
Proof. done. Qed.
Definition iot4M : iot NorChip := mk_iot (nor_drv 0x0B4016 ramp) FLASH_PROTECT_NONE.
Lemma iot4M_inv : inv c4M (iot_drv iot4M).
Proof. exact (iot_drv_intro (inv c4M) (nor_drv 0x0B4016 ramp) FLASH_PROTECT_NONE (proj1 c4M_inv)). Qed.

(** A chip whose protection was lifted, and the chip as the driver's initialisation
    leaves it. *)
Lemma drv4M_prot x : x < 0x3F0000 → dev_prot (C := NorChip) (dsr drv4M) x = true.
Proof.
  intros Hx. assert (E : dsr drv4M = 0x4204) by (by vm_compute). rewrite E.
  change ((x <? 0x3F0000) = true). by apply Z.ltb_lt.
Qed.
Lemma partition_access_ok_witness :
  (∃ d d', bk_flash_set_protect_type FLASH_PROTECT_NONE drv4M = Done (BK_OK, d) ∧
    bk_flash_partition_write BK_PARTITION_USR_CONFIG (Some (zeros 10)) 100 10 d = Done (BK_OK, d') ∧
    ∀ x, dmem d' x = EfEnv.program (0x3DA000 + 100) (zeros 10) (dmem d) x) ∧
  (∃ d', bk_flash_partition_write BK_PARTITION_USR_CONFIG (Some (zeros 10)) 100 10 drv4M = Done (BK_OK, d') ∧
    ∀ x, x < 0x3F0000 → dmem d' x = dmem drv4M x).
Proof.
  destruct drv4M_open as (d & E & I & O). split.
  - destruct (partition_access_ok c4M BK_PARTITION_USR_CONFIG (mk_part 0x3DA000 0x24000 1) 100 (zeros 10) d
      ltac:(by vm_compute) eq_refl I eq_refl ltac:(lia) ltac:(done) ltac:(by apply (bool_decide_unpack _)) ltac:(by vm_compute))
      as (_ & (d' & E' & _ & M & _) & _).
    exists d, d'. split; [exact E|]. split; [exact E'|]. intros x. rewrite M, O. reflexivity.
  - destruct (partition_access_ok c4M BK_PARTITION_USR_CONFIG (mk_part 0x3DA000 0x24000 1) 100 (zeros 10) drv4M
      ltac:(by vm_compute) eq_refl (proj1 c4M_inv) eq_refl ltac:(lia) ltac:(done) ltac:(by apply (bool_decide_unpack _)) ltac:(by vm_compute))
      as (_ & (d' & E' & _ & M & _) & _).
    exists d'. split; [exact E'|]. intros x Hx. rewrite M, drv4M_prot by exact Hx. reflexivity.
Defined.

Lemma iot_flash_erase_ok_witness :
  ∃ d', IoTFlashErase 0 0x3F1000 5000 iot4M = Done (0, mk_iot d' (protect_flag iot4M)) ∧
    ∀ x, dmem d' x = guarded (dsr (iot_drv iot4M))
      (fill_ff (0x3F1000 / 4096 * 4096) ((0x3F1000 + 5000 - 1) / 4096 * 4096 + 4096)) (dmem (iot_drv iot4M)) x.
Proof.
  destruct (iot_flash_erase_ok 0 c4M 0x3F1000 5000 iot4M ltac:(by vm_compute) iot4M_inv
    ltac:(lia) ltac:(lia) ltac:(by vm_compute)) as (d' & E & _ & _ & _ & M).
  exists d'. exact (conj E M).
Defined.

(** After initialisation everything below the last 64 KB is protected. *)
Lemma iot4M_prot x : 0x1000 ≤ x < 0x1000 + Z.of_nat (length (zeros 10)) → dev_prot (C := NorChip) (dsr (iot_drv iot4M)) x = true.
Proof.
  intros Hx. assert (E : dsr (iot_drv iot4M) = 0x4204) by (by vm_compute). rewrite E.
  change ((x <? 0x3F0000) = true). change (Z.of_nat (length (zeros 10))) with 10 in Hx. apply Z.ltb_lt. lia.
Qed.

Lemma iot_flash_init_protected_witness :
  ∃ s1 s2, IoTFlashInit 0 iot4M = Done (0, s1) ∧ IoTFlashWrite 0 0x1000 (Z.of_nat (length (zeros 10))) (zeros 10) 1 s1 = Done (0, s2).
Proof.
  destruct (iot_flash_init_protected 0 c4M 0x1000 (zeros 10) 1 iot4M ltac:(by vm_compute) iot4M_inv
    ltac:(by apply (bool_decide_unpack _)) ltac:(by vm_compute) ltac:(by vm_compute) iot4M_prot) as (s1 & s2 & s3 & E1 & E2 & _).
  exists s1, s2. exact (conj E1 E2).
Defined.

Lemma env_erases_rf_partition_witness :
  ∃ d1 d2, ef_port_erase EfEnv.A1 5000 drv4M = Done (EfEnv.EF_NO_ERR, d1) ∧
    bk_flash_partition_read BK_PARTITION_RF_FIRMWARE true 0 16 d1 = Done ((BK_OK, replicate (Z.to_nat 16) 255), d2).
Proof.
  exact (env_erases_rf_partition c4M 5000 16 drv4M ltac:(by vm_compute) eq_refl c4M_none (proj1 c4M_inv)
    ltac:(by vm_compute) ltac:(lia)).
Defined.

End FlashClients.
