(* ===== verification/Ring.v ===== *)
(** * Circular buffers

    An array with an index where the next element goes in and one where the next
    comes out, both modulo its length, as the shell and its device use them for
    free blocks, packets and bytes.  [ring l o i c] relates the array and the
    indices to the list [c] of the elements between them; the lemmas give the
    effect of putting one in and of taking one out, and the count that the code
    computes from the indices. *)
From S2P Require Import Prelude.

(** A full buffer has equal indices, like an empty one. *)
Record ring {A} (l : list A) (o i : nat) (c : list A) : Prop := {
  rg_out : (o < length l)%nat;
  rg_len : (length c ≤ length l)%nat;
  rg_in : i = ((o + length c) mod length l)%nat;
  rg_at : ∀ k, (k < length c)%nat → l !! ((o + k) mod length l)%nat = c !! k }.

Section Ring.
Context {A : Type}.
Implicit Types (l c : list A) (o i k n : nat) (x : A).

Lemma ring_empty l : (0 < length l)%nat → ring l 0 0 [].
Proof. intros H. split; cbn; [done|lia| |lia]. by rewrite Nat.Div0.mod_0_l. Qed.
Lemma ring_all l : (0 < length l)%nat → ring l 0 0 l.
Proof.
  intros H. split; [done|done| |].
  - by rewrite Nat.add_0_l, Nat.Div0.mod_same.
  - intros k Hk. by rewrite Nat.add_0_l, Nat.mod_small.
Qed.

Lemma ring_in_lt l o i c : ring l o i c → (i < length l)%nat.
Proof. intros []. subst i. apply Nat.mod_upper_bound. lia. Qed.

(** Distinct positions of a window no longer than the array are distinct places. *)
Lemma window_inj n o a b : (o < n)%nat → (a < n)%nat → (b < n)%nat →
  ((o + a) mod n = (o + b) mod n)%nat → a = b.
Proof.
  intros Ho Ha Hb E.
  assert (M : ∀ k, (k < n)%nat → ((o + k) mod n = if decide (o + k < n) then o + k else o + k - n)%nat).
  { intros k Hk. destruct (decide _); [by apply Nat.mod_small|].
    replace (o + k)%nat with ((o + k - n) + 1 * n)%nat at 1 by lia. rewrite Nat.Div0.mod_add. apply Nat.mod_small. lia. }
  rewrite !M in E by done. repeat destruct (decide _); lia.
Qed.

Lemma ring_push l o i c x : ring l o i c → (length c < length l)%nat →
  ring (<[i := x]> l) o ((i + 1) mod length l) (c ++ [x]).
Proof.
  intros R Lt. pose proof (ring_in_lt _ _ _ _ R). destruct R as [Ho Hl Hi Ha].
  assert (N : length l ≠ 0%nat) by lia.
  split; rewrite ?length_insert; [done|rewrite length_app; cbn; lia| |].
  - rewrite length_app. cbn. subst i. rewrite Nat.Div0.add_mod_idemp_l. f_equal. lia.
  - intros k Hk. rewrite length_app in Hk. cbn in Hk. destruct (decide (k = length c)) as [->|Ne].
    + rewrite <-Hi, list_lookup_insert_eq by done. by rewrite lookup_app_r, Nat.sub_diag by lia.
    + rewrite lookup_app_l by lia. rewrite list_lookup_insert_ne; [apply Ha; lia|].
      subst i. intros E. apply window_inj in E; lia.
Qed.

Lemma ring_pop l o i c x : ring l o i (x :: c) → l !! o = Some x ∧ ring l ((o + 1) mod length l) i c.
Proof.
  intros [Ho Hl Hi Ha]. cbn in *. assert (N : length l ≠ 0%nat) by lia. split.
  - specialize (Ha 0%nat ltac:(lia)). rewrite Nat.add_0_r, Nat.mod_small in Ha by done. exact Ha.
  - split; [by apply Nat.mod_upper_bound|lia| |].
    + subst i. rewrite Nat.Div0.add_mod_idemp_l. f_equal. lia.
    + intros k Hk. rewrite Nat.Div0.add_mod_idemp_l. specialize (Ha (S k) ltac:(lia)).
      replace (o + 1 + k)%nat with (o + S k)%nat by lia. exact Ha.
Qed.

(** Indices are equal exactly for an empty buffer, when one place is kept free. *)
Lemma ring_empty_iff l o i c : ring l o i c → (length c < length l)%nat → o = i ↔ c = [].
Proof.
  intros [Ho Hl Hi Ha] Lt. split; [|intros ->; subst i; cbn; by rewrite Nat.add_0_r, Nat.mod_small].
  intros E. rewrite <-(Nat.mod_small o (length l)), <-(Nat.add_0_r o) in E at 1 by done.
  rewrite Hi in E. apply window_inj in E; [|lia..]. by apply nil_length_inv.
Qed.

(** The free places, as the code counts them. *)
Definition ring_free n o i : nat := if (i <? o)%nat then o - i else n - i + o.
Lemma ring_free_ok l o i c : ring l o i c → (length c < length l)%nat → ring_free (length l) o i = (length l - length c)%nat.
Proof.
  intros [Ho Hl Hi Ha] Lt. subst i. unfold ring_free. destruct (decide (o + length c < length l)%nat).
  - rewrite Nat.mod_small by done. rewrite (proj2 (Nat.ltb_ge _ _)) by lia. lia.
  - replace (o + length c)%nat with ((o + length c - length l) + 1 * length l)%nat by lia.
    rewrite Nat.Div0.mod_add, Nat.mod_small by lia. rewrite (proj2 (Nat.ltb_lt _ _)) by lia. lia.
Qed.
End Ring.
