(* ===== verification/ShellUart.v ===== *)
(** * The shell's serial device: components/bk_cli/shell_uart.c

    A queue of packets to send, a buffer of echo bytes that goes before the next
    packet, a buffer of received bytes, and the two interrupt routines.  The client
    above (ShellTask.v) keeps the packets' memory and gets the callbacks; it is a
    type class here, so that the device does not know it.

    The serial port below is the room in its transmit FIFO, what has been written to
    it (an echo byte is marked, which the port does not do), the received bytes, and
    the interrupt enables; writing to a full FIFO waits until the port makes room.
    Where one device is passed, [shell_dev == NULL] is left out. *)
From S2P Require Import Prelude Ring.
Local Open Scope Z_scope.

Module ShellUart.

Definition TX_QUEUE_LEN : nat := 8.
Definition RX_BUFF_SIZE : nat := 160.
Definition ECHO_BUFF_SIZE : nat := 64.

(** ** State *)
(** [P] is the type of the client's buffers; [None] is a null pointer. *)
Record dev_tx_packet_t (P : Type) := mk_pkt { packet : option P; len : Z; tag : Z }.
Arguments mk_pkt {P}.
Arguments packet {P}.
Arguments len {P}.
Arguments tag {P}.

Record shell_uart_ext_t (P : Type) := mk_ext {
  uart_id : Z;
  tx_list : list (dev_tx_packet_t P);
  list_out_idx : nat;
  list_in_idx : nat;
  cur_packet : option P;
  packet_len : Z;
  packet_tag : Z;
  packet_tx_len : Z;
  tx_stopped : bool;
  echo_buff : list Z;
  echo_wr_idx : nat;
  echo_rd_idx : nat;
  tx_complete_callback : bool;
  rx_buff : list Z;
  rx_buff_wr_idx : nat;
  rx_buff_rd_idx : nat;
  rx_over_flow : bool;
  rx_indicate_callback : bool }.
Arguments mk_ext {P}.
Arguments uart_id {P}.
Arguments tx_list {P}.
Arguments list_out_idx {P}.
Arguments list_in_idx {P}.
Arguments cur_packet {P}.
Arguments packet_len {P}.
Arguments packet_tag {P}.
Arguments packet_tx_len {P}.
Arguments tx_stopped {P}.
Arguments echo_buff {P}.
Arguments echo_wr_idx {P}.
Arguments echo_rd_idx {P}.
Arguments tx_complete_callback {P}.
Arguments rx_buff {P}.
Arguments rx_buff_wr_idx {P}.
Arguments rx_buff_rd_idx {P}.
Arguments rx_over_flow {P}.
Arguments rx_indicate_callback {P}.

Record port := mk_port { tx_room : nat; tx_out : list (bool * Z); tx_int : bool; rx_fifo : list Z; rx_int : bool }.

(** The device, the port, and the client. *)
Record dst (U P : Type) := mk_dst { dev : shell_uart_ext_t P; hw : port; client : U }.
Arguments mk_dst {U P}.
Arguments dev {U P}.
Arguments hw {U P}.
Arguments client {U P}.

(** What the client gives: the memory behind a buffer and the two callbacks. *)
Class ShellClient (U P : Type) := {
  load : U → P → Z → option Z;
  on_tx_complete : option P → Z → M (dst U P) unit;
  on_rx_indicate : M (dst U P) unit }.

Section Lenses.
Context {P : Type}.
Implicit Types (e : shell_uart_ext_t P).

Definition e_queue l o i e : shell_uart_ext_t P := mk_ext (uart_id e) l o i (cur_packet e) (packet_len e) (packet_tag e) (packet_tx_len e) (tx_stopped e) (echo_buff e) (echo_wr_idx e) (echo_rd_idx e) (tx_complete_callback e) (rx_buff e) (rx_buff_wr_idx e) (rx_buff_rd_idx e) (rx_over_flow e) (rx_indicate_callback e).
Definition e_cur p n t k e : shell_uart_ext_t P := mk_ext (uart_id e) (tx_list e) (list_out_idx e) (list_in_idx e) p n t k (tx_stopped e) (echo_buff e) (echo_wr_idx e) (echo_rd_idx e) (tx_complete_callback e) (rx_buff e) (rx_buff_wr_idx e) (rx_buff_rd_idx e) (rx_over_flow e) (rx_indicate_callback e).
Definition e_stopped b e : shell_uart_ext_t P := mk_ext (uart_id e) (tx_list e) (list_out_idx e) (list_in_idx e) (cur_packet e) (packet_len e) (packet_tag e) (packet_tx_len e) b (echo_buff e) (echo_wr_idx e) (echo_rd_idx e) (tx_complete_callback e) (rx_buff e) (rx_buff_wr_idx e) (rx_buff_rd_idx e) (rx_over_flow e) (rx_indicate_callback e).
Definition e_echo l w r e : shell_uart_ext_t P := mk_ext (uart_id e) (tx_list e) (list_out_idx e) (list_in_idx e) (cur_packet e) (packet_len e) (packet_tag e) (packet_tx_len e) (tx_stopped e) l w r (tx_complete_callback e) (rx_buff e) (rx_buff_wr_idx e) (rx_buff_rd_idx e) (rx_over_flow e) (rx_indicate_callback e).
Definition e_cbs t r e : shell_uart_ext_t P := mk_ext (uart_id e) (tx_list e) (list_out_idx e) (list_in_idx e) (cur_packet e) (packet_len e) (packet_tag e) (packet_tx_len e) (tx_stopped e) (echo_buff e) (echo_wr_idx e) (echo_rd_idx e) t (rx_buff e) (rx_buff_wr_idx e) (rx_buff_rd_idx e) (rx_over_flow e) r.
Definition e_rx l w r e : shell_uart_ext_t P := mk_ext (uart_id e) (tx_list e) (list_out_idx e) (list_in_idx e) (cur_packet e) (packet_len e) (packet_tag e) (packet_tx_len e) (tx_stopped e) (echo_buff e) (echo_wr_idx e) (echo_rd_idx e) (tx_complete_callback e) l w r (rx_over_flow e) (rx_indicate_callback e).
Definition e_ovf b e : shell_uart_ext_t P := mk_ext (uart_id e) (tx_list e) (list_out_idx e) (list_in_idx e) (cur_packet e) (packet_len e) (packet_tag e) (packet_tx_len e) (tx_stopped e) (echo_buff e) (echo_wr_idx e) (echo_rd_idx e) (tx_complete_callback e) (rx_buff e) (rx_buff_wr_idx e) (rx_buff_rd_idx e) b (rx_indicate_callback e).
Definition e_id v e : shell_uart_ext_t P := mk_ext v (tx_list e) (list_out_idx e) (list_in_idx e) (cur_packet e) (packet_len e) (packet_tag e) (packet_tx_len e) (tx_stopped e) (echo_buff e) (echo_wr_idx e) (echo_rd_idx e) (tx_complete_callback e) (rx_buff e) (rx_buff_wr_idx e) (rx_buff_rd_idx e) (rx_over_flow e) (rx_indicate_callback e).
End Lenses.

Section Device.
Context {U P : Type}.
Implicit Types (s : dst U P).

Definition upd_dev (f : shell_uart_ext_t P → shell_uart_ext_t P) : M (dst U P) unit := modify (λ s, mk_dst (f (dev s)) (hw s) (client s)).
Definition upd_hw (f : port → port) : M (dst U P) unit := modify (λ s, mk_dst (dev s) (f (hw s)) (client s)).

(** An element of an array; out of its bounds is a fault. *)
Definition fetch {A} (l : list A) (i : nat) : M (dst U P) A :=
  match l !! i with Some x => ret x | None => trapM Fault end.
Definition store_at {A} (l : list A) (i : nat) (x : A) : M (dst U P) (list A) :=
  if (i <? length l)%nat then ret (<[i := x]> l) else trapM Fault.

(** ** The port *)
Definition uart_write (echo : bool) (b : Z) : M (dst U P) unit :=
  upd_hw (λ h, mk_port (pred (tx_room h)) (tx_out h ++ [(echo, b)]) (tx_int h) (rx_fifo h) (rx_int h)).
Definition set_tx_int (b : bool) : M (dst U P) unit :=
  upd_hw (λ h, mk_port (tx_room h) (tx_out h) b (rx_fifo h) (rx_int h)).
Definition set_rx_int (b : bool) : M (dst U P) unit :=
  upd_hw (λ h, mk_port (tx_room h) (tx_out h) (tx_int h) (rx_fifo h) b).
(** [uart_read_byte_ex] *)
Definition uart_read : M (dst U P) (option Z) :=
  let* h := gets hw in
  match rx_fifo h with
  | [] => ret None
  | b :: r => upd_hw (λ h, mk_port (tx_room h) (tx_out h) (tx_int h) r (rx_int h)) ;;; ret (Some b)
  end.

(** ** Writing *)
Definition shell_uart_tx_trigger : M (dst U P) unit :=
  let* e := gets dev in
  if negb (tx_stopped e) then ret tt
  else upd_dev (e_stopped false) ;;; set_tx_int true.

Definition shell_uart_write_async (pBuf : option P) (BufLen Tag : Z) : M (dst U P) Z :=
  match pBuf with
  | None => ret 0
  | Some _ =>
      let* e := gets dev in
      if (1 <? ring_free TX_QUEUE_LEN (list_out_idx e) (list_in_idx e))%nat then
        let* l := store_at (tx_list e) (list_in_idx e) (mk_pkt pBuf BufLen Tag) in
        upd_dev (e_queue l (list_out_idx e) ((list_in_idx e + 1) mod TX_QUEUE_LEN)) ;;;
        shell_uart_tx_trigger ;;;
        ret 1
      else ret 0
  end.

Fixpoint write_sync_loop (bs : list Z) : M (dst U P) unit :=
  match bs with [] => ret tt | b :: bs' => uart_write false b ;;; write_sync_loop bs' end.
Definition shell_uart_write_sync (bs : list Z) : M (dst U P) Z :=
  if (length bs =? 0)%nat then ret 0 else write_sync_loop bs ;;; ret (Z.of_nat (length bs)).

(** [free] is [free_buff_len]. *)
Fixpoint write_echo_loop (free : nat) (bs : list Z) (wr_cnt : nat) : M (dst U P) nat :=
  match bs with
  | [] => ret wr_cnt
  | b :: bs' =>
      if (1 <? free)%nat then
        let* e := gets dev in
        let* l := store_at (echo_buff e) (echo_wr_idx e) b in
        upd_dev (e_echo l ((echo_wr_idx e + 1) mod ECHO_BUFF_SIZE) (echo_rd_idx e)) ;;;
        write_echo_loop (pred free) bs' (S wr_cnt)
      else ret wr_cnt
  end.
Definition shell_uart_write_echo (bs : list Z) : M (dst U P) Z :=
  if (length bs =? 0)%nat then ret 0
  else
    let* e := gets dev in
    let* n := write_echo_loop (ring_free ECHO_BUFF_SIZE (echo_rd_idx e) (echo_wr_idx e)) bs 0 in
    (if (0 <? n)%nat then shell_uart_tx_trigger else ret tt) ;;;
    ret (Z.of_nat n).

(** ** Reading *)
Fixpoint read_loop (BufLen : nat) : M (dst U P) (list Z) :=
  match BufLen with
  | O => ret []
  | S n =>
      let* e := gets dev in
      if (rx_buff_rd_idx e =? rx_buff_wr_idx e)%nat then ret []
      else
        let* b := fetch (rx_buff e) (rx_buff_rd_idx e) in
        upd_dev (e_rx (rx_buff e) (rx_buff_wr_idx e) ((rx_buff_rd_idx e + 1) mod RX_BUFF_SIZE)) ;;;
        let* r := read_loop n in ret (b :: r)
  end.
Definition shell_uart_read (BufLen : nat) : M (dst U P) (list Z) := read_loop BufLen.

(** ** Control *)
Definition ctrl_get_status : M (dst U P) Z :=
  let* e := gets dev in
  let free_items := ring_free TX_QUEUE_LEN (list_out_idx e) (list_in_idx e) in
  ret (if (1 <? free_items)%nat then Z.of_nat (free_items - 1) else 0).
Definition ctrl_rx_reset : M (dst U P) unit := upd_dev (λ e, e_rx (rx_buff e) 0 0 e).
Definition ctrl_tx_reset : M (dst U P) unit :=
  upd_dev (λ e, e_cur None 0 (packet_tag e) 0 (e_queue (tx_list e) 0 0 e)).
Definition ctrl_set_uart_port (v : Z) : M (dst U P) unit := upd_dev (e_id v).
Definition ctrl_get_rx_status : M (dst U P) bool :=
  let* e := gets dev in upd_dev (e_ovf false) ;;; ret (rx_over_flow e).

(** ** Set-up *)
Definition shell_uart_init : M (dst U P) bool :=
  upd_dev (λ e, mk_ext (uart_id e) (replicate TX_QUEUE_LEN (mk_pkt None 0 0)) 0 0 None 0 0 0 true
                  (replicate ECHO_BUFF_SIZE 0) 0 0 false (replicate RX_BUFF_SIZE 0) 0 0 false false) ;;;
  ret true.
(** Whether there is a callback of either kind. *)
Definition shell_uart_open (tx_callback rx_callback : bool) : M (dst U P) bool :=
  upd_dev (e_cbs tx_callback rx_callback) ;;; set_rx_int true ;;; ret true.
Definition shell_uart_close : M (dst U P) bool := upd_dev (e_cbs false false) ;;; ret true.

Context `{ShellClient U P}.

(** ** Interrupts *)
(** [rx_cnt] counts what was read; one byte of the buffer stays free. *)
Fixpoint rx_loop (fuel : nat) (free_buff_len rx_cnt : nat) : M (dst U P) unit :=
  match fuel with
  | O => trapM Hang
  | S fuel' =>
      let* r := uart_read in
      match r with
      | None => ret tt
      | Some b =>
          let* e := gets dev in
          (if (S rx_cnt <? free_buff_len)%nat then
             let* l := store_at (rx_buff e) (rx_buff_wr_idx e) b in
             upd_dev (e_rx l ((rx_buff_wr_idx e + 1) mod RX_BUFF_SIZE) (rx_buff_rd_idx e))
           else upd_dev (e_ovf true)) ;;;
          rx_loop fuel' free_buff_len (S rx_cnt)
      end
  end.
Definition shell_uart_rx_isr : M (dst U P) unit :=
  let* e := gets dev in
  let* h := gets hw in
  rx_loop (S (length (rx_fifo h))) (ring_free RX_BUFF_SIZE (rx_buff_rd_idx e) (rx_buff_wr_idx e)) 0 ;;;
  let* e := gets dev in
  if rx_indicate_callback e then on_rx_indicate else ret tt.

(** One round of the transmit loop; [true] to go on.  Between packets an echo byte,
    else the next packet, else the end; then a byte of the packet or its end. *)
Definition tx_packet : M (dst U P) bool :=
  let* e := gets dev in
  if packet_tx_len e <? packet_len e then
    let* u := gets client in
    match cur_packet e with
    | None => trapM Fault
    | Some p =>
        match load u p (packet_tx_len e) with
        | None => trapM Fault
        | Some b =>
            uart_write false b ;;;
            upd_dev (e_cur (cur_packet e) (packet_len e) (packet_tag e) (u16 (packet_tx_len e + 1))) ;;;
            ret true
        end
    end
  else
    (if tx_complete_callback e then on_tx_complete (cur_packet e) (packet_tag e) else ret tt) ;;;
    upd_dev (λ e, e_cur None 0 (packet_tag e) 0 e) ;;;
    upd_dev (λ e, e_queue (tx_list e) ((list_out_idx e + 1) mod TX_QUEUE_LEN) (list_in_idx e) e) ;;;
    ret true.

Definition tx_round : M (dst U P) bool :=
  let* h := gets hw in
  if (tx_room h =? 0)%nat then ret false
  else
    let* e := gets dev in
    if (match cur_packet e with None => true | Some _ => false end) || (packet_len e =? 0) then
      if negb (echo_rd_idx e =? echo_wr_idx e)%nat then
        let* b := fetch (echo_buff e) (echo_rd_idx e) in
        uart_write true b ;;;
        upd_dev (λ e, e_echo (echo_buff e) (echo_wr_idx e) ((echo_rd_idx e + 1) mod ECHO_BUFF_SIZE) e) ;;;
        ret true
      else if negb (list_out_idx e =? list_in_idx e)%nat then
        let* q := fetch (tx_list e) (list_out_idx e) in
        upd_dev (e_cur (packet q) (len q) (tag q) 0) ;;;
        tx_packet
      else
        set_tx_int false ;;;
        upd_dev (e_stopped true) ;;;
        ret false
    else tx_packet.

Fixpoint tx_loop (fuel : nat) : M (dst U P) unit :=
  match fuel with
  | O => trapM Hang
  | S fuel' => let* go := tx_round in if go then tx_loop fuel' else ret tt
  end.
Definition shell_uart_tx_isr (fuel : nat) : M (dst U P) unit := tx_loop fuel.

(** [shell_uart_flush]: every round of its loop finds the room [rooms] says. *)
Fixpoint shell_uart_flush (fuel : nat) (rooms : list nat) : M (dst U P) unit :=
  let* e := gets dev in
  if tx_stopped e then ret tt
  else match rooms with
  | [] => trapM Hang
  | r :: rooms' =>
      upd_hw (λ h, mk_port r (tx_out h) (tx_int h) (rx_fifo h) (rx_int h)) ;;;
      (if (0 <? r)%nat then shell_uart_tx_isr fuel else ret tt) ;;;
      shell_uart_flush fuel rooms'
  end.
End Device.
End ShellUart.
