(* ===== verification/ShellTask.v ===== *)
(** * The shell's log path and command line: components/bk_cli/shell_task.c

    A log is put into a block of one of three pools, its tag into the pending queue,
    and from there to the serial device (ShellUart.v) whenever that has room; the
    device's completion callback frees the block and sends the next.  Responses to
    commands and two constant hints take the same way without a block.

    Modelled as configured for the master core: one device for logs and commands, the
    pools of 16, 48 and 64 blocks.  The text that vsnprintf makes, the command
    handlers' answers, the time, and the memory behind the second hint are
    parameters; the text of an assertion too. *)
From S2P Require Import Prelude Bytes Ring ShellUart.
Local Open Scope Z_scope.

Module ShellTask.
Export ShellUart.

Definition SHELL_LOG_BUF1_LEN : nat := 136.
Definition SHELL_LOG_BUF2_LEN : nat := 64.
Definition SHELL_LOG_BUF3_LEN : nat := 40.
Definition SHELL_LOG_BUF1_NUM : nat := 16.
Definition SHELL_LOG_BUF2_NUM : nat := 48.
Definition SHELL_LOG_BUF3_NUM : nat := 64.
Definition SHELL_LOG_BUF_NUM : nat := SHELL_LOG_BUF1_NUM + SHELL_LOG_BUF2_NUM + SHELL_LOG_BUF3_NUM.
Definition SHELL_LOG_PEND_NUM : nat := SHELL_LOG_BUF_NUM * 2 + 3.
Definition SHELL_LOG_BUSY_NUM : nat := 20.
Definition SHELL_CMD_BUF_LEN : nat := 140.
Definition SHELL_RSP_BUF_LEN : nat := 200.
Definition SHELL_ASSERT_BUF_LEN : nat := 140.
Definition SHELL_RSP_QUEUE_ID : Z := 7.
Definition SHELL_ROM_QUEUE_ID : Z := 9.
Definition MAX_TRACE_ARGS : Z := 10.
Definition MOD_NAME_LEN : nat := 4.
Definition HEX_SYNC_CHAR : Z := 0xFE.
Definition HEX_MOD_CHAR : Z := 0xFF.
Definition HEX_ESC_CHAR : Z := 0xFD.

(** ** State *)
Inductive cmd_type := CMD_TYPE_TEXT | CMD_TYPE_HEX | CMD_TYPE_BKREG | CMD_TYPE_INVALID.
Inductive bkreg := BKREG_WAIT_01 | BKREG_WAIT_E0 | BKREG_WAIT_FC.
#[export] Instance cmd_type_eq : EqDecision cmd_type.
Proof. solve_decision. Defined.
#[export] Instance bkreg_eq : EqDecision bkreg.
Proof. solve_decision. Defined.

Record cmd_line_t := mk_cmd {
  rsp_buff : list Z;
  rsp_ongoing : bool;
  cur_cmd_type : cmd_type;
  cmd_buff : list Z;
  cmd_data_len : Z;
  bkreg_state : bkreg;
  bkreg_left_byte : Z;
  assert_buff : list Z;
  log_level : Z;
  echo_enable : bool }.
Record free_queue_t := mk_fq {
  log_buf : list Z;
  blk_list : list nat;
  blk_num : nat;
  blk_len : nat;
  fq_out_idx : nat;
  fq_in_idx : nat;
  free_blk_num : nat;
  empty_cnt : Z }.
Record busy_queue_t := mk_busy { busy_blk_list : list Z; busy_out_idx : nat; busy_in_idx : nat }.
Record pending_queue_t := mk_pend { packet_list : list (Z * Z); pend_out_idx : nat; pend_in_idx : nat }.

Record shell := mk_shell {
  free_queue : list free_queue_t;
  log_busy_queue : busy_queue_t;
  pending_queue : pending_queue_t;
  cmd_line_buf : cmd_line_t;
  shell_init_ok : bool;
  fault_hint_print : bool;
  shell_log_overflow : Z;
  shell_log_count : Z;
  shell_semaphore : bool }.

(** Where a packet's bytes are. *)
Inductive buf := LogBuf (q b : nat) | RspBuff | FaultStr | CmdOvfStr.
#[export] Instance buf_eq : EqDecision buf.
Proof. solve_decision. Defined.
Definition st := dst shell buf.

Definition s_free f s := mk_shell f (log_busy_queue s) (pending_queue s) (cmd_line_buf s) (shell_init_ok s) (fault_hint_print s) (shell_log_overflow s) (shell_log_count s) (shell_semaphore s).
Definition s_busy b s := mk_shell (free_queue s) b (pending_queue s) (cmd_line_buf s) (shell_init_ok s) (fault_hint_print s) (shell_log_overflow s) (shell_log_count s) (shell_semaphore s).
Definition s_pend p s := mk_shell (free_queue s) (log_busy_queue s) p (cmd_line_buf s) (shell_init_ok s) (fault_hint_print s) (shell_log_overflow s) (shell_log_count s) (shell_semaphore s).
Definition s_cmd c s := mk_shell (free_queue s) (log_busy_queue s) (pending_queue s) c (shell_init_ok s) (fault_hint_print s) (shell_log_overflow s) (shell_log_count s) (shell_semaphore s).
Definition s_init b s := mk_shell (free_queue s) (log_busy_queue s) (pending_queue s) (cmd_line_buf s) b (fault_hint_print s) (shell_log_overflow s) (shell_log_count s) (shell_semaphore s).
Definition s_hint b s := mk_shell (free_queue s) (log_busy_queue s) (pending_queue s) (cmd_line_buf s) (shell_init_ok s) b (shell_log_overflow s) (shell_log_count s) (shell_semaphore s).
Definition s_counts o n s := mk_shell (free_queue s) (log_busy_queue s) (pending_queue s) (cmd_line_buf s) (shell_init_ok s) (fault_hint_print s) o n (shell_semaphore s).
Definition s_event b s := mk_shell (free_queue s) (log_busy_queue s) (pending_queue s) (cmd_line_buf s) (shell_init_ok s) (fault_hint_print s) (shell_log_overflow s) (shell_log_count s) b.

Definition c_rsp l c := mk_cmd l (rsp_ongoing c) (cur_cmd_type c) (cmd_buff c) (cmd_data_len c) (bkreg_state c) (bkreg_left_byte c) (assert_buff c) (log_level c) (echo_enable c).
Definition c_ongoing b c := mk_cmd (rsp_buff c) b (cur_cmd_type c) (cmd_buff c) (cmd_data_len c) (bkreg_state c) (bkreg_left_byte c) (assert_buff c) (log_level c) (echo_enable c).
Definition c_type t c := mk_cmd (rsp_buff c) (rsp_ongoing c) t (cmd_buff c) (cmd_data_len c) (bkreg_state c) (bkreg_left_byte c) (assert_buff c) (log_level c) (echo_enable c).
Definition c_data l n c := mk_cmd (rsp_buff c) (rsp_ongoing c) (cur_cmd_type c) l n (bkreg_state c) (bkreg_left_byte c) (assert_buff c) (log_level c) (echo_enable c).
Definition c_bkreg b c := mk_cmd (rsp_buff c) (rsp_ongoing c) (cur_cmd_type c) (cmd_buff c) (cmd_data_len c) b (bkreg_left_byte c) (assert_buff c) (log_level c) (echo_enable c).
Definition c_left n c := mk_cmd (rsp_buff c) (rsp_ongoing c) (cur_cmd_type c) (cmd_buff c) (cmd_data_len c) (bkreg_state c) n (assert_buff c) (log_level c) (echo_enable c).
Definition c_assert l c := mk_cmd (rsp_buff c) (rsp_ongoing c) (cur_cmd_type c) (cmd_buff c) (cmd_data_len c) (bkreg_state c) (bkreg_left_byte c) l (log_level c) (echo_enable c).
Definition c_level n c := mk_cmd (rsp_buff c) (rsp_ongoing c) (cur_cmd_type c) (cmd_buff c) (cmd_data_len c) (bkreg_state c) (bkreg_left_byte c) (assert_buff c) n (echo_enable c).
Definition c_echo b c := mk_cmd (rsp_buff c) (rsp_ongoing c) (cur_cmd_type c) (cmd_buff c) (cmd_data_len c) (bkreg_state c) (bkreg_left_byte c) (assert_buff c) (log_level c) b.

(** ** Tags *)
Definition GET_BLOCK_ID (t : Z) : Z := Z.land t 0xFF.
Definition GET_QUEUE_ID (t : Z) : Z := Z.shiftr (Z.land t 0x0F00) 8.
Definition MAKE_BLOCK_TAG (blk_id q_id : Z) : Z := Z.lor (Z.land blk_id 0xFF) (Z.shiftl (Z.land q_id 0x0F) 8).
Definition RSP_TAG : Z := MAKE_BLOCK_TAG 0 SHELL_RSP_QUEUE_ID.
Definition LOG_HINT_TAG : Z := MAKE_BLOCK_TAG 0 SHELL_ROM_QUEUE_ID.
Definition CMD_HINT_TAG : Z := MAKE_BLOCK_TAG 1 SHELL_ROM_QUEUE_ID.

(** The constant texts, as bytes. *)
Definition shell_fault_str : list Z := [13;10;33;33;115;111;109;101;32;76;79;71;115;32;100;105;115;99;97;114;100;101;100;33;33;13;10].
Definition shell_cmd_ovf_str : list Z := [13;10;33;33;115;111;109;101;32;67;77;68;115;32;108;111;115;116;33;33;13;10].
Definition shell_fault_str_len : Z := 27.

Section Shell.
(** The memory behind the second text; the text of the assertion in front of which
    a tag is found wrong. *)
Context (behind : list Z) (assert_text : Z → Z → list Z).

Definition fq_of (q : nat) (u : shell) : option free_queue_t := free_queue u !! q.
Definition load_buf (u : shell) (p : buf) (i : Z) : option Z :=
  match p with
  | LogBuf q b => match fq_of q u with Some f => log_buf f !! (b * blk_len f + Z.to_nat i)%nat | None => None end
  | RspBuff => rsp_buff (cmd_line_buf u) !! Z.to_nat i
  | FaultStr => (shell_fault_str ++ [0]) !! Z.to_nat i
  | CmdOvfStr => (shell_cmd_ovf_str ++ [0] ++ behind) !! Z.to_nat i
  end.

Definition upd (f : shell → shell) : M st unit := modify (λ s, mk_dst (dev s) (hw s) (f (client s))).
Definition upd_cmd (f : cmd_line_t → cmd_line_t) : M st unit := upd (λ u, s_cmd (f (cmd_line_buf u)) u).
Definition upd_fq (q : nat) (f : free_queue_t) : M st unit := upd (λ u, s_free (<[q := f]> (free_queue u)) u).
Definition getc {A} (f : shell → A) : M st A := gets (λ s, f (client s)).

Definition set_shell_event : M st unit := upd (s_event true).

(** The buffer for direct output: [vsnprintf] leaves out what has no room but gives
    the length that the text would have in full. *)
Definition assert_peek (i : Z) : M st Z :=
  let* c := getc cmd_line_buf in match assert_buff c !! Z.to_nat i with Some b => ret b | None => trapM Fault end.
Definition assert_poke (i : Z) (bs : list Z) : M st unit :=
  let* c := getc cmd_line_buf in
  if (Z.to_nat i + length bs <=? length (assert_buff c))%nat
  then upd_cmd (c_assert (write_at (assert_buff c) (Z.to_nat i) bs)) else trapM Fault.
Definition assert_write (n : Z) : M st unit :=
  let* c := getc cmd_line_buf in
  if (Z.to_nat n <=? length (assert_buff c))%nat
  then let* _ := shell_uart_write_sync (take (Z.to_nat n) (assert_buff c)) in ret tt else trapM Fault.
Definition shell_assert_out (bContinue : bool) (text : list Z) : M st Z :=
  assert_poke 0 (take (SHELL_ASSERT_BUF_LEN - 2) text ++ [0]) ;;;
  assert_write (u16 (Z.of_nat (length text))) ;;;
  if bContinue then ret 1 else trapM Hang.
Definition shell_assert_raw (bContinue : bool) (data : list Z) : M st Z :=
  let* _ := shell_uart_write_sync data in
  if bContinue then ret 1 else trapM Hang.
(** The calls below: the text of the fault, and on. *)
Definition assert_fault (a b : Z) : M st unit := let* _ := shell_assert_out true (assert_text a b) in ret tt.

(** ** Blocks *)
(** The search from queue [q] on, [n] queues left. *)
Fixpoint alloc_loop (n q : nat) (log_len : Z) : M st (option (buf * Z)) :=
  match n with
  | O => ret None
  | S n' =>
      let* fs := getc free_queue in
      match fs !! q with
      | None => trapM Fault
      | Some f =>
          if Z.of_nat (blk_len f) <? log_len then alloc_loop n' (S q) log_len
          else if (0 <? free_blk_num f)%nat then
            let* b := fetch (blk_list f) (fq_out_idx f) in
            upd_fq q (mk_fq (log_buf f) (blk_list f) (blk_num f) (blk_len f) ((fq_out_idx f + 1) mod blk_num f)
                        (fq_in_idx f) (free_blk_num f - 1) (empty_cnt f)) ;;;
            ret (Some (LogBuf q b, MAKE_BLOCK_TAG (Z.of_nat b) (Z.of_nat q)))
          else
            upd_fq q (mk_fq (log_buf f) (blk_list f) (blk_num f) (blk_len f) (fq_out_idx f) (fq_in_idx f)
                        (free_blk_num f) (u32 (empty_cnt f + 1))) ;;;
            alloc_loop n' (S q) log_len
      end
  end.
Definition alloc_log_blk (log_len : Z) : M st (option (buf * Z)) :=
  let* fs := getc free_queue in
  let* r := alloc_loop (length fs) 0 log_len in
  match r with
  | None => upd (λ u, s_counts (u32 (shell_log_overflow u + 1)) (shell_log_count u) u) ;;; ret None
  | Some x => upd (λ u, s_counts (shell_log_overflow u) (u32 (shell_log_count u + 1)) (s_hint false u)) ;;; ret (Some x)
  end.

Definition free_log_blk (block_tag : Z) : M st bool :=
  let q := Z.to_nat (GET_QUEUE_ID block_tag) in
  let b := Z.to_nat (GET_BLOCK_ID block_tag) in
  let* fs := getc free_queue in
  match fs !! q with
  | None => ret false
  | Some f =>
      if (blk_num f <=? b)%nat then ret false
      else
        let* l := store_at (blk_list f) (fq_in_idx f) b in
        upd_fq q (mk_fq (log_buf f) l (blk_num f) (blk_len f) (fq_out_idx f) ((fq_in_idx f + 1) mod blk_num f)
                    (free_blk_num f + 1) (empty_cnt f)) ;;;
        ret true
  end.

(** ** The pending queue *)
Definition push_pending_queue (blk_tag data_len : Z) : M st unit :=
  let* p := getc pending_queue in
  let* l := store_at (packet_list p) (pend_in_idx p) (blk_tag, data_len) in
  upd (s_pend (mk_pend l (pend_out_idx p) ((pend_in_idx p + 1) mod SHELL_LOG_PEND_NUM))).
Definition pull_pending_queue : M st (Z * Z) :=
  let* p := getc pending_queue in
  let* x := fetch (packet_list p) (pend_out_idx p) in
  upd (s_pend (mk_pend (packet_list p) ((pend_out_idx p + 1) mod SHELL_LOG_PEND_NUM) (pend_in_idx p))) ;;;
  ret x.

(** The buffer of a tag; [None] when the tag is wrong. *)
Definition packet_buf (block_tag : Z) : M st (option buf) :=
  let q := GET_QUEUE_ID block_tag in
  let b := GET_BLOCK_ID block_tag in
  let* fs := getc free_queue in
  if q <? Z.of_nat (length fs) then
    match fs !! Z.to_nat q with
    | None => trapM Fault
    | Some f => ret (if b <? Z.of_nat (blk_num f) then Some (LogBuf (Z.to_nat q) (Z.to_nat b)) else None)
    end
  else if q =? SHELL_RSP_QUEUE_ID then
    let* c := getc cmd_line_buf in
    (if negb (rsp_ongoing c) || negb (b =? 0) then assert_fault block_tag 0 else ret tt) ;;;
    ret (Some RspBuff)
  else if q =? SHELL_ROM_QUEUE_ID then
    if b =? 0 then ret (Some FaultStr)
    else if b =? 1 then ret (Some CmdOvfStr)
    else assert_fault b 0 ;;; ret None
  else assert_fault block_tag 0 ;;; ret None.

Definition tx_req_process : M st unit :=
  let* p := getc pending_queue in
  if (pend_out_idx p =? pend_in_idx p)%nat then ret tt
  else
    let* tx_ready := ctrl_get_status in
    if tx_ready =? 0 then ret tt
    else
      let* x := pull_pending_queue in
      let* b := packet_buf x.1 in
      match b with
      | None => ret tt
      | Some _ =>
          let* fs := getc free_queue in
          (if GET_QUEUE_ID x.1 <? Z.of_nat (length fs) then
             let* y := getc log_busy_queue in
             let* l := store_at (busy_blk_list y) (busy_in_idx y) x.1 in
             upd (s_busy (mk_busy l (busy_out_idx y) ((busy_in_idx y + 1) mod SHELL_LOG_BUSY_NUM)))
           else ret tt) ;;;
          let* _ := shell_uart_write_async b x.2 x.1 in
          ret tt
      end.

(** ** The callbacks *)
Definition shell_tx_complete (pbuf : option buf) (buf_tag : Z) : M st unit :=
  let q := GET_QUEUE_ID buf_tag in
  let b := GET_BLOCK_ID buf_tag in
  let* fs := getc free_queue in
  if q =? SHELL_RSP_QUEUE_ID then
    let* c := getc cmd_line_buf in
    (if negb (bool_decide (pbuf = Some RspBuff)) || negb (b =? 0) || negb (rsp_ongoing c)
     then assert_fault 0 0 else ret tt) ;;;
    upd_cmd (c_ongoing false) ;;;
    tx_req_process
  else if q =? SHELL_ROM_QUEUE_ID then
    (if ((b =? 0) && bool_decide (pbuf = Some FaultStr)) || ((b =? 1) && bool_decide (pbuf = Some CmdOvfStr))
     then ret tt else assert_fault buf_tag 0) ;;;
    tx_req_process
  else if q <? Z.of_nat (length fs) then
    match fs !! Z.to_nat q with
    | None => trapM Fault
    | Some f =>
        let* y := getc log_busy_queue in
        let* block_tag := fetch (busy_blk_list y) (busy_out_idx y) in
        if negb (buf_tag =? block_tag) || (Z.of_nat (blk_num f) <=? b) ||
           negb (bool_decide (pbuf = Some (LogBuf (Z.to_nat q) (Z.to_nat b))))
        then assert_fault buf_tag block_tag
        else
          upd (s_busy (mk_busy (busy_blk_list y) ((busy_out_idx y + 1) mod SHELL_LOG_BUSY_NUM) (busy_in_idx y))) ;;;
          let* _ := free_log_blk block_tag in
          tx_req_process
    end
  else assert_fault buf_tag 0.
Definition shell_rx_indicate : M st unit := set_shell_event.

#[export] Instance shell_client : ShellClient shell buf := {|
  load := load_buf; on_tx_complete := shell_tx_complete; on_rx_indicate := shell_rx_indicate |}.

(** ** Output *)
Definition echo_out (bs : list Z) : M st bool :=
  if (length bs =? 0)%nat then ret true
  else let* n := shell_uart_write_echo bs in ret (n =? Z.of_nat (length bs)).

(** [rsp_msg] is [None] when the response is already in the buffer. *)
Definition rsp_out (rsp_msg : option (list Z)) (msg_len : Z) : M st bool :=
  let* c := getc cmd_line_buf in
  let n := match rsp_msg with Some _ => if Z.of_nat (length (rsp_buff c)) <? msg_len then Z.of_nat (length (rsp_buff c)) else msg_len
                            | None => msg_len end in
  match rsp_msg with Some m => upd_cmd (c_rsp (write_at (rsp_buff c) 0 (take (Z.to_nat n) m))) | None => ret tt end ;;;
  upd_cmd (c_ongoing true) ;;;
  push_pending_queue RSP_TAG n ;;;
  tx_req_process ;;;
  ret true.

(** The length is the one of the other text. *)
Definition cmd_hint_out : M st bool :=
  push_pending_queue CMD_HINT_TAG shell_fault_str_len ;;;
  tx_req_process ;;;
  ret true.

(** The flag is tested before interrupts are disabled: another task can come in between
    the two parts. *)
Definition log_hint_test : M st bool := getc fault_hint_print.
Definition log_hint_queue : M st unit :=
  push_pending_queue LOG_HINT_TAG shell_fault_str_len ;;;
  tx_req_process ;;;
  upd (s_hint true).
Definition log_hint_out : M st bool :=
  let* h := log_hint_test in
  if h then ret true else log_hint_queue ;;; ret true.

(** Bytes into a buffer of a pool; outside the pool's memory is a fault. *)
Definition poke (p : buf) (off : nat) (bs : list Z) : M st unit :=
  match p with
  | LogBuf q b =>
      let* fs := getc free_queue in
      match fs !! q with
      | None => trapM Fault
      | Some f =>
          let o := (b * blk_len f + off)%nat in
          if (o + length bs <=? length (log_buf f))%nat then
            upd_fq q (mk_fq (write_at (log_buf f) o bs) (blk_list f) (blk_num f) (blk_len f) (fq_out_idx f)
                        (fq_in_idx f) (free_blk_num f) (empty_cnt f))
          else trapM Fault
      end
  | _ => trapM Fault
  end.

(** The end of every log call. *)
Definition send_log (blk_tag data_len : Z) : M st unit := push_pending_queue blk_tag data_len ;;; tx_req_process.

(** A log whose buffer takes [buf_len] bytes; [fill] makes its bytes. *)
Definition log_with (buf_len : Z) (fill : buf → M st Z) : M st Z :=
  let* a := alloc_log_blk buf_len in
  match a with
  | None => let* _ := log_hint_out in ret 0
  | Some (p, t) => let* n := fill p in send_log t n ;;; ret 1
  end.

Definition shell_log_raw_data (data : option (list Z)) : M st Z :=
  let* ok := getc shell_init_ok in
  if negb ok then ret 0
  else match data with
  | None => ret 0
  | Some d =>
      if (length d =? 0)%nat then ret 0
      else log_with (Z.of_nat (length d)) (λ p, poke p 0 d ;;; ret (Z.of_nat (length d)))
  end.

(** ** Text *)
Definition LOG_LEVEL : Z := 3.
Definition shell_log_check (level : Z) (c : cmd_line_t) : bool := negb (log_level c <? level).
Definition peek (p : buf) (i : Z) : M st Z :=
  let* u := gets client in match load_buf u p i with Some b => ret b | None => trapM Fault end.

(** A newline at the end becomes carriage return and newline. *)
Definition end_of_line (peek : Z → M st Z) (poke : Z → list Z → M st unit) (n : Z) : M st Z :=
  if n =? 0 then ret n
  else
    let* b := peek (n - 1) in
    if negb (b =? 10) then ret n
    else
      let* crlf := (if n =? 1 then ret true else let* a := peek (n - 2) in ret (negb (a =? 13))) in
      if crlf then poke n [10] ;;; poke (n - 1) [13] ;;; ret (u16 (n + 1)) else ret n.

(** [text] is what vsnprintf formats; it returns the length before truncation. *)
Definition shell_log_out_direct (text : list Z) : M st Z :=
  let data_len := u16 (Z.of_nat (length text)) in
  assert_poke 0 (take (SHELL_ASSERT_BUF_LEN - 2) text ++ [0]) ;;;
  let* n := end_of_line assert_peek assert_poke data_len in
  assert_write n ;;;
  ret 1.

(** [mod_name]: the memory from the module's name on. *)
Definition put_mod_name (p : buf) (mod_name : option (list Z)) : M st Z :=
  match mod_name with
  | None => ret 0
  | Some m =>
      if (length m <? MOD_NAME_LEN)%nat then trapM Fault
      else
        let name := take MOD_NAME_LEN m in
        poke p 0 name ;;;
        poke p MOD_NAME_LEN [0] ;;;
        poke p (strlen name) [58] ;;;
        poke p (S (strlen name)) [0] ;;;
        ret (Z.of_nat (S (strlen name)))
  end.
Definition fill_text (mod_name : option (list Z)) (text : list Z) (buf_len : Z) (p : buf) : M st Z :=
  let* log_len := put_mod_name p mod_name in
  poke p (Z.to_nat log_len) (take (Z.to_nat (buf_len - log_len - 1)) text ++ [0]) ;;;
  let log_len := u16 (log_len + Z.of_nat (length text)) in
  end_of_line (peek p) (λ i, poke p (Z.to_nat i)) log_len.
Definition shell_log_out_port (level : Z) (mod_name : option (list Z)) (text : list Z) : M st unit :=
  let* ok := getc shell_init_ok in
  if negb ok then
    upd_cmd (c_level LOG_LEVEL) ;;;
    let* _ := shell_log_out_direct text in ret tt
  else
    let* c := getc cmd_line_buf in
    if negb (shell_log_check (u8 level) c) then ret tt
    else
      let buf_len := u16 (Z.of_nat (length text) + 1) in
      let buf_len := match mod_name with Some _ => u16 (buf_len + Z.of_nat MOD_NAME_LEN + 2) | None => buf_len end in
      let* _ := log_with buf_len (fill_text mod_name text buf_len) in
      ret tt.
Definition shell_log_out (level : Z) (mod_name : option (list Z)) (text : list Z) : M st Z :=
  let* ok := getc shell_init_ok in
  if negb ok then ret 0
  else
    let* c := getc cmd_line_buf in
    if negb (shell_log_check (u8 level) c) then ret 0
    else shell_log_out_port level mod_name text ;;; ret 1.

(** ** Binary logs *)
(** What is appended in a room of [buf_len] bytes; [cnt] counts it. *)
Fixpoint escape_loop (buf_len cnt : Z) (data : list Z) : list Z :=
  match data with
  | [] => []
  | b :: data' =>
      if (b =? HEX_SYNC_CHAR) || (b =? HEX_ESC_CHAR) then
        if cnt <? buf_len - 1 then HEX_ESC_CHAR :: Z.lxor b HEX_MOD_CHAR :: escape_loop buf_len (cnt + 2) data'
        else escape_loop buf_len cnt data'
      else if cnt <? buf_len then b :: escape_loop buf_len (cnt + 1) data'
      else escape_loop buf_len cnt data'
  end.
Definition append_link_data_byte (p : buf) (off buf_len : Z) (data : list Z) : M st Z :=
  let bs := escape_loop (u16 buf_len) 0 data in
  (if (0 <? length bs)%nat then poke p (Z.to_nat off) bs else ret tt) ;;; ret (Z.of_nat (length bs)).
Definition u16_bytes (w : Z) : list Z := [w mod 256; (w / 256) mod 256].

(** The fields of a frame one after the other, from [off] on. *)
Fixpoint append_fields (p : buf) (off buf_len : Z) (fields : list (list Z)) : M st Z :=
  match fields with
  | [] => ret off
  | f :: fields' => let* n := append_link_data_byte p off (buf_len - off) f in append_fields p (u16 (off + n)) buf_len fields'
  end.
Definition fill_frame (buf_len : Z) (fields : list (list Z)) (p : buf) : M st Z :=
  poke p 0 [HEX_SYNC_CHAR] ;;;
  let* n := append_fields p 1 buf_len fields in
  poke p (Z.to_nat n) [HEX_SYNC_CHAR] ;;;
  ret (u16 (n + 1)).

(** [now] is the system time; [args] are the arguments after their number. *)
Definition trace_fields (trace_id now arg_num : Z) (args : list Z) : list (list Z) :=
  u16_bytes trace_id :: le_bytes now :: (le_bytes <$> take (Z.to_nat (Z.min arg_num MAX_TRACE_ARGS)) args).
Definition shell_trace_out (now trace_id arg_num : Z) (args : list Z) : M st Z :=
  let* ok := getc shell_init_ok in
  if negb ok then ret 0
  else
    let n := Z.min arg_num MAX_TRACE_ARGS + 1 in
    let buf_len := u16 ((2 + n * 4) * 2 + 2) in
    log_with buf_len (fill_frame buf_len (trace_fields trace_id now arg_num args)).
Definition shell_spy_out (now spy_id : Z) (data : list Z) : M st Z :=
  let* ok := getc shell_init_ok in
  if negb ok then ret 0
  else
    let buf_len := u16 ((2 + 4 + Z.of_nat (length data)) * 2 + 2) in
    log_with buf_len (fill_frame buf_len [u16_bytes spy_id; le_bytes now; data]).

(** ** Command input *)
(** What the loop of [rx_ind_process] keeps over a call. *)
Record rx := mk_rx { cmd_rx_done : bool; need_backspace : bool; echo_len : nat }.

Definition put_cmd_byte (b : Z) (c : cmd_line_t) : cmd_line_t :=
  if cmd_data_len c <? Z.of_nat (length (cmd_buff c))
  then c_data (<[Z.to_nat (cmd_data_len c) := b]> (cmd_buff c)) (u8 (cmd_data_len c + 1)) c else c.

(** No command yet: a printable character starts a text, 01 E0 FC a register command. *)
Definition rx_start (b : Z) (c : cmd_line_t) : nat * cmd_line_t :=
  if (0x20 <=? b) && (b <? 0x7f) then (1%nat, put_cmd_byte b (c_data (cmd_buff c) 0 (c_type CMD_TYPE_TEXT c)))
  else match bkreg_state c with
  | BKREG_WAIT_01 => (1%nat, if b =? 0x01 then c_bkreg BKREG_WAIT_E0 c else c)
  | BKREG_WAIT_E0 => (1%nat, if b =? 0xE0 then c_bkreg BKREG_WAIT_FC c else if negb (b =? 0x01) then c_bkreg BKREG_WAIT_01 c else c)
  | BKREG_WAIT_FC =>
      if b =? 0xFC then (0%nat, c_data (write_at (cmd_buff c) 0 [0x01; 0xE0; 0xFC]) 3 (c_type CMD_TYPE_BKREG c))
      else (1%nat, if negb (b =? 0x01) then c_bkreg BKREG_WAIT_01 c else c_bkreg BKREG_WAIT_E0 c)
  end.

Definition rx_text (b : Z) (x : rx) (c : cmd_line_t) : rx * cmd_line_t :=
  let n := cmd_data_len c in
  if b =? 8 then
    if 0 <? n then (mk_rx (cmd_rx_done x) (if n - 1 =? 0 then true else need_backspace x) 1, c_data (cmd_buff c) (n - 1) c)
    else (mk_rx (cmd_rx_done x) (need_backspace x) 1, c)
  else if (b =? 10) || (b =? 13) then
    let i := if n <? Z.of_nat (length (cmd_buff c)) then n else n - 1 in
    (mk_rx true (need_backspace x) 1, c_data (<[Z.to_nat i := 0]> (cmd_buff c)) n c)
  else (mk_rx (cmd_rx_done x) (need_backspace x) 1, if 0x20 <=? b then put_cmd_byte b c else c).

Definition rx_bkreg (b : Z) (x : rx) (c : cmd_line_t) : rx * cmd_line_t :=
  let c := if cmd_data_len c =? 3 then c_left (u8 (b + 1)) c else c in
  if (cmd_data_len c =? 3) && (Z.of_nat (length (cmd_buff c)) <=? bkreg_left_byte c + 3)
  then (mk_rx true (need_backspace x) 0, c_data (cmd_buff c) 0 c)
  else
    let c := put_cmd_byte b c in
    let c := c_left (u8 (bkreg_left_byte c - 1)) c in
    (mk_rx (bkreg_left_byte c =? 0) (need_backspace x) 0, c).

Definition rx_byte (b : Z) (x : rx) (c : cmd_line_t) : rx * cmd_line_t :=
  match cur_cmd_type c with
  | CMD_TYPE_INVALID => let r := rx_start b c in (mk_rx (cmd_rx_done x) (need_backspace x) r.1, r.2)
  | CMD_TYPE_TEXT => rx_text b x c
  | CMD_TYPE_HEX => (mk_rx (cmd_rx_done x) (need_backspace x) 0, c)
  | CMD_TYPE_BKREG => rx_bkreg b x c
  end.

(** The echo of the byte [b]. *)
Definition rx_echo (b : Z) (x : rx) : M st unit :=
  let* c := getc cmd_line_buf in
  if cmd_rx_done x then
    if bool_decide (cur_cmd_type c = CMD_TYPE_BKREG) || negb (echo_enable c) then ret tt
    else let* _ := echo_out (take (echo_len x) [b]) in let* _ := echo_out [13; 10] in ret tt
  else if bool_decide (cur_cmd_type c = CMD_TYPE_BKREG) ||
          (bool_decide (cur_cmd_type c = CMD_TYPE_INVALID) && negb (bool_decide (bkreg_state c = BKREG_WAIT_01))) then ret tt
  else if negb (echo_enable c) then ret tt
  else if (echo_len x =? 0)%nat then ret tt
  else if (b =? 8) || (b =? 0x7f) then
    if (0 <? cmd_data_len c) || need_backspace x then let* _ := echo_out [8; 32; 8] in ret tt else ret tt
  else if (b =? 13) || (b =? 10) then let* _ := echo_out [13; 10; 35] in ret tt
  else let* _ := echo_out [b] in ret tt.

(** The loop reads one byte at a time, through the response buffer; the result is
    whether a command is complete and whether bytes may be left. *)
Fixpoint rx_ind_loop (fuel : nat) (x : rx) : M st (rx * bool) :=
  match fuel with
  | O => trapM Hang
  | S fuel' =>
      let* r := shell_uart_read 1 in
      match r with
      | b :: _ =>
          let* c := getc cmd_line_buf in
          let y := rx_byte b x (c_rsp (<[0%nat := b]> (rsp_buff c)) c) in
          upd_cmd (λ _, y.2) ;;;
          rx_echo b y.1 ;;;
          if cmd_rx_done y.1 then ret (y.1, true) else rx_ind_loop fuel' y.1
      | [] => ret (x, false)
      end
  end.

(** [handle] is [handle_shell_input]: what it makes of the command buffer, of which it
    is given the length of the line, and of the response buffer; [bkreg_run] is
    [bkreg_run_command]. *)
Definition run_text (handle : list Z → Z → list Z → list Z * list Z) : M st unit :=
  let* rx_ovf := ctrl_get_rx_status in
  (if rx_ovf : bool then let* _ := cmd_hint_out in ret tt else ret tt) ;;;
  upd_cmd (λ c, c_rsp (<[0%nat := 0]> (rsp_buff c)) c) ;;;
  upd_cmd (λ c, if 0 <? cmd_data_len c
                then let r := handle (cmd_buff c) (cmd_data_len c) (rsp_buff c) in c_rsp r.2 (c_data r.1 (cmd_data_len c) c)
                else c) ;;;
  upd_cmd (λ c, c_rsp (<[(SHELL_RSP_BUF_LEN - 4)%nat := 0]> (rsp_buff c)) c) ;;;
  let* c := getc cmd_line_buf in
  let n := Nat.min (strlen (rsp_buff c)) (SHELL_RSP_BUF_LEN - 4) in
  upd_cmd (λ c, c_rsp (write_at (rsp_buff c) n [13; 10; 35; 0]) c) ;;;
  let* _ := rsp_out None (Z.of_nat (n + 3)) in ret tt.

Definition rx_ind_process (handle : list Z → Z → list Z → list Z * list Z) (bkreg_run : list Z → M st unit) : M st unit :=
  let* c := getc cmd_line_buf in
  if rsp_ongoing c then set_shell_event
  else
    let* e := gets dev in
    let* r := rx_ind_loop (S (S (length (rx_buff e)))) (mk_rx false false 0) in
    (if r.2 then set_shell_event else ret tt) ;;;
    if negb (cmd_rx_done r.1) then ret tt
    else
      let* c := getc cmd_line_buf in
      match cur_cmd_type c with
      | CMD_TYPE_TEXT => run_text handle
      | CMD_TYPE_BKREG =>
          if 3 <? cmd_data_len c then bkreg_run (take (Z.to_nat (cmd_data_len c)) (cmd_buff c)) else ret tt
      | CMD_TYPE_HEX | CMD_TYPE_INVALID => ret tt
      end ;;;
      upd_cmd (λ c, c_bkreg BKREG_WAIT_01 (c_data (cmd_buff c) 0 (c_type CMD_TYPE_INVALID c))).

(** ** Start *)
Definition fresh_queue (num blk_len : nat) (f : free_queue_t) : free_queue_t :=
  mk_fq (log_buf f) (seq 0 num) num blk_len (fq_out_idx f) (fq_in_idx f) (free_blk_num f) (empty_cnt f).
Definition shell_task_init : M st unit :=
  upd (λ u, s_free (zip_with (λ n f, fresh_queue n.1 n.2 f)
              [(SHELL_LOG_BUF3_NUM, SHELL_LOG_BUF3_LEN); (SHELL_LOG_BUF2_NUM, SHELL_LOG_BUF2_LEN); (SHELL_LOG_BUF1_NUM, SHELL_LOG_BUF1_LEN)]
              (free_queue u)) u) ;;;
  upd (s_busy (mk_busy (replicate SHELL_LOG_BUSY_NUM 0) 0 0)) ;;;
  upd (s_pend (mk_pend (replicate SHELL_LOG_PEND_NUM (0, 0)) 0 0)) ;;;
  upd_cmd (λ c, c_echo true (c_level LOG_LEVEL (c_bkreg BKREG_WAIT_01 (c_data (cmd_buff c) 0 (c_type CMD_TYPE_INVALID (c_ongoing false c)))))) ;;;
  let* _ := shell_uart_init in
  let* _ := shell_uart_open true true in
  upd (s_init true).

(** The task: its start, and a round of its loop when it is woken up or not. *)
Definition shell_task_start : M st unit := shell_task_init ;;; let* _ := echo_out [13; 10; 35] in ret tt.
Definition shell_task_round (handle : list Z → Z → list Z → list Z * list Z) (bkreg_run : list Z → M st unit) : M st unit :=
  let* ev := getc shell_semaphore in
  if ev : bool then upd (s_event false) ;;; rx_ind_process handle bkreg_run else ret tt.

(** ** Settings *)
Definition shell_echo_set (en_flag : Z) : M st unit := upd_cmd (c_echo (negb (en_flag =? 0))).
Definition shell_echo_get : M st Z := let* c := getc cmd_line_buf in ret (if echo_enable c then 1 else 0).
Definition shell_set_log_level (level : Z) : M st unit := upd_cmd (c_level (u8 level)).
Definition shell_get_log_level : M st Z := let* c := getc cmd_line_buf in ret (log_level c).
Definition shell_get_log_statist (num : nat) : M st (list Z) :=
  let* u := gets client in
  ret (take num ([shell_log_overflow u; shell_log_count u] ++ (empty_cnt <$> take 3 (free_queue u)))).

(** [rooms] is the room that the flush finds at the port, round by round;
    [printf_port] is the port that the serial driver prints to, and the result. *)
Definition UART_ID_MAX : Z := 3.
Definition shell_log_flush (fuel : nat) (rooms : list nat) : M st unit := shell_uart_flush fuel rooms.
Definition shell_set_uart_port (fuel : nat) (rooms : list nat) (printf_port uart_port : Z) : M st Z :=
  if negb (printf_port =? uart_port) && (uart_port <? UART_ID_MAX) then
    shell_log_flush fuel rooms ;;;
    let* _ := shell_uart_close in
    ctrl_set_uart_port uart_port ;;;
    let* _ := shell_uart_init in
    let* _ := shell_uart_open true true in
    ret uart_port
  else ret printf_port.
End Shell.
End ShellTask.
