(* ===== verification/ShellOps.v ===== *)
(** * The shell's log path is a lossless queue

    Every entry that waits or is being sent, the blocks that tasks hold, and the
    free blocks, related to the rings of ShellTask.v and ShellUart.v; the effect of
    each part of the code on them; and the theorems over any interleaving of tasks
    and interrupts: every byte that was handed in is sent once and in order, every
    block is in one place, no ring is overrun, and everything is sent in the end. *)
From S2P Require Import Prelude Bytes Ring ShellUart ShellTask.
Import ShellTask.
Local Open Scope Z_scope.

Module ShellOps.

(** ** Entries *)
Inductive entry := ELog (q b : nat) | ERsp | EHint | ECmd.
#[export] Instance entry_eq : EqDecision entry.
Proof. solve_decision. Defined.
Definition item := (entry * Z)%type.

Definition tag_of (e : entry) : Z :=
  match e with
  | ELog q b => MAKE_BLOCK_TAG (Z.of_nat b) (Z.of_nat q)
  | ERsp => RSP_TAG | EHint => LOG_HINT_TAG | ECmd => CMD_HINT_TAG
  end.
Definition buf_of (e : entry) : buf :=
  match e with ELog q b => LogBuf q b | ERsp => RspBuff | EHint => FaultStr | ECmd => CmdOvfStr end.
Definition pkt_of (x : item) : dev_tx_packet_t buf := mk_pkt (Some (buf_of x.1)) x.2 (tag_of x.1).
Definition pend_of (x : item) : Z * Z := (tag_of x.1, x.2).

(** The pools' dimensions. *)
Definition dims : list (nat * nat) :=
  [(SHELL_LOG_BUF3_NUM, SHELL_LOG_BUF3_LEN); (SHELL_LOG_BUF2_NUM, SHELL_LOG_BUF2_LEN); (SHELL_LOG_BUF1_NUM, SHELL_LOG_BUF1_LEN)].
Definition num_of (q : nat) : nat := (nth q dims (0, 0)%nat).1.
Definition len_of (q : nat) : nat := (nth q dims (0, 0)%nat).2.

Definition is_log (e : entry) : bool := match e with ELog _ _ => true | _ => false end.
Definition valid (e : entry) : Prop := match e with ELog q b => (q < 3)%nat ∧ (b < num_of q)%nat | _ => True end.

Lemma num_small q : (num_of q ≤ 64)%nat.
Proof. by destruct q as [|[|[|q]]]; [vm_compute; lia..|destruct q; vm_compute; lia]. Qed.

Lemma tag_ids e : valid e →
  match e with
  | ELog q b => GET_QUEUE_ID (tag_of e) = Z.of_nat q ∧ GET_BLOCK_ID (tag_of e) = Z.of_nat b
  | ERsp => GET_QUEUE_ID (tag_of e) = SHELL_RSP_QUEUE_ID ∧ GET_BLOCK_ID (tag_of e) = 0
  | EHint => GET_QUEUE_ID (tag_of e) = SHELL_ROM_QUEUE_ID ∧ GET_BLOCK_ID (tag_of e) = 0
  | ECmd => GET_QUEUE_ID (tag_of e) = SHELL_ROM_QUEUE_ID ∧ GET_BLOCK_ID (tag_of e) = 1
  end.
Proof.
  destruct e as [q b| | |]; try done. intros [Hq Hb]. pose proof (num_small q) as N.
  assert (T : forallb (λ x, (GET_QUEUE_ID (MAKE_BLOCK_TAG x.2 x.1) =? x.1) && (GET_BLOCK_ID (MAKE_BLOCK_TAG x.2 x.1) =? x.2))
                (list_prod (seqZ 0 3) (seqZ 0 64)) = true) by (vm_compute; reflexivity).
  rewrite forallb_forall in T. specialize (T (Z.of_nat q, Z.of_nat b)). rewrite in_prod_iff, <-!list_elem_of_In, !elem_of_seqZ in T.
  specialize (T ltac:(lia)). cbn [fst snd] in T. zb. by split.
Qed.

(** ** Blocks *)
Definition blocks_of (q : nat) (es : list entry) : list nat :=
  omap (λ e, match e with ELog q' b => if decide (q' = q) then Some b else None | _ => None end) es.
Lemma blocks_app q es es' : blocks_of q (es ++ es') = blocks_of q es ++ blocks_of q es'.
Proof. apply omap_app. Qed.
#[global] Instance blocks_perm q : Proper ((≡ₚ) ==> (≡ₚ)) (blocks_of q).
Proof. intros es es' E. unfold blocks_of. by rewrite E. Qed.

(** Pool [q] with the blocks [used] out. *)
Record pool_ok (q : nat) (f : free_queue_t) (used : list nat) : Prop := {
  po_num : blk_num f = num_of q;
  po_len : blk_len f = len_of q;
  po_list : length (blk_list f) = num_of q;
  po_buf : length (log_buf f) = (num_of q * len_of q)%nat;
  po_free : ∃ free, ring (blk_list f) (fq_out_idx f) (fq_in_idx f) free ∧ free_blk_num f = length free ∧
    free ++ used ≡ₚ seq 0 (num_of q) }.

Lemma pool_ok_perm q f used used' : used ≡ₚ used' → pool_ok q f used → pool_ok q f used'.
Proof. intros E [A B C D (free & R & N & Pm)]. split; try done. exists free. split_and!; [done|done|by rewrite <-E]. Qed.
Lemma pool_used q f used : pool_ok q f used → (length used ≤ num_of q)%nat ∧ NoDup used ∧ Forall (λ b, b < num_of q)%nat used.
Proof.
  intros [_ _ _ _ (free & _ & _ & Pm)]. pose proof (Permutation_length Pm) as L. rewrite length_app, length_seq in L.
  assert (ND : NoDup (free ++ used)) by (rewrite Pm; apply NoDup_seq). apply NoDup_app in ND as (_ & _ & ND).
  split_and!; [lia|done|]. apply Forall_forall. intros b Hb.
  assert (b ∈ seq 0 (num_of q)) as Hs by (rewrite <-Pm; set_solver). apply elem_of_seq in Hs. lia.
Qed.

(** Memory behind an entry. *)
Section Core.
Context (behind : list Z) (assert_text : Z → Z → list Z).
Local Abbreviation ld := (load_buf behind).
Implicit Types (s : st) (u : shell) (H : list entry) (D A P : list item) (x : item).

(** The memory behind an entry. *)
Definition blk u (q b : nat) : list Z :=
  match free_queue u !! q with Some f => sub (log_buf f) (b * blk_len f) (blk_len f) | None => [] end.
Definition mem u (e : entry) : list Z :=
  match e with
  | ELog q b => blk u q b
  | ERsp => rsp_buff (cmd_line_buf u)
  | EHint => shell_fault_str ++ [0]
  | ECmd => shell_cmd_ovf_str ++ [0] ++ behind
  end.
Lemma load_mem u e i : 0 ≤ i < Z.of_nat (length (mem u e)) → ld u (buf_of e) i = mem u e !! Z.to_nat i.
Proof.
  destruct e as [q b| | |]; try done. cbn [buf_of load_buf mem]. unfold blk, fq_of. intros Hi. destruct (free_queue u !! q) as [f|] eqn:E; [|by cbn in Hi; lia].
  unfold sub in *. rewrite length_take, length_drop in Hi. rewrite lookup_take_lt by lia. by rewrite lookup_drop.
Qed.

Definition fits u x : Prop := 0 ≤ x.2 < 2 ^ 16 ∧ x.2 ≤ Z.of_nat (length (mem u x.1)).
Definition bytes u x : list Z := take (Z.to_nat x.2) (mem u x.1).

Record dev_ok (e : shell_uart_ext_t buf) D : Prop := {
  do_len : length (tx_list e) = TX_QUEUE_LEN;
  do_ring : ring (tx_list e) (list_out_idx e) (list_in_idx e) (pkt_of <$> D);
  do_less : (length D < TX_QUEUE_LEN)%nat }.

Lemma fits_load u u' x : (∀ e, mem u' e = mem u e) → fits u x → fits u' x.
Proof. intros E [R F]. split; [done|]. by rewrite E. Qed.
Lemma bytes_load u u' x : (∀ e, mem u' e = mem u e) → bytes u' x = bytes u x.
Proof. intros E. unfold bytes. by rewrite E. Qed.

(** The rings of the client and of the device: [H] the entries held by tasks, [D]
    the device's queue, [A] what of it still counts (a packet whose completion is
    being handled does not), [P] the pending ones. *)
Record core s H D A P : Prop := {
  co_valid : Forall valid (H ++ A.*1 ++ P.*1);
  co_held : Forall (λ e, is_log e = true) H;
  co_three : length (free_queue (client s)) = 3%nat;
  co_pools : ∀ q f, free_queue (client s) !! q = Some f → pool_ok q f (blocks_of q (H ++ A.*1 ++ P.*1));
  co_busy : let y := log_busy_queue (client s) in
    length (busy_blk_list y) = SHELL_LOG_BUSY_NUM ∧
    ring (busy_blk_list y) (busy_out_idx y) (busy_in_idx y) (tag_of <$> filter (λ e, is_log e = true) A.*1);
  co_pend : let p := pending_queue (client s) in
    length (packet_list p) = SHELL_LOG_PEND_NUM ∧ ring (packet_list p) (pend_out_idx p) (pend_in_idx p) (pend_of <$> P) ∧
    (length P < SHELL_LOG_PEND_NUM)%nat;
  co_dev : dev_ok (dev s) D;
  co_less : (length A ≤ length D)%nat;
  co_fits : Forall (fits (client s)) (A ++ P);
  co_rsp : ERsp ∈ A.*1 ++ P.*1 → rsp_ongoing (cmd_line_buf (client s)) = true }.

Lemma busy_le A : (length (filter (λ e, is_log e = true) A.*1) ≤ length A)%nat.
Proof. etrans; [apply length_filter|]. by rewrite length_fmap. Qed.

(** What the queue operations leave alone. *)
Record same s s' : Prop := {
  sm_load : ∀ e, mem (client s') e = mem (client s) e;
  sm_cmd : cmd_line_buf (client s') = cmd_line_buf (client s);
  sm_hint : fault_hint_print (client s') = fault_hint_print (client s);
  sm_init : shell_init_ok (client s') = shell_init_ok (client s);
  sm_out : tx_out (hw s') = tx_out (hw s);
  sm_room : tx_room (hw s') = tx_room (hw s);
  sm_cur : cur_packet (dev s') = cur_packet (dev s) ∧ packet_len (dev s') = packet_len (dev s) ∧
           packet_tag (dev s') = packet_tag (dev s) ∧ packet_tx_len (dev s') = packet_tx_len (dev s);
  sm_echo : echo_buff (dev s') = echo_buff (dev s) ∧ echo_wr_idx (dev s') = echo_wr_idx (dev s) ∧ echo_rd_idx (dev s') = echo_rd_idx (dev s);
  sm_rx : rx_buff (dev s') = rx_buff (dev s) ∧ rx_buff_wr_idx (dev s') = rx_buff_wr_idx (dev s) ∧ rx_buff_rd_idx (dev s') = rx_buff_rd_idx (dev s);
  sm_cb : tx_complete_callback (dev s') = tx_complete_callback (dev s) }.
Lemma same_refl s : same s s.
Proof. by split. Qed.
Lemma same_trans s1 s2 s3 : same s1 s2 → same s2 s3 → same s1 s3.
Proof.
  intros [] []. split; try congruence; try (intros e; congruence); destruct_and?; split_and?; congruence.
Qed.

(** The transmit interrupt is on exactly while there is something to send. *)
Definition live s : Prop := tx_int (hw s) = negb (tx_stopped (dev s)).

Lemma fetch_run {B} (l : list B) i (x : B) s : l !! i = Some x → fetch l i s = Done (x, s).
Proof. unfold fetch. by intros ->. Qed.
Lemma store_run {B} (l : list B) i (x : B) s : (i < length l)%nat → store_at l i x s = Done (<[i := x]> l, s).
Proof. intros L. unfold store_at. by rewrite (proj2 (Nat.ltb_lt _ _)). Qed.

Lemma dev_free s D : dev_ok (dev s) D →
  ring_free TX_QUEUE_LEN (list_out_idx (dev s)) (list_in_idx (dev s)) = (8 - length D)%nat.
Proof.
  intros [L R Lt]. rewrite <-L.
  rewrite (ring_free_ok _ _ _ _ R) by (by rewrite length_fmap, L). by rewrite length_fmap, L.
Qed.
Lemma status_run s D : dev_ok (dev s) D →
  ctrl_get_status s = Done ((if (length D <? 7)%nat then Z.of_nat (7 - length D) else 0), s).
Proof.
  intros C. unfold ctrl_get_status. rewrite (bind_done (gets dev) _ s (dev s) s), (dev_free _ _ C) by done. unfold ret.
  destruct (Nat.ltb_spec 1 (8 - length D)), (Nat.ltb_spec (length D) 7); try lia; do 2 f_equal; lia.
Qed.

Definition triggered s : st :=
  if tx_stopped (dev s)
  then mk_dst (e_stopped false (dev s)) (mk_port (tx_room (hw s)) (tx_out (hw s)) true (rx_fifo (hw s)) (rx_int (hw s))) (client s)
  else s.
Lemma trigger_run s : shell_uart_tx_trigger s = Done (tt, triggered s).
Proof.
  unfold shell_uart_tx_trigger, triggered. rewrite (bind_done (gets dev) _ s (dev s) s) by done.
  destruct (tx_stopped (dev s)) eqn:E; cbn [negb]; [|done]. done.
Qed.
Lemma triggered_ok s : same s (triggered s) ∧ client (triggered s) = client s ∧ tx_stopped (dev (triggered s)) = false ∧
  (live s → live (triggered s)) ∧ tx_list (dev (triggered s)) = tx_list (dev s) ∧
  list_out_idx (dev (triggered s)) = list_out_idx (dev s) ∧ list_in_idx (dev (triggered s)) = list_in_idx (dev s).
Proof. unfold triggered, live. destruct (tx_stopped (dev s)) eqn:E; split_and!; try done; try (by split); intros Hl; by rewrite E. Qed.

(** Queueing a packet at the device. *)
Lemma async_run s D p n t : dev_ok (dev s) D → (length D < 7)%nat → live s →
  ∃ s', shell_uart_write_async (Some p) n t s = Done (1, s') ∧ client s' = client s ∧ same s s' ∧ live s' ∧
    tx_stopped (dev s') = false ∧ length (tx_list (dev s')) = TX_QUEUE_LEN ∧
    ring (tx_list (dev s')) (list_out_idx (dev s')) (list_in_idx (dev s')) ((pkt_of <$> D) ++ [mk_pkt (Some p) n t]).
Proof.
  intros C Lt Lv. pose proof C as [L R _]. unfold shell_uart_write_async.
  rewrite (bind_done (gets dev) _ s (dev s) s), (dev_free _ _ C), (proj2 (Nat.ltb_lt _ _)) by (lia || done).
  rewrite (bind_done _ _ _ _ _ (store_run _ _ (mk_pkt (Some p) n t) s (ring_in_lt _ _ _ _ R))).
  pose proof (ring_push _ _ _ _ (mk_pkt (Some p) n t) R ltac:(rewrite length_fmap, L; unfold TX_QUEUE_LEN; lia)) as R'. rewrite L in R'.
  set (s1 := mk_dst (e_queue (<[list_in_idx (dev s) := mk_pkt (Some p) n t]> (tx_list (dev s))) (list_out_idx (dev s))
    ((list_in_idx (dev s) + 1) mod TX_QUEUE_LEN) (dev s)) (hw s) (client s)).
  rewrite (bind_done (upd_dev _) _ s tt s1), (bind_done _ _ _ _ _ (trigger_run s1)) by done.
  exists (triggered s1). destruct (triggered_ok s1) as (Sm & Ec & Es & El & -> & -> & ->).
  split_and!; [done|done|by apply (same_trans _ s1)|by apply El|done|cbn; by rewrite length_insert|exact R'].
Qed.

(** The buffer of a queued entry. *)
Lemma packet_buf_run s e : valid e → length (free_queue (client s)) = 3%nat →
  (∀ q f, free_queue (client s) !! q = Some f → blk_num f = num_of q) →
  (e = ERsp → rsp_ongoing (cmd_line_buf (client s)) = true) →
  packet_buf assert_text (tag_of e) s = Done (Some (buf_of e), s).
Proof.
  intros V L3 N Rs. pose proof (tag_ids e V) as T. unfold packet_buf, getc.
  rewrite (bind_done (gets _) _ s (free_queue (client s)) s), L3 by done. destruct e as [q b| | |]; destruct T as [-> ->].
  - destruct V as [Hq Hb]. rewrite (proj2 (Z.ltb_lt _ _)), Nat2Z.id by lia.
    destruct (lookup_lt_is_Some_2 (free_queue (client s)) q) as [f Hf]; [lia|]. rewrite Hf, (N q f Hf).
    rewrite (proj2 (Z.ltb_lt _ _)), Nat2Z.id by lia. done.
  - change (SHELL_RSP_QUEUE_ID <? Z.of_nat 3) with false. change (SHELL_RSP_QUEUE_ID =? SHELL_RSP_QUEUE_ID) with true. cbv iota.
    rewrite (bind_done (gets _) _ s (cmd_line_buf (client s)) s), (Rs eq_refl) by done. done.
  - done.
  - done.
Qed.

(** Sending the next pending entry, when there is one and the device has room. *)
Lemma process_idle s H D A P : core s H D A P → P = [] ∨ length D = 7%nat → tx_req_process assert_text s = Done (tt, s).
Proof.
  intros C HP. destruct (co_pend _ _ _ _ _ C) as (Lp & Rp & Lt). unfold tx_req_process, getc.
  rewrite (bind_done (gets _) _ s (pending_queue (client s)) s) by done.
  destruct (Nat.eqb_spec (pend_out_idx (pending_queue (client s))) (pend_in_idx (pending_queue (client s)))) as [E|N]; [done|].
  destruct HP as [->|E7].
  - exfalso. apply N. by apply (ring_empty_iff _ _ _ _ Rp); [rewrite Lp|].
  - rewrite (bind_done _ _ _ _ _ (status_run _ _ (co_dev _ _ _ _ _ C))), (proj2 (Nat.ltb_ge _ _)) by lia. done.
Qed.

(** Taking an entry off the pending queue, and noting a block as busy. *)
Lemma pull_run s H D A x P : core s H D A (x :: P) →
  ∃ p, pull_pending_queue s = Done (pend_of x, mk_dst (dev s) (hw s) (s_pend p (client s))) ∧
    length (packet_list p) = SHELL_LOG_PEND_NUM ∧ ring (packet_list p) (pend_out_idx p) (pend_in_idx p) (pend_of <$> P).
Proof.
  intros C. destruct (co_pend _ _ _ _ _ C) as (Lp & Rp & _). destruct (ring_pop _ _ _ _ _ Rp) as [Fx Rp']. rewrite Lp in Rp'.
  unfold pull_pending_queue, getc.
  rewrite (bind_done (gets _) _ s (pending_queue (client s)) s), (bind_done _ _ _ _ _ (fetch_run _ _ _ s Fx)) by done.
  eexists. split; [reflexivity|]. by split.
Qed.

Definition note_busy (t : Z) : M st unit :=
  if GET_QUEUE_ID t <? Z.of_nat 3 then
    let* y := getc log_busy_queue in
    let* l := store_at (busy_blk_list y) (busy_in_idx y) t in
    upd (s_busy (mk_busy l (busy_out_idx y) ((busy_in_idx y + 1) mod SHELL_LOG_BUSY_NUM)))
  else ret tt.
Lemma busy_run s1 x A : valid x.1 → (length A < 7)%nat →
  let y := log_busy_queue (client s1) in
  length (busy_blk_list y) = SHELL_LOG_BUSY_NUM →
  ring (busy_blk_list y) (busy_out_idx y) (busy_in_idx y) (tag_of <$> filter (λ e, is_log e = true) A.*1) →
  ∃ y2, note_busy (tag_of x.1) s1 = Done (tt, mk_dst (dev s1) (hw s1) (s_busy y2 (client s1))) ∧
    length (busy_blk_list y2) = SHELL_LOG_BUSY_NUM ∧
    ring (busy_blk_list y2) (busy_out_idx y2) (busy_in_idx y2) (tag_of <$> filter (λ e, is_log e = true) (A ++ [x]).*1).
Proof.
  intros Vx Lt y Ly Ry. subst y. unfold note_busy, getc. pose proof (tag_ids x.1 Vx) as T.
  rewrite fmap_app, filter_app, fmap_app. cbn [fmap list_fmap].
  destruct (is_log x.1) eqn:Ex.
  - rewrite filter_cons_True, filter_nil by done.
    rewrite (proj2 (Z.ltb_lt _ _)) by (destruct x.1; try done; destruct T as [-> _], Vx; lia).
    rewrite (bind_done (gets _) _ s1 (log_busy_queue (client s1)) s1) by done.
    rewrite (bind_done _ _ _ _ _ (store_run _ _ _ s1 (ring_in_lt _ _ _ _ Ry))). eexists. split; [reflexivity|].
    split; [cbn; by rewrite length_insert|]. cbn [busy_blk_list busy_out_idx busy_in_idx].
    rewrite <-Ly. apply ring_push; [done|]. pose proof (busy_le A). rewrite length_fmap, Ly. unfold SHELL_LOG_BUSY_NUM. lia.
  - rewrite filter_cons_False, filter_nil, app_nil_r by (by rewrite Ex).
    exists (log_busy_queue (client s1)). split; [|by split]. destruct s1 as [e h []].
    destruct x.1; try done; destruct T as [-> _]; done.
Qed.

Lemma process_run s H D A x P : core s H D A (x :: P) → (length D < 7)%nat → live s →
  ∃ s', tx_req_process assert_text s = Done (tt, s') ∧ core s' H (D ++ [x]) (A ++ [x]) P ∧ same s s' ∧ live s' ∧ tx_stopped (dev s') = false.
Proof.
  intros C Lt Lv. destruct (co_pend _ _ _ _ _ C) as (Lp & Rp & Lt'). unfold tx_req_process, getc.
  rewrite (bind_done (gets _) _ s (pending_queue (client s)) s) by done.
  destruct (Nat.eqb_spec (pend_out_idx (pending_queue (client s))) (pend_in_idx (pending_queue (client s)))) as [E|N].
  { exfalso. apply (ring_empty_iff _ _ _ _ Rp) in E; [done|by rewrite length_fmap, Lp]. }
  rewrite (bind_done _ _ _ _ _ (status_run _ _ (co_dev _ _ _ _ _ C))), (proj2 (Nat.ltb_lt _ _)), (proj2 (Z.eqb_neq _ _)) by lia.
  destruct (pull_run _ _ _ _ _ _ C) as (p & E1 & Lp1 & Rp1). rewrite (bind_done _ _ _ _ _ E1). cbn [fst snd pend_of].
  set (s1 := mk_dst (dev s) (hw s) (s_pend p (client s))).
  assert (Vx : valid x.1) by (eapply Forall_forall; [apply (co_valid _ _ _ _ _ C)|set_solver]).
  rewrite (bind_done _ _ _ _ _ (packet_buf_run s1 x.1 Vx (co_three _ _ _ _ _ C) (λ q f Hf, po_num _ _ _ (co_pools _ _ _ _ _ C q f Hf))
    ltac:(intros Ex; apply (co_rsp _ _ _ _ _ C); cbn; rewrite Ex; set_solver))).
  rewrite (bind_done (gets _) _ s1 (free_queue (client s1)) s1) by done. rewrite (co_three _ _ _ _ _ C : length (free_queue (client s1)) = _).
  pose proof (co_less _ _ _ _ _ C) as Le. destruct (co_busy _ _ _ _ _ C) as (Ly & Ry).
  destruct (busy_run s1 x A Vx ltac:(lia) Ly Ry) as (y2 & E2 & L2 & R2). unfold note_busy, getc in E2. rewrite (bind_done _ _ _ _ _ E2).
  set (s2 := mk_dst _ _ (s_busy y2 _)).
  destruct (async_run s2 D (buf_of x.1) x.2 (tag_of x.1)) as (s3 & E3 & Ec3 & Sm & Lv3 & St3 & L3 & R3); [by apply C|done|done|].
  rewrite (bind_done _ _ _ _ _ E3). exists s3. split; [done|].
  split_and!; [|by apply (same_trans _ s2)|done|done].
  assert (Ea : (A ++ [x]).*1 ++ P.*1 = A.*1 ++ (x :: P).*1) by (rewrite fmap_app, <-app_assoc; done).
  split; rewrite ?Ea, ?Ec3; [apply C|apply C|apply C|apply C| | | | | |apply C].
  - by split.
  - cbn. split; [done|]. split; [exact Rp1|cbn in Lt'; lia].
  - split; [done|by rewrite fmap_app|rewrite length_app; cbn; unfold TX_QUEUE_LEN; lia].
  - rewrite !length_app. lia.
  - rewrite <-app_assoc. eapply Forall_impl; [apply (co_fits _ _ _ _ _ C)|]. intros y. by apply fits_load.
Qed.

(** Either way: [l] is what moves from the pending queue to the device. *)
Lemma process_any s H D A P : core s H D A P → live s →
  ∃ s' l P', tx_req_process assert_text s = Done (tt, s') ∧ P = l ++ P' ∧ core s' H (D ++ l) (A ++ l) P' ∧ same s s' ∧ live s' ∧
    (l = [] → s' = s ∧ (P = [] ∨ length D = 7%nat)) ∧ (l ≠ [] → tx_stopped (dev s') = false).
Proof.
  intros C Lv. assert (L8 : (length D < 8)%nat) by apply (co_dev _ _ _ _ _ C).
  destruct P as [|x P]; [|destruct (decide (length D = 7%nat))].
  - exists s, [], []. rewrite !app_nil_r. split_and!; [eapply process_idle; eauto|done|done|apply same_refl|done|intros _; by split; [|left]|done].
  - exists s, [], (x :: P). rewrite !app_nil_r. split_and!; [eapply process_idle; eauto|done|done|apply same_refl|done|intros _; by split; [|right]|done].
  - destruct (process_run s H D A x P C) as (s' & E & C' & Sm & Lv' & St); [lia|done|]. exists s', [x], P. by split_and!.
Qed.

(** ** A block back to its pool *)
Lemma core_pool s H D A P q f : core s H D A P → free_queue (client s) !! q = Some f → (q < 3)%nat ∧ pool_ok q f (blocks_of q (H ++ A.*1 ++ P.*1)).
Proof. intros C Hf. split; [rewrite <-(co_three _ _ _ _ _ C); by eapply lookup_lt_Some|by apply (co_pools _ _ _ _ _ C)]. Qed.

Lemma block_free_run s q b f used : (q < 3)%nat → free_queue (client s) !! q = Some f → pool_ok q f (b :: used) →
  ∃ f', free_log_blk (tag_of (ELog q b)) s = Done (true, mk_dst (dev s) (hw s) (s_free (<[q := f']> (free_queue (client s))) (client s))) ∧
    pool_ok q f' used ∧ log_buf f' = log_buf f ∧ blk_len f' = blk_len f.
Proof.
  intros Hq Hf Pk. pose proof (pool_used _ _ _ Pk) as (_ & _ & Fb). apply Forall_cons in Fb as [Hb _].
  destruct (tag_ids (ELog q b) (conj Hq Hb)) as [Tq Tb]. unfold free_log_blk, getc. rewrite Tq, Tb, !Nat2Z.id.
  rewrite (bind_done (gets _) _ s (free_queue (client s)) s), Hf by done.
  destruct Pk as [Pn Pl Pi Pb (free & R & Nf & Pm)]. rewrite Pn, (proj2 (Nat.leb_gt _ _)) by done.
  rewrite (bind_done _ _ _ _ _ (store_run _ _ b s (ring_in_lt _ _ _ _ R))). eexists. split; [reflexivity|].
  split; [|by split]. split; cbn; [done|done|by rewrite length_insert|done|]. exists (free ++ [b]).
  pose proof (Permutation_length Pm) as L. rewrite length_app, length_seq in L. cbn in L. split_and!.
  - rewrite <-Pi. apply ring_push; [done|]. rewrite Pi. lia.
  - rewrite length_app, Nf. done.
  - rewrite <-app_assoc. done.
Qed.

(** Memory stays when only the rest of a pool changes. *)
Lemma load_pool u q f f' : free_queue u !! q = Some f → log_buf f' = log_buf f → blk_len f' = blk_len f →
  ∀ e, mem (s_free (<[q := f']> (free_queue u)) u) e = mem u e.
Proof.
  intros Hf Eb El [q' b'| | |]; try done. cbn [mem]. unfold blk. cbn [s_free free_queue]. destruct (decide (q' = q)) as [->|Ne].
  - rewrite list_lookup_insert_eq, Hf by (by eapply lookup_lt_Some). by rewrite Eb, El.
  - by rewrite list_lookup_insert_ne.
Qed.

Lemma blocks_ne q es e : (∀ b, e ≠ ELog q b) → blocks_of q (e :: es) = blocks_of q es.
Proof. intros N. unfold blocks_of. cbn. destruct e as [q' b| | |]; try done. destruct (decide (q' = q)) as [->|]; [by destruct (N b)|done]. Qed.
Lemma blocks_eq q b es : blocks_of q (ELog q b :: es) = b :: blocks_of q es.
Proof. unfold blocks_of. cbn. by rewrite decide_True. Qed.

(** ** The end of a packet *)
(** What the callback changes before it sends the next packet. *)
Record acked x s s1 : Prop := {
  ak_dev : dev s1 = dev s; ak_hw : hw s1 = hw s;
  ak_load : ∀ e, mem (client s1) e = mem (client s) e;
  ak_cmd : cmd_line_buf (client s1) = (if decide (x.1 = ERsp) then c_ongoing false else id) (cmd_line_buf (client s));
  ak_hint : fault_hint_print (client s1) = fault_hint_print (client s);
  ak_init : shell_init_ok (client s1) = shell_init_ok (client s) }.

(** The finished entry leaves the outstanding ones. *)
Lemma core_ack s s1 H x D P : core s H (x :: D) (x :: D) P → (x.1 = ERsp → ERsp ∉ D.*1 ++ P.*1) → acked x s s1 →
  length (free_queue (client s1)) = 3%nat →
  (∀ q f, free_queue (client s1) !! q = Some f → pool_ok q f (blocks_of q (H ++ D.*1 ++ P.*1))) →
  (let y := log_busy_queue (client s1) in length (busy_blk_list y) = SHELL_LOG_BUSY_NUM ∧
    ring (busy_blk_list y) (busy_out_idx y) (busy_in_idx y) (tag_of <$> filter (λ e, is_log e = true) D.*1)) →
  pending_queue (client s1) = pending_queue (client s) → core s1 H (x :: D) D P.
Proof.
  intros C Nr Ak L3 Pk B Ep. split; [|apply C|done|done|done|rewrite Ep; apply C|rewrite (ak_dev _ _ _ Ak); apply C|cbn; lia| |].
  - apply Forall_forall. intros e He. eapply Forall_forall; [apply (co_valid _ _ _ _ _ C)|]. set_solver.
  - pose proof (co_fits _ _ _ _ _ C) as F. cbn in F. apply Forall_cons in F as [_ F].
    eapply Forall_impl; [exact F|]. intros y. apply fits_load. apply Ak.
  - intros Hr. rewrite (ak_cmd _ _ _ Ak). destruct (decide (x.1 = ERsp)) as [E|_]; [by destruct (Nr E)|].
    apply (co_rsp _ _ _ _ _ C). cbn. set_solver.
Qed.
Lemma core_ack' s s1 H x D P : core s H (x :: D) (x :: D) P → is_log x.1 = false → (x.1 = ERsp → ERsp ∉ D.*1 ++ P.*1) →
  acked x s s1 → free_queue (client s1) = free_queue (client s) → log_busy_queue (client s1) = log_busy_queue (client s) →
  pending_queue (client s1) = pending_queue (client s) → core s1 H (x :: D) D P.
Proof.
  intros C Lx Nr Ak Ef Eb Ep. apply (core_ack s); rewrite ?Ef; try done; [apply C| |].
  - intros q f Hf. replace (blocks_of q (H ++ D.*1 ++ P.*1)) with (blocks_of q (H ++ (x :: D).*1 ++ P.*1)); [by apply C|].
    rewrite !blocks_app. f_equal. f_equal. cbn [fmap list_fmap]. apply blocks_ne. intros b E. by rewrite E in Lx.
  - rewrite Eb. pose proof (co_busy _ _ _ _ _ C) as B. cbn [fmap list_fmap] in B. by rewrite filter_cons_False in B by (by rewrite Lx).
Qed.

(** A block is taken off the busy queue and freed. *)
Definition ack_block (pbuf : option buf) (t : Z) (f : free_queue_t) : M st unit :=
  let* y := getc log_busy_queue in
  let* block_tag := fetch (busy_blk_list y) (busy_out_idx y) in
  if negb (t =? block_tag) || (Z.of_nat (blk_num f) <=? GET_BLOCK_ID t) ||
     negb (bool_decide (pbuf = Some (LogBuf (Z.to_nat (GET_QUEUE_ID t)) (Z.to_nat (GET_BLOCK_ID t)))))
  then assert_fault assert_text t block_tag
  else
    upd (s_busy (mk_busy (busy_blk_list y) ((busy_out_idx y + 1) mod SHELL_LOG_BUSY_NUM) (busy_in_idx y))) ;;;
    let* _ := free_log_blk block_tag in
    tx_req_process assert_text.
Lemma ack_log s H x D P q b f : core s H (x :: D) (x :: D) P → x.1 = ELog q b → free_queue (client s) !! q = Some f →
  ∃ s1, ack_block (Some (LogBuf q b)) (tag_of x.1) f s = tx_req_process assert_text s1 ∧ acked x s s1 ∧ core s1 H (x :: D) D P.
Proof.
  intros C Ex Hf. destruct (core_pool _ _ _ _ _ _ _ C Hf) as [Hq Pk].
  assert (Bq : blocks_of q (H ++ (x :: D).*1 ++ P.*1) ≡ₚ b :: blocks_of q (H ++ D.*1 ++ P.*1)).
  { cbn [fmap list_fmap]. rewrite Ex. rewrite <-blocks_eq. apply blocks_perm. cbn. symmetry. apply Permutation_middle. }
  apply (pool_ok_perm _ _ _ _ Bq) in Pk. pose proof (pool_used _ _ _ Pk) as (_ & _ & Fb). apply Forall_cons in Fb as [Hb _].
  destruct (tag_ids (ELog q b) (conj Hq Hb)) as [Tq Tb]. destruct (co_busy _ _ _ _ _ C) as (Ly & Ry). cbn [fmap list_fmap] in Ry.
  rewrite filter_cons_True in Ry by (by rewrite Ex). destruct (ring_pop _ _ _ _ _ Ry) as [Fy Ry']. rewrite Ly in Ry'.
  unfold ack_block, getc. rewrite (bind_done (gets _) _ s (log_busy_queue (client s)) s), (bind_done _ _ _ _ _ (fetch_run _ _ _ s Fy)) by done.
  rewrite Ex, Tq, Tb, Z.eqb_refl, (po_num _ _ _ Pk), (proj2 (Z.leb_gt _ _)), !Nat2Z.id, bool_decide_eq_true_2 by (done || lia). cbn [negb orb].
  set (s1 := mk_dst (dev s) (hw s) (s_busy (mk_busy (busy_blk_list (log_busy_queue (client s)))
    ((busy_out_idx (log_busy_queue (client s)) + 1) mod SHELL_LOG_BUSY_NUM) (busy_in_idx (log_busy_queue (client s)))) (client s))).
  rewrite (bind_done (upd _) _ s tt s1) by done.
  destruct (block_free_run s1 q b f _ Hq Hf Pk) as (f' & E & Pk' & Eb & El). rewrite (bind_done _ _ _ _ _ E).
  eexists. split; [reflexivity|]. assert (Ak : acked x s (mk_dst (dev s1) (hw s1) (s_free (<[q := f']> (free_queue (client s1))) (client s1)))).
  { split; try done; [|by rewrite decide_False by (by rewrite Ex)]. intros e. cbn [client].
    rewrite (load_pool (client s1) q f f' Hf Eb El). by destruct e. }
  split; [exact Ak|]. apply (core_ack s); try done.
  - by rewrite Ex.
  - cbn. rewrite length_insert. apply C.
  - cbn. intros q' g Hg. destruct (decide (q' = q)) as [->|Ne].
    + rewrite list_lookup_insert_eq in Hg by (by eapply lookup_lt_Some). by injection Hg as <-.
    + rewrite list_lookup_insert_ne in Hg by done. replace (blocks_of q' (H ++ D.*1 ++ P.*1)) with (blocks_of q' (H ++ (x :: D).*1 ++ P.*1)); [by apply C|].
      rewrite !blocks_app. f_equal. f_equal. cbn [fmap list_fmap]. apply blocks_ne. intros b' E'. congruence.
Qed.

Lemma ack_run s H x D P : core s H (x :: D) (x :: D) P → (x.1 = ERsp → ERsp ∉ D.*1 ++ P.*1) →
  ∃ s1, shell_tx_complete assert_text (Some (buf_of x.1)) (tag_of x.1) s = tx_req_process assert_text s1 ∧
    acked x s s1 ∧ core s1 H (x :: D) D P.
Proof.
  intros C Nr. unfold shell_tx_complete, getc. rewrite (bind_done (gets _) _ s (free_queue (client s)) s), (co_three _ _ _ _ _ C) by done.
  assert (Vx : valid x.1) by (eapply Forall_forall; [apply (co_valid _ _ _ _ _ C)|set_solver]).
  pose proof (tag_ids x.1 Vx) as T. destruct x.1 as [q b| | |] eqn:Ex; destruct T as [Tq Tb]; rewrite Tq, Tb.
  - rewrite (proj2 (Z.eqb_neq _ _)), (proj2 (Z.eqb_neq _ _)), (proj2 (Z.ltb_lt _ _)), !Nat2Z.id by (destruct Vx; unfold SHELL_RSP_QUEUE_ID, SHELL_ROM_QUEUE_ID; lia).
    destruct (lookup_lt_is_Some_2 (free_queue (client s)) q) as [f Hf]; [rewrite (co_three _ _ _ _ _ C); apply Vx|]. rewrite Hf.
    pose proof (ack_log s H x D P q b f C Ex Hf) as K. unfold ack_block, getc in K. rewrite Ex, Tq, Tb, !Nat2Z.id in K. exact K.
  - set (s1 := mk_dst (dev s) (hw s) (s_cmd (c_ongoing false (cmd_line_buf (client s))) (client s))). exists s1.
    assert (Ak : acked x s s1) by (split; try done; by rewrite decide_True).
    split_and!; [|done|by apply (core_ack' s); rewrite ?Ex].
    change (SHELL_RSP_QUEUE_ID =? SHELL_RSP_QUEUE_ID) with true. cbv iota.
    rewrite (bind_done (gets _) _ s (cmd_line_buf (client s)) s) by done.
    rewrite (co_rsp _ _ _ _ _ C) by (cbn; rewrite Ex; set_solver). rewrite bool_decide_eq_true_2 by done. done.
  - assert (Ak : acked x s s) by (split; try done; by rewrite decide_False by (by rewrite Ex)).
    exists s. split_and!; [done|done|by apply (core_ack' s); rewrite ?Ex].
  - assert (Ak : acked x s s) by (split; try done; by rewrite decide_False by (by rewrite Ex)).
    exists s. split_and!; [done|done|by apply (core_ack' s); rewrite ?Ex].
Qed.

(** ** Blocks for tasks *)
(** What a task's step leaves alone. *)
Record kept s s' : Prop := {
  kp_dev : dev s' = dev s; kp_hw : hw s' = hw s;
  kp_cmd : cmd_line_buf (client s') = cmd_line_buf (client s);
  kp_init : shell_init_ok (client s') = shell_init_ok (client s) }.
Lemma task_kept_trans s1 s2 s3 : kept s1 s2 → kept s2 s3 → kept s1 s3.
Proof. intros [] []. split; congruence. Qed.

(** One pool changes, with the entries that tasks hold. *)
Definition put_pool (q : nat) (f : free_queue_t) s : st := mk_dst (dev s) (hw s) (s_free (<[q := f]> (free_queue (client s))) (client s)).
Lemma core_fq s H H' D A P q f f' : core s H D A P → free_queue (client s) !! q = Some f →
  pool_ok q f' (blocks_of q (H' ++ A.*1 ++ P.*1)) → (∀ q', q' ≠ q → blocks_of q' H' = blocks_of q' H) →
  Forall valid H' → Forall (λ e, is_log e = true) H' →
  Forall (fits (client (put_pool q f' s))) (A ++ P) → core (put_pool q f' s) H' D A P.
Proof.
  intros C Hf Pk Bq Vh Lh Fi. split; try apply C; try done.
  - apply Forall_app. split; [done|]. pose proof (co_valid _ _ _ _ _ C) as V. by apply Forall_app in V as [_ V].
  - cbn. rewrite length_insert. apply C.
  - cbn. intros q' g Hg. destruct (decide (q' = q)) as [->|Ne].
    + rewrite list_lookup_insert_eq in Hg by (by eapply lookup_lt_Some). by injection Hg as <-.
    + rewrite list_lookup_insert_ne in Hg by done. rewrite blocks_app, Bq, <-blocks_app by done. by apply C.
Qed.
Lemma kept_fq q f s : kept s (put_pool q f s).
Proof. by split. Qed.
Lemma fits_put s q f f' xs : free_queue (client s) !! q = Some f → log_buf f' = log_buf f → blk_len f' = blk_len f →
  Forall (fits (client s)) xs → Forall (fits (client (put_pool q f' s))) xs.
Proof. intros Hf Eb El F. eapply Forall_impl; [exact F|]. intros x. apply fits_load. by apply load_pool with f. Qed.

Lemma alloc_loop_run n len H D A P : ∀ q s, core s H D A P → (n + q = 3)%nat →
  ∃ r s', alloc_loop n q len s = Done (r, s') ∧ kept s s' ∧ fault_hint_print (client s') = fault_hint_print (client s) ∧
    (∀ e, mem (client s') e = mem (client s) e) ∧
    match r with
    | None => core s' H D A P ∧ ∀ q' f, (q ≤ q')%nat → free_queue (client s) !! q' = Some f → len ≤ Z.of_nat (blk_len f) → free_blk_num f = 0%nat
    | Some (p, t) => ∃ q' b, p = LogBuf q' b ∧ t = tag_of (ELog q' b) ∧ len ≤ Z.of_nat (len_of q') ∧ core s' (ELog q' b :: H) D A P
    end.
Proof.
  induction n as [|n IH]; intros q s C Hq; cbn [alloc_loop].
  { exists None, s. split_and!; try done. intros q' f Lq Hf. exfalso. apply lookup_lt_Some in Hf. rewrite (co_three _ _ _ _ _ C) in Hf. lia. }
  unfold getc. rewrite (bind_done (gets _) _ s (free_queue (client s)) s) by done.
  destruct (lookup_lt_is_Some_2 (free_queue (client s)) q) as [f Hf]; [rewrite (co_three _ _ _ _ _ C); lia|]. rewrite Hf.
  destruct (core_pool _ _ _ _ _ _ _ C Hf) as [_ Pk]. pose proof Pk as [Pn Pl Pi Pb (free & R & Nf & Pm)].
  pose proof (co_valid _ _ _ _ _ C) as Vh. apply Forall_app in Vh as [Vh _].
  destruct (Z.ltb_spec (Z.of_nat (blk_len f)) len) as [Lf|Le].
  { destruct (IH (S q) s C) as (r & s' & E & K & Eh & El & Hr); [lia|]. exists r, s'. split_and!; try done. destruct r as [[p t]|]; [done|].
    destruct Hr as [C' N]. split; [done|]. intros q' g Lq Hg Lg. destruct (decide (q' = q)) as [->|]; [|apply (N q' g); [lia|done..]].
    rewrite Hf in Hg. injection Hg as <-. lia. }
  destruct (Nat.ltb_spec 0 (free_blk_num f)) as [Lt|Ge].
  - destruct free as [|b free]; [cbn in Nf; lia|]. destruct (ring_pop _ _ _ _ _ R) as [Fb R'].
    rewrite (bind_done _ _ _ _ _ (fetch_run _ _ _ s Fb)). set (f' := mk_fq _ _ _ _ _ _ _ _).
    rewrite (bind_done (upd_fq _ _) _ s tt (put_pool q f' s)) by done.
    assert (Hb : (b < num_of q)%nat).
    { assert (b ∈ seq 0 (num_of q)) as E by (rewrite <-Pm; set_solver). apply elem_of_seq in E. lia. }
    eexists _, _. split; [reflexivity|]. split; [apply kept_fq|]. split; [done|]. split; [by apply load_pool with f|].
    exists q, b. split_and!; [done|done|by rewrite <-Pl|]. eapply core_fq; [done..| | | | |].
    + rewrite (blocks_eq q b (H ++ A.*1 ++ P.*1) : blocks_of q ((ELog q b :: H) ++ A.*1 ++ P.*1) = _).
      split; cbn; [done|done|done|done|]. exists free. rewrite Pi in R'. rewrite Pn. split_and!; [done|cbn in Nf; lia|].
      rewrite <-Pm. by rewrite <-Permutation_middle.
    + intros q' Ne. apply blocks_ne. intros b' E. congruence.
    + apply Forall_cons. split; [|done]. split; [|done]. rewrite <-(co_three _ _ _ _ _ C). by eapply lookup_lt_Some.
    + apply Forall_cons. split; [done|apply C].
    + apply (fits_put s q f); [done..|apply C].
  - set (f' := mk_fq _ _ _ _ _ _ _ _). rewrite (bind_done (upd_fq _ _) _ s tt (put_pool q f' s)) by done.
    destruct (IH (S q) (put_pool q f' s)) as (r & s' & E & K & Eh & El & Hr); [|lia|].
    { eapply core_fq; [done..| | |done|apply C|apply (fits_put s q f); [done..|apply C]]; [|done]. split; cbn; try done. by exists free. }
    exists r, s'. split; [done|]. split; [by eapply task_kept_trans; [apply kept_fq|]|]. split; [done|].
    split; [intros e; rewrite El; by apply load_pool with f|]. destruct r as [[p t]|]; [done|].
    destruct Hr as [C' N]. split; [done|]. intros q' g Lq Hg Lg. destruct (decide (q' = q)) as [->|Ne]; [rewrite Hf in Hg; injection Hg as <-; lia|].
    apply (N q' g); [lia| |done]. cbn. by rewrite list_lookup_insert_ne.
Qed.

(** The counters and the hint's flag are outside of [core]. *)
Lemma core_ext s s' H D A P : core s H D A P → tx_list (dev s') = tx_list (dev s) → list_out_idx (dev s') = list_out_idx (dev s) →
  list_in_idx (dev s') = list_in_idx (dev s) → free_queue (client s') = free_queue (client s) →
  log_busy_queue (client s') = log_busy_queue (client s) → pending_queue (client s') = pending_queue (client s) →
  cmd_line_buf (client s') = cmd_line_buf (client s) → core s' H D A P.
Proof.
  intros C E1 E2 E3 Ef Eb Ep Ec. split; rewrite ?Ef, ?Eb, ?Ep, ?Ec; try apply C.
  { destruct (co_dev _ _ _ _ _ C). split; by rewrite ?E1, ?E2, ?E3. }
  eapply Forall_impl; [apply (co_fits _ _ _ _ _ C)|]. intros x. apply fits_load.
  intros [q b| | |]; try done; cbn; [unfold blk; by rewrite Ef|by rewrite Ec].
Qed.

Lemma block_alloc_run s len H D A P : core s H D A P →
  ∃ r s', alloc_log_blk len s = Done (r, s') ∧ kept s s' ∧ (∀ e, mem (client s') e = mem (client s) e) ∧
    match r with
    | None => core s' H D A P ∧ fault_hint_print (client s') = fault_hint_print (client s) ∧
        ∀ q f, free_queue (client s) !! q = Some f → len ≤ Z.of_nat (blk_len f) → free_blk_num f = 0%nat
    | Some (p, t) => ∃ q b, p = LogBuf q b ∧ t = tag_of (ELog q b) ∧ len ≤ Z.of_nat (len_of q) ∧ core s' (ELog q b :: H) D A P ∧
        fault_hint_print (client s') = false
    end.
Proof.
  intros C. unfold alloc_log_blk, getc. rewrite (bind_done (gets _) _ s (free_queue (client s)) s), (co_three _ _ _ _ _ C) by done.
  destruct (alloc_loop_run 3 len H D A P 0 s C ltac:(lia)) as (r & s' & E & K & Eh & El & Hr). rewrite (bind_done _ _ _ _ _ E).
  destruct r as [[p t]|].
  - destruct Hr as (q & b & -> & -> & Le & C'). eexists _, _. split; [reflexivity|]. split; [|split].
    + eapply task_kept_trans; [exact K|]. by split.
    + intros e. rewrite <-El. by destruct e.
    + exists q, b. split_and!; try done. by eapply core_ext.
  - destruct Hr as [C' N]. eexists _, _. split; [reflexivity|]. split; [|split].
    + eapply task_kept_trans; [exact K|]. by split.
    + intros e. rewrite <-El. by destruct e.
    + split; [by eapply core_ext|]. split; [done|]. intros q f. apply N. lia.
Qed.

(** Writing into a block that a task holds. *)
Lemma held_block s H D A P q b : core s H D A P → ELog q b ∈ H →
  ∃ f, free_queue (client s) !! q = Some f ∧ (q < 3)%nat ∧ (b < num_of q)%nat ∧ pool_ok q f (blocks_of q (H ++ A.*1 ++ P.*1)) ∧
    ELog q b ∉ A.*1 ++ P.*1.
Proof.
  intros C He. assert (Vb : valid (ELog q b)) by (eapply Forall_forall; [apply (co_valid _ _ _ _ _ C)|set_solver]). destruct Vb as [Hq Hb].
  destruct (lookup_lt_is_Some_2 (free_queue (client s)) q) as [f Hf]; [by rewrite (co_three _ _ _ _ _ C)|].
  exists f. pose proof (co_pools _ _ _ _ _ C q f Hf) as Pk. split_and!; try done. intros Ha.
  pose proof (pool_used _ _ _ Pk) as (_ & ND & _). rewrite blocks_app in ND. apply NoDup_app in ND as (_ & N & _).
  assert (B : ∀ es, ELog q b ∈ es → b ∈ blocks_of q es).
  { intros es Hs. unfold blocks_of. apply list_elem_of_omap. exists (ELog q b). split; [done|]. by rewrite decide_True. }
  by apply (N b); apply B.
Qed.

Lemma poke_run s H D A P q b off bs : core s H D A P → ELog q b ∈ H → (off + length bs ≤ len_of q)%nat →
  ∃ s', poke (LogBuf q b) off bs s = Done (tt, s') ∧ kept s s' ∧ core s' H D A P ∧
    fault_hint_print (client s') = fault_hint_print (client s) ∧
    mem (client s') (ELog q b) = write_at (mem (client s) (ELog q b)) off bs ∧
    (∀ e, valid e → e ≠ ELog q b → mem (client s') e = mem (client s) e).
Proof.
  intros C He Ho. destruct (held_block _ _ _ _ _ _ _ C He) as (f & Hf & Hq & Hb & Pk & Na).
  unfold poke, getc. rewrite (bind_done (gets _) _ s (free_queue (client s)) s), Hf by done. pose proof Pk as [Pn Pl Pi Pb Pf].
  assert (Lb : (b * len_of q + len_of q ≤ length (log_buf f))%nat) by (rewrite Pb; nia).
  rewrite Pl, (proj2 (Nat.leb_le _ _)) by lia. set (f' := mk_fq _ _ _ _ _ _ _ _).
  assert (Lw : length (log_buf f') = length (log_buf f)) by (apply length_write_at; lia).
  assert (Eo : ∀ e, valid e → e ≠ ELog q b → mem (client (put_pool q f' s)) e = mem (client s) e).
  { intros [q' b'| | |] Ve Ne; try done. cbn [mem]. unfold blk. cbn [put_pool client s_free free_queue]. destruct (decide (q' = q)) as [->|Nq].
    - rewrite list_lookup_insert_eq, Hf by (by eapply lookup_lt_Some). unfold f'. cbn [log_buf blk_len]. rewrite Pl.
      assert (b' ≠ b) by congruence. destruct (Nat.lt_ge_cases b' b).
      + apply sub_write_before; nia.
      + apply sub_write_after; nia.
    - by rewrite list_lookup_insert_ne. }
  exists (put_pool q f' s). split; [done|]. split; [apply kept_fq|].
  assert (F : Forall (fits (client (put_pool q f' s))) (A ++ P)).
  { apply Forall_forall. intros x Hx. pose proof (co_fits _ _ _ _ _ C) as F. rewrite Forall_forall in F. destruct (F x Hx) as [R L].
    split; [done|]. assert (x.1 ∈ A.*1 ++ P.*1) by (rewrite <-fmap_app; by apply list_elem_of_fmap_2).
    rewrite Eo; [done| |intros Ex; apply Na; by rewrite <-Ex]. eapply Forall_forall; [apply (co_valid _ _ _ _ _ C)|]. set_solver. }
  split; [|split; [done|split; [|done]]].
  - eapply core_fq; [done..| |done| |apply C|done]; [|pose proof (co_valid _ _ _ _ _ C) as V; by apply Forall_app in V as [V _]].
    split; try done. by rewrite Lw.
  - cbn [mem]. unfold blk. cbn [put_pool client s_free free_queue]. rewrite list_lookup_insert_eq, Hf by (by eapply lookup_lt_Some).
    unfold f'. cbn [log_buf blk_len]. rewrite Pl. apply sub_write_inside; lia.
Qed.

(** ** A new entry *)
Lemma push_run s H H' D A P x : core s H D A P → H ≡ₚ (if is_log x.1 then x.1 :: H' else H') → (length P < 258)%nat →
  valid x.1 → fits (client s) x → (x.1 = ERsp → rsp_ongoing (cmd_line_buf (client s)) = true) →
  ∃ p, push_pending_queue (tag_of x.1) x.2 s = Done (tt, mk_dst (dev s) (hw s) (s_pend p (client s))) ∧
    core (mk_dst (dev s) (hw s) (s_pend p (client s))) H' D A (P ++ [x]).
Proof.
  intros C Hp Lt Vx Fx Rx. destruct (co_pend _ _ _ _ _ C) as (Lp & Rp & _). unfold push_pending_queue, getc.
  rewrite (bind_done (gets _) _ s (pending_queue (client s)) s), (bind_done _ _ _ _ _ (store_run _ _ (tag_of x.1, x.2) s (ring_in_lt _ _ _ _ Rp))) by done.
  eexists. split; [reflexivity|].
  assert (Bp : ∀ q, blocks_of q (H ++ A.*1 ++ P.*1) ≡ₚ blocks_of q (H' ++ A.*1 ++ (P ++ [x]).*1)).
  { intros q. rewrite fmap_app, !blocks_app. cbn [fmap list_fmap]. rewrite Hp. destruct (is_log x.1) eqn:Lx.
    - change (x.1 :: H') with ([x.1] ++ H'). rewrite blocks_app. solve_Permutation.
    - rewrite (blocks_ne q [] x.1); [by rewrite app_nil_r|]. intros b E. by rewrite E in Lx. }
  assert (Hs : ∀ e, e ∈ H' → e ∈ H) by (intros e He; rewrite Hp; destruct (is_log x.1); set_solver).
  assert (El : ∀ y, fits (client s) y → fits (s_pend (mk_pend (<[pend_in_idx (pending_queue (client s)) := (tag_of x.1, x.2)]> (packet_list (pending_queue (client s))))
      (pend_out_idx (pending_queue (client s))) ((pend_in_idx (pending_queue (client s)) + 1) mod SHELL_LOG_PEND_NUM)) (client s)) y).
  { intros y. apply fits_load. by intros []. }
  split; try apply C; cbn [client dev].
  - pose proof (co_valid _ _ _ _ _ C) as V. rewrite Forall_forall in V. rewrite fmap_app. apply Forall_forall. intros e He.
    rewrite !elem_of_app in He. cbn in He. rewrite list_elem_of_singleton in He.
    destruct He as [He|[He|[He| ->]]]; [apply V; set_solver..|done].
  - pose proof (co_held _ _ _ _ _ C) as L. rewrite Forall_forall in *. auto.
  - intros q f Hf. eapply pool_ok_perm; [apply Bp|by apply C].
  - cbn [s_pend pending_queue packet_list pend_out_idx pend_in_idx]. split; [by rewrite length_insert|].
    split; [|rewrite length_app; change SHELL_LOG_PEND_NUM with 259%nat; cbn; lia].
    rewrite fmap_app. rewrite <-Lp. apply ring_push; [done|]. rewrite length_fmap, Lp. apply (co_pend _ _ _ _ _ C).
  - rewrite app_assoc. apply Forall_app. split; [|by apply Forall_singleton, El].
    eapply Forall_impl; [apply (co_fits _ _ _ _ _ C)|]. exact El.
  - intros Hr. rewrite fmap_app in Hr. cbn in Hr. rewrite !elem_of_app, list_elem_of_singleton in Hr.
    destruct Hr as [Hr|[Hr|Hr]]; [apply (co_rsp _ _ _ _ _ C); set_solver..|by apply Rx].
Qed.
End Core.
End ShellOps.
