(* ===== verification/ShellLog.v ===== *)
(** * The shell's log path as a whole

    Tasks take blocks, fill them and hand them in, report that there was none (in two
    steps, as the code disables interrupts only for the second), the command task
    answers, bytes are echoed, and the transmit interrupt sends, in any order.  Over
    every such run in which no two tasks report the same failure: what has been sent is
    the beginning of what was handed in, in order and once; no ring is overrun, although the pending queue is not checked when it is
    written; and an interrupt that finds room for all that waits sends all of it
    and leaves every block free that no task holds.  Two tasks that report the same
    failure, again and again, overrun the queue: [hint_race_loses_logs]. *)
From S2P Require Import Prelude Bytes Ring ShellUart ShellTask ShellOps.
Import ShellTask ShellOps.
Local Open Scope Z_scope.

Module ShellLog.

(** ** Counting entries *)
Definition is_hint (e : entry) : bool := match e with EHint => true | _ => false end.
Definition is_rsp (e : entry) : bool := match e with ERsp => true | _ => false end.
Definition is_cmd (e : entry) : bool := match e with ECmd => true | _ => false end.
Definition count (p : entry → bool) (es : list entry) : nat := length (filter (λ e, p e = true) es).

Section Count.
Implicit Types (es L H : list entry) (e : entry).

Lemma kind_count_cons p e es : count p (e :: es) = (Nat.b2n (p e) + count p es)%nat.
Proof. unfold count. destruct (p e) eqn:E; [rewrite filter_cons_True by done|rewrite filter_cons_False by (by rewrite E)]; done. Qed.
Lemma kind_count_app p es es' : count p (es ++ es') = (count p es + count p es')%nat.
Proof. unfold count. by rewrite filter_app, length_app. Qed.
Lemma count_perm p es es' : es ≡ₚ es' → count p es = count p es'.
Proof. intros E. unfold count. by rewrite E. Qed.
Lemma count_kinds es : length es = (count is_log es + count is_hint es + count is_rsp es + count is_cmd es)%nat.
Proof. induction es as [|[]]; [done|..]; rewrite ?kind_count_cons; cbn; lia. Qed.
Lemma count_zero p es : count p es = 0%nat ↔ ∀ e, e ∈ es → p e = false.
Proof.
  induction es as [|e es IH]; [split; [by intros _ e ?%not_elem_of_nil|done]|]. rewrite kind_count_cons. split.
  - intros E e' He. apply elem_of_cons in He as [->|He]; [destruct (p e); [cbn in E; lia|done]|apply IH; [lia|done]].
  - intros F. rewrite (F e) by set_solver. cbn. apply IH. intros e' He. apply F. set_solver.
Qed.
Lemma count_all p es : Forall (λ e, p e = true) es → count p es = length es.
Proof. induction 1 as [|e es E F IH]; [done|]. rewrite kind_count_cons, E, IH. done. Qed.

(** The blocks in use, over the pools. *)
Lemma count_blocks es : Forall valid es →
  count is_log es = (length (blocks_of 0 es) + length (blocks_of 1 es) + length (blocks_of 2 es))%nat.
Proof.
  induction 1 as [|e es V F IH]; [done|]. rewrite kind_count_cons, IH. destruct e as [q b| | |]; try (rewrite !blocks_ne by done; cbn; lia).
  destruct V as [Hq _]. destruct q as [|[|[|q]]]; [..|lia];
    rewrite ?blocks_eq, ?(blocks_ne 0), ?(blocks_ne 1), ?(blocks_ne 2) by done; cbn; lia.
Qed.

(** ** Accounting
    [L] is outstanding, [n] blocks are held; [hint] is the flag of the log hint,
    [ongoing] the one of the response, [ch] whether the pending command has had its
    hint.  Two log hints have an allocation between them, so each but the first has
    a block that is handed in behind it or still held. *)
Record acct L (n : nat) (hint ongoing ch : bool) : Prop := {
  ac_hint : ∀ i, (count is_hint (drop i L) ≤ count is_log (drop i L) + n + Nat.b2n hint)%nat;
  ac_rsp : ∀ l1 l2, L = l1 ++ (ERsp :: l2) → (ERsp ∉ l2) ∧ (ECmd ∉ l2);
  ac_cmd : (count is_cmd L ≤ Nat.b2n (ongoing || ch))%nat;
  ac_ongoing : ongoing = false → ERsp ∉ L;
  ac_on : ongoing = true → ERsp ∈ L;
  ac_ch : ongoing = true → ch = false }.

Lemma rsp_le L : (∀ l1 l2, L = l1 ++ (ERsp :: l2) → (ERsp ∉ l2) ∧ (ECmd ∉ l2)) → (count is_rsp L ≤ 1)%nat.
Proof.
  induction L as [|e L IH]; intros F; [cbn; lia|]. rewrite kind_count_cons. destruct (is_rsp e) eqn:E; cbn [Nat.b2n].
  - destruct e; try done. destruct (F [] L eq_refl) as [N _]. rewrite (proj2 (count_zero _ _)); [lia|].
    intros e He. destruct e; try done.
  - apply IH. intros l1 l2 ->. by apply (F (e :: l1)).
Qed.
Lemma acct_length L n hint ongoing ch : acct L n hint ongoing ch → (count is_log L + n ≤ 128)%nat → (length L ≤ 259)%nat.
Proof.
  intros A Le. rewrite count_kinds. pose proof (ac_hint _ _ _ _ _ A 0) as Hh. rewrite drop_0 in Hh.
  pose proof (rsp_le _ (ac_rsp _ _ _ _ _ A)). pose proof (ac_cmd _ _ _ _ _ A). destruct hint, (ongoing || ch); cbn in *; lia.
Qed.

Lemma acct_nil : acct [] 0 false false false.
Proof. split; try done; [intros i; rewrite drop_nil; cbn; lia|by intros [] l2|set_solver]. Qed.
Lemma acct_alloc L n hint ongoing ch : acct L n hint ongoing ch → acct L (S n) false ongoing ch.
Proof. intros []. split; try done. intros i. specialize (ac_hint0 i). destruct hint; cbn in *; lia. Qed.

Lemma snoc_split {B} (l l1 l2 : list B) (e x : B) : l ++ [e] = l1 ++ x :: l2 →
  (l2 = [] ∧ x = e ∧ l = l1) ∨ ∃ l2', l2 = l2' ++ [e] ∧ l = l1 ++ x :: l2'.
Proof.
  destruct l2 as [|y l2 _] using rev_ind.
  - intros E. apply app_inj_tail in E as [-> ->]. by left.
  - rewrite app_comm_cons, app_assoc. intros E. apply app_inj_tail in E as [-> ->]. right. by exists l2.
Qed.
Lemma hint_snoc L n m hint hint' e :
  (∀ i, (count is_hint (drop i L) ≤ count is_log (drop i L) + n + Nat.b2n hint)%nat) →
  (Nat.b2n (is_hint e) + n + Nat.b2n hint ≤ Nat.b2n (is_log e) + m + Nat.b2n hint')%nat →
  ∀ i, (count is_hint (drop i (L ++ [e])) ≤ count is_log (drop i (L ++ [e])) + m + Nat.b2n hint')%nat.
Proof.
  intros F Le i. rewrite skipn_app. destruct (i - length L)%nat as [|k] eqn:E.
  - cbn [drop]. rewrite !kind_count_app, !kind_count_cons. specialize (F i). cbn [count filter] in *. unfold count in *. cbn in *. lia.
  - rewrite drop_ge by lia. cbn [drop]. rewrite drop_nil. cbn. lia.
Qed.

Lemma acct_log L n hint ongoing ch q b : acct L (S n) hint ongoing ch → acct (L ++ [ELog q b]) n hint ongoing ch.
Proof.
  intros [Ah Ar Ac Ao An Ah']. split; [eapply hint_snoc; [exact Ah|cbn; lia]| | | |intros E; specialize (An E); set_solver|done].
  - intros l1 l2 E. apply snoc_split in E as [(_ & ? & _)|(l2' & -> & E)]; [done|]. destruct (Ar _ _ E). set_solver.
  - rewrite kind_count_app, kind_count_cons. cbn. lia.
  - intros ->. specialize (Ao eq_refl). set_solver.
Qed.
Lemma acct_push_hint L n ongoing ch : acct L n false ongoing ch → acct (L ++ [EHint]) n true ongoing ch.
Proof.
  intros [Ah Ar Ac Ao An Ah']. split; [eapply hint_snoc; [exact Ah|cbn; lia]| | | |intros E; specialize (An E); set_solver|done].
  - intros l1 l2 E. apply snoc_split in E as [(_ & ? & _)|(l2' & -> & E)]; [done|]. destruct (Ar _ _ E). set_solver.
  - rewrite kind_count_app, kind_count_cons. cbn. lia.
  - intros ->. specialize (Ao eq_refl). set_solver.
Qed.
Lemma acct_push_cmd L n hint : acct L n hint false false → acct (L ++ [ECmd]) n hint false true.
Proof.
  intros [Ah Ar Ac Ao An Ah']. specialize (Ao eq_refl). split; [eapply hint_snoc; [exact Ah|cbn; lia]| | | |intros E; specialize (An E); set_solver|done].
  - intros l1 l2 E. apply snoc_split in E as [(_ & ? & _)|(l2' & -> & E)]; [done|]. set_solver.
  - rewrite kind_count_app, kind_count_cons. cbn in *. lia.
  - set_solver.
Qed.
Lemma acct_push_rsp L n hint ch : acct L n hint false ch → acct (L ++ [ERsp]) n hint true false.
Proof.
  intros [Ah Ar Ac Ao An Ah']. specialize (Ao eq_refl). split; [eapply hint_snoc; [exact Ah|cbn; lia]| | |done|set_solver|done].
  - intros l1 l2 E. apply snoc_split in E as [(-> & _ & _)|(l2' & -> & E)]; set_solver.
  - rewrite kind_count_app, kind_count_cons. cbn in *. destruct ch; cbn in *; lia.
Qed.
Lemma acct_tail e L n hint ongoing ch : acct (e :: L) n hint ongoing ch →
  acct L n hint (if decide (e = ERsp) then false else ongoing) ch.
Proof.
  intros [Ah Ar Ac Ao An Ah']. split.
  - intros i. apply (Ah (S i)).
  - intros l1 l2 E. apply (Ar (e :: l1)). by rewrite E.
  - rewrite kind_count_cons in Ac. destruct (decide (e = ERsp)) as [->|_]; [|lia].
    destruct (Ar [] L eq_refl) as [_ N]. rewrite (proj2 (count_zero _ _)); [lia|]. by intros [] He.
  - destruct (decide (e = ERsp)) as [->|_]; [intros _; by apply (Ar [] L)|]. intros E. specialize (Ao E). set_solver.
  - destruct (decide (e = ERsp)) as [->|N]; [done|]. intros E. specialize (An E). set_solver.
  - by destruct (decide (e = ERsp)).
Qed.
End Count.

(** ** The invariant *)
Section Log.
Context (behind : list Z) (assert_text : Z → Z → list Z).
Local Abbreviation core := (core behind).
Local Abbreviation bytes := (bytes behind).
Implicit Types (s : st) (H : list entry) (D P : list item) (x : item) (c hist : list Z) (k : nat) (ch : bool).
#[local] Instance client_inst : ShellClient shell buf := shell_client behind assert_text.

(** What was sent for packets, echo left out. *)
Definition sent s : list Z := (filter (λ p, p.1 = false) (tx_out (hw s))).*2.
(** What remains to be sent when [k] bytes of the first packet are out. *)
Definition rest s D P k : list Z := drop k (concat (bytes (client s) <$> D ++ P)).
Definition log_acct s H ch D P : Prop :=
  acct (D ++ P).*1 (length H) (fault_hint_print (client s)) (rsp_ongoing (cmd_line_buf (client s))) ch.

(** [c] is the echo that waits. *)
Record base s H ch D P c : Prop := {
  bs_core : core s H D D P;
  bs_live : live s;
  bs_cb : tx_complete_callback (dev s) = true;
  bs_init : shell_init_ok (client s) = true;
  bs_order : P ≠ [] → D ≠ [];
  bs_echo : ring (echo_buff (dev s)) (echo_rd_idx (dev s)) (echo_wr_idx (dev s)) c ∧ length (echo_buff (dev s)) = ECHO_BUFF_SIZE ∧
            (length c < ECHO_BUFF_SIZE)%nat;
  bs_stop : tx_stopped (dev s) = true → D = [] ∧ c = [];
  bs_acct : log_acct s H ch D P;
  bs_rsp : length (rsp_buff (cmd_line_buf (client s))) = SHELL_RSP_BUF_LEN }.

(** Packet [x] is being sent and [k] bytes of it are out. *)
Record sending s x k : Prop := {
  sd_cur : cur_packet (dev s) = Some (buf_of x.1);
  sd_len : packet_len (dev s) = x.2;
  sd_tag : packet_tag (dev s) = tag_of x.1;
  sd_at : packet_tx_len (dev s) = Z.of_nat k;
  sd_le : (k ≤ Z.to_nat x.2)%nat }.
Definition place s D k : Prop := cur_packet (dev s) = None ∧ k = 0%nat ∨ ∃ x D', D = x :: D' ∧ sending s x k ∧ 0 < x.2.
Lemma place_ext s s' D l k : place s D k → cur_packet (dev s') = cur_packet (dev s) ∧ packet_len (dev s') = packet_len (dev s) ∧
  packet_tag (dev s') = packet_tag (dev s) ∧ packet_tx_len (dev s') = packet_tx_len (dev s) → place s' (D ++ l) k.
Proof.
  intros [[Ec ->]|(x & D' & -> & Sd & Gt)] (E1 & E2 & E3 & E4); [left; by rewrite E1|right].
  exists x, (D' ++ l). split; [done|]. split; [|done]. destruct Sd. split; by rewrite ?E1, ?E2, ?E3, ?E4.
Qed.
Record inv s H ch D P c k hist : Prop := {
  in_base : base s H ch D P c;
  in_place : place s D k;
  in_hist : sent s ++ rest s D P k = hist }.

(** ** One round of the transmit loop *)
Definition todo s D P c k : nat := length (rest s D P k) + length c.
Lemma length_bytes u x : fits behind u x → length (bytes u x) = Z.to_nat x.2.
Proof. intros [R L]. unfold bytes. rewrite length_take. lia. Qed.

Definition wrote (echo : bool) (b : Z) (h : port) : port := mk_port (pred (tx_room h)) (tx_out h ++ [(echo, b)]) (tx_int h) (rx_fifo h) (rx_int h).
Lemma sent_wrote s e b h u : hw s = wrote e b h → sent s = sent (mk_dst (dev s) h u) ++ (if e then [] else [b]).
Proof.
  intros E. unfold sent. rewrite E. cbn [wrote tx_out hw]. rewrite filter_app, fmap_app. f_equal. destruct e; [rewrite filter_cons_False by done|rewrite filter_cons_True by done]; done.
Qed.

(** The next byte of the packet. *)
Lemma packet_byte s H ch D P c k hist x : base s H ch (x :: D) P c → sending s x k → (k < Z.to_nat x.2)%nat →
  sent s ++ rest s (x :: D) P k = hist →
  ∃ s', tx_packet s = Done (true, s') ∧ inv s' H ch (x :: D) P c (S k) hist ∧ tx_room (hw s') = pred (tx_room (hw s)) ∧
    todo s (x :: D) P c k = S (todo s' (x :: D) P c (S k)).
Proof.
  intros B Sd Lt Eh. pose proof (co_fits _ _ _ _ _ _ (bs_core _ _ _ _ _ _ B)) as F. cbn in F. apply Forall_cons in F as [[R L] _].
  pose proof Sd as [Ec El Et Ea _]. unfold tx_packet. rewrite (bind_done (gets dev) _ s (dev s) s), Ea, El by done.
  rewrite (proj2 (Z.ltb_lt _ _)) by lia. rewrite (bind_done (gets client) _ s (client s) s), Ec by done. cbn [load client_inst shell_client].
  assert (Hb : is_Some (mem behind (client s) x.1 !! k)) by (apply lookup_lt_is_Some; lia). destruct Hb as [b Hb].
  rewrite load_mem, Nat2Z.id, Hb by lia. set (s1 := mk_dst (dev s) (wrote false b (hw s)) (client s)).
  rewrite (bind_done (uart_write false b) _ s tt s1) by done.
  set (s2 := mk_dst (e_cur (Some (buf_of x.1)) x.2 (packet_tag (dev s)) (u16 (Z.of_nat k + 1)) (dev s)) (wrote false b (hw s)) (client s)).
  rewrite (bind_done (upd_dev _) _ s1 tt s2) by done. exists s2. split; [done|].
  assert (Er : rest s (x :: D) P k = b :: rest s2 (x :: D) P (S k)).
  { unfold rest. change (client s2) with (client s). cbn [fmap list_fmap app concat]. pose proof (length_bytes (client s) x (conj R L)) as Lb.
    rewrite !drop_app_le by lia. rewrite (drop_S _ b k); [done|]. unfold bytes. by rewrite lookup_take_lt by lia. }
  split_and!; [split|done|unfold todo; rewrite Er; cbn; lia].
  - destruct B as [C]. split; try done. by apply (core_ext _ s).
  - right. exists x, D. split; [done|]. split; [|lia]. split; try done. cbn. rewrite u16_small; lia.
  - rewrite <-Eh, Er. rewrite (sent_wrote s2 false b (hw s) (client s)) by done. by rewrite <-app_assoc.
Qed.

(** The end of the packet: its completion, and the next from the pending queue. *)
Lemma core_advance s H x D P : core s H (x :: D) D P →
  core (mk_dst (e_queue (tx_list (dev s)) ((list_out_idx (dev s) + 1) mod TX_QUEUE_LEN) (list_in_idx (dev s)) (e_cur None 0 (packet_tag (dev s)) 0 (dev s))) (hw s) (client s)) H D D P.
Proof.
  intros C. pose proof (co_dev _ _ _ _ _ _ C) as [L R Lt]. cbn in R. apply ring_pop in R as [_ R]. rewrite L in R.
  split; try apply C; [|done]. split; [done|exact R|cbn in Lt; lia].
Qed.

Lemma packet_end s H ch D P c hist x : base s H ch (x :: D) P c → sending s x (Z.to_nat x.2) →
  sent s ++ rest s (x :: D) P (Z.to_nat x.2) = hist →
  ∃ s' l P', tx_packet s = Done (true, s') ∧ P = l ++ P' ∧ inv s' H ch (D ++ l) P' c 0 hist ∧ tx_room (hw s') = tx_room (hw s) ∧
    todo s (x :: D) P c (Z.to_nat x.2) = todo s' (D ++ l) P' c 0.
Proof.
  intros B Sd Eh. pose proof (bs_core _ _ _ _ _ _ B) as C. pose proof (co_fits _ _ _ _ _ _ C) as F. cbn in F. apply Forall_cons in F as [Fx _].
  pose proof Sd as [Ec El Et Ea _]. unfold tx_packet. rewrite (bind_done (gets dev) _ s (dev s) s), Ea, El by done.
  destruct Fx as [R L]. rewrite (proj2 (Z.ltb_ge _ _)), (bs_cb _ _ _ _ _ _ B), Ec, Et by lia. cbn [on_tx_complete client_inst shell_client].
  pose proof (bs_acct _ _ _ _ _ _ B) as Ac. unfold log_acct in Ac. cbn [fmap list_fmap app] in Ac.
  destruct (ack_run behind assert_text s H x D P C) as (s1 & E1 & Ak & C1).
  { intros Ex. rewrite <-fmap_app. rewrite Ex in Ac. by apply (ac_rsp _ _ _ _ _ Ac []). }
  apply acct_tail in Ac.
  assert (Lv1 : live s1) by (unfold live; rewrite (ak_dev _ _ _ _ Ak), (ak_hw _ _ _ _ Ak); apply B).
  destruct (process_any behind assert_text s1 H (x :: D) D P C1 Lv1) as (s2 & l & P' & E2 & -> & C2 & Sm & Lv2 & Hl & Hl').
  rewrite E2 in E1. rewrite (bind_done _ _ _ _ _ E1). pose proof (core_advance s2 H x (D ++ l) P' C2) as C3.
  assert (St : tx_stopped (dev s2) = false).
  { destruct l as [|y l]; [|by apply Hl']. destruct (Hl eq_refl) as [-> _]. rewrite (ak_dev _ _ _ _ Ak).
    destruct (tx_stopped (dev s)) eqn:E; [|done]. by destruct (bs_stop _ _ _ _ _ _ B E). }
  set (s3 := mk_dst _ (hw s2) (client s2)) in C3. rewrite (bind_done (upd_dev _) _ s2 tt (mk_dst (e_cur None 0 (packet_tag (dev s2)) 0 (dev s2)) (hw s2) (client s2))) by done.
  rewrite (bind_done (upd_dev _) _ _ tt s3) by done. exists s3, l, P'. split; [done|]. split; [done|].
  assert (Em : ∀ e, mem behind (client s3) e = mem behind (client s) e) by (intros e; etrans; [apply (sm_load _ _ _ Sm)|apply Ak]).
  assert (Er : rest s (x :: D) (l ++ P') (Z.to_nat x.2) = rest s3 (D ++ l) P' 0).
  { unfold rest. rewrite app_assoc. cbn [fmap list_fmap app concat]. rewrite drop_app_length' by (symmetry; by apply length_bytes). rewrite drop_0. f_equal.
    apply list_fmap_ext. intros i y _. symmetry. by apply bytes_load. }
  assert (Eo : sent s3 = sent s) by (unfold sent; cbn [hw s3]; by rewrite (sm_out _ _ _ Sm), (ak_hw _ _ _ _ Ak)).
  split_and!; [split| |unfold todo; by rewrite Er].
  - split; [exact C3|exact Lv2| | | | | | |].
    + cbn. by rewrite (sm_cb _ _ _ Sm), (ak_dev _ _ _ _ Ak), (bs_cb _ _ _ _ _ _ B).
    + cbn. by rewrite (sm_init _ _ _ Sm), (ak_init _ _ _ _ Ak), (bs_init _ _ _ _ _ _ B).
    + intros NP. destruct l as [|y l]; [|by destruct D]. destruct (Hl eq_refl) as [_ [E|E]]; [cbn in E; congruence|]. by destruct D.
    + destruct (sm_echo _ _ _ Sm) as (E4 & E5 & E6). cbn [s3 dev e_queue e_cur echo_buff echo_rd_idx echo_wr_idx]. rewrite E4, E5, E6, (ak_dev _ _ _ _ Ak). apply B.
    + intros E. cbn in E. congruence.
    + unfold log_acct. rewrite <-app_assoc. cbn [s3 client]. rewrite (sm_hint _ _ _ Sm), (ak_hint _ _ _ _ Ak), (sm_cmd _ _ _ Sm), (ak_cmd _ _ _ _ Ak).
      destruct (decide (x.1 = ERsp)); exact Ac.
    + cbn. rewrite (sm_cmd _ _ _ Sm), (ak_cmd _ _ _ _ Ak). destruct (decide _); apply B.
  - by left.
  - by rewrite Eo, <-Er.
  - cbn. by rewrite (sm_room _ _ _ Sm), (ak_hw _ _ _ _ Ak).
Qed.

(** What a round does: a byte out, a packet finished, or the end. *)
Definition progress s s' (go : bool) (n n' t t' : nat) : Prop :=
  if go then tx_room (hw s) = S (tx_room (hw s')) ∧ t = S t' ∧ n' = n ∨ tx_room (hw s') = tx_room (hw s) ∧ t' = t ∧ n = S n'
  else tx_room (hw s') = tx_room (hw s) ∧ t' = t ∧ n' = n ∧ (tx_room (hw s') = 0%nat ∨ tx_stopped (dev s') = true).

(** A packet of which [k] bytes are out, possibly an empty one. *)
Lemma packet_run s H ch D P c k hist x r : base s H ch (x :: D) P c → sending s x k → sent s ++ rest s (x :: D) P k = hist →
  tx_room (hw s) = S r →
  ∃ s' D' P' k', tx_packet s = Done (true, s') ∧ inv s' H ch D' P' c k' hist ∧
    progress s s' true (length ((x :: D) ++ P)) (length (D' ++ P')) (todo s (x :: D) P c k) (todo s' D' P' c k').
Proof.
  intros B Sd Eh Er. destruct (decide (k < Z.to_nat x.2)%nat) as [Lt|Ge].
  - destruct (packet_byte _ _ _ _ _ _ _ _ _ B Sd Lt Eh) as (s' & E & I & R & T). exists s', (x :: D), P, (S k). split; [done|]. split; [done|].
    left. split_and!; [rewrite R, Er; done|done|done].
  - assert (k = Z.to_nat x.2) as -> by (pose proof (sd_le _ _ _ Sd); lia).
    destruct (packet_end _ _ _ _ _ _ _ _ B Sd Eh) as (s' & l & P' & E & -> & I & R & T). exists s', (D ++ l), P', 0%nat. split; [done|]. split; [done|].
    right. split_and!; [done|done|]. rewrite <-app_assoc. done.
Qed.

Lemma echo_byte s H ch D P b c hist r : inv s H ch D P (b :: c) 0 hist → cur_packet (dev s) = None → tx_room (hw s) = S r →
  ∃ s', tx_round s = Done (true, s') ∧ inv s' H ch D P c 0 hist ∧ tx_room (hw s') = r ∧ todo s' D P c 0 = todo s D P c 0.
Proof.
  intros [B Pl Hh] Ec Er. destruct (bs_echo _ _ _ _ _ _ B) as (R & L & Lt). destruct (ring_pop _ _ _ _ _ R) as [Fb R']. rewrite L in R'.
  unfold tx_round. rewrite (bind_done (gets hw) _ s (hw s) s), Er by done. cbn [Nat.eqb].
  rewrite (bind_done (gets dev) _ s (dev s) s), Ec by done. cbn [orb].
  destruct (Nat.eqb_spec (echo_rd_idx (dev s)) (echo_wr_idx (dev s))) as [E|_].
  { exfalso. by apply (ring_empty_iff _ _ _ _ R) in E; [|rewrite L]. }
  cbn [negb]. rewrite (bind_done _ _ _ _ _ (fetch_run _ _ _ s Fb)).
  set (s1 := mk_dst (dev s) (wrote true b (hw s)) (client s)). rewrite (bind_done (uart_write true b) _ s tt s1) by done.
  set (s2 := mk_dst (e_echo (echo_buff (dev s)) (echo_wr_idx (dev s)) ((echo_rd_idx (dev s) + 1) mod ECHO_BUFF_SIZE) (dev s)) (wrote true b (hw s)) (client s)).
  rewrite (bind_done (upd_dev _) _ s1 tt s2) by done. exists s2. split; [done|]. split_and!; [split|cbn; by rewrite Er|done].
  - destruct B as [C]. split; try done; [by apply (core_ext _ s)|cbn; cbn in Lt; split_and!; [exact R'|done|lia]|].
    cbn. intros E. by destruct (bs_stop0 E).
  - destruct Pl as [[E _]|(x & D' & -> & Sd & Gt)]; [by left|]. destruct Sd. congruence.
  - rewrite <-Hh. rewrite (sent_wrote s2 true b (hw s) (client s)) by done. by rewrite app_nil_r.
Qed.

Lemma tx_round_ok s H ch D P c k hist : inv s H ch D P c k hist →
  ∃ s' go D' P' c' k', tx_round s = Done (go, s') ∧ inv s' H ch D' P' c' k' hist ∧
    progress s s' go (length (D ++ P)) (length (D' ++ P')) (todo s D P c k) (todo s' D' P' c' k').
Proof.
  intros I. pose proof I as [B Pl Hh]. destruct (tx_room (hw s)) as [|r] eqn:Er.
  { exists s, false, D, P, c, k. split; [unfold tx_round; by rewrite (bind_done (gets hw) _ s (hw s) s), Er by done|].
    split; [done|]. cbn. rewrite Er. split_and!; try done. by left. }
  destruct Pl as [[Ec ->]|(x & D' & -> & Sd & Gt)].
  - destruct c as [|b c].
    + unfold tx_round. rewrite (bind_done (gets hw) _ s (hw s) s), Er by done. cbn [Nat.eqb].
      rewrite (bind_done (gets dev) _ s (dev s) s), Ec by done. cbn [orb].
      destruct (bs_echo _ _ _ _ _ _ B) as (R & L & Lt). rewrite (proj2 (Nat.eqb_eq _ _)) by (by apply (ring_empty_iff _ _ _ _ R); [rewrite L|]).
      pose proof (co_dev _ _ _ _ _ _ (bs_core _ _ _ _ _ _ B)) as [Ld Rd Ltd]. cbn [negb]. destruct D as [|x D].
      * rewrite (proj2 (Nat.eqb_eq _ _)) by (by apply (ring_empty_iff _ _ _ _ Rd); [rewrite Ld|]).
        assert (P = []) as -> by (destruct P; [done|]; by destruct (bs_order _ _ _ _ _ _ B)).
        eexists _, false, [], [], [], 0%nat. split; [reflexivity|]. split; [|split_and!; try done; by right].
        destruct B as [C]. split; [|by left|exact Hh]. split; try done; [by apply (core_ext _ s)].
      * destruct (Nat.eqb_spec (list_out_idx (dev s)) (list_in_idx (dev s))) as [E|_].
        { exfalso. by apply (ring_empty_iff _ _ _ _ Rd) in E; [|rewrite length_fmap, Ld]. }
        cbn [negb]. cbn [fmap list_fmap] in Rd. destruct (ring_pop _ _ _ _ _ Rd) as [Fx _]. rewrite (bind_done _ _ _ _ _ (fetch_run _ _ _ s Fx)).
        set (s1 := mk_dst (e_cur (Some (buf_of x.1)) x.2 (tag_of x.1) 0 (dev s)) (hw s) (client s)).
        rewrite (bind_done (upd_dev _) _ s tt s1) by done. 
        assert (B1 : base s1 H ch (x :: D) P []) by (destruct B as [C]; split; try done; by apply (core_ext _ s)).
        destruct (packet_run s1 H ch D P [] 0 hist x r B1) as (s' & D2 & P2 & k2 & E & I' & Pg); [split; try done; cbn; lia|done|done|].
        exists s', true, D2, P2, [], k2. split; [exact E|]. split; [done|exact Pg].
    + destruct (echo_byte _ _ _ _ _ _ _ _ _ I Ec Er) as (s' & E & I' & Er' & Et). exists s', true, D, P, c, 0%nat. split; [done|]. split; [done|].
      left. split_and!; [by rewrite Er, Er'|rewrite Et; unfold todo; cbn; lia|done].
  - destruct (packet_run _ _ _ _ _ _ _ _ _ _ B Sd Hh Er) as (s' & D2 & P2 & k2 & E & I' & Pg). exists s', true, D2, P2, c, k2. split; [|by split].
    unfold tx_round. rewrite (bind_done (gets hw) _ s (hw s) s), Er by done. cbn [Nat.eqb].
    rewrite (bind_done (gets dev) _ s (dev s) s), (sd_cur _ _ _ Sd), (sd_len _ _ _ Sd), (proj2 (Z.eqb_neq _ _)) by (done || lia). exact E.
Qed.

(** The interrupt: it ends, having sent what the port had room for. *)
Lemma tx_loop_ok H ch hist : ∀ fuel s D P c k, inv s H ch D P c k hist → (tx_room (hw s) + length (D ++ P) < fuel)%nat →
  ∃ s' D' P' c' k', tx_loop fuel s = Done (tt, s') ∧ inv s' H ch D' P' c' k' hist ∧
    (tx_room (hw s') + todo s D P c k = tx_room (hw s) + todo s' D' P' c' k')%nat ∧
    (tx_room (hw s') = 0%nat ∨ tx_stopped (dev s') = true).
Proof.
  induction fuel as [|fuel IH]; intros s D P c k I Lt; [lia|]. cbn [tx_loop].
  destruct (tx_round_ok _ _ _ _ _ _ _ _ I) as (s1 & go & D1 & P1 & c1 & k1 & E & I1 & Pg). rewrite (bind_done _ _ _ _ _ E).
  destruct go; cbn [progress] in Pg.
  - destruct (IH s1 D1 P1 c1 k1 I1) as (s' & D' & P' & c' & k' & E' & I' & T & Hs); [lia|].
    exists s', D', P', c', k'. split; [done|]. split; [done|]. split; [lia|done].
  - exists s1, D1, P1, c1, k1. split; [done|]. split; [done|]. split; [lia|]. apply Pg.
Qed.

(** ** Handing in *)
Lemma block_count s H D A P : core s H D A P → (count is_log (A ++ P).*1 + length H ≤ 128)%nat.
Proof.
  intros C. pose proof (count_blocks _ (co_valid _ _ _ _ _ _ C)) as E. rewrite kind_count_app, <-fmap_app in E.
  assert (EH : count is_log H = length H).
  { apply count_all, C. }
  assert (N : ∀ q, (q < 3)%nat → (length (blocks_of q (H ++ (A ++ P).*1)) ≤ num_of q)%nat).
  { intros q Hq. destruct (lookup_lt_is_Some_2 (free_queue (client s)) q) as [f Hf]; [by rewrite (co_three _ _ _ _ _ _ C)|].
    rewrite fmap_app. by apply (pool_used q f), C. }
  rewrite <-EH, Nat.add_comm. etrans; [apply (Nat.eq_le_incl _ _ E)|]. etrans; [apply Nat.add_le_mono; [apply Nat.add_le_mono|]; apply N; lia|]. vm_compute. lia.
Qed.

(** The two flags that change around a new entry. *)
Definition set_ongoing (o : bool) s : st := mk_dst (dev s) (hw s) (s_cmd (c_ongoing o (cmd_line_buf (client s))) (client s)).
Definition set_hint (h : bool) s : st := mk_dst (dev s) (hw s) (s_hint h (client s)).
Lemma set_ongoing_id s o : rsp_ongoing (cmd_line_buf (client s)) = o → set_ongoing o s = s.
Proof. intros <-. by destruct s as [e h [fq b p [] ok fh ov cn ev]]. Qed.
Lemma set_hint_id s h : fault_hint_print (client s) = h → set_hint h s = s.
Proof. intros <-. by destruct s as [e h []]. Qed.

Lemma rest_snoc s D P k x D' P' : (k ≤ length (concat (bytes (client s) <$> D ++ P)))%nat → D' ++ P' = D ++ P ++ [x] →
  rest s D' P' k = rest s D P k ++ bytes (client s) x.
Proof. intros Le E. unfold rest. rewrite E, app_assoc, fmap_app, concat_app. rewrite drop_app_le by done. cbn. by rewrite app_nil_r. Qed.
Lemma place_le s H ch D P c k : base s H ch D P c → place s D k → (k ≤ length (concat (bytes (client s) <$> D ++ P)))%nat.
Proof.
  intros B [[_ ->]|(x & D' & -> & Sd & _)]; [lia|]. cbn. rewrite length_app.
  pose proof (co_fits _ _ _ _ _ _ (bs_core _ _ _ _ _ _ B)) as F. apply Forall_cons in F as [F _]. rewrite length_bytes by done. pose proof (sd_le _ _ _ Sd). lia.
Qed.

Lemma hand_in s H H' ch ch' D P c k hist x o h : inv s H ch D P c k hist →
  H ≡ₚ (if is_log x.1 then x.1 :: H' else H') → valid x.1 → fits behind (client s) x → (x.1 = ERsp → o = true) →
  acct (D ++ P ++ [x]).*1 (length H') h o ch' →
  ∃ s' D' P', send_log assert_text (tag_of x.1) x.2 (set_ongoing o s) = Done (tt, s') ∧
    inv (set_hint h s') H' ch' D' P' c k (hist ++ bytes (client s) x) ∧ same behind (set_ongoing o s) s'.
Proof.
  intros [B Pl Hh] Hp Vx Fx Rx Ac. pose proof (bs_core _ _ _ _ _ _ B) as C. pose proof (place_le _ _ _ _ _ _ _ B Pl) as Kle.
  assert (Em : ∀ e, mem behind (client (set_ongoing o s)) e = mem behind (client s) e) by (by intros []).
  assert (C0 : core (set_ongoing o s) H D D P).
  { split; [apply C..| |].
    - eapply Forall_impl; [apply (co_fits _ _ _ _ _ _ C)|]. intros y. by apply fits_load.
    - intros Hr. cbn. destruct o; [done|]. pose proof (ac_ongoing _ _ _ _ _ Ac eq_refl) as N. destruct N. rewrite !fmap_app, app_assoc. apply elem_of_app. by left. }
  assert (LP : (length P < 258)%nat).
  { assert (L : (length (D ++ P ++ [x]).*1 ≤ 259)%nat).
    { eapply acct_length; [exact Ac|]. pose proof (block_count _ _ _ _ _ C) as K. rewrite app_assoc, fmap_app, kind_count_app.
      etrans; [|exact K]. rewrite <-Nat.add_assoc. apply Nat.add_le_mono_l. apply Permutation_length in Hp. change ([x].*1) with [x.1].
      rewrite kind_count_cons, Hp. destruct (is_log x.1); cbn; lia. }
    rewrite length_fmap, !length_app in L. cbn in L. pose proof (bs_order _ _ _ _ _ _ B). destruct P; [cbn; lia|]. destruct D; [naive_solver|cbn in *; lia]. }
  destruct (push_run behind (set_ongoing o s) H H' D D P x C0 Hp LP Vx) as (p & E1 & C1); [exact (fits_load behind (client s) _ x Em Fx)|exact Rx|].
  set (s1 := mk_dst _ _ _) in *. unfold send_log. rewrite (bind_done _ _ _ _ _ E1).
  assert (Lv1 : live s1) by apply B.
  destruct (process_any behind assert_text s1 H' D D (P ++ [x]) C1 Lv1) as (s' & l & P' & E2 & El & C2 & Sm & Lv2 & Hl & Hl').
  exists s', (D ++ l), P'. split; [exact E2|].
  assert (Sm0 : same behind (set_ongoing o s) s') by (eapply same_trans; [|exact Sm]; split; try done; by intros []). split; [|exact Sm0].
  assert (Em' : ∀ e, mem behind (client s') e = mem behind (client s) e) by (intros e; rewrite (sm_load _ _ _ Sm0); apply Em).
  assert (Lo : (D ++ l) ++ P' = D ++ P ++ [x]) by (by rewrite <-app_assoc, <-El).
  split; [split| |].
  - by apply (core_ext _ s').
  - exact Lv2.
  - cbn. rewrite (sm_cb _ _ _ Sm0). apply B.
  - cbn. rewrite (sm_init _ _ _ Sm0). apply B.
  - intros NP. destruct l as [|y l]; [|by destruct D]. destruct (Hl eq_refl) as [_ [E|E]]; [by destruct P|by destruct D].
  - destruct (sm_echo _ _ _ Sm0) as (E4 & E5 & E6). cbn [set_hint dev]. rewrite E4, E5, E6. apply B.
  - cbn [set_hint dev]. intros St. destruct l as [|y l]; [|by rewrite Hl' in St]. destruct (Hl eq_refl) as [E' [E|E]]; [by destruct P|].
    rewrite E' in St. destruct (bs_stop _ _ _ _ _ _ B St) as [-> _]. done.
  - unfold log_acct. rewrite Lo. cbn [set_hint client]. change (acct (D ++ P ++ [x]).*1 (length H') h (rsp_ongoing (cmd_line_buf (client s'))) ch').
    rewrite (sm_cmd _ _ _ Sm0). exact Ac.
  - cbn. rewrite (sm_cmd _ _ _ Sm0). apply B.
  - by apply (place_ext s); [|apply (sm_cur _ _ _ Sm0)].
  - rewrite <-Hh, <-app_assoc. f_equal; [unfold sent; cbn; by rewrite (sm_out _ _ _ Sm0)|].
    rewrite <-(rest_snoc s D P k x (D ++ l) P') by done. unfold rest. f_equal. f_equal. apply list_fmap_ext. intros i y _. apply bytes_load. intros e. rewrite <-Em'. by destruct e.
Qed.

(** ** The system *)
(** The program's state, and what is noted about it: the blocks that tasks hold,
    whether the current command has had its hint, all bytes handed in so far, and how
    many tasks have found that no hint is out and not yet queued theirs. *)
Record world := mk_world { w_st : st; w_held : list entry; w_hinted : bool; w_hist : list Z; w_passed : nat }.
Implicit Types (w : world).

(** The steps that cannot be interrupted: of tasks that log, of the command task,
    and of the transmit interrupt, with the room it finds. *)
Inductive op :=
  | OAlloc (len : Z) | OWrite (q b off : nat) (bs : list Z) | OPush (q b : nat) (n : Z) | OHintTest | OHintQueue
  | OCmdHint | OAnswer (l : list Z) | ORsp (n : Z) | OEcho (bs : list Z) | OTx (room : nat).

(** What the callers keep to: a task writes and hands in only blocks it holds and
    within their length; the command task works only while no response is out. *)
Definition enabled (o : op) w : Prop :=
  let ongoing := rsp_ongoing (cmd_line_buf (client (w_st w))) in
  match o with
  | OAlloc _ | OHintTest | OEcho _ | OTx _ => True
  | OHintQueue => (0 < w_passed w)%nat
  | OWrite q b off bs => ELog q b ∈ w_held w ∧ (off + length bs ≤ len_of q)%nat
  | OPush q b n => ELog q b ∈ w_held w ∧ 0 ≤ n ≤ Z.of_nat (len_of q)
  | OCmdHint => ongoing = false ∧ w_hinted w = false
  | OAnswer l => ongoing = false ∧ length l = SHELL_RSP_BUF_LEN
  | ORsp n => ongoing = false ∧ 0 ≤ n ≤ Z.of_nat SHELL_RSP_BUF_LEN
  end.

(** No two tasks report the same failure: a hint is not queued when another task has
    queued one since the flag was read.  The code does not see to that, see
    [hint_race_loses_logs]. *)
Definition alone (o : op) w : Prop :=
  match o with OHintQueue => fault_hint_print (client (w_st w)) = false | _ => True end.

(** No interrupt takes more rounds: a byte each, or the end of a packet, of which
    259 at most wait. *)
Definition tx_fuel (room : nat) : nat := room + 260.

Definition then_world {A} (r : outcome (A * st)) (k : A → st → world) : outcome world :=
  match r with Done (a, s) => Done (k a s) | Trap t => Trap t end.
Definition remove_one (e : entry) (H : list entry) : list entry := match list_find (e =.) H with Some (i, _) => delete i H | None => H end.

Definition exec (o : op) w : outcome world :=
  let s := w_st w in let H := w_held w in let ch := w_hinted w in let hist := w_hist w in let n0 := w_passed w in
  match o with
  | OAlloc len => then_world (alloc_log_blk len s) (λ r s',
      mk_world s' (match r with Some (LogBuf q b, _) => ELog q b :: H | _ => H end) ch hist n0)
  | OWrite q b off bs => then_world (poke (LogBuf q b) off bs s) (λ _ s', mk_world s' H ch hist n0)
  | OPush q b n => then_world (send_log assert_text (tag_of (ELog q b)) n s) (λ _ s',
      mk_world s' (remove_one (ELog q b) H) ch (hist ++ bytes (client s) (ELog q b, n)) n0)
  | OHintTest => then_world (log_hint_test s) (λ h s', mk_world s' H ch hist (if h then n0 else S n0))
  | OHintQueue => then_world (log_hint_queue assert_text s) (λ _ s', mk_world s' H ch (hist ++ shell_fault_str) (pred n0))
  | OCmdHint => then_world (cmd_hint_out assert_text s) (λ _ s', mk_world s' H true (hist ++ bytes (client s) (ECmd, shell_fault_str_len)) n0)
  | OAnswer l => then_world (upd_cmd (c_rsp l) s) (λ _ s', mk_world s' H ch hist n0)
  | ORsp n => then_world (rsp_out assert_text None n s) (λ _ s', mk_world s' H false (hist ++ bytes (client s) (ERsp, n)) n0)
  | OEcho bs => then_world (echo_out bs s) (λ _ s', mk_world s' H ch hist n0)
  | OTx room => then_world (shell_uart_tx_isr (tx_fuel room) (mk_dst (dev s) (mk_port room (tx_out (hw s)) (tx_int (hw s)) (rx_fifo (hw s)) (rx_int (hw s))) (client s)))
      (λ _ s', mk_world s' H ch hist n0)
  end.

(** The program's memory before it starts, and the runs from the start. *)
Definition boot : st :=
  mk_dst (mk_ext 1 [] 0 0 None 0 0 0 false [] 0 0 false [] 0 0 false false) (mk_port 0 [] false [] false)
    (mk_shell ((λ d, mk_fq (replicate (d.1 * d.2) 0) (replicate d.1 0%nat) d.1 d.2 0 0 d.1 0) <$> dims) (mk_busy [] 0 0) (mk_pend [] 0 0)
       (mk_cmd (replicate SHELL_RSP_BUF_LEN 0) false CMD_TYPE_TEXT (replicate SHELL_CMD_BUF_LEN 0) 0 BKREG_WAIT_01 0 (replicate SHELL_ASSERT_BUF_LEN 0) 0 false)
       false false 0 0 false).
Inductive reach : world → Prop :=
  | reach_start s : shell_task_init boot = Done (tt, s) → reach (mk_world s [] false [] 0)
  | reach_step w o w' : reach w → enabled o w → alone o w → exec o w = Done w' → reach w'.

(** ** Every step keeps the invariant *)
Lemma inv_task s s' H H' ch D P c k hist : inv s H ch D P c k hist → dev s' = dev s → hw s' = hw s →
  core s' H' D D P → shell_init_ok (client s') = shell_init_ok (client s) →
  length (rsp_buff (cmd_line_buf (client s'))) = SHELL_RSP_BUF_LEN → (∀ x, x ∈ D ++ P → bytes (client s') x = bytes (client s) x) →
  log_acct s' H' ch D P → inv s' H' ch D P c k hist.
Proof.
  intros [B Pl Hh] Ed Eh C Ei El Eb Ac. split.
  - destruct B. split; try done; [unfold live|..]; by rewrite ?Ed, ?Eh, ?Ei.
  - rewrite <-(app_nil_r D). apply (place_ext s); [done|]. by rewrite Ed.
  - rewrite <-Hh. unfold sent, rest. rewrite Eh. do 3 f_equal. apply list_fmap_ext. intros i x Hx. apply Eb. by eapply list_elem_of_lookup_2.
Qed.
Lemma inv_kept s s' H H' ch D P c k hist : inv s H ch D P c k hist → kept s s' → core s' H' D D P →
  (∀ x, x ∈ D ++ P → bytes (client s') x = bytes (client s) x) → log_acct s' H' ch D P → inv s' H' ch D P c k hist.
Proof.
  intros I [Ed Eh Ec Ei] C Eb Ac. apply (inv_task s s' H); try done. rewrite Ec. apply I.
Qed.

Definition holds w : Prop := ∃ D P c k, inv (w_st w) (w_held w) (w_hinted w) D P c k (w_hist w).

Lemma alloc_holds w len : holds w → ∃ w', exec (OAlloc len) w = Done w' ∧ holds w'.
Proof.
  intros (D & P & c & k & I). pose proof (in_base _ _ _ _ _ _ _ _ I) as B. pose proof (bs_acct _ _ _ _ _ _ B) as Ac. unfold log_acct in Ac.
  destruct (block_alloc_run behind assert_text (w_st w) len _ _ _ _ (bs_core _ _ _ _ _ _ B)) as (r & s' & E & K & Em & Hr). cbn [exec]. rewrite E. eexists. split; [reflexivity|].
  exists D, P, c, k. destruct r as [[p t]|]; cbn [then_world w_st w_held w_hinted w_hist].
  - destruct Hr as (q & b & -> & -> & _ & C & Eh). eapply inv_kept; [done..| |]; [intros x _; by apply bytes_load|].
    unfold log_acct. rewrite (kp_cmd _ _ K), Eh. by eapply acct_alloc.
  - destruct Hr as (C & Eh & _). eapply inv_kept; [done..| |]; [intros x _; by apply bytes_load|].
    unfold log_acct. by rewrite (kp_cmd _ _ K), Eh.
Qed.

Lemma write_holds w q b off bs : holds w → enabled (OWrite q b off bs) w → ∃ w', exec (OWrite q b off bs) w = Done w' ∧ holds w'.
Proof.
  intros (D & P & c & k & I) [He Lo]. pose proof (in_base _ _ _ _ _ _ _ _ I) as B. pose proof (bs_acct _ _ _ _ _ _ B) as Ac. unfold log_acct in Ac.
  pose proof (bs_core _ _ _ _ _ _ B) as C. destruct (held_block _ _ _ _ _ _ _ _ C He) as (f & _ & _ & _ & _ & Na).
  destruct (poke_run behind (w_st w) _ _ _ _ q b off bs C He Lo) as (s' & E & K & C' & Eh & _ & Eo). cbn [exec]. rewrite E. eexists. split; [reflexivity|].
  exists D, P, c, k. cbn [then_world w_st w_held w_hinted w_hist]. eapply inv_kept; [done..| |].
  - intros x Hx. unfold bytes, ShellOps.bytes. assert (x.1 ∈ D.*1 ++ P.*1) by (rewrite <-fmap_app; by apply list_elem_of_fmap_2).
    rewrite Eo; [done| |intros Ex; apply Na; by rewrite <-Ex]. eapply Forall_forall; [apply (co_valid _ _ _ _ _ _ C)|]. set_solver.
  - unfold log_acct. by rewrite (kp_cmd _ _ K), Eh.
Qed.

Lemma answer_holds w l : holds w → enabled (OAnswer l) w → ∃ w', exec (OAnswer l) w = Done w' ∧ holds w'.
Proof.
  intros (D & P & c & k & I) [Eo El]. pose proof (in_base _ _ _ _ _ _ _ _ I) as B. pose proof (bs_acct _ _ _ _ _ _ B) as Ac. unfold log_acct in Ac.
  assert (N : ∀ x, x ∈ D ++ P → x.1 ≠ ERsp) by (intros x Hx E; apply (ac_ongoing _ _ _ _ _ Ac Eo); rewrite <-E; by apply list_elem_of_fmap_2).
  eexists. split; [reflexivity|]. exists D, P, c, k. cbn [then_world w_st w_held w_hinted w_hist].
  pose proof (bs_core _ _ _ _ _ _ B) as C.
  assert (Em : ∀ e, e ≠ ERsp → mem behind (s_cmd (c_rsp l (cmd_line_buf (client (w_st w)))) (client (w_st w))) e = mem behind (client (w_st w)) e) by (by intros []).
  eapply inv_task; [done..| |done|done| |exact Ac].
  - split; [apply C..| |apply C]. pose proof (co_fits _ _ _ _ _ _ C) as F. rewrite Forall_forall in *. intros x Hx. destruct (F x Hx) as [R L]. split; [done|]. cbn [client]. rewrite Em by auto. exact L.
  - intros x Hx. unfold bytes, ShellOps.bytes. cbn [client]. by rewrite Em by auto.
Qed.

Lemma remove_perm e H : e ∈ H → H ≡ₚ e :: remove_one e H.
Proof.
  intros He. unfold remove_one. destruct (list_find (e =.) H) as [[i x]|] eqn:F.
  - apply list_find_Some in F as (Hi & <- & _). by apply delete_Permutation.
  - apply list_find_None in F. rewrite Forall_forall in F. by destruct (F e He).
Qed.
Lemma log_valid s H D P q b : core s H D D P → ELog q b ∈ H → valid (ELog q b) ∧ length (mem behind (client s) (ELog q b)) = len_of q.
Proof.
  intros C He. destruct (held_block _ _ _ _ _ _ _ _ C He) as (f & Hf & Hq & Hb & Pk & _). split; [done|].
  cbn [mem]. unfold blk. rewrite Hf, (po_len _ _ _ Pk). apply length_sub. rewrite (po_buf _ _ _ Pk). nia.
Qed.
Lemma len_small q : (len_of q ≤ 136)%nat.
Proof. by destruct q as [|[|[|q]]]; [vm_compute; lia..|destruct q; vm_compute; lia]. Qed.

Lemma push_holds w q b n : holds w → enabled (OPush q b n) w → ∃ w', exec (OPush q b n) w = Done w' ∧ holds w'.
Proof.
  intros (D & P & c & k & I) [He Rn]. pose proof (in_base _ _ _ _ _ _ _ _ I) as B. pose proof (bs_acct _ _ _ _ _ _ B) as Ac. unfold log_acct in Ac.
  destruct (log_valid _ _ _ _ _ _ (bs_core _ _ _ _ _ _ B) He) as [V L]. pose proof (remove_perm _ _ He) as Hp. pose proof (len_small q).
  destruct (hand_in (w_st w) (w_held w) (remove_one (ELog q b) (w_held w)) (w_hinted w) (w_hinted w) D P c k (w_hist w) (ELog q b, n)
    (rsp_ongoing (cmd_line_buf (client (w_st w)))) (fault_hint_print (client (w_st w))) I Hp V) as (s' & D' & P' & E & I' & Sm); [|done| |].
  - split; cbn [fst snd]; [lia|]. rewrite L. lia.
  - rewrite app_assoc, fmap_app. apply acct_log. apply Permutation_length in Hp. cbn in Hp. by rewrite <-Hp.
  - rewrite set_ongoing_id in E, Sm by done. cbn [fst snd] in E. cbn [exec]. rewrite E. eexists. split; [reflexivity|].
    exists D', P', c, k. rewrite set_hint_id in I' by (apply (sm_hint _ _ _ Sm)). exact I'.
Qed.

Lemma send_then {A} t n s s' (m : M st A) : send_log assert_text t n s = Done (tt, s') →
  (push_pending_queue t n ;;; tx_req_process assert_text ;;; m) s = m s'.
Proof. unfold send_log, bind. destruct (push_pending_queue t n s) as [[[] s1]|]; [|done]. by intros ->. Qed.

Lemma test_holds w : holds w → ∃ w', exec OHintTest w = Done w' ∧ holds w'.
Proof. intros (D & P & c & k & I). eexists. split; [reflexivity|]. by exists D, P, c, k. Qed.
Lemma hint_holds w : holds w → alone OHintQueue w → ∃ w', exec OHintQueue w = Done w' ∧ holds w'.
Proof.
  intros (D & P & c & k & I) Eh. cbn [alone] in Eh. pose proof (in_base _ _ _ _ _ _ _ _ I) as B. pose proof (bs_acct _ _ _ _ _ _ B) as Ac. unfold log_acct in Ac.
  rewrite Eh in Ac. cbn [exec]. unfold log_hint_queue.
  destruct (hand_in (w_st w) (w_held w) (w_held w) (w_hinted w) (w_hinted w) D P c k (w_hist w) (EHint, shell_fault_str_len)
    (rsp_ongoing (cmd_line_buf (client (w_st w)))) true I) as (s' & D' & P' & E & I' & Sm); [done|done|by split|done| |].
  - rewrite app_assoc, fmap_app. by apply acct_push_hint.
  - rewrite set_ongoing_id in E by done. rewrite (send_then _ _ _ _ _ E). eexists. split; [reflexivity|]. exists D', P', c, k. exact I'.
Qed.

Lemma rsp_holds w n : holds w → enabled (ORsp n) w → ∃ w', exec (ORsp n) w = Done w' ∧ holds w'.
Proof.
  intros (D & P & c & k & I) [Eo Rn]. pose proof (in_base _ _ _ _ _ _ _ _ I) as B. pose proof (bs_acct _ _ _ _ _ _ B) as Ac. unfold log_acct in Ac.
  destruct (hand_in (w_st w) (w_held w) (w_held w) (w_hinted w) false D P c k (w_hist w) (ERsp, n)
    true (fault_hint_print (client (w_st w))) I) as (s' & D' & P' & E & I' & Sm); [done|done| |done| |].
  - split; cbn [fst snd mem]; [change (2 ^ 16) with 65536; unfold SHELL_RSP_BUF_LEN in *; lia|]. rewrite (bs_rsp _ _ _ _ _ _ B). lia.
  - rewrite app_assoc, fmap_app. eapply acct_push_rsp. by rewrite Eo in Ac.
  - cbn [exec]. unfold rsp_out, getc. rewrite (bind_done (gets _) _ (w_st w) (cmd_line_buf (client (w_st w))) (w_st w)) by done.
    rewrite (bind_done (ret tt) _ (w_st w) tt (w_st w)), (bind_done (upd_cmd _) _ (w_st w) tt (set_ongoing true (w_st w))) by done.
    cbn [fst snd tag_of] in E. rewrite (send_then _ _ _ _ _ E). eexists. split; [reflexivity|]. exists D', P', c, k.
    rewrite set_hint_id in I' by (apply (sm_hint _ _ _ Sm)). exact I'.
Qed.

(** The command hint's length is that of the other hint, longer than its text. *)
Lemma cmd_holds w : (4 ≤ length behind)%nat → holds w → enabled OCmdHint w → ∃ w', exec OCmdHint w = Done w' ∧ holds w'.
Proof.
  intros Lb (D & P & c & k & I) [Eo Ec]. pose proof (in_base _ _ _ _ _ _ _ _ I) as B. pose proof (bs_acct _ _ _ _ _ _ B) as Ac. unfold log_acct in Ac.
  destruct (hand_in (w_st w) (w_held w) (w_held w) (w_hinted w) true D P c k (w_hist w) (ECmd, shell_fault_str_len)
    (rsp_ongoing (cmd_line_buf (client (w_st w)))) (fault_hint_print (client (w_st w))) I) as (s' & D' & P' & E & I' & Sm); [done|done| |done| |].
  - split; cbn [fst snd mem]; [done|]. rewrite !length_app. change (length shell_cmd_ovf_str) with 22%nat. unfold shell_fault_str_len. cbn. lia.
  - rewrite app_assoc, fmap_app. rewrite Eo. apply acct_push_cmd. by rewrite Eo, Ec in Ac.
  - rewrite set_ongoing_id in E, Sm by done. cbn [exec]. unfold cmd_hint_out. cbn [fst snd tag_of] in E. rewrite (send_then _ _ _ _ _ E).
    eexists. split; [reflexivity|]. exists D', P', c, k. rewrite set_hint_id in I' by (apply (sm_hint _ _ _ Sm)). exact I'.
Qed.

(** Echo goes to the device's buffer as far as that has room. *)
Definition with_echo (l : list Z) (wr rd : nat) s : st := mk_dst (e_echo l wr rd (dev s)) (hw s) (client s).
Lemma echo_loop_run bs : ∀ s c n, ring (echo_buff (dev s)) (echo_rd_idx (dev s)) (echo_wr_idx (dev s)) c → length (echo_buff (dev s)) = ECHO_BUFF_SIZE →
  (length c < ECHO_BUFF_SIZE)%nat →
  ∃ l i cs, write_echo_loop (ECHO_BUFF_SIZE - length c) bs n s = Done ((n + length cs)%nat, with_echo l i (echo_rd_idx (dev s)) s) ∧
    ring l (echo_rd_idx (dev s)) i (c ++ cs) ∧ length l = ECHO_BUFF_SIZE ∧ (length (c ++ cs) < ECHO_BUFF_SIZE)%nat.
Proof.
  induction bs as [|b bs IH]; intros s c n R L Lt; cbn [write_echo_loop].
  { exists (echo_buff (dev s)), (echo_wr_idx (dev s)), []. rewrite app_nil_r. split_and!; try done. unfold ret. rewrite Nat.add_0_r. by destruct s as [[] h u]. }
  destruct (Nat.ltb_spec 1 (ECHO_BUFF_SIZE - length c)) as [L1|L1].
  - rewrite (bind_done (gets dev) _ s (dev s) s) by done. rewrite (bind_done _ _ _ _ _ (store_run _ _ b s (ring_in_lt _ _ _ _ R))).
    pose proof (ring_push _ _ _ _ b R ltac:(lia)) as R'. rewrite L in R'.
    set (l1 := <[echo_wr_idx (dev s) := b]> (echo_buff (dev s))) in *. set (i1 := ((echo_wr_idx (dev s) + 1) mod ECHO_BUFF_SIZE)%nat) in *.
    rewrite (bind_done (upd_dev _) _ s tt (with_echo l1 i1 (echo_rd_idx (dev s)) s)) by done.
    destruct (IH (with_echo l1 i1 (echo_rd_idx (dev s)) s) (c ++ [b]) (S n)) as (l & i & cs & E & R2 & L2 & Lt2); [exact R'|by unfold l1; cbn; rewrite length_insert|rewrite length_app; cbn; lia|].
    exists l, i, (b :: cs). replace (pred (ECHO_BUFF_SIZE - length c)) with (ECHO_BUFF_SIZE - length (c ++ [b]))%nat by (rewrite length_app; cbn [length]; lia).
    rewrite E. rewrite <-app_assoc in R2, Lt2. split_and!; try done. cbn [length]. by rewrite Nat.add_succ_r.
  - exists (echo_buff (dev s)), (echo_wr_idx (dev s)), []. rewrite app_nil_r. split_and!; try done. unfold ret. rewrite Nat.add_0_r. by destruct s as [[] h u].
Qed.

Lemma echo_out_run s c bs : ring (echo_buff (dev s)) (echo_rd_idx (dev s)) (echo_wr_idx (dev s)) c → length (echo_buff (dev s)) = ECHO_BUFF_SIZE →
  (length c < ECHO_BUFF_SIZE)%nat →
  ∃ r l i cs s1, s1 = with_echo l i (echo_rd_idx (dev s)) s ∧ echo_out bs s = Done (r, if (0 <? length cs)%nat then triggered s1 else s1) ∧
    ring l (echo_rd_idx (dev s)) i (c ++ cs) ∧ length l = ECHO_BUFF_SIZE ∧ (length (c ++ cs) < ECHO_BUFF_SIZE)%nat.
Proof.
  intros R L Lt. unfold echo_out, shell_uart_write_echo. destruct (length bs =? 0)%nat eqn:E0.
  { exists true, (echo_buff (dev s)), (echo_wr_idx (dev s)), [], s. rewrite app_nil_r. split_and!; try done. by destruct s as [[] h u]. }
  destruct (echo_loop_run bs s c 0 R L Lt) as (l & i & cs & E & R' & L' & Lt'). unfold bind at 1 2. cbn [gets].
  assert (Ef : ring_free ECHO_BUFF_SIZE (echo_rd_idx (dev s)) (echo_wr_idx (dev s)) = (ECHO_BUFF_SIZE - length c)%nat).
  { rewrite <-L. apply (ring_free_ok _ _ _ _ R). by rewrite L. }
  rewrite Ef, (bind_done _ _ _ _ _ E). cbn [Nat.add]. set (s1 := with_echo l i (echo_rd_idx (dev s)) s).
  assert (Et : (if (0 <? length cs)%nat then shell_uart_tx_trigger else ret tt) s1 = Done (tt, if (0 <? length cs)%nat then triggered s1 else s1)).
  { destruct (0 <? length cs)%nat; [apply trigger_run|done]. }
  rewrite (bind_done _ _ _ _ _ Et). eexists _, l, i, cs, s1. by split_and!.
Qed.

Lemma inv_echo s H ch D P c k hist l i cs : inv s H ch D P c k hist → ring l (echo_rd_idx (dev s)) i (c ++ cs) → length l = ECHO_BUFF_SIZE →
  (length (c ++ cs) < ECHO_BUFF_SIZE)%nat → ∀ s1 s2, s1 = with_echo l i (echo_rd_idx (dev s)) s →
  s2 = (if (0 <? length cs)%nat then triggered s1 else s1) → inv s2 H ch D P (c ++ cs) k hist.
Proof.
  intros [B Pl Hh] R L Lt s1 s2 E1 E2. pose proof (bs_core _ _ _ _ _ _ B) as C.
  assert (St : tx_stopped (dev s2) = true → D = [] ∧ c ++ cs = []).
  { destruct cs as [|b cs]; cbn [length Nat.ltb Nat.leb] in E2; [rewrite app_nil_r; subst; apply B|]. subst s2. unfold triggered. by destruct (tx_stopped (dev s1)) eqn:E; [|rewrite E]. }
  assert (X : ∃ b, s2 = mk_dst (e_stopped b (dev s1)) (mk_port (tx_room (hw s)) (tx_out (hw s)) (negb b) (rx_fifo (hw s)) (rx_int (hw s))) (client s)).
  { pose proof (bs_live _ _ _ _ _ _ B) as Lv. unfold live in Lv. subst s2. unfold triggered. destruct (0 <? length cs)%nat; [destruct (tx_stopped (dev s1)) eqn:E|].
    - exists false. by subst.
    - exists false. subst s1. destruct s as [[] [] u]. cbn in *. by subst.
    - exists (tx_stopped (dev s)). subst s1. destruct s as [[] [] u]. cbn in *. by subst. }
  clear E2. destruct X as [b ->]. subst s1. split; [|rewrite <-(app_nil_r D); by apply (place_ext s)|exact Hh].
  destruct B. split; try done. by apply (core_ext _ s).
Qed.
Lemma echo_holds w bs : holds w → ∃ w', exec (OEcho bs) w = Done w' ∧ holds w'.
Proof.
  intros (D & P & c & k & I). destruct (bs_echo _ _ _ _ _ _ (in_base _ _ _ _ _ _ _ _ I)) as (R & L & Lt).
  destruct (echo_out_run (w_st w) c bs R L Lt) as (r & l & i & cs & s1 & E1 & E & R' & L' & Lt'). cbn [exec]. rewrite E.
  eexists. split; [reflexivity|]. exists D, P, (c ++ cs), k. by apply (inv_echo _ _ _ _ _ _ _ _ l i cs I R' L' Lt' s1).
Qed.

(** The interrupt, with its fuel. *)
Lemma inv_room s H ch D P c k hist room : inv s H ch D P c k hist →
  inv (mk_dst (dev s) (mk_port room (tx_out (hw s)) (tx_int (hw s)) (rx_fifo (hw s)) (rx_int (hw s))) (client s)) H ch D P c k hist.
Proof.
  intros [B Pl Hh]. split; [|rewrite <-(app_nil_r D); by apply (place_ext s)|exact Hh].
  destruct B as [C]. split; try done. by apply (core_ext _ s).
Qed.
Lemma outstanding_le s H ch D P c : base s H ch D P c → (length (D ++ P) ≤ 259)%nat.
Proof.
  intros B. pose proof (acct_length _ _ _ _ _ (bs_acct _ _ _ _ _ _ B) (block_count _ _ _ _ _ (bs_core _ _ _ _ _ _ B))) as L. by rewrite length_fmap in L.
Qed.
Lemma tx_run w room D P c k : inv (w_st w) (w_held w) (w_hinted w) D P c k (w_hist w) →
  ∃ w' D' P' c' k', exec (OTx room) w = Done w' ∧ inv (w_st w') (w_held w) (w_hinted w) D' P' c' k' (w_hist w) ∧
    w_held w' = w_held w ∧ w_hinted w' = w_hinted w ∧ w_hist w' = w_hist w ∧
    (tx_room (hw (w_st w')) + todo (w_st w) D P c k = room + todo (w_st w') D' P' c' k')%nat ∧
    (tx_room (hw (w_st w')) = 0%nat ∨ tx_stopped (dev (w_st w')) = true).
Proof.
  intros I. pose proof (outstanding_le _ _ _ _ _ _ (in_base _ _ _ _ _ _ _ _ I)) as L.
  destruct (tx_loop_ok _ _ _ (tx_fuel room) _ D P c k (inv_room _ _ _ _ _ _ _ _ room I)) as (s' & D' & P' & c' & k' & E & I' & T & Hs); [unfold tx_fuel; cbn; lia|].
  cbn [exec]. unfold shell_uart_tx_isr. rewrite E. eexists _, D', P', c', k'. split; [reflexivity|]. by split_and!.
Qed.

(** The start. *)
Definition started : st :=
  mk_dst (mk_ext 1 (replicate TX_QUEUE_LEN (mk_pkt None 0 0)) 0 0 None 0 0 0 true (replicate ECHO_BUFF_SIZE 0) 0 0 true (replicate RX_BUFF_SIZE 0) 0 0 false true)
    (mk_port 0 [] false [] true)
    (mk_shell ((λ d, mk_fq (replicate (d.1 * d.2) 0) (seq 0 d.1) d.1 d.2 0 0 d.1 0) <$> dims) (mk_busy (replicate SHELL_LOG_BUSY_NUM 0) 0 0)
       (mk_pend (replicate SHELL_LOG_PEND_NUM (0, 0)) 0 0)
       (mk_cmd (replicate SHELL_RSP_BUF_LEN 0) false CMD_TYPE_INVALID (replicate SHELL_CMD_BUF_LEN 0) 0 BKREG_WAIT_01 0 (replicate SHELL_ASSERT_BUF_LEN 0) LOG_LEVEL true)
       true false 0 0 false).
Lemma start_run : shell_task_init boot = Done (tt, started).
Proof. reflexivity. Qed.
Lemma start_inv s : shell_task_init boot = Done (tt, s) → inv s [] false [] [] [] 0 [].
Proof.
  rewrite start_run. intros E. assert (s = started) as -> by congruence. clear E. split; [|by left|done]. split; try done; [|split_and!; [apply ring_empty; vm_compute; lia|done|vm_compute; lia]|apply acct_nil].
  split; try done.
  - cbn. intros q f Hf. destruct q as [|[|[|q]]]; [injection Hf as <-; split; try done; eexists; rewrite app_nil_r; split_and!; [apply ring_all; vm_compute; lia|done|done]..|done].
  - split; [done|]. apply ring_empty; vm_compute; lia.
  - split; [done|]. split; [apply ring_empty; vm_compute; lia|]. vm_compute. lia.
  - split; [done|apply ring_empty; vm_compute; lia|vm_compute; lia].
  - by intros ?%not_elem_of_nil.
Qed.

Lemma step_holds w o : (4 ≤ length behind)%nat → holds w → enabled o w → alone o w → ∃ w', exec o w = Done w' ∧ holds w'.
Proof.
  intros Lb Hw En Al. destruct o.
  - by apply alloc_holds.
  - by apply write_holds.
  - by apply push_holds.
  - by apply test_holds.
  - by apply hint_holds.
  - by apply cmd_holds.
  - by apply answer_holds.
  - by apply rsp_holds.
  - by apply echo_holds.
  - destruct Hw as (D & P & c & k & I). destruct (tx_run w room D P c k I) as (w' & D' & P' & c' & k' & E & I' & E1 & E2 & E3 & _).
    exists w'. split; [done|]. exists D', P', c', k'. by rewrite E1, E2, E3.
Qed.
Lemma reach_holds w : (4 ≤ length behind)%nat → reach w → holds w.
Proof.
  intros Lb. induction 1 as [s E|w o w' _ IH En Al E]; [by exists [], [], [], 0%nat; apply start_inv|].
  destruct (step_holds w o Lb IH En Al) as (w2 & E2 & H2). rewrite E in E2. by injection E2 as ->.
Qed.

(** ** The theorems *)
(** C5: The log path is a lossless queue.  From the start, after any interleaving of
    tasks that log, the command task and transmit interrupts in which no two tasks queue
    a hint for the same failure ([alone]: the code reads its flag before it disables
    interrupts, and [hint_race_loses_logs] is a run in which two tasks do), the bytes
    sent for packets are the beginning of the bytes handed in (each once and in order,
    echo aside), and whatever step a caller may take next, again but for a second hint,
    is carried out: no access goes out of its array or buffer, and no loop fails to
    end. *)
Theorem shell_log_fifo w : (4 ≤ length behind)%nat → reach w →
  (∃ r, w_hist w = sent (w_st w) ++ r) ∧ ∀ o, enabled o w → alone o w → ∃ w', exec o w = Done w'.
Proof.
  intros Lb R. pose proof (reach_holds w Lb R) as Hw. split.
  - destruct Hw as (D & P & c & k & [_ _ Hh]). by eexists.
  - intros o En Al. destruct (step_holds w o Lb Hw En Al) as (w' & E & _). by exists w'.
Qed.

(** C20: After any such interleaving (no two tasks queue a hint for the same failure)
    every block of every pool is in one place: free in the pool's ring, held by
    a task, or with an entry that waits or is being sent; the counter of a pool is
    the number of its free blocks; and the pending queue, which is written without a
    look at its room, does not hold more than the 258 entries that fit. *)
Theorem shell_log_queues w : (4 ≤ length behind)%nat → reach w → ∃ waiting : list entry,
  (∀ q f, free_queue (client (w_st w)) !! q = Some f → ∃ free, ring (blk_list f) (fq_out_idx f) (fq_in_idx f) free ∧
     free_blk_num f = length free ∧ free ++ blocks_of q (w_held w ++ waiting) ≡ₚ seq 0 (num_of q)) ∧
  let p := pending_queue (client (w_st w)) in
  ∃ Q, ring (packet_list p) (pend_out_idx p) (pend_in_idx p) Q ∧ (length Q < SHELL_LOG_PEND_NUM)%nat ∧ Q.*1 `suffix_of` tag_of <$> waiting.
Proof.
  intros Lb R. destruct (reach_holds w Lb R) as (D & P & c & k & [B _ _]). pose proof (bs_core _ _ _ _ _ _ B) as C. exists (D ++ P).*1. split.
  - intros q f Hf. rewrite fmap_app. apply (po_free _ _ _ (co_pools _ _ _ _ _ _ C q f Hf)).
  - destruct (co_pend _ _ _ _ _ _ C) as (L & Rp & Lt). exists (pend_of <$> P). rewrite length_fmap. split_and!; [done|done|].
    exists (tag_of <$> D.*1). rewrite fmap_app, fmap_app. f_equal. rewrite <-!list_fmap_compose. done.
Qed.

(** C10: After any such interleaving (no two tasks queue a hint for the same failure),
    one transmit interrupt that finds room for everything handed in so far and
    for the echo buffer sends all of it and stops the transmitter; afterwards every
    block that no task holds is free, and a response that was out is done. *)
Theorem shell_log_drains w room : (4 ≤ length behind)%nat → reach w → (length (w_hist w) + 64 ≤ length (sent (w_st w)) + room)%nat →
  ∃ w', exec (OTx room) w = Done w' ∧ sent (w_st w') = w_hist w ∧ w_hist w' = w_hist w ∧ w_held w' = w_held w ∧
    tx_stopped (dev (w_st w')) = true ∧ tx_int (hw (w_st w')) = false ∧ rsp_ongoing (cmd_line_buf (client (w_st w'))) = false ∧
    ∀ q f, free_queue (client (w_st w')) !! q = Some f → (free_blk_num f + length (blocks_of q (w_held w)) = num_of q)%nat.
Proof.
  intros Lb R Lr. destruct (reach_holds w Lb R) as (D & P & c & k & I). destruct (tx_run w room D P c k I) as (w' & D' & P' & c' & k' & E & I' & E1 & E2 & E3 & T & Hs).
  destruct I as [B _ Hh]. destruct I' as [B' _ Hh']. apply (f_equal length) in Hh. rewrite length_app in Hh.
  destruct (bs_echo _ _ _ _ _ _ B) as (_ & _ & Lc). unfold ECHO_BUFF_SIZE in Lc. destruct Hs as [Hs|Hs]; [unfold todo in T; lia|].
  destruct (bs_stop _ _ _ _ _ _ B' Hs) as [-> ->]. assert (P' = []) as -> by (destruct P'; [done|]; by destruct (bs_order _ _ _ _ _ _ B')).
  exists w'. split_and!; try done.
  - rewrite <-Hh'. unfold rest. cbn. by rewrite drop_nil, app_nil_r.
  - pose proof (bs_live _ _ _ _ _ _ B') as Lv. unfold live in Lv. by rewrite Lv, Hs.
  - pose proof (bs_acct _ _ _ _ _ _ B') as Ac. unfold log_acct in Ac. destruct (rsp_ongoing _); [|done]. pose proof (ac_on _ _ _ _ _ Ac eq_refl) as N. by apply not_elem_of_nil in N.
  - intros q f Hf. destruct (po_free _ _ _ (co_pools _ _ _ _ _ _ (bs_core _ _ _ _ _ _ B') q f Hf)) as (free & _ & -> & Pm).
    apply Permutation_length in Pm. rewrite length_app, length_seq in Pm. cbn [fmap list_fmap] in Pm. by rewrite !app_nil_r in Pm.
Qed.
End Log.

(** A run: a block is taken, filled and handed in, and a log finds no block. *)
Definition demo_ops : list op := [OAlloc 3; OWrite 0 0 0 [104; 105; 10]; OPush 0 0 3; OAlloc 200; OHintTest; OHintQueue].
Fixpoint run (behind : list Z) (assert_text : Z → Z → list Z) (os : list op) (w : world) : outcome world :=
  match os with [] => Done w | o :: os' => match exec behind assert_text o w with Done w' => run behind assert_text os' w' | Trap t => Trap t end end.
Definition demo_start : world := mk_world started [] false [] 0.
Definition demo : world := match run [0; 0; 0; 0] (λ _ _, []) demo_ops demo_start with Done w => w | Trap _ => demo_start end.
Lemma demo_reach : reach [0; 0; 0; 0] (λ _ _, []) demo.
Proof.
  assert (K : ∀ os w w', reach [0; 0; 0; 0] (λ _ _, []) w → run [0; 0; 0; 0] (λ _ _, []) os w = Done w' →
    (fix ok os w := match os with [] => True | o :: os' => enabled o w ∧ alone o w ∧ match exec [0; 0; 0; 0] (λ _ _, []) o w with Done w1 => ok os' w1 | Trap _ => False end end) os w →
    reach [0; 0; 0; 0] (λ _ _, []) w').
  { induction os as [|o os IH]; intros w w' R E Ok; cbn in E; [by injection E as <-|]. cbn in Ok. destruct Ok as (En & Al & Ok).
    destruct (exec _ _ o w) as [w1|] eqn:E1; [|done]. apply (IH w1); [by eapply (reach_step _ _ w o)|done|done]. }
  apply (K demo_ops demo_start); [by apply reach_start|vm_compute; reflexivity|].
  vm_compute. split_and!; try done; repeat constructor.
Qed.
(** ** Two tasks that report the same failure
    Without [alone]: a task logs, then two tasks find no block for a long text and both
    read the flag before either queues its hint; the next block clears the flag again. *)
Definition race_round (i : nat) : list op :=
  let q := if (i <? 64)%nat then 0%nat else 1%nat in
  [OAlloc 3; OPush q (if (i <? 64)%nat then i else i - 64) 3; OAlloc 200; OAlloc 200; OHintTest; OHintTest; OHintQueue; OHintQueue].
Definition race_ops : list op := concat (race_round <$> seq 0 89).
Definition enabled_b (o : op) (w : world) : bool :=
  match o with
  | OAlloc _ | OHintTest => true
  | OPush q b n => bool_decide (ELog q b ∈ w_held w) && (0 <=? n) && (n <=? Z.of_nat (len_of q))
  | OHintQueue => (0 <? w_passed w)%nat
  | _ => false
  end.
Lemma enabled_ok o w : enabled_b o w = true → enabled o w.
Proof.
  destruct o; cbn [enabled_b enabled]; intros E; try done; [|by apply Nat.ltb_lt].
  apply andb_true_iff in E as [E E3]. apply andb_true_iff in E as [E1 E2]. split; [by eapply bool_decide_eq_true|lia].
Qed.
Inductive steps behind assert_text : world → list op → world → Prop :=
  | steps_nil w : steps behind assert_text w [] w
  | steps_cons w o w1 os w2 : enabled o w → exec behind assert_text o w = Done w1 → steps behind assert_text w1 os w2 → steps behind assert_text w (o :: os) w2.
Fixpoint run_enabled (os : list op) (w : world) : option world :=
  match os with
  | [] => Some w
  | o :: os' => if enabled_b o w then match exec [0; 0; 0; 0] (λ _ _, []) o w with Done w' => run_enabled os' w' | Trap _ => None end else None
  end.
Lemma run_enabled_ok os : ∀ w w', run_enabled os w = Some w' → steps [0; 0; 0; 0] (λ _ _, []) w os w'.
Proof.
  induction os as [|o os IH]; intros w w' E; cbn [run_enabled] in E; [injection E as <-; constructor|].
  destruct (enabled_b o w) eqn:En; [|done]. destruct (exec _ _ o w) as [w1|] eqn:Ex; [|done]. econstructor; [by apply enabled_ok|exact Ex|by apply IH].
Qed.
(** After 89 rounds the pending queue, which has been written 260 times without being
    read, has come round: nearly all entries are gone.  An interrupt with room for
    all of them stops having sent less, and the blocks stay lost. *)
Definition race_lost (w' : world) : bool :=
  tx_stopped (dev (w_st w')) && bool_decide (w_held w' = []) && (length (sent (w_st w')) <? 200)%nat && (5000 <? length (w_hist w'))%nat &&
  negb (bool_decide ((free_blk_num <$> free_queue (client (w_st w'))) = [num_of 0; num_of 1; num_of 2])).
Lemma race_run : match run_enabled race_ops demo_start with
  | Some w => match exec [0; 0; 0; 0] (λ _ _, []) (OTx (100 * 100)) w with Done w' => race_lost w' | Trap _ => false end
  | None => false end = true.
Proof. vm_compute. reflexivity. Qed.
Theorem hint_race_loses_logs : ∃ w w', steps [0; 0; 0; 0] (λ _ _, []) demo_start race_ops w ∧
  exec [0; 0; 0; 0] (λ _ _, []) (OTx (100 * 100)) w = Done w' ∧ tx_stopped (dev (w_st w')) = true ∧ w_held w' = [] ∧
  (length (sent (w_st w')) < 200)%nat ∧ (5000 < length (w_hist w'))%nat ∧
  (free_blk_num <$> free_queue (client (w_st w'))) ≠ [num_of 0; num_of 1; num_of 2].
Proof.
  pose proof race_run as R. destruct (run_enabled race_ops demo_start) as [w|] eqn:E; [|done].
  destruct (exec _ _ _ w) as [w'|] eqn:Ex; [|done]. exists w, w'. split; [by apply run_enabled_ok|]. split; [exact Ex|].
  unfold race_lost in R. apply andb_true_iff in R as [R R5]. apply andb_true_iff in R as [R R4]. apply andb_true_iff in R as [R R3]. apply andb_true_iff in R as [R1 R2].
  split_and!; [exact R1|by eapply bool_decide_eq_true|by apply Nat.ltb_lt|by apply Nat.ltb_lt|]. intros F. by rewrite (bool_decide_true _ F) in R5.
Qed.

Lemma shell_log_fifo_witness : (4 ≤ length [0; 0; 0; 0])%nat ∧ (∃ r, w_hist demo = sent (w_st demo) ++ r) ∧
  ∀ o, enabled o demo → alone o demo → ∃ w', exec [0; 0; 0; 0] (λ _ _, []) o demo = Done w'.
Proof. split; [cbn; lia|apply (shell_log_fifo [0; 0; 0; 0] (λ _ _, []) demo); [cbn; lia|apply demo_reach]]. Defined.
Lemma shell_log_queues_witness : (4 ≤ length [0; 0; 0; 0])%nat ∧ ∃ waiting : list entry,
  (∀ q f, free_queue (client (w_st demo)) !! q = Some f → ∃ free, ring (blk_list f) (fq_out_idx f) (fq_in_idx f) free ∧
     free_blk_num f = length free ∧ free ++ blocks_of q (w_held demo ++ waiting) ≡ₚ seq 0 (num_of q)) ∧
  let p := pending_queue (client (w_st demo)) in
  ∃ Q, ring (packet_list p) (pend_out_idx p) (pend_in_idx p) Q ∧ (length Q < SHELL_LOG_PEND_NUM)%nat ∧ Q.*1 `suffix_of` tag_of <$> waiting.
Proof. split; [cbn; lia|apply (shell_log_queues [0; 0; 0; 0] (λ _ _, []) demo); [cbn; lia|apply demo_reach]]. Defined.
Lemma shell_log_drains_witness : (length (w_hist demo) + 64 ≤ length (sent (w_st demo)) + 200)%nat ∧
  ∃ w', exec [0; 0; 0; 0] (λ _ _, []) (OTx 200) demo = Done w' ∧ sent (w_st w') = w_hist demo ∧ w_hist w' = w_hist demo ∧ w_held w' = w_held demo ∧
    tx_stopped (dev (w_st w')) = true ∧ tx_int (hw (w_st w')) = false ∧ rsp_ongoing (cmd_line_buf (client (w_st w'))) = false ∧
    ∀ q f, free_queue (client (w_st w')) !! q = Some f → (free_blk_num f + length (blocks_of q (w_held demo)) = num_of q)%nat.
Proof.
  assert (L : (length (w_hist demo) + 64 ≤ length (sent (w_st demo)) + 200)%nat) by (apply Nat.leb_le; vm_compute; reflexivity).
  split; [exact L|apply (shell_log_drains [0; 0; 0; 0] (λ _ _, []) demo 200); [cbn; lia|apply demo_reach|exact L]].
Defined.
End ShellLog.
