(* ===== verification/ShellText.v ===== *)
(** * What the shell's log functions send

    The functions of ShellTask.v that log raw data, text, traces and spy data, run
    over the system of ShellLog.v: each takes a block, fills it and hands it in, so
    that exactly its bytes are added to the history, or notes that logs are lost.
    A text is a line with carriage return and newline at its end and the module's
    name in front; a binary log is a frame that a receiver can take apart. *)
From S2P Require Import Prelude Bytes Ring ShellUart ShellTask ShellOps ShellLog.
Import ShellTask ShellOps ShellLog.
Local Open Scope Z_scope.

Module ShellText.
Section Text.
Context (behind : list Z) (assert_text : Z → Z → list Z) (Lb : (4 ≤ length behind)%nat).
Local Abbreviation reach := (reach behind assert_text).
Local Abbreviation mem := (mem behind).
Implicit Types (s : st) (w : world) (q b off : nat).

(** The same world with another state of the program. *)
Definition in_state w s : world := mk_world s (w_held w) (w_hinted w) (w_hist w) (w_passed w).
Definition handed w s (bs : list Z) : world := mk_world s (w_held w) (w_hinted w) (w_hist w ++ bs) (w_passed w).

Lemma reach_core w : reach w → ∃ D P, core behind (w_st w) (w_held w) D D P.
Proof. intros R. destruct (reach_holds behind assert_text w Lb R) as (D & P & c & k & I). exists D, P. apply I. Qed.
Lemma reach_init w : reach w → shell_init_ok (client (w_st w)) = true.
Proof. intros R. destruct (reach_holds behind assert_text w Lb R) as (D & P & c & k & [B _ _]). apply B. Qed.
Lemma held_len w q b : reach w → ELog q b ∈ w_held w → length (mem (client (w_st w)) (ELog q b)) = len_of q.
Proof. intros R He. destruct (reach_core w R) as (D & P & C). apply (log_valid behind _ _ _ _ _ _ C He). Qed.

(** Writing into a held block. *)
Lemma poke_reach w q b off bs : reach w → ELog q b ∈ w_held w → (off + length bs ≤ len_of q)%nat →
  ∃ s, poke (LogBuf q b) off bs (w_st w) = Done (tt, s) ∧ reach (in_state w s) ∧
    cmd_line_buf (client s) = cmd_line_buf (client (w_st w)) ∧ mem (client s) (ELog q b) = write_at (mem (client (w_st w)) (ELog q b)) off bs.
Proof.
  intros R He Lo. destruct (reach_core w R) as (D & P & C).
  destruct (poke_run behind (w_st w) _ _ _ _ q b off bs C He Lo) as (s & E & K & _ & _ & Em & _). exists s. split; [done|]. split; [|split; [apply K|done]].
  apply (reach_step behind assert_text w (OWrite q b off bs)); [done|by split|done|]. cbn [exec]. by rewrite E.
Qed.

(** ** A log call
    [fill] makes [text] in any held block of at least [len] bytes. *)
Definition fills (len : Z) (fill : buf → M st Z) (text : list Z) : Prop := ∀ w q b, reach w → ELog q b ∈ w_held w → len ≤ Z.of_nat (len_of q) →
  ∃ s, fill (LogBuf q b) (w_st w) = Done (Z.of_nat (length text), s) ∧ reach (in_state w s) ∧ (length text ≤ len_of q)%nat ∧
    take (length text) (mem (client s) (ELog q b)) = text.
(** No pool whose blocks are long enough has one. *)
Definition no_block s (len : Z) : Prop := ∀ q f, free_queue (client s) !! q = Some f → len ≤ Z.of_nat (blk_len f) → free_blk_num f = 0%nat.
(** What is added when it has none: the hint, once until a block is taken again. *)
Definition hint_of s : list Z := if fault_hint_print (client s) then [] else shell_fault_str.
Definition logged w (len : Z) (text : list Z) (r : Z) (s : st) : Prop :=
  r = 1 ∧ reach (handed w s text) ∨ r = 0 ∧ reach (handed w s (hint_of (w_st w))) ∧ no_block (w_st w) len.

Lemma remove_head e H : remove_one e (e :: H) = H.
Proof. unfold remove_one. cbn. by rewrite decide_True. Qed.

Lemma log_with_ok w len fill text : reach w → fills len fill text →
  ∃ r s, log_with assert_text len fill (w_st w) = Done (r, s) ∧ logged w len text r s.
Proof.
  intros R F. destruct (reach_core w R) as (D & P & C). unfold log_with.
  destruct (block_alloc_run behind assert_text (w_st w) len _ _ _ _ C) as (a & s1 & E1 & K & Em & Ha). rewrite (bind_done _ _ _ _ _ E1).
  pose proof (reach_step behind assert_text w (OAlloc len) _ R I I ltac:(cbn [exec]; rewrite E1; reflexivity)) as R1. cbn [then_world] in R1.
  destruct a as [[p t]|].
  - destruct Ha as (q & b & -> & -> & Le & _). destruct (F _ q b R1) as (s2 & E2 & R2 & L2 & T2); [cbn; set_solver|done|].
    cbn [w_st] in E2. rewrite (bind_done _ _ _ _ _ E2). set (n := Z.of_nat (length text)) in *.
    match type of R2 with reach ?w2 => assert (En : enabled (OPush q b n) w2) by (split; [cbn; set_solver|lia]) end.
    destruct (step_holds behind assert_text _ _ Lb (reach_holds behind assert_text _ Lb R2) En I) as (w3 & E3 & _).
    pose proof (reach_step behind assert_text _ _ w3 R2 En I E3) as R3. cbn [exec w_st in_state] in E3.
    destruct (send_log assert_text (tag_of (ELog q b)) n s2) as [[[] s3]|] eqn:Es; [|done]. cbn [then_world] in E3.
    rewrite (bind_done _ _ _ _ _ Es). eexists _, s3. split; [reflexivity|]. left. split; [done|]. injection E3 as <-. cbn [w_held w_hist w_hinted in_state] in R3.
    rewrite remove_head in R3. unfold ShellOps.bytes in R3. cbn [fst snd] in R3. subst n. rewrite Nat2Z.id, T2 in R3. exact R3.
  - destruct Ha as (C1 & Eh & N). pose proof (reach_step behind assert_text _ OHintTest _ R1 I I eq_refl) as R2.
    assert (Hn : hint_of s1 = hint_of (w_st w)) by (unfold hint_of; by rewrite Eh). unfold logged. rewrite <-Hn. clear Hn. unfold hint_of.
    cbn [w_st in_state] in R2. destruct (fault_hint_print (client s1)) eqn:Ef.
    + assert (El : log_hint_out assert_text s1 = Done (true, s1)) by (unfold log_hint_out, log_hint_test, getc, gets, bind; by rewrite Ef).
      rewrite (bind_done _ _ _ _ _ El). eexists _, s1. split; [reflexivity|]. right. split; [done|]. split; [|exact N]. unfold handed. rewrite app_nil_r. exact R2.
    + destruct (hint_holds behind assert_text _ (reach_holds behind assert_text _ Lb R2) Ef) as (w3 & E3 & _).
      pose proof (reach_step behind assert_text _ OHintQueue w3 R2 ltac:(cbn; lia) Ef E3) as R3. cbn [exec w_st] in E3.
      destruct (log_hint_queue assert_text s1) as [[[] s2]|] eqn:Es; [|done]. cbn [then_world] in E3. injection E3 as <-.
      assert (El : log_hint_out assert_text s1 = Done (true, s2)) by (unfold log_hint_out, log_hint_test, getc, gets, bind at 1; by rewrite Ef, (bind_done _ _ _ _ _ Es)).
      rewrite (bind_done _ _ _ _ _ El). eexists _, s2. split; [reflexivity|]. right. split; [done|]. split; [|exact N]. exact R3.
Qed.

(** ** Making the bytes *)
(** The first [n] bytes of the block, as they are written one after the other. *)
Definition starts w q b (bs : list Z) : Prop := reach w ∧ ELog q b ∈ w_held w ∧ ∃ r, mem (client (w_st w)) (ELog q b) = bs ++ r.
Lemma starts_len w q b bs : starts w q b bs → (length bs ≤ len_of q)%nat.
Proof. intros (R & He & r & E). rewrite <-(held_len w q b R He), E, length_app. lia. Qed.
Lemma starts_take w q b bs : starts w q b bs → take (length bs) (mem (client (w_st w)) (ELog q b)) = bs.
Proof. intros (_ & _ & r & ->). by apply take_app_length. Qed.

(** Overwriting from [off] on, inside of what is there or right behind it. *)
Lemma starts_poke w q b bs off new : starts w q b bs → (off ≤ length bs)%nat → (off + length new ≤ len_of q)%nat →
  ∃ s, poke (LogBuf q b) off new (w_st w) = Done (tt, s) ∧ cmd_line_buf (client s) = cmd_line_buf (client (w_st w)) ∧ starts (in_state w s) q b (take off bs ++ new).
Proof.
  intros (R & He & r & E) L1 L2. destruct (poke_reach w q b off new R He L2) as (s & Ep & R' & Ec & Em). exists s. split; [done|]. split; [done|].
  split; [done|]. split; [done|]. cbn [w_st in_state]. rewrite Em, E. unfold write_at. rewrite take_app_le by done. eexists. by rewrite <-app_assoc.
Qed.
Lemma starts_keep w q b bs new : starts w q b (bs ++ new) → starts w q b bs.
Proof. intros (R & He & r & E). split; [done|]. split; [done|]. exists (new ++ r). by rewrite app_assoc. Qed.
Lemma starts_nil w q b : reach w → ELog q b ∈ w_held w → starts w q b [].
Proof. intros R He. split; [done|]. split; [done|]. by eexists. Qed.
Lemma starts_filled w q b text : starts w q b text →
  reach w ∧ (length text ≤ len_of q)%nat ∧ take (length text) (mem (client (w_st w)) (ELog q b)) = text.
Proof. intros S. split; [apply S|]. split; [by apply (starts_len w q b)|by apply starts_take]. Qed.

Lemma raw_fills d : fills (Z.of_nat (length d)) (λ p, poke p 0 d ;;; ret (Z.of_nat (length d))) d.
Proof.
  intros w q b R He Le. destruct (starts_poke w q b [] 0 d (starts_nil w q b R He)) as (s & E & _ & S); [done|lia|].
  exists s. rewrite (bind_done _ _ _ _ _ E). split; [done|]. by apply (starts_filled (in_state w s) q b d).
Qed.

(** ** Frames *)
(** A byte that a frame gives a meaning goes out as two. *)
Definition escape1 (b : Z) : list Z := if (b =? HEX_SYNC_CHAR) || (b =? HEX_ESC_CHAR) then [HEX_ESC_CHAR; Z.lxor b HEX_MOD_CHAR] else [b].
Definition escape (bs : list Z) : list Z := flat_map escape1 bs.
Definition frame (fields : list (list Z)) : list Z := HEX_SYNC_CHAR :: escape (concat fields) ++ [HEX_SYNC_CHAR].

Lemma escape_app x y : escape (x ++ y) = escape x ++ escape y.
Proof. apply flat_map_app. Qed.
Lemma escape_le bs : (length (escape bs) ≤ 2 * length bs)%nat.
Proof. induction bs as [|c bs IH]; [done|]. unfold escape in *. cbn [flat_map]. rewrite length_app. unfold escape1 at 1. destruct (_ || _); cbn [length]; lia. Qed.

(** The loop that appends, with room for every byte twice. *)
Lemma escape_loop_full data : ∀ buf_len cnt, cnt + 2 * Z.of_nat (length data) ≤ buf_len → escape_loop buf_len cnt data = escape data.
Proof.
  induction data as [|b data IH]; intros buf_len cnt L; [done|]. cbn [length] in L. cbn [escape_loop escape flat_map]. unfold escape1.
  destruct (_ || _); rewrite (proj2 (Z.ltb_lt _ _)), IH by lia; done.
Qed.

Lemma append_run w q b bs room f : starts w q b bs → 2 * Z.of_nat (length f) ≤ room → Z.of_nat (length bs) + room ≤ Z.of_nat (len_of q) →
  ∃ s, append_link_data_byte (LogBuf q b) (Z.of_nat (length bs)) room f (w_st w) = Done (Z.of_nat (length (escape f)), s) ∧ starts (in_state w s) q b (bs ++ escape f).
Proof.
  intros S L1 L2. pose proof (len_small q). pose proof (escape_le f). unfold append_link_data_byte.
  rewrite u16_small, escape_loop_full, Nat2Z.id by lia. destruct (Nat.ltb_spec 0 (length (escape f))) as [L|L].
  - destruct (starts_poke w q b bs (length bs) (escape f) S) as (s & E & _ & S'); [done|lia|]. exists s. rewrite (bind_done _ _ _ _ _ E).
    split; [done|]. by rewrite firstn_all in S'.
  - exists (w_st w). split; [done|]. assert (escape f = []) as -> by (apply nil_length_inv; lia). rewrite app_nil_r. by destruct w.
Qed.
Lemma fields_run q b len : (len ≤ Z.of_nat (len_of q)) → ∀ fields w bs, starts w q b bs →
  Z.of_nat (length bs) + 2 * Z.of_nat (length (concat fields)) < len →
  ∃ s, append_fields (LogBuf q b) (Z.of_nat (length bs)) len fields (w_st w) = Done (Z.of_nat (length (bs ++ escape (concat fields))), s) ∧
    starts (in_state w s) q b (bs ++ escape (concat fields)).
Proof.
  intros Lq. pose proof (len_small q). induction fields as [|f fields IH]; intros w bs S L; cbn [append_fields concat escape flat_map] in *.
  - exists (w_st w). rewrite app_nil_r. split; [done|]. by destruct w.
  - rewrite length_app in L. destruct (append_run w q b bs (len - Z.of_nat (length bs)) f S) as (s1 & E1 & S1); [lia|lia|].
    rewrite (bind_done _ _ _ _ _ E1). pose proof (escape_le f). rewrite u16_small by lia. rewrite <-Nat2Z.inj_add, <-length_app.
    destruct (IH (in_state w s1) (bs ++ escape f) S1) as (s2 & E2 & S2); [rewrite length_app; lia|].
    cbn [w_st in_state] in E2. exists s2. rewrite E2, escape_app, app_assoc. by split.
Qed.

Lemma frame_fills len fields : 2 * Z.of_nat (length (concat fields)) + 2 ≤ len → fills len (fill_frame len fields) (frame fields).
Proof.
  intros L w q b R He Le. pose proof (len_small q). pose proof (escape_le (concat fields)). unfold fill_frame.
  destruct (starts_poke w q b [] 0 [HEX_SYNC_CHAR] (starts_nil w q b R He)) as (s1 & E1 & _ & S1); [done|cbn; lia|]. rewrite (bind_done _ _ _ _ _ E1).
  destruct (fields_run q b len Le fields (in_state w s1) _ S1) as (s2 & E2 & S2); [cbn; lia|]. cbn [w_st in_state take app length] in E2.
  change (Z.of_nat 1) with 1 in E2. rewrite (bind_done _ _ _ _ _ E2). cbn [take app] in S2.
  destruct (starts_poke _ q b _ _ [HEX_SYNC_CHAR] S2 (le_n _)) as (s3 & E3 & _ & S3); [cbn [length]; lia|]. rewrite firstn_all in S3. cbn [w_st in_state] in E3.
  rewrite Nat2Z.id, (bind_done _ _ _ _ _ E3). exists s3. split.
  - unfold ret, frame. cbn [length]. rewrite length_app. cbn [length]. rewrite u16_small by lia. do 2 f_equal. lia.
  - apply (starts_filled (in_state w s3) q b (frame fields)). exact S3.
Qed.

(** ** Text *)
(** A line: carriage return and newline where the text ends in a newline alone. *)
Definition log_line (t : list Z) : list Z :=
  let n := length t in
  if bool_decide (last t = Some 10) && negb (bool_decide ((2 ≤ n)%nat ∧ t !! (n - 2)%nat = Some 13)) then take (n - 1) t ++ [13; 10] else t.
Definition named (mod_name : option (list Z)) (text : list Z) : list Z :=
  match mod_name with Some m => cstr (take MOD_NAME_LEN m) ++ [58] ++ text | None => text end.
Definition text_len (mod_name : option (list Z)) (text : list Z) : Z :=
  Z.of_nat (length text) + 1 + match mod_name with Some _ => Z.of_nat MOD_NAME_LEN + 2 | None => 0 end.

Lemma peek_run w q b bs i x : starts w q b bs → bs !! Z.to_nat i = Some x → 0 ≤ i → peek behind (LogBuf q b) i (w_st w) = Done (x, w_st w).
Proof.
  intros (R & He & r & E) Hx Hi. unfold peek. rewrite (bind_done (gets client) _ (w_st w) (client (w_st w)) (w_st w)) by done.
  pose proof (load_mem behind (client (w_st w)) (ELog q b) i) as Ld. cbn [buf_of] in Ld. rewrite E in Ld. rewrite Ld.
  - by rewrite (lookup_app_l_Some _ _ _ _ Hx).
  - apply lookup_lt_Some in Hx. rewrite length_app. lia.
Qed.
Lemma line_run w q b t : starts w q b t → (S (length t) ≤ len_of q)%nat →
  ∃ s, end_of_line (peek behind (LogBuf q b)) (λ i, poke (LogBuf q b) (Z.to_nat i)) (Z.of_nat (length t)) (w_st w) = Done (Z.of_nat (length (log_line t)), s) ∧
    starts (in_state w s) q b (log_line t).
Proof.
  intros S L. pose proof (len_small q). unfold end_of_line, log_line. rewrite last_lookup.
  destruct (Z.eqb_spec (Z.of_nat (length t)) 0) as [E0|N0].
  { exists (w_st w). assert (t = []) as -> by (apply nil_length_inv; lia). split; [done|]. by destruct w. }
  destruct (lookup_lt_is_Some_2 t (pred (length t))) as [x Hx]; [lia|]. rewrite Hx.
  rewrite (bind_done _ _ _ _ _ (peek_run w q b t (Z.of_nat (length t) - 1) x S ltac:(by replace (Z.to_nat _) with (pred (length t)) by lia) ltac:(lia))).
  destruct (Z.eqb_spec x 10) as [->|N]; cbn [negb]; [|rewrite bool_decide_eq_false_2 by congruence; exists (w_st w); split; [done|by destruct w]].
  rewrite (bool_decide_eq_true_2 (Some 10 = Some 10)) by done. cbn [andb].
  set (crlf := negb (bool_decide ((2 ≤ length t)%nat ∧ t !! (length t - 2)%nat = Some 13))).
  assert (Ec : (if Z.of_nat (length t) =? 1 then ret true else let* a := peek behind (LogBuf q b) (Z.of_nat (length t) - 2) in ret (negb (a =? 13))) (w_st w) = Done (crlf, w_st w)).
  { subst crlf. destruct (Z.eqb_spec (Z.of_nat (length t)) 1) as [E1|N1]; [rewrite bool_decide_eq_false_2 by lia; done|].
    destruct (lookup_lt_is_Some_2 t (length t - 2)) as [y Hy]; [lia|]. rewrite Hy.
    rewrite (bind_done _ _ _ _ _ (peek_run w q b t (Z.of_nat (length t) - 2) y S ltac:(by replace (Z.to_nat _) with (length t - 2)%nat by lia) ltac:(lia))).
    unfold ret. do 3 f_equal. destruct (Z.eqb_spec y 13) as [->|Ny]; [rewrite bool_decide_eq_true_2|rewrite bool_decide_eq_false_2]; try done; [split; [lia|done]|intros [_ [=]]; done]. }
  rewrite (bind_done _ _ _ _ _ Ec). destruct crlf; [|exists (w_st w); split; [done|by destruct w]].
  rewrite Nat2Z.id. destruct (starts_poke w q b t (length t) [10] S) as (s1 & E1 & _ & S1); [done|cbn; lia|]. rewrite (bind_done _ _ _ _ _ E1).
  rewrite firstn_all in S1. replace (Z.to_nat (Z.of_nat (length t) - 1)) with (length t - 1)%nat by lia.
  destruct (poke_reach (in_state w s1) q b (length t - 1) [13]) as (s2 & E2 & R2 & _ & M2); [apply S1|apply S|cbn; lia|]. cbn [w_st in_state] in E2. rewrite (bind_done _ _ _ _ _ E2).
  exists s2. split.
  - unfold ret. rewrite length_app, length_take, u16_small by lia. cbn [length]. do 2 f_equal. lia.
  - split; [exact R2|]. split; [apply S|]. destruct S1 as (_ & _ & r & E). exists r. cbn [w_st in_state] in *. rewrite M2, E.
    unfold write_at. cbn [length]. replace (length t - 1 + 1)%nat with (length t) by lia. rewrite <-!app_assoc, take_app_le, drop_app_length by lia. done.
Qed.

Lemma cstr_take n l : (length (cstr (take n l)) ≤ n)%nat ∧ take (strlen (take n l)) (take n l) = cstr (take n l).
Proof.
  assert (G : ∀ t, (length (cstr t) ≤ length t)%nat ∧ take (length (cstr t)) t = cstr t).
  { induction t as [|x t [A B]]; [done|]. cbn [cstr]. destruct (x =? 0); cbn [length take]; [split; [lia|done]|]. by rewrite B; split; [lia|]. }
  destruct (G (take n l)) as [A B]. split; [|exact B]. rewrite length_take in A. lia.
Qed.
Lemma name_run w q b mod_name : reach w → ELog q b ∈ w_held w → 7 ≤ Z.of_nat (len_of q) →
  match mod_name with Some m => (MOD_NAME_LEN ≤ length m)%nat | None => True end →
  ∃ s, put_mod_name (LogBuf q b) mod_name (w_st w) = Done (Z.of_nat (length (named mod_name [])), s) ∧ starts (in_state w s) q b (named mod_name []).
Proof.
  intros R He L Hm. destruct mod_name as [m|]; cbn [put_mod_name named].
  2:{ exists (w_st w). split; [done|]. destruct w. by apply starts_nil. }
  unfold MOD_NAME_LEN in *. rewrite (proj2 (Nat.ltb_ge _ _)) by done. set (nm := take 4 m). assert (Ln : length nm = 4%nat) by (unfold nm; rewrite length_take; lia).
  destruct (cstr_take 4 m) as [Lc Tc]. fold nm in Lc, Tc.
  destruct (starts_poke w q b [] 0 nm (starts_nil w q b R He)) as (s1 & E1 & _ & S1); [done|lia|]. rewrite (bind_done _ _ _ _ _ E1). cbn [take app] in S1.
  destruct (starts_poke _ q b nm 4 [0] S1) as (s2 & E2 & _ & S2); [lia|cbn; lia|]. cbn [w_st in_state] in E2. rewrite (bind_done _ _ _ _ _ E2).
  rewrite (take_ge nm 4) in S2 by lia. fold (strlen nm) in Lc.
  destruct (starts_poke _ q b _ (strlen nm) [58] S2) as (s3 & E3 & _ & S3); [rewrite length_app; lia|cbn; lia|]. cbn [w_st in_state] in E3. rewrite (bind_done _ _ _ _ _ E3).
  rewrite take_app_le, Tc in S3 by lia. assert (Lt : length (cstr nm ++ [58]) = S (strlen nm)) by (rewrite length_app; cbn; unfold strlen; lia).
  destruct (starts_poke _ q b _ (S (strlen nm)) [0] S3) as (s4 & E4 & _ & S4); [lia|cbn; lia|]. cbn [w_st in_state] in E4. rewrite (bind_done _ _ _ _ _ E4).
  exists s4. rewrite app_nil_r, Lt. split; [done|]. rewrite <-Lt, firstn_all in S4. exact (starts_keep (in_state w s4) q b _ _ S4).
Qed.

Lemma text_fills mod_name text : text_len mod_name text < 2 ^ 16 → (match mod_name with Some m => (MOD_NAME_LEN ≤ length m)%nat | None => True end) →
  fills (text_len mod_name text) (fill_text behind mod_name text (text_len mod_name text)) (log_line (named mod_name text)).
Proof.
  intros Lt Hm w q b R He Le. pose proof (len_small q) as Lq. unfold fill_text.
  assert (N : ∃ s1, put_mod_name (LogBuf q b) mod_name (w_st w) = Done (Z.of_nat (length (named mod_name [])), s1) ∧ starts (in_state w s1) q b (named mod_name [])).
  { destruct mod_name as [m|]; [apply name_run; try done; unfold text_len, MOD_NAME_LEN in *; lia|]. exists (w_st w). split; [done|]. destruct w. by apply starts_nil. }
  destruct N as (s1 & E1 & S1). rewrite (bind_done _ _ _ _ _ E1), Nat2Z.id.
  assert (Ln : Z.of_nat (length (named mod_name [])) + Z.of_nat (length text) + 1 ≤ text_len mod_name text).
  { unfold text_len. destruct mod_name as [m|]; cbn [named length]; [|lia]. rewrite !length_app. pose proof (cstr_take MOD_NAME_LEN m). unfold MOD_NAME_LEN in *. cbn [length]. lia. }
  rewrite (take_ge text) by lia.
  destruct (starts_poke _ q b _ (length (named mod_name [])) (text ++ [0]) S1 (le_n _)) as (s2 & E2 & _ & S2); [rewrite length_app; cbn; lia|]. cbn [w_st in_state] in E2.
  rewrite (bind_done _ _ _ _ _ E2). rewrite firstn_all, app_assoc in S2.
  assert (En : named mod_name [] ++ text = named mod_name text) by (destruct mod_name; cbn [named]; [by rewrite <-!app_assoc|done]). rewrite En in S2.
  rewrite <-Nat2Z.inj_add, <-length_app, En. apply (f_equal length) in En. rewrite length_app in En. rewrite u16_small by lia.
  pose proof (starts_keep _ q b _ _ S2) as S3.
  destruct (line_run _ q b _ S3) as (s3 & E3 & S4); [lia|]. cbn [w_st in_state] in E3. exists s3. split; [exact E3|]. by apply (starts_filled (in_state w s3) q b).
Qed.

(** ** The theorems *)
(** C32: A text that passes the log level is sent as a line: the module's name and a
    colon in front, carriage return and newline for a newline at the end, complete
    and in its place in the stream; or, when no block that is long enough is free, it
    is dropped and the hint takes its place, once until a block is taken again. *)
Theorem shell_log_out_ok w level mod_name text : reach w → shell_log_check (u8 level) (cmd_line_buf (client (w_st w))) = true →
  text_len mod_name text < 2 ^ 16 → match mod_name with Some m => (MOD_NAME_LEN ≤ length m)%nat | None => True end →
  ∃ s, shell_log_out behind assert_text level mod_name text (w_st w) = Done (1, s) ∧
    ∃ r, logged w (text_len mod_name text) (log_line (named mod_name text)) r s.
Proof.
  intros R Hl Lt Hm. destruct (log_with_ok w _ _ _ R (text_fills mod_name text Lt Hm)) as (r & s & E & Lg). exists s. split; [|by exists r].
  assert (Eu : match mod_name with Some _ => u16 (u16 (Z.of_nat (length text) + 1) + Z.of_nat MOD_NAME_LEN + 2) | None => u16 (Z.of_nat (length text) + 1) end = text_len mod_name text).
  { unfold text_len in *. destruct mod_name; rewrite !u16_small by (unfold MOD_NAME_LEN in *; rewrite ?u16_small; lia); lia. }
  unfold shell_log_out, shell_log_out_port, getc. pose proof (reach_init w R) as Ei.
  repeat (rewrite (bind_done (gets _) _ (w_st w) _ (w_st w) eq_refl); rewrite ?Ei, ?Hl; cbn [negb]).
  unfold bind at 1. repeat (rewrite (bind_done (gets _) _ (w_st w) _ (w_st w) eq_refl); rewrite ?Ei, ?Hl; cbn [negb]).
  rewrite Eu, (bind_done _ _ _ _ _ E). done.
Qed.

(** What a receiver does: a frame's payload is what is between two synchronisation
    bytes, with the escaped bytes put back. *)
Fixpoint unescape (l : list Z) : list Z :=
  match l with
  | [] => []
  | x :: l' => if x =? HEX_ESC_CHAR then match l' with [] => [] | y :: l2 => Z.lxor y HEX_MOD_CHAR :: unescape l2 end else x :: unescape l'
  end.
Fixpoint upto_sync (l : list Z) : option (list Z * list Z) :=
  match l with
  | [] => None
  | x :: l' => if x =? HEX_SYNC_CHAR then Some ([], l') else match upto_sync l' with Some (a, r) => Some (x :: a, r) | None => None end
  end.
Definition unframe (l : list Z) : option (list Z * list Z) :=
  match l with
  | x :: l' => if x =? HEX_SYNC_CHAR then match upto_sync l' with Some (a, r) => Some (unescape a, r) | None => None end else None
  | [] => None
  end.

Lemma unescape_escape bs : unescape (escape bs) = bs.
Proof.
  induction bs as [|x bs IH]; [done|]. unfold escape in *. cbn [flat_map]. unfold escape1 at 1.
  destruct ((x =? HEX_SYNC_CHAR) || (x =? HEX_ESC_CHAR)) eqn:E; cbn [app unescape].
  - rewrite Z.eqb_refl, Z.lxor_assoc, Z.lxor_nilpotent, Z.lxor_0_r. by rewrite IH.
  - apply orb_false_iff in E as [_ ->]. by rewrite IH.
Qed.
Lemma upto_sync_escape bs r : all_bytes bs → upto_sync (escape bs ++ HEX_SYNC_CHAR :: r) = Some (escape bs, r).
Proof.
  induction 1 as [|x bs Hx Hb IH]; [done|]. unfold escape in *. cbn [flat_map]. rewrite <-app_assoc. unfold escape1 at 1 3.
  destruct ((x =? HEX_SYNC_CHAR) || (x =? HEX_ESC_CHAR)) eqn:E; cbn [app upto_sync].
  - rewrite (proj2 (Z.eqb_neq HEX_ESC_CHAR HEX_SYNC_CHAR)), IH by done.
    assert (Z.lxor x HEX_MOD_CHAR ≠ HEX_SYNC_CHAR) as N%Z.eqb_neq; [|by rewrite N].
    apply orb_true_iff in E as [->%Z.eqb_eq| ->%Z.eqb_eq]; done.
  - apply orb_false_iff in E as [-> _]. by rewrite IH.
Qed.
Lemma unframe_frame fields r : all_bytes (concat fields) → unframe (frame fields ++ r) = Some (concat fields, r).
Proof.
  intros Hb. unfold frame, unframe. cbn [app]. rewrite Z.eqb_refl, <-app_assoc. cbn [app]. by rewrite upto_sync_escape, unescape_escape.
Qed.

(** C34: A trace is sent as one frame that holds its identifier, the time and at most
    ten arguments: no byte is left out for want of room in the block, and a receiver
    reads the fields back from the frame, whatever bytes they have and whatever
    follows it. *)
Theorem shell_trace_ok w now trace_id arg_num args : reach w → 0 ≤ arg_num →
  let fields := trace_fields trace_id now arg_num args in
  ∃ r s len, shell_trace_out assert_text now trace_id arg_num args (w_st w) = Done (r, s) ∧ logged w len (frame fields) r s ∧
    len ≤ Z.of_nat SHELL_LOG_BUF1_LEN ∧ ∀ rest, unframe (frame fields ++ rest) = Some (concat fields, rest).
Proof.
  intros R Hn fields. set (n := Z.min arg_num MAX_TRACE_ARGS + 1). set (len := (2 + n * 4) * 2 + 2).
  assert (Ln : 1 ≤ n ≤ 11) by (unfold n, MAX_TRACE_ARGS; lia).
  assert (Lf : ∀ l : list Z, length (concat (le_bytes <$> l)) = (4 * length l)%nat).
  { induction l as [|x l IH]; [done|]. cbn [fmap list_fmap concat]. rewrite length_app, length_le_bytes. fold (le_bytes <$> l). rewrite IH. cbn [length]. lia. }
  destruct (log_with_ok w len (fill_frame len fields) (frame fields) R) as (r & s & E & Lg).
  { apply frame_fills. subst fields. unfold trace_fields. cbn [concat]. rewrite !length_app, Lf, length_take, length_le_bytes. cbn [length u16_bytes]. lia. }
  exists r, s, len. split; [|split; [done|]].
  - unfold shell_trace_out, getc. rewrite (bind_done (gets _) _ (w_st w) _ (w_st w) eq_refl), (reach_init w R). cbn [negb]. fold n. fold len.
    rewrite u16_small by lia. exact E.
  - split; [unfold len, SHELL_LOG_BUF1_LEN; lia|]. intros rest. apply unframe_frame. subst fields. unfold trace_fields. cbn [concat].
    rewrite !all_bytes_app. split_and!; [repeat constructor; apply Z.mod_pos_bound; lia|apply le_bytes_bytes|].
    induction (take _ args) as [|x l IH]; [constructor|]. cbn [fmap list_fmap concat]. rewrite all_bytes_app. split; [apply le_bytes_bytes|exact IH].
Qed.

(** Spy data goes out as one frame, with the identifier and the time, and raw
    data as it is; both complete, in the stream's order, or not at all. *)
Theorem shell_data_ok w now spy_id data : reach w → (Z.of_nat (length data) < 32761) → all_bytes data →
  (∃ r s len, shell_spy_out assert_text now spy_id data (w_st w) = Done (r, s) ∧ logged w len (frame [u16_bytes spy_id; le_bytes now; data]) r s ∧
     ∀ rest, unframe (frame [u16_bytes spy_id; le_bytes now; data] ++ rest) = Some (u16_bytes spy_id ++ le_bytes now ++ data, rest)) ∧
  (data ≠ [] → ∃ r s, shell_log_raw_data assert_text (Some data) (w_st w) = Done (r, s) ∧ logged w (Z.of_nat (length data)) data r s).
Proof.
  intros R Ld Hb. split.
  - set (fields := [u16_bytes spy_id; le_bytes now; data]). set (len := (2 + 4 + Z.of_nat (length data)) * 2 + 2).
    destruct (log_with_ok w len (fill_frame len fields) (frame fields) R) as (r & s & E & Lg).
    { apply frame_fills. subst fields. cbn [concat]. rewrite !length_app, length_le_bytes. cbn [length u16_bytes]. lia. }
    exists r, s, len. split; [|split; [done|]].
    + unfold shell_spy_out, getc. rewrite (bind_done (gets _) _ (w_st w) _ (w_st w) eq_refl), (reach_init w R). cbn [negb]. fold len.
      rewrite u16_small by lia. exact E.
    + intros rest. assert (Ec : concat fields = u16_bytes spy_id ++ le_bytes now ++ data) by (unfold fields; cbn [concat]; by rewrite app_nil_r).
      rewrite <-Ec. apply unframe_frame. rewrite Ec, !all_bytes_app. split_and!; [repeat constructor; apply Z.mod_pos_bound; lia|apply le_bytes_bytes|done].
  - intros Ne. destruct (log_with_ok w _ _ _ R (raw_fills data)) as (r & s & E & Lg). exists r, s. split; [|done].
    unfold shell_log_raw_data, getc. rewrite (bind_done (gets _) _ (w_st w) _ (w_st w) eq_refl), (reach_init w R). cbn [negb].
    destruct data; [done|]. exact E.
Qed.

(** Before the start a text goes to the device directly, through a buffer of 140
    bytes and with the length that it would have in full: from 141 bytes on the end
    of the line is looked for behind the buffer. *)
Lemma direct_reads_behind s text : (140 < length text)%nat → Z.of_nat (length text) < 2 ^ 16 →
  length (assert_buff (cmd_line_buf (client s))) = SHELL_ASSERT_BUF_LEN → shell_log_out_direct text s = Trap Fault.
Proof.
  intros L Ls La. unfold shell_log_out_direct. rewrite u16_small by lia. unfold assert_poke at 1, getc.
  unfold bind at 1 2. cbn [gets]. rewrite La, length_app, length_take. rewrite (proj2 (Nat.leb_le _ _)) by (unfold SHELL_ASSERT_BUF_LEN; cbn [length]; lia).
  unfold upd_cmd, upd, modify, end_of_line, assert_peek, getc. rewrite (proj2 (Z.eqb_neq _ _)) by lia. unfold bind at 1 2 3. cbn [gets client s_cmd cmd_line_buf c_assert assert_buff].
  rewrite (lookup_ge_None_2 _ (Z.to_nat _)); [done|]. rewrite length_write_at; [rewrite La; unfold SHELL_ASSERT_BUF_LEN; lia|].
  rewrite La, length_app, length_take. unfold SHELL_ASSERT_BUF_LEN. cbn [length]. lia.
Qed.
End Text.

(** ** Instances *)
Lemma shell_log_out_ok_witness : (4 ≤ length [0; 0; 0; 0])%nat ∧
  ∃ s, shell_log_out [0; 0; 0; 0] (λ _ _, []) 3 (Some [97; 112; 112; 0]) [104; 105; 10] (w_st demo) = Done (1, s) ∧
    ∃ r, logged [0; 0; 0; 0] (λ _ _, []) demo (text_len (Some [97; 112; 112; 0]) [104; 105; 10]) (log_line (named (Some [97; 112; 112; 0]) [104; 105; 10])) r s.
Proof.
  split; [cbn; lia|]. apply (shell_log_out_ok [0; 0; 0; 0] (λ _ _, [])); [cbn; lia|apply demo_reach|vm_compute; reflexivity|vm_compute; reflexivity|cbn; unfold MOD_NAME_LEN; lia].
Defined.
Lemma shell_trace_ok_witness : let fields := trace_fields 0x1FE 1000 2 [0xFD; 7] in
  ∃ r s len, shell_trace_out (λ _ _, []) 1000 0x1FE 2 [0xFD; 7] (w_st demo) = Done (r, s) ∧ logged [0; 0; 0; 0] (λ _ _, []) demo len (frame fields) r s ∧
    len ≤ Z.of_nat SHELL_LOG_BUF1_LEN ∧ ∀ rest, unframe (frame fields ++ rest) = Some (concat fields, rest).
Proof. apply (shell_trace_ok [0; 0; 0; 0] (λ _ _, [])); [cbn; lia|apply demo_reach|lia]. Defined.
Example frame_example : frame [[0xFE; 1]; [0xFD]] = [0xFE; 0xFD; 0x01; 1; 0xFD; 0x02; 0xFE].
Proof. reflexivity. Qed.
Example line_example : log_line (named (Some [97; 112; 112; 0]) [104; 105; 10]) = [97; 112; 112; 58; 104; 105; 13; 10].
Proof. reflexivity. Qed.
End ShellText.
