(* ===== verification/ShellCmd.v ===== *)
(** * The shell's command line

    The receive interrupt, the editing of a line from what is received, and the
    binary register commands, of ShellUart.v and ShellTask.v: what is typed up to
    the end of a line is the command that is run, whatever is echoed. *)
From S2P Require Import Prelude Bytes Ring ShellUart ShellTask ShellOps ShellLog.
Import ShellTask ShellOps ShellLog.
Local Open Scope Z_scope.

Module ShellCmd.

(** ** Lines *)
Definition is_eol (b : Z) : bool := (b =? 10) || (b =? 13).
(** A line under editing: backspace takes the last character away, a control
    character is left out, and so is any character beyond the buffer. *)
Definition edit (line : list Z) (b : Z) : list Z :=
  if b =? 8 then take (length line - 1) line
  else if (0x20 <=? b) && (length line <? SHELL_CMD_BUF_LEN)%nat then line ++ [b] else line.
Definition printable (b : Z) : Prop := 0x20 ≤ b < 0x7f.

(** A text command is being received and is [line] so far. *)
Record typing (c : cmd_line_t) (line : list Z) : Prop := {
  ty_text : cur_cmd_type c = CMD_TYPE_TEXT;
  ty_buf : length (cmd_buff c) = SHELL_CMD_BUF_LEN;
  ty_len : cmd_data_len c = Z.of_nat (length line);
  ty_line : take (length line) (cmd_buff c) = line }.
Lemma typing_le c line : typing c line → (length line ≤ SHELL_CMD_BUF_LEN)%nat.
Proof. intros [_ Lb _ E]. rewrite <-E, length_take, Lb. lia. Qed.

Lemma typing_put c line b : typing c line → typing (put_cmd_byte b c) (if (length line <? SHELL_CMD_BUF_LEN)%nat then line ++ [b] else line).
Proof.
  intros T. pose proof (typing_le _ _ T) as Le. destruct T as [Ty Lb El E]. unfold put_cmd_byte. rewrite El, Lb, Nat2Z.id.
  destruct (Nat.ltb_spec (length line) SHELL_CMD_BUF_LEN) as [Lt|Ge].
  - rewrite (proj2 (Z.ltb_lt _ _)) by lia. split; cbn.
    + done.
    + by rewrite length_insert.
    + rewrite length_app. cbn. unfold u8, SHELL_CMD_BUF_LEN in *. rewrite Z.mod_small; lia.
    + rewrite length_app. cbn. rewrite Nat.add_1_r, (take_S_r _ _ b) by (by rewrite list_lookup_insert_eq by lia).
      rewrite take_insert_ge by lia. by rewrite E.
  - rewrite (proj2 (Z.ltb_ge _ _)) by lia. by split.
Qed.

Lemma rx_text_edit b x c line : typing c line → is_eol b = false →
  typing (rx_text b x c).2 (edit line b) ∧ cmd_rx_done (rx_text b x c).1 = cmd_rx_done x.
Proof.
  intros T Ne. pose proof (typing_le _ _ T) as Le. unfold rx_text, edit, is_eol in *. destruct (Z.eqb_spec b 8) as [->|N8].
  - destruct T as [Ty Lb El E]. rewrite El. destruct (Z.ltb_spec 0 (Z.of_nat (length line))) as [L|L]; (split; [|done]); cbn [snd].
    + split; cbn [cur_cmd_type c_data cmd_buff cmd_data_len]; [done|done|rewrite length_take; lia|].
      rewrite length_take, <-(f_equal (take (length line - 1)) E), take_take. by f_equal.
    + assert (line = []) as -> by (apply nil_length_inv; lia). by split.
  - rewrite Ne. cbn [snd fst]. split; [|done]. destruct (0x20 <=? b) eqn:E; cbn [andb]; [by apply typing_put|done].
Qed.

(** The end of the line: a terminator, over the last character of a full buffer. *)
Lemma rx_text_end b x c line : typing c line → is_eol b = true → (length line < SHELL_CMD_BUF_LEN)%nat →
  typing (rx_text b x c).2 line ∧ cmd_rx_done (rx_text b x c).1 = true ∧ cmd_buff (rx_text b x c).2 !! length line = Some 0.
Proof.
  intros [Ty Lb El E] Ne Lt. unfold rx_text, is_eol in *. destruct (Z.eqb_spec b 8) as [->|N8]; [done|]. rewrite Ne, El, Lb, (proj2 (Z.ltb_lt _ _)), Nat2Z.id by lia.
  cbn [snd fst cmd_rx_done c_data cmd_buff]. split_and!; [|done|by rewrite list_lookup_insert_eq by lia].
  split; cbn; [done|by rewrite length_insert|done|]. by rewrite take_insert_ge.
Qed.

(** ** Receiving *)
Section Receive.
Context (behind : list Z) (assert_text : Z → Z → list Z).
Implicit Types (s : st) (c : list Z).
#[local] Instance client_inst : ShellClient shell buf := shell_client behind assert_text.

(** The device's buffers: [c] was received and not read yet. *)
Record ready s c : Prop := {
  rd_rx : ring (rx_buff (dev s)) (rx_buff_rd_idx (dev s)) (rx_buff_wr_idx (dev s)) c;
  rd_len : length (rx_buff (dev s)) = RX_BUFF_SIZE;
  rd_less : (length c < RX_BUFF_SIZE)%nat;
  rd_echo : ∃ e, ring (echo_buff (dev s)) (echo_rd_idx (dev s)) (echo_wr_idx (dev s)) e ∧ length (echo_buff (dev s)) = ECHO_BUFF_SIZE ∧ (length e < ECHO_BUFF_SIZE)%nat }.

Lemma read_run s b c : ready s (b :: c) → ∃ s', shell_uart_read 1 s = Done ([b], s') ∧ client s' = client s ∧ ready s' c.
Proof.
  intros [R L Lt E]. destruct (ring_pop _ _ _ _ _ R) as [Fb R']. rewrite L in R'. unfold shell_uart_read. cbn [read_loop].
  rewrite (bind_done (gets dev) _ s (dev s) s) by done.
  destruct (Nat.eqb_spec (rx_buff_rd_idx (dev s)) (rx_buff_wr_idx (dev s))) as [Eq|_]; [by apply (ring_empty_iff _ _ _ _ R) in Eq; [|rewrite L]|].
  rewrite (bind_done _ _ _ _ _ (fetch_run _ _ _ s Fb)). eexists. split; [reflexivity|]. split; [done|]. split; [exact R'|done|cbn in Lt; lia|exact E].
Qed.
Lemma read_empty s : ready s [] → shell_uart_read 1 s = Done ([], s).
Proof.
  intros [R L Lt _]. unfold shell_uart_read. cbn [read_loop]. rewrite (bind_done (gets dev) _ s (dev s) s) by done.
  rewrite (proj2 (Nat.eqb_eq _ _)); [done|]. by apply (ring_empty_iff _ _ _ _ R); [rewrite L|].
Qed.

(** Echo always succeeds, in so far as nothing is awaited; it touches neither the
    command nor what was received. *)
Lemma echo_ready s c bs : ready s c → ∃ r s', echo_out bs s = Done (r, s') ∧ client s' = client s ∧ ready s' c.
Proof.
  intros Rd. pose proof Rd as [R L Lt (e & Re & Le & Lte)]. destruct (echo_out_run s e bs Re Le Lte) as (r & l & i & cs & s1 & E1 & E & R' & L' & Lt').
  assert (Rd1 : ready s1 c) by (subst s1; split; [done..|by exists (e ++ cs)]).
  exists r. eexists. split; [exact E|]. assert (Ec : client s1 = client s) by (by subst s1).
  destruct (triggered_ok behind s1) as (_ & Et & _). destruct (0 <? length cs)%nat; [|by split]. split; [congruence|].
  unfold triggered. destruct (tx_stopped (dev s1)); [by split; apply Rd1|done].
Qed.
Lemma rx_echo_ready b x s c : ready s c → ∃ s', rx_echo b x s = Done (tt, s') ∧ client s' = client s ∧ ready s' c.
Proof.
  intros Rd. assert (One : ∀ bs s0, ready s0 c → ∃ s', (let* _ := echo_out bs in ret tt) s0 = Done (tt, s') ∧ client s' = client s0 ∧ ready s' c).
  { intros bs s0 Rd0. destruct (echo_ready s0 c bs Rd0) as (r & s' & E & Ec & Rd'). exists s'. by rewrite (bind_done _ _ _ _ _ E). }
  assert (Nil : ∃ s', ret (S := st) tt s = Done (tt, s') ∧ client s' = client s ∧ ready s' c) by by exists s.
  unfold rx_echo, getc. rewrite (bind_done (gets _) _ s (cmd_line_buf (client s)) s) by done.
  repeat match goal with |- context [if ?b then _ else _] => destruct b end; try exact Nil; try by apply One.
  destruct (echo_ready s c (take (echo_len x) [b]) Rd) as (r & s1 & E & Ec & Rd1). rewrite (bind_done _ _ _ _ _ E), <-Ec. by apply One.
Qed.

(** One byte of the loop. *)
Lemma rx_ind_byte x s b c : ready s (b :: c) →
  let y := rx_byte b x (c_rsp (<[0%nat := b]> (rsp_buff (cmd_line_buf (client s)))) (cmd_line_buf (client s))) in
  ∃ s', (∀ fuel, rx_ind_loop (S fuel) x s = (if cmd_rx_done y.1 then ret (y.1, true) else rx_ind_loop fuel y.1) s') ∧ client s' = s_cmd y.2 (client s) ∧ ready s' c.
Proof.
  intros Rd y. destruct (read_run s b c Rd) as (s1 & E1 & Ec1 & Rd1). set (s2 := mk_dst (dev s1) (hw s1) (s_cmd y.2 (client s1))).
  destruct (rx_echo_ready b y.1 s2 c) as (s3 & E3 & Ec3 & Rd3); [by split; apply Rd1|].
  exists s3. split; [|split; [rewrite Ec3; cbn; by rewrite Ec1|done]]. intros fuel. cbn [rx_ind_loop]. rewrite (bind_done _ _ _ _ _ E1).
  unfold getc. rewrite (bind_done (gets _) _ s1 (cmd_line_buf (client s1)) s1), Ec1 by done. cbv zeta. fold y.
  rewrite (bind_done (upd_cmd _) _ s1 tt s2) by done. by rewrite (bind_done _ _ _ _ _ E3).
Qed.

Lemma typing_rsp d line l : typing d line → typing (c_rsp l d) line.
Proof. intros []. by split. Qed.

Lemma put_cmd_byte_rsp b (c : cmd_line_t) : rsp_buff (put_cmd_byte b c) = rsp_buff c.
Proof. unfold put_cmd_byte. by destruct (_ <? _). Qed.
Lemma rx_text_rsp b x (c : cmd_line_t) : rsp_buff (rx_text b x c).2 = rsp_buff c.
Proof.
  unfold rx_text. destruct (b =? 8); [by destruct (_ <? _)|]. destruct (_ || _); [by cbn|]. destruct (0x20 <=? b); [apply put_cmd_byte_rsp|done].
Qed.
Lemma rx_start_rsp b (c : cmd_line_t) : printable b → rsp_buff (rx_start b c).2 = rsp_buff c.
Proof.
  intros [P1 P2]. unfold rx_start. rewrite (proj2 (Z.leb_le _ _)), (proj2 (Z.ltb_lt _ _)) by lia. cbn [andb snd]. apply (put_cmd_byte_rsp b (c_data _ 0 (c_type _ c))).
Qed.

(** The rest of a line. *)
Lemma rx_line bs : ∀ fuel x s line t c, ready s (bs ++ t :: c) → (length bs < fuel)%nat → Forall (λ b, is_eol b = false) bs → is_eol t = true →
  typing (cmd_line_buf (client s)) line → cmd_rx_done x = false → (length (foldl edit line bs) < SHELL_CMD_BUF_LEN)%nat →
  ∃ y s', rx_ind_loop fuel x s = Done ((y, true), s') ∧ cmd_rx_done y = true ∧ typing (cmd_line_buf (client s')) (foldl edit line bs) ∧
    cmd_buff (cmd_line_buf (client s')) !! length (foldl edit line bs) = Some 0 ∧ ready s' c ∧
    length (rsp_buff (cmd_line_buf (client s'))) = length (rsp_buff (cmd_line_buf (client s))).
Proof.
  induction bs as [|b bs IH]; intros fuel x s line t c Rd Lf Fb Ht Ty Hx Ll; (destruct fuel as [|fuel]; [cbn in Lf; lia|]); cbn [app foldl] in *.
  - destruct (rx_ind_byte x s t c Rd) as (s' & E & Ec & Rd'). apply (typing_rsp _ _ (<[0%nat := t]> (rsp_buff (cmd_line_buf (client s))))) in Ty.
    rewrite E. unfold rx_byte in *. rewrite (ty_text _ _ Ty) in *. destruct (rx_text_end t x _ line Ty Ht Ll) as (T' & Hd & Z0). rewrite Hd.
    eexists _, s'. split; [reflexivity|]. rewrite Ec. cbn [s_cmd cmd_line_buf]. rewrite rx_text_rsp. cbn [c_rsp rsp_buff]. by rewrite length_insert.
  - destruct (rx_ind_byte x s b (bs ++ t :: c) Rd) as (s' & E & Ec & Rd'). apply (typing_rsp _ _ (<[0%nat := b]> (rsp_buff (cmd_line_buf (client s))))) in Ty.
    apply Forall_cons in Fb as [Hb Fb]. rewrite E. unfold rx_byte in *. rewrite (ty_text _ _ Ty) in *.
    destruct (rx_text_edit b x _ line Ty Hb) as (T' & Hd). rewrite Hd, Hx.
    destruct (IH fuel (rx_text b x (c_rsp (<[0%nat := b]> (rsp_buff (cmd_line_buf (client s)))) (cmd_line_buf (client s)))).1 s' (edit line b) t c) as (y & s2 & E2 & H2 & T2 & Z2 & R2 & L2);
      try done; [cbn in Lf; lia|by rewrite Ec|congruence|]. exists y, s2. split_and!; [done..|]. rewrite L2, Ec. cbn [s_cmd cmd_line_buf]. rewrite rx_text_rsp. cbn [c_rsp rsp_buff]. by rewrite length_insert.
Qed.

(** The whole line. *)
Lemma command_line_run s b bs t c : ready s (b :: bs ++ t :: c) → printable b → Forall (λ x, is_eol x = false) bs → is_eol t = true →
  cur_cmd_type (cmd_line_buf (client s)) = CMD_TYPE_INVALID → length (cmd_buff (cmd_line_buf (client s))) = SHELL_CMD_BUF_LEN →
  (length (foldl edit [b] bs) < SHELL_CMD_BUF_LEN)%nat →
  ∃ y s', rx_ind_loop (S (S (length (rx_buff (dev s))))) (mk_rx false false 0) s = Done ((y, true), s') ∧ cmd_rx_done y = true ∧
    let line := foldl edit [b] bs in let cmd := cmd_line_buf (client s') in
    cur_cmd_type cmd = CMD_TYPE_TEXT ∧ take (Z.to_nat (cmd_data_len cmd)) (cmd_buff cmd) = line ∧ cmd_buff cmd !! length line = Some 0 ∧ ready s' c ∧
      length (rsp_buff cmd) = length (rsp_buff (cmd_line_buf (client s))).
Proof.
  intros Rd Pb Fb Ht Ei Lb Ll. pose proof (rd_less _ _ Rd) as Lr. rewrite (rd_len _ _ Rd) in *. cbn [length] in Lr. rewrite length_app in Lr. cbn [length] in Lr.
  destruct (rx_ind_byte (mk_rx false false 0) s b (bs ++ t :: c) Rd) as (s1 & E & Ec & Rd1). rewrite E. unfold rx_byte in *.
  set (c0 := c_rsp _ _) in *. change (cur_cmd_type c0) with (cur_cmd_type (cmd_line_buf (client s))) in *. rewrite Ei in *. cbn [fst snd cmd_rx_done] in *.
  assert (T1 : typing (rx_start b c0).2 [b]).
  { unfold rx_start. destruct Pb as [P1 P2]. rewrite (proj2 (Z.leb_le _ _)), (proj2 (Z.ltb_lt _ _)) by lia. cbn [andb snd].
    apply (typing_put _ [] b). split; [done|exact Lb|done|done]. }
  destruct (rx_line bs (S RX_BUFF_SIZE) (mk_rx false false (rx_start b c0).1) s1 [b] t c Rd1) as (y & s' & E' & Hy & T & Z0 & Rd' & Lr'); [lia|done|done|by rewrite Ec|done|done|].
  exists y, s'. split; [exact E'|]. split; [done|]. cbv zeta. split_and!; [apply T| |done|done|].
  - rewrite (ty_len _ _ T), Nat2Z.id. apply T.
  - rewrite Lr', Ec. cbn [s_cmd cmd_line_buf]. rewrite rx_start_rsp by done. unfold c0. cbn [c_rsp rsp_buff]. by rewrite length_insert.
Qed.

(** A command line.  When the command task starts to read and no command is
    under way, the bytes received up to the first carriage return or newline are
    edited as a line (backspaces take characters away, control characters are left
    out) and the result, with a terminator behind it, is the command that is run;
    what was received behind the end stays for the next call, and the echo of the
    bytes, whether it has room or not, changes nothing of this. *)
Theorem shell_command_line s b bs t c : ready s (b :: bs ++ t :: c) → printable b → Forall (λ x, is_eol x = false) bs → is_eol t = true →
  cur_cmd_type (cmd_line_buf (client s)) = CMD_TYPE_INVALID → length (cmd_buff (cmd_line_buf (client s))) = SHELL_CMD_BUF_LEN →
  (length (foldl edit [b] bs) < SHELL_CMD_BUF_LEN)%nat →
  ∃ y s', rx_ind_loop (S (S (length (rx_buff (dev s))))) (mk_rx false false 0) s = Done ((y, true), s') ∧ cmd_rx_done y = true ∧
    let line := foldl edit [b] bs in let cmd := cmd_line_buf (client s') in
    cur_cmd_type cmd = CMD_TYPE_TEXT ∧ take (Z.to_nat (cmd_data_len cmd)) (cmd_buff cmd) = line ∧ cmd_buff cmd !! length line = Some 0 ∧ ready s' c.
Proof.
  intros. destruct (command_line_run s b bs t c) as (y & s' & E & Hy & L); try done. cbv zeta in L. destruct_and! L. exists y, s'. by split_and!.
Qed.

(** ** The receive interrupt *)
Definition fifo bs s : st := mk_dst (dev s) (mk_port (tx_room (hw s)) (tx_out (hw s)) (tx_int (hw s)) bs (rx_int (hw s))) (client s).
Lemma rx_loop_run bs : ∀ fuel free n s c, rx_fifo (hw s) = bs → (length bs < fuel)%nat → ready s c →
  (S n < free ∧ length c + free = RX_BUFF_SIZE + n ∨ free ≤ S n ∧ length c = RX_BUFF_SIZE - 1)%nat →
  ∃ s', rx_loop fuel free n s = Done (tt, s') ∧ ready s' (c ++ take (RX_BUFF_SIZE - 1 - length c) bs) ∧ client s' = client s ∧ rx_fifo (hw s') = [] ∧
    rx_indicate_callback (dev s') = rx_indicate_callback (dev s) ∧
    rx_over_flow (dev s') = rx_over_flow (dev s) || (RX_BUFF_SIZE - 1 - length c <? length bs)%nat.
Proof.
  induction bs as [|b bs IH]; intros fuel free n s c Ef Lf Rd Hf; (destruct fuel as [|fuel]; [cbn in Lf; lia|]); cbn [rx_loop].
  - unfold uart_read, bind at 1 2. cbn [gets]. rewrite Ef. exists s. rewrite take_nil, app_nil_r. split_and!; try done. cbn [length].
    rewrite (proj2 (Nat.ltb_ge _ _)) by lia. by rewrite orb_false_r.
  - assert (Er : uart_read s = Done (Some b, fifo bs s)) by (unfold uart_read, bind at 1; cbn [gets]; rewrite Ef; done). rewrite (bind_done _ _ _ _ _ Er).
    rewrite (bind_done (gets dev) _ (fifo bs s) (dev s) (fifo bs s)) by done. cbn [length] in Lf. destruct Hf as [[L1 L2]|[L1 L2]].
    + rewrite (proj2 (Nat.ltb_lt _ _)) by done. pose proof Rd as [R L Lt E].
      pose proof (ring_push _ _ _ _ b R ltac:(lia)) as R'. rewrite L in R'.
      set (s1 := mk_dst (e_rx (<[rx_buff_wr_idx (dev s) := b]> (rx_buff (dev s))) ((rx_buff_wr_idx (dev s) + 1) mod RX_BUFF_SIZE) (rx_buff_rd_idx (dev s)) (dev s)) (hw (fifo bs s)) (client s)).
      assert (Es : (let* l := store_at (rx_buff (dev s)) (rx_buff_wr_idx (dev s)) b in
        upd_dev (e_rx l ((rx_buff_wr_idx (dev s) + 1) mod RX_BUFF_SIZE) (rx_buff_rd_idx (dev s)))) (fifo bs s) = Done (tt, s1)).
      { by rewrite (bind_done _ _ _ _ _ (store_run _ _ b (fifo bs s) (ring_in_lt _ _ _ _ R))). }
      rewrite (bind_done _ _ _ _ _ Es). destruct (IH fuel free (S n) s1 (c ++ [b])) as (s' & E1 & Rd' & Ec & E2 & E3 & E4); [done|lia| |rewrite length_app; cbn [length]; lia|].
      { split; [exact R'|by cbn; rewrite length_insert|rewrite length_app; cbn [length]; lia|exact E]. }
      exists s'. split; [exact E1|]. rewrite length_app, <-app_assoc in *. cbn [length] in *.
      replace (RX_BUFF_SIZE - 1 - length c)%nat with (S (RX_BUFF_SIZE - 1 - (length c + 1)))%nat by lia. split_and!; try done.
    + rewrite (proj2 (Nat.ltb_ge _ _)) by done. set (s1 := mk_dst (e_ovf true (dev s)) (hw (fifo bs s)) (client s)).
      rewrite (bind_done (upd_dev _) _ (fifo bs s) tt s1) by done.
      destruct (IH fuel free (S n) s1 c) as (s' & E1 & Rd' & Ec & E2 & E3 & E4); [done|lia|by split; apply Rd|right; lia|].
      exists s'. split; [exact E1|]. replace (RX_BUFF_SIZE - 1 - length c)%nat with 0%nat in * by lia. split_and!; try done.
      rewrite E4. cbn. by rewrite !orb_true_r.
Qed.

(** The receive interrupt takes every byte out of the port.  Those that the
    receive buffer has room for are stored in order behind what was not read yet;
    the others are dropped, which sets the overflow flag; and the command task is
    woken up. *)
Theorem shell_rx_isr_ok s c : ready s c → rx_indicate_callback (dev s) = true → let bs := rx_fifo (hw s) in
  ∃ s', shell_uart_rx_isr s = Done (tt, s') ∧ ready s' (c ++ take (RX_BUFF_SIZE - 1 - length c) bs) ∧ rx_fifo (hw s') = [] ∧
    client s' = s_event true (client s) ∧ rx_over_flow (dev s') = rx_over_flow (dev s) || (RX_BUFF_SIZE - 1 - length c <? length bs)%nat.
Proof.
  intros Rd Hi bs. unfold shell_uart_rx_isr. rewrite (bind_done (gets dev) _ s (dev s) s), (bind_done (gets hw) _ s (hw s) s) by done. fold bs.
  pose proof Rd as [R L Lt E]. assert (Ef : ring_free RX_BUFF_SIZE (rx_buff_rd_idx (dev s)) (rx_buff_wr_idx (dev s)) = (RX_BUFF_SIZE - length c)%nat).
  { rewrite <-L. apply (ring_free_ok _ _ _ _ R). by rewrite L. }
  rewrite Ef. destruct (rx_loop_run bs (S (length bs)) (RX_BUFF_SIZE - length c) 0 s c eq_refl ltac:(lia) Rd) as (s1 & E1 & Rd1 & Ec & E2 & E3 & E4); [lia|].
  rewrite (bind_done _ _ _ _ _ E1), (bind_done (gets dev) _ s1 (dev s1) s1), E3, Hi by done. cbn [on_rx_indicate client_inst shell_client].
  exists (mk_dst (dev s1) (hw s1) (s_event true (client s1))). split_and!; [done|by split; apply Rd1|done|by cbn; rewrite Ec|done].
Qed.

(** ** Register commands *)
(** A register command is being received, [bs] so far, and [left] bytes are to come. *)
Record collecting (d : cmd_line_t) (bs : list Z) (left : nat) : Prop := {
  cl_type : cur_cmd_type d = CMD_TYPE_BKREG;
  cl_buf : length (cmd_buff d) = SHELL_CMD_BUF_LEN;
  cl_len : cmd_data_len d = Z.of_nat (length bs);
  cl_bytes : take (length bs) (cmd_buff d) = bs;
  cl_left : bkreg_left_byte d = Z.of_nat left;
  cl_room : (length bs + left < SHELL_CMD_BUF_LEN)%nat }.

Lemma collect_put d bs left b : collecting d bs (S left) →
  let d' := put_cmd_byte b d in collecting (c_left (u8 (bkreg_left_byte d' - 1)) d') (bs ++ [b]) left.
Proof.
  intros [Ty Lb El E Lf Rm]. unfold put_cmd_byte, SHELL_CMD_BUF_LEN in *. rewrite El, Lb, Nat2Z.id, (proj2 (Z.ltb_lt _ _)) by lia.
  cbv zeta. split; cbn.
  - done.
  - by rewrite length_insert.
  - rewrite length_app. cbn. unfold u8. rewrite Z.mod_small; lia.
  - rewrite length_app. cbn. rewrite Nat.add_1_r, (take_S_r _ _ b) by (by rewrite list_lookup_insert_eq by lia).
    rewrite take_insert_ge by lia. by rewrite E.
  - rewrite Lf. unfold u8. rewrite Z.mod_small; lia.
  - rewrite length_app. cbn [length]. unfold SHELL_CMD_BUF_LEN. lia.
Qed.

(** The byte of the length, and each one behind it. *)
Lemma rx_bkreg_length n x d : cur_cmd_type d = CMD_TYPE_BKREG → length (cmd_buff d) = SHELL_CMD_BUF_LEN → cmd_data_len d = 3 →
  take 3 (cmd_buff d) = [0x01; 0xE0; 0xFC] → (n < 136)%nat →
  cmd_rx_done (rx_bkreg (Z.of_nat n) x d).1 = (n =? 0)%nat ∧ collecting (rx_bkreg (Z.of_nat n) x d).2 [0x01; 0xE0; 0xFC; Z.of_nat n] n.
Proof.
  intros Ty Lb El E Ln. unfold rx_bkreg. rewrite El, Z.eqb_refl. cbn [andb c_left cmd_buff bkreg_left_byte]. unfold SHELL_CMD_BUF_LEN in *.
  rewrite Lb, (proj2 (Z.leb_gt _ _)), andb_false_r by (unfold u8; rewrite Z.mod_small; lia).
  pose proof (collect_put (c_left (u8 (Z.of_nat n + 1)) d) [0x01; 0xE0; 0xFC] n (Z.of_nat n)) as C. cbv zeta in C. cbn [app] in C.
  assert (C' : collecting (c_left (u8 (Z.of_nat n + 1)) d) [0x01; 0xE0; 0xFC] (S n)).
  { split; try done; [cbn [c_left bkreg_left_byte]; unfold u8; rewrite Z.mod_small; lia|cbn; unfold SHELL_CMD_BUF_LEN; lia]. }
  specialize (C C'). split; [|exact C]. pose proof (cl_left _ _ _ C) as F. cbn [c_left bkreg_left_byte] in F. cbn [fst cmd_rx_done c_left bkreg_left_byte]. rewrite F. by destruct n.
Qed.
Lemma rx_bkreg_byte b x d bs left : collecting d bs (S left) → (4 ≤ length bs)%nat →
  cmd_rx_done (rx_bkreg b x d).1 = (left =? 0)%nat ∧ collecting (rx_bkreg b x d).2 (bs ++ [b]) left.
Proof.
  intros C L. unfold rx_bkreg. rewrite !(cl_len _ _ _ C), !(proj2 (Z.eqb_neq (Z.of_nat (length bs)) 3)), ?(cl_len _ _ _ C), ?(proj2 (Z.eqb_neq (Z.of_nat (length bs)) 3)) by lia. cbn [andb].
  pose proof (collect_put d bs left b C) as C'. cbv zeta in C'. split; [|exact C']. pose proof (cl_left _ _ _ C') as F. cbn [c_left bkreg_left_byte] in F. cbn [fst cmd_rx_done c_left bkreg_left_byte]. rewrite F. by destruct left.
Qed.
Lemma collecting_rsp d bs n l : collecting d bs n → collecting (c_rsp l d) bs n.
Proof. intros []. by split. Qed.

Lemma rx_payload ps : ∀ fuel x s bs c, ready s (ps ++ c) → (length ps ≤ fuel)%nat → ps ≠ [] → (4 ≤ length bs)%nat →
  collecting (cmd_line_buf (client s)) bs (length ps) →
  ∃ y s', rx_ind_loop fuel x s = Done ((y, true), s') ∧ cmd_rx_done y = true ∧ collecting (cmd_line_buf (client s')) (bs ++ ps) 0 ∧ ready s' c.
Proof.
  induction ps as [|p ps IH]; intros fuel x s bs c Rd Lf Ne Lb C; [done|]. destruct fuel as [|fuel]; [cbn in Lf; lia|]. cbn [app length] in *.
  destruct (rx_ind_byte x s p (ps ++ c) Rd) as (s' & E & Ec & Rd'). apply (collecting_rsp _ _ _ (<[0%nat := p]> (rsp_buff (cmd_line_buf (client s))))) in C.
  rewrite E. unfold rx_byte in *. rewrite (cl_type _ _ _ C) in *. destruct (rx_bkreg_byte p x _ bs (length ps) C Lb) as (Hd & C'). rewrite Hd.
  destruct ps as [|p2 ps].
  - eexists _, s'. split; [reflexivity|]. rewrite Ec. cbn [s_cmd cmd_line_buf]. by split_and!.
  - destruct (IH fuel (rx_bkreg p x (c_rsp (<[0%nat:=p]> (rsp_buff (cmd_line_buf (client s)))) (cmd_line_buf (client s)))).1 s' (bs ++ [p]) c) as (y & s2 & E2 & Hy & C2 & Rd2);
      [done|cbn in *; lia|done|rewrite length_app; lia|by rewrite Ec|]. exists y, s2. rewrite <-app_assoc in C2. by split_and!.
Qed.

(** The three bytes in front, between which the state machine waits. *)
Record waiting (d : cmd_line_t) (b : bkreg) : Prop := {
  wt_type : cur_cmd_type d = CMD_TYPE_INVALID; wt_state : bkreg_state d = b; wt_buf : length (cmd_buff d) = SHELL_CMD_BUF_LEN }.
Lemma rx_header b b' h x s c l : waiting (cmd_line_buf (client s)) b → ready s (h :: l) → cmd_rx_done x = false →
  (b = BKREG_WAIT_01 ∧ h = 0x01 ∧ b' = BKREG_WAIT_E0 ∨ b = BKREG_WAIT_E0 ∧ h = 0xE0 ∧ b' = BKREG_WAIT_FC) → l = c →
  ∃ x' s', (∀ fuel, rx_ind_loop (S fuel) x s = rx_ind_loop fuel x' s') ∧ cmd_rx_done x' = false ∧ waiting (cmd_line_buf (client s')) b' ∧ ready s' c.
Proof.
  intros [Wt Ws Wb] Rd Hx Hb ->. destruct (rx_ind_byte x s h c Rd) as (s' & E & Ec & Rd'). set (d := c_rsp _ _) in *.
  assert (St : rx_start h d = (1%nat, c_bkreg b' d)).
  { unfold rx_start. change (bkreg_state d) with (bkreg_state (cmd_line_buf (client s))). rewrite Ws. by destruct Hb as [(-> & -> & ->)|(-> & -> & ->)]. }
  assert (By : rx_byte h x d = (mk_rx false (need_backspace x) 1, c_bkreg b' d)).
  { unfold rx_byte. change (cur_cmd_type d) with (cur_cmd_type (cmd_line_buf (client s))). by rewrite Wt, St, Hx. }
  rewrite By in *. exists (mk_rx false (need_backspace x) 1), s'. split; [intros fuel; by rewrite E|]. split; [done|]. split; [|done].
  rewrite Ec. by split.
Qed.
Lemma rx_header_end x s c : waiting (cmd_line_buf (client s)) BKREG_WAIT_FC → ready s (0xFC :: c) → cmd_rx_done x = false →
  ∃ x' s', (∀ fuel, rx_ind_loop (S fuel) x s = rx_ind_loop fuel x' s') ∧ ready s' c ∧ let d := cmd_line_buf (client s') in
    cur_cmd_type d = CMD_TYPE_BKREG ∧ length (cmd_buff d) = SHELL_CMD_BUF_LEN ∧ cmd_data_len d = 3 ∧ take 3 (cmd_buff d) = [0x01; 0xE0; 0xFC].
Proof.
  intros [Wt Ws Wb] Rd Hx. destruct (rx_ind_byte x s _ c Rd) as (s' & E & Ec & Rd'). set (d := c_rsp _ _) in *.
  assert (By : rx_byte 0xFC x d = (mk_rx false (need_backspace x) 0, c_data (write_at (cmd_buff d) 0 [0x01; 0xE0; 0xFC]) 3 (c_type CMD_TYPE_BKREG d))).
  { unfold rx_byte, rx_start. change (cur_cmd_type d) with (cur_cmd_type (cmd_line_buf (client s))). change (bkreg_state d) with (bkreg_state (cmd_line_buf (client s))).
    by rewrite Wt, Ws, Hx. }
  rewrite By in *. exists (mk_rx false (need_backspace x) 0), s'. split; [intros fuel; by rewrite E|]. split; [done|]. rewrite Ec. cbn [s_cmd cmd_line_buf].
  split_and!; [done| |done|done]. cbn [snd c_data cmd_buff]. change (cmd_buff d) with (cmd_buff (cmd_line_buf (client s))).
  rewrite length_write_at by (rewrite Wb; unfold SHELL_CMD_BUF_LEN; cbn; lia). exact Wb.
Qed.

(** A register command.  After the three bytes 01 E0 FC and a length below 136,
    just the bytes of that length are collected, whatever they are, and the command
    that is run is the whole of it; what comes behind stays for the next call. *)
Theorem shell_bkreg_command s ps c : ready s ([0x01; 0xE0; 0xFC; Z.of_nat (length ps)] ++ ps ++ c) → (length ps < 136)%nat →
  cur_cmd_type (cmd_line_buf (client s)) = CMD_TYPE_INVALID → bkreg_state (cmd_line_buf (client s)) = BKREG_WAIT_01 →
  length (cmd_buff (cmd_line_buf (client s))) = SHELL_CMD_BUF_LEN →
  ∃ y s', rx_ind_loop (S (S (length (rx_buff (dev s))))) (mk_rx false false 0) s = Done ((y, true), s') ∧ cmd_rx_done y = true ∧
    let cmd := cmd_line_buf (client s') in
    cur_cmd_type cmd = CMD_TYPE_BKREG ∧ take (Z.to_nat (cmd_data_len cmd)) (cmd_buff cmd) = [0x01; 0xE0; 0xFC; Z.of_nat (length ps)] ++ ps ∧ ready s' c.
Proof.
  intros Rd Ln Ei Es Lb. pose proof (rd_less _ _ Rd) as Lr. rewrite (rd_len _ _ Rd) in *. rewrite !length_app in Lr. cbn [app length] in Rd, Lr. unfold RX_BUFF_SIZE in *.
  destruct (rx_header BKREG_WAIT_01 BKREG_WAIT_E0 0x01 (mk_rx false false 0) s _ _ ltac:(by split) Rd eq_refl ltac:(by left) eq_refl) as (x1 & s1 & E1 & H1 & W1 & R1).
  destruct (rx_header BKREG_WAIT_E0 BKREG_WAIT_FC 0xE0 x1 s1 _ _ W1 R1 H1 ltac:(by right) eq_refl) as (x2 & s2 & E2 & H2 & W2 & R2).
  destruct (rx_header_end x2 s2 _ W2 R2 H2) as (x3 & s3 & E3 & R3 & Ty & Lb3 & El & Eb). rewrite E1, E2, E3.
  destruct (rx_ind_byte x3 s3 _ _ R3) as (s4 & E4 & Ec4 & R4). rewrite E4. unfold rx_byte in *. cbn [c_rsp cur_cmd_type] in *. rewrite Ty in *.
  set (d := c_rsp _ _) in *. destruct (rx_bkreg_length (length ps) x3 d Ty Lb3 El Eb Ln) as [Hd C]. rewrite Hd.
  destruct ps as [|p ps].
  - eexists _, s4. split; [reflexivity|]. split; [done|]. rewrite Ec4. cbn [s_cmd cmd_line_buf]. split; [apply C|]. split; [|exact R4].
    rewrite (cl_len _ _ _ C), Nat2Z.id. apply C.
  - destruct (rx_payload (p :: ps) 158 (rx_bkreg (Z.of_nat (length (p :: ps))) x3 d).1 s4 [0x01; 0xE0; 0xFC; Z.of_nat (length (p :: ps))] c) as (y & s' & E & Hy & C' & R');
      [exact R4|cbn in *; lia|done|cbn; lia|by rewrite Ec4|].
    exists y, s'. split; [exact E|]. split; [done|]. cbv zeta. split; [apply C'|]. split; [|done]. rewrite (cl_len _ _ _ C'), Nat2Z.id. apply C'.
Qed.
End Receive.

(** ** Instances *)
(** A length byte of 255 passes the check on the length: the count of the bytes to
    come wraps around to zero, which passes, and 255 bytes are then awaited. *)
Lemma bkreg_length_wraps x d : cur_cmd_type d = CMD_TYPE_BKREG → length (cmd_buff d) = SHELL_CMD_BUF_LEN → cmd_data_len d = 3 →
  cmd_rx_done (rx_bkreg 0xFF x d).1 = false ∧ bkreg_left_byte (rx_bkreg 0xFF x d).2 = 255 ∧
  cmd_rx_done (rx_bkreg 0xFE x d).1 = true.
Proof.
  intros Ty Lb El. unfold rx_bkreg. rewrite El, Z.eqb_refl. cbn [andb c_left cmd_buff bkreg_left_byte]. rewrite Lb.
  change (u8 (0xFF + 1)) with 0. change (u8 (0xFE + 1)) with 255. unfold put_cmd_byte. cbn [c_left cmd_data_len cmd_buff]. rewrite Lb, El. done.
Qed.
(** DEL is echoed as an erasure, but is a character of the line. *)
Lemma del_is_kept line : (length line < SHELL_CMD_BUF_LEN)%nat → edit line 0x7f = line ++ [0x7f].
Proof. intros L. unfold edit. by rewrite (proj2 (Nat.ltb_lt _ _)) by done. Qed.

(** What is received after the start. *)
Definition received (bs : list Z) : st := match shell_uart_rx_isr (H := client_inst [] (λ _ _, [])) (fifo bs started) with Done (_, s) => s | Trap _ => started end.
Lemma started_ready bs : ready (fifo bs started) [].
Proof. split; [apply ring_empty; vm_compute; lia|done|vm_compute; lia|]. exists []. split_and!; [apply ring_empty; vm_compute; lia|done|vm_compute; lia]. Qed.
Lemma received_ready bs : (length bs < RX_BUFF_SIZE)%nat → ready (received bs) bs.
Proof.
  intros L. unfold received. destruct (shell_rx_isr_ok [] (λ _ _, []) (fifo bs started) [] (started_ready bs) eq_refl) as (s' & -> & Rd & _).
  cbn [rx_fifo hw fifo app length] in Rd. by rewrite take_ge in Rd by (unfold RX_BUFF_SIZE in *; cbn; lia).
Qed.

(** "hip", a backspace, a tab, "!" and the end, and a register command. *)
Definition keys : list Z := [104; 105; 112; 8; 9; 33; 13; 97].
Lemma shell_command_line_witness : ready (received keys) keys ∧
  ∃ y s', rx_ind_loop (S (S (length (rx_buff (dev (received keys)))))) (mk_rx false false 0) (received keys) = Done ((y, true), s') ∧ cmd_rx_done y = true ∧
    let line := foldl edit [104] [105; 112; 8; 9; 33] in let cmd := cmd_line_buf (client s') in
    cur_cmd_type cmd = CMD_TYPE_TEXT ∧ take (Z.to_nat (cmd_data_len cmd)) (cmd_buff cmd) = line ∧ cmd_buff cmd !! length line = Some 0 ∧ ready s' [97].
Proof.
  assert (R : ready (received keys) keys) by (apply received_ready; vm_compute; lia). split; [exact R|].
  apply (shell_command_line [] (received keys) 104 [105; 112; 8; 9; 33] 13 [97]);
    [exact R|split; lia|repeat constructor|reflexivity|vm_compute; reflexivity|vm_compute; reflexivity|vm_compute; lia].
Defined.
Example keys_line : foldl edit [104] [105; 112; 8; 9; 33] = [104; 105; 33].
Proof. reflexivity. Qed.

Definition reg_keys : list Z := [0x01; 0xE0; 0xFC; 2; 13; 8; 97].
Lemma shell_bkreg_command_witness : ready (received reg_keys) reg_keys ∧
  ∃ y s', rx_ind_loop (S (S (length (rx_buff (dev (received reg_keys)))))) (mk_rx false false 0) (received reg_keys) = Done ((y, true), s') ∧ cmd_rx_done y = true ∧
    let cmd := cmd_line_buf (client s') in
    cur_cmd_type cmd = CMD_TYPE_BKREG ∧ take (Z.to_nat (cmd_data_len cmd)) (cmd_buff cmd) = [0x01; 0xE0; 0xFC; Z.of_nat (length [13; 8])] ++ [13; 8] ∧ ready s' [97].
Proof.
  assert (R : ready (received reg_keys) reg_keys) by (apply received_ready; vm_compute; lia). split; [exact R|].
  apply (shell_bkreg_command [] (received reg_keys) [13; 8] [97]); [exact R|cbn; lia|vm_compute; reflexivity|vm_compute; reflexivity|vm_compute; reflexivity].
Defined.

Lemma shell_rx_isr_ok_witness : ready (fifo [104; 105] started) [] ∧
  ∃ s', shell_uart_rx_isr (H := client_inst [] (λ _ _, [])) (fifo [104; 105] started) = Done (tt, s') ∧
    ready s' ([] ++ take (RX_BUFF_SIZE - 1 - length (@nil Z)) [104; 105]) ∧ rx_fifo (hw s') = [] ∧
    client s' = s_event true (client (fifo [104; 105] started)) ∧
    rx_over_flow (dev s') = rx_over_flow (dev (fifo [104; 105] started)) || (RX_BUFF_SIZE - 1 - length (@nil Z) <? length [104; 105])%nat.
Proof.
  split; [apply started_ready|]. apply (shell_rx_isr_ok [] (λ _ _, []) (fifo [104; 105] started) []); [apply started_ready|reflexivity].
Defined.
End ShellCmd.
