(* ===== verification/LogFilter.v ===== *)
(** * The print functions: components/bk_system/printf.c and printf_base.c

    Text goes to the shell's log path (ShellTask.v), or in synchronous mode straight to
    the serial port.  A level and a list of modules decide whether a module's text is
    put out at all.

    Modelled: every function, with the formatted text as an argument.  Parameters: the
    results of creating the mutex and of the serial driver, and whether the scheduler
    runs.  [direct] is what was written straight to the port.  The mutex is created, but
    no modelled function takes it. *)
From stdpp Require Import functions.
From S2P Require Import Prelude Bytes Ring ShellUart ShellTask ShellLog.
Import ShellTask.
Local Open Scope Z_scope.

Module LogFilter.

Definition CONFIG_PRINTF_BUF_SIZE : nat := 128.
Definition MOD_TAGS : nat := 20.
(** [mod_name] is an array of 15 bytes. *)
Definition MOD_NAME_SIZE : nat := 15.
Definition KEY_LEN : nat := MOD_NAME_SIZE - 1.
Definition BK_LOG_ERROR : Z := 1.

Record mod_disable_t := mk_tag { mod_name : list Z; disabled : Z }.
Record pst := mk_pst {
  s_printf_init : bool;
  s_printf_enable : Z;
  s_printf_sync : Z;
  s_printf_lock : bool;
  mod_tag_list : list mod_disable_t;
  direct : list Z;
  shell_st : st;
  s_print_port : Z }.
Definition p_init b p := mk_pst b (s_printf_enable p) (s_printf_sync p) (s_printf_lock p) (mod_tag_list p) (direct p) (shell_st p) (s_print_port p).
Definition p_enable n p := mk_pst (s_printf_init p) n (s_printf_sync p) (s_printf_lock p) (mod_tag_list p) (direct p) (shell_st p) (s_print_port p).
Definition p_sync n p := mk_pst (s_printf_init p) (s_printf_enable p) n (s_printf_lock p) (mod_tag_list p) (direct p) (shell_st p) (s_print_port p).
Definition p_lock b p := mk_pst (s_printf_init p) (s_printf_enable p) (s_printf_sync p) b (mod_tag_list p) (direct p) (shell_st p) (s_print_port p).
Definition p_tags l p := mk_pst (s_printf_init p) (s_printf_enable p) (s_printf_sync p) (s_printf_lock p) l (direct p) (shell_st p) (s_print_port p).
Definition p_direct l p := mk_pst (s_printf_init p) (s_printf_enable p) (s_printf_sync p) (s_printf_lock p) (mod_tag_list p) l (shell_st p) (s_print_port p).
Definition p_shell s p := mk_pst (s_printf_init p) (s_printf_enable p) (s_printf_sync p) (s_printf_lock p) (mod_tag_list p) (direct p) s (s_print_port p).
Definition p_port n p := mk_pst (s_printf_init p) (s_printf_enable p) (s_printf_sync p) (s_printf_lock p) (mod_tag_list p) (direct p) (shell_st p) n.
Definition in_shell {A} (m : M st A) : M pst A := λ p,
  match m (shell_st p) with Done (a, s) => Done (a, p_shell s p) | Trap t => Trap t end.

(** [uart_write_string]: a carriage return before a newline that has none. *)
Fixpoint crlf_text (prev : option Z) (text : list Z) : list Z :=
  match text with
  | [] => []
  | b :: r => (if (b =? 10) && negb (bool_decide (prev = Some 13)) then [13; b] else [b]) ++ crlf_text (Some b) r
  end.
Definition uart_write_string (string : list Z) : M pst unit :=
  modify (λ p, p_direct (direct p ++ crlf_text None (cstr string)) p).

Section Printf.
Context (behind : list Z) (assert_text : Z → Z → list Z).

(** ** Start *)
Definition printf_lock_init (mutex : Z) : M pst Z :=
  if negb (mutex =? 0) then ret BK_ERR_NO_MEM
  else
    modify (λ p, p_lock true (p_tags (replicate MOD_TAGS (mk_tag (replicate MOD_NAME_SIZE 0) 0)) p)) ;;;
    in_shell (shell_set_log_level LOG_LEVEL) ;;;
    ret BK_OK.
Definition printf_lock_deinit : M pst Z := modify (p_lock false) ;;; ret BK_OK.
Definition bk_printf_deinit : M pst Z := modify (p_init false) ;;; let* _ := printf_lock_deinit in ret BK_OK.
Definition bk_printf_init (mutex uart : Z) : M pst Z :=
  let* r := printf_lock_init mutex in
  if negb (r =? BK_OK) then ret r
  else if negb (uart =? BK_OK) then let* _ := bk_printf_deinit in ret uart
  else modify (p_init true) ;;; ret BK_OK.

Definition bk_get_printf_port : M pst Z := gets s_print_port.
Definition bk_set_printf_port (mutex uart port_num : Z) : M pst unit :=
  let* p := gets s_print_port in
  if negb (p =? port_num) && (port_num <? UART_ID_MAX) then
    let* _ := bk_printf_deinit in
    modify (p_port port_num) ;;;
    let* _ := bk_printf_init mutex uart in
    ret tt
  else ret tt.

(** ** Output *)
(** [exception_mode_printf] and [task_printf] differ in where their buffer is. *)
Definition task_printf (text : list Z) : M pst unit :=
  uart_write_string (take (CONFIG_PRINTF_BUF_SIZE - 2) (cstr text) ++ [0]).
Definition bk_printf_sync (text : list Z) : M pst unit :=
  let* ok := gets s_printf_init in if ok : bool then task_printf text else ret tt.
Definition bk_printf_port (sched : bool) (level : Z) (tag : option (list Z)) (text : list Z) : M pst unit :=
  if negb sched then task_printf text
  else
    let* sync := gets s_printf_sync in
    if sync =? 0 then in_shell (shell_log_out_port behind assert_text level None text)
    else bk_printf_sync text.
Definition bk_printf (sched : bool) (text : list Z) : M pst unit :=
  let* ok := gets s_printf_init in
  let* en := gets s_printf_enable in
  if negb ok || (en =? 0) then ret tt else bk_printf_port sched BK_LOG_ERROR None text.

(** [strncmp(mod_tag_list[i].mod_name, tag, sizeof(mod_name) - 1) == 0]. *)
Definition same_mod (t : mod_disable_t) (tag : list Z) : bool := strncmp KEY_LEN (mod_name t) tag =? 0.
Definition is_off (t : mod_disable_t) (tag : list Z) : bool := negb (disabled t =? 0) && same_mod t tag.
Definition bk_mod_printf_disbled (tag : list Z) : M pst bool :=
  let* l := gets mod_tag_list in ret (existsb (λ t, is_off t tag) l).
Definition bk_printf_ex (sched : bool) (level : Z) (tag : list Z) (text : list Z) : M pst unit :=
  let* ok := gets s_printf_init in
  if negb ok then ret tt
  else
    let* limit := in_shell shell_get_log_level in
    if limit <? level then ret tt
    else
      let* off := bk_mod_printf_disbled tag in
      if off : bool then ret tt else bk_printf_port sched level (Some tag) text.
(** [buf[buf_len - 1] = 0] in a buffer of [buf_len] bytes. *)
Definition bk_buf_printf_sync (buf : list Z) : M pst unit :=
  let* ok := gets s_printf_init in
  let* en := gets s_printf_enable in
  if negb ok || (en =? 0) || (length buf =? 0)%nat then ret tt
  else uart_write_string (<[(length buf - 1)%nat := 0]> buf).

(** ** Settings *)
Definition bk_set_printf_enable (enable : Z) : M pst unit :=
  (if enable =? 0 then in_shell (shell_echo_set 0) ;;; in_shell (shell_set_log_level 0)
   else in_shell (shell_echo_set 1) ;;; in_shell (shell_set_log_level LOG_LEVEL)) ;;;
  modify (p_enable enable).
Definition bk_set_printf_sync (enable : Z) : M pst unit := modify (p_sync enable).
Definition bk_get_printf_sync : M pst Z := gets s_printf_sync.

(** [strncpy] of [n] bytes. *)
Definition strncpy (dst src : list Z) (n : nat) : list Z :=
  let s := take n (cstr src) in write_at dst 0 (s ++ replicate (n - length s) 0).
Fixpoint last_free (i : nat) (j : nat) (l : list mod_disable_t) : nat :=
  match l with [] => j | t :: l' => last_free (S i) (if disabled t =? 0 then i else j) l' end.
Definition bk_disable_mod_printf (name : list Z) (disable : Z) : M pst unit :=
  let* l := gets mod_tag_list in
  if disable =? 0 then
    modify (p_tags ((λ t, if is_off t name then mk_tag (mod_name t) 0 else t) <$> l))
  else if existsb (λ t, is_off t name) l then ret tt
  else
    let j := last_free 0 (length l) l in
    if (length l <=? j)%nat then ret tt
    else modify (p_tags (alter (λ t, mk_tag (<[KEY_LEN := 0]> (strncpy (mod_name t) name KEY_LEN)) 1) j l)).
(** The next name from index [idx] on, and the index behind it. *)
Fixpoint next_off (i : nat) (l : list mod_disable_t) : option (list Z) * nat :=
  match l with
  | [] => (None, i)
  | t :: l' => if disabled t =? 0 then next_off (S i) l' else (Some (cstr (mod_name t)), S i)
  end.
Definition bk_get_disable_mod (idx : nat) : M pst (option (list Z) * nat) :=
  let* l := gets mod_tag_list in ret (next_off idx (drop idx l)).
End Printf.

(** ** The list of modules as a set *)
(** A module is known by the first 14 bytes of its name. *)
Definition key (name : list Z) : list Z := take KEY_LEN (cstr name).
Definition off_keys (l : list mod_disable_t) : list (list Z) := (λ t, key (mod_name t)) <$> filter (λ t, disabled t ≠ 0) l.
Record filt (p : pst) (D : gset (list Z)) : Prop := {
  ft_len : length (mod_tag_list p) = MOD_TAGS;
  ft_names : Forall (λ t, length (mod_name t) = MOD_NAME_SIZE) (mod_tag_list p);
  ft_nodup : NoDup (off_keys (mod_tag_list p));
  ft_set : D = list_to_set (off_keys (mod_tag_list p)) }.

Lemma strncmp_take n : ∀ a b, strncmp n a b = 0 ↔ take n (cstr a) = take n (cstr b).
Proof.
  induction n as [|n IH]; intros a b; [done|]. rewrite strncmp_cons. cbv zeta.
  destruct a as [|x a], b as [|y b]; cbn [head tail from_option id cstr].
  - done.
  - destruct (Z.eqb_spec 0 y) as [<-|N]; [done|]. rewrite (proj2 (Z.eqb_neq y 0)) by lia. cbn [take]. split; [intros; lia|done].
  - destruct (Z.eqb_spec x 0) as [->|N]; [done|]. cbn [take]. split; [intros; lia|done].
  - destruct (Z.eqb_spec x y) as [->|N].
    + destruct (y =? 0); [done|]. rewrite IH. cbn [take]. split; [by intros ->|by intros [=]].
    + destruct (Z.eqb_spec x 0) as [->|], (Z.eqb_spec y 0) as [->|]; cbn [take]; (split; [intros; lia|]); intros E; simplify_eq.
Qed.
Lemma same_mod_key t tag : same_mod t tag = bool_decide (key (mod_name t) = key tag).
Proof. unfold same_mod, key. case_bool_decide as E; [by apply Z.eqb_eq, strncmp_take|]. apply Z.eqb_neq. by rewrite strncmp_take. Qed.
Lemma exists_off l tag : existsb (λ t, is_off t tag) l = bool_decide (key tag ∈ off_keys l).
Proof.
  unfold off_keys. induction l as [|t l IH]; cbn [existsb]; [done|]. rewrite IH. unfold is_off. rewrite same_mod_key.
  destruct (Z.eqb_spec (disabled t) 0) as [E|N]; cbn [negb andb orb].
  - by rewrite filter_cons_False by (rewrite E; by intros []).
  - rewrite filter_cons_True by done. rewrite fmap_cons, <-bool_decide_or. apply bool_decide_ext. set_solver.
Qed.
Lemma keys_on l name : off_keys ((λ t, if is_off t name then mk_tag (mod_name t) 0 else t) <$> l) = filter (λ k, k ≠ key name) (off_keys l).
Proof.
  unfold off_keys. induction l as [|t l IH]; [done|]. rewrite fmap_cons. unfold is_off at 1. rewrite same_mod_key.
  destruct (Z.eqb_spec (disabled t) 0) as [E|N]; cbn [negb andb].
  - rewrite !filter_cons_False by (rewrite E; by intros []). exact IH.
  - rewrite (filter_cons_True _ t) by done. rewrite fmap_cons. case_bool_decide as Ek.
    + rewrite filter_cons_False by (cbn; by intros []). by rewrite filter_cons_False by (intros []; done).
    + rewrite !filter_cons_True by done. rewrite fmap_cons. by f_equal.
Qed.
Lemma last_free_ok l : ∀ i j, (last_free i j l = j ∧ Forall (λ t, disabled t ≠ 0) l) ∨
  ∃ l1 t l2, l = l1 ++ t :: l2 ∧ disabled t = 0 ∧ last_free i j l = (i + length l1)%nat.
Proof.
  induction l as [|t l IH]; intros i j; cbn [last_free]; [by left|].
  destruct (IH (S i) (if disabled t =? 0 then i else j)) as [[-> F]|(l1 & t' & l2 & -> & E & ->)].
  - destruct (Z.eqb_spec (disabled t) 0) as [E|N]; [right; exists [], t, l; by rewrite Nat.add_0_r|left; by repeat constructor].
  - right. exists (t :: l1), t', l2. split_and!; [done|done|cbn; lia].
Qed.
Lemma cstr_cut (a b : list Z) : cstr (cstr a ++ 0 :: b) = cstr a.
Proof. apply cstr_app. induction a as [|x a IH]; cbn; [constructor|]. destruct (Z.eqb_spec x 0); constructor; done. Qed.
Lemma cstr_no_zero_list a : no_zero (cstr a).
Proof. induction a as [|x a IH]; cbn; [constructor|]. destruct (Z.eqb_spec x 0); constructor; done. Qed.
Lemma key_copied dst name : length dst = MOD_NAME_SIZE →
  let n := <[KEY_LEN := 0]> (strncpy dst name KEY_LEN) in length n = MOD_NAME_SIZE ∧ key n = key name.
Proof.
  intros L n. set (s := take KEY_LEN (cstr name)). assert (Ls : (length s ≤ KEY_LEN)%nat) by (unfold s; rewrite length_take; lia).
  assert (E : n = s ++ replicate (KEY_LEN - length s) 0 ++ [0]).
  { unfold n, strncpy. cbv zeta. fold s. unfold write_at. cbn [take app]. rewrite length_app, length_replicate. replace (0 + (length s + (KEY_LEN - length s)))%nat with KEY_LEN by lia.
    destruct (drop KEY_LEN dst) as [|x [|y r]] eqn:D; apply (f_equal length) in D; rewrite length_drop, L in D; [done| |done].
    rewrite take_0. cbn [app]. rewrite insert_app_r_alt by (rewrite length_app, length_replicate; lia). rewrite length_app, length_replicate.
    replace (KEY_LEN - (length s + (KEY_LEN - length s)))%nat with 0%nat by lia. by rewrite <-app_assoc. }
  assert (Zs : no_zero s) by (apply Forall_take, cstr_no_zero_list).
  split; [rewrite E, !length_app, length_replicate; cbn [length]; unfold KEY_LEN, MOD_NAME_SIZE in *; lia|].
  unfold key. assert (Ec : cstr n = s).
  { rewrite E. destruct (KEY_LEN - length s)%nat as [|m]; cbn [replicate app]; by apply cstr_app. }
  rewrite Ec. fold s. by rewrite take_ge.
Qed.

(** ** What the settings mean *)
Definition s_filter (name : list Z) (disable : Z) (D : gset (list Z)) : gset (list Z) :=
  if disable =? 0 then D ∖ {[key name]}
  else if bool_decide (key name ∈ D) then D else if (size D <? MOD_TAGS)%nat then {[key name]} ∪ D else D.

Lemma filt_elem p D k : filt p D → k ∈ D ↔ k ∈ off_keys (mod_tag_list p).
Proof. intros [_ _ _ ->]. apply elem_of_list_to_set. Qed.
Lemma filt_size p D : filt p D → size D = length (off_keys (mod_tag_list p)).
Proof. intros [_ _ ND ->]. by apply size_list_to_set. Qed.
Lemma length_off_keys l : (length (off_keys l) ≤ length l)%nat ∧ (length (off_keys l) = length l ↔ Forall (λ t, disabled t ≠ 0) l).
Proof.
  unfold off_keys. rewrite length_fmap. induction l as [|t l [IH1 IH2]]; [done|]. destruct (decide (disabled t ≠ 0)) as [N|N].
  - rewrite filter_cons_True by done. cbn. split; [lia|]. rewrite Forall_cons, <-IH2. lia.
  - rewrite filter_cons_False by done. cbn. split; [lia|]. rewrite Forall_cons. split; [lia|]. by intros [? _].
Qed.

Lemma disable_run p D name disable : filt p D →
  ∃ l, bk_disable_mod_printf name disable p = Done (tt, p_tags l p) ∧ filt (p_tags l p) (s_filter name disable D).
Proof.
  intros Ft. pose proof Ft as [L Fn ND ED]. unfold bk_disable_mod_printf, s_filter. rewrite (bind_done (gets mod_tag_list) _ p (mod_tag_list p) p) by done.
  assert (Id : p_tags (mod_tag_list p) p = p) by by destruct p. destruct (disable =? 0).
  - eexists. split; [reflexivity|]. split; cbn [mod_tag_list p_tags].
    + by rewrite length_fmap.
    + apply Forall_fmap. eapply Forall_impl; [exact Fn|]. intros t Lt. cbn. by destruct (is_off t name).
    + rewrite keys_on. by apply NoDup_filter.
    + rewrite keys_on, ED. apply leibniz_equiv. intros k. rewrite elem_of_difference, !elem_of_list_to_set, elem_of_singleton, list_elem_of_filter. naive_solver.
  - rewrite exists_off, <-(bool_decide_ext _ _ (filt_elem p D (key name) Ft)). case_bool_decide as Ik; [exists (mod_tag_list p); by rewrite Id|].
    rewrite (filt_size p D Ft). destruct (last_free_ok (mod_tag_list p) 0 (length (mod_tag_list p))) as [[-> F]|(l1 & t & l2 & E & Et & ->)].
    + rewrite (proj2 (Nat.leb_le _ _)) by done. apply length_off_keys in F. rewrite F, L, (proj2 (Nat.ltb_ge _ _)) by done. exists (mod_tag_list p). by rewrite Id.
    + rewrite E in L, Fn, ND, ED. rewrite E. cbn [Nat.add]. rewrite (proj2 (Nat.leb_gt _ _)) by (rewrite length_app; cbn; lia).
      eexists. split; [reflexivity|]. rewrite alter_app_r_alt, Nat.sub_diag by done. cbn [alter list_alter].
      apply Forall_app in Fn as [F1 F2]. apply Forall_cons in F2 as [Lt F2]. destruct (key_copied (mod_name t) name Lt) as [Ln Ek].
      assert (Eo : off_keys (l1 ++ t :: l2) = off_keys l1 ++ off_keys l2) by (unfold off_keys; rewrite filter_app, filter_cons_False, fmap_app by (by rewrite Et; intros []); done).
      set (t' := mk_tag _ 1). assert (En : off_keys (l1 ++ t' :: l2) = off_keys l1 ++ key name :: off_keys l2).
      { unfold off_keys. rewrite filter_app, filter_cons_True, fmap_app, fmap_cons by done. cbn [mod_name t']. by rewrite Ek. }
      assert (P : off_keys (l1 ++ t' :: l2) ≡ₚ key name :: off_keys (l1 ++ t :: l2)) by (rewrite En, Eo; by rewrite <-Permutation_middle).
      rewrite (filt_elem p D (key name) Ft), E in Ik.
      rewrite (proj2 (Nat.ltb_lt _ _)).
      2: { rewrite Eo. destruct (length_off_keys l1) as [? _], (length_off_keys l2) as [? _]. rewrite length_app in *. cbn [length] in L. lia. }
      split; cbn [mod_tag_list p_tags].
      * rewrite length_app in *. done.
      * apply Forall_app. split; [done|]. by constructor.
      * rewrite P. by constructor.
      * rewrite P. cbn [list_to_set]. by rewrite ED.
Qed.

(** Any sequence of settings. *)
Fixpoint run_settings (os : list (list Z * Z)) : M pst unit :=
  match os with [] => ret tt | (n, d) :: os => bk_disable_mod_printf n d ;;; run_settings os end.
Definition s_settings (os : list (list Z * Z)) (D : gset (list Z)) : gset (list Z) := foldl (λ D o, s_filter o.1 o.2 D) D os.
Lemma settings_run os : ∀ p D, filt p D → ∃ l, run_settings os p = Done (tt, p_tags l p) ∧ filt (p_tags l p) (s_settings os D).
Proof.
  induction os as [|[n d] os IH]; intros p D Ft; cbn [run_settings s_settings foldl].
  - exists (mod_tag_list p). by destruct p.
  - destruct (disable_run p D n d Ft) as (l & E & Ft1). destruct (IH _ _ Ft1) as (l' & E' & Ft2). exists l'. by rewrite (bind_done _ _ _ _ _ E), E'.
Qed.

Section Shown.
Context (behind : list Z) (assert_text : Z → Z → list Z).
Definition shown (p : pst) (D : gset (list Z)) (level : Z) (tag : list Z) : bool :=
  s_printf_init p && (level <=? log_level (cmd_line_buf (client (shell_st p)))) && negb (bool_decide (key tag ∈ D)).
Lemma printf_ex_run p D sched level tag text : filt p D →
  bk_printf_ex behind assert_text sched level tag text p =
  if shown p D level tag then bk_printf_port behind assert_text sched level (Some tag) text p else Done (tt, p).
Proof.
  intros Ft. unfold bk_printf_ex, shown. rewrite (bind_done (gets s_printf_init) _ p (s_printf_init p) p) by done.
  destruct (s_printf_init p); cbn [negb andb]; [|done].
  assert (El : in_shell shell_get_log_level p = Done (log_level (cmd_line_buf (client (shell_st p))), p)) by by destruct p.
  rewrite (bind_done _ _ _ _ _ El), Z.ltb_antisym. destruct (level <=? _); cbn [negb andb]; [|done].
  unfold bk_mod_printf_disbled. rewrite bind_done with (a := bool_decide (key tag ∈ D)) (s' := p).
  - by destruct (bool_decide _).
  - rewrite (bind_done (gets mod_tag_list) _ p (mod_tag_list p) p), exists_off by done. unfold ret. by rewrite (bool_decide_ext _ _ (filt_elem p D (key tag) Ft)).
Qed.

(** C27: Which modules are heard.  Whatever sequence of calls turns the log of modules off
    and on, the modules that are off are those of a set that takes in at most twenty: a
    module is put in when there is room and taken out when it is turned on, and a
    module is known by the first fourteen bytes of its name.  Then the text of a module is
    passed on, once, exactly when the print functions are initialised, its level is not
    above the limit and the module is not in the set; otherwise nothing happens. *)
Theorem log_filter_ok os p D : filt p D →
  ∃ p', run_settings os p = Done (tt, p') ∧ filt p' (s_settings os D) ∧ shell_st p' = shell_st p ∧ direct p' = direct p ∧
    ∀ sched level tag text, bk_printf_ex behind assert_text sched level tag text p' =
      if shown p (s_settings os D) level tag then bk_printf_port behind assert_text sched level (Some tag) text p' else Done (tt, p').
Proof.
  intros Ft. destruct (settings_run os p D Ft) as (l & E & Ft'). exists (p_tags l p). split_and!; [done..|].
  intros sched level tag text. rewrite (printf_ex_run _ _ _ _ _ _ Ft'). done.
Qed.
End Shown.

(** After the start every module is heard. *)
Lemma init_filt mutex uart p : mutex = 0 → uart = BK_OK →
  ∃ p', bk_printf_init mutex uart p = Done (BK_OK, p') ∧ filt p' ∅ ∧ s_printf_init p' = true ∧ log_level (cmd_line_buf (client (shell_st p'))) = LOG_LEVEL.
Proof.
  intros -> ->. eexists. split; [reflexivity|]. split; [|done]. split; [done| |constructor|done].
  cbn. repeat constructor.
Qed.

(** Moving the output to another port hears every module again, at the default level. *)
Lemma set_port_forgets p D port : filt p D → s_print_port p ≠ port → port < UART_ID_MAX →
  ∃ p', bk_set_printf_port 0 BK_OK port p = Done (tt, p') ∧ filt p' ∅ ∧ log_level (cmd_line_buf (client (shell_st p'))) = LOG_LEVEL ∧ s_print_port p' = port.
Proof.
  intros _ N L. unfold bk_set_printf_port. rewrite (bind_done (gets s_print_port) _ p (s_print_port p) p) by done.
  rewrite (proj2 (Z.eqb_neq _ _) N), (proj2 (Z.ltb_lt _ _) L). cbn [negb andb]. eexists. split; [reflexivity|]. split; [|done].
  split; [done| |constructor|done]. cbn. repeat constructor.
Qed.

(** ** An example *)
Definition demo_start : pst :=
  match bk_printf_init 0 BK_OK (mk_pst false 1 0 false [] [] ShellLog.started 0) with Done (_, p) => p | Trap _ => mk_pst false 1 0 false [] [] ShellLog.started 0 end.
(** "wifi" off, "wifi" off again, "ble" off, "wifi" on. *)
Definition demo_settings : list (list Z * Z) := [([119; 105; 102; 105; 0], 1); ([119; 105; 102; 105; 0], 1); ([98; 108; 101; 0], 1); ([119; 105; 102; 105; 0], 0)].
Lemma demo_filt : filt demo_start ∅.
Proof. destruct (init_filt 0 BK_OK (mk_pst false 1 0 false [] [] ShellLog.started 0) eq_refl eq_refl) as (p & E & F & _). unfold demo_start. by rewrite E. Qed.
Lemma log_filter_ok_witness : filt demo_start ∅ ∧
  ∃ p', run_settings demo_settings demo_start = Done (tt, p') ∧ filt p' (s_settings demo_settings ∅) ∧ shell_st p' = shell_st demo_start ∧ direct p' = direct demo_start ∧
    ∀ sched level tag text, bk_printf_ex [] (λ _ _, []) sched level tag text p' =
      if shown demo_start (s_settings demo_settings ∅) level tag then bk_printf_port [] (λ _ _, []) sched level (Some tag) text p' else Done (tt, p').
Proof. split; [exact demo_filt|]. apply (log_filter_ok [] (λ _ _, []) demo_settings demo_start ∅ demo_filt). Defined.
Example demo_shown : shown demo_start (s_settings demo_settings ∅) 3 [119; 105; 102; 105; 0] = true ∧ shown demo_start (s_settings demo_settings ∅) 3 [98; 108; 101; 0] = false ∧
  shown demo_start (s_settings demo_settings ∅) 4 [119; 105; 102; 105; 0] = false.
Proof. vm_compute. done. Qed.
End LogFilter.
