(* ===== verification/Cli.v ===== *)
(** * The command line interface: components/bk_cli/cli_main.c

    A command is a name with a function.  Commands are registered in a table;
    [handle_shell_input] cuts a line into arguments in place, looks the first one up
    and calls the function with the array of arguments.

    Modelled as configured (asynchronous log, no production test): the table with
    registration, sorting and start, the tokenizer on the buffer it works in, and the
    built-in commands.  Arguments are offsets into that buffer, so that what a command
    writes to it changes them.  Parameters: the constant objects in memory ([objs] is
    the [cli_command] at an address), what a command's function does ([exec]), the
    order [qsort] gives, the tables of the other files that register commands, and the
    settings of the log, which are the interface [LogControl].  Calls of functions are
    a trace; output that the code prints for the user only is left out. *)
From stdpp Require Import functions.
From Stdlib Require Ascii String.
Import String.StringSyntax.
From S2P Require Import Prelude Bytes.
Local Open Scope Z_scope.

Module Cli.

(** ** Text *)
Definition lit (s : String.string) : list Z := (λ a, Z.of_nat (Ascii.nat_of_ascii a)) <$> String.list_ascii_of_string s.
Arguments lit s%_string_scope.
Definition crlf : list Z := [13; 10].
Definition QUOTE : Z := 34.
Definition SPACE : Z := 32.
Definition BACKSLASH : Z := 92.
Definition EQUALS : Z := 61.
Definition COMMA : Z := 44.
Definition DOT : Z := 46.

Fixpoint strcmp (a b : list Z) : Z :=
  match a with
  | [] => - default 0 (head b)
  | x :: a' =>
      let y := default 0 (head b) in
      if x =? y then (if x =? 0 then 0 else strcmp a' (tail b)) else x - y
  end.
(** [strchr] as an offset. *)
Fixpoint strchr (s : list Z) (c : Z) : option nat :=
  match s with
  | [] => None
  | x :: s' => if x =? c then Some 0%nat else S <$> strchr s' c
  end.

(** [strtoul] with base 0: white space, a sign, a prefix for the base; what does not
    fit is the largest value, and a minus sign negates. *)
Definition is_space (b : Z) : bool := (b =? 32) || ((9 <=? b) && (b <=? 13)).
Definition digit (b : Z) : Z :=
  if (48 <=? b) && (b <=? 57) then b - 48
  else if (97 <=? b) && (b <=? 122) then b - 87
  else if (65 <=? b) && (b <=? 90) then b - 55 else 36.
Fixpoint skip_space (s : list Z) : list Z :=
  match s with b :: s' => if is_space b then skip_space s' else s | [] => [] end.
Fixpoint digits (base acc : Z) (s : list Z) : Z :=
  match s with
  | b :: s' => if digit b <? base then digits base (acc * base + digit b) s' else acc
  | [] => acc
  end.
Definition strtoul (s : list Z) : Z :=
  let s := skip_space s in
  let '(neg, s) := match s with 45 :: r => (true, r) | 43 :: r => (false, r) | _ => (false, s) end in
  let n := match s with
           | 48 :: x :: d :: r => if ((x =? 120) || (x =? 88)) && (digit d <? 16) then digits 16 0 (d :: r) else digits 8 0 s
           | 48 :: _ => digits 8 0 s
           | _ => digits 10 0 s
           end in
  if 2 ^ 32 <=? n then 2 ^ 32 - 1 else if neg then u32 (- n) else n.
(** A value of type int that is stored from an unsigned long, and its "%d". *)
Definition int_of (n : Z) : Z := if n <? 2 ^ 31 then n else n - 2 ^ 32.
Fixpoint dec_loop (fuel : nat) (n : Z) (acc : list Z) : list Z :=
  match fuel with
  | O => acc
  | S fuel' => let acc := (48 + n mod 10) :: acc in if n <? 10 then acc else dec_loop fuel' (n / 10) acc
  end.
Definition dec (n : Z) : list Z := if n <? 0 then 45 :: dec_loop 10 (- n) [] else dec_loop 10 n [].

(** ** Data *)
Definition MAX_COMMANDS : nat := 320.
Definition MAX_ARGS : nat := 16.
Definition CLI_COMMAND_IS_RUNNING : Z := 1.
(** kNoErr, kGeneralErr and kNoMemoryErr. *)
Definition kNoErr : Z := 0.
Definition kGeneralErr : Z := -1.
Definition kNoMemoryErr : Z := -6728.

Record cli_command := mk_command { name : option (list Z); help : option (list Z); function : option nat }.
Record cli_st := mk_cli { initialized : bool; commands : list (option nat); num_commands : nat }.

(** The settings of the log that commands change: shell_task.c and printf.c. *)
Class LogControl (W : Type) := {
  shell_echo_set : Z → M W unit;
  shell_echo_get : M W Z;
  shell_set_log_level : Z → M W unit;
  shell_get_log_level : M W Z;
  bk_set_printf_sync : Z → M W unit;
  bk_get_printf_sync : M W Z;
  shell_get_log_statist : nat → M W (list Z);
  bk_disable_mod_printf : list Z → Z → M W unit;
  bk_get_disable_mod : nat → M W (option (list Z) * nat) }.

Section Types.
Context {W : Type}.
(** [inbuf] and [outbuf] are the buffers of the current call; [outbuf] is [None] when
    the pointer is NULL.  [argv] holds offsets into [inbuf]. *)
Record st := mk_st {
  pCli : option cli_st;
  s_running_command_index : Z;
  s_running_status : Z;
  argv : list (option nat);
  inbuf : list Z;
  outbuf : option (list Z);
  calls : list (nat * list (list Z));
  forwarded : list (list Z);
  blocks : nat;
  world : W }.
Definition s_cli p s := mk_st p (s_running_command_index s) (s_running_status s) (argv s) (inbuf s) (outbuf s) (calls s) (forwarded s) (blocks s) (world s).
Definition s_index i s := mk_st (pCli s) i (s_running_status s) (argv s) (inbuf s) (outbuf s) (calls s) (forwarded s) (blocks s) (world s).
Definition s_status n s := mk_st (pCli s) (s_running_command_index s) n (argv s) (inbuf s) (outbuf s) (calls s) (forwarded s) (blocks s) (world s).
Definition s_args a b s := mk_st (pCli s) (s_running_command_index s) (s_running_status s) a b (outbuf s) (calls s) (forwarded s) (blocks s) (world s).
Definition s_out o s := mk_st (pCli s) (s_running_command_index s) (s_running_status s) (argv s) (inbuf s) o (calls s) (forwarded s) (blocks s) (world s).
Definition s_calls c s := mk_st (pCli s) (s_running_command_index s) (s_running_status s) (argv s) (inbuf s) (outbuf s) c (forwarded s) (blocks s) (world s).
Definition s_fwd f s := mk_st (pCli s) (s_running_command_index s) (s_running_status s) (argv s) (inbuf s) (outbuf s) (calls s) f (blocks s) (world s).
Definition s_blocks n s := mk_st (pCli s) (s_running_command_index s) (s_running_status s) (argv s) (inbuf s) (outbuf s) (calls s) (forwarded s) n (world s).
Definition s_world w s := mk_st (pCli s) (s_running_command_index s) (s_running_status s) (argv s) (inbuf s) (outbuf s) (calls s) (forwarded s) (blocks s) w.
Definition in_world {A} (m : M W A) : M st A := λ s,
  match m (world s) with Done (a, w) => Done (a, s_world w s) | Trap t => Trap t end.
Definition set_cli (c : cli_st) : M st unit := modify (s_cli (Some c)).
Definition cli : M st cli_st :=
  let* p := gets pCli in match p with Some c => ret c | None => trapM Fault end.
End Types.
Arguments st : clear implicits.

(** ** Cutting a line into arguments *)
Record lex := mk_lex {
  l_buf : list Z; l_argv : list (option nat); argc : nat; pos : nat;
  inArg : bool; inQuote : bool; done : bool; limQ : bool; isD : Z }.
Definition x_buf b t := mk_lex b (l_argv t) (argc t) (pos t) (inArg t) (inQuote t) (done t) (limQ t) (isD t).
Definition x_pos i t := mk_lex (l_buf t) (l_argv t) (argc t) i (inArg t) (inQuote t) (done t) (limQ t) (isD t).
Definition x_arg b t := mk_lex (l_buf t) (l_argv t) (argc t) (pos t) b (inQuote t) (done t) (limQ t) (isD t).
Definition x_quote b t := mk_lex (l_buf t) (l_argv t) (argc t) (pos t) (inArg t) b (done t) (limQ t) (isD t).
Definition x_done t := mk_lex (l_buf t) (l_argv t) (argc t) (pos t) (inArg t) (inQuote t) true (limQ t) (isD t).
Definition x_lim b t := mk_lex (l_buf t) (l_argv t) (argc t) (pos t) (inArg t) (inQuote t) (done t) b (isD t).
Definition x_isD d t := mk_lex (l_buf t) (l_argv t) (argc t) (pos t) (inArg t) (inQuote t) (done t) (limQ t) d.

(** [inbuf[i]]. *)
Definition cur_char : M lex Z := λ t,
  match l_buf t !! pos t with Some b => Done (b, t) | None => Trap Fault end.
Definition cut : M lex unit := modify (λ t, x_arg false (x_buf (<[pos t := 0]> (l_buf t)) t)).
(** [argc++; argv[argc - 1] = &inbuf[p]]: the array is not checked. *)
Definition new_arg (p : nat) : M lex unit := λ t,
  if (argc t <? MAX_ARGS)%nat
  then Done (tt, mk_lex (l_buf t) (<[argc t := Some p]> (l_argv t)) (S (argc t)) (pos t) true (inQuote t) (done t) (limQ t) (isD t))
  else Trap Fault.
Definition after_backslash (t : lex) : bool :=
  (0 <? pos t)%nat && bool_decide (l_buf t !! (pos t - 1)%nat = Some BACKSLASH) && inArg t.
(** [os_memcpy(&inbuf[i - 1], &inbuf[i], os_strlen(&inbuf[i]) + 1); --i;] The ranges
    overlap; the bytes are taken to be copied in ascending order. *)
Definition drop_backslash : M lex unit := λ t,
  let rest := drop (pos t) (l_buf t) in
  if (strlen rest <? length rest)%nat
  then Done (tt, x_pos (pos t - 1)%nat (x_buf (write_at (l_buf t) (pos t - 1) (take (S (strlen rest)) rest)) t))
  else Trap Fault.

(** One round of the switch; [false] is "return 2". *)
Definition switch : M lex bool :=
  let* c := cur_char in
  let* t := gets id in
  if c =? 0 then
    if (argc t =? 0)%nat || (isD t =? 1) || limQ t || inQuote t then ret false
    else modify x_done ;;; ret true
  else if c =? QUOTE then
    if after_backslash t then drop_backslash ;;; ret true
    else if negb (inQuote t) && inArg t then ret true
    else if inQuote t && negb (inArg t) then ret false
    else if negb (inQuote t) && negb (inArg t) then
      modify (x_quote true) ;;; new_arg (pos t + 1) ;;; ret true
    else cut ;;; modify (x_quote false) ;;; ret true
  else if c =? SPACE then
    if after_backslash t then drop_backslash ;;; ret true
    else if negb (inQuote t) && inArg t then cut ;;; ret true
    else ret true
  else if c =? EQUALS then
    if (argc t =? 1)%nat then cut ;;; modify (x_isD 1) ;;; ret true
    else if (argc t =? 0)%nat then ret false
    else ret true
  else if c =? COMMA then
    if (isD t =? 1) && (argc t =? 1)%nat then ret false
    else if negb (inQuote t) && inArg t then cut ;;; modify (x_lim true) ;;; ret true
    else ret true
  else
    if negb (inArg t) then
      new_arg (pos t) ;;;
      modify (λ t, x_isD (if isD t =? 1 then 2 else isD t) (x_lim false t)) ;;; ret true
    else ret true.

(** The loop; its fuel is one round per byte of the buffer and one more. *)
Fixpoint lex_loop (fuel : nat) (in_buf_size : Z) : M lex bool :=
  match fuel with
  | O => trapM Hang
  | S fuel' =>
      let* go := switch in
      let* t := gets id in
      if negb go then ret false
      else if done t then ret true
      else
        modify (x_pos (S (pos t))) ;;;
        if Z.of_nat (S (pos t)) <? in_buf_size then lex_loop fuel' in_buf_size else ret true
  end.
Definition lex0 (buf : list Z) : lex := mk_lex buf (replicate MAX_ARGS None) 0 0 false false false false 0.

(** ** The table of commands, and the calls *)
Section Cli.
Context {W : Type} (objs : nat → option cli_command).

Definition name_matches (len : nat) (cn nm : list Z) : bool :=
  if negb (len =? 0)%nat then strncmp len cn nm =? 0 else strcmp cn nm =? 0.

(** [fuel] is [MAX_COMMANDS - i]. *)
Fixpoint lookup_loop (fuel : nat) (c : cli_st) (nm : list Z) (len i n : nat) : M (st W) (option nat) :=
  match fuel with
  | O => ret None
  | S fuel' =>
      if (n <? num_commands c)%nat then
        match commands c !! i with
        | Some (Some p) =>
            match objs p with
            | Some cmd =>
                match name cmd with
                | None => lookup_loop fuel' c nm len (S i) n
                | Some cn =>
                    if name_matches len cn nm
                    then modify (s_index (u16 (Z.of_nat i))) ;;; ret (Some p)
                    else lookup_loop fuel' c nm len (S i) (S n)
                end
            | None => trapM Fault
            end
        | _ => trapM Fault
        end
      else ret None
  end.
Definition lookup_command (nm : list Z) (len : nat) : M (st W) (option nat) :=
  let* c := cli in lookup_loop MAX_COMMANDS c nm len 0 0.

(** A table is an array at an address; the result is an index, or -1. *)
Fixpoint lookup_table_loop (items : nat) (cmd_table : nat) (nm : list Z) (len : nat) (i : Z) : M (st W) Z :=
  match items with
  | O => ret (-1)
  | S items' =>
      match objs cmd_table with
      | None => trapM Fault
      | Some cmd =>
          match name cmd with
          | Some cn => if name_matches len cn nm then ret i else lookup_table_loop items' (S cmd_table) nm len (i + 1)
          | None => lookup_table_loop items' (S cmd_table) nm len (i + 1)
          end
      end
  end.
Definition lookup_cmd_table (cmd_table table_items : nat) (nm : list Z) (len : nat) : M (st W) Z :=
  lookup_table_loop table_items cmd_table nm len 0.

(** [!command->name || !command->function]. *)
Definition incomplete (command : nat) : M (st W) bool :=
  match objs command with
  | None => trapM Fault
  | Some cmd => ret (match name cmd, function cmd with Some _, Some _ => false | _, _ => true end)
  end.
Definition cli_register_command (command : nat) : M (st W) Z :=
  let* bad := incomplete command in
  if bad : bool then ret 1
  else
    let* c := cli in
    if (num_commands c <? MAX_COMMANDS)%nat then
      if bool_decide (Some command ∈ take (num_commands c) (commands c)) then ret 0
      else
        set_cli (mk_cli (initialized c) (<[num_commands c := Some command]> (commands c)) (S (num_commands c))) ;;;
        ret 0
    else ret 1.

Fixpoint find_command (command : nat) (cs : list (option nat)) : option nat :=
  match cs with
  | [] => None
  | p :: cs' => if bool_decide (p = Some command) then Some 0%nat else S <$> find_command command cs'
  end.
Definition cli_unregister_command (command : nat) : M (st W) Z :=
  let* bad := incomplete command in
  if bad : bool then ret 1
  else
    let* c := cli in
    match find_command command (take (num_commands c) (commands c)) with
    | Some i =>
        let num := (num_commands c - 1)%nat in
        let remaining_cmds := (num - i)%nat in
        let cs := if (0 <? remaining_cmds)%nat
                  then take i (commands c) ++ take remaining_cmds (drop (S i) (commands c)) ++ drop (i + remaining_cmds) (commands c)
                  else commands c in
        set_cli (mk_cli (initialized c) (<[num := None]> cs) num) ;;;
        ret 0
    | None => ret 1
    end.

Fixpoint cli_register_commands (commands num_commands : nat) : M (st W) Z :=
  match num_commands with
  | O => ret 0
  | S n => let* r := cli_register_command commands in if r =? 0 then cli_register_commands (S commands) n else ret 1
  end.
Fixpoint cli_unregister_commands (commands num_commands : nat) : M (st W) Z :=
  match num_commands with
  | O => ret 0
  | S n => let* r := cli_unregister_command commands in if r =? 0 then cli_unregister_commands (S commands) n else ret 1
  end.

(** ** Running a line *)
(** The string at an offset of the buffer; without a terminator its reader leaves the
    buffer. *)
Definition c_string (p : nat) : M (st W) (list Z) := λ s,
  let t := drop p (inbuf s) in if (strlen t <? length t)%nat then Done (cstr t, s) else Trap Fault.
(** The string [argv[k]]. *)
Definition arg_string (k : nat) : M (st W) (list Z) :=
  let* a := gets argv in match a !! k with Some (Some p) => c_string p | _ => trapM Fault end.
(** [strcpy] and [sprintf] to the output buffer, when there is one. *)
Definition put_out (text : list Z) : M (st W) unit :=
  let* o := gets outbuf in
  match o with
  | None => ret tt
  | Some o => if (length text <? length o)%nat then modify (s_out (Some (write_at o 0 (text ++ [0])))) else trapM Fault
  end.
(** What a function is called with. *)
Definition arg_values (argc base : nat) (s : st W) : list (list Z) :=
  (λ k, match argv s !! (base + k)%nat with Some (Some p) => cstr (drop p (inbuf s)) | _ => [] end) <$> seq 0 argc.

Variable exec : nat → nat → nat → M (st W) unit.
(** [f(outbuf, size, argc, &argv[base])]. *)
Definition call (f : option nat) (argc base : nat) : M (st W) unit :=
  match f with
  | None => trapM Fault
  | Some f => modify (λ s, s_calls (calls s ++ [(f, arg_values argc base s)]) s) ;;; exec f argc base
  end.
Definition call_object (p argc base : nat) : M (st W) unit :=
  match objs p with Some cmd => call (function cmd) argc base | None => trapM Fault end.

Definition syntax_error : M (st W) Z := put_out (lit "syntax error" ++ crlf) ;;; ret 2.
(** The tokenizer on [inbuf] and [argv]. *)
Definition tokenize (in_buf_size : Z) : M (st W) (bool * lex) := λ s,
  match lex_loop (S (length (inbuf s))) in_buf_size (lex0 (inbuf s)) with
  | Done (go, t) => Done ((go, t), s_args (l_argv t) (l_buf t) s)
  | Trap e => Trap e
  end.
Definition handle_shell_input (in_buf_size : Z) : M (st W) Z :=
  modify (λ s, s_args (replicate MAX_ARGS None) (inbuf s) s) ;;;
  modify (λ s, s_out ((λ o, replicate (length o) 0) <$> outbuf s) s) ;;;
  let* b := gets inbuf in
  match b with
  | [] => trapM Fault
  | 0 :: _ => ret 0
  | _ =>
      let* r := tokenize in_buf_size in
      if negb (r.1) || inQuote (r.2) then syntax_error
      else if (argc (r.2) <? 1)%nat then put_out (lit "argc = 0" ++ crlf) ;;; ret 0
      else
        let* a := arg_string 0 in
        let* command := lookup_command a (default 0%nat (strchr a DOT)) in
        match command with
        | None =>
            let* line := c_string 0 in
            put_out (lit "cmd: " ++ line ++ lit " NOT found." ++ crlf) ;;; ret 1
        | Some p =>
            modify (λ s, s_status (Z.lor (s_running_status s) CLI_COMMAND_IS_RUNNING) s) ;;;
            call_object p (argc (r.2)) 0 ;;;
            modify (λ s, s_status (Z.land (s_running_status s) (u8 (Z.lnot CLI_COMMAND_IS_RUNNING))) s) ;;;
            ret 0
        end
  end.

(** Commands of the production tools: [read] is what the serial port delivers into the
    buffer, if anything; [bkreg_run] is [bkreg_run_command].  What was in the buffer
    before decides. *)
Definition starts_with (w l : list Z) : bool := bool_decide (take (length w) l = w).
Definition bkreg_cmd_handle_input (read : option (list Z)) (bkreg_run : list Z → M (st W) unit) (len : nat) : M (st W) unit :=
  let* b := gets inbuf in
  let clear := modify (λ s, s_args (argv s) (write_at (inbuf s) 0 (replicate len 0)) s) in
  if (length b <? 3)%nat then trapM Fault
  else if starts_with [0x01; 0xE0; 0xFC] b then
    match read with
    | Some bs => modify (λ s, s_args (argv s) (write_at (inbuf s) 0 bs) s) ;;; let* b := gets inbuf in bkreg_run (take len b) ;;; clear
    | None => ret tt
    end
  else if starts_with (lit "rxs") b || starts_with (lit "txe") b then
    match read with
    | Some bs => modify (λ s, s_out None (s_args (argv s) (write_at (inbuf s) 0 bs) s)) ;;; let* _ := handle_shell_input (Z.of_nat len) in clear
    | None => ret tt
    end
  else ret tt.

(** ** Built-in commands *)
(** The output buffer written without a check of the pointer. *)
Definition put_text (text : list Z) : M (st W) unit :=
  let* o := gets outbuf in match o with None => trapM Fault | Some _ => put_out text end.

(** [debug_table] is what [cli_debug_cmd_table] returns. *)
Definition cli_debug_command (debug_table : nat * nat) (argc base : nat) : M (st W) unit :=
  if (argc <? 2)%nat then put_out (lit "argc < 2" ++ crlf)
  else
    let* a := arg_string (base + 1) in
    let* i := lookup_cmd_table debug_table.1 debug_table.2 a 0 in
    if i <? 0 then put_out (lit "cmd: " ++ a ++ lit " NOT found." ++ crlf)
    else call_object (debug_table.1 + Z.to_nat i) (argc - 1) (base + 1).

Section Builtin.
Context {L : LogControl W}.
Definition log_setting_cmd (argc base : nat) : M (st W) unit :=
  (if (1 <? argc)%nat then let* a := arg_string (base + 1) in in_world (shell_echo_set (int_of (strtoul a))) else ret tt) ;;;
  (if (2 <? argc)%nat then let* a := arg_string (base + 2) in in_world (shell_set_log_level (int_of (strtoul a))) else ret tt) ;;;
  (if (3 <? argc)%nat then let* a := arg_string (base + 3) in in_world (bk_set_printf_sync (u8 (strtoul a))) else ret tt) ;;;
  let* echo_level := in_world shell_echo_get in
  let* level := in_world shell_get_log_level in
  let* sync_lvl := in_world bk_get_printf_sync in
  put_text (lit "log: echo " ++ dec echo_level ++ lit ", level " ++ dec level ++ lit ", sync " ++ dec sync_lvl ++ lit "." ++ crlf).

Definition cli_log_statist (argc base : nat) : M (st W) unit :=
  let* log_statist := in_world (shell_get_log_statist 5) in
  match log_statist with
  | [] => put_text (crlf ++ lit " Nothing " ++ crlf)
  | _ =>
      put_text (crlf ++ lit "log overflow: " ++ dec (nth 0 log_statist 0) ++ lit "." ++
                crlf ++ lit "log out count: " ++ dec (nth 1 log_statist 0) ++ lit "." ++
                concat (imap (λ i n, crlf ++ lit "Buffer[" ++ dec (Z.of_nat i) ++ lit "] run out count: " ++ dec n ++ lit ".") (drop 2 log_statist)))
  end.

(** The names of the modules whose log is off, one per line; [fuel] is one more than
    the length of their list. *)
Fixpoint mod_names (fuel : nat) (i : nat) (text : list Z) : M (st W) unit :=
  match fuel with
  | O => trapM Hang
  | S fuel' =>
      let* r := in_world (bk_get_disable_mod i) in
      match r.1 with
      | Some n => let text := text ++ n ++ crlf in put_text text ;;; mod_names fuel' r.2 text
      | None => ret tt
      end
  end.
Definition cli_log_disable (argc base : nat) : M (st W) unit :=
  if (argc <? 3)%nat then
    let usage := lit "Usage: modlog tag_name on/off" ++ crlf in
    put_text usage ;;; mod_names 21 0 usage
  else
    let* a := arg_string (base + 2) in
    if strcmp a (lit "on") =? 0 then let* n := arg_string (base + 1) in in_world (bk_disable_mod_printf n 0)
    else if strcmp a (lit "off") =? 0 then let* n := arg_string (base + 1) in in_world (bk_disable_mod_printf n 1)
    else ret tt.
End Builtin.

(** [argv[0][buf_len++] = b], where [argv[0]] is at [p]. *)
Definition put_byte (p buf_len : nat) (b : Z) : M (st W) nat := λ s,
  if (p + buf_len <? length (inbuf s))%nat
  then Done (S buf_len, s_args (argv s) (<[(p + buf_len)%nat := b]> (inbuf s)) s) else Trap Fault.
Definition byte_at (p : nat) : M (st W) Z := λ s,
  match inbuf s !! p with Some b => Done (b, s) | None => Trap Fault end.
Definition arg_pos (k : nat) : M (st W) nat :=
  let* a := gets argv in match a !! k with Some (Some p) => ret p | _ => trapM Fault end.
(** The bytes of an argument from [q] on, each quotation mark behind a backslash. *)
Fixpoint put_quoted (n p q buf_len : nat) : M (st W) nat :=
  match n with
  | O => ret buf_len
  | S n' =>
      let* b := byte_at q in
      let* buf_len := (if b =? QUOTE then put_byte p buf_len BACKSLASH else ret buf_len) in
      let* b := byte_at q in
      let* buf_len := put_byte p buf_len b in
      put_quoted n' p (S q) buf_len
  end.
(** [memcpy(&argv[0][buf_len], argv[i], str_len)]. *)
Definition move_bytes (p q n : nat) : M (st W) unit := λ s,
  if (p + n <=? length (inbuf s))%nat && (q + n <=? length (inbuf s))%nat
  then Done (tt, s_args (argv s) (write_at (inbuf s) p (sub (inbuf s) q n)) s) else Trap Fault.
Fixpoint forward_args (argc i buf_len : nat) (p base : nat) : M (st W) nat :=
  match argc with
  | O => ret buf_len
  | S argc' =>
      let* q := arg_pos (base + i) in
      let* a := c_string q in
      let* buf_len :=
        (if bool_decide (SPACE ∈ a) then
          let* n := put_byte p buf_len QUOTE in
          let* n := put_quoted (length a) p q n in
          put_byte p n QUOTE
        else
          move_bytes (p + buf_len) q (length a) ;;;
          put_byte p (buf_len + length a) SPACE) in
      forward_args argc' (S i) buf_len p base
  end.
(** [shell_cmd_forward] sends the line to the other processor. *)
Definition cli_cpu1_command (argc base : nat) : M (st W) unit :=
  let* p := arg_pos base in
  let* n := forward_args (argc - 1) 1 0 p base in
  let* n := put_byte p n 13 in
  let* n := put_byte p n 10 in
  modify (λ s, s_fwd (forwarded s ++ [sub (inbuf s) p n]) s).

(** ** Sorting and start *)
(** [qsort] of the C library on pointers, with the comparison of their objects. *)
Variable qsort : (nat → nat → Z) → list nat → list nat.
Definition command_name (p : nat) : list Z :=
  match objs p with Some cmd => default [] (name cmd) | None => [] end.
Definition _cli_name_cmp (a b : nat) : Z := strcmp (command_name a) (command_name b).
Definition has_name (p : option nat) : bool :=
  match p with Some p => match objs p with Some cmd => if name cmd is Some _ then true else false | None => false end | None => false end.
Definition BUILT_IN_COUNT : nat := 5.
Definition cli_sort_command : M (st W) unit :=
  let* c := cli in
  let user := take (num_commands c - BUILT_IN_COUNT) (drop BUILT_IN_COUNT (commands c)) in
  if (num_commands c <? BUILT_IN_COUNT)%nat || negb (forallb has_name user) then trapM Fault
  else set_cli (mk_cli (initialized c)
         (take BUILT_IN_COUNT (commands c) ++ (Some <$> qsort _cli_name_cmp (omap id user)) ++ drop (num_commands c) (commands c))
         (num_commands c)).

(** [tables] are those that the init functions of other files register, which ignore
    the result; [alloc] and [thread] are the results of [os_malloc] and of creating the
    task. *)
Fixpoint register_tables (tables : list (nat * nat)) : M (st W) unit :=
  match tables with
  | [] => ret tt
  | (a, n) :: r => let* _ := cli_register_commands a n in register_tables r
  end.
Definition init_general_err : M (st W) Z :=
  let* p := gets pCli in
  match p with Some _ => modify (λ s, s_cli None (s_blocks (blocks s - 1)%nat s)) | None => ret tt end ;;; ret kGeneralErr.
Definition bk_cli_init (alloc : bool) (built_ins : nat) (tables : list (nat * nat)) (thread : Z) : M (st W) Z :=
  if negb alloc then modify (s_cli None) ;;; ret kNoMemoryErr
  else
    modify (λ s, s_cli (Some (mk_cli false (replicate MAX_COMMANDS None) 0)) (s_blocks (S (blocks s)) s)) ;;;
    let* r := cli_register_commands built_ins BUILT_IN_COUNT in
    if negb (r =? 0) then init_general_err
    else
      register_tables tables ;;;
      cli_sort_command ;;;
      if negb (thread =? kNoErr) then init_general_err
      else
        let* c := cli in
        set_cli (mk_cli true (commands c) (num_commands c)) ;;;
        ret kNoErr.
End Cli.
End Cli.
