(* ===== verification/CliLex.v ===== *)
(** * Cutting a line into arguments: what the tokenizer of Cli.v computes

    [tok] and [tstep] are a tokenizer that reads one character at a time and collects
    the arguments as lists; [trun] runs it over a line.  The tokenizer of the code
    works in the line's buffer: it ends an argument by writing a zero, takes a
    backslash out by moving the rest of the line, and keeps offsets.  [lex_rel] relates
    the two after every character; [lex_loop_ok] is the result for a whole line. *)
From stdpp Require Import functions.
From S2P Require Import Prelude Bytes Cli.
Import Cli.
Local Open Scope Z_scope.

Module CliLex.

(** ** The tokenizer on lists *)
Record tok := mk_tok { closed : list (list Z); open : option (list Z); quoted : bool; lim : bool; eq : Z; dropped : nat }.
Definition opened (o : option (list Z)) : list (list Z) := match o with Some a => [a] | None => [] end.
Definition tokens (t : tok) : list (list Z) := closed t ++ opened (open t).
Definition count (t : tok) : nat := length (tokens t).
Definition o_open o t := mk_tok (closed t) o (quoted t) (lim t) (eq t) (dropped t).
Definition o_quote b t := mk_tok (closed t) (open t) b (lim t) (eq t) (dropped t).
Definition o_lim b t := mk_tok (closed t) (open t) (quoted t) b (eq t) (dropped t).
Definition o_eq d t := mk_tok (closed t) (open t) (quoted t) (lim t) d (dropped t).
Definition close (t : tok) : tok := mk_tok (tokens t) None (quoted t) (lim t) (eq t) (dropped t).
(** A character of an argument, if one is open. *)
Definition add (c : Z) (t : tok) : tok := o_open ((λ a, a ++ [c]) <$> open t) t.
Definition ends_backslash (t : tok) : bool :=
  match open t with Some a => bool_decide (last a = Some BACKSLASH) | None => false end.
Definition unescape (c : Z) (t : tok) : tok :=
  mk_tok (closed t) ((λ a, take (length a - 1) a ++ [c]) <$> open t) (quoted t) (lim t) (eq t) (S (dropped t)).

Inductive tres := TOk (t : tok) | TSyntax | TOverflow.
Definition start (a : list Z) (t : tok) : tres := if (count t <? MAX_ARGS)%nat then TOk (o_open (Some a) t) else TOverflow.
Definition then_ok (f : tok → tok) (r : tres) : tres := match r with TOk t => TOk (f t) | r => r end.

Definition tstep (c : Z) (t : tok) : tres :=
  if c =? QUOTE then
    if ends_backslash t then TOk (unescape c t)
    else match open t, quoted t with
         | Some _, false => TOk (add c t)
         | Some _, true => TOk (o_quote false (close t))
         | None, true => TSyntax
         | None, false => start [] (o_quote true t)
         end
  else if c =? SPACE then
    if ends_backslash t then TOk (unescape c t)
    else if quoted t then TOk (add c t) else TOk (close t)
  else if c =? EQUALS then
    if (count t =? 1)%nat then TOk (o_eq 1 (close t))
    else if (count t =? 0)%nat then TSyntax
    else TOk (add c t)
  else if c =? COMMA then
    if (eq t =? 1) && (count t =? 1)%nat then TSyntax
    else match open t, quoted t with
         | Some _, false => TOk (o_lim true (close t))
         | _, _ => TOk (add c t)
         end
  else
    match open t with
    | Some _ => TOk (add c t)
    | None => then_ok (λ t, o_eq (if eq t =? 1 then 2 else eq t) (o_lim false t)) (start [c] t)
    end.
Fixpoint trun (cs : list Z) (t : tok) : tres :=
  match cs with
  | [] => TOk t
  | c :: cs' => match tstep c t with TOk t' => trun cs' t' | r => r end
  end.
Definition tok0 : tok := mk_tok [] None false false 0 0.
(** What is refused when the terminator is read. *)
Definition bad_end (t : tok) : bool := (count t =? 0)%nat || (eq t =? 1) || lim t || quoted t.
(** The arguments of a line that is [size] bytes long for the code: the terminator is
    read when backslashes have moved it down into these bytes, or when it is one of them. *)
Inductive parsed := Args (args : list (list Z)) | Bad | TooMany.
Definition parse (size : Z) (line : list Z) : parsed :=
  match trun line tok0 with
  | TSyntax => Bad
  | TOverflow => TooMany
  | TOk t =>
      if (Z.of_nat (length line - dropped t) <? size) && bad_end t then Bad
      else if quoted t then Bad else Args (tokens t)
  end.

Lemma add_closed c t : open t = None → add c t = close t.
Proof. intros E. destruct t; cbn in *; subst. unfold add, close, tokens; cbn. by rewrite app_nil_r. Qed.
#[global] Arguments count : simpl never.
Lemma count_some t a b q l e d : open t = Some a → count (mk_tok (closed t) (Some b) q l e d) = count t.
Proof. intros E. unfold count, tokens. cbn. by rewrite E, !length_app. Qed.
Lemma tstep_dropped c t t' : tstep c t = TOk t' → (dropped t ≤ dropped t')%nat.
Proof.
  unfold tstep, start. intros E.
  repeat match type of E with context [if ?b then _ else _] => destruct b | context [match open t with _ => _ end] => destruct (open t) end;
    cbn in E; simplify_eq; cbn; lia.
Qed.
Lemma trun_app cs cs' t : trun (cs ++ cs') t = match trun cs t with TOk t' => trun cs' t' | r => r end.
Proof. revert t. induction cs as [|c cs IH]; intros t; cbn; [done|]. by destruct (tstep c t). Qed.

Lemma bind_if {S A B} (m : M S A) (k : A → M S B) s (b : bool) a s' :
  m s = (if b then Done (a, s') else Trap Fault) → bind m k s = if b then k a s' else Trap Fault.
Proof. unfold bind. intros ->. by destruct b. Qed.

Lemma strlen_app_le (l r : list Z) : (strlen (l ++ 0%Z :: r) ≤ length l)%nat.
Proof. unfold strlen. induction l as [|b l IH]; cbn; [done|]. destruct (b =? 0); cbn; lia. Qed.

(** ** The relation to the buffer *)
Definition arg_in (buf : list Z) (av : list (option nat)) (k : nat) (a : list Z) : Prop :=
  no_zero a ∧ ∃ p r, av !! k = Some (Some p) ∧ drop p buf = a ++ 0 :: r.

(** The arguments follow one another. *)
Definition ordered (args : list (list Z)) (av : list (option nat)) : Prop :=
  ∀ k a p p', args !! k = Some a → av !! k = Some (Some p) → av !! S k = Some (Some p') → (p + length a < p')%nat.

(** [pre ++ a] has been read and [rest] has not; [a] is the open argument, and the
    others are in [pre]. *)
Record lex_rel (total : nat) (t : tok) (x : lex) (pre rest junk : list Z) : Prop := {
  lr_buf : l_buf x = pre ++ default [] (open t) ++ rest ++ 0 :: junk;
  lr_pos : pos x = length (pre ++ default [] (open t));
  lr_total : (pos x + dropped t + length rest = total)%nat;
  lr_rest : no_zero rest;
  lr_arg : inArg x = bool_decide (is_Some (open t));
  lr_flags : inQuote x = quoted t ∧ limQ x = lim t ∧ isD x = eq t ∧ done x = false;
  lr_argc : argc x = count t ∧ (count t ≤ MAX_ARGS)%nat ∧ length (l_argv x) = MAX_ARGS;
  lr_free : ∀ k, (count t ≤ k < MAX_ARGS)%nat → l_argv x !! k = Some None;
  lr_closed : ∀ k a, closed t !! k = Some a → arg_in pre (l_argv x) k a;
  lr_order : ordered (closed t) (l_argv x);
  lr_open : ∀ a, open t = Some a → no_zero a ∧ l_argv x !! length (closed t) = Some (Some (length pre)) ∧ (a = [] → last pre = Some QUOTE) }.

Lemma arg_in_app buf buf' av k a : arg_in buf av k a → arg_in (buf ++ buf') av k a.
Proof.
  intros [Z (p & r & E & D)]. split; [done|]. exists p, (r ++ buf'). split; [done|].
  assert (p ≤ length buf)%nat. { apply (f_equal length) in D. rewrite length_drop, length_app in D. cbn in D. lia. }
  rewrite drop_app_le, D, <-app_assoc by done. done.
Qed.
Lemma arg_in_argv buf av av' k a : av' !! k = av !! k → arg_in buf av k a → arg_in buf av' k a.
Proof. intros E [Z (p & r & E1 & D)]. split; [done|]. exists p, r. by rewrite E. Qed.

Lemma arg_in_bound buf av k a p : arg_in buf av k a → av !! k = Some (Some p) → (p + length a < length buf)%nat.
Proof.
  intros [_ (q & r & E & D)] E'. rewrite E in E'. injection E' as ->. apply (f_equal length) in D. rewrite length_drop, length_app in D. cbn in D. lia.
Qed.
(** Behind the last argument nothing is set. *)
Lemma ordered_open cl o av : ordered cl av → (∀ k, (length (cl ++ opened o) ≤ k < MAX_ARGS)%nat → av !! k = Some None) → length av = MAX_ARGS →
  ordered (cl ++ opened o) av.
Proof.
  intros Od Fr La k a p p' Hk E E'. destruct o as [b|]; cbn [opened] in *; [|rewrite app_nil_r in Hk; by eapply Od].
  apply lookup_app_Some in Hk as [Hk|[Hle Hk]]; [by eapply Od|]. apply list_lookup_singleton_Some in Hk as [Hk _].
  pose proof (lookup_lt_Some _ _ _ E') as L. rewrite Fr in E'; [done|]. rewrite length_app. cbn. lia.
Qed.

Lemma lr_char total t x pre c rest junk : lex_rel total t x pre (c :: rest) junk → cur_char x = Done (c, x) ∧ c ≠ 0.
Proof.
  intros R. split; [|pose proof (lr_rest _ _ _ _ _ _ R) as F; by apply Forall_cons in F as [? _]].
  unfold cur_char. rewrite (lr_buf _ _ _ _ _ _ R), (lr_pos _ _ _ _ _ _ R), app_assoc, lookup_app_r, Nat.sub_diag by lia. done.
Qed.
Lemma after_backslash_ok total t x pre rest junk : lex_rel total t x pre rest junk → after_backslash x = ends_backslash t.
Proof.
  intros R. unfold after_backslash, ends_backslash. rewrite (lr_arg _ _ _ _ _ _ R).
  destruct (open t) as [a|] eqn:Eo; [|by rewrite (bool_decide_false (is_Some _)), andb_false_r by apply is_Some_None].
  rewrite (bool_decide_true (is_Some _)), andb_true_r by done. destruct (lr_open _ _ _ _ _ _ R a Eo) as (Za & _ & Hq).
  rewrite (lr_buf _ _ _ _ _ _ R), (lr_pos _ _ _ _ _ _ R), Eo. cbn [default id].
  destruct (decide (a = [])) as [->|Na].
  - rewrite app_nil_r. specialize (Hq eq_refl). rewrite last_lookup in Hq. replace (Init.Nat.pred (length pre)) with (length pre - 1)%nat in Hq by lia.
    assert ((length pre - 1) < length pre)%nat by (by apply lookup_lt_Some in Hq). rewrite lookup_app_l, Hq by lia.
    rewrite (bool_decide_false (Some QUOTE = _)) by done. by rewrite andb_false_r, bool_decide_false by done.
  - assert (0 < length a)%nat by (destruct a; [done|cbn; lia]). rewrite length_app, (proj2 (Nat.ltb_lt 0 _)) by lia. cbn [andb].
    rewrite lookup_app_r by lia.
    rewrite lookup_app_l by lia. rewrite last_lookup, <-Nat.sub_1_r. by replace (length pre + length a - 1 - length pre)%nat with (length a - 1)%nat by lia.
Qed.

(** What the loop does after every round. *)
Definition next (x : lex) : lex := x_pos (S (pos x)) x.

Section Flags.
Context {total : nat} {t : tok} {x : lex} {pre rest junk : list Z} (R : lex_rel total t x pre rest junk).
Lemma rel_quote q : lex_rel total (o_quote q t) (x_quote q x) pre rest junk.
Proof. destruct R as [B P T Zc A (_ & F2 & F3 & F4) C Fr Cl Od O]. by split. Qed.
Lemma rel_lim b : lex_rel total (o_lim b t) (x_lim b x) pre rest junk.
Proof. destruct R as [B P T Zc A (F1 & _ & F3 & F4) C Fr Cl Od O]. by split. Qed.
Lemma rel_eq d : lex_rel total (o_eq d t) (x_isD d x) pre rest junk.
Proof. destruct R as [B P T Zc A (F1 & F2 & _ & F4) C Fr Cl Od O]. by split. Qed.
End Flags.

(** ** One character *)
Section Step.
Context (total : nat) (t : tok) (x : lex) (pre rest junk : list Z) (c : Z).
Hypothesis R : lex_rel total t x pre (c :: rest) junk.

Lemma rest_ok : no_zero rest ∧ c ≠ 0.
Proof. pose proof (lr_rest _ _ _ _ _ _ R) as F. by apply Forall_cons in F as [? ?]. Qed.

Lemma rel_add : ∃ pre', lex_rel total (add c t) (next x) pre' rest junk.
Proof.
  destruct rest_ok as [Zr Nc]. pose proof R as [B P T Zc A F C Fr Cl Od O]. unfold add. destruct (open t) as [a|] eqn:Eo; cbn [fmap option_fmap option_map default id] in *.
  - exists pre. split; cbn; rewrite ?Eo; try done.
    + rewrite B. by rewrite <-!app_assoc.
    + rewrite P, !length_app. cbn. lia.
    + cbn in T. lia.
    + unfold o_open. by rewrite (count_some _ _ _ _ _ _ _ Eo).
    + unfold o_open. by rewrite (count_some _ _ _ _ _ _ _ Eo).
    + intros a' [= <-]. destruct (O a eq_refl) as (Za & Ea & Hq). split; [apply Forall_app_2; [done|by constructor]|]. split; [done|].
      intros E. by apply app_eq_nil in E as [_ ?].
  - exists (pre ++ [c]). replace (o_open None t) with t by (destruct t; cbn in *; by subst). split; cbn; rewrite ?Eo in *; try done; cbn in *.
    + by rewrite B, <-app_assoc.
    + rewrite P, !app_nil_r, length_app. cbn. lia.
    + lia.
    + intros k a Hk. by apply arg_in_app, Cl.
Qed.

Lemma rel_close : let x' := x_arg false (x_buf (<[pos x := 0]> (l_buf x)) x) in
  cut x = Done (tt, x') ∧ ∃ pre', lex_rel total (close t) (next x') pre' rest junk.
Proof.
  split; [done|]. destruct rest_ok as [Zr Nc]. pose proof R as [B P T Zc A F (C1 & C2 & C3) Fr Cl Od O].
  exists (pre ++ default [] (open t) ++ [0]). split; cbn; try done.
  - rewrite B, P, app_assoc, insert_app_r_alt, Nat.sub_diag by done. by rewrite <-!app_assoc.
  - rewrite P, app_nil_r, !length_app. cbn. lia.
  - cbn in T. lia.
  - unfold count, tokens in *. cbn. rewrite app_nil_r. done.
  - unfold count, tokens in *. cbn. by rewrite app_nil_r.
  - intros k a Hk. unfold tokens in Hk. destruct (open t) as [b|] eqn:Eo; cbn [opened default id] in *.
    + apply lookup_app_Some in Hk as [Hk|[Hle Hk]]; [by apply arg_in_app, Cl|]. apply list_lookup_singleton_Some in Hk as [Hk <-].
      destruct (O b eq_refl) as (Zb & Eb & _). split; [done|]. exists (length pre), []. replace k with (length (closed t)) by lia. split; [done|].
      by rewrite drop_app_length.
    + rewrite app_nil_r in Hk. by apply arg_in_app, Cl.
  - by apply ordered_open.
Qed.

Lemma rel_unescape : ends_backslash t = true →
  ∃ x', drop_backslash x = Done (tt, x') ∧ ∃ pre' junk', lex_rel total (unescape c t) (next x') pre' rest junk'.
Proof.
  intros Eb. destruct rest_ok as [Zr Nc]. pose proof R as [B P T Zc A F (C1 & C2 & C3) Fr Cl Od O]. unfold ends_backslash in Eb.
  destruct (open t) as [a|] eqn:Eo; [|done]. apply bool_decide_eq_true in Eb. destruct (O a eq_refl) as (Za & Ea & _). cbn [default id] in *.
  apply last_Some in Eb as [a' ->]. apply Forall_app in Za as [Za' _].
  assert (D : drop (pos x) (l_buf x) = c :: rest ++ 0 :: junk) by (rewrite B, app_assoc; by apply drop_app_length').
  assert (St : strlen (drop (pos x) (l_buf x)) = S (length rest)) by (rewrite D; exact (strlen_app (c :: rest) junk Zc)).
  unfold drop_backslash. rewrite St, D, (proj2 (Nat.ltb_lt _ _)) by (cbn; rewrite length_app; cbn; lia). eexists. split; [reflexivity|].
  exists pre, (0 :: junk). unfold unescape. rewrite Eo. cbn [fmap option_fmap option_map]. rewrite length_app, Nat.add_sub, take_app_length.
  rewrite length_app in P. cbn in P. rewrite length_app in P. cbn in P. split; cbn; try done.
  - replace (take (S (length rest)) (rest ++ 0 :: junk)) with (rest ++ [0]).
    2: { change (0 :: junk) with ([0] ++ junk). rewrite app_assoc, take_app_length'; [done|]. rewrite length_app. cbn. lia. }
    unfold write_at. replace (pos x - 1)%nat with (length (pre ++ a')) by (rewrite length_app; lia).
    rewrite B, <-(app_assoc a'), (app_assoc pre a'), take_app_length, drop_app_add' by done. cbn [app length].
    replace (S (length (rest ++ [0]))) with (length (BACKSLASH :: c :: rest)) by (rewrite length_app; cbn; lia).
    change (BACKSLASH :: c :: rest ++ 0 :: junk) with ((BACKSLASH :: c :: rest) ++ 0 :: junk). rewrite drop_app_length.
    by rewrite <-!app_assoc.
  - rewrite !length_app. cbn. lia.
  - cbn in T. lia.
  - by rewrite (count_some _ _ _ _ _ _ _ Eo).
  - by rewrite (count_some _ _ _ _ _ _ _ Eo).
  - intros b [= <-]. split; [apply Forall_app_2; [done|by constructor]|]. split; [done|]. intros E. by apply app_eq_nil in E as [_ ?].
Qed.

(** A new argument, from the character read or, behind a quotation mark, from the next. *)
Definition with_arg (p : nat) : lex :=
  mk_lex (l_buf x) (<[argc x := Some p]> (l_argv x)) (S (argc x)) (pos x) true (inQuote x) (done x) (limQ x) (isD x).
Lemma new_arg_run p : new_arg p x = if (count t <? MAX_ARGS)%nat then Done (tt, with_arg p) else Trap Fault.
Proof. destruct (lr_argc _ _ _ _ _ _ R) as (E & _ & _). unfold new_arg, with_arg. by rewrite <-E. Qed.

Lemma rel_start (b : bool) : open t = None → (count t < MAX_ARGS)%nat → (b = true → c = QUOTE) →
  let p := if b then (pos x + 1)%nat else pos x in
  lex_rel total (o_open (Some (if b then [] else [c])) t) (next (with_arg p)) (if b then pre ++ [c] else pre) rest junk.
Proof.
  intros Eo Lt Hb. destruct rest_ok as [Zr Nc]. pose proof R as [B P T Zc A F (C1 & C2 & C3) Fr Cl Od O]. rewrite Eo in *. cbn [default id app] in *.
  assert (Cc : count t = length (closed t)) by (unfold count, tokens; by rewrite Eo, app_nil_r).
  assert (Cs : ∀ o, count (o_open (Some o) t) = S (count t)) by (intros o; rewrite Cc; unfold count, tokens; cbn; rewrite length_app; cbn; lia).
  assert (Ag : ∀ k a p, closed t !! k = Some a → <[argc x := Some p]> (l_argv x) !! k = l_argv x !! k).
  { intros k a p Hk%lookup_lt_Some. apply list_lookup_insert_ne. lia. }
  split; rewrite ?Cs; cbn; try done.
  - rewrite B. destruct b; cbn; by rewrite <-?app_assoc.
  - rewrite P. destruct b; cbn; rewrite !length_app; cbn; lia.
  - cbn in T. lia.
  - rewrite length_insert. lia.
  - intros k Hk. rewrite list_lookup_insert_ne by lia. apply Fr. lia.
  - intros k a Hk. eapply arg_in_argv; [by eapply Ag|]. destruct b; [apply arg_in_app|]; by apply Cl.
  - intros k a p p' Hk E E'. rewrite (Ag k a _ Hk) in E. pose proof (lookup_lt_Some _ _ _ Hk) as Lk.
    destruct (decide (S k = length (closed t))) as [Ek|Nk].
    + rewrite Ek, <-Cc, C1, list_lookup_insert_eq in E' by lia. injection E' as <-. pose proof (arg_in_bound _ _ _ _ _ (Cl k a Hk) E) as L.
      rewrite P, app_nil_r. destruct b; lia.
    + rewrite list_lookup_insert_ne in E' by lia. by eapply Od.
  - intros a [= <-]. rewrite <-Cc, C1, list_lookup_insert_eq by lia. destruct b.
    + split_and!; [constructor|rewrite P, !length_app; do 2 f_equal; cbn; lia|]. intros _. by rewrite last_snoc, Hb.
    + split_and!; [by repeat constructor|by rewrite P, app_nil_r|done].
Qed.

End Step.

Lemma switch_ok total t x pre rest junk c : lex_rel total t x pre (c :: rest) junk →
  match tstep c t with
  | TOk t' => ∃ x' pre' junk', switch x = Done (true, x') ∧ lex_rel total t' (next x') pre' rest junk'
  | TSyntax => ∃ x', switch x = Done (false, x')
  | TOverflow => switch x = Trap Fault
  end.
Proof.
  intros R. destruct (lr_char _ _ _ _ _ _ _ R) as [Ec Nc]. destruct (rel_add _ _ _ _ _ _ _ R) as [pa Ra]. destruct (rel_close _ _ _ _ _ _ _ R) as [Eu [pc Rc]].
  pose proof (after_backslash_ok _ _ _ _ _ _ R) as Eb. pose proof (lr_arg _ _ _ _ _ _ R) as Ea. destruct (lr_flags _ _ _ _ _ _ R) as (Fq & Fl & Fe & Fd).
  destruct (lr_argc _ _ _ _ _ _ R) as (Cn & _ & _). 
  unfold switch, tstep. rewrite (bind_done _ _ _ _ _ Ec), (bind_done _ _ x x x) by done. rewrite (proj2 (Z.eqb_neq _ _) Nc), Eb, Ea, Fq, Fe, Cn.
  assert (Esc : ends_backslash t = true → ∃ x' pre' junk', (drop_backslash ;;; ret true) x = Done (true, x') ∧ lex_rel total (unescape c t) (next x') pre' rest junk').
  { intros Es. destruct (rel_unescape _ _ _ _ _ _ _ R Es) as (x' & Ex & pre' & junk' & R'). exists x', pre', junk'. by rewrite (bind_done _ _ _ _ _ Ex). }
  destruct (Z.eqb_spec c QUOTE) as [Eq|_]; [|destruct (c =? SPACE); [|destruct (c =? EQUALS); [|destruct (c =? COMMA)]]].
  - destruct (ends_backslash t) eqn:Es; [by apply Esc|].
    unfold start. destruct (open t) as [a|] eqn:Eo.
    + rewrite (bool_decide_true (is_Some _)) by done. destruct (quoted t) eqn:Qt; cbn [negb andb].
      * rewrite (bind_done _ _ _ _ _ Eu). eexists _, pc, junk. split; [reflexivity|]. exact (rel_quote Rc false).
      * by exists x, pa, junk.
    + rewrite (bool_decide_false (is_Some _)) by apply is_Some_None. destruct (quoted t) eqn:Qt; cbn [negb andb]; [by exists x|].
      rewrite (bind_done _ _ x tt (x_quote true x)) by done. pose proof (rel_quote R true) as Rq.
      cbv beta. rewrite (bind_if _ _ _ _ _ _ (new_arg_run _ _ _ _ _ _ _ Rq _)). change (count (o_quote true t)) with (count t).
      destruct (Nat.ltb_spec (count t) MAX_ARGS) as [Lt|]; [|done]. eexists _, (pre ++ [c]), junk. split; [reflexivity|].
      exact (rel_start _ _ _ _ _ _ _ Rq true Eo Lt (λ _, Eq)).
  - destruct (ends_backslash t) eqn:Es; [by apply Esc|]. destruct (open t) as [a|] eqn:Eo.
    + rewrite (bool_decide_true (is_Some _)) by done. destruct (quoted t); cbn [negb andb]; [by exists x, pa, junk|].
      rewrite (bind_done _ _ _ _ _ Eu). by eexists _, pc, junk.
    + rewrite (bool_decide_false (is_Some _)), andb_false_r by apply is_Some_None.
      destruct (quoted t); [by exists x, pa, junk|]. rewrite <-(add_closed c t Eo). by exists x, pa, junk.
  - destruct (count t =? 1)%nat.
    + rewrite (bind_done _ _ _ _ _ Eu). eexists _, pc, junk. split; [reflexivity|]. exact (rel_eq Rc 1).
    + destruct (count t =? 0)%nat; [by exists x|]. by exists x, pa, junk.
  - destruct ((eq t =? 1) && (count t =? 1)%nat); [by exists x|]. destruct (open t) as [a|] eqn:Eo.
    + rewrite (bool_decide_true (is_Some _)) by done. destruct (quoted t); cbn [negb andb]; [by exists x, pa, junk|].
      rewrite (bind_done _ _ _ _ _ Eu). eexists _, pc, junk. split; [reflexivity|]. exact (rel_lim Rc true).
    + rewrite (bool_decide_false (is_Some _)), andb_false_r by apply is_Some_None. by exists x, pa, junk.
  - destruct (open t) as [a|] eqn:Eo.
    + rewrite (bool_decide_true (is_Some _)) by done. by exists x, pa, junk.
    + rewrite (bool_decide_false (is_Some _)) by apply is_Some_None. cbn [negb].
      cbv beta. rewrite (bind_if _ _ _ _ _ _ (new_arg_run _ _ _ _ _ _ _ R _)). unfold start.
      destruct (Nat.ltb_spec (count t) MAX_ARGS) as [Lt|]; [|done]. eexists _, pre, junk. split; [reflexivity|].
      pose proof (rel_eq (rel_lim (rel_start _ _ _ _ _ _ _ R false Eo Lt (λ H, False_ind _ (diff_false_true H))) false) (if eq t =? 1 then 2 else eq t)) as G.
      cbn -[next] in G |- *. by rewrite Fe.
Qed.

(** ** A whole line *)
(** The arguments as the code leaves them: offsets of strings in the buffer. *)
Record args_at (args : list (list Z)) (argc : nat) (av : list (option nat)) (buf : list Z) : Prop := {
  aa_count : argc = length args ∧ length av = MAX_ARGS;
  aa_args : ∀ k a, args !! k = Some a → arg_in buf av k a;
  aa_order : ordered args av;
  aa_free : ∀ k, (length args ≤ k < MAX_ARGS)%nat → av !! k = Some None }.

Lemma rel_end total t x pre junk : lex_rel total t x pre [] junk →
  inQuote x = quoted t ∧ args_at (tokens t) (argc x) (l_argv x) (l_buf x) ∧ (strlen (l_buf x) ≤ total)%nat ∧ pos x = (total - dropped t)%nat.
Proof.
  intros [B P T Zc A (F1 & F2 & F3 & F4) (C1 & C2 & C3) Fr Cl Od O]. split; [done|].
  split; [|split; [|cbn in T; lia]].
  2: { rewrite B, app_assoc. cbn [app]. etrans; [apply strlen_app_le|]. cbn in T. lia. }
  split; [done| |by apply ordered_open|done].
  intros k a Hk. unfold tokens in Hk. rewrite B. apply lookup_app_Some in Hk as [Hk|[Hle Hk]]; [by apply arg_in_app, Cl|].
  destruct (open t) as [b|] eqn:Eo; [|done]. cbn in Hk. apply list_lookup_singleton_Some in Hk as [Hk <-].
  destruct (O b eq_refl) as (Zb & Eb & _). split; [done|]. exists (length pre), junk. replace k with (length (closed t)) by lia. split; [done|].
  by rewrite drop_app_length.
Qed.

Lemma switch_end total t x pre junk : lex_rel total t x pre [] junk →
  switch x = if bad_end t then Done (false, x) else Done (true, x_done x).
Proof.
  intros [B P T Zc A (F1 & F2 & F3 & F4) (C1 & C2 & C3) Fr Cl Od O]. unfold switch.
  assert (Ec : cur_char x = Done (0, x)).
  { unfold cur_char. rewrite B, P, app_assoc, lookup_app_r, Nat.sub_diag by lia. done. }
  rewrite (bind_done _ _ _ _ _ Ec), (bind_done _ _ x x x), Z.eqb_refl, C1, F1, F2, F3 by done. unfold bad_end. by destruct (_ || _).
Qed.

(** How the loop ends, when the tokenizer on lists ends in [t]. *)
Definition ends (total : nat) (size : Z) (t : tok) (r : outcome (bool * lex)) : Prop :=
  if (Z.of_nat (total - dropped t) <? size) && bad_end t then ∃ x, r = Done (false, x)
  else ∃ x, r = Done (true, x) ∧ inQuote x = quoted t ∧ args_at (tokens t) (argc x) (l_argv x) (l_buf x) ∧ (strlen (l_buf x) ≤ total)%nat.

Lemma lex_loop_ok total size rest : ∀ fuel t x pre junk, lex_rel total t x pre rest junk → (length rest < fuel)%nat →
  Z.of_nat (pos x + length rest) ≤ size → Z.of_nat (pos x) < size →
  match trun rest t with
  | TOk t' => ends total size t' (lex_loop fuel size x)
  | TSyntax => ∃ x', lex_loop fuel size x = Done (false, x')
  | TOverflow => lex_loop fuel size x = Trap Fault
  end.
Proof.
  induction rest as [|c rest IH]; intros fuel t x pre junk R Lf Ls Lp; (destruct fuel as [|fuel]; [cbn in Lf; lia|]); cbn [trun lex_loop].
  - destruct (rel_end _ _ _ _ _ R) as (Eq & Aa & El & Ep). unfold ends. rewrite <-Ep, (proj2 (Z.ltb_lt _ _) Lp). cbn [andb].
    pose proof (switch_end _ _ _ _ _ R) as Es. destruct (bad_end t); rewrite (bind_done _ _ _ _ _ Es); [by eexists|].
    eexists. split; [reflexivity|]. done.
  - pose proof (switch_ok _ _ _ _ _ _ _ R) as S. destruct (tstep c t) as [t'| |] eqn:Et.
    + destruct S as (x' & pre' & junk' & Es & R'). rewrite (bind_done _ _ _ _ _ Es), (bind_done _ _ x' x' x') by done. cbn [negb].
      destruct (lr_flags _ _ _ _ _ _ R') as (_ & _ & _ & Fd). cbn [next x_pos done] in Fd. rewrite Fd, (bind_done _ _ x' tt (next x')) by done.
      pose proof (lr_total _ _ _ _ _ _ R) as T. pose proof (lr_total _ _ _ _ _ _ R') as T'. cbn [length] in *. cbn [next pos x_pos] in T'.
      assert (dropped t ≤ dropped t')%nat as Ld by (by eapply tstep_dropped).
      destruct (Z.ltb_spec (Z.of_nat (S (pos x'))) size) as [Lt|Ge].
      * apply (IH fuel t' (next x') pre' junk' R'); [lia|cbn [next pos x_pos]; lia|done].
      * assert (rest = []) as -> by (destruct rest; [done|cbn [length] in *; lia]). cbn [trun].
        destruct (rel_end _ _ _ _ _ R') as (Eq & Aa & El & Ep). unfold ends. rewrite <-Ep. cbn [next pos x_pos].
        rewrite (proj2 (Z.ltb_ge _ _) Ge). cbn [andb]. eexists. split; [reflexivity|]. done.
    + destruct S as (x' & Es). exists x'. by rewrite (bind_done _ _ _ _ _ Es), (bind_done _ _ x' x' x').
    + unfold bind at 1. by rewrite S.
Qed.

Lemma lex0_rel line junk : no_zero line → lex_rel (length line) tok0 (lex0 (line ++ 0 :: junk)) [] line junk.
Proof.
  intros Zl. split; try done.
  - split_and!; [done|vm_compute; lia|done].
  - intros k Hk. apply lookup_replicate_2. unfold MAX_ARGS in *. lia.
Qed.
Lemma lex_line size line junk : no_zero line → line ≠ [] → Z.of_nat (length line) ≤ size →
  match trun line tok0 with
  | TOk t => ends (length line) size t (lex_loop (S (length (line ++ 0 :: junk))) size (lex0 (line ++ 0 :: junk)))
  | TSyntax => ∃ x, lex_loop (S (length (line ++ 0 :: junk))) size (lex0 (line ++ 0 :: junk)) = Done (false, x)
  | TOverflow => lex_loop (S (length (line ++ 0 :: junk))) size (lex0 (line ++ 0 :: junk)) = Trap Fault
  end.
Proof.
  intros Zl N L. assert (0 < length line)%nat by (destruct line; [done|cbn; lia]).
  apply (lex_loop_ok _ _ _ _ _ _ _ _ (lex0_rel line junk Zl)); cbn [lex0 pos]; [rewrite length_app; lia|lia|lia].
Qed.

(** ** Printing arguments *)
(** An argument between quotation marks, with a backslash before every quotation mark
    and every space; the command as it is. *)
Definition escape (c : Z) : list Z := if (c =? QUOTE) || (c =? SPACE) then [BACKSLASH; c] else [c].
Definition print_arg (a : list Z) : list Z := SPACE :: QUOTE :: (a ≫= escape) ++ [QUOTE].
Definition print_line (cmd : list Z) (args : list (list Z)) : list Z := cmd ++ (args ≫= print_arg).
(** What can be printed: the argument must not end in a backslash; the command has no
    character with a meaning. *)
Definition printable_arg (a : list Z) : Prop := no_zero a ∧ last a ≠ Some BACKSLASH.
Definition plain (c : Z) : Prop := c ≠ 0 ∧ c ≠ QUOTE ∧ c ≠ SPACE ∧ c ≠ EQUALS ∧ c ≠ COMMA.
Definition printable_cmd (a : list Z) : Prop := a ≠ [] ∧ Forall plain a ∧ last a ≠ Some BACKSLASH.
#[export] Instance plain_dec c : Decision (plain c).
Proof. unfold plain. apply _. Defined.

Lemma tstep_plain c t a : plain c → open t = Some a → tstep c t = TOk (add c t).
Proof.
  intros (N0 & N1 & N2 & N3 & N4) E. unfold tstep.
  by rewrite (proj2 (Z.eqb_neq c QUOTE)), (proj2 (Z.eqb_neq c SPACE)), (proj2 (Z.eqb_neq c EQUALS)), (proj2 (Z.eqb_neq c COMMA)), E by done.
Qed.

Lemma trun_escape c t a : c ≠ 0 → open t = Some a → quoted t = true → (2 ≤ count t)%nat →
  ∃ n, trun (escape c) t = TOk (mk_tok (closed t) (Some (a ++ [c])) true (lim t) (eq t) n).
Proof.
  intros N0 E Q C. destruct t as [cl o q l e n]. cbn [open quoted lim closed eq] in *. subst o q. unfold escape.
  destruct ((c =? QUOTE) || (c =? SPACE)) eqn:Ec.
  - exists (S n). cbn [trun]. rewrite (tstep_plain BACKSLASH _ a) by done. unfold tstep, add, o_open. cbn [open fmap option_fmap option_map closed quoted lim eq dropped].
    unfold ends_backslash, unescape. cbn [open closed quoted lim eq dropped fmap option_fmap option_map]. rewrite last_snoc, bool_decide_true by done.
    rewrite length_app, Nat.add_sub, take_app_length. destruct (c =? QUOTE); [done|]. cbn in Ec. by rewrite Ec.
  - apply orb_false_iff in Ec as [E1 E2]. exists n. cbn [trun]. unfold tstep. rewrite E1, E2. cbn [open quoted eq].
    rewrite (proj2 (Nat.eqb_neq _ 1)), (proj2 (Nat.eqb_neq _ 0)), andb_false_r by lia. by destruct (c =? EQUALS), (c =? COMMA).
Qed.

Lemma trun_escapes b : ∀ cl a l e n, no_zero b → (1 ≤ length cl)%nat →
  ∃ n', trun (b ≫= escape) (mk_tok cl (Some a) true l e n) = TOk (mk_tok cl (Some (a ++ b)) true l e n').
Proof.
  induction b as [|c b IH]; intros cl a l e n Zb Lc; cbn [mbind list_bind].
  - exists n. by rewrite app_nil_r.
  - apply Forall_cons in Zb as [Nc Zb]. rewrite trun_app.
    destruct (trun_escape c (mk_tok cl (Some a) true l e n) a Nc eq_refl eq_refl) as [n1 ->]; [unfold count, tokens; cbn; rewrite length_app; cbn; lia|].
    cbn [closed lim eq]. destruct (IH cl (a ++ [c]) l e n1 Zb Lc) as [n2 E]. exists n2. by rewrite <-app_assoc in E.
Qed.

(** One printed argument, behind an argument that is closed or still open. *)
Lemma trun_arg a t : printable_arg a → quoted t = false → ends_backslash t = false → (1 ≤ count t < MAX_ARGS)%nat →
  ∃ n, trun (print_arg a) t = TOk (mk_tok (tokens t ++ [a]) None false (lim t) (eq t) n).
Proof.
  intros [Za La] Q B C. unfold print_arg. cbn [trun]. unfold tstep at 1. cbn [Z.eqb]. change (SPACE =? QUOTE) with false. change (SPACE =? SPACE) with true. cbv iota.
  rewrite B, Q. cbn [trun]. unfold tstep at 1. change (QUOTE =? QUOTE) with true. cbv iota. cbn [ends_backslash close open quoted]. rewrite Q. unfold start.
  replace (count (o_quote true (close t))) with (count t) by (unfold count, tokens; cbn; by rewrite app_nil_r).
  rewrite (proj2 (Nat.ltb_lt _ _)) by lia. rewrite trun_app. unfold o_open, o_quote, close. cbn [closed open quoted lim eq dropped].
  destruct (trun_escapes a (tokens t) [] (lim t) (eq t) (dropped t) Za) as [n ->]; [unfold count in C; lia|]. cbn [app].
  exists n. cbn [trun]. unfold tstep. change (QUOTE =? QUOTE) with true. cbv iota. cbn [ends_backslash open quoted].
  by rewrite bool_decide_false.
Qed.
Lemma trun_args args : ∀ t, Forall printable_arg args → quoted t = false → ends_backslash t = false → (1 ≤ count t)%nat → (count t + length args ≤ MAX_ARGS)%nat →
  ∃ t', trun (args ≫= print_arg) t = TOk t' ∧ tokens t' = tokens t ++ args ∧ quoted t' = false ∧ lim t' = lim t ∧ eq t' = eq t.
Proof.
  induction args as [|a args IH]; intros t P Q B C1 C2; cbn [mbind list_bind].
  - exists t. by rewrite app_nil_r.
  - apply Forall_cons in P as [Pa P]. cbn [length] in C2. rewrite trun_app. destruct (trun_arg a t Pa Q B) as [n ->]; [lia|].
    destruct (IH (mk_tok (tokens t ++ [a]) None false (lim t) (eq t) n)) as (t' & E & T & Q' & L & D); try done.
    + unfold count. cbn. rewrite app_nil_r, length_app. cbn. lia.
    + unfold count in *. cbn. rewrite app_nil_r, length_app. cbn. lia.
    + exists t'. split; [exact E|]. split; [|done]. rewrite T. unfold tokens at 1. cbn. by rewrite app_nil_r, <-app_assoc.
Qed.

Lemma trun_word c cl w : ∀ a l e n, Forall plain w → trun w (mk_tok cl (Some (c :: a)) false l e n) = TOk (mk_tok cl (Some (c :: a ++ w)) false l e n).
Proof.
  induction w as [|b w IH]; intros a l e n F; cbn [trun]; [by rewrite app_nil_r|]. apply Forall_cons in F as [Pb F].
  rewrite (tstep_plain b _ (c :: a) Pb) by done.
  change (add b _) with (mk_tok cl (Some (c :: (a ++ [b]))) false l e n). rewrite IH by done.
  by rewrite <-app_assoc.
Qed.
Lemma trun_cmd cmd : printable_cmd cmd → trun cmd tok0 = TOk (mk_tok [] (Some cmd) false false 0 0).
Proof.
  intros (N & F & _). destruct cmd as [|c w]; [done|]. apply Forall_cons in F as [(N0 & N1 & N2 & N3 & N4) F]. cbn [trun]. unfold tstep.
  rewrite (proj2 (Z.eqb_neq c QUOTE)), (proj2 (Z.eqb_neq c SPACE)), (proj2 (Z.eqb_neq c EQUALS)), (proj2 (Z.eqb_neq c COMMA)) by done.
  exact (trun_word c [] w [] false 0 0 F).
Qed.

(** Printing and cutting are inverse. *)
Lemma parse_print size cmd args : printable_cmd cmd → Forall printable_arg args → (length args < MAX_ARGS)%nat →
  parse size (print_line cmd args) = Args (cmd :: args).
Proof.
  intros Pc Pa L. unfold parse, print_line. rewrite trun_app, (trun_cmd cmd Pc).
  destruct (trun_args args (mk_tok [] (Some cmd) false false 0 0) Pa eq_refl) as (t & -> & T & Q & Lm & Eq).
  - apply bool_decide_eq_false_2. by destruct Pc as (_ & _ & ?).
  - done.
  - change (count _) with 1%nat. lia.
  - unfold bad_end. rewrite Q, Lm, Eq. unfold count. rewrite T. cbn. by rewrite andb_false_r.
Qed.
End CliLex.
