(* ===== verification/CliOps.v ===== *)
(** * The command line interface: table of commands, and what a line does

    [cli_wf] relates the table of Cli.v to the list of its commands; registration,
    removal and lookup are operations on that list, and a line either is refused, or
    calls the function of the first command whose name matches with exactly the
    arguments that the tokenizer of CliLex.v gives. *)
From stdpp Require Import functions.
From Stdlib Require String.
Import String.StringSyntax.
From S2P Require Import Prelude Bytes Cli CliLex.
Import Cli CliLex.
Local Open Scope Z_scope.

Module CliOps.

(** ** Comparing strings *)
Lemma strcmp_zero a : ∀ b, no_zero a → no_zero b → strcmp a b = 0 ↔ a = b.
Proof.
  induction a as [|x a IH]; intros [|y b] Za Zb; cbn; try done.
  - apply Forall_cons in Zb as [Ny _]. split; [lia|done].
  - apply Forall_cons in Za as [Nx _]. rewrite (proj2 (Z.eqb_neq _ _)) by lia. split; [lia|done].
  - apply Forall_cons in Za as [Nx Za], Zb as [Ny Zb]. destruct (Z.eqb_spec x y) as [->|N].
    + rewrite (proj2 (Z.eqb_neq _ _)), IH by done. split; [by intros ->|by intros [=]].
    + split; [lia|by intros [=]].
Qed.

Section Ops.
Context {W : Type} (objs : nat → option cli_command).
Implicit Types (s : st W) (ps : list nat).

(** A command that can be registered. *)
Definition complete (p : nat) : Prop :=
  ∃ cmd n f, objs p = Some cmd ∧ name cmd = Some n ∧ function cmd = Some f.
Definition table (ps : list nat) : list (option nat) := (Some <$> ps) ++ replicate (MAX_COMMANDS - length ps) None.
Record cli_wf (c : cli_st) (ps : list nat) : Prop := {
  cw_num : num_commands c = length ps;
  cw_table : commands c = table ps;
  cw_room : (length ps ≤ MAX_COMMANDS)%nat;
  cw_nodup : NoDup ps;
  cw_complete : Forall complete ps }.

Lemma take_table ps : take (length ps) (table ps) = Some <$> ps.
Proof. unfold table. by rewrite <-(length_fmap Some ps), take_app_length. Qed.
Lemma table_lookup ps i p : ps !! i = Some p → table ps !! i = Some (Some p).
Proof. intros E. unfold table. rewrite lookup_app_l by (rewrite length_fmap; by apply lookup_lt_Some in E). by rewrite list_lookup_fmap, E. Qed.
Lemma length_table ps : (length ps ≤ MAX_COMMANDS)%nat → length (table ps) = MAX_COMMANDS.
Proof. intros L. unfold table. rewrite length_app, length_fmap, length_replicate. lia. Qed.
Lemma table_snoc ps p : (length ps < MAX_COMMANDS)%nat → <[length ps := Some p]> (table ps) = table (ps ++ [p]).
Proof.
  intros L. unfold table. rewrite insert_app_r_alt, length_fmap, Nat.sub_diag, fmap_app, length_app, <-app_assoc by (by rewrite length_fmap).
  f_equal. destruct (MAX_COMMANDS - length ps)%nat as [|n] eqn:E; [lia|]. cbn [replicate insert list_insert fmap list_fmap app length].
  do 2 f_equal. lia.
Qed.

(** ** The operations on a list of commands *)
Definition s_register (p : nat) (ps : list nat) : Z * list nat :=
  if (length ps <? MAX_COMMANDS)%nat then (0, if bool_decide (p ∈ ps) then ps else ps ++ [p]) else (1, ps).
Definition s_unregister (p : nat) (ps : list nat) : Z * list nat :=
  if bool_decide (p ∈ ps) then (0, filter (λ q, q ≠ p) ps) else (1, ps).

Lemma incomplete_false p s : complete p → incomplete objs p s = Done (false, s).
Proof. intros (cmd & n & f & E & En & Ef). unfold incomplete. by rewrite E, En, Ef. Qed.
Lemma cli_get s c : pCli s = Some c → cli s = Done (c, s).
Proof. intros E. unfold cli, bind, gets. by rewrite E. Qed.
Lemma s_cli_id s c : pCli s = Some c → s_cli (Some c) s = s.
Proof. destruct s; cbn. by intros ->. Qed.

Lemma register_run s c ps p : pCli s = Some c → cli_wf c ps → complete p →
  ∃ c', cli_register_command objs p s = Done ((s_register p ps).1, s_cli (Some c') s) ∧ cli_wf c' (s_register p ps).2 ∧ initialized c' = initialized c.
Proof.
  intros Ec Wf Cp. pose proof Wf as [N T L ND F]. unfold cli_register_command, s_register.
  rewrite (bind_done _ _ _ _ _ (incomplete_false p s Cp)), (bind_done _ _ _ _ _ (cli_get s c Ec)), N.
  destruct (Nat.ltb_spec (length ps) MAX_COMMANDS) as [Lt|Ge]; [|exists c; by rewrite s_cli_id].
  rewrite T, take_table. replace (bool_decide (Some p ∈ Some <$> ps)) with (bool_decide (p ∈ ps)) by (apply bool_decide_ext; by rewrite list_elem_of_fmap_inj by apply _).
  case_bool_decide as Ip; [exists c; by rewrite s_cli_id|]. rewrite table_snoc by done. eexists. split; [reflexivity|]. split; [|done].
  split; cbn; [by rewrite length_app, Nat.add_1_r|done|rewrite length_app; cbn; lia| |].
  - apply NoDup_app. split_and!; [done|set_solver|apply NoDup_singleton].
  - apply Forall_app_2; [done|by constructor].
Qed.

Lemma find_command_in p l1 l2 : p ∉ l1 → find_command p (Some <$> l1 ++ p :: l2) = Some (length l1).
Proof.
  induction l1 as [|q l1 IH]; intros N; cbn; [by rewrite bool_decide_true|].
  rewrite bool_decide_false by set_solver. by rewrite IH by set_solver.
Qed.
Lemma find_command_out p ps : p ∉ ps → find_command p (Some <$> ps) = None.
Proof.
  induction ps as [|q ps IH]; intros N; cbn; [done|]. rewrite bool_decide_false by set_solver. by rewrite IH by set_solver.
Qed.
Lemma filter_out (p : nat) (l : list nat) : p ∉ l → filter (λ q, q ≠ p) l = l.
Proof. induction l as [|q l IH]; intros N; [done|]. rewrite filter_cons_True by set_solver. by rewrite IH by set_solver. Qed.
Lemma filter_other (p : nat) (l1 l2 : list nat) : p ∉ l1 → p ∉ l2 → filter (λ q, q ≠ p) (l1 ++ p :: l2) = l1 ++ l2.
Proof.
  intros N1 N2. rewrite filter_app, filter_cons_False by naive_solver. by rewrite !filter_out.
Qed.
(** The memmove and the store behind it. *)
Lemma table_remove l1 p l2 : (length (l1 ++ p :: l2) ≤ MAX_COMMANDS)%nat →
  let t := table (l1 ++ p :: l2) in let n := length (l1 ++ l2) in
  <[n := None]> (if (0 <? n - length l1)%nat then take (length l1) t ++ take (n - length l1) (drop (S (length l1)) t) ++ drop (length l1 + (n - length l1)) t else t)
  = table (l1 ++ l2).
Proof.
  intros L t n. rewrite length_app in L. cbn [length] in L.
  assert (X : ∃ q, (if (0 <? n - length l1)%nat then take (length l1) t ++ take (n - length l1) (drop (S (length l1)) t) ++ drop (length l1 + (n - length l1)) t else t)
    = (Some <$> l1 ++ l2) ++ q :: replicate (MAX_COMMANDS - S n) None).
  { assert (Et : t = (Some <$> l1) ++ Some p :: (Some <$> l2) ++ replicate (MAX_COMMANDS - S n) None).
    { unfold t, n, table. rewrite fmap_app, <-app_assoc. cbn. rewrite !length_app. cbn. do 4 f_equal. lia. }
    assert (En : (n - length l1 = length l2)%nat) by (unfold n; rewrite length_app; lia). rewrite En.
    destruct (Nat.ltb_spec 0 (length l2)) as [L2|L2].
    - destruct l2 as [|q l2 _] using rev_ind; [cbn in L2; lia|]. exists (Some q). rewrite Et.
      set (r := replicate (MAX_COMMANDS - S n) None). rewrite !fmap_app. cbn [fmap list_fmap].
      set (A := Some <$> l1). set (B := Some <$> l2). rewrite length_app. cbn [length].
      replace (length l1) with (length A) by apply length_fmap. replace (length l2) with (length B) by apply length_fmap.
      rewrite take_app_length. replace (S (length A)) with (length A + 1)%nat by lia. rewrite !drop_app_add. cbn [drop].
      rewrite drop_0, take_app_length' by (rewrite length_app; cbn; lia). rewrite Nat.add_1_r. cbn [drop]. by rewrite <-!app_assoc, drop_app_length.
    - assert (l2 = []) as -> by (apply nil_length_inv; lia). exists (Some p). rewrite Et, app_nil_r. done. }
  destruct X as [q ->]. unfold n. rewrite insert_app_r_alt, length_fmap, Nat.sub_diag by (by rewrite length_fmap). cbn [insert list_insert].
  unfold table. f_equal. replace (MAX_COMMANDS - length (l1 ++ l2))%nat with (S (MAX_COMMANDS - S (length (l1 ++ l2)))) by (rewrite length_app; lia). done.
Qed.

Lemma unregister_run s c ps p : pCli s = Some c → cli_wf c ps → complete p →
  ∃ c', cli_unregister_command objs p s = Done ((s_unregister p ps).1, s_cli (Some c') s) ∧ cli_wf c' (s_unregister p ps).2 ∧ initialized c' = initialized c.
Proof.
  intros Ec Wf Cp. pose proof Wf as [N T L ND F]. unfold cli_unregister_command, s_unregister.
  rewrite (bind_done _ _ _ _ _ (incomplete_false p s Cp)), (bind_done _ _ _ _ _ (cli_get s c Ec)), N, T, take_table.
  case_bool_decide as Ip; [|rewrite (find_command_out p ps Ip); exists c; by rewrite s_cli_id].
  apply list_elem_of_split in Ip as (l1 & l2 & ->). apply NoDup_app in ND as (ND1 & D & ND2). apply NoDup_cons in ND2 as [N2 ND2].
  assert (N1 : p ∉ l1) by set_solver. rewrite (find_command_in p l1 l2 N1), (filter_other p l1 l2 N1 N2).
  replace (length (l1 ++ p :: l2) - 1)%nat with (length (l1 ++ l2)) by (rewrite !length_app; cbn; lia).
  cbv zeta. rewrite (table_remove l1 p l2 L). eexists. split; [reflexivity|]. split; [|done].
  rewrite length_app in L. cbn [length] in L.
  split; cbn; [done|done|rewrite length_app; lia| |].
  - apply NoDup_app. split_and!; [done|set_solver|done].
  - apply Forall_app in F as [F1 F2]. apply Forall_cons in F2 as [_ F2]. by apply Forall_app.
Qed.

(** What lacks a name or a function is refused. *)
Lemma incomplete_refused s p cmd : objs p = Some cmd → name cmd = None ∨ function cmd = None →
  cli_register_command objs p s = Done (1, s) ∧ cli_unregister_command objs p s = Done (1, s).
Proof.
  intros E H. assert (I : incomplete objs p s = Done (true, s)) by (unfold incomplete; rewrite E; destruct H as [-> | ->]; [done|by destruct (name cmd)]).
  unfold cli_register_command, cli_unregister_command. by rewrite !(bind_done _ _ _ _ _ I).
Qed.

(** ** Lookup *)
(** The name is compared with a command up to the first dot of the command, or as a
    whole when it has none. *)
Definition matches (a : list Z) (p : nat) : Prop :=
  name_matches (default 0%nat (strchr a DOT)) (command_name objs p) a = true.
#[export] Instance matches_dec a p : Decision (matches a p).
Proof. unfold matches. apply _. Defined.
Definition find (a : list Z) (ps : list nat) : option (nat * nat) := list_find (matches a) ps.

Lemma lookup_loop_ok a c rest : ∀ pre fuel s, cli_wf c (pre ++ rest) → (length rest ≤ fuel)%nat →
  lookup_loop objs fuel c a (default 0%nat (strchr a DOT)) (length pre) (length pre) s =
  match find a rest with
  | Some (j, p) => Done (Some p, s_index (u16 (Z.of_nat (length pre + j))) s)
  | None => Done (None, s)
  end.
Proof.
  unfold find. induction rest as [|p rest IH]; intros pre fuel s Wf Hf; cbn [list_find].
  - destruct fuel as [|fuel]; [done|]. cbn [lookup_loop]. rewrite (cw_num _ _ Wf), app_nil_r, (proj2 (Nat.ltb_ge _ _)) by done. done.
  - destruct fuel as [|fuel]; [cbn in Hf; lia|]. cbn [lookup_loop]. rewrite (cw_num _ _ Wf), length_app, (proj2 (Nat.ltb_lt _ _)) by (cbn; lia).
    rewrite (cw_table _ _ Wf), (table_lookup _ _ p) by (by rewrite lookup_app_r, Nat.sub_diag).
    pose proof (cw_complete _ _ Wf) as F. apply Forall_app in F as [_ F]. apply Forall_cons in F as [(cmd & n & f & Eo & En & _) _]. rewrite Eo, En.
    assert (Em : name_matches (default 0%nat (strchr a DOT)) n a = bool_decide (matches a p)).
    { assert (Cn : command_name objs p = n) by (unfold command_name; by rewrite Eo, En).
      destruct (name_matches _ n a) eqn:X; symmetry; [apply bool_decide_eq_true_2|apply bool_decide_eq_false_2]; unfold matches; rewrite Cn, X; done. }
    rewrite Em. case_bool_decide as M.
    + rewrite decide_True by done. by rewrite Nat.add_0_r.
    + rewrite decide_False by done. specialize (IH (pre ++ [p]) fuel s). rewrite <-app_assoc, length_app, Nat.add_1_r in IH. cbn [app length] in *.
      cbn [length] in Hf. rewrite (IH Wf) by lia.
      destruct (list_find _ rest) as [[j q]|]; [|done]. cbn [fmap option_fmap option_map prod_map fst snd id]. by replace (length pre + S j)%nat with (S (length pre) + j)%nat by lia.
Qed.
Lemma lookup_ok a c ps s : pCli s = Some c → cli_wf c ps →
  lookup_command objs a (default 0%nat (strchr a DOT)) s =
  match find a ps with Some (j, p) => Done (Some p, s_index (u16 (Z.of_nat j)) s) | None => Done (None, s) end.
Proof.
  intros Ec Wf. unfold lookup_command. rewrite (bind_done _ _ _ _ _ (cli_get s c Ec)).
  apply (lookup_loop_ok a c ps [] MAX_COMMANDS s Wf). pose proof (cw_room _ _ Wf). lia.
Qed.

(** A command without a dot is looked up by its whole name, wherever it is. *)
Lemma find_exact a ps p : no_zero a → strchr a DOT = None → Forall complete ps → Forall (λ q, no_zero (command_name objs q)) ps →
  NoDup (command_name objs <$> ps) → p ∈ ps → command_name objs p = a → ∃ j, find a ps = Some (j, p).
Proof.
  intros Za Nd F Fz ND Ip En. assert (Mp : matches a p) by (unfold matches; rewrite Nd; unfold name_matches; cbn; apply Z.eqb_eq, strcmp_zero; [by subst|done..]).
  destruct (list_find_elem_of (matches a) ps p Ip Mp) as [[j q] E]. exists j. unfold find. rewrite E.
  apply list_find_Some in E as (Hj & Mq & _). unfold matches in Mq. rewrite Nd in Mq. cbn in Mq. apply Z.eqb_eq, strcmp_zero in Mq; [|by eapply Forall_lookup_1 in Fz|done].
  apply list_elem_of_lookup in Ip as [i Hi]. do 2 f_equal. apply (inj Some). rewrite <-Hj, <-Hi. f_equal.
  eapply (NoDup_lookup _ _ _ a ND); by rewrite list_lookup_fmap, ?Hj, ?Hi; cbn; f_equal.
Qed.

(** ** The output buffer *)
Definition out_room (n : nat) s : Prop := ∀ o, outbuf s = Some o → (n < length o)%nat.
(** What is in it when [text] was the only output. *)
Definition reply s (text : list Z) : option (list Z) := (λ o, text ++ replicate (length o - length text) 0) <$> outbuf s.
Definition cleared s : st W := s_out ((λ o, replicate (length o) 0) <$> outbuf s) s.
Lemma put_out_run s text av b : out_room (length text) s →
  put_out text (s_args av b (cleared s)) = Done (tt, s_out (reply s text) (s_args av b s)).
Proof.
  intros R. unfold put_out, bind, gets, cleared, reply. cbn [outbuf s_args s_out]. unfold out_room in R. destruct (outbuf s) as [o|] eqn:Eo; cbn [fmap option_fmap option_map].
  - specialize (R o eq_refl). rewrite length_replicate, (proj2 (Nat.ltb_lt _ _)) by done. unfold modify, s_out; cbn. do 3 f_equal. f_equal.
    unfold write_at. cbn [take app]. rewrite length_app, drop_replicate, <-app_assoc. cbn [length app].
    replace (length o - length text)%nat with (S (length o - (0 + (length text + 1)))) by lia. done.
  - by destruct s; cbn in *; subst.
Qed.

(** ** A line *)
Lemma c_string_run p a r s : no_zero a → drop p (inbuf s) = a ++ 0 :: r → c_string p s = Done (a, s).
Proof.
  intros Za E. unfold c_string. rewrite E, strlen_app, cstr_app, (proj2 (Nat.ltb_lt _ _)); [done|rewrite length_app; cbn; lia|done..].
Qed.
Lemma arg_string_run k a s : arg_in (inbuf s) (argv s) k a → arg_string k s = Done (a, s).
Proof. intros [Za (p & r & E & D)]. unfold arg_string. rewrite (bind_done (gets argv) _ s (argv s) s), E by done. by eapply c_string_run. Qed.

Variable exec : nat → nat → nat → M (st W) unit.
(** A function that is called is the last thing that happens, but for the flag. *)
Definition finish (r : outcome (unit * st W)) : outcome (Z * st W) :=
  match r with Done (_, s) => Done (0, s_status (Z.land (s_running_status s) 254) s) | Trap t => Trap t end.
(** What a function finds: its arguments, an empty output buffer, and the rest as it was. *)
Record called s (ps : list nat) (args : list (list Z)) (s1 : st W) : Prop := {
  cd_args : args_at args (length args) (argv s1) (inbuf s1);
  cd_call : ∃ a j p cmd f, head args = Some a ∧ find a ps = Some (j, p) ∧ objs p = Some cmd ∧ function cmd = Some f ∧
    calls s1 = calls s ++ [(f, args)] ∧ s_running_command_index s1 = u16 (Z.of_nat j);
  cd_running : s_running_status s1 = Z.lor (s_running_status s) CLI_COMMAND_IS_RUNNING;
  cd_out : outbuf s1 = outbuf (cleared s);
  cd_rest : pCli s1 = pCli s ∧ forwarded s1 = forwarded s ∧ blocks s1 = blocks s ∧ world s1 = world s }.

Lemma arg_values_ok args (s : st W) : args_at args (length args) (argv s) (inbuf s) → arg_values (length args) 0 s = args.
Proof.
  intros Aa. unfold arg_values. apply list_eq. intros k. rewrite list_lookup_fmap. destruct (args !! k) as [a|] eqn:Ek.
  - rewrite lookup_seq_lt by (by apply lookup_lt_Some in Ek). cbn. destruct (aa_args _ _ _ _ Aa k a Ek) as [Za (p & r & E & D)].
    by rewrite E, D, cstr_app.
  - apply lookup_ge_None in Ek. by rewrite lookup_seq_ge.
Qed.

Lemma call_run f n base s : call exec (Some f) n base s = exec f n base (s_calls (calls s ++ [(f, arg_values n base s)]) s).
Proof. done. Qed.

(** The part behind the tokenizer. *)
Lemma dispatch_ok s c ps args av buf n a l :
  pCli s = Some c → cli_wf c ps → args = a :: l → args_at args n av buf → (strlen buf < length buf)%nat → out_room (strlen buf + 18) s →
  let s0 := s_args av buf (cleared s) in
  let r := (let* a := arg_string 0 in
    let* command := lookup_command objs a (default 0%nat (strchr a DOT)) in
    match command with
    | None => let* line := c_string 0 in put_out (lit "cmd: " ++ line ++ lit " NOT found." ++ crlf) ;;; ret 1
    | Some p =>
        modify (λ s, s_status (Z.lor (s_running_status s) CLI_COMMAND_IS_RUNNING) s) ;;;
        call_object objs exec p n 0 ;;;
        modify (λ s, s_status (Z.land (s_running_status s) (u8 (Z.lnot CLI_COMMAND_IS_RUNNING))) s) ;;; ret 0
    end) s0 in
  match find a ps with
  | Some (j, p) => ∃ cmd f s1, objs p = Some cmd ∧ function cmd = Some f ∧ called s ps args s1 ∧ r = finish (exec f (length args) 0 s1)
  | None => r = Done (1, s_out (reply s (lit "cmd: " ++ cstr buf ++ lit " NOT found." ++ crlf)) (s_args av buf s))
  end.
Proof.
  intros Ec Wf -> Aa Lb Ro s0 r. destruct (aa_count _ _ _ _ Aa) as [-> _].
  unfold r. rewrite (bind_done _ _ _ _ _ (arg_string_run 0 a s0 (aa_args _ _ _ _ Aa 0%nat a eq_refl))).
  assert (Ecl : pCli s0 = Some c) by done. pose proof (lookup_ok a c ps s0 Ecl Wf) as El. destruct (find a ps) as [[j p]|] eqn:Ef; rewrite (bind_done _ _ _ _ _ El).
  - pose proof Ef as Hp. apply list_find_Some in Hp as (Hp & _). destruct (proj1 (Forall_lookup _ _) (cw_complete _ _ Wf) j p Hp) as (cmd & nm & f & Eo & En & Efn).
    set (s1 := s_status (Z.lor (s_running_status s) CLI_COMMAND_IS_RUNNING) (s_index (u16 (Z.of_nat j)) s0)).
    assert (Av : arg_values (length (a :: l)) 0 s1 = a :: l) by by apply arg_values_ok.
    exists cmd, f, (s_calls (calls s ++ [(f, a :: l)]) s1). split_and!; [done|done| |].
    + split; try done. by exists a, j, p, cmd, f.
    + rewrite (bind_done _ _ _ tt s1) by done. unfold call_object. rewrite Eo, Efn. unfold bind at 1. rewrite call_run, Av. cbn [fst snd].
      unfold bind, finish. by destruct (exec f _ 0 _) as [[[] s2]|].
  - assert (Es : c_string 0 s0 = Done (cstr buf, s0)) by (unfold c_string; cbn [inbuf s_args s0 drop]; rewrite (proj2 (Nat.ltb_lt _ _)) by done; done).
    rewrite (bind_done _ _ _ _ _ Es). erewrite bind_done; [|apply put_out_run].
    + done.
    + unfold out_room in *. intros o Eo. specialize (Ro o Eo). rewrite !length_app. change (length (lit "cmd: ")) with 5%nat. change (length (lit " NOT found.")) with 11%nat.
      change (length crlf) with 2%nat. fold (strlen buf). lia.
Qed.

Lemma tokenize_run s line junk size : inbuf s = line ++ 0 :: junk → no_zero line → line ≠ [] → Z.of_nat (length line) ≤ size →
  match parse size line with
  | TooMany => tokenize size s = Trap Fault
  | Bad => ∃ r, tokenize size s = Done (r, s_args (l_argv r.2) (l_buf r.2) s) ∧ negb r.1 || inQuote r.2 = true
  | Args args => ∃ x, tokenize size s = Done ((true, x), s_args (l_argv x) (l_buf x) s) ∧ inQuote x = false ∧
      args_at args (argc x) (l_argv x) (l_buf x) ∧ (strlen (l_buf x) ≤ length line)%nat
  end.
Proof.
  intros E Zl N L. unfold tokenize. rewrite E. pose proof (lex_line size line junk Zl N L) as H. unfold parse.
  destruct (trun line tok0) as [t| |]; [|destruct H as [x ->]; by exists (false, x)|by rewrite H].
  unfold ends in H. destruct (_ && bad_end t); [destruct H as [x ->]; by exists (false, x)|].
  destruct H as (x & -> & Q & Aa & Ls). destruct (quoted t); [exists (true, x); cbn [fst snd negb orb]; by rewrite Q|by exists x].
Qed.

(** What [handle_shell_input] does with a line. *)
Definition line_ok s (ps : list nat) (size : Z) (line : list Z) (r : outcome (Z * st W)) : Prop :=
  match parse size line with
  | TooMany => r = Trap Fault
  | Bad => ∃ av buf, r = Done (2, s_out (reply s (lit "syntax error" ++ crlf)) (s_args av buf s))
  | Args [] => ∃ av buf, r = Done (0, s_out (reply s (lit "argc = 0" ++ crlf)) (s_args av buf s))
  | Args ((a :: _) as args) =>
      match find a ps with
      | Some (j, p) => ∃ cmd f s1, objs p = Some cmd ∧ function cmd = Some f ∧ called s ps args s1 ∧ r = finish (exec f (length args) 0 s1)
      | None => ∃ av buf, r = Done (1, s_out (reply s (lit "cmd: " ++ cstr buf ++ lit " NOT found." ++ crlf)) (s_args av buf s))
      end
  end.

Lemma cli_run_ok s c ps line junk size : pCli s = Some c → cli_wf c ps → inbuf s = line ++ 0 :: junk → no_zero line → line ≠ [] →
  Z.of_nat (length line) ≤ size → out_room (length line + 18) s →
  line_ok s ps size line (handle_shell_input objs exec size s).
Proof.
  intros Ec Wf Ei Zl N L Ro. unfold handle_shell_input, line_ok.
  set (s0 := s_args (replicate MAX_ARGS None) (inbuf s) (cleared s)).
  rewrite (bind_done _ _ s tt (s_args (replicate MAX_ARGS None) (inbuf s) s)), (bind_done _ _ _ tt s0) by done.
  rewrite (bind_done (gets inbuf) _ s0 (inbuf s0) s0) by done. change (inbuf s0) with (inbuf s).
  pose proof (tokenize_run s0 line junk size Ei Zl N L) as T.
  assert (Em : ∀ X (A B C : X), match inbuf s with [] => A | 0 :: _ => B | _ => C end = C).
  { rewrite Ei. destruct line as [|b line]; [done|]. apply Forall_cons in Zl as [Nb _]. by destruct b. }
  rewrite Em. clear Em. assert (Put : ∀ text av buf, (length text ≤ 18)%nat → put_out text (s_args av buf (cleared s)) = Done (tt, s_out (reply s text) (s_args av buf s))).
  { intros text av buf Lt. apply put_out_run. intros o Eo. specialize (Ro o Eo). lia. }
  destruct (parse size line) as [args| |].
  - destruct T as (x & E & Q & Aa & Ls). rewrite (bind_done _ _ _ _ _ E). cbn [fst snd negb orb]. rewrite Q. destruct (aa_count _ _ _ _ Aa) as [Ea _]. rewrite Ea.
    change (s_args (l_argv x) (l_buf x) s0) with (s_args (l_argv x) (l_buf x) (cleared s)). destruct args as [|a args]; cbn [length Nat.ltb Nat.leb].
    + exists (l_argv x), (l_buf x). by erewrite bind_done by (apply Put; vm_compute; lia).
    + assert (Lb : (strlen (l_buf x) < length (l_buf x))%nat).
      { destruct (aa_args _ _ _ _ Aa 0%nat a eq_refl) as [Za (p & r & _ & D)]. rewrite <-(take_drop p (l_buf x)), D, app_assoc.
        eapply Nat.le_lt_trans; [apply strlen_app_le|]. rewrite !length_app. cbn. lia. }
      pose proof (dispatch_ok s c ps (a :: args) (l_argv x) (l_buf x) (argc x) a args Ec Wf eq_refl Aa Lb) as D. cbv zeta in D. rewrite Ea in D. cbn [length] in D.
      specialize (D ltac:(intros o Eo; specialize (Ro o Eo); lia)). destruct (find a ps) as [[j p]|]; [exact D|]. exists (l_argv x), (l_buf x). exact D.
  - destruct T as (r & E & Eq). rewrite (bind_done _ _ _ _ _ E), Eq. exists (l_argv r.2), (l_buf r.2). unfold syntax_error.
    by erewrite bind_done by (apply Put; vm_compute; lia).
  - unfold bind at 1. by rewrite T.
Qed.

(** C15: A line.  A line with a terminator behind it is cut into the arguments that the
    tokenizer on lists gives.  If that refuses it, the answer is "syntax error" and
    nothing is called; without arguments nothing is called either.  Otherwise the
    function of the first registered command that matches is called, once, with
    exactly these arguments, an empty output buffer, and the table and all else as it
    was; and when there is none the answer says so.  A line with more than sixteen
    arguments writes behind the array of arguments. *)
Theorem cli_run_line s c ps line junk size : pCli s = Some c → cli_wf c ps → inbuf s = line ++ 0 :: junk → no_zero line → line ≠ [] →
  Z.of_nat (length line) ≤ size → out_room (length line + 18) s →
  line_ok s ps size line (handle_shell_input objs exec size s).
Proof. apply cli_run_ok. Qed.
End Ops.

(** ** An example: the built-in commands and two more *)
Definition demo_objs (p : nat) : option cli_command :=
  (λ n, mk_command (Some n) None (Some p)) <$> ([lit "help"; lit "log"; lit "debug"; lit "loginfo"; lit "modlog"; lit "cpu1"; lit "reboot"] !! p).
Definition demo_cli : cli_st := mk_cli true (table (seq 0 7)) 7.
Definition demo (line : list Z) : st unit :=
  mk_st (Some demo_cli) 0 0 (replicate MAX_ARGS None) (line ++ replicate 40 0) (Some (replicate 200 0)) [] [] 1 tt.
Definition demo_exec (f argc base : nat) : M (st unit) unit := ret tt.
Lemma demo_cli_wf : cli_wf demo_objs demo_cli (seq 0 7).
Proof.
  split; [done|done|vm_compute; lia|by apply NoDup_seq|]. cbn [seq]. repeat (apply Forall_cons; split; [by eexists _, _, _|]). constructor.
Qed.
Lemma demo_room line n : (n < 200)%nat → out_room n (demo line).
Proof. intros L o E. injection E as <-. exact L. Qed.

Definition demo_line : list Z := lit "log 1, 2".
Lemma cli_run_line_witness : cli_wf demo_objs demo_cli (seq 0 7) ∧
  line_ok demo_objs demo_exec (demo demo_line) (seq 0 7) 8 demo_line (handle_shell_input demo_objs demo_exec 8 (demo demo_line)).
Proof.
  split; [apply demo_cli_wf|]. apply (cli_run_line demo_objs demo_exec (demo demo_line) demo_cli (seq 0 7) demo_line (replicate 39 0) 8);
    [reflexivity|apply demo_cli_wf|reflexivity|refine (bool_decide_unpack _ _); vm_compute; exact I|discriminate|vm_compute; discriminate|apply demo_room; vm_compute; lia].
Defined.

(** What the code makes of some lines: the functions that are called and their
    arguments; the first field is the result. *)
Definition demo_run (line : list Z) : option (Z * list (nat * list (list Z))) :=
  match handle_shell_input demo_objs demo_exec (Z.of_nat (length line)) (demo line) with Done (r, s) => Some (r, calls s) | Trap _ => None end.
Example run_comma : demo_run demo_line = Some (0, [(1%nat, [lit "log"; lit "1"; lit "2"])]).
Proof. vm_compute. reflexivity. Qed.
(** A comma at the end is not refused, since the terminator is not among the bytes. *)
Example run_comma_end : demo_run (lit "log 1,") = Some (0, [(1%nat, [lit "log"; lit "1"])]).
Proof. vm_compute. reflexivity. Qed.
Example run_equals_end : demo_run (lit "log=") = Some (0, [(1%nat, [lit "log"])]).
Proof. vm_compute. reflexivity. Qed.
(** Before a dot any command that begins with the word is taken. *)
Example run_dot : demo_run (lit "l.x") = Some (0, [(1%nat, [lit "l.x"])]).
Proof. vm_compute. reflexivity. Qed.
(** Seventeen words write behind the array. *)
Example run_seventeen : demo_run (lit "log 1 2 3 4 5 6 7 8 9 a b c d e f g") = None ∧ demo_run (lit "log 1 2 3 4 5 6 7 8 9 a b c d e f") ≠ None.
Proof. vm_compute. split; [reflexivity|discriminate]. Qed.
End CliOps.
