(* ===== verification/CliFwd.v ===== *)
(** * Forwarding a command to the other processor

    [cli_cpu1_command] of Cli.v prints its arguments over the line that it reads them
    from.  While the text written stays behind the argument being read, the line that is
    sent is the one that a fresh buffer would give, and the tokenizer of the other
    processor gets the arguments back when they can be sent as they are; with many
    quotation marks the text overtakes the argument, and a comma outside of quotation
    marks splits one. *)
From stdpp Require Import functions.
From Stdlib Require String.
Import String.StringSyntax.
From S2P Require Import Prelude Bytes Cli CliLex CliOps.
Import Cli CliLex CliOps.
Local Open Scope Z_scope.

Module CliFwd.

(** What an argument is sent as. *)
Definition esc (c : Z) : list Z := if c =? QUOTE then [BACKSLASH; c] else [c].
Definition fwd (a : list Z) : list Z :=
  if bool_decide (SPACE ∈ a) then QUOTE :: (a ≫= esc) ++ [QUOTE] else a ++ [SPACE].
Definition fwd_line (args : list (list Z)) : list Z := args ≫= fwd.

Lemma length_esc a : (length a ≤ length (a ≫= esc))%nat.
Proof. induction a as [|c a IH]; cbn; [done|]. rewrite length_app. unfold esc at 1. destruct (_ =? _); cbn; lia. Qed.

#[local] Ltac app_eq := repeat (cbn [app]; rewrite <-?app_assoc); cbn [app]; done.

(** A byte that is read and written over: the gap moves on. *)
Lemma shift_gap (gap : list Z) c : ∃ y gap1, gap ++ [c] = y :: gap1 ∧ length gap1 = length gap.
Proof. destruct gap as [|y gap]; cbn; [by exists c, []|]. exists y, (gap ++ [c]). split; [done|]. rewrite length_app. cbn. lia. Qed.

Section Fwd.
Context {W : Type}.
Implicit Types s : st W.
Definition with_buf (b : list Z) s : st W := s_args (argv s) b s.

Lemma with_buf_twice b b' s : with_buf b (with_buf b' s) = with_buf b s.
Proof. done. Qed.
Lemma put_byte_run s p n b l y r : inbuf s = l ++ y :: r → length l = (p + n)%nat → put_byte p n b s = Done (S n, with_buf (l ++ b :: r) s).
Proof.
  intros E L. unfold put_byte. rewrite E, <-L, (proj2 (Nat.ltb_lt _ _)) by (rewrite length_app; cbn; lia).
  by rewrite insert_app_r_alt, Nat.sub_diag by done.
Qed.
Lemma byte_at_run s q b l r : inbuf s = l ++ b :: r → length l = q → byte_at q s = Done (b, s).
Proof. intros E L. unfold byte_at. by rewrite E, <-L, list_lookup_middle. Qed.

(** The text so far, a gap, the rest of the argument, and what follows. *)
Lemma put_quoted_run a : ∀ s p q n txt gap r, inbuf s = txt ++ gap ++ a ++ r → length txt = (p + n)%nat → q = length (txt ++ gap) →
  (length (a ≫= esc) ≤ length gap + length a)%nat →
  ∃ gap', put_quoted (length a) p q n s = Done ((n + length (a ≫= esc))%nat, with_buf ((txt ++ (a ≫= esc)) ++ gap' ++ r) s) ∧
    (length gap' + length (a ≫= esc) = length gap + length a)%nat.
Proof.
  induction a as [|c a IH]; intros s p q n txt gap r E Lt Lq Lf; cbn [mbind list_bind length put_quoted].
  - exists gap. cbn [app length] in *. rewrite Nat.add_0_r, app_nil_r. split; [|lia]. unfold ret, with_buf. rewrite <-E. by destruct s.
  - cbn [mbind list_bind] in Lf. rewrite length_app in Lf. cbn [length] in Lf. pose proof (length_esc a) as La.
    rewrite (bind_done _ _ _ _ _ (byte_at_run s q c (txt ++ gap) (a ++ r) ltac:(by rewrite E, <-app_assoc) (eq_sym Lq))).
    unfold esc at 1 3 5. unfold esc at 1 in Lf. destruct (Z.eqb_spec c QUOTE) as [Eq|_].
    + destruct gap as [|y gap]; [cbn in Lf; lia|]. cbn [app length] in *.
      rewrite (bind_done _ _ _ _ _ (put_byte_run s p n BACKSLASH txt y _ E Lt)).
      set (s1 := with_buf (txt ++ BACKSLASH :: gap ++ c :: a ++ r) s). rewrite length_app in Lq. cbn in Lq.
      rewrite (bind_done _ _ _ _ _ (byte_at_run s1 q c (txt ++ BACKSLASH :: gap) (a ++ r) ltac:(by cbn; rewrite <-app_assoc) ltac:(rewrite length_app; cbn; lia))).
      destruct (shift_gap gap c) as (y' & gap1 & G & Lg).
      assert (E1 : inbuf s1 = (txt ++ [BACKSLASH]) ++ y' :: gap1 ++ a ++ r).
      { cbn. change (y' :: gap1 ++ a ++ r) with ((y' :: gap1) ++ a ++ r). rewrite <-G. by rewrite <-!app_assoc. }
      rewrite (bind_done _ _ _ _ _ (put_byte_run s1 p (S n) c (txt ++ [BACKSLASH]) y' _ E1 ltac:(rewrite length_app; cbn; lia))).
      destruct (IH (with_buf ((txt ++ [BACKSLASH]) ++ c :: gap1 ++ a ++ r) s1) p (S q) (S (S n)) (txt ++ [BACKSLASH; c]) gap1 r) as (gap' & Ep & Lp).
      * cbn. by rewrite <-!app_assoc.
      * rewrite length_app. cbn. lia.
      * rewrite !length_app. cbn. lia.
      * lia.
      * exists gap'. rewrite Ep. cbn [length app]. split; [|lia].
        replace (n + S (S (length (a ≫= esc))))%nat with (S (S n) + length (a ≫= esc))%nat by lia. unfold with_buf, s1. cbn. by rewrite <-!app_assoc.
    + destruct (shift_gap gap c) as (y' & gap1 & G & Lg).
      assert (E1 : inbuf s = txt ++ y' :: gap1 ++ a ++ r).
      { rewrite E. change (y' :: gap1 ++ a ++ r) with ((y' :: gap1) ++ a ++ r). rewrite <-G. by rewrite <-!app_assoc. }
      rewrite (bind_done (ret n) _ s n s), (bind_done _ _ _ _ _ (byte_at_run s q c (txt ++ gap) (a ++ r) ltac:(by rewrite E, <-app_assoc) (eq_sym Lq))) by done.
      rewrite (bind_done _ _ _ _ _ (put_byte_run s p n c txt y' _ E1 Lt)).
      destruct (IH (with_buf (txt ++ c :: gap1 ++ a ++ r) s) p (S q) (S n) (txt ++ [c]) gap1 r) as (gap' & Ep & Lp).
      * cbn. by rewrite <-!app_assoc.
      * rewrite length_app. cbn. lia.
      * rewrite Lq, !length_app. cbn. lia.
      * cbn [length] in Lf. lia.
      * exists gap'. rewrite Ep. cbn [length app]. split; [|lia].
        replace (n + S (length (a ≫= esc)))%nat with (S n + length (a ≫= esc))%nat by lia. unfold with_buf. cbn. by rewrite <-!app_assoc.
Qed.

Definition forward_one (p q n : nat) (a : list Z) : M (st W) nat :=
  if bool_decide (SPACE ∈ a) then
    let* n := put_byte p n QUOTE in let* n := put_quoted (length a) p q n in put_byte p n QUOTE
  else move_bytes (p + n) q (length a) ;;; put_byte p (n + length a) SPACE.
Lemma forward_one_run a s p q n txt gap r : inbuf s = txt ++ gap ++ a ++ 0 :: r → length txt = (p + n)%nat → q = length (txt ++ gap) →
  (length (fwd a) ≤ length gap + length a + 1)%nat →
  ∃ gap', forward_one p q n a s = Done ((n + length (fwd a))%nat, with_buf ((txt ++ fwd a) ++ gap' ++ r) s) ∧
    (length gap' + length (fwd a) = length gap + length a + 1)%nat.
Proof.
  intros E Lt Lq Lf. unfold forward_one, fwd in *. case_bool_decide.
  - cbn [length] in Lf. rewrite length_app in Lf. cbn [length] in Lf. pose proof (length_esc a). destruct gap as [|y gap]; [cbn in Lf; lia|].
    cbn [length app] in *. rewrite (bind_done _ _ _ _ _ (put_byte_run s p n QUOTE txt y _ E Lt)).
    destruct (put_quoted_run a (with_buf (txt ++ QUOTE :: gap ++ a ++ 0 :: r) s) p q (S n) (txt ++ [QUOTE]) gap (0 :: r)) as (gap' & Ep & Lp).
    { cbn. by rewrite <-app_assoc. }
    { rewrite length_app. cbn. lia. }
    { rewrite Lq, !length_app. cbn. lia. }
    { lia. }
    rewrite (bind_done _ _ _ _ _ Ep). destruct (shift_gap gap' 0) as (y' & gap1 & G & Lg). exists gap1.
    erewrite put_byte_run; cycle 1.
    + cbn. change (0 :: r) with ([0] ++ r). rewrite (app_assoc gap'), G. reflexivity.
    + rewrite !length_app. cbn. lia.
    + rewrite length_app. cbn [length]. split; [|lia]. replace (n + S (length (a ≫= esc) + 1))%nat with (S (S n + length (a ≫= esc)))%nat by lia.
      rewrite !with_buf_twice. app_eq.
  - rewrite length_app in *. cbn [length] in *. assert (Eb : inbuf s = (txt ++ gap) ++ a ++ 0 :: r) by by rewrite E, <-app_assoc.
    set (g2 := drop (length a) (gap ++ a)). assert (Lg : length g2 = length gap) by (unfold g2; rewrite length_drop, length_app; lia).
    assert (Ew : write_at (inbuf s) (p + n) (sub (inbuf s) q (length a)) = (txt ++ a) ++ g2 ++ 0 :: r).
    { unfold sub. rewrite Eb, drop_app_length' by (rewrite length_app; lia). rewrite take_app_length. unfold write_at. rewrite <-Lt, <-!app_assoc, take_app_length. do 2 f_equal.
      rewrite drop_app_add, (app_assoc gap), drop_app_le by (rewrite length_app; lia). done. }
    rewrite (bind_done (move_bytes _ _ _) _ s tt (with_buf ((txt ++ a) ++ g2 ++ 0 :: r) s)).
    2: { unfold move_bytes, with_buf. rewrite Ew. rewrite !(proj2 (Nat.leb_le _ _)); [done|rewrite E, !length_app; cbn; lia..]. }
    destruct (shift_gap g2 0) as (y' & gap1 & G & Lg1). exists gap1. erewrite put_byte_run; cycle 1.
    + cbn. change (0 :: r) with ([0] ++ r). rewrite (app_assoc g2), G. reflexivity.
    + rewrite length_app. lia.
    + split; [|lia]. replace (n + (length a + 1))%nat with (S (n + length a)) by lia. rewrite !with_buf_twice. app_eq.
Qed.

(** The arguments lie behind one another, from [off] on. *)
Fixpoint laid (av : list (option nat)) (k off : nat) (r : list Z) (args : list (list Z)) : Prop :=
  match args with
  | [] => True
  | a :: args => ∃ g r' q, r = g ++ a ++ 0 :: r' ∧ av !! k = Some (Some q) ∧ q = (off + length g)%nat ∧ no_zero a ∧ laid av (S k) (q + length a + 1) r' args
  end.
(** No text reaches behind the argument that it is made from; [n] bytes are written. *)
Fixpoint fits (av : list (option nat)) (k p n : nat) (args : list (list Z)) : Prop :=
  match args with
  | [] => True
  | a :: args => (∃ q, av !! k = Some (Some q) ∧ (p + n + length (fwd a) ≤ q + length a + 1)%nat) ∧ fits av (S k) p (n + length (fwd a)) args
  end.

Lemma forward_args_run base args : ∀ i s p n txt gap r, inbuf s = txt ++ gap ++ r → length txt = (p + n)%nat →
  laid (argv s) (base + i) (length (txt ++ gap)) r args → fits (argv s) (base + i) p n args →
  ∃ x, forward_args (length args) i n p base s = Done ((n + length (fwd_line args))%nat, with_buf ((txt ++ fwd_line args) ++ x) s) ∧
    (length (fwd_line args) + length x = length gap + length r)%nat.
Proof.
  induction args as [|a args IH]; intros i s p n txt gap r E Lt La Lf; cbn [length forward_args fwd_line mbind list_bind].
  - exists (gap ++ r). rewrite app_nil_r, Nat.add_0_r. split; [|rewrite length_app; cbn; lia]. unfold ret, with_buf. rewrite <-E. by destruct s.
  - cbn [laid fits] in La, Lf. destruct La as (g & r' & q & -> & Eq & Lq & Za & La). destruct Lf as [(q' & Eq' & Lfa) Lf].
    rewrite Eq in Eq'. injection Eq' as <-.
    assert (Ea : arg_pos (base + i) s = Done (q, s)) by (unfold arg_pos; rewrite (bind_done (gets argv) _ s (argv s) s), Eq by done; done).
    rewrite (bind_done _ _ _ _ _ Ea).
    assert (E' : inbuf s = txt ++ (gap ++ g) ++ a ++ 0 :: r') by by rewrite E, <-!app_assoc.
    assert (Lq' : q = length (txt ++ gap ++ g)) by (rewrite Lq, !length_app; lia).
    assert (Ec : c_string q s = Done (a, s)).
    { apply (c_string_run q a r' s Za). rewrite E', app_assoc. by apply drop_app_length'. }
    rewrite (bind_done _ _ _ _ _ Ec).
    destruct (forward_one_run a s p q n txt (gap ++ g) r' E' Lt Lq') as (gap' & Eo & Lo).
    { rewrite !length_app in *. lia. }
    change (if bool_decide (SPACE ∈ a) then _ else _) with (forward_one p q n a). rewrite (bind_done _ _ _ _ _ Eo).
    destruct (IH (S i) (with_buf ((txt ++ fwd a) ++ gap' ++ r') s) p (n + length (fwd a))%nat (txt ++ fwd a) gap' r') as (x & Ex & Lx).
    + done.
    + rewrite length_app. lia.
    + rewrite Nat.add_succ_r. cbn [argv with_buf s_args]. replace (length ((txt ++ fwd a) ++ gap')) with (q + length a + 1)%nat; [done|].
      rewrite Lq'. rewrite !length_app in *. lia.
    + by rewrite Nat.add_succ_r.
    + exists x. rewrite Ex, length_app. unfold fwd_line in *. split; [|rewrite !length_app in *; cbn; lia].
      rewrite Nat.add_assoc, with_buf_twice. app_eq.
Qed.

(** The line that is sent. *)
Lemma cpu1_run base s p args : argv s !! base = Some (Some p) → (p ≤ length (inbuf s))%nat → laid (argv s) (base + 1) p (drop p (inbuf s)) args →
  fits (argv s) (base + 1) p 0 args → (p + length (fwd_line args) + 2 ≤ length (inbuf s))%nat →
  ∃ b, cli_cpu1_command (S (length args)) base s = Done (tt, s_fwd (forwarded s ++ [fwd_line args ++ crlf]) (with_buf b s)).
Proof.
  intros Ep Lp La Lf Lr. unfold cli_cpu1_command.
  assert (Ea : arg_pos base s = Done (p, s)) by (unfold arg_pos; rewrite (bind_done (gets argv) _ s (argv s) s), Ep by done; done).
  rewrite (bind_done _ _ _ _ _ Ea). cbn [Nat.sub]. rewrite Nat.sub_0_r.
  assert (Lt : length (take p (inbuf s)) = p) by (rewrite length_take; lia).
  destruct (forward_args_run base args 1 s p 0 (take p (inbuf s)) [] (drop p (inbuf s))) as (x & Ex & Lx).
  - symmetry. apply take_drop.
  - lia.
  - by rewrite app_nil_r, Lt.
  - done.
  - rewrite (bind_done _ _ _ _ _ Ex). cbn [Nat.add]. rewrite length_drop in Lx. cbn [length] in Lx.
    destruct x as [|y1 [|y2 x]]; [cbn in Lx; lia..|]. set (t := take p (inbuf s)) in *. set (f := fwd_line args) in *.
    rewrite (bind_done _ _ _ _ _ (put_byte_run (with_buf ((t ++ f) ++ y1 :: y2 :: x) s) p (length f) 13 (t ++ f) y1 (y2 :: x) eq_refl ltac:(rewrite length_app; lia))).
    assert (E1 : inbuf (with_buf ((t ++ f) ++ 13 :: y2 :: x) (with_buf ((t ++ f) ++ y1 :: y2 :: x) s)) = ((t ++ f) ++ [13]) ++ y2 :: x) by (cbn; by rewrite <-!app_assoc).
    rewrite (bind_done _ _ _ _ _ (put_byte_run _ p (S (length f)) 10 ((t ++ f) ++ [13]) y2 x E1 ltac:(rewrite !length_app; cbn; lia))).
    eexists. unfold modify. do 2 f_equal. cbn [forwarded with_buf s_args inbuf]. unfold s_fwd, with_buf. cbn. f_equal. f_equal.
    unfold sub. rewrite <-!app_assoc, drop_app_length' by done. cbn [app]. unfold crlf.
    change (13 :: 10 :: x) with ([13; 10] ++ x). rewrite app_assoc, take_app_length' by (rewrite length_app; cbn; lia). done.
Qed.
End Fwd.

(** ** What the tokenizer left is laid out *)
Lemma args_laid all n av buf : args_at all n av buf → ∀ k off args, drop k all = args → (off ≤ length buf)%nat →
  (∀ q, av !! k = Some (Some q) → (off ≤ q)%nat) → laid av k off (drop off buf) args.
Proof.
  intros Aa k off args. revert k off. induction args as [|a args IH]; intros k off Ek Lo Hq; cbn [laid]; [done|].
  assert (Ea : all !! k = Some a) by (rewrite <-(Nat.add_0_r k), <-lookup_drop, Ek; done).
  destruct (aa_args _ _ _ _ Aa k a Ea) as [Za (q & r & Eq & D)]. specialize (Hq q Eq).
  assert (Lq : (q + length a < length buf)%nat) by (apply (f_equal length) in D; rewrite length_drop, length_app in D; cbn in D; lia).
  exists (take (q - off) (drop off buf)), r, q. split_and!; [|done| |done|].
  - rewrite <-D. rewrite <-(take_drop (q - off) (drop off buf)) at 1. by rewrite drop_drop, (Nat.add_comm off), Nat.sub_add.
  - rewrite length_take, length_drop. lia.
  - assert (Er : r = drop (q + length a + 1) buf).
    { rewrite <-Nat.add_assoc, <-drop_drop, D. change (a ++ 0 :: r) with (a ++ [0] ++ r). rewrite app_assoc. by rewrite drop_app_length' by (rewrite length_app; cbn; lia). }
    rewrite Er. apply IH; [|lia|].
    + change (S k) with (1 + k)%nat. by rewrite Nat.add_comm, <-drop_drop, Ek.
    + intros q' Eq'. pose proof (aa_order _ _ _ _ Aa k a q q' Ea Eq Eq'). lia.
Qed.

(** ** What the other processor makes of the line *)
(** An argument that may be forwarded: one with spaces must have no backslash; one
    without must not be empty, begin with "=", end in a backslash, or have a quotation
    mark or a comma. *)
Definition sendable (a : list Z) : Prop :=
  if bool_decide (SPACE ∈ a) then no_zero a ∧ BACKSLASH ∉ a
  else a ≠ [] ∧ head a ≠ Some EQUALS ∧ Forall (λ c, c ≠ 0 ∧ c ≠ QUOTE ∧ c ≠ COMMA) a ∧ last a ≠ Some BACKSLASH.
#[export] Instance sendable_dec a : Decision (sendable a).
Proof. unfold sendable, no_zero. destruct (bool_decide _); apply _. Defined.

Lemma trun_esc b : ∀ cl a l e n, no_zero b → BACKSLASH ∉ b → last a ≠ Some BACKSLASH → (1 ≤ length cl)%nat →
  ∃ n', trun (b ≫= esc) (mk_tok cl (Some a) true l e n) = TOk (mk_tok cl (Some (a ++ b)) true l e n').
Proof.
  induction b as [|c b IH]; intros cl a l e n Zb Nb La Lc; cbn [mbind list_bind].
  - exists n. by rewrite app_nil_r.
  - apply Forall_cons in Zb as [Nc Zb]. assert (Ncb : c ≠ BACKSLASH) by set_solver. rewrite trun_app.
    assert (X : ∃ n1, trun (esc c) (mk_tok cl (Some a) true l e n) = TOk (mk_tok cl (Some (a ++ [c])) true l e n1)).
    { destruct (decide (c = SPACE)) as [->|Ns].
      - exists n. cbn [esc trun]. change (esc SPACE) with [SPACE]. cbn [trun]. unfold tstep. change (SPACE =? QUOTE) with false. change (SPACE =? SPACE) with true.
        cbv iota. unfold ends_backslash. cbn [open quoted]. by rewrite bool_decide_false.
      - replace (esc c) with (escape c).
        + apply (trun_escape c (mk_tok cl (Some a) true l e n) a Nc eq_refl eq_refl). unfold count, tokens; cbn; rewrite length_app; cbn; lia.
        + unfold escape, esc. by rewrite (proj2 (Z.eqb_neq c SPACE) Ns), orb_false_r. }
    destruct X as [n1 ->]. destruct (IH cl (a ++ [c]) l e n1 Zb) as [n2 E]; [set_solver|rewrite last_snoc; congruence|done|].
    exists n2. by rewrite <-app_assoc in E.
Qed.
Lemma trun_text b : ∀ cl a l e n, Forall (λ c, c ≠ 0 ∧ c ≠ QUOTE ∧ c ≠ COMMA) b → SPACE ∉ b → (1 ≤ length cl)%nat →
  trun b (mk_tok cl (Some a) false l e n) = TOk (mk_tok cl (Some (a ++ b)) false l e n).
Proof.
  induction b as [|c b IH]; intros cl a l e n F Ns Lc; cbn [trun]; [by rewrite app_nil_r|]. apply Forall_cons in F as [(N0 & N1 & N2) F].
  assert (Et : tstep c (mk_tok cl (Some a) false l e n) = TOk (mk_tok cl (Some (a ++ [c])) false l e n)).
  { unfold tstep. rewrite (proj2 (Z.eqb_neq c QUOTE)), (proj2 (Z.eqb_neq c SPACE)), (proj2 (Z.eqb_neq c COMMA)) by (done || set_solver).
    assert (C : (2 ≤ count (mk_tok cl (Some a) false l e n))%nat) by (unfold count, tokens; cbn; rewrite length_app; cbn; lia).
    rewrite (proj2 (Nat.eqb_neq _ 1)), (proj2 (Nat.eqb_neq _ 0)) by lia. by destruct (c =? EQUALS). }
  rewrite Et, IH by (done || set_solver). by rewrite <-app_assoc.
Qed.
Lemma space_closes t a : open t = Some a → quoted t = false → last a ≠ Some BACKSLASH → tstep SPACE t = TOk (close t).
Proof.
  intros E Q L. unfold tstep, ends_backslash. change (SPACE =? QUOTE) with false. change (SPACE =? SPACE) with true. cbv iota.
  by rewrite E, Q, bool_decide_false.
Qed.

Lemma trun_fwd a cl n : sendable a → (1 ≤ length cl < MAX_ARGS)%nat →
  ∃ n', trun (fwd a) (mk_tok cl None false false 0 n) = TOk (mk_tok (cl ++ [a]) None false false 0 n').
Proof.
  intros Sa Lc. assert (C : ∀ b, count (mk_tok cl None b false 0 n) = length cl) by (intros b; unfold count, tokens; cbn; by rewrite app_nil_r).
  unfold sendable, fwd in *. case_bool_decide as Sp.
  - destruct Sa as [Za Nb]. cbn [trun]. unfold tstep at 1. change (QUOTE =? QUOTE) with true. cbv iota. unfold ends_backslash at 1. cbn [open quoted].
    unfold start, o_quote. cbn [closed open quoted lim eq dropped]. rewrite C, (proj2 (Nat.ltb_lt _ _)) by lia. unfold o_open. cbn [closed quoted lim eq dropped].
    rewrite trun_app. destruct (trun_esc a cl [] false 0 n Za Nb) as [n1 ->]; [done|lia|]. cbn [app]. exists n1. cbn [trun]. unfold tstep.
    change (QUOTE =? QUOTE) with true. cbv iota. unfold ends_backslash. cbn [open quoted]. rewrite bool_decide_false; [done|].
    intros L. apply last_Some in L as [a' ->]. set_solver.
  - destruct Sa as (Na & Ne & F & La). destruct a as [|c a]; [done|]. apply Forall_cons in F as [(N0 & N1 & N2) F]. assert (N3 : c ≠ EQUALS) by (intros ->; done).
    exists n. rewrite trun_app.
    assert (Et : tstep c (mk_tok cl None false false 0 n) = TOk (mk_tok cl (Some [c]) false false 0 n)).
    { unfold tstep. rewrite (proj2 (Z.eqb_neq c QUOTE)), (proj2 (Z.eqb_neq c SPACE)), (proj2 (Z.eqb_neq c COMMA)), (proj2 (Z.eqb_neq c EQUALS)) by (done || set_solver).
      cbn [open]. unfold start. by rewrite C, (proj2 (Nat.ltb_lt _ _)) by lia. }
    cbn [trun]. rewrite Et, trun_text by (done || set_solver || lia). cbn [trun app].
    by rewrite (space_closes _ (c :: a)).
Qed.
Lemma trun_fwds args : ∀ cl n, Forall sendable args → (1 ≤ length cl)%nat → (length cl + length args ≤ MAX_ARGS)%nat →
  ∃ n', trun (fwd_line args) (mk_tok cl None false false 0 n) = TOk (mk_tok (cl ++ args) None false false 0 n').
Proof.
  induction args as [|a args IH]; intros cl n F L1 L2; cbn [fwd_line mbind list_bind].
  - exists n. by rewrite app_nil_r.
  - apply Forall_cons in F as [Sa F]. cbn [length] in L2. rewrite trun_app. destruct (trun_fwd a cl n Sa ltac:(lia)) as [n1 ->].
    destruct (IH (cl ++ [a]) n1 F) as [n2 E]; [rewrite length_app; cbn; lia..|]. exists n2. by rewrite <-app_assoc in E.
Qed.

(** The command and its arguments come out again, whether or not the terminator is read. *)
Lemma parse_fwd size cmd args : printable_cmd cmd → Forall sendable args → (length args < MAX_ARGS)%nat →
  parse size (fwd_line (cmd :: args)) = Args (cmd :: args).
Proof.
  intros Pc F L. pose proof Pc as (Nc & Fc & Lc). unfold parse, fwd_line. cbn [mbind list_bind].
  assert (Ns : SPACE ∉ cmd) by (intros I; by apply (proj1 (Forall_forall _ _) Fc) in I as (_ & _ & ? & _)).
  unfold fwd at 1. rewrite bool_decide_false, <-app_assoc, trun_app, (trun_cmd cmd Pc) by done. cbn [app trun]. rewrite (space_closes _ cmd) by done.
  destruct (trun_fwds args [cmd] 0 F) as [n E]; [done|cbn; lia|]. unfold fwd_line in E. unfold close. cbn [open closed quoted lim eq dropped tokens app opened].
  unfold tokens. cbn [open closed app opened]. rewrite E. cbn [quoted]. unfold bad_end, count, tokens. cbn. by rewrite andb_false_r, app_nil_r.
Qed.

(** C33: Forwarding a command.  A command that was called with the arguments of a line
    sends one line, [fwd_line] of the arguments but the first, written in place over
    them, when no text reaches behind the argument that it is made from ([fits], and
    room in the buffer).  The tokenizer of the other processor makes of that line the
    same command and arguments when the command is a plain word ([printable_cmd]) and
    each argument is [sendable]: one with spaces (it is put in quotation marks) must
    have no backslash; one without (it is sent as it is) must not be empty, begin with
    an equals sign, end in a backslash or have a quotation mark or a comma.  Others may arrive changed: see [comma_splits]. *)
Theorem cli_forward_ok {W} (s : st W) cmd0 cmd args p : argv s !! 0%nat = Some (Some p) →
  args_at (cmd0 :: cmd :: args) (S (S (length args))) (argv s) (inbuf s) →
  fits (argv s) 1 p 0 (cmd :: args) → (p + length (fwd_line (cmd :: args)) + 2 ≤ length (inbuf s))%nat →
  (∃ b, cli_cpu1_command (S (S (length args))) 0 s =
     Done (tt, s_fwd (forwarded s ++ [fwd_line (cmd :: args) ++ crlf]) (s_args (argv s) b s))) ∧
  (printable_cmd cmd → Forall sendable args → ∀ size, parse size (fwd_line (cmd :: args)) = Args (cmd :: args)).
Proof.
  intros Ep Aa Ft Lr. assert (Lp : (p ≤ length (inbuf s))%nat) by lia. split.
  - destruct (cpu1_run 0 s p (cmd :: args) Ep Lp) as [b E]; [|done|done|by exists b].
    apply (args_laid _ _ _ _ Aa); [done|done|]. intros q Eq. pose proof (aa_order _ _ _ _ Aa 0%nat cmd0 p q eq_refl Ep Eq). lia.
  - intros Pc Fs size. apply parse_fwd; [done|done|].
    destruct (aa_count _ _ _ _ Aa) as [_ La]. destruct (lookup_lt_is_Some_2 (cmd0 :: cmd :: args) (S (length args))) as [x Hx]; [cbn; lia|].
    destruct (aa_args _ _ _ _ Aa _ x Hx) as [_ (q & r & Eq & _)]. apply lookup_lt_Some in Eq. lia.
Qed.

(** Words without spaces always fit. *)
Lemma fits_words all n av buf p : args_at all n av buf → ∀ k m args, drop k all = args → Forall (λ a, SPACE ∉ a) args →
  (∀ q, av !! k = Some (Some q) → (p + m ≤ q)%nat) → fits av k p m args.
Proof.
  intros Aa k m args. revert k m. induction args as [|a args IH]; intros k m Ek F Hq; cbn [fits]; [done|].
  apply Forall_cons in F as [Na F]. assert (Ea : all !! k = Some a) by (rewrite <-(Nat.add_0_r k), <-lookup_drop, Ek; done).
  destruct (aa_args _ _ _ _ Aa k a Ea) as [_ (q & r & Eq & D)]. specialize (Hq q Eq).
  assert (Lf : length (fwd a) = (length a + 1)%nat) by (unfold fwd; rewrite bool_decide_false, length_app by done; done).
  split; [exists q; split; [done|lia]|]. apply IH; [|done|].
  - change (S k) with (1 + k)%nat. by rewrite Nat.add_comm, <-drop_drop, Ek.
  - intros q' Eq'. pose proof (aa_order _ _ _ _ Aa k a q q' Ea Eq Eq'). lia.
Qed.

(** ** Instances *)
(** The state in which the function of a command is called. *)
Definition demo_lexed (line : list Z) : st unit :=
  match tokenize (Z.of_nat (length line)) (demo line) with Done (_, s) => s | Trap _ => demo line end.
Lemma demo_lexed_args line args : no_zero line → line ≠ [] → parse (Z.of_nat (length line)) line = Args args →
  args_at args (length args) (argv (demo_lexed line)) (inbuf (demo_lexed line)).
Proof.
  intros Zl N E. unfold demo_lexed. pose proof (tokenize_run (demo line) line (replicate 39 0) (Z.of_nat (length line)) eq_refl Zl N ltac:(lia)) as T.
  rewrite E in T. destruct T as (x & -> & _ & Aa & _). destruct (aa_count _ _ _ _ Aa) as [Ea _]. rewrite Ea in Aa. exact Aa.
Qed.

(** A line with a quotation mark in its middle: the arguments are log, a and the text
    in the last line. *)
Definition fwd_demo : list Z := print_line (lit "cpu1") [lit "log"; [97; SPACE; QUOTE; 98]; lit "2"].
Definition fwd_args : list (list Z) := [[97; SPACE; QUOTE; 98]; lit "2"].
Lemma cli_forward_ok_witness : fits (argv (demo_lexed fwd_demo)) 1 0 0 (lit "log" :: fwd_args) ∧
  (∃ b, cli_cpu1_command 4 0 (demo_lexed fwd_demo) =
     Done (tt, s_fwd (forwarded (demo_lexed fwd_demo) ++ [fwd_line (lit "log" :: fwd_args) ++ crlf]) (s_args (argv (demo_lexed fwd_demo)) b (demo_lexed fwd_demo)))) ∧
  ∀ size, parse size (fwd_line (lit "log" :: fwd_args)) = Args (lit "log" :: fwd_args).
Proof.
  assert (Ft : fits (argv (demo_lexed fwd_demo)) 1 0 0 (lit "log" :: fwd_args)).
  { cbn [fits fwd_args]. split_and!; [eexists; split; [vm_compute; reflexivity|vm_compute; lia]..|exact I]. }
  split; [exact Ft|].
  destruct (cli_forward_ok (demo_lexed fwd_demo) (lit "cpu1") (lit "log") fwd_args 0) as [Run Back];
    [vm_compute; reflexivity|apply (demo_lexed_args fwd_demo (lit "cpu1" :: lit "log" :: fwd_args));
       [refine (bool_decide_unpack _ _); vm_compute; exact I|discriminate|vm_compute; reflexivity]
    |exact Ft|vm_compute; lia|].
  split; [exact Run|]. apply Back; [split_and!; [discriminate|refine (bool_decide_unpack _ _); vm_compute; exact I|discriminate]|refine (bool_decide_unpack _ _); vm_compute; exact I].
Defined.

(** With seven quotation marks in an argument with a space, the text written overtakes
    it, and another argument is sent than the one that was typed. *)
Definition overtaken_arg : list Z := [SPACE] ++ replicate 7 QUOTE ++ lit "xyz".
Definition forwarded_by (line : list Z) : list (list Z) :=
  match cli_cpu1_command 2 0 (demo_lexed line) with Done (_, s) => forwarded s | Trap _ => [] end.
Definition sent_body (line : list Z) : list Z := let l := default [] (head (forwarded_by line)) in take (length l - 2) l.
Example overtaken : let line := print_line (lit "cpu1") [overtaken_arg] in
  parse (Z.of_nat (length line)) line = Args [lit "cpu1"; overtaken_arg] ∧ length (forwarded_by line) = 1%nat ∧
  parse (Z.of_nat (length (sent_body line))) (sent_body line) ≠ Args [overtaken_arg].
Proof. cbv zeta. split_and!; [vm_compute; reflexivity|vm_compute; reflexivity|vm_compute; discriminate]. Qed.
(** An argument with a comma and no space is sent without quotation marks, and arrives
    as two. *)
Example comma_splits : let line := print_line (lit "cpu1") [lit "log"; lit "a,b"] in
  let out := match cli_cpu1_command 3 0 (demo_lexed line) with Done (_, s) => forwarded s | Trap _ => [] end in
  parse (Z.of_nat (length line)) line = Args [lit "cpu1"; lit "log"; lit "a,b"] ∧
  out = [fwd_line [lit "log"; lit "a,b"] ++ crlf] ∧
  parse 8 (fwd_line [lit "log"; lit "a,b"]) = Args [lit "log"; lit "a"; lit "b"].
Proof. cbv zeta. split_and!; vm_compute; reflexivity. Qed.
End CliFwd.
