(* ===== verification/CliShell.v ===== *)
(** * From the keys to the command

    The shell's command task (ShellTask.v) hands the line that was typed to the command
    line interface (Cli.v), whose built-in commands change the settings of the log
    (ShellTask.v, LogFilter.v).  The interface [LogControl] is implemented by these two;
    the theorems follow a line from the received bytes to the call of a function, and
    the command that turns a module's log off to the log. *)
From stdpp Require Import functions.
From Stdlib Require String.
Import String.StringSyntax.
From S2P Require Import Prelude Bytes Ring ShellUart ShellTask ShellOps ShellLog ShellCmd LogFilter Cli CliLex CliOps CliRuns.
Import ShellTask ShellOps ShellLog ShellCmd LogFilter Cli CliLex CliOps CliRuns.
Local Open Scope Z_scope.

Module CliShell.

(** ** The settings of the log *)
#[export] Instance log_control : LogControl pst := {
  Cli.shell_echo_set n := in_shell (ShellTask.shell_echo_set n);
  Cli.shell_echo_get := in_shell ShellTask.shell_echo_get;
  Cli.shell_set_log_level n := in_shell (ShellTask.shell_set_log_level n);
  Cli.shell_get_log_level := in_shell ShellTask.shell_get_log_level;
  Cli.bk_set_printf_sync := LogFilter.bk_set_printf_sync;
  Cli.bk_get_printf_sync := LogFilter.bk_get_printf_sync;
  Cli.shell_get_log_statist n := in_shell (ShellTask.shell_get_log_statist n);
  Cli.bk_disable_mod_printf := LogFilter.bk_disable_mod_printf;
  Cli.bk_get_disable_mod := LogFilter.bk_get_disable_mod }.

(** The functions of the built-in commands, by number; [other] is what the others do.
    The help command only prints. *)
Section Functions.
Context (objs : nat → option cli_command) (debug_table : nat * nat) (other : nat → nat → nat → M (Cli.st pst) unit).
Definition builtin (f argc base : nat) : M (Cli.st pst) unit :=
  match f with
  | 0%nat => ret tt
  | 1%nat => log_setting_cmd argc base
  | 2%nat => cli_debug_command objs other debug_table argc base
  | 3%nat => cli_log_statist argc base
  | 4%nat => cli_log_disable argc base
  | _ => other f argc base
  end.
End Functions.

(** ** Turning the log of a module off and on *)
Lemma modlog_run (s1 : Cli.st pst) (D : gset (list Z)) cmd tag (on : bool) :
  args_at [cmd; tag; lit (if on then "on" else "off")] 3 (argv s1) (inbuf s1) → filt (world s1) D →
  ∃ w, cli_log_disable 3 0 s1 = Done (tt, s_world w s1) ∧ filt w (s_filter tag (if on then 0 else 1) D) ∧ shell_st w = shell_st (world s1).
Proof.
  intros Aa Ft. unfold cli_log_disable. change (3 <? 3)%nat with false. cbv iota.
  rewrite (bind_done _ _ _ _ _ (arg_string_run 2 _ s1 (aa_args _ _ _ _ Aa 2%nat _ eq_refl))).
  assert (En : arg_string (0 + 1) s1 = Done (tag, s1)) by apply (arg_string_run 1 _ s1 (aa_args _ _ _ _ Aa 1%nat _ eq_refl)).
  destruct (disable_run (world s1) D tag (if on then 0 else 1) Ft) as (l & E & Ft').
  exists (p_tags l (world s1)). split; [|by split].
  destruct on; [change (strcmp (lit "on") (lit "on") =? 0) with true|change (strcmp (lit "off") (lit "on") =? 0) with false; change (strcmp (lit "off") (lit "off") =? 0) with true]; cbv iota;
    rewrite (bind_done _ _ _ _ _ En); unfold in_world; cbn [bk_disable_mod_printf log_control]; by rewrite E.
Qed.

(** The line "modlog tag off", and what comes of it. *)
Section Modlog.
Context (objs : nat → option cli_command) (debug_table : nat * nat) (other : nat → nat → nat → M (Cli.st pst) unit).
Context (behind : list Z) (assert_text : Z → Z → list Z).
Theorem modlog_line (k : Cli.st pst) c ps p tag (on : bool) junk n D :
  let line := print_line (lit "modlog") [tag; lit (if on then "on" else "off")] in
  pCli k = Some c → cli_wf objs c ps → find objs (lit "modlog") ps = Some p → (function <$> objs p.2) = Some (Some 4%nat) →
  printable_arg tag → Cli.inbuf k = line ++ 0 :: junk → Z.of_nat (length line) ≤ n → out_room (length line + 18) k → filt (world k) D →
  ∃ k', handle_shell_input objs (builtin objs debug_table other) n k = Done (0, k') ∧ filt (world k') (s_filter tag (if on then 0 else 1) D) ∧
    (on = false → ∀ sched level text, s_filter tag 1 D ≠ D ∨ key tag ∈ D →
      bk_printf_ex behind assert_text sched level tag text (world k') = Done (tt, world k')).
Proof.
  intros line Ec Wf Ef Efn Pt Ei Ls Ro Ft.
  assert (Pc : printable_cmd (lit "modlog")) by (split_and!; [discriminate|refine (bool_decide_unpack _ _); vm_compute; exact I|discriminate]).
  assert (Pa : Forall printable_arg [tag; lit (if on then "on" else "off")]).
  { repeat (apply Forall_cons; split); [done| |constructor]. destruct on; (split; [refine (bool_decide_unpack _ _); vm_compute; exact I|vm_compute; discriminate]). }
  assert (Zl : no_zero line) by by apply print_no_zero.
  pose proof (cli_run_ok objs (builtin objs debug_table other) k c ps line junk n Ec Wf Ei Zl ltac:(done) Ls Ro) as L. unfold line_ok in L.
  unfold line in L. rewrite parse_print in L by (done || vm_compute; lia). rewrite Ef in L. destruct p as [j p].
  destruct L as (o & f & s1 & Eo & Efo & Cd & E). cbn [snd] in Efn. rewrite Eo in Efn. cbn in Efn. rewrite Efo in Efn. injection Efn as ->.
  destruct (cd_rest _ _ _ _ _ Cd) as (_ & _ & _ & Ew). pose proof (cd_args _ _ _ _ _ Cd) as Aa.
  destruct (modlog_run s1 D _ tag on Aa) as (w & Er & Fw & _); [by rewrite Ew|].
  eexists. split; [rewrite E; cbn [builtin length]; rewrite Er; reflexivity|]. cbn [world s_status s_world]. split; [exact Fw|].
  intros -> sched level text Hd. rewrite (printf_ex_run _ _ _ _ _ _ _ _ Fw). unfold shown.
  rewrite (bool_decide_true (key tag ∈ _)); [by rewrite andb_false_r|]. unfold s_filter in *. cbn [Z.eqb] in *. case_bool_decide as Ik; [done|].
  destruct (size D <? MOD_TAGS)%nat; [set_solver|]. naive_solver.
Qed.
End Modlog.

(** ** A typed line *)
Lemma edit_no_zero b line : no_zero line → no_zero (edit line b).
Proof.
  intros Z. unfold edit. destruct (b =? 8); [by apply Forall_take|]. destruct (Z.leb_spec 0x20 b); cbn [andb]; [|done].
  destruct (_ <? _)%nat; [|done]. apply Forall_app_2; [done|]. constructor; [lia|constructor].
Qed.
Lemma edits_no_zero bs : ∀ line, no_zero line → no_zero (foldl edit line bs).
Proof. induction bs as [|b bs IH]; intros line Z; cbn; [done|]. by apply IH, edit_no_zero. Qed.

Section Typed.
Context (behind : list Z) (assert_text : Z → Z → list Z) {W : Type}.
Context (objs : nat → option cli_command) (exec : nat → nat → nat → M (Cli.st W) unit).
#[local] Instance client_shell : ShellClient shell buf := shell_client behind assert_text.

(** [handle_shell_input] as the command task calls it: on its own buffers. *)
Definition on_buffers (k : Cli.st W) (u : cmd_line_t) : Cli.st W :=
  s_args (argv k) (cmd_buff u) (s_out (Some (rsp_buff u)) k).
Definition cli_handle (k : Cli.st W) (buf : list Z) (n : Z) (rsp : list Z) : list Z * list Z :=
  match handle_shell_input objs exec n (s_args (argv k) buf (s_out (Some rsp) k)) with
  | Done (_, k') => (Cli.inbuf k', default [] (outbuf k'))
  | Trap _ => (buf, rsp)
  end.

(** C16: From the keys to the function.  When the command task reads what was typed, up to
    the first carriage return or newline, the line that comes of it (with backspaces
    and control characters taken out) is what the command line interface gets, and for
    every table of commands and every such line that is not empty it does what
    [cli_run_line] says, one of three: the function of the first command that matches
    is called with the line's arguments; or the line is answered that it is not
    well-formed or that there is no such command; or, when it has more than sixteen
    arguments, which the interface does not check, the array of arguments is written
    behind its end.  The response buffer has room for every answer that the interface
    itself gives.  The line is shorter than the command buffer. *)
Theorem shell_runs_line s b bs t c (k : Cli.st W) kc ps : ready s (b :: bs ++ t :: c) → printable b → Forall (λ x, is_eol x = false) bs → is_eol t = true →
  cur_cmd_type (cmd_line_buf (client s)) = CMD_TYPE_INVALID → length (cmd_buff (cmd_line_buf (client s))) = SHELL_CMD_BUF_LEN →
  length (rsp_buff (cmd_line_buf (client s))) = SHELL_RSP_BUF_LEN →
  let line := foldl edit [b] bs in (length line < SHELL_CMD_BUF_LEN)%nat → line ≠ [] → pCli k = Some kc → cli_wf objs kc ps →
  ∃ y s', rx_ind_loop (S (S (length (rx_buff (dev s))))) (mk_rx false false 0) s = Done ((y, true), s') ∧ cmd_rx_done y = true ∧ ready s' c ∧
    let u := cmd_line_buf (client s') in
    cur_cmd_type u = CMD_TYPE_TEXT ∧
    line_ok objs exec (on_buffers k u) ps (cmd_data_len u) line (handle_shell_input objs exec (cmd_data_len u) (on_buffers k u)).
Proof.
  intros Rd Pb Fb Ht Ei Lb Lr line Ll Nl Ek Wf.
  destruct (command_line_run behind s b bs t c Rd Pb Fb Ht Ei Lb Ll) as (y & s' & E & Hy & L). cbv zeta in L. destruct L as (Ty & El & E0 & Rd' & Lr').
  exists y, s'. split_and!; [done..|]. fold line in El, E0. set (u := cmd_line_buf (client s')) in *.
  split; [done|]. assert (Zl : no_zero line) by (apply edits_no_zero; constructor; [destruct Pb; lia|constructor]).
  assert (Eb : cmd_buff u = line ++ 0 :: drop (S (length line)) (cmd_buff u)).
  { assert (Tl : take (length line) (cmd_buff u) = line).
    { rewrite <-El at 2. f_equal. apply (f_equal length) in El. rewrite length_take in El. pose proof (lookup_lt_Some _ _ _ E0). lia. }
    rewrite <-(take_drop_middle _ _ _ E0) at 1. by rewrite Tl. }
  assert (En : Z.of_nat (length line) ≤ cmd_data_len u).
  { assert (length line ≠ 0%nat) by by intros ?%nil_length_inv. apply (f_equal length) in El. rewrite length_take in El. lia. }
  eapply (cli_run_ok objs exec (on_buffers k u) kc ps line); [exact Ek|exact Wf|exact Eb|exact Zl|exact Nl|exact En|].
  intros o Eo. injection Eo as <-. unfold SHELL_CMD_BUF_LEN, SHELL_RSP_BUF_LEN in *. rewrite Lr', Lr. lia.
Qed.
End Typed.

(** ** Instances *)
Definition typed : list Z := lit "og 7" ++ [8; 49].
Lemma shell_runs_line_witness : ready (received (108 :: typed ++ 13 :: [97])) (108 :: typed ++ 13 :: [97]) ∧
  ∃ y s', rx_ind_loop (S (S (length (rx_buff (dev (received (108 :: typed ++ 13 :: [97]))))))) (mk_rx false false 0) (received (108 :: typed ++ 13 :: [97])) = Done ((y, true), s') ∧
    cmd_rx_done y = true ∧ ready s' [97] ∧
    let u := cmd_line_buf (client s') in cur_cmd_type u = CMD_TYPE_TEXT ∧
    line_ok demo_objs demo_exec (on_buffers (demo []) u) (seq 0 7) (cmd_data_len u) (lit "log 1") (handle_shell_input demo_objs demo_exec (cmd_data_len u) (on_buffers (demo []) u)).
Proof.
  assert (R : ready (received (108 :: typed ++ 13 :: [97])) (108 :: typed ++ 13 :: [97])) by (apply received_ready; vm_compute; lia).
  split; [exact R|].
  apply (shell_runs_line [] demo_objs demo_exec (received (108 :: typed ++ 13 :: [97])) 108 typed 13 [97] (demo []) demo_cli (seq 0 7));
    [exact R|split; lia|repeat constructor|reflexivity|vm_compute; reflexivity|vm_compute; reflexivity|vm_compute; reflexivity|vm_compute; lia|discriminate|reflexivity|apply demo_cli_wf].
Defined.
(** The line is a call of the second command. *)
Example typed_is_called : parse 5 (lit "log 1") = Args [lit "log"; lit "1"] ∧ find demo_objs (lit "log") (seq 0 7) = Some (1%nat, 1%nat).
Proof. split; reflexivity. Qed.

(** "log 0 2" through the interface: no echo, level 2, and the answer. *)
Definition log_demo : Cli.st pst := mk_st (Some demo_cli) 0 0 (replicate MAX_ARGS None) (lit "log 0 2" ++ [0]) (Some (replicate 200 0)) [] [] 1 demo_start.
Example log_demo_runs : ∃ k', handle_shell_input demo_objs (builtin demo_objs (0, 0)%nat (λ _ _ _, ret tt)) 7 log_demo = Done (0, k') ∧
  echo_enable (cmd_line_buf (client (shell_st (world k')))) = false ∧ log_level (cmd_line_buf (client (shell_st (world k')))) = 2 ∧
  cstr (default [] (outbuf k')) = lit "log: echo 0, level 2, sync 0." ++ crlf.
Proof. eexists. split; [vm_compute; reflexivity|]. vm_compute. done. Qed.
End CliShell.
