(* ===== verification/DList.v ===== *)
(** * Circular doubly linked lists: components/bk_common/include/bk_list.h

    The list heads and nodes that are built into other objects, as a store from the
    address of a node to its two pointers, with every operation as the writes it
    makes, in order.  [dlist l h xs]: in the store [l] the list of the head [h]
    consists of the nodes [xs], read forward and backward.  The lemmas give the
    effect of every operation on the lists, and that a write reaches no node outside
    of them. *)
From stdpp Require Import functions.
From S2P Require Import Prelude.
Local Open Scope nat_scope.

Module DList.

(** A node, and the nodes at their addresses. *)
Record list_head := mk_head { next : nat; prev : nat }.
Abbreviation links := (gmap nat list_head).

(** ** Operations *)
Definition get_next (n : nat) : M links nat := let* l := gets id in match l !! n with Some x => ret (next x) | None => trapM Fault end.
Definition get_prev (n : nat) : M links nat := let* l := gets id in match l !! n with Some x => ret (prev x) | None => trapM Fault end.
Definition set_next (n v : nat) : M links unit := let* l := gets id in match l !! n with Some x => modify (λ _, <[n := mk_head v (prev x)]> l) | None => trapM Fault end.
Definition set_prev (n v : nat) : M links unit := let* l := gets id in match l !! n with Some x => modify (λ _, <[n := mk_head (next x) v]> l) | None => trapM Fault end.

Definition INIT_LIST_HEAD (p : nat) : M links unit := set_next p p ;;; set_prev p p.
Definition list_insert (new_node prev next : nat) : M links unit :=
  set_prev next new_node ;;; set_next new_node next ;;; set_prev new_node prev ;;; set_next prev new_node.
Definition list_add_head (new_node head : nat) : M links unit := let* n := get_next head in list_insert new_node head n.
Definition list_add_tail (new_node head : nat) : M links unit := let* p := get_prev head in list_insert new_node p head.
Definition list_unlink (prev next : nat) : M links unit := set_prev next prev ;;; set_next prev next.
Definition list_del (entry : nat) : M links unit := let* p := get_prev entry in let* n := get_next entry in list_unlink p n.
Definition list_del_init (entry : nat) : M links unit := list_del entry ;;; INIT_LIST_HEAD entry.
Definition list_move (list head : nat) : M links unit := list_del list ;;; list_add_head list head.
Definition list_move_tail (list head : nat) : M links unit := list_del list ;;; list_add_tail list head.
Definition list_empty (head : nat) : M links bool := let* n := get_next head in ret (n =? head).
Definition list_join (list head : nat) : M links unit :=
  let* first := get_next list in
  let* last := get_prev list in
  let* at_ := get_next head in
  set_prev first head ;;; set_next head first ;;; set_next last at_ ;;; set_prev at_ last.
Definition list_splice (list head : nat) : M links unit :=
  let* e := list_empty list in if negb e then list_join list head else ret tt.
Definition list_splice_init (list head : nat) : M links unit :=
  let* e := list_empty list in if negb e then list_join list head ;;; INIT_LIST_HEAD list else ret tt.

(** [list_for_each_safe]: the successor is read before the body runs, so that the
    body may unlink the node it is at.  The body works on the local variables [A] and
    says whether it breaks off; the store is a part of the state [S]. *)
Section ForEach.
Context {S A : Type} (next_of : nat → M S nat) (body : nat → A → M S (A * bool)).
Fixpoint for_each_loop (fuel pos n head : nat) (acc : A) : M S A :=
  match fuel with
  | O => trapM Hang
  | Datatypes.S fuel' =>
      if pos =? head then ret acc
      else let* r := body pos acc in
           if r.2 then ret r.1 else let* n' := next_of n in for_each_loop fuel' n n' head r.1
  end.
Definition list_for_each_safe (fuel head : nat) (acc : A) : M S A :=
  let* pos := next_of head in let* n := next_of pos in for_each_loop fuel pos n head acc.
End ForEach.
Definition list_size (fuel list : nat) : M links nat :=
  list_for_each_safe get_next (λ _ num_of_list, ret (S num_of_list, false)) fuel list 0.

(** [list_switch]: two variables that point to list heads, given by their
    addresses in a store of such variables, are swapped; the lists are not touched. *)
Definition list_switch (list1 list2 : nat) : M (gmap nat nat) unit :=
  let* ptrs := gets id in
  match ptrs !! list1, ptrs !! list2 with
  | Some temp, Some other => modify (insert list1 other) ;;; modify (insert list2 temp)
  | _, _ => trapM Fault
  end.

(** ** The writes as functions *)
Section Seg.
Implicit Types (l : links) (a b h n p x : nat) (u v w xs ys ns : list nat).

Definition wnext n x l : links := alter (λ c, mk_head x (prev c)) n l.
Definition wprev n x l : links := alter (λ c, mk_head (next c) x) n l.
Definition nx l n : option nat := next <$> l !! n.
Definition pv l n : option nat := prev <$> l !! n.

Lemma nx_wnext l n x m : nx (wnext n x l) m = if decide (n = m) then (λ _, x) <$> l !! m else nx l m.
Proof. unfold nx, wnext. destruct (decide (n = m)) as [->|N]; [rewrite lookup_alter_eq|by rewrite lookup_alter_ne]. by destruct (l !! m). Qed.
Lemma pv_wnext l n x m : pv (wnext n x l) m = pv l m.
Proof. unfold pv, wnext. destruct (decide (n = m)) as [->|N]; [rewrite lookup_alter_eq|by rewrite lookup_alter_ne]. by destruct (l !! m). Qed.
Lemma pv_wprev l n x m : pv (wprev n x l) m = if decide (n = m) then (λ _, x) <$> l !! m else pv l m.
Proof. unfold pv, wprev. destruct (decide (n = m)) as [->|N]; [rewrite lookup_alter_eq|by rewrite lookup_alter_ne]. by destruct (l !! m). Qed.
Lemma nx_wprev l n x m : nx (wprev n x l) m = nx l m.
Proof. unfold nx, wprev. destruct (decide (n = m)) as [->|N]; [rewrite lookup_alter_eq|by rewrite lookup_alter_ne]. by destruct (l !! m). Qed.
Lemma dom_wnext l n x : dom (wnext n x l) = dom l.
Proof. apply dom_alter_L. Qed.
Lemma dom_wprev l n x : dom (wprev n x l) = dom l.
Proof. apply dom_alter_L. Qed.
Lemma set_next_done l n x : n ∈ dom l → set_next n x l = Done (tt, wnext n x l).
Proof.
  intros [c E]%elem_of_dom. unfold set_next, wnext, bind, gets, id. rewrite E. unfold modify. do 2 f_equal.
  apply map_eq. intros m. destruct (decide (n = m)) as [<-|N].
  - by rewrite lookup_insert_eq, lookup_alter_eq, E.
  - by rewrite lookup_insert_ne, lookup_alter_ne by done.
Qed.
Lemma set_prev_done l n x : n ∈ dom l → set_prev n x l = Done (tt, wprev n x l).
Proof.
  intros [c E]%elem_of_dom. unfold set_prev, wprev, bind, gets, id. rewrite E. unfold modify. do 2 f_equal.
  apply map_eq. intros m. destruct (decide (n = m)) as [<-|N].
  - by rewrite lookup_insert_eq, lookup_alter_eq, E.
  - by rewrite lookup_insert_ne, lookup_alter_ne by done.
Qed.
Lemma get_next_done l n x : nx l n = Some x → get_next n l = Done (x, l).
Proof. unfold nx, get_next, bind, gets, id. destruct (l !! n); [|done]. by intros [= <-]. Qed.
Lemma get_prev_done l n x : pv l n = Some x → get_prev n l = Done (x, l).
Proof. unfold pv, get_prev, bind, gets, id. destruct (l !! n); [|done]. by intros [= <-]. Qed.

(** Outside of the nodes [ns] two stores agree; both have the same nodes. *)
Definition same_out ns l l' : Prop := dom l' = dom l ∧ ∀ m, m ∉ ns → l' !! m = l !! m.
#[export] Instance same_out_refl ns : Reflexive (same_out ns).
Proof. done. Qed.
Lemma same_out_trans ns l l' l'' : same_out ns l l' → same_out ns l' l'' → same_out ns l l''.
Proof. intros [D E] [D' E']. split; [congruence|]. intros m Hm. by rewrite E', E. Qed.
Lemma same_out_mono ns ns' l l' : same_out ns l l' → ns ⊆ ns' → same_out ns' l l'.
Proof. intros [D E] S. split; [done|]. auto. Qed.
Lemma same_wnext ns l n x : n ∈ ns → same_out ns l (wnext n x l).
Proof. intros Hn. split; [apply dom_wnext|]. intros m Hm. apply lookup_alter_ne. set_solver. Qed.
Lemma same_wprev ns l n x : n ∈ ns → same_out ns l (wprev n x l).
Proof. intros Hn. split; [apply dom_wprev|]. intros m Hm. apply lookup_alter_ne. set_solver. Qed.

(** ** Reading a list *)
Definition edge l a b : Prop := nx l a = Some b ∧ pv l b = Some a.
Fixpoint seg l ns : Prop :=
  match ns with a :: (b :: _) as r => edge l a b ∧ seg l r | _ => True end.
Definition cyc l ns : Prop := seg l ns ∧ NoDup (removelast ns) ∧ NoDup (tail ns).
Definition dlist l h xs : Prop := cyc l (h :: xs ++ [h]).

Lemma seg_app l u a b v : seg l (u ++ a :: b :: v) ↔ seg l (u ++ [a]) ∧ edge l a b ∧ seg l (b :: v).
Proof.
  induction u as [|c u IH]; [cbn; tauto|]. destruct u as [|d u]; cbn [app] in *; [cbn [seg] in *; tauto|].
  change (edge l c d ∧ seg l (d :: u ++ a :: b :: v) ↔ (edge l c d ∧ seg l (d :: u ++ [a])) ∧ edge l a b ∧ seg l (b :: v)). tauto.
Qed.
Lemma seg_ext l l' ns : seg l ns → (∀ n, n ∈ removelast ns → nx l' n = nx l n) → (∀ n, n ∈ tail ns → pv l' n = pv l n) → seg l' ns.
Proof.
  induction ns as [|a [|b r] IH]; [done..|]. intros [[E1 E2] S] Hn Hp. split.
  - split; [rewrite Hn|rewrite Hp]; try done; cbn; set_solver.
  - apply IH; [done| |]; intros n Hi; [apply Hn|apply Hp]; cbn in *; set_solver.
Qed.

Lemma removelast_incl n ns : n ∈ removelast ns → n ∈ ns.
Proof. induction ns as [|a [|b r] IH]; [done|set_solver|]. change (n ∈ (a :: removelast (b :: r)) → n ∈ (a :: b :: r)). set_solver. Qed.
Lemma tail_incl n ns : n ∈ tail ns → n ∈ ns.
Proof. destruct ns; set_solver. Qed.
Lemma removelast_mid u a r : r ≠ [] → removelast (u ++ a :: r) = u ++ a :: removelast r.
Proof. intros. rewrite (removelast_app u) by done. f_equal. by destruct r. Qed.
Lemma tail_mid u a r : tail (u ++ a :: r) = tail (u ++ [a]) ++ r.
Proof. destruct u; [done|]. cbn. by rewrite <-app_assoc. Qed.

Lemma cyc_nodup l u a b v : cyc l (u ++ a :: b :: v) →
  (a ∉ u) ∧ (a ∉ removelast (b :: v)) ∧ (b ∉ tail (u ++ [a])) ∧ (b ∉ v).
Proof.
  intros (_ & N & T). rewrite removelast_mid in N by done. rewrite tail_mid in T.
  apply NoDup_app in N as (_ & N1 & [N2 _]%NoDup_cons). apply NoDup_app in T as (_ & T1 & [T2 _]%NoDup_cons).
  split_and!; [|done| |done].
  - intros H. apply (N1 a H). apply list_elem_of_here.
  - intros H. apply (T1 b H). apply list_elem_of_here.
Qed.

(** Linking [x] between the neighbours [a] and [b], and taking out what is between. *)
Definition linked x a b l : links := wnext a x (wprev x a (wnext x b (wprev b x l))).
Definition unlinked a b l : links := wnext a b (wprev b a l).

Lemma edge_dom l a b : edge l a b → a ∈ dom l ∧ b ∈ dom l.
Proof.
  unfold edge, nx, pv. intros [E1 E2]. rewrite !elem_of_dom.
  destruct (l !! a); [|done]. destruct (l !! b); [|done]. done.
Qed.
Lemma list_insert_done l x a b : a ∈ dom l → b ∈ dom l → x ∈ dom l → list_insert x a b l = Done (tt, linked x a b l).
Proof.
  intros. unfold list_insert, linked.
  repeat (erewrite bind_done; [|first [apply set_prev_done|apply set_next_done]; rewrite ?dom_wprev, ?dom_wnext, ?dom_wprev; done]).
  apply set_next_done. by rewrite dom_wprev, dom_wnext, dom_wprev.
Qed.
Lemma list_unlink_done l a b : a ∈ dom l → b ∈ dom l → list_unlink a b l = Done (tt, unlinked a b l).
Proof.
  intros. unfold list_unlink, unlinked. erewrite bind_done; [|by apply set_prev_done].
  apply set_next_done. by rewrite dom_wprev.
Qed.

Lemma cyc_insert l u a b v x : cyc l (u ++ a :: b :: v) → x ∉ (u ++ a :: b :: v) → x ∈ dom l →
  cyc (linked x a b l) (u ++ a :: x :: b :: v).
Proof.
  intros C Hx Dx. pose proof (cyc_nodup _ _ _ _ _ C) as (N1 & N2 & N3 & N4).
  destruct C as (S & NR & NT). apply seg_app in S as (Su & E & Sv).
  destruct (edge_dom _ _ _ E) as [[ca Ea]%elem_of_dom [cb Eb]%elem_of_dom]. apply elem_of_dom in Dx as [cx Ex].
  assert (x ≠ a ∧ x ≠ b) as [Xa Xb] by set_solver.
  split; [|split].
  - apply seg_app. split; [|split].
    + eapply seg_ext; [exact Su| |]; intros m Hm; unfold linked.
      * rewrite removelast_last in Hm. rewrite nx_wnext, decide_False, nx_wprev, nx_wnext, decide_False, nx_wprev by set_solver. done.
      * rewrite pv_wnext, pv_wprev, decide_False, pv_wnext, pv_wprev, decide_False; [done| |].
        -- by intros <-.
        -- intros <-. apply Hx. apply tail_incl in Hm. set_solver.
    + unfold edge, linked. rewrite nx_wnext, decide_True, pv_wnext, pv_wprev, decide_True by done.
      unfold wprev, wnext. rewrite !(lookup_alter_ne _ _ x a) by done.
      rewrite (lookup_alter_eq _ _ x), (lookup_alter_ne _ _ b x), Ex by done.
      destruct (decide (b = a)) as [->|]; [rewrite lookup_alter_eq, Ea|rewrite lookup_alter_ne, Ea by done]; done.
    + split; [split|]; unfold linked.
      * rewrite nx_wnext, decide_False, nx_wprev, nx_wnext, decide_True by done.
        unfold wprev. by rewrite lookup_alter_ne, Ex by done.
      * rewrite pv_wnext, pv_wprev, decide_False, pv_wnext, pv_wprev, decide_True, Eb by done. done.
      * change (seg (linked x a b l) (b :: v)). eapply seg_ext; [exact Sv| |]; intros m Hm; unfold linked.
        -- rewrite nx_wnext, decide_False, nx_wprev, nx_wnext, decide_False, nx_wprev; [done| |].
           ++ intros <-. apply Hx. apply removelast_incl in Hm. set_solver.
           ++ by intros <-.
        -- rewrite pv_wnext, pv_wprev, decide_False, pv_wnext, pv_wprev, decide_False; [done| |].
           ++ by intros <-.
           ++ intros <-. apply Hx. apply tail_incl in Hm. set_solver.
  - rewrite removelast_mid in NR |- * by done. change (NoDup (u ++ a :: x :: removelast (b :: v))).
    assert (x ∉ removelast (b :: v)) by (intros H%removelast_incl; set_solver).
    rewrite NoDup_app, !NoDup_cons in *. set_solver.
  - rewrite tail_mid in NT |- *. assert (x ∉ tail (u ++ [a])) by (intros H%tail_incl; set_solver).
    rewrite NoDup_app, !NoDup_cons in *. set_solver.
Qed.

Lemma cyc_remove l u a x b v : cyc l (u ++ a :: x :: b :: v) → cyc (unlinked a b l) (u ++ a :: b :: v).
Proof.
  intros (S & NR & NT). rewrite removelast_mid in NR by done. rewrite tail_mid in NT.
  change (NoDup (u ++ a :: x :: removelast (b :: v))) in NR.
  apply seg_app in S as (Su & E1 & S). destruct S as [E2 Sv].
  destruct (edge_dom _ _ _ E1) as [[ca Ea]%elem_of_dom _]. destruct (edge_dom _ _ _ E2) as [_ [cb Eb]%elem_of_dom].
  rewrite NoDup_app, !NoDup_cons in NR, NT.
  destruct NR as (NR1 & NR2 & NR3 & NR4 & NR5). destruct NT as (NT1 & NT2 & NT3 & NT4 & NT5).
  split; [|split].
  - apply seg_app. split; [|split].
    + eapply seg_ext; [exact Su| |]; intros m Hm; unfold unlinked.
      * rewrite removelast_last in Hm. rewrite nx_wnext, decide_False, nx_wprev by set_solver. done.
      * rewrite pv_wnext, pv_wprev, decide_False by set_solver. done.
    + unfold edge, unlinked. rewrite nx_wnext, decide_True, pv_wnext, pv_wprev, decide_True, Eb by done.
      unfold wprev. destruct (decide (b = a)) as [->|]; [rewrite lookup_alter_eq, Ea|rewrite lookup_alter_ne, Ea by done]; done.
    + eapply seg_ext; [exact Sv| |]; intros m Hm; unfold unlinked.
      * rewrite nx_wnext, decide_False, nx_wprev; [done|]. set_solver.
      * rewrite pv_wnext, pv_wprev, decide_False; [done|]. set_solver.
  - rewrite removelast_mid by done. rewrite NoDup_app, NoDup_cons. set_solver.
  - rewrite tail_mid, NoDup_app, NoDup_cons. set_solver.
Qed.

Lemma same_linked x a b l : same_out [a; x; b] l (linked x a b l).
Proof.
  unfold linked. eapply same_out_trans; [|apply same_wnext; set_solver].
  eapply same_out_trans; [|apply same_wprev; set_solver]. eapply same_out_trans; [|apply same_wnext; set_solver].
  apply same_wprev; set_solver.
Qed.
Lemma same_unlinked a b l : same_out [a; b] l (unlinked a b l).
Proof. unfold unlinked. eapply same_out_trans; [|apply same_wnext; set_solver]. apply same_wprev; set_solver. Qed.

(** ** The operations on lists *)
Lemma dlist_nodup l h xs : dlist l h xs → NoDup (h :: xs).
Proof. intros (_ & N & _). by rewrite app_comm_cons, removelast_last in N. Qed.
Lemma dlist_edge l h xs u a b v : dlist l h xs → h :: xs ++ [h] = u ++ a :: b :: v → edge l a b.
Proof. intros [S _] E. rewrite E in S. by apply seg_app in S as (_ & ? & _). Qed.
Lemma dlist_first l h xs : dlist l h xs → ∃ v, xs ++ [h] = hd h xs :: v ∧ edge l h (hd h xs).
Proof.
  intros D. exists (tail (xs ++ [h])). destruct xs as [|x xs]; cbn; (split; [done|]).
  - exact (dlist_edge _ _ _ [] _ _ _ D eq_refl).
  - exact (dlist_edge _ _ _ [] _ _ _ D eq_refl).
Qed.
Lemma dlist_last l h xs : dlist l h xs → ∃ u a, h :: xs = u ++ [a] ∧ edge l a h.
Proof.
  intros D. destruct (exists_last (l := h :: xs)) as (u & a & E); [done|]. exists u, a. split; [done|].
  eapply (dlist_edge _ _ _ u _ _ [] D). by rewrite app_comm_cons, E, <-app_assoc.
Qed.
Lemma dlist_dom l h xs n : dlist l h xs → n ∈ (h :: xs) → n ∈ dom l.
Proof.
  intros D [u [v E]]%list_elem_of_split. destruct (exists_last (l := v ++ [h])) as (v' & z & E'); [by destruct v|].
  destruct (v ++ [h]) as [|b r] eqn:F; [by destruct v|].
  apply (edge_dom l n b). apply (dlist_edge _ _ _ u _ _ r D). rewrite app_comm_cons, E, <-app_assoc. cbn. by rewrite F.
Qed.
Lemma dlist_next l h w x v : dlist l h (w ++ x :: v) → nx l x = Some (hd h v).
Proof.
  intros D. destruct (v ++ [h]) as [|b r] eqn:F; [by destruct v|]. assert (hd h v = b) as -> by (destruct v; by injection F).
  apply (dlist_edge _ _ _ (h :: w) _ _ r D). cbn. rewrite <-app_assoc. cbn. by rewrite F.
Qed.
Lemma dlist_frame l l' h xs : dlist l h xs → (∀ n, n ∈ (h :: xs) → l' !! n = l !! n) → dlist l' h xs.
Proof.
  intros (S & N) E. split; [|done]. eapply seg_ext; [exact S| |]; intros n Hn; unfold nx, pv; rewrite E; try done.
  - apply removelast_incl in Hn. set_solver.
  - cbn in Hn. set_solver.
Qed.
Lemma dlist_init l h : h ∈ dom l → ∃ l', INIT_LIST_HEAD h l = Done (tt, l') ∧ dlist l' h [] ∧ same_out [h] l l'.
Proof.
  intros Dh. unfold INIT_LIST_HEAD. exists (wprev h h (wnext h h l)). split; [|split].
  - erewrite bind_done; [|by apply set_next_done]. apply set_prev_done. by rewrite dom_wnext.
  - apply elem_of_dom in Dh as [c E]. split; [|split; apply NoDup_singleton]. split; [|done]. split.
    + by rewrite nx_wprev, nx_wnext, decide_True, E.
    + unfold pv, wprev, wnext. by rewrite !lookup_alter_eq, E.
  - eapply same_out_trans; [apply same_wnext|apply same_wprev]; set_solver.
Qed.
Lemma list_empty_done l h xs : dlist l h xs → list_empty h l = Done (bool_decide (xs = []), l).
Proof.
  intros D. destruct (dlist_first _ _ _ D) as (v & _ & [E _]). unfold list_empty. erewrite bind_done; [|by apply get_next_done].
  unfold ret. do 2 f_equal. destruct xs as [|x xs]; cbn; [by rewrite Nat.eqb_refl|].
  apply dlist_nodup in D. apply Nat.eqb_neq. intros ->. apply NoDup_cons in D as [D _]. set_solver.
Qed.
Lemma list_add_tail_done l h xs x : dlist l h xs → x ∉ (h :: xs) → x ∈ dom l →
  ∃ l', list_add_tail x h l = Done (tt, l') ∧ dlist l' h (xs ++ [x]) ∧ same_out (x :: h :: xs) l l'.
Proof.
  intros D Hx Dx. destruct (dlist_last _ _ _ D) as (u & a & E & Ed). destruct (edge_dom _ _ _ Ed) as [Da Dh].
  assert (h ∈ (u ++ [a])) as Hh by (rewrite <-E; set_solver).
  exists (linked x a h l). split; [|split].
  - unfold list_add_tail. erewrite bind_done; [|apply get_prev_done, Ed]. by apply list_insert_done.
  - unfold dlist in *. rewrite app_comm_cons, E, <-!app_assoc in D. rewrite <-app_assoc, app_comm_cons, E, <-!app_assoc.
    apply cyc_insert; [done| |done]. rewrite E in Hx. set_solver.
  - eapply same_out_mono; [apply same_linked|]. rewrite E. intros m Hm. set_solver.
Qed.
Lemma list_add_head_done l h xs x : dlist l h xs → x ∉ (h :: xs) → x ∈ dom l →
  ∃ l', list_add_head x h l = Done (tt, l') ∧ dlist l' h (x :: xs) ∧ same_out (x :: h :: xs) l l'.
Proof.
  intros D Hx Dx. destruct (dlist_first _ _ _ D) as (v & E & Ed). destruct (edge_dom _ _ _ Ed) as [Dh Db].
  exists (linked x h (hd h xs) l). split; [|split].
  - unfold list_add_head. erewrite bind_done; [|apply get_next_done, Ed]. by apply list_insert_done.
  - unfold dlist in *. cbn [app]. rewrite E in *. apply (cyc_insert l []); [done| |done]. rewrite app_nil_l, <-E. set_solver.
  - eapply same_out_mono; [apply same_linked|]. destruct xs; set_solver.
Qed.
Lemma list_del_done l h xs x ys : dlist l h (xs ++ x :: ys) →
  ∃ l', list_del x l = Done (tt, l') ∧ dlist l' h (xs ++ ys) ∧ same_out (h :: xs ++ ys) l l'.
Proof.
  intros D. destruct (exists_last (l := h :: xs)) as (u & a & E); [done|].
  destruct (ys ++ [h]) as [|b v] eqn:F; [by destruct ys|].
  assert (h :: (xs ++ x :: ys) ++ [h] = u ++ a :: x :: b :: v) as W.
  { rewrite <-app_assoc. cbn [app]. by rewrite F, app_comm_cons, E, <-app_assoc. }
  pose proof (dlist_edge _ _ _ u a x _ D W) as [E1 E2]. pose proof (dlist_edge _ _ _ (u ++ [a]) x b v D) as [E3 E4]; [by rewrite W, <-(app_assoc u)|].
  exists (unlinked a b l). split; [|split].
  - unfold list_del. erewrite bind_done; [|apply get_prev_done, E2]. erewrite bind_done; [|apply get_next_done, E3].
    apply list_unlink_done; [apply (edge_dom l a x); done|apply (edge_dom l x b); done].
  - unfold dlist in D |- *. rewrite W in D. apply cyc_remove in D.
    replace (h :: (xs ++ ys) ++ [h]) with (u ++ a :: b :: v); [done|]. by rewrite <-app_assoc, F, app_comm_cons, E, <-app_assoc.
  - eapply same_out_mono; [apply same_unlinked|]. assert (a ∈ (h :: xs)) by (rewrite E; set_solver).
    assert (b ∈ ys ++ [h]) by (rewrite F; set_solver). set_solver.
Qed.

(** Moving, to the head or to the tail of a list [g] with other nodes. *)
Lemma list_del_init_done l h xs x ys : dlist l h (xs ++ x :: ys) →
  ∃ l', list_del_init x l = Done (tt, l') ∧ dlist l' h (xs ++ ys) ∧ dlist l' x [] ∧ same_out (x :: h :: xs ++ ys) l l'.
Proof.
  intros D. pose proof (dlist_nodup _ _ _ D) as N. pose proof (dlist_dom _ _ _ x D ltac:(set_solver)) as Dx.
  destruct (list_del_done _ _ _ _ _ D) as (l1 & E1 & D1 & S1).
  destruct (dlist_init l1 x) as (l2 & E2 & D2 & S2); [by rewrite (proj1 S1)|].
  exists l2. unfold list_del_init. split; [by erewrite bind_done|]. split; [|split; [done|]].
  - eapply dlist_frame; [exact D1|]. intros n Hn. apply S2. intros ->%list_elem_of_singleton.
    rewrite NoDup_cons, NoDup_app, NoDup_cons in N. set_solver.
  - eapply same_out_trans; [eapply same_out_mono; [exact S1|]|eapply same_out_mono; [exact S2|]]; set_solver.
Qed.
Lemma list_move_done (tl : bool) l h xs x ys g zs : dlist l h (xs ++ x :: ys) → dlist l g zs → g :: zs ## h :: xs ++ x :: ys →
  ∃ l', (if tl then list_move_tail else list_move) x g l = Done (tt, l') ∧ dlist l' h (xs ++ ys) ∧
    dlist l' g (if tl then zs ++ [x] else x :: zs) ∧ same_out ((h :: xs ++ ys) ++ x :: g :: zs) l l'.
Proof.
  intros D G X. pose proof (dlist_nodup _ _ _ D) as N. pose proof (dlist_dom _ _ _ x D ltac:(set_solver)) as Dx.
  destruct (list_del_done _ _ _ _ _ D) as (l1 & E1 & D1 & S1).
  assert (dlist l1 g zs) as G1 by (eapply dlist_frame; [exact G|]; intros; apply S1; set_solver).
  assert (∃ l2, (if tl then list_add_tail else list_add_head) x g l1 = Done (tt, l2) ∧ dlist l2 g (if tl then zs ++ [x] else x :: zs) ∧
    same_out (x :: g :: zs) l1 l2) as (l2 & E2 & G2 & S2).
  { rewrite <-(proj1 S1) in Dx. destruct tl; [apply list_add_tail_done|apply list_add_head_done]; try done; set_solver. }
  exists l2. split; [|split; [|split; [done|]]].
  - destruct tl; unfold list_move_tail, list_move; by erewrite bind_done.
  - eapply dlist_frame; [exact D1|]. intros n Hn. apply S2. rewrite NoDup_cons, NoDup_app, NoDup_cons in N. set_solver.
  - eapply same_out_trans; eapply same_out_mono; [exact S1| |exact S2|]; set_solver.
Qed.

(** Joining: the nodes of [g] go to the front of the list of [h]; [g] itself is left as
    it is, and is empty after [list_splice_init]. *)
Definition joined h z a b l : links := wprev b a (wnext a b (wnext h z (wprev z h l))).
Lemma nx_wnext_eq l n x : n ∈ dom l → nx (wnext n x l) n = Some x.
Proof. intros [c E]%elem_of_dom. by rewrite nx_wnext, decide_True, E. Qed.
Lemma pv_wprev_eq l n x : n ∈ dom l → pv (wprev n x l) n = Some x.
Proof. intros [c E]%elem_of_dom. by rewrite pv_wprev, decide_True, E. Qed.
Lemma joined_edges l h z a b : h ∈ dom l → z ∈ dom l → a ∈ dom l → b ∈ dom l → a ≠ h → b ≠ z →
  edge (joined h z a b l) h z ∧ edge (joined h z a b l) a b ∧ same_out [h; z; a; b] l (joined h z a b l) ∧
  (∀ n, n ≠ h → n ≠ a → nx (joined h z a b l) n = nx l n) ∧ (∀ n, n ≠ z → n ≠ b → pv (joined h z a b l) n = pv l n).
Proof.
  intros Dh Dz Da Db N1 N2. unfold joined, edge. repeat split.
  - rewrite nx_wprev, nx_wnext, decide_False by done. apply nx_wnext_eq. by rewrite dom_wprev.
  - rewrite pv_wprev, decide_False, !pv_wnext by done. by apply pv_wprev_eq.
  - rewrite nx_wprev. apply nx_wnext_eq. by rewrite dom_wnext, dom_wprev.
  - apply pv_wprev_eq. by rewrite !dom_wnext, dom_wprev.
  - by rewrite dom_wprev, !dom_wnext, dom_wprev.
  - intros m Hm. unfold wprev, wnext. rewrite !lookup_alter_ne by set_solver. done.
  - intros n H1 H2. by rewrite nx_wprev, nx_wnext, decide_False, nx_wnext, decide_False, nx_wprev.
  - intros n H1 H2. by rewrite pv_wprev, decide_False, !pv_wnext, pv_wprev, decide_False.
Qed.

(** The inner nodes of a list as a segment of their own. *)
Lemma dlist_inner l h u a : dlist l h (u ++ [a]) → seg l (u ++ [a]) ∧ NoDup (u ++ [a]).
Proof.
  intros D. split.
  - destruct D as [S _]. rewrite <-app_assoc in S. change (seg l ((h :: u) ++ a :: h :: [])) in S.
    apply seg_app in S as [S _]. destruct u; [done|]. by destruct S.
  - apply dlist_nodup, NoDup_cons in D. apply D.
Qed.
Lemma cyc_join l h xs g zs b z u a vh :
  dlist l h xs → dlist l g zs → (∀ n, n ∈ zs → n ∉ (h :: xs)) →
  xs ++ [h] = b :: vh → zs = u ++ [a] → head zs = Some z →
  dlist (joined h z a b l) h (zs ++ xs) ∧ same_out (h :: xs ++ zs) l (joined h z a b l).
Proof.
  intros D G X Eb Ea Ez.
  assert (b ∈ (h :: xs)) as Bm by (destruct xs; injection Eb as -> _; set_solver).
  assert (z ∈ zs ∧ a ∈ zs) as [Zm Am]. { split; [destruct zs; [done|injection Ez as ->]; set_solver|rewrite Ea; set_solver]. }
  assert (tail zs = tail (u ++ [a])) as Tu by by rewrite Ea.
  assert (zs = z :: tail zs) as Zs by (destruct zs; [done|by injection Ez as ->]).
  pose proof (dlist_nodup _ _ _ D) as Nh. pose proof (dlist_nodup _ _ _ G) as [Ng NZ]%NoDup_cons. pose proof NZ as Nz.
  destruct (joined_edges l h z a b) as (E1 & E2 & So & Fn & Fp).
  1, 4: eapply dlist_dom; [exact D|set_solver].
  1-2: eapply dlist_dom; [exact G|set_solver].
  1: intros ->; apply (X h); [done|set_solver].
  1: intros ->; by apply (X z).
  split; [|eapply same_out_mono; [exact So|set_solver]].
  rewrite Ea in G. destruct (dlist_inner _ _ _ _ G) as [Su Nu]. rewrite Zs in Nz. apply NoDup_cons in Nz as [Nz Nt].
  assert (a ∉ u) as Na by (rewrite NoDup_app in Nu; set_solver).
  destruct D as (Sh & _ & Nb). cbn [tail] in Nb. rewrite Eb in Nb. apply NoDup_cons in Nb as [Nb _].
  change (seg l (h :: xs ++ [h])) in Sh. rewrite Eb in Sh. destruct Sh as [_ Sh].
  split; [|split].
  - change (seg (joined h z a b l) (h :: (zs ++ xs) ++ [h])). rewrite <-app_assoc, Eb.
    rewrite Zs at 1. cbn [app]. split; [done|]. rewrite app_comm_cons, <-Zs, Ea, <-app_assoc.
    apply seg_app. split; [|split; [done|]].
    + eapply seg_ext; [exact Su| |]; intros n Hn.
      * rewrite removelast_last in Hn. apply Fn; [|by intros ->]. intros ->. apply (X h); set_solver.
      * rewrite <-Tu in Hn. apply Fp; [by intros ->|]. intros ->. apply (X b); [|done]. rewrite Zs. set_solver.
    + eapply seg_ext; [exact Sh| |]; intros n Hn.
      * rewrite <-Eb, removelast_last in Hn. apply Fn; [|set_solver]. intros ->. by apply NoDup_cons in Nh as [? _].
      * cbn [tail] in Hn. apply Fp; [|by intros ->]. intros ->. apply (X z); [done|].
        assert (z ∈ (xs ++ [h])) by (rewrite Eb; set_solver). set_solver.
  - rewrite app_comm_cons, removelast_last. apply NoDup_cons in Nh as [Nh1 Nh2]. rewrite NoDup_cons, NoDup_app. set_solver.
  - cbn [tail]. apply NoDup_cons in Nh as [Nh1 Nh2]. rewrite !NoDup_app. pose proof (NoDup_singleton h). set_solver.
Qed.

Lemma list_join_done l h xs g zs : dlist l h xs → dlist l g zs → zs ≠ [] → (∀ n, n ∈ zs → n ∉ (h :: xs)) →
  ∃ l', list_join g h l = Done (tt, l') ∧ dlist l' h (zs ++ xs) ∧ same_out (h :: xs ++ zs) l l'.
Proof.
  intros D G Z X. destruct (dlist_first _ _ _ G) as (vg & Fg & Eg1 & Eg2). destruct (dlist_last _ _ _ G) as (ug & a & Lg & Eg3 & Eg4).
  destruct (dlist_first _ _ _ D) as (vh & Fh & Eh1 & Eh2).
  destruct ug as [|g' u]; injection Lg as Lg; [by subst|]. subst g'.
  destruct (cyc_join l h xs g zs (hd h xs) (hd g zs) u a vh D G X Fh H) as [Dj Sj]; [by destruct zs|].
  eexists. split; [|split; [exact Dj|exact Sj]].
  unfold list_join. erewrite bind_done; [|apply get_next_done, Eg1]. erewrite bind_done; [|apply get_prev_done, Eg4].
  erewrite bind_done; [|apply get_next_done, Eh1]. destruct (edge_dom _ _ _ (conj Eh1 Eh2)) as [Dh Db].
  assert (hd g zs ∈ dom l ∧ a ∈ dom l) as [Dz Da].
  { split; (eapply dlist_dom; [exact G|]); [destruct zs|rewrite H]; set_solver. }
  erewrite bind_done; [|by apply set_prev_done]. erewrite bind_done; [|apply set_next_done; by rewrite dom_wprev].
  erewrite bind_done; [|apply set_next_done; by rewrite dom_wnext, dom_wprev].
  apply set_prev_done. by rewrite !dom_wnext, dom_wprev.
Qed.
Lemma list_splice_init_done l h xs g zs : dlist l h xs → dlist l g zs → (∀ n, n ∈ (g :: zs) → n ∉ (h :: xs)) →
  ∃ l', list_splice_init g h l = Done (tt, l') ∧ dlist l' h (zs ++ xs) ∧ dlist l' g [] ∧ same_out (h :: g :: xs ++ zs) l l'.
Proof.
  intros D G X. unfold list_splice_init. erewrite bind_done; [|by apply list_empty_done].
  case_bool_decide as Z; cbn [negb]; [subst zs; by exists l|].
  destruct (list_join_done _ _ _ _ _ D G Z) as (l1 & E1 & D1 & S1); [set_solver|].
  destruct (dlist_init l1 g) as (l2 & E2 & D2 & S2).
  { rewrite (proj1 S1). eapply dlist_dom; [exact G|set_solver]. }
  exists l2. split; [by erewrite bind_done|]. split; [|split; [done|]].
  - eapply dlist_frame; [exact D1|]. intros n Hn. apply S2. intros ->%list_elem_of_singleton.
    apply dlist_nodup, NoDup_cons in G as [Ng _]. set_solver.
  - eapply same_out_trans; eapply same_out_mono; [exact S1| |exact S2|]; set_solver.
Qed.

(** ** Walking a list *)
Section Walk.
Context {S A : Type} (lk : S → links) (next_of : nat → M S nat) (body : nat → A → M S (A * bool)) (f : A → nat → A).
Context (s : S) (Hn : ∀ n m, nx (lk s) n = Some m → next_of n s = Done (m, s)).

(** In front of the nodes [v] the walk is at the first of them, or at the head. *)
Lemma walk_step h w x v : dlist (lk s) h (w ++ x :: v) → ∃ n, nx (lk s) (hd h v) = Some n.
Proof.
  intros D. destruct v as [|y v]; [destruct (dlist_first _ _ _ D) as (? & _ & [E _]); by eexists|].
  exists (hd h v). apply (dlist_next _ _ (w ++ [x]) _ _). by rewrite <-app_assoc.
Qed.
Lemma walk_prefix h w u v fuel acc n : dlist (lk s) h (w ++ u ++ v) → nx (lk s) (hd h (u ++ v)) = Some n →
  (∀ y c, y ∈ u → body y c s = Done ((f c y, false), s)) →
  ∃ n', nx (lk s) (hd h v) = Some n' ∧
    for_each_loop next_of body (length u + fuel) (hd h (u ++ v)) n h acc s
    = for_each_loop next_of body fuel (hd h v) n' h (foldl f acc u) s.
Proof.
  intros D. revert w acc n D. induction u as [|y u IH]; intros w acc n D N B; [by exists n|].
  cbn [app hd] in N. pose proof (dlist_next _ _ _ _ _ D) as N'. rewrite N' in N. injection N as <-.
  destruct (walk_step _ _ _ _ D) as (n & En).
  destruct (IH (w ++ [y]) (f acc y) n) as (n' & E & W); [by rewrite <-app_assoc|done|set_solver|].
  exists n'. split; [done|]. cbn [length Nat.add for_each_loop app hd foldl].
  destruct (Nat.eqb_spec y h) as [->|_].
  { apply dlist_nodup, NoDup_cons in D as [D _]. set_solver. }
  erewrite bind_done; [|apply B; set_solver]. cbn [fst snd]. erewrite bind_done; [|by apply Hn]. done.
Qed.
Lemma walk_start h xs : dlist (lk s) h xs → ∀ fuel acc, ∃ n, nx (lk s) (hd h xs) = Some n ∧
  list_for_each_safe next_of body fuel h acc s = for_each_loop next_of body fuel (hd h xs) n h acc s.
Proof.
  intros D fuel acc. destruct (dlist_first _ _ _ D) as (v & _ & [E _]).
  assert (∃ n, nx (lk s) (hd h xs) = Some n) as [n En].
  { destruct xs as [|x xs]; [by eexists|]. exists (hd h xs). by apply (dlist_next _ _ []). }
  exists n. split; [done|]. unfold list_for_each_safe. erewrite bind_done; [|by apply Hn]. erewrite bind_done; [|by apply Hn]. done.
Qed.
(** Every node is visited in order when the body never breaks off. *)
Lemma for_each_all h xs fuel acc : dlist (lk s) h xs → length xs < fuel →
  (∀ y c, y ∈ xs → body y c s = Done ((f c y, false), s)) →
  list_for_each_safe next_of body fuel h acc s = Done (foldl f acc xs, s).
Proof.
  intros D F B. destruct (walk_start _ _ D fuel acc) as (n & En & ->).
  replace fuel with (length xs + Datatypes.S (fuel - length xs - 1)) by lia.
  destruct (walk_prefix h [] xs [] (Datatypes.S (fuel - length xs - 1)) acc n) as (n' & _ & W); [by rewrite app_nil_r|by rewrite app_nil_r|done|].
  rewrite app_nil_r in W. rewrite W. cbn. by rewrite Nat.eqb_refl.
Qed.
(** The walk ends at the first node [x] at which the body breaks off. *)
Lemma for_each_break h u x v fuel acc r s' : dlist (lk s) h (u ++ x :: v) → length u < fuel →
  (∀ y c, y ∈ u → body y c s = Done ((f c y, false), s)) →
  body x (foldl f acc u) s = Done ((r, true), s') →
  list_for_each_safe next_of body fuel h acc s = Done (r, s').
Proof.
  intros D F B Bx. destruct (walk_start _ _ D fuel acc) as (n & En & ->).
  replace fuel with (length u + Datatypes.S (fuel - length u - 1)) by lia.
  destruct (walk_prefix h [] u (x :: v) (Datatypes.S (fuel - length u - 1)) acc n) as (n' & _ & ->); [done..|].
  cbn [for_each_loop hd]. destruct (Nat.eqb_spec x h) as [->|_].
  { apply dlist_nodup, NoDup_cons in D as [D _]. set_solver. }
  erewrite bind_done by exact Bx. done.
Qed.
End Walk.

(** The store has a node for every member, so [S (size l)] rounds are enough. *)
Lemma dlist_length l h xs : dlist l h xs → length xs < size l.
Proof.
  intros D. pose proof (dlist_nodup _ _ _ D) as N. change (length (h :: xs) ≤ size l).
  rewrite <-size_dom, <-(size_list_to_set (C := gset nat) (h :: xs)) by done. apply subseteq_size.
  intros n Hn%elem_of_list_to_set. by eapply dlist_dom.
Qed.
Lemma list_size_done l h xs fuel : dlist l h xs → length xs < fuel → list_size fuel h l = Done (length xs, l).
Proof.
  intros D F. unfold list_size.
  rewrite (for_each_all id get_next _ (λ c _, S c) l (λ n m, get_next_done l n m) h xs fuel 0 D F) by done.
  do 2 f_equal. clear. assert (∀ k, foldl (λ c (_ : nat), S c) k xs = length xs + k) as H; [|by rewrite H, Nat.add_0_r].
  induction xs as [|x xs IH]; intros k; [done|]. cbn. rewrite IH. lia.
Qed.

(** ** A group of lists over one store

    The heads [hs] have disjoint lists [q h], and no head is a member. *)
Implicit Types (hs : list nat) (q : nat → list nat).
Definition fresh hs q n : Prop := (n ∉ hs) ∧ ∀ h, h ∈ hs → n ∉ q h.
Record lists l hs q : Prop := mk_lists {
  ls_dlist : ∀ h, h ∈ hs → dlist l h (q h);
  ls_disj : ∀ h h' x, h ∈ hs → h' ∈ hs → x ∈ q h → x ∈ q h' → h = h';
  ls_heads : ∀ h x, h ∈ hs → x ∈ q h → x ∉ hs }.

Lemma lists_frame l l' hs q : lists l hs q → (∀ n, ¬ fresh hs q n → l' !! n = l !! n) → lists l' hs q.
Proof.
  intros [D J H] E. split; try done. intros h Hh. eapply dlist_frame; [by apply D|]. intros n Hn. apply E.
  intros [F1 F2]. apply elem_of_cons in Hn as [->|Hn]; [done|]. by apply (F2 h).
Qed.
(** An operation that reaches only the list of [h] and the new nodes of that list. *)
Lemma lists_update l l' hs q h xs : lists l hs q → h ∈ hs → dlist l' h xs →
  (∀ n, n ∈ xs → n ∈ q h ∨ fresh hs q n) → same_out (h :: xs ++ q h) l l' → lists l' hs (<[h := xs]> q).
Proof.
  intros [D J H] Hh D' F [_ S]. split.
  - intros g Hg. destruct (decide (g = h)) as [->|N]; [by rewrite fn_lookup_insert|]. rewrite fn_lookup_insert_ne by done.
    eapply dlist_frame; [by apply D|]. intros n Hn. apply S. intros Hn'. apply elem_of_cons in Hn as [->|Hn].
    + apply elem_of_cons in Hn' as [->|[Hx|Hx]%elem_of_app]; [done| |by apply (H h) in Hx].
      destruct (F _ Hx) as [Hq|[Hq _]]; [by apply (H h) in Hq|done].
    + apply elem_of_cons in Hn' as [->|[Hx|Hx]%elem_of_app]; [by apply (H g) in Hn| |by apply N, (J g h n)].
      destruct (F _ Hx) as [Hq|[_ Hq]]; [by apply N, (J g h n)|by apply (Hq g)].
  - intros g g' x Hg Hg'. destruct (decide (g = h)) as [->|N], (decide (g' = h)) as [->|N'];
      rewrite ?fn_lookup_insert, ?fn_lookup_insert_ne by done; intros Hx Hx'; [done| | |by eapply J].
    + destruct (F x Hx) as [Hq|[_ Hq]]; [by eapply J|]. by destruct (Hq g').
    + destruct (F x Hx') as [Hq|[_ Hq]]; [by eapply J|]. by destruct (Hq g).
  - intros g x Hg. destruct (decide (g = h)) as [->|N]; rewrite ?fn_lookup_insert, ?fn_lookup_insert_ne by done; [|by apply H].
    intros Hx. destruct (F x Hx) as [Hq|[Hq _]]; [by apply (H h)|done].
Qed.
Lemma lists_init l hs q h : lists l hs q → h ∈ hs → ∃ l', INIT_LIST_HEAD h l = Done (tt, l') ∧ lists l' hs (<[h := []]> q) ∧ dom l' = dom l.
Proof.
  intros L Hh. pose proof (ls_dlist _ _ _ L h Hh) as D.
  destruct (dlist_init l h) as (l' & E & D' & S); [by eapply dlist_dom, list_elem_of_here|].
  exists l'. split; [done|]. split; [|apply S]. eapply lists_update; [done..|set_solver|].
  eapply same_out_mono; [exact S|set_solver].
Qed.
Lemma lists_add (tl : bool) l hs q h x : lists l hs q → h ∈ hs → fresh hs q x → x ∈ dom l →
  ∃ l', (if tl then list_add_tail else list_add_head) x h l = Done (tt, l') ∧
    lists l' hs (<[h := if tl then q h ++ [x] else x :: q h]> q) ∧ dom l' = dom l.
Proof.
  intros L Hh F Dx. pose proof (ls_dlist _ _ _ L h Hh) as D.
  assert (x ∉ (h :: q h)) as Hx by (destruct F as [F1 F2]; specialize (F2 h Hh); set_solver).
  assert (∃ l', (if tl then list_add_tail else list_add_head) x h l = Done (tt, l') ∧
    dlist l' h (if tl then q h ++ [x] else x :: q h) ∧ same_out (x :: h :: q h) l l') as (l' & E & D' & S).
  { destruct tl; [by apply list_add_tail_done|by apply list_add_head_done]. }
  exists l'. split; [done|]. split; [|apply S]. eapply lists_update; [done..| |].
  - intros n Hn. assert (n ∈ q h ∨ n = x) as [?| ->] by (destruct tl; set_solver); auto.
  - eapply same_out_mono; [exact S|destruct tl; set_solver].
Qed.
Lemma lists_del l hs q h u x v : lists l hs q → h ∈ hs → q h = u ++ x :: v →
  ∃ l', list_del x l = Done (tt, l') ∧ lists l' hs (<[h := u ++ v]> q) ∧ dom l' = dom l ∧ fresh hs (<[h := u ++ v]> q) x.
Proof.
  intros L Hh E. pose proof (ls_dlist _ _ _ L h Hh) as D. rewrite E in D. pose proof (dlist_nodup _ _ _ D) as N.
  destruct (list_del_done _ _ _ _ _ D) as (l' & Ed & D' & S). exists l'. split; [done|]. split; [|split; [apply S|split]].
  - eapply lists_update; [done..|rewrite E; set_solver|]. eapply same_out_mono; [exact S|set_solver].
  - eapply (ls_heads _ _ _ L h); [done|]. rewrite E. set_solver.
  - intros g Hg. destruct (decide (g = h)) as [->|Ng]; rewrite ?fn_lookup_insert, ?fn_lookup_insert_ne by done.
    + rewrite NoDup_cons, NoDup_app, NoDup_cons in N. set_solver.
    + intros Hx. apply Ng. eapply (ls_disj _ _ _ L); [done|done|exact Hx|rewrite E; set_solver].
Qed.
Lemma lists_ext l hs q q' : (∀ h, h ∈ hs → q' h = q h) → lists l hs q → lists l hs q'.
Proof.
  intros E [D J H]. split.
  - intros h Hh. rewrite E by done. by apply D.
  - intros h h' x Hh Hh'. rewrite !E by done. by apply J.
  - intros h x Hh. rewrite E by done. by apply H.
Qed.
Lemma lists_splice l hs q g h : lists l hs q → g ∈ hs → h ∈ hs → g ≠ h →
  ∃ l', list_splice_init g h l = Done (tt, l') ∧ lists l' hs (<[g := []]> (<[h := q g ++ q h]> q)) ∧ dom l' = dom l.
Proof.
  intros [D J H] Hg Hh N.
  assert (∀ n, n ∈ (g :: q g) → n ∉ (h :: q h)) as X.
  { intros n [->|Hn]%elem_of_cons [E|Hn']%elem_of_cons; [done|by apply (H h) in Hn'|subst; by apply (H g) in Hn|].
    by apply N, (J g h n). }
  destruct (list_splice_init_done l h (q h) g (q g) (D h Hh) (D g Hg) X) as (l' & E & Dh & Dg & S).
  exists l'. split; [done|]. split; [|apply S]. split.
  - intros k Hk. destruct (decide (k = g)) as [->|Ng]; [by rewrite fn_lookup_insert|rewrite fn_lookup_insert_ne by done].
    destruct (decide (k = h)) as [->|Nh]; [by rewrite fn_lookup_insert|rewrite fn_lookup_insert_ne by done].
    eapply dlist_frame; [by apply D|]. intros n [->|Hn]%elem_of_cons; apply S; rewrite !elem_of_cons, elem_of_app; intros [?|[?|[Hx|Hx]]]; subst.
    1-2: done.
    1-2: eapply H; [| exact Hx|]; done.
    1-2: eapply H; [| exact Hn|]; done.
    + by apply Nh, (J k h n).
    + by apply Ng, (J k g n).
  - intros k k' x Hk Hk'. unfold insert, fn_insert.
    destruct (decide (g = k)) as [<-|], (decide (g = k')) as [<-|]; try by (intros ? []%elem_of_nil || intros []%elem_of_nil).
    destruct (decide (h = k)) as [<-|], (decide (h = k')) as [<-|]; rewrite ?elem_of_app; intros H1 H2; [done|..].
    + destruct H1 as [H1|H1]; [by destruct (J g k' x)|by apply (J h k' x)].
    + destruct H2 as [H2|H2]; [by destruct (J g k x)|by apply (J k h x)].
    + by apply (J k k' x).
  - intros k x Hk. unfold insert, fn_insert. destruct (decide (g = k)); [by intros []%elem_of_nil|].
    destruct (decide (h = k)) as [<-|]; [intros [?|?]%elem_of_app; [by apply (H g)|by apply (H h)]|intros ?; by apply (H k)].
Qed.

(** ** Sequences of operations on a group of lists *)
Inductive lop := AddHead (x h : nat) | AddTail (x h : nat) | Del (x : nat) | Move (x h : nat) | MoveTail (x h : nat) | SpliceInit (g h : nat).
Definition run_lop (o : lop) : M links unit :=
  match o with
  | AddHead x h => list_add_head x h
  | AddTail x h => list_add_tail x h
  | Del x => list_del x
  | Move x h => list_move x h
  | MoveTail x h => list_move_tail x h
  | SpliceInit g h => list_splice_init g h
  end.
Fixpoint run_lops (os : list lop) : M links unit := match os with [] => ret tt | o :: os' => run_lop o ;;; run_lops os' end.
(** What they mean for the lists: a node is taken out, put at an end, all are handed over. *)
Definition without x q : nat → list nat := λ h, filter (λ n, n ≠ x) (q h).
Definition sem_lop (o : lop) q : nat → list nat :=
  match o with
  | AddHead x h => <[h := x :: q h]> q
  | AddTail x h => <[h := q h ++ [x]]> q
  | Del x => without x q
  | Move x h => <[h := x :: without x q h]> (without x q)
  | MoveTail x h => <[h := without x q h ++ [x]]> (without x q)
  | SpliceInit g h => <[g := []]> (<[h := q g ++ q h]> q)
  end.
(** The calls that make sense: only a node that is in no list is added, only one that
    is in a list is taken out, and two different lists are joined. *)
Definition legal_lop (pool : gset nat) hs (o : lop) q : Prop :=
  match o with
  | AddHead x h | AddTail x h => h ∈ hs ∧ fresh hs q x ∧ x ∈ pool
  | Del x => ∃ h, h ∈ hs ∧ x ∈ q h
  | Move x h | MoveTail x h => h ∈ hs ∧ ∃ g, g ∈ hs ∧ x ∈ q g
  | SpliceInit g h => g ∈ hs ∧ h ∈ hs ∧ g ≠ h
  end.
Fixpoint legal_lops pool hs (os : list lop) q : Prop :=
  match os with [] => True | o :: os' => legal_lop pool hs o q ∧ legal_lops pool hs os' (sem_lop o q) end.

Lemma without_absent x xs : x ∉ xs → filter (λ n, n ≠ x) xs = xs.
Proof. induction xs as [|y xs IH]; intros H; [done|]. rewrite filter_cons_True, IH by set_solver. done. Qed.
Lemma lists_without l hs q g x : lists l hs q → g ∈ hs → x ∈ q g →
  ∃ l', list_del x l = Done (tt, l') ∧ lists l' hs (without x q) ∧ dom l' = dom l ∧ fresh hs (without x q) x ∧ x ∈ dom l'.
Proof.
  intros L Hg Hx. pose proof Hx as (u & v & E)%list_elem_of_split. pose proof (ls_dlist _ _ _ L g Hg) as D.
  destruct (lists_del l hs q g u x v L Hg E) as (l' & Ed & L' & Dl & F).
  assert (∀ h, h ∈ hs → without x q h = (<[g := u ++ v]> q) h) as W.
  { intros h Hh. unfold without. destruct (decide (h = g)) as [->|N].
    - rewrite fn_lookup_insert, E. apply dlist_nodup in D. rewrite E, NoDup_cons, NoDup_app, NoDup_cons in D.
      rewrite filter_app, filter_cons_False by tauto. f_equal; apply without_absent; set_solver.
    - rewrite fn_lookup_insert_ne by done. apply without_absent. intros Hn. by apply N, (ls_disj _ _ _ L h g x). }
  exists l'. split; [done|]. split; [by eapply lists_ext|]. split; [done|]. split; [|].
  - destruct F as [F1 F2]. split; [done|]. intros h Hh. rewrite W by done. by apply F2.
  - rewrite Dl. eapply dlist_dom; [exact D|set_solver].
Qed.
Lemma run_lop_ok l hs q o : lists l hs q → legal_lop (dom l) hs o q →
  ∃ l', run_lop o l = Done (tt, l') ∧ lists l' hs (sem_lop o q) ∧ dom l' = dom l.
Proof.
  intros L G. destruct o as [x h|x h|x|x h|x h|g h]; cbn [legal_lop run_lop sem_lop] in *.
  - destruct G as (Hh & F & Dx). exact (lists_add false l hs q h x L Hh F Dx).
  - destruct G as (Hh & F & Dx). exact (lists_add true l hs q h x L Hh F Dx).
  - destruct G as (g & Hg & Hx). destruct (lists_without _ _ _ _ _ L Hg Hx) as (l' & E & L' & Dl & _). by exists l'.
  - destruct G as (Hh & g & Hg & Hx). destruct (lists_without _ _ _ _ _ L Hg Hx) as (l1 & E & L1 & Dl & F & Dx).
    destruct (lists_add false l1 hs _ h x L1 Hh F Dx) as (l' & E' & L' & Dl'). exists l'.
    unfold list_move. erewrite bind_done by done. by rewrite Dl', Dl.
  - destruct G as (Hh & g & Hg & Hx). destruct (lists_without _ _ _ _ _ L Hg Hx) as (l1 & E & L1 & Dl & F & Dx).
    destruct (lists_add true l1 hs _ h x L1 Hh F Dx) as (l' & E' & L' & Dl'). exists l'.
    unfold list_move_tail. erewrite bind_done by done. by rewrite Dl', Dl.
  - destruct G as (Hg & Hh & N). by apply lists_splice.
Qed.

(** C23: The list operations of bk_list.h mean what they say, for any sequence of them on
    any number of lists: starting from well-formed lists, adding at either end, taking
    out, moving and joining change the lists as the operations on sequences do, no
    pointer of another list is touched, the lists stay disjoint and linked in both
    directions, and [list_size] and [list_empty] then read the sequence off. *)
Theorem bk_list_refines l hs q (os : list lop) : lists l hs q → legal_lops (dom l) hs os q →
  ∃ l', run_lops os l = Done (tt, l') ∧ lists l' hs (foldl (λ r o, sem_lop o r) q os) ∧
    ∀ h, h ∈ hs → let xs := foldl (λ r o, sem_lop o r) q os h in
      list_size (S (size l')) h l' = Done (length xs, l') ∧ list_empty h l' = Done (bool_decide (xs = []), l').
Proof.
  revert l q. induction os as [|o os IH]; intros l q L G; cbn [run_lops foldl legal_lops] in *.
  - exists l. split; [done|]. split; [done|]. intros h Hh. pose proof (ls_dlist _ _ _ L h Hh) as D.
    split; [|by apply list_empty_done]. apply list_size_done; [done|]. apply dlist_length in D. lia.
  - destruct G as [G1 G2]. destruct (run_lop_ok _ _ _ _ L G1) as (l1 & E & L1 & Dl). rewrite <-Dl in G2.
    destruct (IH _ _ L1 G2) as (l' & E' & R). exists l'. split; [by erewrite bind_done|done].
Qed.
End Seg.

(** Two empty lists 1 and 2 and the nodes 5, 6, 7. *)
Definition store0 : links := list_to_map [(1, mk_head 1 1); (2, mk_head 2 2); (5, mk_head 0 0); (6, mk_head 0 0); (7, mk_head 0 0)].
Lemma store0_lists : lists store0 [1; 2] (λ _, []).
Proof.
  split; [|by intros ? ? ? ? ? ?%elem_of_nil|by intros ? ? ? ?%elem_of_nil].
  intros h Hh. elem_cases Hh; (split; [|split; apply NoDup_singleton]); split; [split; reflexivity|done|split; reflexivity|done].
Qed.
Definition ops0 : list lop := [AddTail 5 1; AddHead 6 1; AddTail 7 2; Move 5 2; SpliceInit 2 1; Del 7].
Lemma bk_list_refines_witness : ∃ l', run_lops ops0 store0 = Done (tt, l') ∧ lists l' [1; 2] (foldl (λ r o, sem_lop o r) (λ _, []) ops0) ∧
  foldl (λ r o, sem_lop o r) (λ _, []) ops0 1 = [5; 6].
Proof.
  destruct (bk_list_refines store0 [1; 2] (λ _, []) ops0 store0_lists) as (l' & E & L & _).
  - assert (dom store0 = {[1; 2; 5; 6; 7]}) as -> by (vm_compute; reflexivity).
    unfold ops0. cbn [legal_lops legal_lop]. unfold fresh.
    repeat first [split | exists 1; split; [|by apply (bool_decide_unpack _)] | done | intros h Hh; elem_cases Hh];
      by apply (bool_decide_unpack _); vm_compute.
  - exists l'. split; [exact E|]. split; [exact L|reflexivity].
Defined.
End DList.
