(* ===== verification/FrameBuf.v ===== *)
(** * Frame buffers of the media component: components/media/comm/frame_buffer.c

    Frames of images live in external memory; a frame object is in the free list or in
    the ready list of its kind, or is held.  Producers allocate a frame, fill it and
    report it complete; consumers (transfer, decoder, capture, display) register a
    callback, get the oldest ready frame, and give it back when they are done with it.

    Modelled: every operation of the file, and comm_act.c.  The lists are those of
    DList.v over one store; the list is the first field of a frame object, so that an
    object has the address of its node.  Parameters: the compile-time switches
    [CONFIG_LCD] and [CONFIG_PSRAM], the numbers of frames and the memory map (the
    headers with them are not in the repository), and the addresses that [os_malloc]
    returns.  Calls of callbacks are recorded.  An access through a null pointer is a
    [Fault], also in the arguments of a debug message, which are evaluated in this
    configuration. *)
From stdpp Require Import functions.
From S2P Require Import Prelude DList.
Import DList.
Local Open Scope Z_scope.

Module FrameBuf.

(** ** Data: media_types.h, frame_buffer.h *)
Definition FRAME_DISPLAY : Z := 0.
Definition FRAME_JPEG : Z := 1.
Inductive frame_state_t := STATE_INVALID | STATE_ALLOCED | STATE_FRAMED.
Inductive frame_module_t := MODULE_DECODER | MODULE_WIFI | MODULE_RECODER | MODULE_CAPTURE | MODULE_DISPLAY.
#[export] Instance frame_state_eq : EqDecision frame_state_t.
Proof. solve_decision. Defined.
#[export] Instance frame_module_eq : EqDecision frame_module_t.
Proof. solve_decision. Defined.

(** [frame_buffer_t] without its list node; [lock] is a byte. *)
Record frame_buffer_t := mk_frame {
  state : frame_state_t; type_ : Z; id : Z; lock : Z;
  frame : Z; flength : Z; fsize : Z; sequence : Z }.
Definition set_state x b := mk_frame x (type_ b) (id b) (lock b) (frame b) (flength b) (fsize b) (sequence b).
Definition set_lock x b := mk_frame (state b) (type_ b) (id b) x (frame b) (flength b) (fsize b) (sequence b).

(** One-bit fields are booleans; a callback is an address, 0 is the null pointer. *)
Record frame_buffer_info_t := mk_info {
  enable : bool;
  wifi_register : bool; wifi_lock : bool;
  decoder_register : bool; decoder_lock : bool;
  recoder_register : bool; recoder_lock : bool;
  capture_register : bool; capture_lock : bool;
  display_register : bool; display_lock : bool;
  minimal_layout : bool;
  wifi_comp_cb : Z; decoder_comp_cb : Z; recoder_comp_cb : Z; capture_comp_cb : Z; display_comp_cb : Z }.
Definition zero_info : frame_buffer_info_t :=
  mk_info false false false false false false false false false false false false 0 0 0 0 0.

(** The fields that belong to one module: registered, locked, callback. *)
Definition module_of (m : frame_module_t) (i : frame_buffer_info_t) : bool * bool * Z :=
  match m with
  | MODULE_WIFI => (wifi_register i, wifi_lock i, wifi_comp_cb i)
  | MODULE_DECODER => (decoder_register i, decoder_lock i, decoder_comp_cb i)
  | MODULE_RECODER => (recoder_register i, recoder_lock i, recoder_comp_cb i)
  | MODULE_CAPTURE => (capture_register i, capture_lock i, capture_comp_cb i)
  | MODULE_DISPLAY => (display_register i, display_lock i, display_comp_cb i)
  end.
Definition set_module (m : frame_module_t) (x : bool * bool * Z) (i : frame_buffer_info_t) : frame_buffer_info_t :=
  let '(r, l, c) := x in
  let sel (m' : frame_module_t) {T} (a b : T) : T := if decide (m = m') then a else b in
  mk_info (enable i)
    (sel MODULE_WIFI r (wifi_register i)) (sel MODULE_WIFI l (wifi_lock i))
    (sel MODULE_DECODER r (decoder_register i)) (sel MODULE_DECODER l (decoder_lock i))
    (sel MODULE_RECODER r (recoder_register i)) (sel MODULE_RECODER l (recoder_lock i))
    (sel MODULE_CAPTURE r (capture_register i)) (sel MODULE_CAPTURE l (capture_lock i))
    (sel MODULE_DISPLAY r (display_register i)) (sel MODULE_DISPLAY l (display_lock i))
    (minimal_layout i)
    (sel MODULE_WIFI c (wifi_comp_cb i)) (sel MODULE_DECODER c (decoder_comp_cb i)) (sel MODULE_RECODER c (recoder_comp_cb i))
    (sel MODULE_CAPTURE c (capture_comp_cb i)) (sel MODULE_DISPLAY c (display_comp_cb i)).
Definition lock_module (m : frame_module_t) (b : bool) (i : frame_buffer_info_t) : frame_buffer_info_t :=
  let '(r, _, c) := module_of m i in set_module m (r, b, c) i.
Definition set_minimal_layout (b : bool) (i : frame_buffer_info_t) : frame_buffer_info_t :=
  mk_info (enable i) (wifi_register i) (wifi_lock i) (decoder_register i) (decoder_lock i) (recoder_register i) (recoder_lock i)
    (capture_register i) (capture_lock i) (display_register i) (display_lock i) b
    (wifi_comp_cb i) (decoder_comp_cb i) (recoder_comp_cb i) (capture_comp_cb i) (display_comp_cb i).
Definition set_enable (b : bool) (i : frame_buffer_info_t) : frame_buffer_info_t :=
  mk_info b (wifi_register i) (wifi_lock i) (decoder_register i) (decoder_lock i) (recoder_register i) (recoder_lock i)
    (capture_register i) (capture_lock i) (display_register i) (display_lock i) (minimal_layout i)
    (wifi_comp_cb i) (decoder_comp_cb i) (recoder_comp_cb i) (capture_comp_cb i) (display_comp_cb i).

(** The list heads; 0 is the null pointer, frame objects have other addresses. *)
Definition jpeg_free_node_list : nat := 1.
Definition jpeg_ready_node_list : nat := 2.
Definition display_free_node_list : nat := 3.
Definition display_ready_node_list : nat := 4.
Definition heads : list nat := [jpeg_free_node_list; jpeg_ready_node_list; display_free_node_list; display_ready_node_list].

Record fb := mk_fb {
  lnk : links;
  heap : gmap nat frame_buffer_t;
  frame_buffer_info : option frame_buffer_info_t;
  calls : list (frame_module_t * Z * nat) }.
Definition with_lnk l (s : fb) := mk_fb l (heap s) (frame_buffer_info s) (calls s).
Definition with_heap h (s : fb) := mk_fb (lnk s) h (frame_buffer_info s) (calls s).
Definition with_info i (s : fb) := mk_fb (lnk s) (heap s) i (calls s).
Definition with_calls c (s : fb) := mk_fb (lnk s) (heap s) (frame_buffer_info s) c.

(** ** Access to objects *)
Definition onl {A} (m : M links A) : M fb A := λ s,
  match m (lnk s) with Done (a, l) => Done (a, with_lnk l s) | Trap t => Trap t end.
Definition get_frame (n : nat) : M fb frame_buffer_t :=
  let* h := gets heap in match h !! n with Some b => ret b | None => trapM Fault end.
Definition upd_frame (n : nat) (f : frame_buffer_t → frame_buffer_t) : M fb unit :=
  let* b := get_frame n in modify (λ s, with_heap (<[n := f b]> (heap s)) s).
Definition get_info : M fb frame_buffer_info_t :=
  let* i := gets frame_buffer_info in match i with Some i => ret i | None => trapM Fault end.
Definition upd_info (f : frame_buffer_info_t → frame_buffer_info_t) : M fb unit :=
  let* i := get_info in modify (with_info (Some (f i))).
(** One round for every node of the store and one more. *)
Definition fuel (s : fb) : nat := S (size (lnk s)).
Definition for_each {A} (body : nat → A → M fb (A * bool)) (head : nat) (acc : A) : M fb A :=
  let* k := gets fuel in list_for_each_safe (λ n, onl (get_next n)) body k head acc.

Definition free_list (type : Z) : option nat :=
  if type =? FRAME_JPEG then Some jpeg_free_node_list
  else if type =? FRAME_DISPLAY then Some display_free_node_list else None.
Definition ready_list (type : Z) : option nat :=
  if type =? FRAME_JPEG then Some jpeg_ready_node_list
  else if type =? FRAME_DISPLAY then Some display_ready_node_list else None.

(** ** Moving frames *)
Definition frame_buffer_free_frame (buffer : nat) : M fb unit :=
  let* b := get_frame buffer in
  match free_list (type_ b) with
  | None => ret tt
  | Some list =>
      let* refree :=
        if negb (lock b =? 0) then upd_frame buffer (λ b, set_lock (u8 (lock b - 1)) b) ;;; ret false
        else for_each (λ pos acc, let* tmp := get_frame pos in
                                  if frame tmp =? frame b then ret (true, true) else ret (acc, false)) list false in
      if refree then ret tt
      else let* b := get_frame buffer in
           if lock b =? 0 then upd_frame buffer (set_state STATE_FRAMED) ;;; onl (list_add_tail buffer list) else ret tt
  end.

(** Take out the first frame of a list whose state passes the test. *)
Definition take_first (test : frame_state_t → bool) (list : nat) : M fb (option nat) :=
  for_each (λ pos acc, let* tmp := get_frame pos in
                       if test (state tmp) then onl (list_del pos) ;;; ret (Some pos, true) else ret (acc, false)) list None.
Definition not_alloced (x : frame_state_t) : bool := negb (bool_decide (x = STATE_ALLOCED)).
Definition is_framed (x : frame_state_t) : bool := bool_decide (x = STATE_FRAMED).
Definition hold (b : frame_buffer_t) : frame_buffer_t := set_lock (u8 (lock b + 1)) (set_state STATE_ALLOCED b).

Definition frame_buffer_alloc (type : Z) : M fb (option nat) :=
  match free_list type, ready_list type with
  | Some free, Some ready =>
      let* frame := take_first not_alloced free in
      let* frame := match frame with None => take_first not_alloced ready | Some _ => ret frame end in
      match frame with
      | Some f => upd_frame f hold ;;; let* _ := get_frame f in ret (Some f)
      | None => trapM Fault
      end
  | _, _ => ret None
  end.

Definition frame_buffer_lock_frame (f : nat) : M fb unit := upd_frame f (λ b, set_lock (u8 (lock b + 1)) b).

Definition frame_buffer_push_frame (buffer : nat) : M fb unit :=
  let* b := get_frame buffer in
  match ready_list (type_ b) with
  | None => ret tt
  | Some list =>
      upd_frame buffer (λ b, set_state STATE_FRAMED (set_lock (u8 (lock b - 1)) b)) ;;;
      onl (list_add_tail buffer list)
  end.

Definition frame_buffer_pop_frame (type : Z) : M fb (option nat) :=
  match ready_list type with
  | None => ret None
  | Some list =>
      let* frame := take_first is_framed list in
      match frame with Some f => upd_frame f hold ;;; ret (Some f) | None => trapM Fault end
  end.

(** ** Consumers *)
Definition ready_module (m : frame_module_t) (i : frame_buffer_info_t) : bool :=
  let '(r, l, c) := module_of m i in r && negb l && negb (c =? 0).
Definition call_module (m : frame_module_t) (buffer : nat) : M fb unit :=
  let* i := get_info in modify (λ s, with_calls (calls s ++ [((m, (module_of m i).2), buffer)]) s).

Section Config.
Context (CONFIG_LCD CONFIG_PSRAM : bool).

(** One block of [frame_buffer_complete_notify]; the display is not locked. *)
Definition notify (m : frame_module_t) (lk : bool) (buffer : nat) : M fb unit :=
  let* i := get_info in
  if ready_module m i then
    frame_buffer_lock_frame buffer ;;;
    (if lk then upd_info (lock_module m true) else ret tt) ;;;
    call_module m buffer
  else ret tt.
Definition frame_buffer_complete_notify (buffer : nat) : M fb unit :=
  let* b := get_frame buffer in
  (if type_ b =? FRAME_JPEG then
     notify MODULE_WIFI true buffer ;;;
     (if CONFIG_LCD then notify MODULE_DECODER true buffer else ret tt) ;;;
     notify MODULE_CAPTURE true buffer
   else ret tt) ;;;
  (let* b := get_frame buffer in
   if type_ b =? FRAME_DISPLAY then
     if CONFIG_LCD then notify MODULE_DISPLAY false buffer else ret tt
   else ret tt) ;;;
  frame_buffer_free_frame buffer.

Definition is_workflow_freezing (type : Z) : M fb bool :=
  let* i := get_info in
  let ret1 := if type =? FRAME_JPEG
    then negb (ready_module MODULE_WIFI i || ready_module MODULE_DECODER i || ready_module MODULE_CAPTURE i) else true in
  let ret2 := if (type =? FRAME_DISPLAY) && ready_module MODULE_DISPLAY i then false else ret1 in
  ret ret2.

Definition frame_buffer_generate_complete (buffer : nat) (type : Z) : M fb unit :=
  frame_buffer_push_frame buffer ;;;
  let* freezing := is_workflow_freezing type in
  let* _ := get_frame buffer in
  if negb freezing then
    let* frame := frame_buffer_pop_frame type in
    match frame with Some f => frame_buffer_complete_notify f | None => trapM Fault end
  else ret tt.

Definition frame_buffer_frame_register (m : frame_module_t) (callback : Z) : M fb unit :=
  upd_info (λ i, let '(_, l, _) := module_of m i in
    set_module m (true, match m with MODULE_CAPTURE | MODULE_DISPLAY => false | _ => l end, callback) i).
Definition frame_buffer_frame_deregister (m : frame_module_t) : M fb unit := upd_info (set_module m (false, false, 0)).

Definition frame_buffer_free_request (buffer : nat) (m : frame_module_t) : M fb unit :=
  let* b := get_frame buffer in
  if lock b =? 0 then ret tt
  else frame_buffer_free_frame buffer ;;;
       match m with
       | MODULE_WIFI | MODULE_DECODER | MODULE_DISPLAY => upd_info (lock_module m false)
       | MODULE_RECODER | MODULE_CAPTURE => ret tt
       end.

(** comm_act.c, with the events of media_evt.h *)
Definition EVENT_COM_FRAME_WIFI_FREE_IND : Z := Z.shiftl 1 16 + 1.
Definition EVENT_COM_FRAME_DECODER_FREE_IND : Z := Z.shiftl 1 16 + 2.
Definition EVENT_COM_FRAME_CAPTURE_FREE_IND : Z := Z.shiftl 1 16 + 3.
Definition comm_event_handle (event : Z) (param : nat) : M fb unit :=
  if event =? EVENT_COM_FRAME_WIFI_FREE_IND then frame_buffer_free_request param MODULE_WIFI
  else if event =? EVENT_COM_FRAME_DECODER_FREE_IND then frame_buffer_free_request param MODULE_DECODER
  else if event =? EVENT_COM_FRAME_CAPTURE_FREE_IND then frame_buffer_free_request param MODULE_CAPTURE
  else ret tt.

(** ** Initialisation *)
(** Address and size of the buffers of a layout. *)
Record psram_t := mk_psram { jpeg_enc : nat → Z * Z; display : nat → Z * Z }.
Context (JPEG_ENC_FRAME_COUNT DISPLAY_FRAME_COUNT DISPLAY_720P_FRAME_COUNT : nat).
Context (psram_map psram_720p_map : psram_t).
(** The address of the next block, given those in use; whether there is room for the
    block of [frame_buffer_info]. *)
Context (malloc : gset nat → option nat) (malloc_info : bool).

Definition os_free (n : nat) : M fb unit := modify (λ s, with_heap (delete n (heap s)) (with_lnk (delete n (lnk s)) s)).
Definition drop_list (list : nat) : M fb unit :=
  let* e := onl (list_empty list) in
  if negb e then
    for_each (λ pos _, onl (list_del pos) ;;; os_free pos ;;; ret (tt, true)) list tt ;;;
    onl (INIT_LIST_HEAD list)
  else ret tt.
Definition new_frame (type : Z) (mem : nat → Z * Z) (list : nat) (i : nat) : M fb unit :=
  let* f := gets (λ s, malloc (dom (heap s))) in
  match f with
  | None => trapM Fault
  | Some f =>
      modify (λ s, with_heap (<[f := mk_frame STATE_INVALID type (u8 (Z.of_nat i)) 0 (mem i).1 0 (mem i).2 0]> (heap s))
                     (with_lnk (<[f := mk_head 0 0]> (lnk s)) s)) ;;;
      onl (list_add_tail f list)
  end.
Fixpoint new_frames (type : Z) (mem : nat → Z * Z) (lst : nat) (ids : list nat) : M fb unit :=
  match ids with [] => ret tt | i :: ids' => new_frame type mem lst i ;;; new_frames type mem lst ids' end.

Definition frame_buffer_jpeg_frame_init : M fb Z :=
  let* i := get_info in
  (if CONFIG_PSRAM then
     drop_list jpeg_free_node_list ;;;
     drop_list jpeg_ready_node_list ;;;
     let* i := get_info in
     if minimal_layout i then new_frames FRAME_JPEG (jpeg_enc psram_map) jpeg_free_node_list (seq 0 JPEG_ENC_FRAME_COUNT)
     else new_frames FRAME_JPEG (jpeg_enc psram_720p_map) jpeg_free_node_list (seq 0 JPEG_ENC_FRAME_COUNT)
   else ret tt) ;;;
  ret BK_OK.
Definition frame_buffer_display_frame_init : M fb Z :=
  (if CONFIG_PSRAM then
     drop_list display_free_node_list ;;;
     drop_list display_ready_node_list ;;;
     let* i := get_info in
     if minimal_layout i then new_frames FRAME_DISPLAY (display psram_map) display_free_node_list (seq 0 DISPLAY_FRAME_COUNT)
     else new_frames FRAME_DISPLAY (display psram_720p_map) display_free_node_list (seq 0 DISPLAY_720P_FRAME_COUNT)
   else ret tt) ;;;
  ret BK_OK.

Definition frame_buffer_init : M fb unit :=
  (let* i := gets frame_buffer_info in
   match i with
   | Some _ => ret tt
   | None => if malloc_info then modify (with_info (Some zero_info)) else trapM Fault
   end) ;;;
  upd_info (set_minimal_layout true).

(** [media_ppi_t]: width and height in the halves of a word; the product of the two is
    an [int]. *)
Definition ppi_to_pixel_x (ppi : Z) : Z := u16 (Z.shiftr ppi 16).
Definition ppi_to_pixel_y (ppi : Z) : Z := u16 (Z.land ppi 0xFFFF).
Definition int32 (z : Z) : Z := (z + 2 ^ 31) mod 2 ^ 32 - 2 ^ 31.
Definition PIXEL_800 : Z := 800.
Definition PIXEL_600 : Z := 600.
Definition frame_buffer_set_ppi (ppi type : Z) : M fb Z :=
  let* i := gets frame_buffer_info in
  match i with
  | None => ret BK_FAIL
  | Some _ =>
      let width := ppi_to_pixel_x ppi in
      let heigth := ppi_to_pixel_y ppi in
      upd_info (set_minimal_layout (negb (PIXEL_800 * PIXEL_600 <? int32 (width * heigth)))) ;;;
      (if type =? FRAME_JPEG then frame_buffer_jpeg_frame_init ;;; ret tt else ret tt) ;;;
      (if type =? FRAME_DISPLAY then frame_buffer_display_frame_init ;;; ret tt else ret tt) ;;;
      ret BK_OK
  end.

Definition frame_buffer_get_state : M fb bool :=
  let* i := gets frame_buffer_info in ret match i with Some i => enable i | None => false end.
Definition frame_buffer_enable (en : bool) : M fb unit :=
  (let* i := gets frame_buffer_info in
   match i with Some _ => modify (with_info (Some (set_enable en zero_info))) | None => ret tt end) ;;;
  upd_info (set_minimal_layout true).
Definition frame_buffer_deinit : M fb unit :=
  let* i := gets frame_buffer_info in
  match i with
  | Some _ => modify (with_info None) ;;; upd_info (set_minimal_layout true)
  | None => ret tt
  end.
End Config.
End FrameBuf.
