(* ===== verification/FrameOps.v ===== *)
(** * What the frame buffers promise

    The places of the frames as sequences and holders: [spec] has the four lists, the
    number of holders of every frame that is out, the state of the consumers and the
    calls made so far, and [sstep] is what an operation of FrameBuf.v means for them.
    [rep] relates it to the objects, locks and pointers of the code.  The lemmas
    give the effect of every operation on [spec] and what it leaves as it was; the
    theorems are in FrameRuns.v. *)
From stdpp Require Import functions.
From S2P Require Import Prelude DList FrameBuf.
Import DList FrameBuf.
Local Open Scope Z_scope.

Module FrameOps.

(** ** The abstract state *)
Record spec := mk_spec {
  q : nat → list nat;
  held : gmap nat nat;
  inf : frame_buffer_info_t;
  log : list (frame_module_t * Z * nat) }.

Definition free_of (t : Z) : nat := if t =? FRAME_JPEG then jpeg_free_node_list else display_free_node_list.
Definition ready_of (t : Z) : nat := if t =? FRAME_JPEG then jpeg_ready_node_list else display_ready_node_list.
Definition is_kind (t : Z) : Prop := t = FRAME_JPEG ∨ t = FRAME_DISPLAY.
#[export] Instance is_kind_dec t : Decision (is_kind t).
Proof. unfold is_kind. apply _. Defined.

Lemma free_of_list t : is_kind t → free_list t = Some (free_of t) ∧ free_of t ∈ heads.
Proof. intros [->| ->]; (split; [reflexivity|set_solver]). Qed.
Lemma ready_of_list t : is_kind t → ready_list t = Some (ready_of t) ∧ ready_of t ∈ heads.
Proof. intros [->| ->]; (split; [reflexivity|set_solver]). Qed.
Lemma kinds_apart t u : is_kind t → is_kind u → free_of t ≠ ready_of u ∧ (free_of t = free_of u → t = u) ∧ (ready_of t = ready_of u → t = u).
Proof. by intros [->| ->] [->| ->]. Qed.

(** ** What the operations mean *)
Section Spec.
Context (kind : nat → Z) (CONFIG_LCD : bool).

Definition s_put (n h : nat) (a : spec) : spec := mk_spec (<[h := q a h ++ [n]]> (q a)) (delete n (held a)) (inf a) (log a).
Definition s_hold (n k : nat) (a : spec) : spec := mk_spec (q a) (<[n := k]> (held a)) (inf a) (log a).
Definition s_inf (i : frame_buffer_info_t) (a : spec) : spec := mk_spec (q a) (held a) i (log a).
(** The oldest frame of a list goes out to one holder. *)
Definition s_take (h : nat) (a : spec) : option (nat * spec) :=
  match q a h with
  | n :: r => Some (n, s_hold n 1 (mk_spec (<[h := r]> (q a)) (held a) (inf a) (log a)))
  | [] => None
  end.
(** One holder less: the last one puts the frame into the free list. *)
Definition s_free (n : nat) (a : spec) : spec :=
  match held a !! n with
  | Some (S (S k)) => s_hold n (S k) a
  | Some _ => s_put n (free_of (kind n)) a
  | None => a
  end.
Definition s_alloc (t : Z) (a : spec) : option (nat * spec) :=
  match s_take (free_of t) a with Some x => Some x | None => s_take (ready_of t) a end.

(** A consumer that is ready becomes a holder and is called. *)
Definition s_notify (lk : bool) (n : nat) (a : spec) (m : frame_module_t) : spec :=
  if ready_module m (inf a) then
    mk_spec (q a) (<[n := S (default 0 (held a !! n))%nat]> (held a))
      (if lk then lock_module m true (inf a) else inf a) (log a ++ [((m, (module_of m (inf a)).2), n)])
  else a.
(** The consumers that are called for a kind, and those that are waited for. *)
Definition called (t : Z) : list frame_module_t :=
  if t =? FRAME_JPEG then MODULE_WIFI :: (if CONFIG_LCD then [MODULE_DECODER] else []) ++ [MODULE_CAPTURE]
  else if CONFIG_LCD then [MODULE_DISPLAY] else [].
Definition waited (t : Z) : list frame_module_t :=
  if t =? FRAME_JPEG then [MODULE_WIFI; MODULE_DECODER; MODULE_CAPTURE] else [MODULE_DISPLAY].
Definition waiting (t : Z) (i : frame_buffer_info_t) : bool := existsb (λ m, ready_module m i) (waited t).
Definition s_complete (t : Z) (n : nat) (a : spec) : spec := s_free n (foldl (s_notify (t =? FRAME_JPEG) n) a (called t)).
Definition s_generate (n : nat) (t : Z) (a : spec) : option spec :=
  let a := s_put n (ready_of t) a in
  if waiting t (inf a) then match s_take (ready_of t) a with Some (y, a) => Some (s_complete t y a) | None => None end else Some a.

Inductive act :=
| Alloc (t : Z) | Lock (n : nat) | Free (n : nat) | Push (n : nat) | Pop (t : Z) | Generate (n : nat) (t : Z)
| Register (m : frame_module_t) (cb : Z) | Deregister (m : frame_module_t) | FreeRequest (n : nat) (m : frame_module_t).

(** [None]: the call is against the protocol.  A frame is reported complete or pushed
    by its only holder and freed by a holder; no more than 255 holders. *)
Definition sstep (o : act) (a : spec) : option (option nat * spec) :=
  match o with
  | Alloc t => if bool_decide (is_kind t) then '(n, a') ← s_alloc t a; Some (Some n, a') else None
  | Pop t => if bool_decide (is_kind t) then '(n, a') ← s_take (ready_of t) a; Some (Some n, a') else None
  | Lock n => k ← held a !! n; if (k <? 255)%nat then Some (None, s_hold n (S k) a) else None
  | Free n => _ ← held a !! n; Some (None, s_free n a)
  | Push n => if decide (held a !! n = Some 1%nat) then Some (None, s_put n (ready_of (kind n)) a) else None
  | Generate n t =>
      if decide (held a !! n = Some 1%nat ∧ kind n = t) then a' ← s_generate n t a; Some (None, a') else None
  | Register m cb =>
      let '(_, l, _) := module_of m (inf a) in
      let l' := match m with MODULE_CAPTURE | MODULE_DISPLAY => false | _ => l end in
      Some (None, s_inf (set_module m (true, l', cb) (inf a)) a)
  | Deregister m => Some (None, s_inf (set_module m (false, false, 0) (inf a)) a)
  | FreeRequest n m =>
      _ ← held a !! n;
      let a' := s_free n a in
      Some (None, match m with MODULE_WIFI | MODULE_DECODER | MODULE_DISPLAY => s_inf (lock_module m false (inf a)) a' | _ => a' end)
  end.

(** The call of the code, with the frame it returns. *)
Definition crun (o : act) : M fb (option nat) :=
  match o with
  | Alloc t => frame_buffer_alloc t
  | Pop t => frame_buffer_pop_frame t
  | Lock n => frame_buffer_lock_frame n ;;; ret None
  | Free n => frame_buffer_free_frame n ;;; ret None
  | Push n => frame_buffer_push_frame n ;;; ret None
  | Generate n t => frame_buffer_generate_complete CONFIG_LCD n t ;;; ret None
  | Register m cb => frame_buffer_frame_register m cb ;;; ret None
  | Deregister m => frame_buffer_frame_deregister m ;;; ret None
  | FreeRequest n m => frame_buffer_free_request n m ;;; ret None
  end.
End Spec.

(** ** The relation to the objects; [kind n] is the type of the frame [n] *)
Section Rep.
Context (kind : nat → Z).

(** A frame in the list [h]. *)
Definition in_list (h n : nat) (b : frame_buffer_t) : Prop :=
  lock b = 0 ∧ state b ≠ STATE_ALLOCED ∧ is_kind (kind n) ∧
  (h = free_of (kind n) ∨ h = ready_of (kind n) ∧ state b = STATE_FRAMED).
Definition is_held (n k : nat) (b : frame_buffer_t) : Prop :=
  is_kind (kind n) ∧ lock b = Z.of_nat k ∧ (1 ≤ k ≤ 255)%nat.
Record rep (s : fb) (a : spec) : Prop := mk_rep {
  r_lists : lists (lnk s) heads (q a);
  r_heap : ∀ n b, heap s !! n = Some b → n ∈ dom (lnk s) ∧ (n ∉ heads) ∧ type_ b = kind n;
  r_in : ∀ h n, h ∈ heads → n ∈ q a h → held a !! n = None ∧ ∃ b, heap s !! n = Some b ∧ in_list h n b;
  r_held : ∀ n k, held a !! n = Some k → ∃ b, heap s !! n = Some b ∧ is_held n k b;
  r_info : frame_buffer_info s = Some (inf a);
  r_calls : calls s = log a }.

Lemma rep_fresh s a n k : rep s a → held a !! n = Some k → fresh heads (q a) n.
Proof.
  intros R H. destruct (r_held _ _ R _ _ H) as (b & Hb & _). split; [apply (r_heap _ _ R _ _ Hb)|].
  intros h Hh Hn. destruct (r_in _ _ R h n Hh Hn) as [E _]. congruence.
Qed.

(** A frame that is in no list gets the number of holders [k]. *)
Lemma rep_hold s a n b b' k : rep s a → fresh heads (q a) n → heap s !! n = Some b →
  type_ b' = type_ b → is_held n k b' →
  rep (with_heap (<[n := b']> (heap s)) s) (mk_spec (q a) (<[n := k]> (held a)) (inf a) (log a)).
Proof.
  intros R [F1 F2] Hb T K. split; cbn [lnk heap frame_buffer_info calls with_heap q held inf log]; [apply R| | | |apply R|apply R].
  - intros m c. destruct (decide (n = m)) as [<-|N]; [rewrite lookup_insert_eq|rewrite lookup_insert_ne by done; apply R].
    intros [= <-]. rewrite T. by apply R.
  - intros h m Hh Hm. destruct (decide (n = m)) as [<-|N]; [by destruct (F2 h)|].
    rewrite !lookup_insert_ne by done. by apply R.
  - intros m j. destruct (decide (n = m)) as [<-|N]; [rewrite !lookup_insert_eq|rewrite !lookup_insert_ne by done; apply R].
    intros [= <-]. by exists b'.
Qed.

(** A frame that is in no list is put at the end of the list [h]. *)
Lemma rep_put s a n b b' h : rep s a → fresh heads (q a) n → heap s !! n = Some b →
  type_ b' = type_ b → h ∈ heads → in_list h n b' → ∃ s',
  onl (list_add_tail n h) (with_heap (<[n := b']> (heap s)) s) = Done (tt, s') ∧ heap s' = <[n := b']> (heap s) ∧
  rep s' (mk_spec (<[h := q a h ++ [n]]> (q a)) (delete n (held a)) (inf a) (log a)).
Proof.
  intros R F Hb T Hh I. destruct (r_heap _ _ R _ _ Hb) as (Dn & Nn & Tb).
  destruct (lists_add true _ _ _ h n (r_lists _ _ R) Hh F Dn) as (l' & E & L' & D').
  exists (with_lnk l' (with_heap (<[n := b']> (heap s)) s)). split; [unfold onl; cbn; by rewrite E|]. split; [done|].
  destruct F as [F1 F2].
  split; cbn [lnk heap frame_buffer_info calls with_heap with_lnk q held inf log]; [done| | | |apply R|apply R].
  - intros m c. rewrite D'. destruct (decide (n = m)) as [<-|N]; [rewrite lookup_insert_eq|rewrite lookup_insert_ne by done; apply R].
    intros [= <-]. by rewrite T.
  - intros g m Hg. destruct (decide (n = m)) as [<-|N].
    + rewrite lookup_delete_eq, lookup_insert_eq. destruct (decide (h = g)) as [<-|N]; [by eauto|].
      rewrite fn_lookup_insert_ne by done. intros Hn. by destruct (F2 g).
    + rewrite lookup_delete_ne, lookup_insert_ne by done. intros Hm. apply R; [done|].
      destruct (decide (h = g)) as [<-|N']; [rewrite fn_lookup_insert in Hm; set_solver|by rewrite fn_lookup_insert_ne in Hm].
  - intros m j. destruct (decide (n = m)) as [<-|N]; [by rewrite lookup_delete_eq|rewrite lookup_delete_ne, lookup_insert_ne by done; apply R].
Qed.

(** The first frame of the list [h] is taken out. *)
Lemma rep_take s a h n r : rep s a → h ∈ heads → q a h = n :: r → ∃ s' b,
  onl (list_del n) s = Done (tt, s') ∧ heap s' = heap s ∧ heap s !! n = Some b ∧ in_list h n b ∧
  fresh heads (<[h := r]> (q a)) n ∧ held a !! n = None ∧
  rep s' (mk_spec (<[h := r]> (q a)) (held a) (inf a) (log a)).
Proof.
  intros R Hh E. destruct (lists_del _ _ _ h [] n r (r_lists _ _ R) Hh E) as (l' & Ed & L' & D' & F).
  destruct (r_in _ _ R h n Hh) as (Hn & b & Hb & I); [rewrite E; set_solver|].
  exists (with_lnk l' s), b. unfold onl. rewrite Ed. do 6 (split; [done|]).
  split; cbn [lnk heap frame_buffer_info calls with_lnk q held inf log]; [done| | |apply R|apply R|apply R].
  - intros m c. rewrite D'. apply R.
  - intros g m Hg Hm. apply R; [done|]. destruct (decide (h = g)) as [<-|N]; [|by rewrite fn_lookup_insert_ne in Hm].
    rewrite fn_lookup_insert in Hm. rewrite E. set_solver.
Qed.

(** ** Operations at the level of the relation *)
Lemma next_done s n m : nx (lnk s) n = Some m → onl (get_next n) s = Done (m, s).
Proof. intros E. unfold onl. rewrite (get_next_done _ _ _ E). by destruct s. Qed.
Lemma get_frame_done s n b : heap s !! n = Some b → get_frame n s = Done (b, s).
Proof. intros E. unfold get_frame, bind, gets. by rewrite E. Qed.
Lemma upd_frame_done s n b f : heap s !! n = Some b → upd_frame n f s = Done (tt, with_heap (<[n := f b]> (heap s)) s).
Proof. intros E. unfold upd_frame. erewrite bind_done by (by apply get_frame_done). done. Qed.
Lemma get_info_done s i : frame_buffer_info s = Some i → get_info s = Done (i, s).
Proof. intros E. unfold get_info, bind, gets. by rewrite E. Qed.

Lemma take_first_done test s h n r b s' qs : lists (lnk s) heads qs → h ∈ heads → qs h = n :: r →
  heap s !! n = Some b → test (state b) = true → onl (list_del n) s = Done (tt, s') → take_first test h s = Done (Some n, s').
Proof.
  intros L Hh E Hb T D. unfold take_first, for_each. erewrite bind_done by reflexivity.
  pose proof (ls_dlist _ _ _ L h Hh) as Dl. rewrite E in Dl.
  apply (for_each_break lnk _ _ (λ c _, c) s (next_done s) h [] n r); [done|unfold fuel; cbn; lia|by intros ? ? ?%elem_of_nil|].
  erewrite bind_done by (by apply get_frame_done). rewrite T. by erewrite bind_done.
Qed.
Lemma take_first_none test s h qs : lists (lnk s) heads qs → h ∈ heads → qs h = [] → take_first test h s = Done (None, s).
Proof.
  intros L Hh E. unfold take_first, for_each. erewrite bind_done by reflexivity.
  pose proof (ls_dlist _ _ _ L h Hh) as Dl. rewrite E in Dl.
  apply (for_each_all lnk _ _ (λ c _, c) s (next_done s) h []); [done|unfold fuel; cbn; lia|by intros ? ? ?%elem_of_nil].
Qed.

Lemma hold_lock b : lock b = 0 → lock (hold b) = 1.
Proof. unfold hold. cbn. by intros ->. Qed.
(** Taking the first frame of a list out and holding it. *)
Lemma take_ok test s a h n a' : rep s a → h ∈ heads → s_take h a = Some (n, a') →
  (∀ b, in_list h n b → test (state b) = true) → ∃ s' s'' b,
  take_first test h s = Done (Some n, s') ∧ heap s' !! n = Some b ∧ upd_frame n hold s' = Done (tt, s'') ∧
  heap s'' !! n = Some (hold b) ∧ rep s'' a'.
Proof.
  intros R Hh T Ht. unfold s_take in T. destruct (q a h) as [|n' r] eqn:E; [done|]. injection T as -> <-.
  destruct (rep_take _ _ _ _ _ R Hh E) as (s' & b & Ed & Eh & Hb & I & F & Hn & R').
  exists s', (with_heap (<[n := hold b]> (heap s')) s'), b.
  split; [eapply take_first_done; [exact (r_lists _ _ R)|done|exact E|exact Hb|by apply Ht|done]|].
  rewrite <-Eh in Hb. split; [done|]. split; [by apply upd_frame_done|]. split; [apply lookup_insert_eq|].
  destruct I as (Il & _ & Ik & _).
  apply (rep_hold _ _ n b (hold b) 1 R' F Hb eq_refl). split; [done|]. split; [by apply hold_lock|lia].
Qed.

Lemma u8_dec k : (1 ≤ k ≤ 255)%nat → u8 (Z.of_nat k - 1) = Z.of_nat (k - 1).
Proof. intros. rewrite u8_small by lia. lia. Qed.
Lemma u8_inc k : (1 ≤ k < 255)%nat → u8 (Z.of_nat k + 1) = Z.of_nat (S k).
Proof. intros. rewrite u8_small by lia. lia. Qed.

Lemma lock_ok s a n k : rep s a → held a !! n = Some k → (k < 255)%nat → ∃ s',
  frame_buffer_lock_frame n s = Done (tt, s') ∧ rep s' (s_hold n (S k) a).
Proof.
  intros R H K. destruct (r_held _ _ R _ _ H) as (b & Hb & Ik & Il & Ir). eexists. split; [by apply upd_frame_done|].
  eapply rep_hold; [done|by eapply rep_fresh|done|done|]. split; [done|]. cbn. rewrite Il, u8_inc by lia. split; [done|lia].
Qed.

Lemma free_ok s a n k : rep s a → held a !! n = Some k → ∃ s',
  frame_buffer_free_frame n s = Done (tt, s') ∧ rep s' (s_free kind n a).
Proof.
  intros R H. destruct (r_held _ _ R _ _ H) as (b & Hb & Ik & Il & Ir).
  destruct (r_heap _ _ R _ _ Hb) as (_ & _ & Tb). destruct (free_of_list _ Ik) as [El Eh].
  unfold frame_buffer_free_frame, s_free. rewrite H. erewrite bind_done by (by apply get_frame_done). rewrite Tb, El.
  rewrite Il, (proj2 (Z.eqb_neq _ _)) by lia. cbn [negb].
  erewrite bind_done; [|erewrite bind_done by (by apply upd_frame_done); reflexivity]. cbn iota.
  rewrite Il, u8_dec by done.
  erewrite bind_done; [|apply get_frame_done; apply lookup_insert_eq]. cbn [lock set_lock].
  destruct k as [|[|k]]; [lia| |]; cbn [Nat.sub].
  - rewrite (proj2 (Z.eqb_eq _ _)) by done. erewrite bind_done; [|apply upd_frame_done; apply lookup_insert_eq].
    cbn [with_heap heap]. rewrite insert_insert_eq.
    destruct (rep_put s a n b (set_state STATE_FRAMED (set_lock (Z.of_nat 0) b)) (free_of (kind n)) R) as (s' & E & _ & R'); [by eapply rep_fresh|done|done|done| |by exists s'].
    split; [done|]. split; [done|]. split; [done|by left].
  - rewrite (proj2 (Z.eqb_neq _ _)) by lia. eexists. split; [done|].
    eapply rep_hold; [done|by eapply rep_fresh|done|done|]. split; [done|]. cbn. split; [done|lia].
Qed.

Lemma push_ok s a n : rep s a → held a !! n = Some 1%nat → ∃ s',
  frame_buffer_push_frame n s = Done (tt, s') ∧ is_Some (heap s' !! n) ∧ rep s' (s_put n (ready_of (kind n)) a).
Proof.
  intros R H. destruct (r_held _ _ R _ _ H) as (b & Hb & Ik & Il & Ir).
  destruct (r_heap _ _ R _ _ Hb) as (_ & _ & Tb). destruct (ready_of_list _ Ik) as [El Eh].
  unfold frame_buffer_push_frame. erewrite bind_done by (by apply get_frame_done). rewrite Tb, El.
  erewrite bind_done by (by apply upd_frame_done). cbv beta. rewrite Il.
  destruct (rep_put s a n b (set_state STATE_FRAMED (set_lock (u8 (Z.of_nat 1 - 1)) b)) (ready_of (kind n)) R) as (s' & E & Hs & R'); [by eapply rep_fresh|done|done|done| |].
  - split; [done|]. split; [done|]. split; [done|by right].
  - exists s'. split; [done|]. split; [|done]. rewrite Hs, lookup_insert_eq. by eexists.
Qed.

Lemma rep_info s a i : rep s a → rep (with_info (Some i) s) (s_inf i a).
Proof. intros R. split; try apply R. done. Qed.
Lemma rep_call s a c : rep s a → rep (with_calls (calls s ++ [c]) s) (mk_spec (q a) (held a) (inf a) (log a ++ [c])).
Proof. intros R. split; try apply R. cbn. by rewrite (r_calls _ _ R). Qed.
Lemma upd_info_ok s a f : rep s a → upd_info f s = Done (tt, with_info (Some (f (inf a))) s) ∧ rep (with_info (Some (f (inf a))) s) (s_inf (f (inf a)) a).
Proof.
  intros R. split; [|by apply rep_info]. unfold upd_info. erewrite bind_done; [|apply get_info_done, R]. done.
Qed.
Lemma held_kind s a n k : rep s a → held a !! n = Some k → ∃ b, heap s !! n = Some b ∧ type_ b = kind n ∧ is_kind (kind n).
Proof. intros R H. destruct (r_held _ _ R _ _ H) as (b & Hb & Ik & _). exists b. split; [done|]. split; [by apply (r_heap _ _ R)|done]. Qed.

Lemma lock_module_cb m m' b i : (module_of m (lock_module m' b i)).2 = (module_of m i).2.
Proof. by destruct m, m'. Qed.
Lemma notify_ok s a n k m lk : rep s a → held a !! n = Some k → (k < 255)%nat → ∃ s',
  notify m lk n s = Done (tt, s') ∧ rep s' (s_notify lk n a m) ∧ ∃ j, held (s_notify lk n a m) !! n = Some j ∧ (j ≤ S k)%nat.
Proof.
  intros R H K. unfold notify, s_notify. erewrite bind_done; [|apply get_info_done, R]. rewrite H. cbn [default].
  destruct (ready_module m (inf a)); [|exists s; split; [done|]; split; [done|]; exists k; split; [done|lia]].
  destruct (lock_ok _ _ _ _ R H K) as (s1 & E1 & R1). erewrite bind_done by exact E1.
  assert (∃ s2, (if lk then upd_info (lock_module m true) else ret tt) s1 = Done (tt, s2) ∧
    rep s2 (s_inf (if lk then lock_module m true (inf a) else inf a) (s_hold n (S k) a))) as (s2 & E2 & R2).
  { destruct lk; [eexists; by apply (upd_info_ok s1 (s_hold n (S k) a) (lock_module m true))|by exists s1]. }
  erewrite bind_done by exact E2. unfold call_module. erewrite bind_done; [|apply get_info_done, R2].
  eexists. split; [reflexivity|]. cbn [s_inf inf].
  replace (module_of m (if lk then lock_module m true (inf a) else inf a)).2 with (module_of m (inf a)).2 by (destruct lk; by rewrite ?lock_module_cb).
  split; [exact (rep_call _ _ _ R2)|]. exists (S k). cbn [held]. split; [apply lookup_insert_eq|lia].
Qed.

Context (CONFIG_LCD : bool).
Lemma complete_ok s a n : rep s a → held a !! n = Some 1%nat → ∃ s',
  frame_buffer_complete_notify CONFIG_LCD n s = Done (tt, s') ∧ rep s' (s_complete kind CONFIG_LCD (kind n) n a).
Proof.
  intros R H. destruct (held_kind _ _ _ _ R H) as (b & Hb & Tb & [K|K]);
    unfold frame_buffer_complete_notify, s_complete; erewrite bind_done by (by apply get_frame_done); rewrite Tb, K; cbn [Z.eqb FRAME_JPEG FRAME_DISPLAY Pos.eqb].
  - destruct (notify_ok _ _ _ _ MODULE_WIFI true R H) as (s1 & E1 & R1 & k1 & H1 & L1); [lia|].
    assert (∃ s2, (if CONFIG_LCD then notify MODULE_DECODER true n else ret tt) s1 = Done (tt, s2) ∧
      rep s2 (foldl (s_notify true n) (s_notify true n a MODULE_WIFI) (if CONFIG_LCD then [MODULE_DECODER] else [])) ∧
      ∃ k2, held (foldl (s_notify true n) (s_notify true n a MODULE_WIFI) (if CONFIG_LCD then [MODULE_DECODER] else [])) !! n = Some k2 ∧ (k2 ≤ S k1)%nat)
      as (s2 & E2 & R2 & k2 & H2 & L2).
    { destruct CONFIG_LCD; [destruct (notify_ok _ _ _ _ MODULE_DECODER true R1 H1) as (s2 & ?); [lia|by exists s2]|].
      exists s1. split; [done|]. split; [done|]. exists k1. split; [done|lia]. }
    destruct (notify_ok _ _ _ _ MODULE_CAPTURE true R2 H2) as (s3 & E3 & R3 & k3 & H3 & L3); [lia|].
    erewrite bind_done; [|erewrite bind_done by exact E1; erewrite bind_done by exact E2; exact E3].
    destruct (held_kind _ _ _ _ R3 H3) as (b3 & Hb3 & Tb3 & _).
    erewrite bind_done; [|erewrite bind_done by (by apply get_frame_done); rewrite Tb3, K; reflexivity].
    unfold called. cbn [Z.eqb FRAME_JPEG Pos.eqb foldl]. rewrite foldl_app. cbn [foldl]. by apply (free_ok _ _ _ _ R3 H3).
  - erewrite bind_done by reflexivity.
    assert (∃ s1, (if CONFIG_LCD then notify MODULE_DISPLAY false n else ret tt) s = Done (tt, s1) ∧
      rep s1 (foldl (s_notify false n) a (if CONFIG_LCD then [MODULE_DISPLAY] else [])) ∧
      ∃ k1, held (foldl (s_notify false n) a (if CONFIG_LCD then [MODULE_DISPLAY] else [])) !! n = Some k1) as (s1 & E1 & R1 & k1 & H1).
    { destruct CONFIG_LCD; [destruct (notify_ok _ _ _ _ MODULE_DISPLAY false R H) as (s1 & ? & ? & k1 & ? & ?); [lia|by eauto 6]|by eauto 6]. }
    erewrite bind_done; [|erewrite bind_done by (by apply get_frame_done); rewrite Tb, K; exact E1].
    by apply (free_ok _ _ _ _ R1 H1).
Qed.

Lemma alloc_ok s a t n a' : rep s a → is_kind t → s_alloc t a = Some (n, a') → ∃ s',
  frame_buffer_alloc t s = Done (Some n, s') ∧ rep s' a'.
Proof.
  intros R K A. destruct (free_of_list _ K) as [Ef Hf], (ready_of_list _ K) as [Er Hr]. unfold frame_buffer_alloc. rewrite Ef, Er.
  assert (∀ h b, in_list h n b → not_alloced (state b) = true) as Na.
  { intros h b (_ & N & _). unfold not_alloced. by rewrite bool_decide_eq_false_2. }
  unfold s_alloc in A. destruct (s_take (free_of t) a) as [x|] eqn:F.
  - injection A as ->. destruct (take_ok not_alloced _ _ _ _ _ R Hf F (Na _)) as (s1 & s2 & b & E1 & Hb & E2 & Hb2 & R').
    exists s2. erewrite bind_done by exact E1. erewrite bind_done by reflexivity. cbv beta iota. erewrite bind_done by exact E2.
    by erewrite bind_done by (by apply get_frame_done).
  - destruct (take_ok not_alloced _ _ _ _ _ R Hr A (Na _)) as (s1 & s2 & b & E1 & Hb & E2 & Hb2 & R').
    exists s2. erewrite bind_done; [|eapply take_first_none; [apply R|done|]].
    + erewrite bind_done by exact E1. cbv beta iota. erewrite bind_done by exact E2. by erewrite bind_done by (by apply get_frame_done).
    + unfold s_take in F. by destruct (q a (free_of t)).
Qed.
Lemma pop_ok s a t n a' : rep s a → is_kind t → s_take (ready_of t) a = Some (n, a') → ∃ s',
  frame_buffer_pop_frame t s = Done (Some n, s') ∧ rep s' a'.
Proof.
  intros R K A. destruct (ready_of_list _ K) as [Er Hr]. unfold frame_buffer_pop_frame. rewrite Er.
  destruct (take_ok is_framed _ _ _ _ _ R Hr A) as (s1 & s2 & b & E1 & Hb & E2 & Hb2 & R').
  { intros b (_ & _ & Kn & [E|[_ E]]); [|unfold is_framed; by rewrite bool_decide_eq_true_2].
    exfalso. by destruct (kinds_apart (kind n) t Kn K) as [N _]. }
  exists s2. erewrite bind_done by exact E1. cbv beta iota. by erewrite bind_done by exact E2.
Qed.

Lemma freezing_ok s a t : rep s a → is_kind t → is_workflow_freezing t s = Done (negb (waiting t (inf a)), s).
Proof.
  intros R K. unfold is_workflow_freezing. erewrite bind_done; [|apply get_info_done, R].
  unfold waiting, waited, ret. destruct K as [->| ->]; cbn [Z.eqb FRAME_JPEG FRAME_DISPLAY Pos.eqb existsb andb].
  - by rewrite orb_false_r, orb_assoc.
  - by destruct (ready_module MODULE_DISPLAY (inf a)).
Qed.
Lemma generate_ok s a n a' : rep s a → held a !! n = Some 1%nat → s_generate kind CONFIG_LCD n (kind n) a = Some a' → ∃ s',
  frame_buffer_generate_complete CONFIG_LCD n (kind n) s = Done (tt, s') ∧ rep s' a'.
Proof.
  intros R H G. destruct (held_kind _ _ _ _ R H) as (_ & _ & _ & K). destruct (push_ok _ _ _ R H) as (s1 & E1 & [b Hb] & R1).
  unfold frame_buffer_generate_complete, s_generate in *. erewrite bind_done by exact E1.
  erewrite bind_done by (by apply (freezing_ok _ _ _ R1)). erewrite bind_done by (by apply get_frame_done).
  rewrite negb_involutive. destruct (waiting _ _); [|injection G as <-; by exists s1].
  destruct (s_take _ _) as [[y a2]|] eqn:T; [|done]. injection G as <-.
  destruct (pop_ok _ _ _ _ _ R1 K T) as (s2 & E2 & R2). erewrite bind_done by exact E2.
  assert (kind y = kind n ∧ held a2 !! y = Some 1%nat) as [Ky Hy].
  { unfold s_take in T. destruct (q _ _) as [|y' r] eqn:Q; [done|]. injection T as -> <-. cbn [s_hold held]. split; [|apply lookup_insert_eq].
    destruct (r_in _ _ R1 (ready_of (kind n)) y) as (_ & c & _ & _ & _ & Ky & D).
    - by apply ready_of_list.
    - rewrite Q. set_solver.
    - destruct (kinds_apart (kind y) (kind n)) as (N1 & _ & N2); try done. destruct D as [D|[D _]]; [by rewrite D in N1|auto]. }
  rewrite <-Ky. by apply complete_ok.
Qed.

(** ** Every operation refines its meaning *)
Lemma free_request_ok s a n k m : rep s a → held a !! n = Some k → ∃ s',
  frame_buffer_free_request n m s = Done (tt, s') ∧
  rep s' (match m with MODULE_WIFI | MODULE_DECODER | MODULE_DISPLAY => s_inf (lock_module m false (inf a)) (s_free kind n a) | _ => s_free kind n a end).
Proof.
  intros R H. destruct (r_held _ _ R _ _ H) as (b & Hb & _ & Il & Ir). destruct (free_ok _ _ _ _ R H) as (s1 & E1 & R1).
  assert (inf (s_free kind n a) = inf a) as I by (unfold s_free; by destruct (held a !! n) as [[|[|]]|]).
  unfold frame_buffer_free_request. erewrite bind_done by (by apply get_frame_done). rewrite Il, (proj2 (Z.eqb_neq _ _)) by lia.
  erewrite bind_done by exact E1. destruct m; try (by exists s1); rewrite <-I; eexists; by apply upd_info_ok.
Qed.
Lemma step_ok o s a r a' : rep s a → sstep kind CONFIG_LCD o a = Some (r, a') → ∃ s', crun CONFIG_LCD o s = Done (r, s') ∧ rep s' a'.
Proof.
  intros R E. destruct o; cbn [sstep crun] in *.
  - case_bool_decide as K; [|done]. destruct (s_alloc t a) as [[n a1]|] eqn:A; [|done]. injection E as <- <-. by apply (alloc_ok s a).
  - destruct (held a !! n) as [k|] eqn:H; [|done]. cbn [mbind option_bind] in E. destruct (Nat.ltb_spec k 255); [|done]. injection E as <- <-.
    destruct (lock_ok _ _ _ _ R H) as (s' & E1 & R1); [done|]. exists s'. by erewrite bind_done by exact E1.
  - destruct (held a !! n) as [k|] eqn:H; [|done]. injection E as <- <-.
    destruct (free_ok _ _ _ _ R H) as (s' & E1 & R1). exists s'. by erewrite bind_done by exact E1.
  - case_decide as H; [|done]. injection E as <- <-. destruct (push_ok _ _ _ R H) as (s' & E1 & _ & R1). exists s'. by erewrite bind_done by exact E1.
  - case_bool_decide as K; [|done]. destruct (s_take _ a) as [[n a1]|] eqn:A; [|done]. injection E as <- <-. by apply (pop_ok s a).
  - case_decide as H; [|done]. destruct H as [H <-]. destruct (s_generate _ _ _ _ a) as [a1|] eqn:G; [|done]. injection E as <- <-.
    destruct (generate_ok _ _ _ _ R H G) as (s' & E1 & R1). exists s'. by erewrite bind_done by exact E1.
  - destruct (upd_info_ok s a (λ i, let '(_, l, _) := module_of m i in
      set_module m (true, match m with MODULE_CAPTURE | MODULE_DISPLAY => false | _ => l end, cb) i) R) as [E1 R1].
    destruct (module_of m (inf a)) as [[x l] c]. injection E as <- <-. unfold frame_buffer_frame_register. eexists. split; [by erewrite bind_done by exact E1|exact R1].
  - destruct (upd_info_ok s a (set_module m (false, false, 0)) R) as [E1 R1]. injection E as <- <-.
    unfold frame_buffer_frame_deregister. eexists. split; [by erewrite bind_done by exact E1|exact R1].
  - destruct (held a !! n) as [k|] eqn:H; [|done]. injection E as <- <-.
    destruct (free_request_ok _ _ _ _ m R H) as (s' & E1 & R1). exists s'. by erewrite bind_done by exact E1.
Qed.
End Rep.

(** ** Sequences of calls *)
Section Runs.
Context (kind : nat → Z) (CONFIG_LCD : bool).
Fixpoint cruns (os : list act) : M fb (list (option nat)) :=
  match os with [] => ret [] | o :: os' => let* r := crun CONFIG_LCD o in let* rs := cruns os' in ret (r :: rs) end.
Fixpoint ssteps (os : list act) (a : spec) : option (list (option nat) * spec) :=
  match os with
  | [] => Some ([], a)
  | o :: os' => '(r, a1) ← sstep kind CONFIG_LCD o a; '(rs, a2) ← ssteps os' a1; Some (r :: rs, a2)
  end.
Lemma steps_ok os s a rs a' : rep kind s a → ssteps os a = Some (rs, a') → ∃ s', cruns os s = Done (rs, s') ∧ rep kind s' a'.
Proof.
  revert s a rs a'. induction os as [|o os IH]; intros s a rs a' R E; cbn [ssteps cruns] in *.
  - injection E as <- <-. by exists s.
  - destruct (sstep _ _ o a) as [[r a1]|] eqn:E1; [|done]. cbn in E. destruct (ssteps os a1) as [[rs1 a2]|] eqn:E2; [|done]. injection E as <- <-.
    destruct (step_ok _ _ _ _ _ _ _ R E1) as (s1 & C1 & R1). destruct (IH _ _ _ _ R1 E2) as (s2 & C2 & R2).
    exists s2. erewrite bind_done by exact C1. by erewrite bind_done by exact C2.
Qed.

(** Where the frames are: in the lists, or out. *)
Definition places (a : spec) : list nat := (heads ≫= q a) ++ elements (dom (held a)).

Lemma heads_split h : h ∈ heads → ∃ k, (h ∉ k) ∧ ∀ qs : nat → list nat, (heads ≫= qs) ≡ₚ qs h ++ (k ≫= qs).
Proof.
  intros [k E]%elem_of_Permutation. exists k. split.
  - assert (NoDup heads) as N by (by apply (bool_decide_unpack _)). rewrite E in N. by apply NoDup_cons in N as [? _].
  - intros qs. by rewrite E.
Qed.
Lemma bind_insert_out (k : list nat) (qs : nat → list nat) h xs : h ∉ k → k ≫= <[h := xs]> qs = k ≫= qs.
Proof.
  intros H. induction k as [|g k IH]; [done|]. rewrite !bind_cons, fn_lookup_insert_ne by set_solver. by rewrite IH by set_solver.
Qed.
Lemma bind_insert (qs : nat → list nat) h xs ys zs : h ∈ heads → xs ++ qs h ≡ₚ zs ++ ys →
  xs ++ (heads ≫= qs) ≡ₚ zs ++ (heads ≫= <[h := ys]> qs).
Proof.
  intros Hh E. destruct (heads_split h Hh) as (k & Nk & P). rewrite !P, fn_lookup_insert, bind_insert_out by done.
  by rewrite !(assoc_L (++)), E.
Qed.
Lemma places_put n h a k : h ∈ heads → held a !! n = Some k → places (s_put n h a) ≡ₚ places a.
Proof.
  intros Hh Hn. unfold places, s_put. cbn [q held]. apply elem_of_dom_2 in Hn.
  rewrite dom_delete_L, <-(bind_insert (q a) h [n] (q a h ++ [n]) []); [|done|apply Permutation_cons_append].
  cbn [app]. rewrite Permutation_middle. f_equiv. rewrite <-elements_union_singleton by set_solver.
  by rewrite <-union_difference_singleton_L.
Qed.
Lemma places_hold n a k j : held a !! n = Some k → places (s_hold n j a) ≡ₚ places a.
Proof.
  intros Hn. unfold places, s_hold. cbn [q held]. apply elem_of_dom_2 in Hn.
  rewrite dom_insert_L. by replace ({[n]} ∪ dom (held a)) with (dom (held a)) by set_solver.
Qed.
Lemma places_take s h n a a' : rep kind s a → h ∈ heads → s_take h a = Some (n, a') → places a' ≡ₚ places a ∧ held a' !! n = Some 1%nat.
Proof.
  intros R Hh T. unfold s_take in T. destruct (q a h) as [|n' r] eqn:Q; [done|]. injection T as -> <-.
  destruct (r_in _ _ _ R h n Hh) as [Hn _]; [rewrite Q; set_solver|].
  unfold places, s_hold. cbn [q held]. split; [|apply lookup_insert_eq]. apply not_elem_of_dom in Hn.
  rewrite dom_insert_L, elements_union_singleton by done.
  rewrite <-Permutation_middle. change (n :: ?x ++ ?y) with ((n :: x) ++ y).
  rewrite <-(bind_insert (q a) h [] r [n] Hh); [done|by rewrite Q].
Qed.
Lemma places_free n a k : is_kind (kind n) → held a !! n = Some k → places (s_free kind n a) ≡ₚ places a.
Proof.
  intros K H. unfold s_free. rewrite H. destruct (free_of_list _ K) as [_ Hf].
  destruct k as [|[|k]]; [by eapply places_put|by eapply places_put|by eapply places_hold].
Qed.
Lemma places_notify lk n ms : ∀ a, is_Some (held a !! n) →
  places (foldl (s_notify lk n) a ms) ≡ₚ places a ∧ is_Some (held (foldl (s_notify lk n) a ms) !! n).
Proof.
  induction ms as [|m ms IH]; intros a [k H]; cbn [foldl]; [by eauto|].
  assert (places (s_notify lk n a m) ≡ₚ places a ∧ is_Some (held (s_notify lk n a m) !! n)) as [P I].
  { unfold s_notify. destruct (ready_module m (inf a)); [|by eauto]. split; [exact (places_hold n a k _ H)|].
    cbn [held]. rewrite lookup_insert_eq. by eexists. }
  destruct (IH _ I) as [P' I']. split; [by rewrite P'|done].
Qed.
Lemma places_complete s n a : rep kind s a → held a !! n = Some 1%nat → places (s_complete kind CONFIG_LCD (kind n) n a) ≡ₚ places a.
Proof.
  intros R H. destruct (held_kind _ _ _ _ _ R H) as (_ & _ & _ & K). unfold s_complete.
  destruct (places_notify (kind n =? FRAME_JPEG) n (called CONFIG_LCD (kind n)) a) as [P [j Hj]]; [by eexists|].
  by rewrite (places_free _ _ _ K Hj).
Qed.
(** The next frame to complete is one of the kind that was pushed. *)
Lemma take_kind s a h t n a' : rep kind s a → is_kind t → h = free_of t ∨ h = ready_of t → s_take h a = Some (n, a') → kind n = t.
Proof.
  intros R K Hh T. unfold s_take in T. destruct (q a h) as [|n' r] eqn:Q; [done|]. injection T as -> <-.
  destruct (r_in _ _ _ R h n) as (_ & c & _ & _ & _ & Kn & D).
  - destruct Hh as [->| ->]; [apply (free_of_list t K)|apply (ready_of_list t K)].
  - rewrite Q. set_solver.
  - destruct (kinds_apart (kind n) t) as (N1 & F1 & F2), (kinds_apart t (kind n)) as (N2 & _); try done.
    destruct D as [D|[D _]], Hh; subst h; auto; by rewrite D in *.
Qed.
Lemma step_places s a o r a' : rep kind s a → sstep kind CONFIG_LCD o a = Some (r, a') → places a' ≡ₚ places a.
Proof.
  intros R E. destruct o; cbn [sstep] in E.
  - case_bool_decide as K; [|done]. unfold s_alloc in E.
    destruct (s_take (free_of t) a) as [[n a1]|] eqn:A; [|destruct (s_take (ready_of t) a) as [[n a1]|] eqn:A'; [|done]]; injection E as <- <-.
    + by apply (places_take s (free_of t) n); [|apply (free_of_list t)|].
    + by apply (places_take s (ready_of t) n); [|apply (ready_of_list t)|].
  - destruct (held a !! n) as [k|] eqn:H; [|done]. cbn [mbind option_bind] in E. destruct (k <? 255)%nat; [|done]. injection E as <- <-. by eapply places_hold.
  - destruct (held a !! n) as [k|] eqn:H; [|done]. injection E as <- <-. destruct (held_kind _ _ _ _ _ R H) as (_ & _ & _ & K). by eapply places_free.
  - case_decide as H; [|done]. injection E as <- <-. destruct (held_kind _ _ _ _ _ R H) as (_ & _ & _ & K).
    eapply places_put; [apply (ready_of_list _ K)|done].
  - case_bool_decide as K; [|done]. destruct (s_take _ a) as [[n a1]|] eqn:A; [|done]. injection E as <- <-.
    by apply (places_take s (ready_of t) n); [|apply (ready_of_list t)|].
  - case_decide as H; [|done]. destruct H as [H <-]. destruct (s_generate _ _ _ _ a) as [a1|] eqn:G; [|done]. injection E as <- <-.
    destruct (held_kind _ _ _ _ _ R H) as (_ & _ & _ & K). destruct (push_ok _ _ _ _ R H) as (s1 & _ & _ & R1).
    assert (places (s_put n (ready_of (kind n)) a) ≡ₚ places a) as P by (eapply places_put; [apply (ready_of_list _ K)|done]).
    unfold s_generate in G. destruct (waiting _ _); [|by injection G as <-].
    destruct (s_take _ _) as [[y a2]|] eqn:T; [|done]. injection G as <-.
    destruct (places_take _ _ _ _ _ R1 (proj2 (ready_of_list _ K)) T) as [P2 H2].
    destruct (pop_ok _ _ _ _ _ _ R1 K T) as (s2 & _ & R2).
    rewrite <-(take_kind _ _ _ _ _ _ R1 K (or_intror eq_refl) T). by rewrite (places_complete s2), P2.
  - destruct (module_of m (inf a)) as [[x l] c]. by injection E as <- <-.
  - by injection E as <- <-.
  - destruct (held a !! n) as [k|] eqn:H; [|done]. injection E as <- <-. destruct (held_kind _ _ _ _ _ R H) as (_ & _ & _ & K).
    rewrite <-(places_free n a k K H). by destruct m.
Qed.
Lemma steps_places os s a rs a' : rep kind s a → ssteps os a = Some (rs, a') → places a' ≡ₚ places a.
Proof.
  revert s a rs a'. induction os as [|o os IH]; intros s a rs a' R E; cbn [ssteps] in *; [by injection E as <- <-|].
  destruct (sstep _ _ o a) as [[r a1]|] eqn:E1; [|done]. cbn in E. destruct (ssteps os a1) as [[rs1 a2]|] eqn:E2; [|done]. injection E as <- <-.
  destruct (step_ok _ _ _ _ _ _ _ R E1) as (s1 & _ & R1). by rewrite (IH _ _ _ _ R1 E2), (step_places _ _ _ _ _ R E1).
Qed.
Lemma rep_places s a : rep kind s a → NoDup (places a).
Proof.
  intros R. pose proof (r_lists _ _ _ R) as L.
  assert (∀ hs, NoDup hs → (∀ h, h ∈ hs → h ∈ heads) → NoDup (hs ≫= q a)) as B.
  { induction hs as [|h hs IH]; intros N I; [apply NoDup_nil_2|]. apply NoDup_cons in N as [N1 N2]. rewrite bind_cons, NoDup_app.
    pose proof (dlist_nodup _ _ _ (ls_dlist _ _ _ L h ltac:(set_solver))) as [_ Nh]%NoDup_cons.
    split; [done|]. split; [|apply IH; set_solver]. intros n Hn (g & Hg & Hi)%list_elem_of_bind.
    assert (h = g) as <- by (eapply (ls_disj _ _ _ L); [set_solver|set_solver|done..]). done. }
  unfold places. rewrite NoDup_app. split; [apply B; [by apply (bool_decide_unpack _)|done]|]. split; [|apply NoDup_elements].
  intros n (h & Hn & Hh)%list_elem_of_bind [k Hk]%elem_of_elements%elem_of_dom. destruct (r_in _ _ _ R h n Hh Hn). congruence.
Qed.
End Runs.

(** ** Delivery *)
Section Delivery.
Context (kind : nat → Z) (CONFIG_LCD : bool).

(** The consumers that get the next frame of a kind, and the calls they get. *)
Definition consumers (t : Z) (i : frame_buffer_info_t) : list frame_module_t := filter (λ m, ready_module m i) (called CONFIG_LCD t).
Definition calls_for (i : frame_buffer_info_t) (n : nat) (ms : list frame_module_t) : list (frame_module_t * Z * nat) :=
  map (λ m, ((m, (module_of m i).2), n)) ms.
Definition lock_all (lk : bool) (ms : list frame_module_t) (i : frame_buffer_info_t) : frame_buffer_info_t :=
  if lk then foldl (λ i m, lock_module m true i) i ms else i.

Lemma ready_other m m' i b : m ≠ m' → ready_module m (lock_module m' b i) = ready_module m i.
Proof. by destruct m, m'. Qed.
Lemma filter_ready_lock m b i (ms : list frame_module_t) : m ∉ ms → filter (λ x, ready_module x (lock_module m b i)) ms = filter (λ x, ready_module x i) ms.
Proof.
  intros H. induction ms as [|x ms IH]; [done|]. rewrite !filter_cons, IH by set_solver. by rewrite ready_other by set_solver.
Qed.
Lemma calls_lock m b i n ms : calls_for (lock_module m b i) n ms = calls_for i n ms.
Proof. unfold calls_for. apply map_ext. intros x. by rewrite lock_module_cb. Qed.

Lemma notify_all lk n ms : ∀ a k, NoDup ms → held a !! n = Some k →
  let cs := filter (λ m, ready_module m (inf a)) ms in
  foldl (s_notify lk n) a ms =
  mk_spec (q a) (if decide (cs = []) then held a else <[n := (k + length cs)%nat]> (held a)) (lock_all lk cs (inf a)) (log a ++ calls_for (inf a) n cs).
Proof.
  induction ms as [|m ms IH]; intros a k N H cs; cbn [foldl].
  { subst cs. cbn. rewrite app_nil_r. by destruct a, lk. }
  apply NoDup_cons in N as [Nm N]. subst cs. unfold s_notify at 2. destruct (ready_module m (inf a)) eqn:E.
  - rewrite filter_cons_True by (by rewrite E). rewrite (IH _ (S k) N) by (cbn [held]; rewrite H; apply lookup_insert_eq). cbn [q held inf log].
    assert (filter (λ x, ready_module x (if lk then lock_module m true (inf a) else inf a)) ms = filter (λ x, ready_module x (inf a)) ms) as ->
      by (destruct lk; by rewrite ?filter_ready_lock).
    set (cs := filter (λ x, ready_module x (inf a)) ms). rewrite (decide_False (P := m :: cs = [])) by done.
    rewrite H. cbn [default length]. f_equal.
    + case_decide as Z; [rewrite Z; cbn; do 2 f_equal; lia|]. rewrite insert_insert_eq. f_equal. lia.
    + by destruct lk.
    + rewrite <-app_assoc. f_equal. cbn. f_equal. destruct lk; [by rewrite calls_lock|done].
  - rewrite filter_cons_False by (rewrite E; by intros []). by apply IH.
Qed.
Lemma called_nodup t : NoDup (called CONFIG_LCD t).
Proof. unfold called. destruct (t =? _), CONFIG_LCD; by apply (bool_decide_unpack _). Qed.

Lemma complete_eq t y a : held a !! y = Some 1%nat → kind y = t →
  let cs := consumers t (inf a) in
  s_complete kind CONFIG_LCD t y a =
  mk_spec (if decide (cs = []) then <[free_of t := q a (free_of t) ++ [y]]> (q a) else q a)
    (if decide (cs = []) then delete y (held a) else <[y := length cs]> (held a))
    (lock_all (t =? FRAME_JPEG) cs (inf a)) (log a ++ calls_for (inf a) y cs).
Proof.
  intros H K cs. unfold s_complete. rewrite (notify_all _ _ _ _ 1%nat (called_nodup t) H). fold cs in |- *. change (filter _ _) with cs.
  unfold s_free. cbn [held]. destruct (decide (cs = [])) as [->|N].
  - rewrite H. unfold s_put. cbn [q held inf log]. by rewrite K.
  - rewrite lookup_insert_eq. destruct cs as [|c cs']; [done|]. cbn [length Nat.add]. unfold s_hold. cbn [q held inf log].
    by rewrite insert_insert_eq.
Qed.

Lemma rep_q_ext s a q' : rep kind s a → (∀ h, h ∈ heads → q' h = q a h) → rep kind s (mk_spec q' (held a) (inf a) (log a)).
Proof.
  intros R E. split; try apply R; cbn [q held].
  - eapply lists_ext; [exact E|apply R].
  - intros h n Hh. rewrite E by done. by apply R.
Qed.
Lemma generate_eq s a n y r : q a (ready_of (kind n)) ++ [n] = y :: r → rep kind s a → held a !! n = Some 1%nat →
  let t := kind n in let cs := consumers t (inf a) in let q1 := <[ready_of t := y :: r]> (q a) in let q2 := <[ready_of t := r]> q1 in
  s_generate kind CONFIG_LCD n t a = Some (if waiting t (inf a) then
    mk_spec (if decide (cs = []) then <[free_of t := q2 (free_of t) ++ [y]]> q2 else q2)
      (if decide (cs = []) then delete y (delete n (held a)) else <[y := length cs]> (delete n (held a)))
      (lock_all (t =? FRAME_JPEG) cs (inf a)) (log a ++ calls_for (inf a) y cs)
    else mk_spec q1 (delete n (held a)) (inf a) (log a)).
Proof.
  intros E R H t cs q1 q2. destruct (held_kind _ _ _ _ _ R H) as (_ & _ & _ & K). destruct (push_ok _ _ _ _ R H) as (s1 & _ & _ & R1).
  unfold s_generate. fold t in K, R1 |- *. assert (s_put n (ready_of t) a = mk_spec q1 (delete n (held a)) (inf a) (log a)) as P by (unfold s_put, q1; by rewrite <-E).
  rewrite P in *. cbn [inf]. destruct (waiting t (inf a)); [|done].
  assert (s_take (ready_of t) (mk_spec q1 (delete n (held a)) (inf a) (log a)) =
    Some (y, mk_spec q2 (<[y := 1%nat]> (delete n (held a))) (inf a) (log a))) as T.
  { unfold s_take. cbn [q held inf log]. unfold q1 at 1. by rewrite fn_lookup_insert. }
  rewrite T. pose proof (take_kind kind _ _ _ _ _ _ R1 K (or_intror eq_refl) T) as Ky.
  rewrite complete_eq; [|apply lookup_insert_eq|exact Ky]. cbn [q held inf log]. fold cs.
  do 2 f_equal. destruct (decide (cs = [])); [apply delete_insert_eq|apply insert_insert_eq].
Qed.

End Delivery.
End FrameOps.
