(* ===== verification/FrameRuns.v ===== *)
(** * Frame buffers: the theorems

    The operations of FrameBuf.v over sequences of calls, as FrameOps.v gives their
    meaning: refinement, conservation of the frames, delivery to the consumers, return
    to the free list, what [frame_buffer_set_ppi] builds from any state, and the error
    branches.  Examples run the code on two JPEG frames and one display frame. *)
From stdpp Require Import functions.
From S2P Require Import Prelude DList FrameBuf FrameOps.
Import DList FrameBuf FrameOps.
Local Open Scope Z_scope.

Module FrameRuns.

(** [m] implements [f] on related states. *)
Definition implements (kind : nat → Z) {R} (m : M fb R) (f : spec → option (R * spec)) : Prop :=
  ∀ s a r a', rep kind s a → f a = Some (r, a') → ∃ s', m s = Done (r, s') ∧ rep kind s' a'.
(** Every frame is in one place, in memory, and its lock is the number of its holders. *)
Definition whole (kind : nat → Z) (s : fb) (a : spec) : Prop :=
  NoDup (places a) ∧ (∀ h, h ∈ heads → dlist (lnk s) h (q a h)) ∧
  ∀ n, n ∈ places a → ∃ b, heap s !! n = Some b ∧ type_ b = kind n ∧ lock b = Z.of_nat (default 0%nat (held a !! n)).

Lemma rep_whole kind s a : rep kind s a → whole kind s a.
Proof.
  intros R. split; [by eapply rep_places|]. split; [intros h Hh; by apply (r_lists _ _ _ R)|].
  intros n [(h & Hn & Hh)%list_elem_of_bind|[k Hk]%elem_of_elements%elem_of_dom]%elem_of_app.
  - destruct (r_in _ _ _ R h n Hh Hn) as (H & b & Hb & I). exists b. split; [done|]. split; [by apply (r_heap _ _ _ R)|]. rewrite H. apply I.
  - destruct (r_held _ _ _ R n k Hk) as (b & Hb & I). exists b. split; [done|]. split; [by apply (r_heap _ _ _ R)|]. rewrite Hk. apply I.
Qed.

(** ** Two JPEG frames 5 and 6 and a display frame 7, nothing registered *)
Definition demo_frame (t i : Z) : frame_buffer_t := mk_frame STATE_INVALID t i 0 (0x60000000 + 0x10000 * i) 0 0x10000 0.
Definition demo : fb := mk_fb
  (list_to_map [(1, mk_head 5 6); (5, mk_head 6 1); (6, mk_head 1 5); (2, mk_head 2 2); (3, mk_head 7 7); (7, mk_head 3 3); (4, mk_head 4 4)]%nat)
  (list_to_map [(5%nat, demo_frame FRAME_JPEG 0); (6%nat, demo_frame FRAME_JPEG 1); (7%nat, demo_frame FRAME_DISPLAY 0)])
  (Some (set_minimal_layout true zero_info)) [].
Definition demo_kind (n : nat) : Z := if (n =? 7)%nat then FRAME_DISPLAY else FRAME_JPEG.
Definition demo_q (h : nat) : list nat := match h with 1 => [5; 6] | 3 => [7] | _ => [] end%nat.
Definition demo_spec : spec := mk_spec demo_q ∅ (set_minimal_layout true zero_info) [].
Lemma demo_rep : rep demo_kind demo demo_spec.
Proof.
  split; [|intros n b H|intros h n Hh Hn|by intros n k H|done|done].
  - split.
    + intros h Hh. elem_cases Hh; (split; [|split; by apply (bool_decide_unpack _)]); repeat split; reflexivity.
    + intros h h' x Hh Hh'. elem_cases Hh; elem_cases Hh'; cbn; intros H1%list_elem_of_In H2%list_elem_of_In; cbn in *; lia.
    + intros h x Hh. elem_cases Hh; cbn; intros H1; elem_cases H1; by apply (bool_decide_unpack _).
  - apply elem_of_map_to_list in H. vm_compute in H. apply list_elem_of_In in H.
    repeat (destruct H as [[= <- <-]|H]; [split; [by apply elem_of_dom|split; [by apply (bool_decide_unpack _)|done]]|]). done.
  - elem_cases Hh; cbn in Hn; elem_cases Hn; (split; [done|]; eexists; split; [reflexivity|]; split; [done|]; split; [done|]; split; [by apply (bool_decide_unpack _)|by left]).
Qed.

(** ** Sequences of calls *)
(** Over any sequence of calls that keeps to the protocol (a frame is completed or
    pushed by its only holder and freed by a holder, at most 255 holders), allocating,
    locking, freeing, pushing, popping, completing and the registration of consumers do
    on objects, locks and list pointers what [sstep] says about sequences of frames and
    numbers of holders, with the same frames returned. *)
Theorem frame_buffers_refine kind CONFIG_LCD (os : list act) : implements kind (cruns CONFIG_LCD os) (ssteps kind CONFIG_LCD os).
Proof. intros s a r a' R E. by apply (steps_ok kind CONFIG_LCD os s a). Qed.

(** C21: No frame is lost, duplicated or in two places over any such sequence: every frame
    that was free, ready or out is afterwards in exactly one of the four lists or out,
    the lists are intact in both directions, and the lock of a frame is the number of
    its holders. *)
Theorem frames_conserved kind CONFIG_LCD s a (os : list act) rs a' : rep kind s a → ssteps kind CONFIG_LCD os a = Some (rs, a') →
  ∃ s', cruns CONFIG_LCD os s = Done (rs, s') ∧ whole kind s' a' ∧ places a' ≡ₚ places a.
Proof.
  intros R E. destruct (steps_ok _ _ _ _ _ _ _ R E) as (s' & C & R'). exists s'. split; [done|].
  split; [by apply rep_whole|]. by apply (steps_places kind CONFIG_LCD os s a rs a').
Qed.
(** Transfer and decoder registered, one frame completed, freed by both, another one
    completed while the transfer is busy. *)
Definition demo_calls : list act :=
  [Register MODULE_WIFI 100; Register MODULE_DECODER 200; Alloc FRAME_JPEG; Alloc FRAME_JPEG; Generate 5 FRAME_JPEG;
   FreeRequest 5 MODULE_DECODER; Generate 6 FRAME_JPEG; FreeRequest 5 MODULE_WIFI; FreeRequest 6 MODULE_DECODER; Alloc FRAME_JPEG].
Lemma frames_conserved_witness : ∃ rs a', ssteps demo_kind true demo_calls demo_spec = Some (rs, a') ∧
  (∃ s', cruns true demo_calls demo = Done (rs, s') ∧ whole demo_kind s' a' ∧ places a' ≡ₚ places demo_spec) ∧
  log a' = [(MODULE_WIFI, 100, 5%nat); (MODULE_DECODER, 200, 5%nat); (MODULE_DECODER, 200, 6%nat)].
Proof.
  destruct (ssteps demo_kind true demo_calls demo_spec) as [[rs a']|] eqn:E; [|by vm_compute in E].
  exists rs, a'. split; [done|]. split; [exact (frames_conserved demo_kind true demo demo_spec demo_calls rs a' demo_rep E)|].
  assert (log <$> (snd <$> ssteps demo_kind true demo_calls demo_spec) =
    Some [(MODULE_WIFI, 100, 5%nat); (MODULE_DECODER, 200, 5%nat); (MODULE_DECODER, 200, 6%nat)]) as L by (vm_compute; reflexivity).
  rewrite E in L. by injection L.
Defined.

(** ** Delivery and return *)
(** The places and the calls after the frame [n] of kind [t] is completed, when [y] is
    the oldest ready frame then and [r] are the others. *)
Definition delivered (CONFIG_LCD : bool) (t : Z) (n y : nat) (r : list nat) (a : spec) : spec :=
  let cs := consumers CONFIG_LCD t (inf a) in
  let out := delete n (held a) in
  if waiting t (inf a) then
    mk_spec (let q' := <[ready_of t := r]> (q a) in if decide (cs = []) then <[free_of t := q a (free_of t) ++ [y]]> q' else q')
      (if decide (cs = []) then delete y out else <[y := length cs]> out)
      (lock_all (t =? FRAME_JPEG) cs (inf a)) (log a ++ calls_for (inf a) y cs)
  else mk_spec (<[ready_of t := y :: r]> (q a)) out (inf a) (log a).

(** C22: A completed frame goes to the end of the ready list of its kind.  When no
    consumer waits it stays there.  Otherwise the oldest ready frame of that kind goes
    out: every registered consumer that is not busy is called with it, in the order
    transfer, decoder, capture (or the display), the frame has exactly these holders and
    the consumers of a JPEG frame are marked busy; a frame that nobody takes goes to the
    end of the free list.  Everything else is as before. *)
Theorem frame_delivery kind CONFIG_LCD s a n y r : rep kind s a → held a !! n = Some 1%nat →
  q a (ready_of (kind n)) ++ [n] = y :: r →
  ∃ s', frame_buffer_generate_complete CONFIG_LCD n (kind n) s = Done (tt, s') ∧
    rep kind s' (delivered CONFIG_LCD (kind n) n y r a).
Proof.
  intros R H E. destruct (held_kind _ _ _ _ _ R H) as (_ & _ & _ & K). destruct (kinds_apart _ _ K K) as [Nk _].
  destruct (generate_ok kind CONFIG_LCD s a n _ R H (generate_eq kind CONFIG_LCD s a n y r E R H)) as (s' & G & R'). exists s'. split; [exact G|].
  unfold delivered. destruct (waiting (kind n) (inf a)); [|exact R'].
  apply (rep_q_ext _ _ _ _ R'). cbn [q]. intros h _. unfold insert, fn_insert.
  destruct (decide (consumers _ _ _ = [])); repeat case_decide; congruence.
Qed.
(** Frame 5 is being filled, transfer and capture wait. *)
Definition filling : spec := mk_spec (<[1%nat := [6%nat]]> demo_q) {[5%nat := 1%nat]}
  (set_module MODULE_CAPTURE (true, false, 300) (set_module MODULE_WIFI (true, false, 100) (set_minimal_layout true zero_info))) [].
Lemma filling_rep : ∃ s, rep demo_kind s filling.
Proof.
  destruct (step_ok demo_kind true (Register MODULE_WIFI 100) demo demo_spec _ _ demo_rep eq_refl) as (s1 & _ & R1).
  destruct (step_ok demo_kind true (Register MODULE_CAPTURE 300) s1 _ _ _ R1 eq_refl) as (s2 & _ & R2).
  destruct (step_ok demo_kind true (Alloc FRAME_JPEG) s2 _ _ _ R2 eq_refl) as (s3 & _ & R3). by exists s3.
Qed.
Lemma frame_delivery_witness : ∃ s s', rep demo_kind s filling ∧ frame_buffer_generate_complete true 5 FRAME_JPEG s = Done (tt, s') ∧
  calls s' = [(MODULE_WIFI, 100, 5%nat); (MODULE_CAPTURE, 300, 5%nat)] ∧ (lock <$> heap s' !! 5%nat) = Some 2.
Proof.
  destruct filling_rep as [s R]. destruct (frame_delivery demo_kind true s filling 5 5 [] R eq_refl eq_refl) as (s' & E & R').
  exists s, s'. split; [done|]. split; [exact E|]. split; [exact (r_calls _ _ _ R')|].
  destruct (r_held _ _ _ R' 5%nat 2%nat eq_refl) as (b & Hb & _ & Hl & _). rewrite Hb. cbn. by rewrite Hl.
Defined.

(** What a consumer's request does besides freeing: the consumer can be called again. *)
Definition unlock (i : frame_buffer_info_t) (m : frame_module_t) : frame_buffer_info_t :=
  match m with MODULE_WIFI | MODULE_DECODER | MODULE_DISPLAY => lock_module m false i | _ => i end.
Lemma free_request_step kind LCD a n m k : held a !! n = Some k →
  sstep kind LCD (FreeRequest n m) a = Some (None, s_inf (unlock (inf a) m) (s_free kind n a)).
Proof.
  intros H. cbn [sstep]. rewrite H. cbn [mbind option_bind].
  assert (s_inf (inf a) (s_free kind n a) = s_free kind n a) as E by (unfold s_free; by destruct (held a !! n) as [[|[|]]|]; destruct a).
  unfold unlock. by destruct m; rewrite ?E.
Qed.
Lemma returns_run kind LCD n ms : ∀ s a, rep kind s a → held a !! n = Some (length ms) → ∃ s',
  cruns LCD (map (FreeRequest n) ms) s = Done (map (λ _, None) ms, s') ∧
  rep kind s' (s_inf (foldl unlock (inf a) ms) (s_put n (free_of (kind n)) a)).
Proof.
  induction ms as [|m ms IH]; intros s a R H; [destruct (r_held _ _ _ R _ _ H) as (b & _ & _ & _ & L); cbn in L; lia|].
  destruct (step_ok _ _ _ _ _ _ _ R (free_request_step kind LCD a n m _ H)) as (s1 & C1 & R1).
  cbn [map cruns]. erewrite bind_done by exact C1. unfold s_free in R1. rewrite H in R1. destruct ms as [|m' ms].
  - exists s1. split; [done|exact R1].
  - destruct (IH s1 _ R1 ltac:(apply lookup_insert_eq)) as (s2 & C2 & R2). exists s2. erewrite bind_done by exact C2. split; [done|].
    cbn [length] in R2. unfold s_inf, s_put, s_hold in *. cbn [q held inf log foldl] in *. by rewrite delete_insert_eq in R2.
Qed.
(** C31: A frame that has [length ms] holders is back at the end of the free list of its
    kind exactly when all of them have given it back, whatever their order: after fewer
    requests it is still out with the remaining number of holders, after the last one it
    is free, all other frames are where they were, and transfer, decoder and display can
    be called again. *)
Theorem frame_returns kind CONFIG_LCD s a n ms1 ms2 : rep kind s a → held a !! n = Some (length (ms1 ++ ms2)) → ∃ s',
  cruns CONFIG_LCD (map (FreeRequest n) ms1) s = Done (map (λ _, None) ms1, s') ∧
  rep kind s' (s_inf (foldl unlock (inf a) ms1)
    (if decide (ms2 = []) then s_put n (free_of (kind n)) a else s_hold n (length ms2) a)).
Proof.
  destruct (decide (ms2 = [])) as [->|N].
  { rewrite app_nil_r. apply returns_run. }
  revert s a. induction ms1 as [|m ms IH]; intros s a R H.
  - exists s. split; [done|]. unfold s_inf, s_hold. cbn [q held inf log foldl]. rewrite insert_id by done. by destruct a.
  - destruct (step_ok _ _ _ _ _ _ _ R (free_request_step kind CONFIG_LCD a n m _ H)) as (s1 & C1 & R1).
    cbn [map cruns]. erewrite bind_done by exact C1. unfold s_free in R1. rewrite H in R1.
    destruct (ms ++ ms2) as [|x xs] eqn:E; [by destruct ms, ms2|]. cbn [app length] in R1. rewrite E in R1.
    cbn [length] in R1. destruct (IH s1 _ R1) as (s2 & C2 & R2); [apply lookup_insert_eq|].
    exists s2. erewrite bind_done by exact C2. split; [done|].
    unfold s_inf, s_hold in *. cbn [q held inf log foldl] in *. by rewrite insert_insert_eq in R2.
Qed.
Lemma frame_returns_witness : ∃ s s', rep demo_kind s (s_hold 5 2 filling) ∧
  cruns true [FreeRequest 5 MODULE_WIFI; FreeRequest 5 MODULE_CAPTURE] s = Done ([None; None], s') ∧
  dlist (lnk s') jpeg_free_node_list [6; 5]%nat.
Proof.
  destruct filling_rep as [s0 R0]. destruct (step_ok demo_kind true (Lock 5) s0 filling _ _ R0 eq_refl) as (s & _ & R).
  destruct (frame_returns demo_kind true s (s_hold 5 2 filling) 5 [MODULE_WIFI; MODULE_CAPTURE] [] R eq_refl) as (s' & E & R').
  exists s, s'. split; [exact R|]. split; [exact E|]. exact (ls_dlist _ _ _ (r_lists _ _ _ R') jpeg_free_node_list ltac:(set_solver)).
Defined.

(** ** Error branches *)
Lemma first_with (P : nat → Prop) `{!∀ n, Decision (P n)} xs : Exists P xs →
  ∃ u x v, xs = u ++ x :: v ∧ P x ∧ ∀ y, y ∈ u → ¬ P y.
Proof.
  induction xs as [|x xs IH]; intros E; [by apply Exists_nil in E|]. destruct (decide (P x)) as [Hx|Hx].
  - exists [], x, xs. split; [done|]. split; [done|]. by intros y ?%elem_of_nil.
  - apply Exists_cons in E as [?|E]; [done|]. destruct (IH E) as (u & y & v & -> & Hy & Hu).
    exists (x :: u), y, v. split; [done|]. split; [done|]. intros z [->|Hz]%elem_of_cons; auto.
Qed.
Lemma refree_ok kind s a n : rep kind s a → n ∈ q a (free_of (kind n)) → frame_buffer_free_frame n s = Done (tt, s).
Proof.
  intros R Hn. assert (is_kind (kind n)) as K.
  { assert (free_of (kind n) ∈ heads) as Hh by (unfold free_of; destruct (_ =? _); set_solver).
    destruct (r_in _ _ _ R _ n Hh Hn) as (_ & b & _ & _ & _ & K & _). exact K. }
  destruct (free_of_list _ K) as [El Hh]. destruct (r_in _ _ _ R _ n Hh Hn) as (_ & b & Hb & L & _).
  unfold frame_buffer_free_frame. erewrite bind_done by (by apply get_frame_done). rewrite (proj2 (proj2 (r_heap _ _ _ R _ _ Hb))), El, L.
  cbn [Z.eqb negb].
  destruct (first_with (λ m, frame <$> heap s !! m = Some (frame b)) (q a (free_of (kind n)))) as (u & x & v & E & Hx & Hu).
  { apply Exists_exists. exists n. by rewrite Hb. }
  assert (∀ m, m ∈ q a (free_of (kind n)) → ∃ c, heap s !! m = Some c) as M.
  { intros m Hm. destruct (r_in _ _ _ R _ m Hh Hm) as (_ & c & Hc & _). by exists c. }
  rewrite E in M. pose proof (ls_dlist _ _ _ (r_lists _ _ _ R) _ Hh) as D.
  rewrite (bind_done _ _ s true s); [reflexivity|]. unfold for_each. erewrite bind_done by reflexivity.
  rewrite <-E in M. rewrite E in D.
  apply (for_each_break lnk _ _ (λ c _, c) s (next_done s) (free_of (kind n)) u x v _ _ _ _ D).
  - apply dlist_length in D. rewrite length_app in D. unfold fuel. cbn in D. lia.
  - intros y c Hy. destruct (M y) as [d Hd]; [rewrite E; set_solver|]. erewrite bind_done by (by apply get_frame_done).
    specialize (Hu y Hy). rewrite Hd in Hu. by rewrite (proj2 (Z.eqb_neq _ _)) by (intros Q; apply Hu; cbn; by rewrite Q).
  - destruct (M x) as [d Hd]; [rewrite E; set_solver|]. erewrite bind_done by (by apply get_frame_done).
    rewrite Hd in Hx. injection Hx as ->. by rewrite Z.eqb_refl.
Qed.
(** Error branches.  A frame of an unknown kind is neither allocated nor popped; with
    nothing to take, allocation faults in the arguments of its debug message, and popping
    faults where it writes to the frame before its test; a request for a frame with lock
    0 and the freeing of a free frame change nothing; before [frame_buffer_init] setting
    the format is refused and enabling faults; [frame_buffer_deinit] faults after it has
    released the state. *)
Theorem frame_errors kind s a (t : Z) (n : nat) : rep kind s a →
  (¬ is_kind t → frame_buffer_alloc t s = Done (None, s) ∧ frame_buffer_pop_frame t s = Done (None, s)) ∧
  (is_kind t → q a (ready_of t) = [] → frame_buffer_pop_frame t s = Trap Fault ∧
    (q a (free_of t) = [] → frame_buffer_alloc t s = Trap Fault)) ∧
  (n ∈ places a → held a !! n = None → ∀ m, frame_buffer_free_request n m s = Done (tt, s)) ∧
  (n ∈ q a (free_of (kind n)) → frame_buffer_free_frame n s = Done (tt, s)) ∧
  (∀ P j d d7 p p7 al ppi en, let s0 := with_info None s in
    frame_buffer_set_ppi P j d d7 p p7 al ppi t s0 = Done (BK_FAIL, s0) ∧ frame_buffer_enable en s0 = Trap Fault ∧
    frame_buffer_get_state s0 = Done (false, s0)) ∧
  frame_buffer_deinit s = Trap Fault.
Proof.
  intros R. split_and!.
  - intros K. assert (t ≠ FRAME_JPEG ∧ t ≠ FRAME_DISPLAY) as [N1 N2] by (unfold is_kind in K; tauto).
    unfold frame_buffer_alloc, frame_buffer_pop_frame, free_list, ready_list. by rewrite !(proj2 (Z.eqb_neq _ _)) by done.
  - intros K Er. destruct (ready_of_list _ K) as [El Hr], (free_of_list _ K) as [Ef Hf]. split; [|intros E0].
    + unfold frame_buffer_pop_frame. rewrite El. by erewrite bind_done by (eapply take_first_none; [apply R|done|done]).
    + unfold frame_buffer_alloc. rewrite Ef, El. erewrite bind_done by (eapply take_first_none; [apply R|done|done]). cbv beta iota.
      by erewrite bind_done by (eapply take_first_none; [apply R|done|done]).
  - intros Hn Hh m. destruct (rep_whole _ _ _ R) as (_ & _ & W). destruct (W n Hn) as (b & Hb & _ & Hl).
    unfold frame_buffer_free_request. erewrite bind_done by (by apply get_frame_done). by rewrite Hl, Hh.
  - by apply refree_ok.
  - intros. done.
  - unfold frame_buffer_deinit. erewrite bind_done by reflexivity. by rewrite (r_info _ _ _ R).
Qed.
Lemma frame_errors_witness : frame_buffer_alloc 7 demo = Done (None, demo) ∧ frame_buffer_pop_frame FRAME_JPEG demo = Trap Fault ∧
  frame_buffer_free_request 6 MODULE_WIFI demo = Done (tt, demo) ∧ frame_buffer_free_frame 6 demo = Done (tt, demo).
Proof.
  destruct (frame_errors demo_kind demo demo_spec FRAME_JPEG 6 demo_rep) as (_ & E2 & E3 & E4 & _).
  destruct (frame_errors demo_kind demo demo_spec 7 6 demo_rep) as (E1 & _).
  split; [apply E1; by intros [?|?]|]. split; [apply E2; [by left|done]|].
  split; [apply E3; [by apply (bool_decide_unpack _)|done]|apply E4; by apply (bool_decide_unpack _)].
Defined.

(** The test of [frame_buffer_free_frame] for a second free does not see a frame in the
    ready list: the frame is linked into the free list as well, and the ready list can no
    longer be walked. *)
Lemma ready_freed_twice : match cruns true [Alloc FRAME_JPEG; Generate 5 FRAME_JPEG] demo with
  | Done (_, s) => match frame_buffer_free_frame 5 s with
                   | Done (_, s') => onl (list_size 100 jpeg_ready_node_list) s = Done (1%nat, s) ∧ onl (list_size 100 jpeg_ready_node_list) s' = Trap Hang
                   | _ => False end
  | _ => False end.
Proof. vm_compute. split; reflexivity. Qed.

(** The static initialisers and [frame_buffer_init]: no frames yet. *)
Definition boot : fb := mk_fb (list_to_map [(1, mk_head 1 1); (2, mk_head 2 2); (3, mk_head 3 3); (4, mk_head 4 4)]%nat) ∅ None [].
Lemma boot_rep kind : ∃ s, frame_buffer_init true boot = Done (tt, s) ∧
  rep kind s (mk_spec (λ _, []) ∅ (set_minimal_layout true zero_info) []).
Proof.
  eexists. split; [reflexivity|]. split; cbn [lnk heap frame_buffer_info calls with_info q held inf log boot]; try done; [|by intros h n _ ?%elem_of_nil].
  split; [|by intros ? ? ? ? ? ?%elem_of_nil|by intros ? ? ? ?%elem_of_nil].
  intros h Hh. elem_cases Hh; (split; [|split; by apply (bool_decide_unpack _)]); repeat split; reflexivity.
Qed.
(** The requests of the consumers as events of the media task. *)
Lemma comm_events n : comm_event_handle EVENT_COM_FRAME_WIFI_FREE_IND n = frame_buffer_free_request n MODULE_WIFI ∧
  comm_event_handle EVENT_COM_FRAME_DECODER_FREE_IND n = frame_buffer_free_request n MODULE_DECODER ∧
  comm_event_handle EVENT_COM_FRAME_CAPTURE_FREE_IND n = frame_buffer_free_request n MODULE_CAPTURE.
Proof. done. Qed.

(** ** Building the frames *)
Section Init.
Context (kind : nat → Z).

(** A frame object that is in no list and not out is given back to the heap. *)
Lemma rep_free s a n : rep kind s a → fresh heads (q a) n → held a !! n = None →
  rep kind (with_heap (delete n (heap s)) (with_lnk (delete n (lnk s)) s)) a.
Proof.
  intros R F H. split; cbn [lnk heap frame_buffer_info calls with_heap with_lnk]; [| | | |apply R|apply R].
  - eapply lists_frame; [apply R|]. intros m Hm. apply lookup_delete_ne. by intros <-.
  - intros m b. rewrite lookup_delete_Some. intros [N Hm]. destruct (r_heap _ _ _ R m b Hm) as (D & Hh & K).
    split; [rewrite dom_delete; set_solver|done].
  - intros h m Hh Hm. destruct (r_in _ _ _ R h m Hh Hm) as (Hn & b & Hb & I). split; [done|]. exists b. split; [|done].
    rewrite lookup_delete_ne; [done|]. intros <-. by apply (proj2 F h).
  - intros m k Hm. destruct (r_held _ _ _ R m k Hm) as (b & Hb & I). exists b. split; [|done].
    rewrite lookup_delete_ne; [done|]. intros <-. congruence.
Qed.
Lemma rep_q_eq s a qs : rep kind s a → (∀ h, h ∈ heads → qs h = q a h) → rep kind s (mk_spec qs (held a) (inf a) (log a)).
Proof. apply rep_q_ext. Qed.

(** Emptying a list: only its first frame is given back to the heap. *)
Lemma drop_list_ok s a h : rep kind s a → h ∈ heads → ∃ s',
  drop_list h s = Done (tt, s') ∧ heap s' = match q a h with [] => heap s | n :: _ => delete n (heap s) end ∧
  rep kind s' (mk_spec (<[h := []]> (q a)) (held a) (inf a) (log a)).
Proof.
  intros R Hh. pose proof (ls_dlist _ _ _ (r_lists _ _ _ R) h Hh) as D. unfold drop_list.
  rewrite (bind_done _ _ s (bool_decide (q a h = [])) s); [|unfold onl; rewrite (list_empty_done _ _ _ D); by destruct s].
  destruct (q a h) as [|n r] eqn:E.
  - rewrite bool_decide_eq_true_2 by done. cbn [negb]. exists s. split; [done|]. split; [done|].
    apply rep_q_eq; [done|]. intros g _. unfold insert, fn_insert. case_decide; congruence.
  - rewrite bool_decide_eq_false_2 by done. cbn [negb].
    destruct (rep_take _ _ _ _ _ _ R Hh E) as (s1 & b & Ed & Eh & Hb & I & F & Hn & R1).
    pose proof (rep_free _ _ _ R1 F Hn) as R2. set (s2 := with_heap _ _) in R2.
    destruct (lists_init _ _ _ h (r_lists _ _ _ R2) Hh) as (l3 & E3 & L3 & D3).
    exists (with_lnk l3 s2). split; [|split].
    + rewrite (bind_done _ _ s tt s2); [unfold onl; by rewrite E3|]. unfold for_each. erewrite bind_done by reflexivity.
      apply (for_each_break lnk _ _ (λ c _, c) s (next_done s) h [] n r); [done|unfold fuel; cbn; lia|by intros ? ? ?%elem_of_nil|].
      erewrite bind_done by exact Ed. reflexivity.
    + cbn. by rewrite Eh.
    + apply (rep_q_eq _ (mk_spec (<[h := []]> (<[h := r]> (q a))) (held a) (inf a) (log a))).
      * split; cbn [lnk heap frame_buffer_info calls with_lnk q held inf log]; [exact L3| | |apply R2|apply R2|apply R2].
        -- intros m c. rewrite D3. apply R2.
        -- intros g m Hg. unfold insert, fn_insert at 1. case_decide as G; [by intros ?%elem_of_nil|]. apply R2. done.
      * intros g _. cbn [q]. unfold insert, fn_insert. by repeat case_decide.
Qed.
End Init.

Lemma rep_kind kind kind' s a : rep kind s a → (∀ n, n ∈ dom (heap s) → kind' n = kind n) → rep kind' s a.
Proof.
  intros R E. split; try apply R.
  - intros n b Hb. rewrite E by (by eapply elem_of_dom_2). by apply R.
  - intros h n Hh Hn. destruct (r_in _ _ _ R h n Hh Hn) as (H & b & Hb & I). split; [done|]. exists b. split; [done|].
    unfold in_list in *. by rewrite E by (by eapply elem_of_dom_2).
  - intros n k Hk. destruct (r_held _ _ _ R n k Hk) as (b & Hb & I). exists b. split; [done|].
    unfold is_held in *. by rewrite E by (by eapply elem_of_dom_2).
Qed.

Section Build.
(** [os_malloc] returns a block of its own as long as fewer than [room] are in use. *)
Context (malloc : gset nat → option nat) (room : nat).
Context (malloc_ok : ∀ used, (size used < room)%nat → ∃ n, malloc used = Some n ∧ (n ∉ used) ∧ (n ∉ heads)).
Definition blank (t : Z) (mem : nat → Z * Z) (i : nat) : frame_buffer_t :=
  mk_frame STATE_INVALID t (u8 (Z.of_nat i)) 0 (mem i).1 0 (mem i).2 0.

Lemma new_frame_ok kind s a t mem i : rep kind s a → is_kind t → (size (dom (heap s)) < room)%nat → ∃ s' kind' n,
  new_frame malloc t mem (free_of t) i s = Done (tt, s') ∧ (n ∉ dom (heap s)) ∧ heap s' = <[n := blank t mem i]> (heap s) ∧
  rep kind' s' (mk_spec (<[free_of t := q a (free_of t) ++ [n]]> (q a)) (held a) (inf a) (log a)).
Proof.
  intros R K S. destruct (malloc_ok _ S) as (n & Em & Nu & Nh). destruct (free_of_list t K) as [_ Hf].
  pose (kind' m := if decide (m = n) then t else kind m).
  assert (rep kind' s a) as R'. { eapply rep_kind; [exact R|]. intros m Hm. unfold kind'. rewrite decide_False; [done|]. by intros ->. }
  assert (fresh heads (q a) n) as F.
  { split; [done|]. intros h Hh Hn. destruct (r_in _ _ _ R h n Hh Hn) as (_ & b & Hb & _). apply Nu. by eapply elem_of_dom_2. }
  assert (held a !! n = None) as Hn.
  { destruct (held a !! n) as [k|] eqn:E; [|done]. destruct (r_held _ _ _ R n k E) as (b & Hb & _). destruct Nu. by eapply elem_of_dom_2. }
  set (s1 := with_heap (<[n := blank t mem i]> (heap s)) (with_lnk (<[n := mk_head 0 0]> (lnk s)) s)).
  assert (rep kind' s1 a) as R1.
  { split; cbn [lnk heap frame_buffer_info calls with_heap with_lnk s1]; [| | | |apply R|apply R].
    - eapply lists_frame; [apply R|]. intros m Hm. apply lookup_insert_ne. by intros <-.
    - intros m b. rewrite lookup_insert_Some. intros [[<- <-]|[N Hm]].
      + split; [rewrite dom_insert; set_solver|]. split; [done|]. unfold kind'. by rewrite decide_True.
      + destruct (r_heap _ _ _ R' m b Hm) as (D & ?). split; [rewrite dom_insert; set_solver|done].
    - intros h m Hh Hm. destruct (r_in _ _ _ R' h m Hh Hm) as (Hh' & b & Hb & I). split; [done|]. exists b. split; [|done].
      rewrite lookup_insert_ne; [done|]. intros <-. by apply (proj2 F h).
    - intros m k Hm. destruct (r_held _ _ _ R' m k Hm) as (b & Hb & I). exists b. split; [|done].
      rewrite lookup_insert_ne; [done|]. intros <-. congruence. }
  destruct (rep_put kind' s1 a n (blank t mem i) (blank t mem i) (free_of t) R1 F) as (s' & E & Hs & R2); [apply lookup_insert_eq|done|done| |].
  { unfold in_list, kind'. rewrite decide_True by done. by repeat split; auto. }
  exists s', kind', n. unfold new_frame. erewrite bind_done by reflexivity. rewrite Em.
  split; [|split; [done|split]].
  - rewrite (bind_done _ _ s tt s1) by reflexivity. rewrite <-E. unfold s1. cbn [heap with_heap]. by rewrite insert_insert_eq.
  - rewrite Hs. cbn. by rewrite insert_insert_eq.
  - by rewrite delete_id in R2 by done.
Qed.

Lemma new_frames_ok t mem is0 : is_kind t → ∀ kind s a, rep kind s a → (size (dom (heap s)) + length is0 ≤ room)%nat → ∃ s' kind' ns,
  new_frames malloc t mem (free_of t) is0 s = Done (tt, s') ∧ length ns = length is0 ∧
  dom (heap s') = dom (heap s) ∪ list_to_set ns ∧ (∀ n, n ∈ ns → n ∉ dom (heap s)) ∧
  (∀ n, n ∈ dom (heap s) → heap s' !! n = heap s !! n) ∧
  (∀ k n i, ns !! k = Some n → is0 !! k = Some i → heap s' !! n = Some (blank t mem i)) ∧
  rep kind' s' (mk_spec (<[free_of t := q a (free_of t) ++ ns]> (q a)) (held a) (inf a) (log a)).
Proof.
  intros K. induction is0 as [|i is0 IH]; intros kind s a R S; cbn [new_frames length] in *.
  { exists s, kind, []. do 2 (split; [done|]). split; [set_solver|]. split; [set_solver|]. split; [done|]. split; [done|].
    apply rep_q_eq; [done|]. intros h _. rewrite app_nil_r. unfold insert, fn_insert. case_decide; congruence. }
  destruct (new_frame_ok kind s a t mem i R K) as (s1 & kind1 & n & E1 & Nn & H1 & R1); [lia|].
  assert (dom (heap s1) = {[n]} ∪ dom (heap s)) as D1 by (rewrite H1; apply dom_insert_L).
  destruct (IH kind1 s1 _ R1) as (s2 & kind2 & ns & E2 & L2 & D2 & N2 & F2 & B2 & R2).
  { rewrite D1, size_union, size_singleton by set_solver. lia. }
  exists s2, kind2, (n :: ns). split; [by erewrite bind_done by exact E1|]. split; [cbn; by rewrite L2|].
  split; [rewrite D2, D1; set_solver|]. split; [intros m [->|Hm]%elem_of_cons; [done|specialize (N2 m Hm); set_solver]|].
  split; [intros m Hm; rewrite F2, H1 by set_solver; apply lookup_insert_ne; by intros <-|]. split.
  - intros [|k] m j Hk Hj; cbn in Hk, Hj; [|by eapply B2]. injection Hk as <-. injection Hj as <-.
    rewrite F2, H1 by set_solver. apply lookup_insert_eq.
  - eapply rep_q_eq in R2; [exact R2|]. intros h _. cbn [q]. rewrite fn_lookup_insert, <-app_assoc. cbn [app].
    unfold insert, fn_insert. by case_decide.
Qed.

Context (JPEG_ENC_FRAME_COUNT DISPLAY_FRAME_COUNT DISPLAY_720P_FRAME_COUNT : nat) (psram_map psram_720p_map : psram_t).
(** Number and memory of the frames of a kind in the small and in the large layout. *)
Definition frame_count (t : Z) (small : bool) : nat :=
  if t =? FRAME_JPEG then JPEG_ENC_FRAME_COUNT else if small then DISPLAY_FRAME_COUNT else DISPLAY_720P_FRAME_COUNT.
Definition frame_mem (t : Z) (small : bool) : nat → Z * Z :=
  let m := if small then psram_map else psram_720p_map in if t =? FRAME_JPEG then jpeg_enc m else display m.
Definition small_layout (ppi : Z) : bool := negb (PIXEL_800 * PIXEL_600 <? int32 (ppi_to_pixel_x ppi * ppi_to_pixel_y ppi)).
(** The frames that are given back to the heap: the first of each list. *)
Definition freed (t : Z) (a : spec) : list nat := take 1 (q a (free_of t)) ++ take 1 (q a (ready_of t)).

(** Both initialisations, from the dropping of the lists. *)
Definition rebuild (t : Z) : M fb unit :=
  drop_list (free_of t) ;;; drop_list (ready_of t) ;;;
  let* i := get_info in new_frames malloc t (frame_mem t (minimal_layout i)) (free_of t) (seq 0 (frame_count t (minimal_layout i))).
Lemma dropped_dom (h h' : gmap nat frame_buffer_t) (l : list nat) :
  h' = match l with [] => h | n :: _ => delete n h end → dom h' = dom h ∖ list_to_set (take 1 l).
Proof. intros ->. destruct l; cbn; [|rewrite dom_delete_L]; set_solver. Qed.
Lemma rebuild_ok kind s a t : rep kind s a → is_kind t →
  let small := minimal_layout (inf a) in (size (dom (heap s)) + frame_count t small ≤ room)%nat → ∃ s' kind' ns,
  rebuild t s = Done (tt, s') ∧ length ns = frame_count t small ∧
  rep kind' s' (mk_spec (<[free_of t := ns]> (<[ready_of t := []]> (q a))) (held a) (inf a) (log a)) ∧
  (∀ i n, ns !! i = Some n → heap s' !! n = Some (blank t (frame_mem t small) i)) ∧
  dom (heap s') = (dom (heap s) ∖ list_to_set (freed t a)) ∪ list_to_set ns.
Proof.
  intros R K small S. destruct (free_of_list t K) as [_ Hf], (ready_of_list t K) as [_ Hr]. destruct (kinds_apart t t K K) as [Nk _].
  destruct (drop_list_ok kind s a _ R Hf) as (s1 & E1 & H1 & R1). destruct (drop_list_ok kind s1 _ _ R1 Hr) as (s2 & E2 & H2 & R2).
  cbn [q held inf log] in H2, R2. rewrite fn_lookup_insert_ne in H2 by done.
  apply dropped_dom in H1, H2.
  assert (dom (heap s2) = dom (heap s) ∖ list_to_set (freed t a)) as Dd by (rewrite H2, H1; unfold freed; set_solver).
  destruct (new_frames_ok t (frame_mem t small) (seq 0 (frame_count t small)) K kind s2 _ R2) as (s3 & kind' & ns & E3 & L3 & D3 & _ & _ & B3 & R3).
  { rewrite length_seq, Dd. pose proof (subseteq_size (dom (heap s) ∖ list_to_set (freed t a)) (dom (heap s)) ltac:(set_solver)). lia. }
  exists s3, kind', ns. rewrite length_seq in L3. split; [|split; [done|split; [|split]]].
  - unfold rebuild. erewrite bind_done by exact E1. erewrite bind_done by exact E2. erewrite bind_done by (apply get_info_done, R2). exact E3.
  - eapply rep_q_eq in R3; [exact R3|]. intros h _. cbn [q]. unfold insert, fn_insert. by repeat (case_decide; try congruence).
  - intros i n Hi. apply (B3 i n i Hi). apply lookup_seq_lt. apply lookup_lt_Some in Hi. lia.
  - by rewrite D3, Dd.
Qed.

(** [frame_buffer_set_ppi] picks the layout by the number of pixels and builds the
    frames of the kind: the free list consists of as many new frames as the layout has,
    in the order of their numbers, unlocked, each with its part of the memory map; the
    ready list is empty; frames that are out stay with their holders and the other kind
    is not touched.  Of the frames that were in the two lists only the first of each is
    given back to the heap: the others stay allocated and are in no list. *)
Theorem frame_set_ppi_ok kind s a ppi t : rep kind s a → is_kind t →
  (size (dom (heap s)) + frame_count t (small_layout ppi) ≤ room)%nat → ∃ s' kind' ns,
  frame_buffer_set_ppi true JPEG_ENC_FRAME_COUNT DISPLAY_FRAME_COUNT DISPLAY_720P_FRAME_COUNT psram_map psram_720p_map malloc ppi t s
    = Done (BK_OK, s') ∧
  length ns = frame_count t (small_layout ppi) ∧
  rep kind' s' (mk_spec (<[free_of t := ns]> (<[ready_of t := []]> (q a))) (held a) (set_minimal_layout (small_layout ppi) (inf a)) (log a)) ∧
  (∀ i n, ns !! i = Some n → heap s' !! n = Some (blank t (frame_mem t (small_layout ppi)) i)) ∧
  dom (heap s') = (dom (heap s) ∖ list_to_set (freed t a)) ∪ list_to_set ns.
Proof.
  intros R K S. destruct (upd_info_ok kind s a (set_minimal_layout (small_layout ppi)) R) as [E1 R1].
  destruct (rebuild_ok kind _ _ t R1 K S) as (s' & kind' & ns & E2 & P). exists s', kind', ns. split; [|exact P].
  unfold frame_buffer_set_ppi. erewrite bind_done by reflexivity. rewrite (r_info _ _ _ R).
  erewrite bind_done by exact E1. unfold frame_buffer_jpeg_frame_init, frame_buffer_display_frame_init.
  apply bind_inv in E2 as ([] & s2 & E2 & E3). apply bind_inv in E3 as ([] & s3 & E3 & E4). apply bind_inv in E4 as (i & s4 & E4 & E5).
  destruct K as [->| ->].
  - rewrite (bind_done _ _ _ tt s'); [done|]. cbn [Z.eqb FRAME_JPEG FRAME_DISPLAY Pos.eqb]. rewrite (bind_done _ _ _ BK_OK s'); [done|].
    erewrite bind_done by (apply get_info_done, R1). rewrite (bind_done _ _ _ tt s'); [done|].
    erewrite bind_done by exact E2. erewrite bind_done by exact E3. erewrite bind_done by exact E4. by destruct (minimal_layout i).
  - rewrite (bind_done _ _ _ tt (with_info (Some (set_minimal_layout (small_layout ppi) (inf a))) s)) by done.
    rewrite (bind_done _ _ _ tt s'); [done|]. cbn [Z.eqb FRAME_JPEG FRAME_DISPLAY Pos.eqb]. rewrite (bind_done _ _ _ BK_OK s'); [done|]. rewrite (bind_done _ _ _ tt s'); [done|].
    erewrite bind_done by exact E2. erewrite bind_done by exact E3. erewrite bind_done by exact E4. by destruct (minimal_layout i).
Qed.
End Build.

(** A heap that is never full, and the witness: two JPEG frames and the memory map of a
    layout with two frames of each kind. *)
Definition demo_malloc (used : gset nat) : option nat := Some (S (S (S (S (S (set_fold max 0%nat used)))))).
Lemma demo_malloc_ok room used : (size used < room)%nat → ∃ n, demo_malloc used = Some n ∧ (n ∉ used) ∧ (n ∉ heads).
Proof.
  intros _. eexists. split; [reflexivity|].
  assert (∀ n, n ∈ used → (n ≤ set_fold max 0 used)%nat) as B.
  { apply (set_fold_ind_L (λ r X, ∀ n, n ∈ X → (n ≤ r)%nat)); [set_solver|].
    intros x X r Hx IH n [->%elem_of_singleton|Hn]%elem_of_union; [lia|]. specialize (IH n Hn). lia. }
  split; [intros H%B; lia|]. unfold heads. rewrite !elem_of_cons, elem_of_nil.
  unfold jpeg_free_node_list, jpeg_ready_node_list, display_free_node_list, display_ready_node_list. lia.
Qed.
Definition demo_map : psram_t := mk_psram (λ i, (0x60000000 + 0x10000 * Z.of_nat i, 0x10000)) (λ i, (0x60100000 + 0x60000 * Z.of_nat i, 0x60000)).
Definition PPI_640X480 : Z := 640 * 65536 + 480.
Lemma frame_set_ppi_ok_witness : ∃ s' kind' ns,
  frame_buffer_set_ppi true 3 2 1 demo_map demo_map demo_malloc PPI_640X480 FRAME_JPEG demo = Done (BK_OK, s') ∧ length ns = 3%nat ∧
  rep kind' s' (mk_spec (<[jpeg_free_node_list := ns]> (<[jpeg_ready_node_list := []]> demo_q)) ∅ (set_minimal_layout true zero_info) []).
Proof.
  destruct (frame_set_ppi_ok demo_malloc 100 (demo_malloc_ok 100) 3 2 1 demo_map demo_map demo_kind demo demo_spec PPI_640X480 FRAME_JPEG demo_rep)
    as (s' & kind' & ns & E & L & R & _); [by left|by apply (bool_decide_unpack _)|].
  exists s', kind', ns. split; [exact E|]. split; [exact L|exact R].
Defined.
(** 800 x 600 is encoded with 640 lines: it takes the large layout. *)
Definition PPI_800X600 : Z := 800 * 65536 + 640.
Lemma ppi_800x600_is_large : small_layout PPI_800X600 = false ∧ small_layout (800 * 65536 + 600) = true.
Proof. by vm_compute. Qed.
(** The second frame of the demonstration is lost: allocated, and in no list. *)
Lemma set_ppi_leaks : match frame_buffer_set_ppi true 3 2 1 demo_map demo_map demo_malloc PPI_640X480 FRAME_JPEG demo with
  | Done (_, s) => heap s !! 5%nat = None ∧ heap s !! 6%nat = Some (demo_frame FRAME_JPEG 1) ∧
      lnk s !! 1%nat = Some (mk_head 12 22) ∧ lnk s !! 2%nat = Some (mk_head 2 2)
  | _ => False end.
Proof. vm_compute. by repeat split. Qed.
End FrameRuns.
